(* ===== verification/_CoqProject ===== *)
-Q . S2P
Prelude.v
Schedule.v
Instructions.v
Vm.v
CostType.v
Gasometer.v
Memory.v
MemoryCache.v
Account.v
State.v
StateSpec.v
StateAccounts.v
StateViews.v
StateRefine.v
StateTheorems.v
Worlds.v
WorldLogic.v
Transaction.v
TransactionTheorems.v
Blocks.v
Substate.v
JumpTable.v
Word.v
Interpreter.v
Twins.v
StateTwins.v
CopyData.v
InterpreterSafety.v
InterpreterStep.v
TestHost.v
EvmTheorems.v
VmFactory.v
Tracer.v
Externalities.v
ExternalitiesLaws.v
Executive.v
ExecutiveSafety.v
Transact.v
ExecutionTwins.v
TransactSafety.v
TestExecution.v
ExecutionTheorems.v
Serialize.v
MerkleTree.v
MerkleProofs.v
MerkleTheorems.v
Rewards.v
Finality.v
FinalityProofs.v
Equihash.v
EquihashBits.v
EquihashRows.v
EquihashTheorems.v
Engine.v
Ethash.v
Verification.v
VerificationProofs.v
UncleProofs.v
BlockTheorems.v
Closing.v
Sapling.v
Wallet.v
WalletProofs.v
ChainStore.v
BlockChain.v
ChainTree.v
ChainTables.v
ChainInvariant.v
ChainUpdates.v
ChainInsert.v
ChainGenesis.v
ChainRuns.v
ChainReopen.v
ChainWallet.v
TestChain.v
ChainTheorems.v
ChainUncles.v
Client.v
ClientProofs.v
ClientTheorems.v
