(* ===== verification/Prelude.v ===== *)
(** * Origo: a verification of execution, chain and consensus

    Origo is a fork of the Parity Ethereum client with private transactions. This library
    models the part of it that decides what a transaction does (its checks, the executive
    that runs it, the EVM, the host between them, and the account state with its caches and
    checkpoints), what the chain keeps of blocks (the block chain database with the tree of
    note commitments, the wallet and the mining rewards), and what makes a block valid (its
    verification, the proof-of-work engine with the Equihash verifier, finality, and the
    client that prepares and commits blocks). Programs are translated into Rocq functions
    that run ([vm_compute]) and the theorems are about these functions.

    ** How code is modelled

    A method that mutates, fails and may panic is a computation in the monad [M S Er A] of
    this file: state [S], error type [Er], and [Panic] as an outcome of its own for
    [panic!], failed [expect]s and assertions, out-of-range indices and checked arithmetic.
    Pure functions are functions. Integers are [Z] with their width stated by range
    predicates and every wrap-around written out; [usize] has 64 bits. [wp] and its rules
    are the program logic in which most lemmas are proved; [Panic] satisfies no [wp], so
    each of them also shows that the code does not panic.

    Traits are type classes with a second class for what their users rely on: [Ext] and
    [ExtLaws] (the host of the interpreter), [CostType] and [CostLaws], [Backend] and
    [BackendLaws], [Exec] and [ExecLaws] (virtual machines), [Factory] and [FactoryLaws],
    [Tracer] and [TracerLaws]. A client is proved against the laws and the implementation
    discharges them: the interpreter against [ExtLaws], which the externalities meet; the
    executive against [ExecLaws], which the interpreter meets, and against [StateLaws],
    which the state meets. Third-party code is a class too: [Keccak], [LruCache] (the
    lru-cache crate), [HashDb] (tries and key-value store), [RlpCodec], [TransactionCrypto].
    Their laws are hypotheses of the theorems that need them, and each such theorem is
    applied to a concrete instance ([ListLru], [TestHost], [MemDb], [TestExecution]).

    ** The EVM

    - [Schedule]: [ethcore/vm/src/schedule.rs], gas prices and feature flags by fork;
    - [Instructions]: [ethcore/evm/src/instructions.rs], decoding and the static table;
    - [Vm]: the remaining types of [ethcore/vm/src], with the [Ext] interface;
    - [CostType]: [ethcore/evm/src/evm.rs] and [factory.rs], gas in [usize] or [U256];
    - [Gasometer], [Memory], [JumpTable] (shared_cache.rs), [MemoryCache]
      ([util/memory-cache]), [Word] (the arithmetic arms of [exec_instruction]) and
      [Interpreter] ([interpreter/mod.rs]): one file each;
    - [CopyData], [InterpreterSafety], [InterpreterStep]: the lemmas on the interpreter;
    - [EvmTheorems]: what they give.

    The interpreter's state is the record [Interp] of the code, run next to the host's. One
    [step] is fetch, checks, gas, execution and jump handling as in [step_inner]; [exec]
    iterates it on fuel. The theorems: every instruction and every step is free of panics
    and keeps the invariant [ready]; an execution with [gas] units of gas is over after
    [gas + 1] steps, which is the fuel it is given ([execution_terminates] shows that it
    suffices, as each instruction but a final one costs gas); a trapped execution resumes
    safely with any result of its sub-execution; words, memory, copies, jump destinations,
    memory fees and the gas passed on to calls are what the specification of the EVM says.
    They hold for the 64-bit cost type; [u256_memory_size_panics] shows that the 256-bit
    one has a panic.

    ** The state

    - [Account]: [ethcore/src/state/account.rs]; [State]: [ethcore/src/state/mod.rs] with
      the trait of [backend.rs];
    - [StateSpec]: worlds of accounts and a stack of snapshots as the specification, and the
      invariants of the caches; [StateAccounts], [StateViews], [StateRefine]: the proof;
    - [StateTheorems]: any sequence of operations on the state answers as the specification
      does, however accounts, storage and codes are spread over local cache, backend cache
      and database. Killing accounts is specified between transactions only, which is where
      the code does it. The file also has a database, [MemDb], to run the state on;
    - [Twins], [StateTwins]: two runs of one program from states that differ in their caches
      and databases only. Every method of the state answers alike on both. Garbage is removed
      alike where dust is kept and the database holds no empty accounts.

    ** Execution

    - [Worlds], [WorldLogic]: rules for programs over the state, from its specification;
    - [Substate] ([state/substate.rs]), [Tracer] ([trace/mod.rs], [noop_tracer.rs], the
      builtin table of the machine), [VmFactory] ([ethcore/src/factory.rs]);
    - [Externalities], [ExternalitiesLaws]: [ethcore/src/externalities.rs] and that it is a
      host as the interpreter needs it;
    - [Executive], [ExecutiveSafety]: [CallCreateExecutive] and [Executive] of
      [ethcore/src/executive.rs], with the explicit call stack of [consume];
    - [Transaction], [TransactionTheorems]: [types/src/transaction/transaction.rs], with
      [verify_transaction_basic] of the machine;
    - [Transact], [TransactSafety]: [transact] and [finalize] of [executive.rs];
    - [ExecutionTwins]: the interpreter, the host, the executive and the transaction, run twice
      as in [Twins]; the wasm engine is assumed to reach its host through the [Ext] interface
      only, and both runs have the same factory of machines and the same tracers;
    - [ExecutionTheorems]: the whole stack put together and run ([TestExecution]).

    The executive has references to state, substate and tracers; [Run] is the record of
    what they refer to. A nested call or create is a trap of the machine, which the loop of
    [consume] turns into a frame of its call stack; a panic anywhere in the stack is a panic
    of the execution. [None] as an answer is the exhaustion of fuel; [3 * gas + 2] units
    always suffice, since a frame starts, ends and is resumed at most once for each unit of
    gas that is spent. The theorems: executions end, with a result, at any depth; failing
    ones change nothing; transfers move exactly their value; a transaction is rejected
    without an effect, for the reason it gives, or settled: nonce, gas, action, receipt,
    fees and removed accounts are given exactly. What [finalize] asserts of the refund is not
    proved of the execution: the theorem on transactions names this assertion as the one
    place where a transaction can panic, after an action that succeeded. Two nodes agree on
    a transaction whatever their caches hold; the basic checks of private transactions
    accept exactly what they should, panic on some inputs, and are skipped for others.

    ** Notes

    [Serialize] and [MerkleTree] model the tree of note commitments of
    [ct-lib/zcash_primitives] ([serialize.rs], [merkle_tree.rs], [sapling.rs]): the tree
    that keeps its right frontier, the incremental witness of one note, authentication
    paths, and the serialised form of each. The hash of two nodes is a parameter
    ([Hashable]). [MerkleProofs] defines the complete Merkle tree over a list of notes as
    the reference and relates trees ([tree_rep]) and witnesses ([witness_rep]) to it;
    [MerkleTheorems] shows that the root, the size and the paths are those of the complete
    tree, that a witness follows its tree, and that all of it survives serialisation.

    ** The chain

    - [Blocks] ([types/src/header.rs], [views/block.rs], [views/body.rs]), [Rewards]
      ([types/src/rewards.rs], [reward_config.rs] and the reward functions of
      [blockchain.rs]);
    - [Sapling], [Wallet], [WalletProofs]: [blockchain/src/wallet]; decryption of notes and
      the encoding of addresses are parameters ([NoteCryptography]), and the chain uses the
      wallet through [WalletOps] and [WalletLaws], which the wallet meets;
    - [ChainStore], [BlockChain]: [blockchain/src/blockchain.rs] with its tables on disk,
      caches, pending updates and batches;
    - [ChainTree], [ChainTables], [ChainInvariant], [ChainUpdates], [ChainInsert],
      [ChainGenesis], [ChainRuns], [ChainReopen], [ChainWallet]: the proof that it is a tree
      of blocks with a canonical branch; [ChainTheorems], on [TestChain] as an instance.

    The loops of [tree_route] run on as much fuel as the larger of the two block numbers, and
    the binary search for the first block on as much as the number it starts from, which the
    proofs show to be enough. The abstract chain ([Tree]) has the known blocks, the canonical
    branch, and what the two tables hold that the code does not keep in step with it: the
    block of each number ([tr_numbers]) and the block of each recorded root ([tr_anchors]).
    Imported blocks are on branches that the chain can follow ([good_branch]); among others
    their rewards are computed and do not run out, which [rewards_within_total] shows for
    blocks with allowed uncles as long as the configuration leaves enough to mine. The
    theorems: any sequence of imports and finalisations keeps the queries right for this
    tree; an import reports the route between the old and the new canonical branch; rewards
    are undone when blocks are retracted and never exceed the total reward; the wallet holds
    the notes that the canonical branch pays to it, with valid paths; a restart finds the
    chain again. The tables that are out of step, the restart that panics, and the wallet
    that is reloaded with other positions have a theorem each.

    ** Consensus

    - [Equihash], with [EquihashBits], [EquihashRows] and [EquihashTheorems]:
      [equihash/src]; Blake2b is a parameter ([Blake2b], [Blake2bLaws]). The buffers are the
      byte arrays of the code; the level loop runs on fuel 128, one unit for each row, of
      which it uses seven;
    - [Engine] (errors, header encoding and hashes, [populate_from_parent] of the machine),
      [Ethash] ([ethereum/ethash.rs], [equihash_verifier.rs], [block_reward.rs]),
      [Verification] ([verification.rs]): checks run in the monad [Check], with the engine
      ([EthEngine]) and the chain ([BlockProvider]) as interfaces, and the clock
      ([SystemTime]), sha-256, RLP items and the trie root as parameters;
    - [VerificationProofs], [UncleProofs], [BlockTheorems]: what the checks accept;
    - [Closing]: the rewards that the engine pays over the state, against the ones the chain
      counts;
    - [Finality], [FinalityProofs]: [authority_round/finality.rs];
    - [ChainUncles], [Client], [ClientProofs], [ClientTheorems]: [client.rs], where it
      prepares and commits blocks.

    The theorems: the Equihash verifier accepts exactly the solutions of the puzzle, in which
    it compares the indices of two rows in part only; a seal, and a block with its uncles, is
    accepted exactly if it follows the rules, without panics; the difficulty stays within its
    bounds and falls with time; closing a block pays what the chain counts, for an engine
    that rewards by eras, without a reward contract or a table of block rewards; what the
    client prepares passes the verification; committing blocks makes the heaviest branch
    canonical, with the engine in step, unless the parent of a block to retract is finalised;
    rolling finality reports a block when a majority has signed, and how rebuilding it goes
    wrong if a block names a signer twice.

    ** Not modelled

    Printing ([informant.rs], [trace!]), RLP and trie encodings (a trie is what it holds),
    the Wasm machine, the native code of built-in contracts, threads and locks, the queue of
    unverified blocks, the log filter, epochs and garbage collection of the chain, the
    engines other than proof of work beyond rolling finality, the trace database, pruning,
    snapshots, the transaction pool, network, RPC, accounts, the command line, and the
    zero-knowledge proofs of private transactions. *)

From Stdlib Require Import ZArith Lia Bool.
From stdpp Require Import base numbers option list.

Open Scope Z_scope.

(** ** Fixed-width integers

    [u8], [u64], [usize] (64-bit targets), [U256] and [U512] are kept as [Z]; the
    width is stated by a range predicate and every operation writes its own
    wrap-around out. *)

Definition U64_MOD : Z := 2 ^ 64.
Definition U128_MOD : Z := 2 ^ 128.
Definition U160_MOD : Z := 2 ^ 160.
Definition U256_MOD : Z := 2 ^ 256.
Definition U512_MOD : Z := 2 ^ 512.

Definition is_u8 (x : Z) : Prop := 0 <= x < 256.
Definition is_u64 (x : Z) : Prop := 0 <= x < U64_MOD.
Definition is_u256 (x : Z) : Prop := 0 <= x < U256_MOD.
Definition is_address (x : Z) : Prop := 0 <= x < U160_MOD.

(** [U256::low_u64() as usize] *)
Definition low_u64 (x : Z) : Z := x mod U64_MOD.

(** [a + b] on [usize]: overflow is a panic where overflow checks are on. *)
Definition usize_add (a b : Z) : option Z :=
  if a + b <? U64_MOD then Some (a + b) else None.

Definition usize_mul (a b : Z) : option Z :=
  if a * b <? U64_MOD then Some (a * b) else None.

Definition usize_sub (a b : Z) : option Z :=
  if b <=? a then Some (a - b) else None.

(** [U256 + U256] and [U256 - U256]: the operators panic on overflow. *)
Definition u256_add (a b : Z) : option Z :=
  if a + b <? U256_MOD then Some (a + b) else None.

Definition u256_sub (a b : Z) : option Z :=
  if b <=? a then Some (a - b) else None.

Definition u256_overflowing_add (a b : Z) : Z * bool :=
  ((a + b) mod U256_MOD, U256_MOD <=? a + b).

Definition u256_overflowing_sub (a b : Z) : Z * bool :=
  ((a - b) mod U256_MOD, a <? b).

Definition u256_overflowing_mul (a b : Z) : Z * bool :=
  ((a * b) mod U256_MOD, U256_MOD <=? a * b).

Definition u256_saturating_add (a b : Z) : Z := Z.min (a + b) (U256_MOD - 1).
Definition u256_saturating_sub (a b : Z) : Z := Z.max (a - b) 0.
Definition u256_saturating_mul (a b : Z) : Z := Z.min (a * b) (U256_MOD - 1).

Definition u256_not (a : Z) : Z := U256_MOD - 1 - a.
Definition u256_shl (a n : Z) : Z := (Z.shiftl a n) mod U256_MOD.
Definition u256_shr (a n : Z) : Z := Z.shiftr a n.

(** [U256::bits]: the number of significant bits. *)
Definition u256_bits (a : Z) : Z := if a =? 0 then 0 else Z.log2 a + 1.

(** ** Byte vectors *)

Abbreviation bytes := (list Z).

Definition is_bytes (l : bytes) : Prop := Forall is_u8 l.

Definition zlen {A} (l : list A) : Z := Z.of_nat (length l).

(** [&l[a..b]]; [None] is the out-of-range panic. *)
Definition vec_slice {A} (l : list A) (a b : Z) : option (list A) :=
  if (0 <=? a) && (a <=? b) && (b <=? zlen l)
  then Some (take (Z.to_nat (b - a)) (drop (Z.to_nat a) l))
  else None.

(** [l[a..a + xs.len()].copy_from_slice(xs)]; [None] is the out-of-range panic. *)
Definition vec_write {A} (l : list A) (a : Z) (xs : list A) : option (list A) :=
  if (0 <=? a) && (a + zlen xs <=? zlen l)
  then Some (take (Z.to_nat a) l ++ xs ++ drop (Z.to_nat (a + zlen xs)) l)
  else None.

(** [l[i]]; [None] is the out-of-range panic. *)
Definition vec_get {A} (l : list A) (i : Z) : option A :=
  if 0 <=? i then l !! Z.to_nat i else None.

(** [Vec::resize(n, x)]. *)
Definition vec_resize {A} (l : list A) (n : Z) (x : A) : list A :=
  take (Z.to_nat n) l ++ replicate (Z.to_nat n - length l) x.

(** Big-endian value of a byte slice, [U256::from(&[u8])]: more than 32 bytes panic. *)
Definition be_value (l : bytes) : Z := foldl (fun acc b => acc * 256 + b) 0 l.

Definition u256_from_slice (l : bytes) : option Z :=
  if zlen l <=? 32 then Some (be_value l) else None.

(** The [n] low bytes of [v], most significant first ([U256::to_big_endian]). *)
Fixpoint be_bytes (n : nat) (v : Z) : bytes :=
  match n with
  | O => []
  | S n' => be_bytes n' (v / 256) ++ [v mod 256]
  end.

(** [keccak_hash::keccak], a parameter. *)
Class Keccak : Type := keccak : bytes -> Z.

(** [KECCAK_EMPTY]: the hash of no bytes. *)
Definition KECCAK_EMPTY : Z :=
  0xc5d2460186f7233c927e7db2dcc703c0e500b653ca82273b7bfad8045d85a470.

(** [KECCAK_NULL_RLP]: the hash of the empty RLP string, the root of an empty trie. *)
Definition KECCAK_NULL_RLP : Z :=
  0x56e81f171bcc55a6ff8345e692c0f86e5b48e01b996cadc001622fb5e363b421.

(** ** Computations with state, errors and panics

    [M S Er A] is a Rust method body that may mutate the state [S], return early with
    an error of type [Er] (the [?] operator), or panic. The state reached is kept on
    the error path, since mutations made before an early return persist. *)

Inductive outcome (S Er A : Type) : Type :=
| Ret (a : A) (s : S)
| Throw (e : Er) (s : S)
| Panic.
Arguments Ret {S Er A} _ _.
Arguments Throw {S Er A} _ _.
Arguments Panic {S Er A}.

Definition M (S Er A : Type) : Type := S -> outcome S Er A.

Definition ret {S Er A} (a : A) : M S Er A := fun s => Ret a s.
Definition throw {S Er A} (e : Er) : M S Er A := fun s => Throw e s.
Definition panic {S Er A} : M S Er A := fun _ => Panic.

Definition bind {S Er A B} (m : M S Er A) (k : A -> M S Er B) : M S Er B :=
  fun s => match m s with
           | Ret a s' => k a s'
           | Throw e s' => Throw e s'
           | Panic => Panic
           end.

Definition get {S Er} : M S Er S := fun s => Ret s s.
Definition gets {S Er A} (f : S -> A) : M S Er A := fun s => Ret (f s) s.
Definition modify {S Er} (f : S -> S) : M S Er unit := fun s => Ret tt (f s).

(** [.expect(..)], and any other operation whose failure is a panic. *)
Definition expect {S Er A} (o : option A) : M S Er A :=
  match o with Some a => ret a | None => panic end.

(** [assert!(b)] *)
Definition assert_ {S Er} (b : bool) : M S Er unit := if b then ret tt else panic.

(** A pure [Result<A, Er>]. *)
Definition lift_result {S Er A} (r : A + Er) : M S Er A :=
  match r with inl a => ret a | inr e => throw e end.

Declare Scope origo_scope.
Delimit Scope origo_scope with origo.
Notation "'do' x <- m 'in' k" := (bind m (fun x => k))
  (at level 10, x name, m at level 200, k at level 200) : origo_scope.
Notation "'do' ' p <- m 'in' k" := (bind m (fun x => match x with p => k end))
  (at level 10, p pattern, m at level 200, k at level 200) : origo_scope.
Notation "m ;;; k" := (bind m (fun _ => k))
  (at level 199, k at level 200, right associativity) : origo_scope.
Open Scope origo_scope.

(** ** Weakest preconditions

    [wp m Q R s]: run from [s], the computation [m] does not panic, establishes [Q] on
    a normal return and [R] on an early error return. *)

Definition wp {S Er A} (m : M S Er A) (Q : A -> S -> Prop) (R : Er -> S -> Prop) (s : S) : Prop :=
  match m s with
  | Ret a s' => Q a s'
  | Throw e s' => R e s'
  | Panic => False
  end.

Create HintDb origo discriminated.

Section WpRules.
Context {S Er : Type}.

Lemma wp_ret {A} (a : A) (Q : A -> S -> Prop) (R : Er -> S -> Prop) s : Q a s -> wp (ret a) Q R s.
Proof. done. Qed.

Lemma wp_throw {A} (e : Er) (Q : A -> S -> Prop) R s : R e s -> wp (throw e) Q R s.
Proof. done. Qed.

Lemma wp_bind {A B} (m : M S Er A) (k : A -> M S Er B) Q R s :
  wp m (fun a s' => wp (k a) Q R s') R s -> wp (bind m k) Q R s.
Proof. unfold wp, bind. by destruct (m s). Qed.

Lemma wp_bind_inv {A B} (m : M S Er A) (k : A -> M S Er B) Q R s :
  wp (bind m k) Q R s -> wp m (fun a s' => wp (k a) Q R s') R s.
Proof. unfold wp, bind. by destruct (m s). Qed.

Lemma wp_mono {A} (m : M S Er A) (Q Q' : A -> S -> Prop) (R R' : Er -> S -> Prop) s :
  wp m Q R s -> (forall a s', Q a s' -> Q' a s') -> (forall e s', R e s' -> R' e s') -> wp m Q' R' s.
Proof. unfold wp. destruct (m s); auto. Qed.

Lemma wp_and {A} (m : M S Er A) (Q1 Q2 : A -> S -> Prop) (R1 R2 : Er -> S -> Prop) s :
  wp m Q1 R1 s -> wp m Q2 R2 s ->
  wp m (fun a s' => Q1 a s' /\ Q2 a s') (fun e s' => R1 e s' /\ R2 e s') s.
Proof. unfold wp. destruct (m s); auto. Qed.

Lemma wp_expect {A} (o : option A) a (Q : A -> S -> Prop) (R : Er -> S -> Prop) s :
  o = Some a -> Q a s -> wp (expect o) Q R s.
Proof. by intros ->. Qed.

Lemma wp_assert b (Q : unit -> S -> Prop) (R : Er -> S -> Prop) s :
  b = true -> Q tt s -> wp (assert_ b) Q R s.
Proof. by intros ->. Qed.

Lemma wp_gets {A} (f : S -> A) (Q : A -> S -> Prop) (R : Er -> S -> Prop) s :
  Q (f s) s -> wp (gets f) Q R s.
Proof. done. Qed.

Lemma wp_modify (f : S -> S) (Q : unit -> S -> Prop) (R : Er -> S -> Prop) s :
  Q tt (f s) -> wp (modify f) Q R s.
Proof. done. Qed.

Lemma wp_lift_result {A} (r : A + Er) (Q : A -> S -> Prop) (R : Er -> S -> Prop) s :
  (forall a, r = inl a -> Q a s) -> (forall e, r = inr e -> R e s) -> wp (lift_result r) Q R s.
Proof. destruct r; intros; [apply wp_ret|apply wp_throw]; auto. Qed.

End WpRules.

(** Splits a binary sequence of statements at its head. *)
Ltac wp_bind := apply wp_bind.

(** Discharges conditionals on booleans by cases, keeping the equation. *)
Ltac case_bool :=
  match goal with
  | |- context [if ?b then _ else _] => let H := fresh "Hb" in destruct b eqn:H
  end.

Ltac case_bool_in H :=
  match type of H with
  | context [if ?b then _ else _] => let Hb := fresh "Hb" in destruct b eqn:Hb
  end.

(** ** Integers *)

Lemma U64_MOD_pos : 0 < U64_MOD. Proof. unfold U64_MOD; lia. Qed.
Lemma U160_MOD_pos : 0 < U160_MOD. Proof. unfold U160_MOD; lia. Qed.
Lemma U256_MOD_pos : 0 < U256_MOD. Proof. unfold U256_MOD; lia. Qed.

(** Unfolds the width constants and range predicates for [lia]. *)
Ltac unfold_widths :=
  unfold is_u8, is_u64, is_u256, is_address, U64_MOD, U128_MOD, U160_MOD, U256_MOD, U512_MOD in *.
Ltac range_lia := unfold_widths; lia.

Lemma is_u256_mod x : is_u256 (x mod U256_MOD).
Proof. apply Z.mod_pos_bound, U256_MOD_pos. Qed.

Lemma is_u256_small x : 0 <= x < 2 ^ 64 -> is_u256 x.
Proof. range_lia. Qed.

Lemma is_address_u256 a : is_address a -> is_u256 a.
Proof. range_lia. Qed.

Lemma low_u64_bound x : 0 <= low_u64 x < U64_MOD.
Proof. apply Z.mod_pos_bound, U64_MOD_pos. Qed.

Lemma low_u64_small x : 0 <= x < U64_MOD -> low_u64 x = x.
Proof. apply Z.mod_small. Qed.

#[export] Hint Resolve is_u256_mod is_u256_small is_address_u256 : origo.

(** Bits above the width are zero exactly for values below the modulus. *)
Lemma range_testbit_iff n x : 0 <= n -> 0 <= x ->
  (x < 2 ^ n <-> forall i, n <= i -> Z.testbit x i = false).
Proof.
  intros Hn Hx. split.
  - intros Hlt i Hi.
    destruct (Z.eq_dec x 0) as [->|Hne]; [apply Z.testbit_0_l|].
    apply Z.bits_above_log2; [done|].
    assert (Z.log2 x < n) by (apply Z.log2_lt_pow2; lia). lia.
  - intros Hbits. destruct (Z_lt_le_dec x (2 ^ n)) as [|Hge]; [done|].
    assert (0 < x) by (pose proof (Z.pow_pos_nonneg 2 n); lia).
    assert (n <= Z.log2 x) by (apply Z.log2_le_pow2; lia).
    specialize (Hbits (Z.log2 x) ltac:(done)).
    rewrite Z.bit_log2 in Hbits by lia. done.
Qed.

Lemma is_u256_bits x : 0 <= x -> (forall i, 256 <= i -> Z.testbit x i = false) -> is_u256 x.
Proof. intros Hx Hb. split; [done|]. apply (range_testbit_iff 256); [lia|done|done]. Qed.

Lemma u256_high_bits x i : is_u256 x -> 256 <= i -> Z.testbit x i = false.
Proof.
  intros [Hx0 Hx] Hi. apply (proj1 (range_testbit_iff 256 x ltac:(lia) Hx0)); [exact Hx|lia].
Qed.

(** ** Lists and slices *)

(** Checked arithmetic within the range. *)
Lemma u256_add_some a b : a + b < U256_MOD -> u256_add a b = Some (a + b).
Proof. intros. unfold u256_add. by rewrite (proj2 (Z.ltb_lt _ _)) by done. Qed.

Lemma u256_sub_some a b : b <= a -> u256_sub a b = Some (a - b).
Proof. intros. unfold u256_sub. by rewrite (proj2 (Z.leb_le _ _)) by done. Qed.

Lemma usize_add_some a b : a + b < U64_MOD -> usize_add a b = Some (a + b).
Proof. intros. unfold usize_add. by rewrite (proj2 (Z.ltb_lt _ _)) by done. Qed.

Lemma zlen_nil {A} : zlen (@nil A) = 0. Proof. done. Qed.
Lemma zlen_cons {A} (x : A) l : zlen (x :: l) = 1 + zlen l.
Proof. unfold zlen; cbn [length]; lia. Qed.
Lemma zlen_app {A} (l k : list A) : zlen (l ++ k) = zlen l + zlen k.
Proof. unfold zlen; rewrite length_app; lia. Qed.
Lemma zlen_nonneg {A} (l : list A) : 0 <= zlen l. Proof. unfold zlen; lia. Qed.
Lemma zlen_take {A} n (l : list A) : 0 <= n <= zlen l -> zlen (take (Z.to_nat n) l) = n.
Proof. unfold zlen; rewrite length_take; lia. Qed.
Lemma zlen_drop {A} n (l : list A) : 0 <= n <= zlen l -> zlen (drop (Z.to_nat n) l) = zlen l - n.
Proof. unfold zlen; rewrite length_drop; lia. Qed.
Lemma zlen_replicate {A} n (x : A) : 0 <= n -> zlen (replicate (Z.to_nat n) x) = n.
Proof. unfold zlen; rewrite length_replicate; lia. Qed.
Lemma zlen_rev {A} (l : list A) : zlen (rev l) = zlen l.
Proof. unfold zlen; rewrite length_rev; lia. Qed.

Lemma fmap_rev {A B} (f : A -> B) l : f <$> rev l = rev (f <$> l).
Proof. induction l as [|x l IH]; [done|]. cbn. by rewrite fmap_app, IH. Qed.

Lemma fmap_join {A B} (f : A -> B) (ls : list (list A)) : f <$> mjoin ls = mjoin ((fun l => f <$> l) <$> ls).
Proof. induction ls as [|l ls IH]; [done|]. change (mjoin (l :: ls)) with (l ++ mjoin ls). rewrite fmap_app, IH. done. Qed.

Lemma elem_of_join_rev {A B} (f : A -> list B) (l : list A) x : x ∈ mjoin (f <$> rev l) <-> x ∈ mjoin (f <$> l).
Proof.
  rewrite !list_elem_of_join. setoid_rewrite list_elem_of_fmap.
  assert (Hr : forall y, y ∈ rev l <-> y ∈ l) by (intros y; rewrite !list_elem_of_In; symmetry; apply in_rev).
  setoid_rewrite Hr. done.
Qed.

Lemma vec_slice_some {A} (l : list A) a b :
  0 <= a -> a <= b -> b <= zlen l ->
  vec_slice l a b = Some (take (Z.to_nat (b - a)) (drop (Z.to_nat a) l)).
Proof.
  intros Ha Hab Hb. unfold vec_slice.
  rewrite (proj2 (Z.leb_le 0 a)), (proj2 (Z.leb_le a b)), (proj2 (Z.leb_le b (zlen l))) by done.
  done.
Qed.

Lemma vec_slice_app {A} (a b c : list A) lo hi : lo = zlen a -> hi = zlen a + zlen b ->
  vec_slice (a ++ b ++ c) lo hi = Some b.
Proof.
  intros -> ->. unfold vec_slice, zlen. rewrite !length_app.
  rewrite (proj2 (Z.leb_le _ _)), (proj2 (Z.leb_le _ _)), (proj2 (Z.leb_le _ _)) by lia. cbn [andb].
  rewrite Nat2Z.id, drop_app_length. replace (Z.to_nat _) with (length b) by lia. by rewrite take_app_length.
Qed.

Lemma vec_slice_tail {A} (a b : list A) lo hi : lo = zlen a -> hi = zlen (a ++ b) -> vec_slice (a ++ b) lo hi = Some b.
Proof. intros Hlo ->. rewrite <- (app_nil_r b) at 1. apply vec_slice_app; [done|]. by rewrite zlen_app. Qed.

Lemma vec_slice_head {A} (a b : list A) hi : hi = zlen a -> vec_slice (a ++ b) 0 hi = Some a.
Proof. intros ->. by apply (vec_slice_app []). Qed.

Lemma vec_slice_inv {A} (l s : list A) a b :
  vec_slice l a b = Some s ->
  0 <= a /\ a <= b /\ b <= zlen l /\ s = take (Z.to_nat (b - a)) (drop (Z.to_nat a) l).
Proof. unfold vec_slice. intros H. case_bool_in H; [|done]. simplify_eq. split_and!; [lia|lia|lia|done]. Qed.

Lemma vec_slice_len {A} (l s : list A) a b : vec_slice l a b = Some s -> zlen s = b - a.
Proof.
  intros (Ha & Hab & Hb & ->)%vec_slice_inv.
  apply zlen_take. rewrite zlen_drop by lia. lia.
Qed.

Lemma vec_write_some {A} (l xs : list A) a :
  0 <= a -> a + zlen xs <= zlen l ->
  vec_write l a xs = Some (take (Z.to_nat a) l ++ xs ++ drop (Z.to_nat (a + zlen xs)) l).
Proof.
  intros Ha Hb. unfold vec_write.
  rewrite (proj2 (Z.leb_le 0 a)), (proj2 (Z.leb_le _ (zlen l))) by done. done.
Qed.

Lemma vec_write_inv {A} (l xs l' : list A) a :
  vec_write l a xs = Some l' ->
  0 <= a /\ a + zlen xs <= zlen l /\
  l' = take (Z.to_nat a) l ++ xs ++ drop (Z.to_nat (a + zlen xs)) l.
Proof. unfold vec_write. intros H. case_bool_in H; [|done]. simplify_eq. split_and!; [lia|lia|done]. Qed.

Lemma vec_write_len {A} (l xs l' : list A) a : vec_write l a xs = Some l' -> zlen l' = zlen l.
Proof.
  intros (Ha & Hb & ->)%vec_write_inv. pose proof (zlen_nonneg xs).
  rewrite !zlen_app, zlen_take, zlen_drop by lia. lia.
Qed.

Lemma vec_write_Forall {A} (P : A -> Prop) (l xs l' : list A) a :
  Forall P l -> Forall P xs -> vec_write l a xs = Some l' -> Forall P l'.
Proof.
  intros Hl Hxs (_ & _ & ->)%vec_write_inv.
  rewrite !Forall_app. auto using Forall_take, Forall_drop.
Qed.

Lemma vec_slice_Forall {A} (P : A -> Prop) (l s : list A) a b :
  Forall P l -> vec_slice l a b = Some s -> Forall P s.
Proof. intros Hl (_ & _ & _ & ->)%vec_slice_inv. auto using Forall_take, Forall_drop. Qed.

(** Reading a write back, and reading beside it. *)
Lemma vec_write_lookup {A} (l xs l' : list A) a i :
  vec_write l a xs = Some l' ->
  l' !! i = if decide (a <= Z.of_nat i < a + zlen xs)
            then xs !! (i - Z.to_nat a)%nat else l !! i.
Proof.
  intros (Ha & Hb & ->)%vec_write_inv. unfold zlen in *.
  case_decide as Hi.
  - rewrite lookup_app_r by (rewrite length_take; lia).
    rewrite length_take, lookup_app_l by lia. f_equal; lia.
  - destruct (Z_lt_le_dec (Z.of_nat i) a).
    + rewrite lookup_app_l by (rewrite length_take; lia). rewrite lookup_take.
      case_decide; [done|lia].
    + rewrite lookup_app_r by (rewrite length_take; lia).
      rewrite length_take, lookup_app_r by lia. rewrite lookup_drop. f_equal; lia.
Qed.

Lemma vec_slice_lookup {A} (l s : list A) a b i :
  vec_slice l a b = Some s ->
  s !! i = if decide (Z.of_nat i < b - a) then l !! (Z.to_nat a + i)%nat else None.
Proof.
  intros (Ha & Hab & Hb & ->)%vec_slice_inv. rewrite lookup_take, lookup_drop.
  repeat case_decide; done || lia.
Qed.

Lemma vec_get_Some {A} (l : list A) i x : vec_get l i = Some x -> 0 <= i < zlen l.
Proof.
  unfold vec_get. destruct (Z.leb_spec 0 i); [|done].
  intros Hl%lookup_lt_Some. unfold zlen. lia.
Qed.

Lemma vec_get_is_Some {A} (l : list A) i : 0 <= i < zlen l -> exists x, vec_get l i = Some x.
Proof.
  intros Hi. unfold vec_get. rewrite (proj2 (Z.leb_le 0 i)) by lia.
  apply lookup_lt_is_Some. unfold zlen in Hi. lia.
Qed.

Lemma vec_get_Forall {A} (P : A -> Prop) (l : list A) i x :
  Forall P l -> vec_get l i = Some x -> P x.
Proof.
  unfold vec_get. intros Hl. case_bool; [|done]. intros Hx.
  by eapply Forall_lookup_1 in Hx.
Qed.

(** ** Big-endian encoding *)

Lemma be_value_app l k : be_value (l ++ k) = be_value l * 256 ^ zlen k + be_value k.
Proof.
  unfold be_value. revert l. induction k as [|b k IH] using rev_ind; intros l.
  - rewrite app_nil_r. change (256 ^ zlen []) with 1. cbn. lia.
  - rewrite app_assoc, (foldl_app _ (l ++ k)), IH, (foldl_app _ k), zlen_app. cbn [foldl].
    replace (zlen [b]) with 1 by done.
    rewrite Z.pow_add_r by (pose proof (zlen_nonneg k); lia). lia.
Qed.

Lemma be_value_bound l : is_bytes l -> 0 <= be_value l < 256 ^ zlen l.
Proof.
  induction l as [|b l IH] using rev_ind; intros Hl; [done|].
  unfold is_bytes in Hl. rewrite Forall_app, Forall_singleton in Hl. destruct Hl as [Hl Hb].
  specialize (IH Hl). rewrite be_value_app, zlen_app.
  replace (zlen [b]) with 1 by done. replace (be_value [b]) with b by (cbn; lia).
  rewrite Z.pow_add_r by (pose proof (zlen_nonneg l); lia).
  change (256 ^ 1) with 256. unfold is_u8 in Hb. lia.
Qed.

Lemma length_be_bytes n v : length (be_bytes n v) = n.
Proof. revert v. induction n; intros v; cbn; [done|]. rewrite length_app, IHn. cbn. lia. Qed.

Lemma zlen_be_bytes n v : zlen (be_bytes n v) = Z.of_nat n.
Proof. unfold zlen. by rewrite length_be_bytes. Qed.

Lemma is_bytes_be_bytes n v : is_bytes (be_bytes n v).
Proof.
  revert v. induction n; intros v; cbn; [constructor|].
  apply Forall_app. split; [apply IHn|]. repeat constructor; apply Z.mod_pos_bound; lia.
Qed.

Lemma be_value_be_bytes n v : be_value (be_bytes n v) = v mod 256 ^ Z.of_nat n.
Proof.
  revert v. induction n as [|n IH]; intros v.
  - cbn. by rewrite Z.mod_1_r.
  - cbn [be_bytes]. rewrite be_value_app, IH.
    replace (zlen [v mod 256]) with 1 by done.
    replace (be_value [v mod 256]) with (v mod 256) by (cbn; lia).
    rewrite Nat2Z.inj_succ, Z.pow_succ_r by lia.
    pose proof (Z.pow_pos_nonneg 256 (Z.of_nat n) ltac:(lia) ltac:(lia)).
    rewrite Z.rem_mul_r by lia. change (256 ^ 1) with 256. lia.
Qed.

Lemma u256_from_slice_some l :
  zlen l <= 32 -> is_bytes l -> exists v, u256_from_slice l = Some v /\ is_u256 v.
Proof.
  intros Hl Hb. unfold u256_from_slice. rewrite (proj2 (Z.leb_le _ _)) by done.
  eexists; split; [done|]. pose proof (be_value_bound l Hb).
  assert (256 ^ zlen l <= 256 ^ 32) by (apply Z.pow_le_mono_r; lia).
  range_lia.
Qed.

(** ** Filters *)

Lemma filter_all {A} (P : A -> Prop) `{forall x, Decision (P x)} (l : list A) :
  Forall P l -> filter P l = l.
Proof. induction 1; [done|]. rewrite filter_cons_True by done. by f_equal. Qed.

Lemma elem_of_fmap_filter {A B} (f : A -> B) (P : A -> Prop) `{forall x, Decision (P x)}
    (l : list A) y : y ∈ f <$> filter P l -> y ∈ f <$> l.
Proof. rewrite !list_elem_of_fmap. intros (x & -> & [_ Hx]%list_elem_of_filter). eauto. Qed.

Lemma NoDup_fmap_filter {A B} (f : A -> B) (P : A -> Prop) `{forall x, Decision (P x)}
    (l : list A) : NoDup (f <$> l) -> NoDup (f <$> filter P l).
Proof.
  induction l as [|x l IH]; [done|]. rewrite fmap_cons. intros Hnd.
  inversion Hnd as [|? ? Hni Hnd']; subst. rewrite filter_cons. case_decide; [|auto].
  rewrite fmap_cons. constructor; [|auto]. intros Hin. by eapply Hni, elem_of_fmap_filter.
Qed.
