(* ===== verification/Schedule.v ===== *)
(** * The cost schedule of the virtual machine

    [ethcore/vm/src/schedule.rs]: every price and feature switch the interpreter, the
    gasometer and the executive consult, with the constructors of the protocol eras,
    and the well-formedness the interpreter's own assertions rely on. *)

From S2P Require Import Prelude.
From stdpp Require Import base numbers list.

Open Scope Z_scope.

(** Dust accounts cleanup mode. *)
Inductive CleanDustMode : Type :=
| DustOff
| BasicOnly
| WithCodeAndStorage.

#[export] Instance CleanDustMode_eq_dec : EqDecision CleanDustMode.
Proof. solve_decision. Defined.

(** Wasm cost table. *)
Record WasmCosts : Type := mkWasmCosts {
  wasm_regular : Z;
  wasm_div : Z;
  wasm_mul : Z;
  wasm_mem : Z;
  wasm_static_u256 : Z;
  wasm_static_address : Z;
  wasm_initial_mem : Z;
  wasm_grow_mem : Z;
  wasm_memcpy : Z;
  wasm_max_stack_height : Z;
  wasm_opcodes_mul : Z;
  wasm_opcodes_div : Z;
  wasm_have_create2 : bool;
  wasm_have_gasleft : bool;
}.

(** Definition of the cost schedule and other parameterisations for the EVM. *)
Record Schedule : Type := mkSchedule {
  exceptional_failed_code_deposit : bool;
  have_delegate_call : bool;
  have_create2 : bool;
  have_revert : bool;
  have_extcodehash : bool;
  stack_limit : Z;
  max_depth : Z;
  tier_step_gas : list Z;
  exp_gas : Z;
  exp_byte_gas : Z;
  sha3_gas : Z;
  sha3_word_gas : Z;
  sload_gas : Z;
  sstore_set_gas : Z;
  sstore_reset_gas : Z;
  sstore_refund_gas : Z;
  jumpdest_gas : Z;
  log_gas : Z;
  log_data_gas : Z;
  log_topic_gas : Z;
  create_gas : Z;
  call_gas : Z;
  call_stipend : Z;
  call_value_transfer_gas : Z;
  call_new_account_gas : Z;
  suicide_refund_gas : Z;
  memory_gas : Z;
  quad_coeff_div : Z;
  create_data_gas : Z;
  create_data_limit : Z;
  tx_gas : Z;
  tx_create_gas : Z;
  tx_data_zero_gas : Z;
  tx_data_non_zero_gas : Z;
  copy_gas : Z;
  extcodesize_gas : Z;
  extcodecopy_base_gas : Z;
  balance_gas : Z;
  extcodehash_gas : Z;
  suicide_gas : Z;
  suicide_to_new_account_cost : Z;
  sub_gas_cap_divisor : option Z;
  no_empty : bool;
  kill_empty : bool;
  blockhash_gas : Z;
  have_static_call : bool;
  have_return_data : bool;
  have_bitwise_shifting : bool;
  kill_dust : CleanDustMode;
  eip1283 : bool;
  keep_unsigned_nonce : bool;
  wasm : option WasmCosts;
}.

(** [WasmCosts::default] *)
Definition WasmCosts_default : WasmCosts := {|
    wasm_regular := 1;
    wasm_div := 16;
    wasm_mul := 4;
    wasm_mem := 2;
    wasm_static_u256 := 64;
    wasm_static_address := 40;
    wasm_initial_mem := 4096;
    wasm_grow_mem := 8192;
    wasm_memcpy := 1;
    wasm_max_stack_height := 64 * 1024;
    wasm_opcodes_mul := 3;
    wasm_opcodes_div := 8;
    wasm_have_create2 := false;
    wasm_have_gasleft := false;
  |}.

(** [Schedule::new] *)
Definition new (efcd hdc : bool) (tcg : Z) : Schedule := {|
    exceptional_failed_code_deposit := efcd;
    have_delegate_call := hdc;
    have_create2 := false;
    have_revert := false;
    have_return_data := false;
    have_bitwise_shifting := false;
    have_extcodehash := false;
    stack_limit := 1024;
    max_depth := 1024;
    tier_step_gas := [0; 2; 3; 5; 8; 10; 20; 0];
    exp_gas := 10;
    exp_byte_gas := 10;
    sha3_gas := 30;
    sha3_word_gas := 6;
    sload_gas := 50;
    sstore_set_gas := 20000;
    sstore_reset_gas := 5000;
    sstore_refund_gas := 15000;
    jumpdest_gas := 1;
    log_gas := 375;
    log_data_gas := 8;
    log_topic_gas := 375;
    create_gas := 32000;
    call_gas := 40;
    call_stipend := 2300;
    call_value_transfer_gas := 9000;
    call_new_account_gas := 25000;
    suicide_refund_gas := 24000;
    memory_gas := 3;
    quad_coeff_div := 512;
    create_data_gas := 200;
    create_data_limit := U64_MOD - 1;
    tx_gas := 21000;
    tx_create_gas := tcg;
    tx_data_zero_gas := 4;
    tx_data_non_zero_gas := 68;
    copy_gas := 3;
    extcodesize_gas := 20;
    extcodecopy_base_gas := 20;
    extcodehash_gas := 400;
    balance_gas := 20;
    suicide_gas := 0;
    suicide_to_new_account_cost := 0;
    sub_gas_cap_divisor := None;
    no_empty := false;
    kill_empty := false;
    blockhash_gas := 20;
    have_static_call := false;
    kill_dust := DustOff;
    eip1283 := false;
    keep_unsigned_nonce := false;
    wasm := None;
  |}.

(** Schedule for the Frontier-era of the main net. *)
Definition new_frontier : Schedule := new false false 21000.

(** Schedule for the Homestead-era of the main net. *)
Definition new_homestead : Schedule := new true true 53000.

(** Schedule for the post-EIP-150-era of the main net. *)
Definition new_post_eip150 (max_code_size : Z) (fix_exp no_empty_ kill_empty_ : bool) : Schedule := {|
    exceptional_failed_code_deposit := true;
    have_delegate_call := true;
    have_create2 := false;
    have_revert := false;
    have_return_data := false;
    have_bitwise_shifting := false;
    have_extcodehash := false;
    stack_limit := 1024;
    max_depth := 1024;
    tier_step_gas := [0; 2; 3; 5; 8; 10; 20; 0];
    exp_gas := 10;
    exp_byte_gas := if fix_exp then 50 else 10;
    sha3_gas := 30;
    sha3_word_gas := 6;
    sload_gas := 200;
    sstore_set_gas := 20000;
    sstore_reset_gas := 5000;
    sstore_refund_gas := 15000;
    jumpdest_gas := 1;
    log_gas := 375;
    log_data_gas := 8;
    log_topic_gas := 375;
    create_gas := 32000;
    call_gas := 700;
    call_stipend := 2300;
    call_value_transfer_gas := 9000;
    call_new_account_gas := 25000;
    suicide_refund_gas := 24000;
    memory_gas := 3;
    quad_coeff_div := 512;
    create_data_gas := 200;
    create_data_limit := max_code_size;
    tx_gas := 21000;
    tx_create_gas := 53000;
    tx_data_zero_gas := 4;
    tx_data_non_zero_gas := 68;
    copy_gas := 3;
    extcodesize_gas := 700;
    extcodecopy_base_gas := 700;
    extcodehash_gas := 400;
    balance_gas := 400;
    suicide_gas := 5000;
    suicide_to_new_account_cost := 25000;
    sub_gas_cap_divisor := Some(64);
    no_empty := no_empty_;
    kill_empty := kill_empty_;
    blockhash_gas := 20;
    have_static_call := false;
    kill_dust := DustOff;
    eip1283 := false;
    keep_unsigned_nonce := false;
    wasm := None;
  |}.

(** Schedule for the Byzantium fork: the post-EIP-150 one with four switches turned on. *)
Definition new_byzantium : Schedule :=
  let schedule := new_post_eip150 24576 true true true in {|
    exceptional_failed_code_deposit := exceptional_failed_code_deposit schedule;
    have_delegate_call := have_delegate_call schedule;
    have_create2 := true;
    have_revert := true;
    have_extcodehash := have_extcodehash schedule;
    stack_limit := stack_limit schedule;
    max_depth := max_depth schedule;
    tier_step_gas := tier_step_gas schedule;
    exp_gas := exp_gas schedule;
    exp_byte_gas := exp_byte_gas schedule;
    sha3_gas := sha3_gas schedule;
    sha3_word_gas := sha3_word_gas schedule;
    sload_gas := sload_gas schedule;
    sstore_set_gas := sstore_set_gas schedule;
    sstore_reset_gas := sstore_reset_gas schedule;
    sstore_refund_gas := sstore_refund_gas schedule;
    jumpdest_gas := jumpdest_gas schedule;
    log_gas := log_gas schedule;
    log_data_gas := log_data_gas schedule;
    log_topic_gas := log_topic_gas schedule;
    create_gas := create_gas schedule;
    call_gas := call_gas schedule;
    call_stipend := call_stipend schedule;
    call_value_transfer_gas := call_value_transfer_gas schedule;
    call_new_account_gas := call_new_account_gas schedule;
    suicide_refund_gas := suicide_refund_gas schedule;
    memory_gas := memory_gas schedule;
    quad_coeff_div := quad_coeff_div schedule;
    create_data_gas := create_data_gas schedule;
    create_data_limit := create_data_limit schedule;
    tx_gas := tx_gas schedule;
    tx_create_gas := tx_create_gas schedule;
    tx_data_zero_gas := tx_data_zero_gas schedule;
    tx_data_non_zero_gas := tx_data_non_zero_gas schedule;
    copy_gas := copy_gas schedule;
    extcodesize_gas := extcodesize_gas schedule;
    extcodecopy_base_gas := extcodecopy_base_gas schedule;
    balance_gas := balance_gas schedule;
    extcodehash_gas := extcodehash_gas schedule;
    suicide_gas := suicide_gas schedule;
    suicide_to_new_account_cost := suicide_to_new_account_cost schedule;
    sub_gas_cap_divisor := sub_gas_cap_divisor schedule;
    no_empty := no_empty schedule;
    kill_empty := kill_empty schedule;
    blockhash_gas := blockhash_gas schedule;
    have_static_call := true;
    have_return_data := true;
    have_bitwise_shifting := have_bitwise_shifting schedule;
    kill_dust := kill_dust schedule;
    eip1283 := eip1283 schedule;
    keep_unsigned_nonce := keep_unsigned_nonce schedule;
    wasm := wasm schedule;
  |}.

(** Schedule for the Constantinople fork: Byzantium with the shift opcodes. *)
Definition new_constantinople : Schedule :=
  let schedule := new_byzantium in {|
    exceptional_failed_code_deposit := exceptional_failed_code_deposit schedule;
    have_delegate_call := have_delegate_call schedule;
    have_create2 := have_create2 schedule;
    have_revert := have_revert schedule;
    have_extcodehash := have_extcodehash schedule;
    stack_limit := stack_limit schedule;
    max_depth := max_depth schedule;
    tier_step_gas := tier_step_gas schedule;
    exp_gas := exp_gas schedule;
    exp_byte_gas := exp_byte_gas schedule;
    sha3_gas := sha3_gas schedule;
    sha3_word_gas := sha3_word_gas schedule;
    sload_gas := sload_gas schedule;
    sstore_set_gas := sstore_set_gas schedule;
    sstore_reset_gas := sstore_reset_gas schedule;
    sstore_refund_gas := sstore_refund_gas schedule;
    jumpdest_gas := jumpdest_gas schedule;
    log_gas := log_gas schedule;
    log_data_gas := log_data_gas schedule;
    log_topic_gas := log_topic_gas schedule;
    create_gas := create_gas schedule;
    call_gas := call_gas schedule;
    call_stipend := call_stipend schedule;
    call_value_transfer_gas := call_value_transfer_gas schedule;
    call_new_account_gas := call_new_account_gas schedule;
    suicide_refund_gas := suicide_refund_gas schedule;
    memory_gas := memory_gas schedule;
    quad_coeff_div := quad_coeff_div schedule;
    create_data_gas := create_data_gas schedule;
    create_data_limit := create_data_limit schedule;
    tx_gas := tx_gas schedule;
    tx_create_gas := tx_create_gas schedule;
    tx_data_zero_gas := tx_data_zero_gas schedule;
    tx_data_non_zero_gas := tx_data_non_zero_gas schedule;
    copy_gas := copy_gas schedule;
    extcodesize_gas := extcodesize_gas schedule;
    extcodecopy_base_gas := extcodecopy_base_gas schedule;
    balance_gas := balance_gas schedule;
    extcodehash_gas := extcodehash_gas schedule;
    suicide_gas := suicide_gas schedule;
    suicide_to_new_account_cost := suicide_to_new_account_cost schedule;
    sub_gas_cap_divisor := sub_gas_cap_divisor schedule;
    no_empty := no_empty schedule;
    kill_empty := kill_empty schedule;
    blockhash_gas := blockhash_gas schedule;
    have_static_call := have_static_call schedule;
    have_return_data := have_return_data schedule;
    have_bitwise_shifting := true;
    kill_dust := kill_dust schedule;
    eip1283 := eip1283 schedule;
    keep_unsigned_nonce := keep_unsigned_nonce schedule;
    wasm := wasm schedule;
  |}.

(** [Schedule::wasm]: panics where no wasm schedule is configured. *)
Definition schedule_wasm {S Er} (s : Schedule) : M S Er WasmCosts := expect (wasm s).

(** ** Well-formedness

    What the interpreter assumes of a schedule: [mem_gas_cost] asserts that
    [quad_coeff_div] is 512, the call opcodes assert that a value transfer costs more
    than the stipend it grants, [requirements] indexes [tier_step_gas] by tier, the
    EIP-1283 refunds subtract [sload_gas] from the two [SSTORE] prices, and the EIP-150
    cap divides by its divisor. Prices are machine words far from overflow. *)

Definition small_price (x : Z) : bool := (0 <=? x) && (x <? 2 ^ 32).

Definition schedule_wf (s : Schedule) : bool :=
  (quad_coeff_div s =? 512)
  && (call_stipend s <? call_value_transfer_gas s)
  && (Nat.eqb (length (tier_step_gas s)) 8)
  && forallb small_price (tier_step_gas s)
  && forallb small_price
       [stack_limit s; max_depth s; exp_gas s; exp_byte_gas s; sha3_gas s; sha3_word_gas s;
        sload_gas s; sstore_set_gas s; sstore_reset_gas s; sstore_refund_gas s; log_gas s;
        log_data_gas s; log_topic_gas s; create_gas s; call_gas s; call_stipend s;
        call_value_transfer_gas s; call_new_account_gas s; suicide_refund_gas s; memory_gas s;
        create_data_gas s; tx_gas s; tx_create_gas s; tx_data_zero_gas s; tx_data_non_zero_gas s;
        copy_gas s; extcodesize_gas s; extcodecopy_base_gas s; balance_gas s; extcodehash_gas s;
        suicide_gas s; suicide_to_new_account_cost s; blockhash_gas s]
  && (sload_gas s <=? sstore_set_gas s)
  && (sload_gas s <=? sstore_reset_gas s)
  && match sub_gas_cap_divisor s with Some d => (0 <? d) && (d <? 2 ^ 32) | None => true end.

(** Every opcode that lets execution continue costs at least one unit of gas. *)
Definition schedule_progress (s : Schedule) : bool :=
  forallb (fun t => 0 <? nth t (tier_step_gas s) 0) [1; 2; 3; 4; 5; 6]%nat
  && forallb (fun x => 0 <? x)
       [exp_gas s; sha3_gas s; sload_gas s; sstore_set_gas s; sstore_reset_gas s; log_gas s;
        create_gas s; call_gas s; balance_gas s; extcodesize_gas s; extcodehash_gas s;
        extcodecopy_base_gas s; blockhash_gas s].

(** The schedules of all eras are well formed and charge for progress. *)
Lemma schedule_new_wf efcd hdc tcg :
  small_price tcg = true ->
  schedule_wf (new efcd hdc tcg) = true /\ schedule_progress (new efcd hdc tcg) = true.
Proof. intros H. split; [|reflexivity]. unfold schedule_wf. cbn -[small_price]. rewrite H. reflexivity. Qed.

Lemma schedule_post_eip150_wf mcs fe ne ke :
  schedule_wf (new_post_eip150 mcs fe ne ke) = true
  /\ schedule_progress (new_post_eip150 mcs fe ne ke) = true.
Proof. destruct fe; split; reflexivity. Qed.

Lemma schedule_eras_wf :
  Forall (fun s => schedule_wf s = true /\ schedule_progress s = true)
    [new_frontier; new_homestead; new_post_eip150 24576 true true true; new_byzantium;
     new_constantinople].
Proof. repeat constructor. Qed.

(** ** The same facts as propositions *)

Definition small (x : Z) : Prop := 0 <= x < 2 ^ 32.

Record schedule_ok (s : Schedule) : Prop := mkScheduleOk {
  ok_quad_coeff_div : quad_coeff_div s = 512;
  ok_stipend : call_stipend s < call_value_transfer_gas s;
  ok_tiers : forall t, (t < 8)%nat -> exists g, tier_step_gas s !! t = Some g /\ small g;
  ok_sload_set : sload_gas s <= sstore_set_gas s;
  ok_sload_reset : sload_gas s <= sstore_reset_gas s;
  ok_cap : forall d, sub_gas_cap_divisor s = Some d -> 0 < d < 2 ^ 32;
  ok_stack_limit : small (stack_limit s);
  ok_max_depth : small (max_depth s);
  ok_exp_gas : small (exp_gas s);
  ok_exp_byte_gas : small (exp_byte_gas s);
  ok_sha3_gas : small (sha3_gas s);
  ok_sha3_word_gas : small (sha3_word_gas s);
  ok_sload_gas : small (sload_gas s);
  ok_sstore_set_gas : small (sstore_set_gas s);
  ok_sstore_reset_gas : small (sstore_reset_gas s);
  ok_sstore_refund_gas : small (sstore_refund_gas s);
  ok_log_gas : small (log_gas s);
  ok_log_data_gas : small (log_data_gas s);
  ok_log_topic_gas : small (log_topic_gas s);
  ok_create_gas : small (create_gas s);
  ok_call_gas : small (call_gas s);
  ok_call_stipend : small (call_stipend s);
  ok_call_value_transfer_gas : small (call_value_transfer_gas s);
  ok_call_new_account_gas : small (call_new_account_gas s);
  ok_suicide_refund_gas : small (suicide_refund_gas s);
  ok_memory_gas : small (memory_gas s);
  ok_create_data_gas : small (create_data_gas s);
  ok_tx_gas : small (tx_gas s);
  ok_tx_create_gas : small (tx_create_gas s);
  ok_tx_data_zero_gas : small (tx_data_zero_gas s);
  ok_tx_data_non_zero_gas : small (tx_data_non_zero_gas s);
  ok_copy_gas : small (copy_gas s);
  ok_extcodesize_gas : small (extcodesize_gas s);
  ok_extcodecopy_base_gas : small (extcodecopy_base_gas s);
  ok_balance_gas : small (balance_gas s);
  ok_extcodehash_gas : small (extcodehash_gas s);
  ok_suicide_gas : small (suicide_gas s);
  ok_suicide_to_new_account_cost : small (suicide_to_new_account_cost s);
  ok_blockhash_gas : small (blockhash_gas s);
}.

Lemma schedule_wf_ok s : schedule_wf s = true -> schedule_ok s.
Proof.
  unfold schedule_wf. rewrite !andb_true_iff, Nat.eqb_eq.
  intros (((((((Hq & Hst) & Hlen) & Ht) & Hp) & Hs1) & Hs2) & Hcap).
  cbn [forallb] in Hp. unfold small_price in *. split; unfold small; try lia.
  - intros t Hlt. destruct (lookup_lt_is_Some_2 (tier_step_gas s) t ltac:(lia)) as [g Hg].
    exists g. split; [done|]. rewrite forallb_forall in Ht.
    specialize (Ht g). rewrite <- list_elem_of_In in Ht.
    specialize (Ht (list_elem_of_lookup_2 _ _ _ Hg)). lia.
  - intros d Hd. rewrite Hd in Hcap. lia.
Qed.

(** The tiers that let execution continue have a positive price. *)
Lemma schedule_progress_tier s t g :
  schedule_progress s = true -> (1 <= t <= 6)%nat -> tier_step_gas s !! t = Some g -> 1 <= g.
Proof.
  unfold schedule_progress. rewrite andb_true_iff. intros [Ht _] Hr Hg.
  rewrite forallb_forall in Ht. specialize (Ht t).
  apply nth_lookup_Some with (d := 0) in Hg. rewrite <- Hg.
  assert (Hin : List.In t [1; 2; 3; 4; 5; 6]%nat) by (cbn; lia).
  specialize (Ht Hin). lia.
Qed.

Record progress_ok (s : Schedule) : Prop := mkProgressOk {
  pg_tier : forall t g, (1 <= t <= 6)%nat -> tier_step_gas s !! t = Some g -> 1 <= g;
  pg_exp_gas : 1 <= exp_gas s;
  pg_sha3_gas : 1 <= sha3_gas s;
  pg_sload_gas : 1 <= sload_gas s;
  pg_sstore_set_gas : 1 <= sstore_set_gas s;
  pg_sstore_reset_gas : 1 <= sstore_reset_gas s;
  pg_log_gas : 1 <= log_gas s;
  pg_create_gas : 1 <= create_gas s;
  pg_call_gas : 1 <= call_gas s;
  pg_balance_gas : 1 <= balance_gas s;
  pg_extcodesize_gas : 1 <= extcodesize_gas s;
  pg_extcodehash_gas : 1 <= extcodehash_gas s;
  pg_extcodecopy_base_gas : 1 <= extcodecopy_base_gas s;
  pg_blockhash_gas : 1 <= blockhash_gas s;
}.

Lemma schedule_progress_ok s : schedule_progress s = true -> progress_ok s.
Proof.
  intros Hp. pose proof (fun t g => schedule_progress_tier s t g Hp) as Ht.
  unfold schedule_progress in Hp. rewrite andb_true_iff in Hp. destruct Hp as [_ Hp].
  cbn [forallb] in Hp. split; [exact Ht|lia..].
Qed.
