(* ===== verification/Instructions.v ===== *)
(** * Instruction set

    [ethcore/evm/src/instructions.rs]: the opcodes, their byte encoding, the static
    table of stack arguments, stack results and price tiers, and the decoding of the
    [PUSH], [DUP], [SWAP] and [LOG] families. *)

From S2P Require Import Prelude.
From stdpp Require Import base numbers strings list.

Open Scope Z_scope.

(** Virtual machine bytecode instruction. *)
Inductive Instruction : Type :=
| STOP | ADD | MUL | SUB | DIV | SDIV | MOD | SMOD | ADDMOD | MULMOD
| EXP | SIGNEXTEND | LT | GT | SLT | SGT | EQ | ISZERO | AND | OR
| XOR | NOT | BYTE | SHL | SHR | SAR | SHA3 | ADDRESS | BALANCE | ORIGIN
| CALLER | CALLVALUE | CALLDATALOAD | CALLDATASIZE | CALLDATACOPY | CODESIZE | CODECOPY | GASPRICE | EXTCODESIZE | EXTCODECOPY
| RETURNDATASIZE | RETURNDATACOPY | EXTCODEHASH | BLOCKHASH | COINBASE | TIMESTAMP | NUMBER | DIFFICULTY | GASLIMIT | POP
| MLOAD | MSTORE | MSTORE8 | SLOAD | SSTORE | JUMP | JUMPI | PC | MSIZE | GAS
| JUMPDEST | PUSH1 | PUSH2 | PUSH3 | PUSH4 | PUSH5 | PUSH6 | PUSH7 | PUSH8 | PUSH9
| PUSH10 | PUSH11 | PUSH12 | PUSH13 | PUSH14 | PUSH15 | PUSH16 | PUSH17 | PUSH18 | PUSH19
| PUSH20 | PUSH21 | PUSH22 | PUSH23 | PUSH24 | PUSH25 | PUSH26 | PUSH27 | PUSH28 | PUSH29
| PUSH30 | PUSH31 | PUSH32 | DUP1 | DUP2 | DUP3 | DUP4 | DUP5 | DUP6 | DUP7
| DUP8 | DUP9 | DUP10 | DUP11 | DUP12 | DUP13 | DUP14 | DUP15 | DUP16 | SWAP1
| SWAP2 | SWAP3 | SWAP4 | SWAP5 | SWAP6 | SWAP7 | SWAP8 | SWAP9 | SWAP10 | SWAP11
| SWAP12 | SWAP13 | SWAP14 | SWAP15 | SWAP16 | LOG0 | LOG1 | LOG2 | LOG3 | LOG4
| CREATE | CALL | CALLCODE | RETURN | DELEGATECALL | CREATE2 | REVERT | STATICCALL | SUICIDE.

(** The discriminant: [instruction as u8]. *)
Definition as_u8 (i : Instruction) : Z :=
  match i with
  | STOP => 0 | ADD => 1 | MUL => 2 | SUB => 3 | DIV => 4 | SDIV => 5
  | MOD => 6 | SMOD => 7 | ADDMOD => 8 | MULMOD => 9 | EXP => 10 | SIGNEXTEND => 11
  | LT => 16 | GT => 17 | SLT => 18 | SGT => 19 | EQ => 20 | ISZERO => 21
  | AND => 22 | OR => 23 | XOR => 24 | NOT => 25 | BYTE => 26 | SHL => 27
  | SHR => 28 | SAR => 29 | SHA3 => 32 | ADDRESS => 48 | BALANCE => 49 | ORIGIN => 50
  | CALLER => 51 | CALLVALUE => 52 | CALLDATALOAD => 53 | CALLDATASIZE => 54 | CALLDATACOPY => 55 | CODESIZE => 56
  | CODECOPY => 57 | GASPRICE => 58 | EXTCODESIZE => 59 | EXTCODECOPY => 60 | RETURNDATASIZE => 61 | RETURNDATACOPY => 62
  | EXTCODEHASH => 63 | BLOCKHASH => 64 | COINBASE => 65 | TIMESTAMP => 66 | NUMBER => 67 | DIFFICULTY => 68
  | GASLIMIT => 69 | POP => 80 | MLOAD => 81 | MSTORE => 82 | MSTORE8 => 83 | SLOAD => 84
  | SSTORE => 85 | JUMP => 86 | JUMPI => 87 | PC => 88 | MSIZE => 89 | GAS => 90
  | JUMPDEST => 91 | PUSH1 => 96 | PUSH2 => 97 | PUSH3 => 98 | PUSH4 => 99 | PUSH5 => 100
  | PUSH6 => 101 | PUSH7 => 102 | PUSH8 => 103 | PUSH9 => 104 | PUSH10 => 105 | PUSH11 => 106
  | PUSH12 => 107 | PUSH13 => 108 | PUSH14 => 109 | PUSH15 => 110 | PUSH16 => 111 | PUSH17 => 112
  | PUSH18 => 113 | PUSH19 => 114 | PUSH20 => 115 | PUSH21 => 116 | PUSH22 => 117 | PUSH23 => 118
  | PUSH24 => 119 | PUSH25 => 120 | PUSH26 => 121 | PUSH27 => 122 | PUSH28 => 123 | PUSH29 => 124
  | PUSH30 => 125 | PUSH31 => 126 | PUSH32 => 127 | DUP1 => 128 | DUP2 => 129 | DUP3 => 130
  | DUP4 => 131 | DUP5 => 132 | DUP6 => 133 | DUP7 => 134 | DUP8 => 135 | DUP9 => 136
  | DUP10 => 137 | DUP11 => 138 | DUP12 => 139 | DUP13 => 140 | DUP14 => 141 | DUP15 => 142
  | DUP16 => 143 | SWAP1 => 144 | SWAP2 => 145 | SWAP3 => 146 | SWAP4 => 147 | SWAP5 => 148
  | SWAP6 => 149 | SWAP7 => 150 | SWAP8 => 151 | SWAP9 => 152 | SWAP10 => 153 | SWAP11 => 154
  | SWAP12 => 155 | SWAP13 => 156 | SWAP14 => 157 | SWAP15 => 158 | SWAP16 => 159 | LOG0 => 160
  | LOG1 => 161 | LOG2 => 162 | LOG3 => 163 | LOG4 => 164 | CREATE => 240 | CALL => 241
  | CALLCODE => 242 | RETURN => 243 | DELEGATECALL => 244 | CREATE2 => 245 | REVERT => 253 | STATICCALL => 250
  | SUICIDE => 255
  end.

(** [Instruction::from_u8] *)
Definition from_u8 (value : Z) : option Instruction :=
  match value with
  | 0 => Some STOP | 1 => Some ADD | 2 => Some MUL | 3 => Some SUB | 4 => Some DIV
  | 5 => Some SDIV | 6 => Some MOD | 7 => Some SMOD | 8 => Some ADDMOD | 9 => Some MULMOD
  | 10 => Some EXP | 11 => Some SIGNEXTEND | 16 => Some LT | 17 => Some GT | 18 => Some SLT
  | 19 => Some SGT | 20 => Some EQ | 21 => Some ISZERO | 22 => Some AND | 23 => Some OR
  | 24 => Some XOR | 25 => Some NOT | 26 => Some BYTE | 27 => Some SHL | 28 => Some SHR
  | 29 => Some SAR | 32 => Some SHA3 | 48 => Some ADDRESS | 49 => Some BALANCE | 50 => Some ORIGIN
  | 51 => Some CALLER | 52 => Some CALLVALUE | 53 => Some CALLDATALOAD | 54 => Some CALLDATASIZE | 55 => Some CALLDATACOPY
  | 56 => Some CODESIZE | 57 => Some CODECOPY | 58 => Some GASPRICE | 59 => Some EXTCODESIZE | 60 => Some EXTCODECOPY
  | 61 => Some RETURNDATASIZE | 62 => Some RETURNDATACOPY | 63 => Some EXTCODEHASH | 64 => Some BLOCKHASH | 65 => Some COINBASE
  | 66 => Some TIMESTAMP | 67 => Some NUMBER | 68 => Some DIFFICULTY | 69 => Some GASLIMIT | 80 => Some POP
  | 81 => Some MLOAD | 82 => Some MSTORE | 83 => Some MSTORE8 | 84 => Some SLOAD | 85 => Some SSTORE
  | 86 => Some JUMP | 87 => Some JUMPI | 88 => Some PC | 89 => Some MSIZE | 90 => Some GAS
  | 91 => Some JUMPDEST | 96 => Some PUSH1 | 97 => Some PUSH2 | 98 => Some PUSH3 | 99 => Some PUSH4
  | 100 => Some PUSH5 | 101 => Some PUSH6 | 102 => Some PUSH7 | 103 => Some PUSH8 | 104 => Some PUSH9
  | 105 => Some PUSH10 | 106 => Some PUSH11 | 107 => Some PUSH12 | 108 => Some PUSH13 | 109 => Some PUSH14
  | 110 => Some PUSH15 | 111 => Some PUSH16 | 112 => Some PUSH17 | 113 => Some PUSH18 | 114 => Some PUSH19
  | 115 => Some PUSH20 | 116 => Some PUSH21 | 117 => Some PUSH22 | 118 => Some PUSH23 | 119 => Some PUSH24
  | 120 => Some PUSH25 | 121 => Some PUSH26 | 122 => Some PUSH27 | 123 => Some PUSH28 | 124 => Some PUSH29
  | 125 => Some PUSH30 | 126 => Some PUSH31 | 127 => Some PUSH32 | 128 => Some DUP1 | 129 => Some DUP2
  | 130 => Some DUP3 | 131 => Some DUP4 | 132 => Some DUP5 | 133 => Some DUP6 | 134 => Some DUP7
  | 135 => Some DUP8 | 136 => Some DUP9 | 137 => Some DUP10 | 138 => Some DUP11 | 139 => Some DUP12
  | 140 => Some DUP13 | 141 => Some DUP14 | 142 => Some DUP15 | 143 => Some DUP16 | 144 => Some SWAP1
  | 145 => Some SWAP2 | 146 => Some SWAP3 | 147 => Some SWAP4 | 148 => Some SWAP5 | 149 => Some SWAP6
  | 150 => Some SWAP7 | 151 => Some SWAP8 | 152 => Some SWAP9 | 153 => Some SWAP10 | 154 => Some SWAP11
  | 155 => Some SWAP12 | 156 => Some SWAP13 | 157 => Some SWAP14 | 158 => Some SWAP15 | 159 => Some SWAP16
  | 160 => Some LOG0 | 161 => Some LOG1 | 162 => Some LOG2 | 163 => Some LOG3 | 164 => Some LOG4
  | 240 => Some CREATE | 241 => Some CALL | 242 => Some CALLCODE | 243 => Some RETURN | 244 => Some DELEGATECALL
  | 245 => Some CREATE2 | 253 => Some REVERT | 250 => Some STATICCALL | 255 => Some SUICIDE
  | _ => None
  end.

(** Comparison of instructions is comparison of their discriminants
    ([derive(Eq, Ord)] on a [repr(u8)] enum). *)
Definition instr_eqb (a b : Instruction) : bool := as_u8 a =? as_u8 b.
Definition instr_leb (a b : Instruction) : bool := as_u8 a <=? as_u8 b.

(** Returns true if given instruction is [PUSHN] instruction. *)
Definition is_push (i : Instruction) : bool := instr_leb PUSH1 i && instr_leb i PUSH32.

(** Returns number of bytes to read for [PUSHN] instruction. *)
Definition push_bytes (i : Instruction) : option Z :=
  if is_push i then Some (as_u8 i - as_u8 PUSH1 + 1) else None.

(** Returns stack position of item to duplicate. *)
Definition dup_position (i : Instruction) : option Z :=
  if instr_leb DUP1 i && instr_leb i DUP16 then Some (as_u8 i - as_u8 DUP1) else None.

(** Returns stack position of item to SWAP top with. *)
Definition swap_position (i : Instruction) : option Z :=
  if instr_leb SWAP1 i && instr_leb i SWAP16 then Some (as_u8 i - as_u8 SWAP1 + 1) else None.

(** Returns number of topics to take from stack. *)
Definition log_topics (i : Instruction) : option Z :=
  if instr_leb LOG0 i && instr_leb i LOG4 then Some (as_u8 i - as_u8 LOG0) else None.

Inductive GasPriceTier : Type :=
| TierZero | TierBase | TierVeryLow | TierLow | TierMid | TierHigh | TierExt | TierSpecial.

(** Returns the index in schedule for specific [GasPriceTier]. *)
Definition tier_idx (t : GasPriceTier) : nat :=
  match t with
  | TierZero => 0 | TierBase => 1 | TierVeryLow => 2 | TierLow => 3
  | TierMid => 4 | TierHigh => 5 | TierExt => 6 | TierSpecial => 7
  end.

(** EVM instruction information. *)
Record InstructionInfo : Type := mkInfo {
  info_name : string;
  info_args : Z;
  info_ret : Z;
  info_tier : GasPriceTier;
}.

(** The assignments that fill the static table, in the order the code makes them. *)
Definition instruction_assignments : list (Instruction * InstructionInfo) := [
  (STOP, mkInfo "STOP" 0 0 TierZero);
  (ADD, mkInfo "ADD" 2 1 TierVeryLow);
  (SUB, mkInfo "SUB" 2 1 TierVeryLow);
  (MUL, mkInfo "MUL" 2 1 TierLow);
  (DIV, mkInfo "DIV" 2 1 TierLow);
  (SDIV, mkInfo "SDIV" 2 1 TierLow);
  (MOD, mkInfo "MOD" 2 1 TierLow);
  (SMOD, mkInfo "SMOD" 2 1 TierLow);
  (EXP, mkInfo "EXP" 2 1 TierSpecial);
  (NOT, mkInfo "NOT" 1 1 TierVeryLow);
  (LT, mkInfo "LT" 2 1 TierVeryLow);
  (GT, mkInfo "GT" 2 1 TierVeryLow);
  (SLT, mkInfo "SLT" 2 1 TierVeryLow);
  (SGT, mkInfo "SGT" 2 1 TierVeryLow);
  (EQ, mkInfo "EQ" 2 1 TierVeryLow);
  (ISZERO, mkInfo "ISZERO" 1 1 TierVeryLow);
  (AND, mkInfo "AND" 2 1 TierVeryLow);
  (OR, mkInfo "OR" 2 1 TierVeryLow);
  (XOR, mkInfo "XOR" 2 1 TierVeryLow);
  (BYTE, mkInfo "BYTE" 2 1 TierVeryLow);
  (SHL, mkInfo "SHL" 2 1 TierVeryLow);
  (SHR, mkInfo "SHR" 2 1 TierVeryLow);
  (SAR, mkInfo "SAR" 2 1 TierVeryLow);
  (ADDMOD, mkInfo "ADDMOD" 3 1 TierMid);
  (MULMOD, mkInfo "MULMOD" 3 1 TierMid);
  (SIGNEXTEND, mkInfo "SIGNEXTEND" 2 1 TierLow);
  (RETURNDATASIZE, mkInfo "RETURNDATASIZE" 0 1 TierBase);
  (RETURNDATACOPY, mkInfo "RETURNDATACOPY" 3 0 TierVeryLow);
  (SHA3, mkInfo "SHA3" 2 1 TierSpecial);
  (ADDRESS, mkInfo "ADDRESS" 0 1 TierBase);
  (BALANCE, mkInfo "BALANCE" 1 1 TierSpecial);
  (ORIGIN, mkInfo "ORIGIN" 0 1 TierBase);
  (CALLER, mkInfo "CALLER" 0 1 TierBase);
  (CALLVALUE, mkInfo "CALLVALUE" 0 1 TierBase);
  (CALLDATALOAD, mkInfo "CALLDATALOAD" 1 1 TierVeryLow);
  (CALLDATASIZE, mkInfo "CALLDATASIZE" 0 1 TierBase);
  (CALLDATACOPY, mkInfo "CALLDATACOPY" 3 0 TierVeryLow);
  (EXTCODEHASH, mkInfo "EXTCODEHASH" 1 1 TierSpecial);
  (CODESIZE, mkInfo "CODESIZE" 0 1 TierBase);
  (CODECOPY, mkInfo "CODECOPY" 3 0 TierVeryLow);
  (GASPRICE, mkInfo "GASPRICE" 0 1 TierBase);
  (EXTCODESIZE, mkInfo "EXTCODESIZE" 1 1 TierSpecial);
  (EXTCODECOPY, mkInfo "EXTCODECOPY" 4 0 TierSpecial);
  (BLOCKHASH, mkInfo "BLOCKHASH" 1 1 TierExt);
  (COINBASE, mkInfo "COINBASE" 0 1 TierBase);
  (TIMESTAMP, mkInfo "TIMESTAMP" 0 1 TierBase);
  (NUMBER, mkInfo "NUMBER" 0 1 TierBase);
  (DIFFICULTY, mkInfo "DIFFICULTY" 0 1 TierBase);
  (GASLIMIT, mkInfo "GASLIMIT" 0 1 TierBase);
  (POP, mkInfo "POP" 1 0 TierBase);
  (MLOAD, mkInfo "MLOAD" 1 1 TierVeryLow);
  (MSTORE, mkInfo "MSTORE" 2 0 TierVeryLow);
  (MSTORE8, mkInfo "MSTORE8" 2 0 TierVeryLow);
  (SLOAD, mkInfo "SLOAD" 1 1 TierSpecial);
  (SSTORE, mkInfo "SSTORE" 2 0 TierSpecial);
  (JUMP, mkInfo "JUMP" 1 0 TierMid);
  (JUMPI, mkInfo "JUMPI" 2 0 TierHigh);
  (PC, mkInfo "PC" 0 1 TierBase);
  (MSIZE, mkInfo "MSIZE" 0 1 TierBase);
  (GAS, mkInfo "GAS" 0 1 TierBase);
  (JUMPDEST, mkInfo "JUMPDEST" 0 0 TierSpecial);
  (PUSH1, mkInfo "PUSH1" 0 1 TierVeryLow);
  (PUSH2, mkInfo "PUSH2" 0 1 TierVeryLow);
  (PUSH3, mkInfo "PUSH3" 0 1 TierVeryLow);
  (PUSH4, mkInfo "PUSH4" 0 1 TierVeryLow);
  (PUSH5, mkInfo "PUSH5" 0 1 TierVeryLow);
  (PUSH6, mkInfo "PUSH6" 0 1 TierVeryLow);
  (PUSH7, mkInfo "PUSH7" 0 1 TierVeryLow);
  (PUSH8, mkInfo "PUSH8" 0 1 TierVeryLow);
  (PUSH9, mkInfo "PUSH9" 0 1 TierVeryLow);
  (PUSH10, mkInfo "PUSH10" 0 1 TierVeryLow);
  (PUSH11, mkInfo "PUSH11" 0 1 TierVeryLow);
  (PUSH12, mkInfo "PUSH12" 0 1 TierVeryLow);
  (PUSH13, mkInfo "PUSH13" 0 1 TierVeryLow);
  (PUSH14, mkInfo "PUSH14" 0 1 TierVeryLow);
  (PUSH15, mkInfo "PUSH15" 0 1 TierVeryLow);
  (PUSH16, mkInfo "PUSH16" 0 1 TierVeryLow);
  (PUSH17, mkInfo "PUSH17" 0 1 TierVeryLow);
  (PUSH18, mkInfo "PUSH18" 0 1 TierVeryLow);
  (PUSH19, mkInfo "PUSH19" 0 1 TierVeryLow);
  (PUSH20, mkInfo "PUSH20" 0 1 TierVeryLow);
  (PUSH21, mkInfo "PUSH21" 0 1 TierVeryLow);
  (PUSH22, mkInfo "PUSH22" 0 1 TierVeryLow);
  (PUSH23, mkInfo "PUSH23" 0 1 TierVeryLow);
  (PUSH24, mkInfo "PUSH24" 0 1 TierVeryLow);
  (PUSH25, mkInfo "PUSH25" 0 1 TierVeryLow);
  (PUSH26, mkInfo "PUSH26" 0 1 TierVeryLow);
  (PUSH27, mkInfo "PUSH27" 0 1 TierVeryLow);
  (PUSH28, mkInfo "PUSH28" 0 1 TierVeryLow);
  (PUSH29, mkInfo "PUSH29" 0 1 TierVeryLow);
  (PUSH30, mkInfo "PUSH30" 0 1 TierVeryLow);
  (PUSH31, mkInfo "PUSH31" 0 1 TierVeryLow);
  (PUSH32, mkInfo "PUSH32" 0 1 TierVeryLow);
  (DUP1, mkInfo "DUP1" 1 2 TierVeryLow);
  (DUP2, mkInfo "DUP2" 2 3 TierVeryLow);
  (DUP3, mkInfo "DUP3" 3 4 TierVeryLow);
  (DUP4, mkInfo "DUP4" 4 5 TierVeryLow);
  (DUP5, mkInfo "DUP5" 5 6 TierVeryLow);
  (DUP6, mkInfo "DUP6" 6 7 TierVeryLow);
  (DUP7, mkInfo "DUP7" 7 8 TierVeryLow);
  (DUP8, mkInfo "DUP8" 8 9 TierVeryLow);
  (DUP9, mkInfo "DUP9" 9 10 TierVeryLow);
  (DUP10, mkInfo "DUP10" 10 11 TierVeryLow);
  (DUP11, mkInfo "DUP11" 11 12 TierVeryLow);
  (DUP12, mkInfo "DUP12" 12 13 TierVeryLow);
  (DUP13, mkInfo "DUP13" 13 14 TierVeryLow);
  (DUP14, mkInfo "DUP14" 14 15 TierVeryLow);
  (DUP15, mkInfo "DUP15" 15 16 TierVeryLow);
  (DUP16, mkInfo "DUP16" 16 17 TierVeryLow);
  (SWAP1, mkInfo "SWAP1" 2 2 TierVeryLow);
  (SWAP2, mkInfo "SWAP2" 3 3 TierVeryLow);
  (SWAP3, mkInfo "SWAP3" 4 4 TierVeryLow);
  (SWAP4, mkInfo "SWAP4" 5 5 TierVeryLow);
  (SWAP5, mkInfo "SWAP5" 6 6 TierVeryLow);
  (SWAP6, mkInfo "SWAP6" 7 7 TierVeryLow);
  (SWAP7, mkInfo "SWAP7" 8 8 TierVeryLow);
  (SWAP8, mkInfo "SWAP8" 9 9 TierVeryLow);
  (SWAP9, mkInfo "SWAP9" 10 10 TierVeryLow);
  (SWAP10, mkInfo "SWAP10" 11 11 TierVeryLow);
  (SWAP11, mkInfo "SWAP11" 12 12 TierVeryLow);
  (SWAP12, mkInfo "SWAP12" 13 13 TierVeryLow);
  (SWAP13, mkInfo "SWAP13" 14 14 TierVeryLow);
  (SWAP14, mkInfo "SWAP14" 15 15 TierVeryLow);
  (SWAP15, mkInfo "SWAP15" 16 16 TierVeryLow);
  (SWAP16, mkInfo "SWAP16" 17 17 TierVeryLow);
  (LOG0, mkInfo "LOG0" 2 0 TierSpecial);
  (LOG1, mkInfo "LOG1" 3 0 TierSpecial);
  (LOG2, mkInfo "LOG2" 4 0 TierSpecial);
  (LOG3, mkInfo "LOG3" 5 0 TierSpecial);
  (LOG4, mkInfo "LOG4" 6 0 TierSpecial);
  (CREATE, mkInfo "CREATE" 3 1 TierSpecial);
  (CALL, mkInfo "CALL" 7 1 TierSpecial);
  (CALLCODE, mkInfo "CALLCODE" 7 1 TierSpecial);
  (RETURN, mkInfo "RETURN" 2 0 TierZero);
  (DELEGATECALL, mkInfo "DELEGATECALL" 6 1 TierSpecial);
  (STATICCALL, mkInfo "STATICCALL" 6 1 TierSpecial);
  (SUICIDE, mkInfo "SUICIDE" 1 0 TierSpecial);
  (CREATE2, mkInfo "CREATE2" 4 1 TierSpecial);
  (REVERT, mkInfo "REVERT" 2 0 TierZero)].

(** [INSTRUCTIONS]: 256 slots, initially [None], then one write per assignment. *)
Definition INSTRUCTIONS : list (option InstructionInfo) :=
  foldl (fun arr '(i, inf) => <[Z.to_nat (as_u8 i) := Some inf]> arr)
    (replicate 256 None) instruction_assignments.

(** [INSTRUCTIONS[*self as usize].as_ref()], before the [expect] of [Instruction::info]. *)
Definition info_slot (i : Instruction) : option InstructionInfo :=
  mjoin (INSTRUCTIONS !! Z.to_nat (as_u8 i)).

(** [Instruction::info] *)
Definition info {S Er} (i : Instruction) : M S Er InstructionInfo := expect (info_slot i).

(** Maximal number of topics for log instructions. *)
Definition MAX_NO_OF_TOPICS : Z := 4.

(** ** Decoding *)

(** The number of immediate bytes that follow an opcode byte. *)
Definition immediate_bytes (op : Z) : Z := if (0x60 <=? op) && (op <=? 0x7f) then op - 0x5f else 0.

Lemma from_u8_as_u8 i : from_u8 (as_u8 i) = Some i.
Proof. by destruct i. Qed.

Lemma as_u8_range i : is_u8 (as_u8 i).
Proof. destruct i; done. Qed.

Lemma as_u8_from_u8 op i : from_u8 op = Some i -> as_u8 i = op.
Proof.
  unfold from_u8. intros H.
  repeat (case_match; try done); by simplify_eq.
Qed.

Lemma instr_eqb_spec a b : instr_eqb a b = true <-> a = b.
Proof.
  unfold instr_eqb. rewrite Z.eqb_eq. split; [|by intros ->].
  intros H. apply (f_equal from_u8) in H. rewrite !from_u8_as_u8 in H. by simplify_eq.
Qed.

(** Bytes outside the instruction set have no immediate data. *)
Lemma from_u8_None_immediate op : from_u8 op = None -> immediate_bytes op = 0.
Proof.
  unfold immediate_bytes. intros H. case_bool; [|done].
  apply andb_true_iff in Hb as [H1%Z.leb_le H2%Z.leb_le].
  assert (Hc : exists n : nat, (n < 32)%nat /\ op = 0x60 + Z.of_nat n)
    by (exists (Z.to_nat (op - 0x60)); lia).
  destruct Hc as (n & Hn & ->).
  do 32 (destruct n as [|n]; [vm_compute in H; done|]). lia.
Qed.

Lemma push_bytes_immediate op i : from_u8 op = Some i ->
  push_bytes i = if immediate_bytes op =? 0 then None else Some (immediate_bytes op).
Proof. intros <-%as_u8_from_u8. by destruct i. Qed.

Lemma info_slot_total i : exists inf, info_slot i = Some inf /\ 0 <= info_args inf <= 17 /\ 0 <= info_ret inf <= 17.
Proof. destruct i; eexists; (split; [vm_compute; reflexivity|cbn; lia]). Qed.

Lemma table_decodes n : (n < 256)%nat ->
  is_Some (from_u8 (Z.of_nat n)) <-> is_Some (mjoin (INSTRUCTIONS !! n)).
Proof.
  intros Hn. apply (bool_decide_unpack _).
  assert (Hall : forallb (fun n => bool_decide (is_Some (from_u8 (Z.of_nat n)) <->
                     is_Some (mjoin (INSTRUCTIONS !! n)))) (seq 0 256) = true)
    by (vm_compute; reflexivity).
  rewrite forallb_forall in Hall. apply Is_true_eq_left, Hall, in_seq. lia.
Qed.

(** Decoding is the exact inverse of the byte encoding, and the static table has an
    entry for a byte exactly when the byte decodes to an instruction. *)
Theorem decode_encode (op : Z) :
  (forall i, from_u8 op = Some i <-> as_u8 i = op) /\
  (forall i, 0 <= as_u8 i < 256) /\
  (0 <= op < 256 -> (is_Some (from_u8 op) <-> is_Some (mjoin (INSTRUCTIONS !! Z.to_nat op)))).
Proof.
  split_and!; [|exact as_u8_range|].
  - intros i. split; [apply as_u8_from_u8|intros <-; apply from_u8_as_u8].
  - intros Hop. assert (Hc : exists n : nat, (n < 256)%nat /\ op = Z.of_nat n)
      by (exists (Z.to_nat op); lia).
    destruct Hc as (n & Hn & ->). rewrite Nat2Z.id. clear Hop.
    revert n Hn. apply table_decodes.
Qed.

(** The stack arities in the static table agree with the decoded families: [PUSHn]
    adds one item, [DUPn] and [SWAPn] need the item they reach, [LOGn] consumes its topics
    and never more than [MAX_NO_OF_TOPICS]. *)
Theorem family_arities (i : Instruction) :
  exists inf, info_slot i = Some inf /\
    (forall n, push_bytes i = Some n -> 1 <= n <= 32 /\ info_args inf = 0 /\ info_ret inf = 1) /\
    (forall n, dup_position i = Some n -> 0 <= n < 16 /\ info_args inf = n + 1 /\ info_ret inf = n + 2) /\
    (forall n, swap_position i = Some n -> 1 <= n <= 16 /\ info_args inf = n + 1 /\ info_ret inf = n + 1) /\
    (forall n, log_topics i = Some n ->
       0 <= n <= MAX_NO_OF_TOPICS /\ info_args inf = n + 2 /\ info_ret inf = 0).
Proof.
  destruct i; (eexists; split; [vm_compute; reflexivity|]);
    split_and!; cbn; intros n Hn; simplify_eq; cbn; unfold MAX_NO_OF_TOPICS; lia.
Qed.
