(* ===== verification/Vm.v ===== *)
(** * Virtual machine interface

    [ethcore/vm/src]: errors ([error.rs]), action parameters ([action_params.rs],
    [call_type.rs]), environment ([env_info.rs]), return data ([return_data.rs]) and the
    externalities trait ([ext.rs]) through which the interpreter reaches the state.

    [Ext] is the interface between the interpreter and its host; [ExtLaws] states what
    the interpreter relies on. The interpreter's theorems are proved against the laws. *)

From S2P Require Import Prelude Schedule.
From stdpp Require Import base numbers strings list.

Open Scope Z_scope.
Open Scope origo_scope.

(** VM errors. *)
Inductive vm_error : Type :=
| OutOfGas
| BadJumpDestination (destination : Z)
| BadInstruction (instruction : Z)
| StackUnderflow (instruction : string) (wanted on_stack : Z)
| OutOfStack (instruction : string) (wanted limit : Z)
| BuiltIn (name : string)
| MutableCallInStaticContext
| Internal (msg : string)
| Wasm (msg : string)
| OutOfBounds
| Reverted.

(** Transaction value. *)
Inductive ActionValue : Type :=
| Transfer (v : Z)
| Apparent (v : Z).

(** Returns action value as U256. *)
Definition action_value (v : ActionValue) : Z :=
  match v with Transfer x | Apparent x => x end.

(** Type of the way parameters encoded. *)
Inductive ParamsType : Type := Embedded | Separate.

(** The type of the call-like instruction. *)
Inductive CallType : Type :=
| CallNone
| CallCall
| CallCallCode
| CallDelegateCall
| CallStaticCall.

#[export] Instance CallType_eq_dec : EqDecision CallType.
Proof. solve_decision. Defined.

(** The [u32] a [CallType] is encoded as. *)
Definition call_type_code (c : CallType) : Z :=
  match c with
  | CallNone => 0 | CallCall => 1 | CallCallCode => 2 | CallDelegateCall => 3 | CallStaticCall => 4
  end.

(** Decoding of the [u32]; [None] is [DecoderError::Custom]. *)
Definition call_type_decode (v : Z) : option CallType :=
  match v with
  | 0 => Some CallNone | 1 => Some CallCall | 2 => Some CallCallCode
  | 3 => Some CallDelegateCall | 4 => Some CallStaticCall
  | _ => None
  end.

(** Action (call/create) input params. *)
Record ActionParams : Type := mkActionParams {
  ap_code_address : Z;
  ap_code_hash : option Z;
  ap_address : Z;
  ap_sender : Z;
  ap_origin : Z;
  ap_gas : Z;
  ap_gas_price : Z;
  ap_value : ActionValue;
  ap_code : option bytes;
  ap_data : option bytes;
  ap_call_type : CallType;
  ap_params_type : ParamsType;
  ap_is_input_private : bool;
  ap_is_output_private : bool;
}.

(** Environment information for transaction execution. *)
Record EnvInfo : Type := mkEnvInfo {
  ei_number : Z;
  ei_author : Z;
  ei_timestamp : Z;
  ei_difficulty : Z;
  ei_gas_limit : Z;
  ei_last_hashes : list Z;
  ei_gas_used : Z;
}.

(** Return data buffer: memory from a previous call and a slice into that memory. *)
Record ReturnData : Type := mkReturnData {
  rd_mem : bytes;
  rd_offset : Z;
  rd_size : Z;
}.

(** [ReturnData::empty] *)
Definition ReturnData_empty : ReturnData := mkReturnData [] 0 0.

(** [Deref for ReturnData]: [&self.mem[self.offset..self.offset + self.size]] *)
Definition rd_deref {S Er} (r : ReturnData) : M S Er bytes :=
  do hi <- expect (usize_add (rd_offset r) (rd_size r)) in
  expect (vec_slice (rd_mem r) (rd_offset r) hi).

(** Gas left: either a known value, or computed by processing a return instruction. *)
Inductive GasLeft : Type :=
| Known (gas_left : Z)
| NeedsReturn (gas_left : Z) (data : ReturnData) (apply_state : bool).

(** Result of externalities create function. *)
Inductive ContractCreateResult : Type :=
| CreateCreated (address gas_left : Z)
| CreateFailed
| CreateReverted (gas_left : Z) (data : ReturnData).

(** Result of externalities call function. *)
Inductive MessageCallResult : Type :=
| CallSuccess (gas_left : Z) (data : ReturnData)
| CallFailed
| CallReverted (gas_left : Z) (data : ReturnData).

(** Specifies how an address is calculated for a new contract. *)
Inductive CreateContractAddress : Type :=
| FromSenderAndNonce
| FromSenderSaltAndCodeHash (salt : Z)
| FromSenderAndCodeHash.

(** What a call or create opcode hands to the executive when it traps. *)
Inductive TrapKind : Type :=
| TrapCall (params : ActionParams)
| TrapCreate (params : ActionParams) (address : Z).

(** ** Externalities

    A method of the trait is a computation over the host state [E]. Methods that return
    a [vm::Result] may throw a [vm_error]; the others have the empty error type. *)
Class Ext (E : Type) : Type := {
  ext_initial_storage_at : Z -> M E vm_error Z;
  ext_storage_at : Z -> M E vm_error Z;
  ext_set_storage : Z -> Z -> M E vm_error unit;
  ext_exists : Z -> M E vm_error bool;
  ext_exists_and_not_null : Z -> M E vm_error bool;
  ext_origin_balance : M E vm_error Z;
  ext_balance : Z -> M E vm_error Z;
  ext_blockhash : Z -> M E Empty_set Z;
  ext_create : Z -> Z -> bytes -> CreateContractAddress -> bool ->
               M E Empty_set (ContractCreateResult + TrapKind);
  ext_call : Z -> Z -> Z -> option Z -> bytes -> Z -> CallType -> bool ->
             M E Empty_set (MessageCallResult + TrapKind);
  ext_extcode : Z -> M E vm_error (option bytes);
  ext_extcodehash : Z -> M E vm_error (option Z);
  ext_extcodesize : Z -> M E vm_error (option Z);
  ext_log : list Z -> bytes -> M E vm_error unit;
  ext_ret : Z -> ReturnData -> bool -> M E vm_error Z;
  ext_suicide : Z -> M E vm_error unit;
  ext_schedule : E -> Schedule;
  ext_env_info : E -> EnvInfo;
  ext_depth : E -> Z;
  ext_add_sstore_refund : Z -> M E Empty_set unit;
  ext_sub_sstore_refund : Z -> M E Empty_set unit;
  ext_trace_next_instruction : Z -> Z -> Z -> M E Empty_set bool;
  ext_trace_prepare_execute :
    Z -> Z -> Z -> option (Z * Z) -> option (Z * Z) -> M E Empty_set unit;
  ext_trace_executed : Z -> list Z -> bytes -> M E Empty_set unit;
  ext_is_static : E -> bool;
}.

(** An infallible method used where a fallible one is expected. *)
Definition infallible {S Er A} (m : M S Empty_set A) : M S Er A :=
  fun s => match m s with
           | Ret a s' => Ret a s'
           | Throw e _ => match e with end
           | Panic => Panic
           end.

(** A vector Rust can hold: bytes, at most [isize::MAX] of them. *)
Definition vec_ok (l : bytes) : Prop := is_bytes l /\ zlen l < 2 ^ 63.

Definition return_data_ok (r : ReturnData) : Prop :=
  vec_ok (rd_mem r) /\ 0 <= rd_offset r /\ 0 <= rd_size r
  /\ rd_offset r + rd_size r <= zlen (rd_mem r).

Definition opt_ok {A} (P : A -> Prop) (o : option A) : Prop :=
  match o with Some a => P a | None => True end.

(** Errors that are outcomes of an execution, as opposed to a corrupted database. *)
Class ExecutionError (Er : Type) : Type := proper : Er -> Prop.

#[export] Instance vm_error_proper : ExecutionError vm_error :=
  fun e => match e with Internal _ => False | _ => True end.
#[export] Instance Empty_set_proper : ExecutionError Empty_set := fun _ => True.

Section Laws.
Context {E : Type} `{Ext E}.

(** The references an [Externalities] value holds for its whole lifetime. *)
Definition same_env (e e' : E) : Prop :=
  ext_schedule e' = ext_schedule e /\ ext_env_info e' = ext_env_info e
  /\ ext_depth e' = ext_depth e /\ ext_is_static e' = ext_is_static e.

(** A host method keeps the host invariant and the environment, and neither panics nor
    fails with an internal error. *)
Definition method_ok {Er A} {EK : ExecutionError Er} (Inv : E -> Prop) (Q : A -> Prop) (m : M E Er A)
    : Prop :=
  forall e, Inv e ->
    wp m (fun a e' => Q a /\ Inv e' /\ same_env e e')
      (fun er e' => proper er /\ Inv e' /\ same_env e e') e.

Definition env_info_ok (i : EnvInfo) : Prop :=
  is_u64 (ei_number i) /\ is_address (ei_author i) /\ is_u64 (ei_timestamp i)
  /\ is_u256 (ei_difficulty i) /\ is_u256 (ei_gas_limit i).

(** The arguments of a call or create are words, addresses and vectors. *)
Definition call_args_ok (sender receiver : Z) (value : option Z) (data : bytes) (code_address : Z) : Prop :=
  is_address sender /\ is_address receiver /\ opt_ok is_u256 value /\ vec_ok data /\
  is_address code_address.

(** What the interpreter relies on. The gas laws are the contract of [ext.call] and
    [ext.create]: a sub-execution returns at most the gas it was given, and a trap asks for
    a sub-execution with that gas.

    The host acts for the account at [self]. [affords e a v] says that the balance of [a]
    covers [v]. The interpreter asks for a transfer only after it has read such a balance;
    in turn the trap leaves the host [trap_ready], that is, the executive may start the
    sub-execution. *)
Class ExtLaws (self : Z) (Inv : E -> Prop) (affords : E -> Z -> Z -> Prop)
    (trap_ready : E -> TrapKind -> Prop) : Prop := {
  law_schedule : forall e, Inv e -> schedule_wf (ext_schedule e) = true;
  law_env_info : forall e, Inv e -> env_info_ok (ext_env_info e);
  law_depth : forall e, Inv e -> 0 <= ext_depth e;
  law_initial_storage_at : forall k, method_ok Inv is_u256 (ext_initial_storage_at k);
  law_storage_at : forall k, method_ok Inv is_u256 (ext_storage_at k);
  law_set_storage : forall k v, is_u256 k -> is_u256 v ->
    method_ok Inv (fun _ => True) (ext_set_storage k v);
  law_exists : forall a, method_ok Inv (fun _ => True) (ext_exists a);
  law_exists_and_not_null : forall a, method_ok Inv (fun _ => True) (ext_exists_and_not_null a);
  law_origin_balance : method_ok Inv is_u256 ext_origin_balance;
  law_balance : forall a, method_ok Inv is_u256 (ext_balance a);
  law_blockhash : forall n, is_u256 n -> method_ok Inv is_u256 (ext_blockhash n);
  law_create : forall g v c sch, is_u256 g ->
    method_ok Inv
      (fun r => match r with
                | inl (CreateCreated a gl) => is_address a /\ 0 <= gl <= g
                | inl (CreateReverted gl d) => 0 <= gl <= g /\ return_data_ok d
                | inl CreateFailed => True
                | inr (TrapCreate p _) => ap_gas p = g
                | inr (TrapCall _) => False
                end) (ext_create g v c sch true);
  law_call : forall g s r v d c ct, is_u256 g ->
    method_ok Inv
      (fun x => match x with
                | inl (CallSuccess gl rd) => 0 <= gl <= g /\ return_data_ok rd
                | inl (CallReverted gl rd) => 0 <= gl <= g /\ return_data_ok rd
                | inl CallFailed => True
                | inr (TrapCall p) => ap_gas p = g
                | inr (TrapCreate _ _) => False
                end) (ext_call g s r v d c ct true);
  law_extcode : forall a, method_ok Inv (opt_ok vec_ok) (ext_extcode a);
  law_extcodehash : forall a, method_ok Inv (opt_ok is_u256) (ext_extcodehash a);
  law_extcodesize : forall a, method_ok Inv (opt_ok is_u64) (ext_extcodesize a);
  law_log : forall ts d, method_ok Inv (fun _ => True) (ext_log ts d);
  law_suicide : forall a, is_address a -> method_ok Inv (fun _ => True) (ext_suicide a);
  law_add_sstore_refund : forall v, method_ok Inv (fun _ => True) (ext_add_sstore_refund v);
  law_sub_sstore_refund : forall v, method_ok Inv (fun _ => True) (ext_sub_sstore_refund v);
  law_trace_next_instruction : forall p i g,
    method_ok Inv (fun _ => True) (ext_trace_next_instruction p i g);
  law_trace_prepare_execute : forall p i g m st,
    method_ok Inv (fun _ => True) (ext_trace_prepare_execute p i g m st);
  law_trace_executed : forall g s m, method_ok Inv (fun _ => True) (ext_trace_executed g s m);
  law_affords : forall a e, Inv e -> wp (ext_balance a) (fun b e' => affords e' a b) (fun _ _ => True) e;
  law_affords_less : forall e a b v, affords e a b -> v <= b -> affords e a v;
  law_affords_zero : forall e a, Inv e -> affords e a 0;
  law_create_ready : forall g v c sch e, Inv e -> is_u256 g -> is_u256 v -> vec_ok c ->
    affords e self v ->
    wp (ext_create g v c sch true) (fun x e' => forall t, x = inr t -> trap_ready e' t)
      (fun _ _ => True) e;
  law_call_ready : forall g s r v d c ct e, Inv e -> is_u256 g -> call_args_ok s r v d c ->
    (forall x, v = Some x -> affords e s x) ->
    wp (ext_call g s r v d c ct true) (fun x e' => forall t, x = inr t -> trap_ready e' t)
      (fun _ _ => True) e;
}.

(** ** Reasoning about host calls *)

(** The host state [e] was reached from [e0] by method calls. *)
Definition host (Inv : E -> Prop) (e0 e : E) : Prop := Inv e /\ same_env e0 e.

Lemma same_env_refl e : same_env e e.
Proof. done. Qed.

Lemma same_env_trans e1 e2 e3 : same_env e1 e2 -> same_env e2 e3 -> same_env e1 e3.
Proof.
  intros (H1 & H2 & H3 & H4) (K1 & K2 & K3 & K4). unfold same_env.
  rewrite K1, K2, K3, K4. done.
Qed.

Lemma host_schedule Inv e0 e : host Inv e0 e -> ext_schedule e = ext_schedule e0.
Proof. by intros [_ (? & _)]. Qed.

Lemma wp_method {Er A} {EK : ExecutionError Er} (Inv : E -> Prop) (Q0 : A -> Prop) (m : M E Er A) e0 e
    (Q : A -> E -> Prop) (R : Er -> E -> Prop) :
  method_ok Inv Q0 m -> host Inv e0 e ->
  (forall a e', Q0 a -> host Inv e0 e' -> Q a e') ->
  (forall er e', proper er -> host Inv e0 e' -> R er e') ->
  wp m Q R e.
Proof.
  intros Hm [Hi He] HQ HR. eapply wp_mono; [exact (Hm e Hi)|..].
  - intros a e' (Ha & Hi' & He'). apply HQ; [done|]. split; [done|]. by eapply same_env_trans.
  - intros er e' (Hp & Hi' & He'). apply HR; [done|]. split; [done|]. by eapply same_env_trans.
Qed.

(** A method of which more is known. *)
Lemma wp_method_and {Er A} {EK : ExecutionError Er} (Inv : E -> Prop) (Q0 : A -> Prop) (Q1 : A -> E -> Prop) (m : M E Er A) e0 e
    (Q : A -> E -> Prop) (R : Er -> E -> Prop) :
  method_ok Inv Q0 m -> wp m Q1 (fun _ _ => True) e -> host Inv e0 e ->
  (forall a e', Q0 a -> Q1 a e' -> host Inv e0 e' -> Q a e') ->
  (forall er e', proper er -> host Inv e0 e' -> R er e') ->
  wp m Q R e.
Proof.
  intros Hm H1 [Hi He] HQ HR. eapply wp_mono; [exact (wp_and _ _ _ _ _ _ (Hm e Hi) H1)|..].
  - intros a e' [(Ha & Hi' & He') Ha1]. apply HQ; [done|done|]. split; [done|]. by eapply same_env_trans.
  - intros er e' [(Hp & Hi' & He') _]. apply HR; [done|]. split; [done|]. by eapply same_env_trans.
Qed.

Lemma wp_infallible {Er A} (m : M E Empty_set A) (Q : A -> E -> Prop) (R : Er -> E -> Prop) e :
  wp m Q (fun _ _ => True) e -> wp (infallible m) Q R e.
Proof. unfold wp, infallible. by destruct (m e) as [| [] |]. Qed.

End Laws.

#[export] Hint Resolve same_env_refl law_initial_storage_at law_storage_at law_set_storage
  law_exists law_exists_and_not_null law_origin_balance law_balance law_blockhash law_extcode
  law_extcodehash law_extcodesize law_log law_suicide law_add_sstore_refund law_sub_sstore_refund
  law_trace_next_instruction law_trace_prepare_execute law_trace_executed : origo.
