(* ===== verification/CostType.v ===== *)
(** * Cost types

    [ethcore/evm/src/evm.rs]: the trait [CostType] with its two implementations. The
    interpreter is generic over it: gas that fits a machine word is counted in [usize],
    any other amount in [U256]. The finalisation of an execution result is here too.

    [CostType] has the methods of the trait and the operators of its super-traits that
    the gasometer uses; [CostLaws] is the contract both instances are shown to meet. *)

From S2P Require Import Prelude Schedule Vm.
From stdpp Require Import base numbers list.

Open Scope Z_scope.
Open Scope origo_scope.

Class CostType : Type := {
  (** number of values of the type: a cost is an integer in [0, cost_mod) *)
  cost_mod : Z;
  as_u256 : Z -> Z;
  from_u256 : Z -> Z + vm_error;
  (** [None] is the panic the trait's comment announces *)
  as_usize : Z -> option Z;
  overflow_add : Z -> Z -> Z * bool;
  overflow_mul : Z -> Z -> Z * bool;
  overflow_mul_shr : Z -> Z -> Z -> Z * bool;
  (** [ops::Add], [ops::Sub], [ops::Div]: overflow, underflow and division by zero panic *)
  cost_add : Z -> Z -> option Z;
  cost_sub : Z -> Z -> option Z;
  cost_div : Z -> Z -> option Z;
  (** [ops::Shr], [ops::Shl] *)
  cost_shr : Z -> Z -> Z;
  cost_shl : Z -> Z -> Z;
}.

Definition checked_add (m a b : Z) : option Z := if a + b <? m then Some (a + b) else None.
Definition checked_sub (a b : Z) : option Z := if b <=? a then Some (a - b) else None.
Definition checked_div (a b : Z) : option Z := if b =? 0 then None else Some (a / b).

(** [impl CostType for U256] *)
Definition u256_overflow_mul_shr (x y shr : Z) : Z * bool :=
  let p := x * y in
  let overflow := 0 <? Z.shiftr p 256 in
  (Z.shiftr p shr mod U256_MOD, overflow).

Definition CostType_U256 : CostType := {|
  cost_mod := U256_MOD;
  as_u256 := fun x => x;
  from_u256 := fun v => inl v;
  as_usize := fun x => if x <? U64_MOD then Some x else None;
  overflow_add := u256_overflowing_add;
  overflow_mul := u256_overflowing_mul;
  overflow_mul_shr := u256_overflow_mul_shr;
  cost_add := checked_add U256_MOD;
  cost_sub := checked_sub;
  cost_div := checked_div;
  cost_shr := Z.shiftr;
  cost_shl := fun x n => Z.shiftl x n mod U256_MOD;
|}.

(** [impl CostType for usize] *)
Definition usize_from_u256 (val : Z) : Z + vm_error :=
  let res := low_u64 val in
  if negb (res =? val) then inr OutOfGas else inl res.

Definition usize_overflow_mul_shr (x y shr : Z) : Z * bool :=
  let c := (x * y) mod U128_MOD in
  let o := U128_MOD <=? x * y in
  let overflow := o || (0 <? Z.shiftr c 64) in
  let part0 := Z.shiftr c shr mod U64_MOD in
  let result := part0 in
  let overflow := overflow || (result <? part0) in
  (result, overflow).

Definition CostType_usize : CostType := {|
  cost_mod := U64_MOD;
  as_u256 := fun x => x;
  from_u256 := usize_from_u256;
  as_usize := fun x => Some x;
  overflow_add := fun x y => ((x + y) mod U64_MOD, U64_MOD <=? x + y);
  overflow_mul := fun x y => ((x * y) mod U64_MOD, U64_MOD <=? x * y);
  overflow_mul_shr := usize_overflow_mul_shr;
  cost_add := checked_add U64_MOD;
  cost_sub := checked_sub;
  cost_div := checked_div;
  cost_shr := Z.shiftr;
  cost_shl := fun x n => Z.shiftl x n mod U64_MOD;
|}.

(** [Factory::can_fit_in_usize] (factory.rs) chooses between the two. *)
Definition can_fit_in_usize (gas : Z) : bool := gas =? low_u64 gas.

Definition factory_cost (gas : Z) : CostType :=
  if can_fit_in_usize gas then CostType_usize else CostType_U256.

(** ** Finalisation *)

Record FinalizationResult : Type := mkFinalizationResult {
  fr_gas_left : Z;
  fr_apply_state : bool;
  fr_return_data : ReturnData;
}.

(** [impl Finalize for Result<GasLeft>] *)
Definition finalize {E} `{Ext E} (r : GasLeft + vm_error) : M E vm_error FinalizationResult :=
  match r with
  | inl (Known gas_left) => ret (mkFinalizationResult gas_left true ReturnData_empty)
  | inl (NeedsReturn gas_left data apply_state) =>
      do gl <- ext_ret gas_left data apply_state in
      ret (mkFinalizationResult gl apply_state data)
  | inr err => throw err
  end.

(** ** The contract of a cost type *)

Definition cost_ok `{CostType} (x : Z) : Prop := 0 <= x < cost_mod.

Class CostLaws (C : CostType) : Prop := {
  cl_mod : U64_MOD <= cost_mod <= U256_MOD;
  cl_as_u256 : forall x, cost_ok x -> as_u256 x = x;
  cl_from_u256 : forall v, is_u256 v ->
    from_u256 v = if v <? cost_mod then inl v else inr OutOfGas;
  cl_as_usize : forall x, cost_ok x -> as_usize x = if x <? U64_MOD then Some x else None;
  cl_overflow_add : forall x y, cost_ok x -> cost_ok y ->
    overflow_add x y = ((x + y) mod cost_mod, cost_mod <=? x + y);
  cl_overflow_mul : forall x y, cost_ok x -> cost_ok y ->
    overflow_mul x y = ((x * y) mod cost_mod, cost_mod <=? x * y);
  cl_overflow_mul_shr : forall x y n, cost_ok x -> cost_ok y -> 0 <= n ->
    overflow_mul_shr x y n = (((x * y) / 2 ^ n) mod cost_mod, cost_mod <=? x * y);
  cl_add : forall x y, cost_ok x -> cost_ok y ->
    cost_add x y = if x + y <? cost_mod then Some (x + y) else None;
  cl_sub : forall x y, cost_ok x -> cost_ok y ->
    cost_sub x y = if y <=? x then Some (x - y) else None;
  cl_div : forall x y, cost_ok x -> cost_ok y ->
    cost_div x y = if y =? 0 then None else Some (x / y);
  cl_shr : forall x n, cost_ok x -> 0 <= n -> cost_shr x n = x / 2 ^ n;
  cl_shl : forall x n, cost_ok x -> 0 <= n -> cost_shl x n = (x * 2 ^ n) mod cost_mod;
}.

Lemma shiftr_pos_iff p k : 0 <= p -> 0 <= k -> (0 <? Z.shiftr p k) = (2 ^ k <=? p).
Proof.
  intros Hp Hk. rewrite Z.shiftr_div_pow2 by done.
  pose proof (Z.pow_pos_nonneg 2 k ltac:(lia) Hk) as Hpow.
  destruct (Z.leb_spec (2 ^ k) p) as [Hle|Hlt].
  - apply Z.ltb_lt. apply Z.div_str_pos. lia.
  - rewrite Z.div_small by lia. reflexivity.
Qed.

Lemma mul_bound x y m : 0 <= x < m -> 0 <= y < m -> 0 <= x * y < m * m.
Proof. nia. Qed.

#[export] Instance CostLaws_U256 : CostLaws CostType_U256.
Proof.
  split; unfold cost_ok; cbn [cost_mod as_u256 from_u256 as_usize overflow_add overflow_mul
    overflow_mul_shr cost_add cost_sub cost_div cost_shr cost_shl CostType_U256]; intros; auto.
  - unfold U64_MOD, U256_MOD. lia.
  - destruct (Z.ltb_spec v U256_MOD); [done|]. unfold is_u256 in *. lia.
  - unfold u256_overflow_mul_shr. f_equal.
    + by rewrite Z.shiftr_div_pow2.
    + rewrite shiftr_pos_iff by (pose proof (mul_bound x y U256_MOD); lia). done.
  - by rewrite Z.shiftr_div_pow2.
  - by rewrite Z.shiftl_mul_pow2.
Qed.

#[export] Instance CostLaws_usize : CostLaws CostType_usize.
Proof.
  split; unfold cost_ok; cbn [cost_mod as_u256 from_u256 as_usize overflow_add overflow_mul
    overflow_mul_shr cost_add cost_sub cost_div cost_shr cost_shl CostType_usize]; intros; auto.
  - unfold U64_MOD, U256_MOD. lia.
  - unfold usize_from_u256, low_u64, is_u256 in *.
    destruct (Z.ltb_spec v U64_MOD).
    + rewrite Z.mod_small by lia. by rewrite Z.eqb_refl.
    + pose proof (Z.mod_pos_bound v U64_MOD ltac:(unfold U64_MOD; lia)).
      destruct (Z.eqb_spec (v mod U64_MOD) v); [lia|done].
  - destruct (Z.ltb_spec x U64_MOD); [done|lia].
  - unfold usize_overflow_mul_shr.
    assert (0 <= x * y < U128_MOD) as Hp.
    { pose proof (mul_bound x y U64_MOD ltac:(lia) ltac:(lia)).
      unfold U64_MOD, U128_MOD in *. lia. }
    rewrite (Z.mod_small (x * y)) by lia.
    rewrite (proj2 (Z.leb_gt _ _)) by lia. cbn [orb].
    rewrite Z.ltb_irrefl, orb_false_r. f_equal.
    + by rewrite Z.shiftr_div_pow2.
    + rewrite shiftr_pos_iff by lia. done.
  - by rewrite Z.shiftr_div_pow2.
  - by rewrite Z.shiftl_mul_pow2.
Qed.

Lemma factory_cost_laws gas : CostLaws (factory_cost gas).
Proof. unfold factory_cost. destruct (can_fit_in_usize gas); apply _. Qed.
