(* ===== verification/Gasometer.v ===== *)
(** * Gasometer

    [ethcore/evm/src/interpreter/gasometer.rs]: what an instruction costs, how much
    memory it needs, how much gas a call or create passes on, and the EIP-1283 refunds.
    The computations run over the host state, since [requirements] queries storage and
    account existence. *)

From S2P Require Import Prelude Schedule Instructions Vm CostType.
From stdpp Require Import base numbers strings list.

Open Scope Z_scope.
Open Scope origo_scope.

(** ** The operand stack

    [VecStack] (stack.rs) is kept top first: position [i] from the top is element [i].
    [peek] and [pop] panic where the stack is too short. *)

Definition peek {S Er} (stack : list Z) (no_from_top : Z) : M S Er Z :=
  expect (vec_get stack no_from_top).

(** [Address::from(H256::from(value))]: the low 160 bits. *)
Definition u256_to_address (v : Z) : Z := v mod U160_MOD.

(** [U256::from(&*H256::from(value))] *)
Definition address_to_u256 (a : Z) : Z := a.

(** The macro [overflowing!]. *)
Definition overflowing {S} (x : Z * bool) : M S vm_error Z :=
  if snd x then throw OutOfGas else ret (fst x).

Section Gasometer.
Context `{Cost : CostType}.

Inductive Request : Type :=
| ReqGas (gas : Z)
| ReqGasMem (gas mem : Z)
| ReqGasMemProvide (gas mem : Z) (requested : option Z)
| ReqGasMemCopy (gas mem copy : Z).

Record InstructionRequirements : Type := mkRequirements {
  gas_cost : Z;
  provide_gas : option Z;
  memory_total_gas : Z;
  memory_required_size : Z;
}.

Record Gasometer : Type := mkGasometer {
  current_gas : Z;
  current_mem_gas : Z;
}.

(** [Gasometer::new] *)
Definition gasometer_new (g : Z) : Gasometer := mkGasometer g 0.

Definition verify_gas {S} (self : Gasometer) (gas_cost : Z) : M S vm_error unit :=
  if current_gas self <? gas_cost then throw OutOfGas else ret tt.

(** How much gas is provided to a CALL/CREATE, given that we need to deduct [needed] for
    this operation and that we [requested] some. *)
Definition gas_provided {S} (self : Gasometer) (schedule : Schedule) (needed : Z)
    (requested : option Z) : M S vm_error Z :=
  let requested := from_u256 <$> requested in
  let otherwise :=
    match requested with
    | Some r => lift_result r
    | None =>
        if needed <=? current_gas self
        then expect (cost_sub (current_gas self) needed)
        else ret 0
    end in
  match sub_gas_cap_divisor schedule with
  | Some cap_divisor =>
      if needed <=? current_gas self then
        do gas_remaining <- expect (cost_sub (current_gas self) needed) in
        do max_gas_provided <-
          (if cap_divisor =? 64
           then expect (cost_sub gas_remaining (cost_shr gas_remaining 6))
           else do q <- expect (cost_div gas_remaining cap_divisor) in
                expect (cost_sub gas_remaining q)) in
        match requested with
        | Some (inl r) => ret (Z.min r max_gas_provided)
        | _ => ret max_gas_provided
        end
      else otherwise
  | None => otherwise
  end.

Definition add_gas_usize (value num : Z) : Z * bool := overflow_add value num.

Definition to_word_size (value : Z) : Z * bool :=
  let '(gas, overflow) := add_gas_usize value 31 in
  if overflow then (gas, overflow) else (cost_shr gas 5, false).

Definition mem_needed_const {S} (mem add : Z) : M S vm_error Z :=
  do v <- overflowing (u256_overflowing_add mem add) in
  lift_result (from_u256 v).

Definition mem_needed {S} (offset size : Z) : M S vm_error Z :=
  if size =? 0 then ret 0
  else do v <- overflowing (u256_overflowing_add offset size) in
       lift_result (from_u256 v).

(** The closure [gas_for_mem] of [mem_gas_cost]. *)
Definition gas_for_mem {S} (schedule : Schedule) (mem_size : Z) : M S vm_error Z :=
  let s := cost_shr mem_size 5 in
  do a <- overflowing (overflow_mul s (memory_gas schedule)) in
  assert_ (quad_coeff_div schedule =? 512) ;;;
  do b <- overflowing (overflow_mul_shr s s 9) in
  overflowing (overflow_add a b).

(** Returns the gas for the expansion, the total memory gas and the new memory size. *)
Definition mem_gas_cost {S} (self : Gasometer) (schedule : Schedule) (current_mem_size mem_size : Z)
    : M S vm_error (Z * Z * Z) :=
  do words <- overflowing (to_word_size mem_size) in
  let req_mem_size_rounded := cost_shl words 5 in
  do '(mem_gas_cost, new_mem_gas) <-
    (if current_mem_size <? req_mem_size_rounded then
       do new_mem_gas <- gas_for_mem schedule req_mem_size_rounded in
       do d <- expect (cost_sub new_mem_gas (current_mem_gas self)) in
       ret (d, new_mem_gas)
     else ret (0, current_mem_gas self)) in
  do size <- expect (as_usize req_mem_size_rounded) in
  ret (mem_gas_cost, new_mem_gas, size).

Definition calculate_eip1283_sstore_gas (schedule : Schedule) (original current new : Z) : Z :=
  if current =? new then sload_gas schedule
  else if original =? current then
         if original =? 0 then sstore_set_gas schedule else sstore_reset_gas schedule
       else sload_gas schedule.

(** ** Requirements, by instruction group *)

Section WithExt.
Context {E : Type} `{Ext E}.

Definition sstore_request (schedule : Schedule) (stack : list Z) : M E vm_error Request :=
  do address <- peek stack 0 in
  do newval <- peek stack 1 in
  do val <- ext_storage_at address in
  if eip1283 schedule then
    do orig <- ext_initial_storage_at address in
    ret (ReqGas (calculate_eip1283_sstore_gas schedule orig val newval))
  else
    ret (ReqGas (if (val =? 0) && negb (newval =? 0)
                 then sstore_set_gas schedule
                 else sstore_reset_gas schedule)).

(** The condition under which [SUICIDE] and [CALL] pay for a new account, with the order
    in which the two existence queries are made. *)
Definition pays_for_new_account (schedule : Schedule) (address : Z) (is_value_transfer : bool)
    : M E vm_error bool :=
  do c1 <- (if negb (no_empty schedule)
            then do ex <- ext_exists address in ret (negb ex)
            else ret false) in
  if c1 then ret true
  else if no_empty schedule && is_value_transfer
       then do ex <- ext_exists_and_not_null address in ret (negb ex)
       else ret false.

Definition suicide_request (schedule : Schedule) (stack : list Z) : M E vm_error Request :=
  let gas := suicide_gas schedule in
  do bal <- ext_origin_balance in
  let is_value_transfer := negb (bal =? 0) in
  do top <- peek stack 0 in
  let address := u256_to_address top in
  do fresh <- pays_for_new_account schedule address is_value_transfer in
  do gas <- (if fresh
             then overflowing (overflow_add gas (suicide_to_new_account_cost schedule))
             else ret gas) in
  ret (ReqGas gas).

Definition sha3_request (schedule : Schedule) (stack : list Z) : M E vm_error Request :=
  do p1 <- peek stack 1 in
  do len <- lift_result (from_u256 p1) in
  do words <- overflowing (to_word_size len) in
  do word_gas <- overflowing (overflow_mul (sha3_word_gas schedule) words) in
  do gas <- overflowing (overflow_add (sha3_gas schedule) word_gas) in
  do p0 <- peek stack 0 in
  do mem <- mem_needed p0 p1 in
  ret (ReqGasMem gas mem).

Definition log_request (schedule : Schedule) (instruction : Instruction) (stack : list Z)
    : M E vm_error Request :=
  do no_of_topics <- expect (log_topics instruction) in
  do topic_gas <- expect (usize_mul (log_topic_gas schedule) no_of_topics) in
  do log_gas <- expect (usize_add (log_gas schedule) topic_gas) in
  do p1 <- peek stack 1 in
  do size <- lift_result (from_u256 p1) in
  do data_gas <- overflowing (overflow_mul size (log_data_gas schedule)) in
  do gas <- overflowing (overflow_add data_gas log_gas) in
  do p0 <- peek stack 0 in
  do mem <- mem_needed p0 p1 in
  ret (ReqGasMem gas mem).

Definition call_request (schedule : Schedule) (instruction : Instruction) (stack : list Z)
    : M E vm_error Request :=
  let gas := call_gas schedule in
  do p5 <- peek stack 5 in do p6 <- peek stack 6 in
  do m1 <- mem_needed p5 p6 in
  do p3 <- peek stack 3 in do p4 <- peek stack 4 in
  do m2 <- mem_needed p3 p4 in
  let mem := Z.max m1 m2 in
  do p1 <- peek stack 1 in
  let address := u256_to_address p1 in
  do p2 <- peek stack 2 in
  let is_value_transfer := negb (p2 =? 0) in
  do fresh <- (if instr_eqb instruction CALL
               then pays_for_new_account schedule address is_value_transfer
               else ret false) in
  do gas <- (if fresh then overflowing (overflow_add gas (call_new_account_gas schedule))
             else ret gas) in
  do gas <- (if is_value_transfer
             then overflowing (overflow_add gas (call_value_transfer_gas schedule))
             else ret gas) in
  do requested <- peek stack 0 in
  ret (ReqGasMemProvide gas mem (Some requested)).

Definition delegate_request (schedule : Schedule) (stack : list Z) : M E vm_error Request :=
  let gas := call_gas schedule in
  do p4 <- peek stack 4 in do p5 <- peek stack 5 in
  do m1 <- mem_needed p4 p5 in
  do p2 <- peek stack 2 in do p3 <- peek stack 3 in
  do m2 <- mem_needed p2 p3 in
  do requested <- peek stack 0 in
  ret (ReqGasMemProvide gas (Z.max m1 m2) (Some requested)).

Definition create_request (schedule : Schedule) (stack : list Z) : M E vm_error Request :=
  do start <- peek stack 1 in
  do len <- peek stack 2 in
  do mem <- mem_needed start len in
  ret (ReqGasMemProvide (create_gas schedule) mem None).

Definition create2_request (schedule : Schedule) (stack : list Z) : M E vm_error Request :=
  do start <- peek stack 1 in
  do len <- peek stack 2 in
  do l <- lift_result (from_u256 len) in
  do word <- overflowing (to_word_size l) in
  do word_gas <- overflowing (overflow_mul (sha3_word_gas schedule) word) in
  do gas <- overflowing (overflow_add (create_gas schedule) word_gas) in
  do mem <- mem_needed start len in
  ret (ReqGasMemProvide gas mem None).

Definition exp_request (schedule : Schedule) (stack : list Z) : M E vm_error Request :=
  do expon <- peek stack 1 in
  let bytes := (u256_bits expon + 7) / 8 in
  do byte_gas <- expect (usize_mul (exp_byte_gas schedule) bytes) in
  do gas <- expect (usize_add (exp_gas schedule) byte_gas) in
  ret (ReqGas gas).

(** The match of [requirements] on the instruction. *)
Definition request_of (instruction : Instruction) (info : InstructionInfo) (stack : list Z)
    : M E vm_error Request :=
  do schedule <- gets ext_schedule in
  do default_gas <- expect (tier_step_gas schedule !! tier_idx (info_tier info)) in
  match instruction with
  | JUMPDEST => ret (ReqGas 1)
  | SSTORE => sstore_request schedule stack
  | SLOAD => ret (ReqGas (sload_gas schedule))
  | BALANCE => ret (ReqGas (balance_gas schedule))
  | EXTCODESIZE => ret (ReqGas (extcodesize_gas schedule))
  | EXTCODEHASH => ret (ReqGas (extcodehash_gas schedule))
  | SUICIDE => suicide_request schedule stack
  | MSTORE | MLOAD =>
      do p0 <- peek stack 0 in
      do mem <- mem_needed_const p0 32 in
      ret (ReqGasMem default_gas mem)
  | MSTORE8 =>
      do p0 <- peek stack 0 in
      do mem <- mem_needed_const p0 1 in
      ret (ReqGasMem default_gas mem)
  | RETURN | REVERT =>
      do p0 <- peek stack 0 in
      do p1 <- peek stack 1 in
      do mem <- mem_needed p0 p1 in
      ret (ReqGasMem default_gas mem)
  | SHA3 => sha3_request schedule stack
  | CALLDATACOPY | CODECOPY | RETURNDATACOPY =>
      do p0 <- peek stack 0 in
      do p2 <- peek stack 2 in
      do mem <- mem_needed p0 p2 in
      do copy <- lift_result (from_u256 p2) in
      ret (ReqGasMemCopy default_gas mem copy)
  | EXTCODECOPY =>
      do p1 <- peek stack 1 in
      do p3 <- peek stack 3 in
      do mem <- mem_needed p1 p3 in
      do copy <- lift_result (from_u256 p3) in
      ret (ReqGasMemCopy (extcodecopy_base_gas schedule) mem copy)
  | LOG0 | LOG1 | LOG2 | LOG3 | LOG4 => log_request schedule instruction stack
  | CALL | CALLCODE => call_request schedule instruction stack
  | DELEGATECALL | STATICCALL => delegate_request schedule stack
  | CREATE => create_request schedule stack
  | CREATE2 => create2_request schedule stack
  | EXP => exp_request schedule stack
  | BLOCKHASH => ret (ReqGas (blockhash_gas schedule))
  | _ => ret (ReqGas default_gas)
  end.

(** The second match of [requirements]: from the request to gas and memory. *)
Definition requirements_of (self : Gasometer) (schedule : Schedule) (current_mem_size : Z)
    (cost : Request) : M E vm_error InstructionRequirements :=
  match cost with
  | ReqGas gas => ret (mkRequirements gas None (current_mem_gas self) 0)
  | ReqGasMem gas mem_size =>
      do '(mem_gas, new_mem_gas, new_mem_size) <-
        mem_gas_cost self schedule current_mem_size mem_size in
      do gas <- overflowing (overflow_add gas mem_gas) in
      ret (mkRequirements gas None new_mem_gas new_mem_size)
  | ReqGasMemProvide gas mem_size requested =>
      do '(mem_gas, new_mem_gas, new_mem_size) <-
        mem_gas_cost self schedule current_mem_size mem_size in
      do gas <- overflowing (overflow_add gas mem_gas) in
      do provided <- gas_provided self schedule gas requested in
      do total_gas <- overflowing (overflow_add gas provided) in
      ret (mkRequirements total_gas (Some provided) new_mem_gas new_mem_size)
  | ReqGasMemCopy gas mem_size copy =>
      do '(mem_gas, new_mem_gas, new_mem_size) <-
        mem_gas_cost self schedule current_mem_size mem_size in
      do copy <- overflowing (to_word_size copy) in
      do copy_gas <- overflowing (overflow_mul (copy_gas schedule) copy) in
      do gas <- overflowing (overflow_add gas copy_gas) in
      do gas <- overflowing (overflow_add gas mem_gas) in
      ret (mkRequirements gas None new_mem_gas new_mem_size)
  end.

(** Determine how much gas is used by the given instruction, given the machine's state. *)
Definition requirements (self : Gasometer) (instruction : Instruction) (info : InstructionInfo)
    (stack : list Z) (current_mem_size : Z) : M E vm_error InstructionRequirements :=
  do schedule <- gets ext_schedule in
  do cost <- request_of instruction info stack in
  requirements_of self schedule current_mem_size cost.

(** ** EIP-1283 refunds *)

Definition handle_eip1283_sstore_clears_refund (original current new : Z) : M E vm_error unit :=
  do schedule <- gets ext_schedule in
  let sstore_clears_schedule := sstore_refund_gas schedule in
  if current =? new then ret tt
  else if original =? current then
    if original =? 0 then ret tt
    else if new =? 0 then infallible (ext_add_sstore_refund sstore_clears_schedule) else ret tt
  else
    (if negb (original =? 0) then
       if current =? 0 then infallible (ext_sub_sstore_refund sstore_clears_schedule)
       else if new =? 0 then infallible (ext_add_sstore_refund sstore_clears_schedule)
       else ret tt
     else ret tt) ;;;
    if original =? new then
      if original =? 0 then
        do refund <- expect (usize_sub (sstore_set_gas schedule) (sload_gas schedule)) in
        infallible (ext_add_sstore_refund refund)
      else
        do refund <- expect (usize_sub (sstore_reset_gas schedule) (sload_gas schedule)) in
        infallible (ext_add_sstore_refund refund)
    else ret tt.

End WithExt.
End Gasometer.

(** ** The price of memory *)

Definition round32 (n : Z) : Z := (n + 31) / 32 * 32.

(** The fee for [n] bytes of memory: linear in the words, plus a quadratic term. *)
Definition mem_fee (schedule : Schedule) (n : Z) : Z :=
  let w := n / 32 in w * memory_gas schedule + w * w / 512.

Lemma round32_bounds n : 0 <= n -> n <= round32 n < n + 32 /\ round32 n mod 32 = 0.
Proof.
  intros Hn. unfold round32. split; [|apply Z.mod_mul; lia].
  pose proof (Z.div_mod (n + 31) 32 ltac:(lia)). pose proof (Z.mod_pos_bound (n + 31) 32). lia.
Qed.

Lemma mem_fee_mono sch a b : schedule_ok sch -> 0 <= a <= b -> 0 <= mem_fee sch a <= mem_fee sch b.
Proof.
  intros Hsch [Ha Hab]. unfold mem_fee. destruct (ok_memory_gas _ Hsch).
  assert (0 <= a / 32) by (apply Z.div_pos; lia).
  assert (a / 32 <= b / 32) by (apply Z.div_le_mono; lia).
  assert (0 <= a / 32 * (a / 32) / 512) by (apply Z.div_pos; nia).
  assert (a / 32 * (a / 32) / 512 <= b / 32 * (b / 32) / 512) by (apply Z.div_le_mono; nia).
  nia.
Qed.

(** ** Proof rules for the checked operations *)

Section Rules.
Context {Cost : CostType} {CL : CostLaws Cost} {S : Type}.
Implicit Types (Q : Z -> S -> Prop) (R : vm_error -> S -> Prop).

Lemma cost_mod_bounds : 2 ^ 64 <= cost_mod <= 2 ^ 256.
Proof. exact cl_mod. Qed.

Lemma small_cost_ok x : small x -> cost_ok x.
Proof. unfold small, cost_ok. pose proof cost_mod_bounds. lia. Qed.

Lemma wp_overflow_add x y Q R s :
  cost_ok x -> cost_ok y ->
  (x + y < cost_mod -> Q (x + y) s) -> R OutOfGas s ->
  wp (overflowing (overflow_add x y)) Q R s.
Proof.
  intros Hx Hy HQ HR. rewrite cl_overflow_add by done. unfold overflowing; cbn [fst snd].
  destruct (Z.leb_spec cost_mod (x + y)); [done|].
  apply wp_ret. rewrite Z.mod_small by (unfold cost_ok in *; lia). auto.
Qed.

Lemma wp_overflow_mul x y Q R s :
  cost_ok x -> cost_ok y ->
  (x * y < cost_mod -> Q (x * y) s) -> R OutOfGas s ->
  wp (overflowing (overflow_mul x y)) Q R s.
Proof.
  intros Hx Hy HQ HR. rewrite cl_overflow_mul by done. unfold overflowing; cbn [fst snd].
  destruct (Z.leb_spec cost_mod (x * y)); [done|].
  apply wp_ret. rewrite Z.mod_small by (unfold cost_ok in *; nia). auto.
Qed.

Lemma wp_overflow_mul_shr x y n Q R s :
  cost_ok x -> cost_ok y -> 0 <= n ->
  (x * y < cost_mod -> Q (x * y / 2 ^ n) s) -> R OutOfGas s ->
  wp (overflowing (overflow_mul_shr x y n)) Q R s.
Proof.
  intros Hx Hy Hn HQ HR. rewrite cl_overflow_mul_shr by done. unfold overflowing; cbn [fst snd].
  destruct (Z.leb_spec cost_mod (x * y)); [done|].
  apply wp_ret. pose proof (Z.pow_pos_nonneg 2 n ltac:(lia) Hn). rewrite Z.mod_small; [auto|].
  unfold cost_ok in *. split; [apply Z.div_pos; nia|]. apply Z.div_lt_upper_bound; nia.
Qed.

Lemma wp_to_word_size x Q R s :
  cost_ok x -> (x + 31 < cost_mod -> Q ((x + 31) / 32) s) -> R OutOfGas s ->
  wp (overflowing (to_word_size x)) Q R s.
Proof.
  intros Hx HQ HR. unfold to_word_size, add_gas_usize. pose proof cost_mod_bounds.
  assert (H31 : cost_ok 31) by (unfold cost_ok; lia).
  rewrite cl_overflow_add by done. unfold cost_ok in *.
  destruct (Z.leb_spec cost_mod (x + 31)); [done|].
  rewrite Z.mod_small by lia. rewrite cl_shr by (unfold cost_ok; lia).
  apply wp_ret. cbn [fst]. change (2 ^ 5) with 32. auto.
Qed.

Lemma wp_from_u256 v Q R s :
  is_u256 v -> (v < cost_mod -> Q v s) -> R OutOfGas s ->
  wp (lift_result (from_u256 v)) Q R s.
Proof.
  intros Hv HQ HR. rewrite cl_from_u256 by done.
  destruct (Z.ltb_spec v cost_mod); [apply wp_ret; auto|done].
Qed.

Lemma wp_u256_add a b Q R s :
  is_u256 a -> is_u256 b -> (a + b < U256_MOD -> Q (a + b) s) -> R OutOfGas s ->
  wp (overflowing (u256_overflowing_add a b)) Q R s.
Proof.
  intros Ha Hb HQ HR. unfold overflowing, u256_overflowing_add; cbn [fst snd].
  destruct (Z.leb_spec U256_MOD (a + b)); [done|].
  apply wp_ret. rewrite Z.mod_small by range_lia. auto.
Qed.

Lemma wp_mem_needed off size Q R s :
  is_u256 off -> is_u256 size ->
  (forall m, cost_ok m -> size = 0 \/ off + size <= m -> Q m s) -> R OutOfGas s ->
  wp (mem_needed off size) Q R s.
Proof.
  intros Ho Hs HQ HR. unfold mem_needed. pose proof cost_mod_bounds.
  destruct (Z.eqb_spec size 0).
  - apply wp_ret, HQ; [unfold cost_ok; lia|auto].
  - wp_bind. apply wp_u256_add; [done|done| |done]. intros Hsum.
    apply wp_from_u256; [range_lia| |done].
    intros. apply HQ; [unfold cost_ok; range_lia|lia].
Qed.

Lemma wp_mem_needed_const off n Q R s :
  is_u256 off -> 0 <= n < 2 ^ 32 ->
  (forall m, cost_ok m -> off + n <= m -> Q m s) -> R OutOfGas s ->
  wp (mem_needed_const off n) Q R s.
Proof.
  intros Ho Hn HQ HR. unfold mem_needed_const.
  wp_bind. apply wp_u256_add; [done|range_lia| |done]. intros Hsum.
  apply wp_from_u256; [range_lia| |done].
  intros. apply HQ; [unfold cost_ok; range_lia|lia].
Qed.

Lemma wp_peek stack n Q R s :
  Forall is_u256 stack -> 0 <= n < zlen stack ->
  (forall v, vec_get stack n = Some v -> is_u256 v -> Q v s) ->
  wp (peek stack n) Q R s.
Proof.
  intros Hall Hn HQ. destruct (vec_get_is_Some stack n Hn) as [v Hv].
  eapply wp_expect; [exact Hv|]. apply HQ; [done|by eapply (vec_get_Forall is_u256)].
Qed.

(** The fee is computed exactly or not at all. *)
Lemma wp_gas_for_mem sch n Q R s :
  schedule_ok sch -> cost_ok n ->
  (mem_fee sch n < cost_mod -> n / 32 * (n / 32) < cost_mod -> Q (mem_fee sch n) s) ->
  R OutOfGas s -> wp (gas_for_mem sch n) Q R s.
Proof.
  intros Hsch Hn HQ HR. unfold gas_for_mem. rewrite cl_shr by (done || lia).
  change (2 ^ 5) with 32. pose proof cost_mod_bounds.
  assert (Hw : cost_ok (n / 32)).
  { unfold cost_ok in *. split; [apply Z.div_pos; lia|]. apply Z.div_lt_upper_bound; lia. }
  wp_bind. apply wp_overflow_mul; [done|apply small_cost_ok, Hsch| |done]. intros H1.
  wp_bind. apply wp_assert; [rewrite (ok_quad_coeff_div _ Hsch); done|].
  wp_bind. apply wp_overflow_mul_shr; [done|done|lia| |done]. intros H2.
  assert (0 <= n / 32 * (n / 32) / 512 < cost_mod).
  { unfold cost_ok in *. split; [apply Z.div_pos; nia|apply Z.div_lt_upper_bound; nia]. }
  apply wp_overflow_add.
  - destruct (ok_memory_gas _ Hsch). unfold cost_ok in *. nia.
  - done.
  - intros. apply HQ; done.
  - done.
Qed.

(** Instructions that address memory pay exactly the difference of the fees, and learn the
    size the memory must have. The size is computed before the gas check, in [usize]: the
    64-bit cost type is where this cannot panic. *)
Lemma wp_mem_gas_cost self sch cur n (Q : Z * Z * Z -> S -> Prop) R s :
  cost_mod = U64_MOD -> schedule_ok sch -> 0 <= cur < U64_MOD -> cur mod 32 = 0 ->
  current_mem_gas self = mem_fee sch cur -> cost_ok (current_mem_gas self) -> cost_ok n ->
  (round32 n < U64_MOD -> (cur < round32 n -> round32 n < 2 ^ 37) ->
   cost_ok (mem_fee sch (Z.max cur (round32 n))) ->
   Q (mem_fee sch (Z.max cur (round32 n)) - mem_fee sch cur,
      mem_fee sch (Z.max cur (round32 n)), round32 n) s) ->
  R OutOfGas s -> wp (mem_gas_cost self sch cur n) Q R s.
Proof.
  intros H64 Hsch Hcur Hcm Hmg Hmok Hn HQ HR. unfold mem_gas_cost.
  wp_bind. apply wp_to_word_size; [done| |done]. intros Hlt.
  pose proof (round32_bounds n ltac:(unfold cost_ok in Hn; lia)) as [Hrb Hrm].
  assert (Hle : round32 n <= n + 31) by (unfold round32; pose proof (Z.mul_div_le (n + 31) 32); lia).
  assert (Hr : cost_ok (round32 n)) by (unfold cost_ok in *; lia).
  assert (Hwok : cost_ok ((n + 31) / 32)).
  { unfold cost_ok in *. split; [apply Z.div_pos; lia|apply Z.div_lt_upper_bound; lia]. }
  rewrite cl_shl by (done || lia). change (2 ^ 5) with 32. fold (round32 n).
  rewrite (Z.mod_small (round32 n)) by exact Hr.
  assert (Hus : as_usize (round32 n) = Some (round32 n)).
  { rewrite cl_as_usize by done. rewrite <- H64. unfold cost_ok in Hr.
    by rewrite (proj2 (Z.ltb_lt _ _)) by lia. }
  unfold cost_ok in *. destruct (Z.ltb_spec cur (round32 n)) as [Hexp|Hnexp].
  - do 2 wp_bind. apply wp_gas_for_mem; [done|done| |done]. intros Hf Hsq.
    pose proof (mem_fee_mono sch cur (round32 n) Hsch ltac:(lia)) as Hmono.
    wp_bind. eapply wp_expect.
    { rewrite cl_sub by (unfold cost_ok; lia). by rewrite (proj2 (Z.leb_le _ _)) by lia. }
    apply wp_ret. wp_bind. eapply wp_expect; [done|]. apply wp_ret.
    rewrite Z.max_r in HQ by lia. rewrite Hmg. apply HQ; [lia| |lia].
    intros _. assert (round32 n / 32 < 2 ^ 32) by (rewrite H64 in Hsq; unfold U64_MOD in Hsq; nia).
    pose proof (Z.div_mod (round32 n) 32). lia.
  - wp_bind. apply wp_ret. wp_bind. eapply wp_expect; [done|]. apply wp_ret.
    rewrite Z.max_l, Z.sub_diag in HQ by lia. rewrite Hmg. apply HQ; lia.
Qed.

(** ** Gas passed to a call or create *)

(** EIP-150's all but one [d]-th. *)
Definition all_but (d rem : Z) : Z := rem - rem / d.

Definition provided (self : Gasometer) (sch : Schedule) (needed : Z) (requested : option Z)
    : option Z :=
  match sub_gas_cap_divisor sch with
  | Some d =>
      if needed <=? current_gas self then
        Some (match requested with
              | Some r => Z.min r (all_but d (current_gas self - needed))
              | None => all_but d (current_gas self - needed)
              end)
      else match requested with
           | Some r => if r <? cost_mod then Some r else None
           | None => Some 0
           end
  | None =>
      match requested with
      | Some r => if r <? cost_mod then Some r else None
      | None => Some (Z.max 0 (current_gas self - needed))
      end
  end.

Lemma all_but_bounds d rem : 0 < d -> 0 <= rem -> 0 <= all_but d rem <= rem.
Proof.
  intros Hd Hr. unfold all_but. pose proof (Z.div_pos rem d Hr Hd).
  pose proof (Z.div_le_upper_bound rem d rem Hd). nia.
Qed.

Lemma provided_ok self sch needed requested p :
  schedule_ok sch -> cost_ok (current_gas self) -> cost_ok needed -> opt_ok is_u256 requested ->
  provided self sch needed requested = Some p -> cost_ok p.
Proof.
  intros Hsch Hg Hn Hr. unfold provided, cost_ok in *.
  destruct (sub_gas_cap_divisor sch) as [d|] eqn:Hd.
  - pose proof (ok_cap _ Hsch d Hd).
    destruct (Z.leb_spec needed (current_gas self)).
    + pose proof (all_but_bounds d (current_gas self - needed)).
      intros [= <-]. destruct requested; cbn in Hr; [range_lia|lia].
    + destruct requested as [r|]; cbn in Hr; [case_bool; [|done]|]; intros [= <-]; range_lia.
  - destruct requested as [r|]; cbn in Hr; [case_bool; [|done]|]; intros [= <-]; range_lia.
Qed.

(** The two ways the code divides by the divisor agree. *)
Lemma max_provided_eq d rem (k : Z -> M S vm_error Z) s :
  0 < d < 2 ^ 32 -> cost_ok rem ->
  bind (if d =? 64 then expect (cost_sub rem (cost_shr rem 6))
        else do q <- expect (cost_div rem d) in expect (cost_sub rem q)) k s
  = k (all_but d rem) s.
Proof.
  intros Hd Hrem. pose proof (all_but_bounds d rem ltac:(lia) ltac:(apply Hrem)) as Hab.
  pose proof cost_mod_bounds.
  assert (Hq : cost_ok (rem / d)) by (unfold all_but, cost_ok in *; nia).
  unfold all_but in *. destruct (Z.eqb_spec d 64) as [->|].
  - rewrite cl_shr by (done || lia). change (2 ^ 6) with 64.
    rewrite cl_sub by done. by rewrite (proj2 (Z.leb_le _ _)) by lia.
  - rewrite cl_div by (done || (unfold cost_ok; lia)).
    rewrite (proj2 (Z.eqb_neq d 0)) by lia.
    unfold bind, expect, ret, panic. rewrite cl_sub by done.
    by rewrite (proj2 (Z.leb_le _ _)) by lia.
Qed.

Lemma gas_provided_eq self sch needed requested s :
  schedule_ok sch -> cost_ok (current_gas self) -> cost_ok needed -> opt_ok is_u256 requested ->
  gas_provided (S := S) self sch needed requested s =
  match provided self sch needed requested with
  | Some p => Ret p s
  | None => Throw OutOfGas s
  end.
Proof.
  intros Hsch Hg Hn Hr. unfold gas_provided, provided.
  assert (Hsub : needed <= current_gas self ->
    cost_sub (current_gas self) needed = Some (current_gas self - needed)).
  { intros. rewrite cl_sub by done. by rewrite (proj2 (Z.leb_le _ _)) by lia. }
  assert (Hreq : forall r, requested = Some r ->
    from_u256 r = if r <? cost_mod then inl r else inr OutOfGas).
  { intros r ->. by apply cl_from_u256. }
  destruct (sub_gas_cap_divisor sch) as [d|] eqn:Hd.
  - pose proof (ok_cap _ Hsch d Hd) as Hcap. pose proof cost_mod_bounds.
    destruct (Z.leb_spec needed (current_gas self)) as [Hle|Hgt].
    + specialize (Hsub Hle). set (rem := current_gas self - needed) in *.
      assert (Hrem : cost_ok rem) by (unfold cost_ok, rem in *; lia).
      pose proof (all_but_bounds d rem ltac:(lia) ltac:(apply Hrem)) as Hab.
      unfold bind at 1. rewrite Hsub. unfold expect at 1, ret at 1.
      rewrite max_provided_eq by (done || lia).
      destruct requested as [r|]; cbn [fmap option_fmap option_map]; [|done].
      rewrite (Hreq r eq_refl). destruct (Z.ltb_spec r cost_mod); [done|].
      rewrite Z.min_r by (unfold cost_ok in *; lia). done.
    + destruct requested as [r|]; cbn [fmap option_fmap option_map]; [|done].
      rewrite (Hreq r eq_refl). by destruct (r <? cost_mod).
  - destruct requested as [r|]; cbn [fmap option_fmap option_map].
    + rewrite (Hreq r eq_refl). by destruct (r <? cost_mod).
    + destruct (Z.leb_spec needed (current_gas self)) as [Hle|Hgt].
      * rewrite (Hsub Hle). cbn. by rewrite Z.max_r by lia.
      * cbn. by rewrite Z.max_l by lia.
Qed.

End Rules.

(** ** What a request promises *)

Section Requests.
Context {Cost : CostType} {CL : CostLaws Cost}.
Context {E : Type} {EE : Ext E} (Inv : E -> Prop).
Context {me : Z} {affords : E -> Z -> Z -> Prop} {trap_ready : E -> TrapKind -> Prop}.
Context {EL : ExtLaws me Inv affords trap_ready}.

(** The [n]-th operand from the top. *)
Definition arg (stack : list Z) (n : Z) : Z := default 0 (vec_get stack n).

(** The memory ranges an instruction reads or writes, as offset and size. *)
Definition mem_demand (i : Instruction) (stack : list Z) : list (Z * Z) :=
  let a := arg stack in
  match i with
  | MSTORE | MLOAD => [(a 0, 32)]
  | MSTORE8 => [(a 0, 1)]
  | RETURN | REVERT | SHA3 | LOG0 | LOG1 | LOG2 | LOG3 | LOG4 => [(a 0, a 1)]
  | CALLDATACOPY | CODECOPY | RETURNDATACOPY => [(a 0, a 2)]
  | EXTCODECOPY => [(a 1, a 3)]
  | CALL | CALLCODE => [(a 3, a 4); (a 5, a 6)]
  | DELEGATECALL | STATICCALL => [(a 2, a 3); (a 4, a 5)]
  | CREATE | CREATE2 => [(a 1, a 2)]
  | _ => []
  end.

Definition covers (mem : Z) (ranges : list (Z * Z)) : Prop :=
  Forall (fun '(off, size) => size = 0 \/ off + size <= mem) ranges.

(** Instructions after which execution does not continue. *)
Definition halts (i : Instruction) : bool :=
  match i with STOP | RETURN | REVERT | SUICIDE => true | _ => false end.

(** Instructions that pass gas on. *)
Definition passes_gas (i : Instruction) : bool :=
  match i with
  | CALL | CALLCODE | DELEGATECALL | STATICCALL | CREATE | CREATE2 => true
  | _ => false
  end.

(** The free gas a value-bearing call adds for the callee. *)
Definition stipend_of (sch : Schedule) (i : Instruction) (stack : list Z) : Z :=
  match i with
  | CALL | CALLCODE => if arg stack 2 =? 0 then 0 else call_stipend sch
  | _ => 0
  end.

Definition req_gas (r : Request) : Z :=
  match r with
  | ReqGas g | ReqGasMem g _ | ReqGasMemProvide g _ _ | ReqGasMemCopy g _ _ => g
  end.

Definition req_mem (r : Request) : Z :=
  match r with
  | ReqGas _ => 0
  | ReqGasMem _ m | ReqGasMemProvide _ m _ | ReqGasMemCopy _ m _ => m
  end.

Definition request_shape (i : Instruction) (r : Request) : Prop :=
  match r with
  | ReqGasMemProvide _ _ q => passes_gas i = true /\ opt_ok is_u256 q
  | ReqGasMemCopy _ _ c => passes_gas i = false /\ cost_ok c
  | _ => passes_gas i = false
  end.

Record request_ok (sch : Schedule) (i : Instruction) (stack : list Z) (r : Request) : Prop := {
  ro_gas : cost_ok (req_gas r);
  ro_mem : cost_ok (req_mem r);
  ro_shape : request_shape i r;
  ro_covers : covers (req_mem r) (mem_demand i stack);
  ro_stipend : stipend_of sch i stack <= req_gas r;
  ro_progress : progress_ok sch -> halts i = false ->
                stipend_of sch i stack + 1 <= req_gas r;
}.

Lemma arg_get stack n v : vec_get stack n = Some v -> arg stack n = v.
Proof. unfold arg. by intros ->. Qed.

Lemma zero_cost_ok : cost_ok 0.
Proof. unfold cost_ok. pose proof cost_mod_bounds. lia. Qed.

Lemma one_cost_ok : cost_ok 1.
Proof. unfold cost_ok. pose proof cost_mod_bounds. lia. Qed.

(** A request computed from a host state reached from [e0]. *)
Definition request_post (e0 : E) (sch : Schedule) (i : Instruction) (stack : list Z)
    (r : Request) (e : E) : Prop := host Inv e0 e /\ request_ok sch i stack r.

End Requests.

Section CostClosure.
Context {Cost : CostType} {CL : CostLaws Cost}.

Lemma cost_ok_sum x y : cost_ok x -> cost_ok y -> x + y < cost_mod -> cost_ok (x + y).
Proof. unfold cost_ok. lia. Qed.

Lemma cost_ok_prod x y : cost_ok x -> cost_ok y -> x * y < cost_mod -> cost_ok (x * y).
Proof. unfold cost_ok. nia. Qed.

Lemma cost_ok_words x : cost_ok x -> cost_ok ((x + 31) / 32).
Proof.
  unfold cost_ok. intros Hx. pose proof cost_mod_bounds.
  split; [apply Z.div_pos; lia|apply Z.div_lt_upper_bound; lia].
Qed.

Lemma cost_ok_u256 v : is_u256 v -> v < cost_mod -> cost_ok v.
Proof. unfold cost_ok. range_lia. Qed.

Lemma cost_ok_max x y : cost_ok x -> cost_ok y -> cost_ok (Z.max x y).
Proof. unfold cost_ok. lia. Qed.

Lemma covers_max m1 m2 (a1 s1 a2 s2 : Z) :
  s1 = 0 \/ a1 + s1 <= m1 -> s2 = 0 \/ a2 + s2 <= m2 ->
  covers (Z.max m1 m2) [(a2, s2); (a1, s1)].
Proof. intros H1 H2. unfold covers. rewrite !Forall_cons. split_and!; [lia|lia|constructor]. Qed.

Lemma covers_one m off size : size = 0 \/ off + size <= m -> covers m [(off, size)].
Proof. intros H1. constructor; [exact H1|constructor]. Qed.

End CostClosure.

Create HintDb gas discriminated.
#[export] Hint Resolve small_cost_ok zero_cost_ok one_cost_ok cost_ok_sum cost_ok_prod cost_ok_words
  cost_ok_u256 cost_ok_max : gas.
#[export] Hint Resolve ok_exp_gas ok_exp_byte_gas ok_sha3_gas ok_sha3_word_gas ok_sload_gas
  ok_sstore_set_gas ok_sstore_reset_gas ok_log_gas ok_log_data_gas ok_log_topic_gas ok_create_gas
  ok_call_gas ok_call_value_transfer_gas ok_call_new_account_gas ok_memory_gas ok_copy_gas
  ok_extcodesize_gas ok_extcodecopy_base_gas ok_balance_gas ok_extcodehash_gas ok_suicide_gas
  ok_suicide_to_new_account_cost ok_blockhash_gas : gas.
#[export] Hint Resolve pg_exp_gas pg_sha3_gas pg_sload_gas pg_sstore_set_gas pg_sstore_reset_gas
  pg_log_gas pg_create_gas pg_call_gas pg_balance_gas pg_extcodesize_gas pg_extcodehash_gas
  pg_extcodecopy_base_gas pg_blockhash_gas : gas.

(** Running out of gas leaves the host as it is. *)
Ltac gas_fails := first [assumption | refine (conj I _); assumption].

(** One statement of a gas computation: splits sequences, applies the rule of the checked
    operation, and keeps the facts it yields. *)
Ltac gas_step :=
  match goal with
  | |- wp (bind _ _) _ _ _ => apply wp_bind
  | |- wp (ret _) _ _ _ => apply wp_ret
  | |- wp (gets _) _ _ _ => apply wp_gets
  | |- wp (peek _ _) _ _ _ => apply wp_peek; [assumption|lia|intros ? ?%arg_get ?]
  | |- wp (mem_needed _ _) _ _ _ => apply wp_mem_needed; [assumption|assumption|intros ? ? ?|gas_fails]
  | |- wp (mem_needed_const _ _) _ _ _ =>
      apply wp_mem_needed_const; [assumption|lia|intros ? ? ?|gas_fails]
  | |- wp (lift_result (from_u256 _)) _ _ _ => apply wp_from_u256; [assumption|intros ?|gas_fails]
  | |- wp (overflowing (overflow_add _ _)) _ _ _ => apply wp_overflow_add; [| |intros ?|gas_fails]
  | |- wp (overflowing (overflow_mul _ _)) _ _ _ => apply wp_overflow_mul; [| |intros ?|gas_fails]
  | |- wp (overflowing (to_word_size _)) _ _ _ => apply wp_to_word_size; [|intros ?|gas_fails]
  | |- wp (if ?b then _ else _) _ _ _ => let H := fresh "Hb" in destruct b eqn:H
  end.

(** Side conditions that a value is a valid cost. *)
Ltac cost_solve :=
  solve [ assumption | eauto 14 with gas
        | unfold cost_ok, small in *; unfold_widths; first [lia|nia] ].

Section RequestLemmas.
Context {Cost : CostType} {CL : CostLaws Cost}.
Context {E : Type} {EE : Ext E} (Inv : E -> Prop).
Context {me : Z} {affords : E -> Z -> Z -> Prop} {trap_ready : E -> TrapKind -> Prop}.
Context {EL : ExtLaws me Inv affords trap_ready}.
Context (e0 e : E) (sch : Schedule) (stack : list Z).
Context (Hsch : schedule_ok sch) (Hst : Forall is_u256 stack) (He : host Inv e0 e).

Let err : vm_error -> E -> Prop := fun er e' => proper er /\ host Inv e0 e'.

(** Requests of instructions that pass no gas on. *)
Lemma request_ok_plain i r :
  passes_gas i = false -> cost_ok (req_gas r) -> cost_ok (req_mem r) -> request_shape i r ->
  covers (req_mem r) (mem_demand i stack) ->
  (progress_ok sch -> halts i = false -> 1 <= req_gas r) -> request_ok sch i stack r.
Proof.
  intros Hp Hg Hm Hs Hc Hpr.
  assert (Hst0 : stipend_of sch i stack = 0) by (by destruct i).
  split; rewrite ?Hst0; try done. apply Hg.
Qed.

Lemma request_ok_gas i g :
  passes_gas i = false -> mem_demand i stack = [] -> cost_ok g ->
  (progress_ok sch -> halts i = false -> 1 <= g) -> request_ok sch i stack (ReqGas g).
Proof.
  intros Hp Hd Hg Hpr. apply request_ok_plain; try done; [apply zero_cost_ok|].
  rewrite Hd. constructor.
Qed.

Lemma eip1283_gas_ok o c n : let g := calculate_eip1283_sstore_gas sch o c n in
  cost_ok g /\ (progress_ok sch -> 1 <= g).
Proof. unfold calculate_eip1283_sstore_gas. repeat case_bool; (split; [cost_solve|auto with gas]). Qed.

Lemma sstore_request_ok : 2 <= zlen stack ->
  wp (sstore_request sch stack) (request_post Inv e0 sch SSTORE stack) err e.
Proof.
  intros Hlen. unfold sstore_request. repeat gas_step.
  eapply wp_method; [apply law_storage_at|exact He|intros val e1 Hval He1|done].
  gas_step.
  - gas_step. eapply wp_method; [apply law_initial_storage_at|exact He1|intros o e2 Ho He2|done].
    gas_step. split; [done|]. destruct (eip1283_gas_ok o val v0) as [Hg Hpg]. apply request_ok_gas; auto.
  - gas_step. split; [done|]. apply request_ok_gas; try done; case_bool; try cost_solve; auto with gas.
Qed.

Lemma pays_for_new_account_ok e1 a b (Q : bool -> E -> Prop) :
  host Inv e0 e1 -> (forall x e2, host Inv e0 e2 -> Q x e2) ->
  wp (pays_for_new_account sch a b) Q err e1.
Proof.
  intros He1 HQ. unfold pays_for_new_account.
  destruct (no_empty sch); cbn [negb andb]; do 2 gas_step.
  - destruct b; [gas_step|gas_step; auto].
    eapply wp_method; [apply law_exists_and_not_null|exact He1|intros; gas_step; auto|done].
  - eapply wp_method; [apply law_exists|exact He1|intros ex e2 _ He2|done].
    gas_step. destruct (negb ex); gas_step; auto.
Qed.

Lemma suicide_request_ok : 1 <= zlen stack ->
  wp (suicide_request sch stack) (request_post Inv e0 sch SUICIDE stack) err e.
Proof.
  intros Hlen. unfold suicide_request. gas_step.
  eapply wp_method; [apply law_origin_balance|exact He|intros bal e1 Hbal He1|done].
  repeat gas_step. apply pays_for_new_account_ok; [done|]. intros fresh e2 He2.
  repeat gas_step; try cost_solve; (split; [done|]); (apply request_ok_gas; [done|done|cost_solve|intros _ [=]]).
Qed.

(** Closes the obligations of a request for a memory range. *)
Ltac request_plain :=
  split; [done|]; apply request_ok_plain; cbn [req_gas req_mem request_shape mem_demand];
  [reflexivity|cost_solve|cost_solve|first [reflexivity|split; [reflexivity|cost_solve]]
  |apply covers_one; subst; first [assumption|right; assumption]|].

Lemma sha3_request_ok : 2 <= zlen stack ->
  wp (sha3_request sch stack) (request_post Inv e0 sch SHA3 stack) err e.
Proof.
  intros Hlen. unfold sha3_request. repeat gas_step; try cost_solve. request_plain.
  intros Hp _. pose proof (pg_sha3_gas _ Hp).
  assert (Hc : cost_ok (sha3_word_gas sch * ((v + 31) / 32))) by cost_solve.
  unfold cost_ok in Hc. lia.
Qed.

Lemma log_request_ok i n : log_topics i = Some n -> n + 2 <= zlen stack ->
  wp (log_request sch i stack) (request_post Inv e0 sch i stack) err e.
Proof.
  intros Hi Hlen. assert (Hn : 0 <= n <= 4) by (destruct i; vm_compute in Hi; simplify_eq; lia).
  pose proof (ok_log_gas _ Hsch). pose proof (ok_log_topic_gas _ Hsch). unfold small in *.
  assert (Htop : small (log_gas sch) /\ 0 <= log_gas sch + log_topic_gas sch * n < 2 ^ 40)
    by (unfold small; nia).
  unfold log_request. rewrite Hi. gas_step. apply wp_ret.
  gas_step. eapply wp_expect; [unfold usize_mul; rewrite (proj2 (Z.ltb_lt _ _)) by (unfold U64_MOD; nia); reflexivity|].
  gas_step. eapply wp_expect; [unfold usize_add; rewrite (proj2 (Z.ltb_lt _ _)) by (unfold U64_MOD; nia); reflexivity|].
  assert (Hok : cost_ok (log_gas sch + log_topic_gas sch * n))
    by (pose proof cost_mod_bounds; unfold cost_ok; lia).
  repeat gas_step; try cost_solve.
  assert (Hc : cost_ok (v * log_data_gas sch)) by cost_solve.
  destruct i; try (vm_compute in Hi; discriminate Hi); request_plain;
    intros Hp _; pose proof (pg_log_gas _ Hp); unfold cost_ok in *; nia.
Qed.

Lemma call_request_post i e1 g m1 m2 q : i = CALL \/ i = CALLCODE ->
  host Inv e0 e1 -> cost_ok g -> cost_ok m1 -> cost_ok m2 -> is_u256 q ->
  (arg stack 6 = 0 \/ arg stack 5 + arg stack 6 <= m1) ->
  (arg stack 4 = 0 \/ arg stack 3 + arg stack 4 <= m2) ->
  call_gas sch + (if arg stack 2 =? 0 then 0 else call_value_transfer_gas sch) <= g ->
  request_post Inv e0 sch i stack (ReqGasMemProvide g (Z.max m1 m2) (Some q)) e1.
Proof.
  intros Hi He1 Hg Hm1 Hm2 Hq Hr1 Hr2 Hle. split; [done|].
  assert (Hs : stipend_of sch i stack = if arg stack 2 =? 0 then 0 else call_stipend sch)
    by (by destruct Hi as [-> | ->]).
  pose proof (ok_call_gas _ Hsch) as [Hcg _]. pose proof (ok_stipend _ Hsch) as Hstip.
  split; cbn [req_gas req_mem].
  - done.
  - cost_solve.
  - by destruct Hi as [-> | ->].
  - destruct Hi as [-> | ->]; by apply covers_max.
  - rewrite Hs. case_bool; lia.
  - intros Hp _. pose proof (pg_call_gas _ Hp). rewrite Hs. case_bool; lia.
Qed.

Lemma call_request_ok i : i = CALL \/ i = CALLCODE -> 7 <= zlen stack ->
  wp (call_request sch i stack) (request_post Inv e0 sch i stack) err e.
Proof.
  intros Hi Hlen. unfold call_request. do 17 gas_step.
  apply wp_mono with (Q := fun _ e1 => host Inv e0 e1) (R := err); [| |done].
  { gas_step; [apply pays_for_new_account_ok; auto|by gas_step]. }
  intros fresh e1 He1. repeat gas_step; try cost_solve;
    (apply call_request_post; [done|done|cost_solve|done|done|done|by subst|by subst|]);
    match goal with H : arg stack 2 = ?x |- _ => rewrite H; destruct (x =? 0) end;
    cbn in *; try done; pose proof (ok_call_new_account_gas _ Hsch); unfold small in *; lia.
Qed.

Lemma delegate_request_ok i : i = DELEGATECALL \/ i = STATICCALL -> 6 <= zlen stack ->
  wp (delegate_request sch stack) (request_post Inv e0 sch i stack) err e.
Proof.
  intros Hi Hlen. unfold delegate_request. repeat gas_step. split; [done|].
  assert (Hs : stipend_of sch i stack = 0) by (by destruct Hi as [-> | ->]).
  split; cbn [req_gas req_mem]; rewrite ?Hs.
  - cost_solve.
  - cost_solve.
  - by destruct Hi as [-> | ->].
  - destruct Hi as [-> | ->]; subst; by apply covers_max.
  - apply (ok_call_gas _ Hsch).
  - intros Hp _. apply (pg_call_gas _ Hp).
Qed.

(** [CREATE] and [CREATE2] request whatever the cap allows. *)
Lemma create_request_post i e1 g m : i = CREATE \/ i = CREATE2 ->
  host Inv e0 e1 -> cost_ok g -> cost_ok m -> create_gas sch <= g ->
  (arg stack 2 = 0 \/ arg stack 1 + arg stack 2 <= m) ->
  request_post Inv e0 sch i stack (ReqGasMemProvide g m None) e1.
Proof.
  intros Hi He1 Hg Hm Hle Hr. split; [done|].
  assert (Hs : stipend_of sch i stack = 0) by (by destruct Hi as [-> | ->]).
  pose proof (ok_create_gas _ Hsch) as [Hcg _].
  split; cbn [req_gas req_mem]; rewrite ?Hs; try done; try lia.
  - by destruct Hi as [-> | ->].
  - destruct Hi as [-> | ->]; by apply covers_one.
  - intros Hp _. pose proof (pg_create_gas _ Hp). lia.
Qed.

Lemma create_request_ok : 3 <= zlen stack ->
  wp (create_request sch stack) (request_post Inv e0 sch CREATE stack) err e.
Proof.
  intros Hlen. unfold create_request. repeat gas_step.
  apply create_request_post; subst; auto; first [cost_solve|lia].
Qed.

Lemma create2_request_ok : 4 <= zlen stack ->
  wp (create2_request sch stack) (request_post Inv e0 sch CREATE2 stack) err e.
Proof.
  intros Hlen. unfold create2_request. repeat gas_step; try cost_solve.
  assert (Hw : cost_ok (sha3_word_gas sch * ((v0 + 31) / 32))) by cost_solve.
  apply create_request_post; subst; auto; first [cost_solve|unfold cost_ok in Hw; lia].
Qed.

Lemma u256_bits_bound v : is_u256 v -> 0 <= u256_bits v <= 256.
Proof.
  intros Hv. unfold u256_bits. destruct (Z.eqb_spec v 0); [lia|].
  pose proof (Z.log2_nonneg v). assert (Z.log2 v < 256) by (apply Z.log2_lt_pow2; range_lia). lia.
Qed.

Lemma exp_request_ok : 2 <= zlen stack ->
  wp (exp_request sch stack) (request_post Inv e0 sch EXP stack) err e.
Proof.
  intros Hlen. unfold exp_request. repeat gas_step.
  pose proof (u256_bits_bound v ltac:(done)) as Hbits. pose proof cost_mod_bounds.
  assert (Hby : 0 <= (u256_bits v + 7) / 8 < 33)
    by (split; [apply Z.div_pos; lia|apply Z.div_lt_upper_bound; lia]).
  set (n := (u256_bits v + 7) / 8) in *. clearbody n.
  destruct (ok_exp_gas _ Hsch), (ok_exp_byte_gas _ Hsch).
  assert (Hp : 0 <= exp_byte_gas sch * n <= 2 ^ 32 * 32) by nia.
  eapply wp_expect; [unfold usize_mul; rewrite (proj2 (Z.ltb_lt _ _)) by range_lia; reflexivity|].
  gas_step.
  eapply wp_expect; [unfold usize_add; rewrite (proj2 (Z.ltb_lt _ _)) by range_lia; reflexivity|].
  gas_step. split; [done|]. apply request_ok_gas; [done|done|unfold cost_ok; lia|].
  intros Hpr _. pose proof (pg_exp_gas _ Hpr). lia.
Qed.

(** Every instruction's request covers the memory it touches and pays for progress. *)
Lemma request_of_ok i inf :
  sch = ext_schedule e0 -> info_slot i = Some inf -> info_args inf <= zlen stack ->
  wp (request_of i inf stack) (request_post Inv e0 sch i stack) err e.
Proof.
  intros Heq Hinf Hlen. unfold request_of. gas_step. gas_step.
  rewrite (host_schedule _ _ _ He), <- Heq. gas_step.
  destruct (ok_tiers _ Hsch (tier_idx (info_tier inf))) as (g & Hg & Hgs);
    [destruct (info_tier inf); cbn; lia|].
  eapply wp_expect; [exact Hg|]. pose proof (small_cost_ok g Hgs) as Hgok.
  assert (Hpg : progress_ok sch -> (1 <= tier_idx (info_tier inf) <= 6)%nat -> 1 <= g)
    by (intros Hp Ht; by eapply (pg_tier _ Hp)).
  destruct i; vm_compute in Hinf; injection Hinf as <-;
    cbn [info_args info_tier tier_idx] in Hlen, Hpg;
    first
    [ gas_step; split; [done|];
      (apply request_ok_gas; [reflexivity|reflexivity|cost_solve|]);
      first [intros _ Hh; discriminate Hh|intros Hp _; apply Hpg; [exact Hp|lia]|intros Hp _; solve [auto with gas]|intros; lia]
    | repeat gas_step; request_plain;
      first [intros _ Hh; discriminate Hh|intros Hp _; apply Hpg; [exact Hp|lia]|intros Hp _; solve [auto with gas]]
    | by apply sstore_request_ok | by apply suicide_request_ok | by apply sha3_request_ok
    | eapply log_request_ok; [reflexivity|cbn; lia]
    | apply call_request_ok; [tauto|done] | apply delegate_request_ok; [tauto|done]
    | by apply create_request_ok | by apply create2_request_ok | by apply exp_request_ok ].
Qed.

End RequestLemmas.

(** ** What the requirements promise *)

Section RequirementLemmas.
Context {Cost : CostType} {CL : CostLaws Cost} (H64 : cost_mod = U64_MOD).
Context {E : Type} {EE : Ext E} (Inv : E -> Prop).
Context {me : Z} {affords : E -> Z -> Z -> Prop} {trap_ready : E -> TrapKind -> Prop}.
Context {EL : ExtLaws me Inv affords trap_ready}.

(** The gasometer's record of what has been paid for the memory is the fee of its size. *)
Record gasometer_ok (sch : Schedule) (self : Gasometer) (cur : Z) : Prop := {
  go_gas : cost_ok (current_gas self);
  go_mem_gas : current_mem_gas self = mem_fee sch cur;
  go_mem_cost : cost_ok (current_mem_gas self);
  go_cur : 0 <= cur < 2 ^ 37;
  go_cur_words : cur mod 32 = 0;
}.

Record requirements_ok (sch : Schedule) (cur : Z) (i : Instruction) (stack : list Z)
    (r : InstructionRequirements) : Prop := {
  rq_gas : cost_ok (gas_cost r);
  rq_mem_gas : memory_total_gas r = mem_fee sch (Z.max cur (memory_required_size r));
  rq_mem_cost : cost_ok (memory_total_gas r);
  rq_size : 0 <= memory_required_size r;
  rq_size_max : Z.max cur (memory_required_size r) < 2 ^ 37;
  rq_size_words : memory_required_size r mod 32 = 0;
  rq_covers : covers (Z.max cur (memory_required_size r)) (mem_demand i stack);
  rq_provide : passes_gas i = true ->
    exists p, provide_gas r = Some p /\ cost_ok p /\ p + stipend_of sch i stack <= gas_cost r /\
              (progress_ok sch -> p + stipend_of sch i stack + 1 <= gas_cost r);
  rq_progress : progress_ok sch -> halts i = false -> 1 <= gas_cost r;
}.

Lemma covers_mono m m' ranges : m <= m' -> covers m ranges -> covers m' ranges.
Proof. intros Hle Hc. eapply Forall_impl; [exact Hc|]. intros [off size]. lia. Qed.

Lemma stipend_nonneg sch i stack : schedule_ok sch -> 0 <= stipend_of sch i stack.
Proof.
  intros Hsch. destruct (ok_call_stipend _ Hsch). unfold stipend_of.
  destruct i; try lia; case_bool; lia.
Qed.

Lemma passes_gas_continues i : passes_gas i = true -> halts i = false.
Proof. by destruct i. Qed.

Lemma wp_mem_request e self sch cur n ranges (Q : Z * Z * Z -> E -> Prop) (R : vm_error -> E -> Prop) :
  schedule_ok sch -> gasometer_ok sch self cur -> cost_ok n -> covers n ranges ->
  (forall d t sz, cost_ok d -> t = mem_fee sch (Z.max cur sz) -> cost_ok t -> 0 <= sz ->
     Z.max cur sz < 2 ^ 37 -> sz mod 32 = 0 -> covers (Z.max cur sz) ranges -> Q (d, t, sz) e) ->
  R OutOfGas e -> wp (mem_gas_cost self sch cur n) Q R e.
Proof.
  intros Hsch [Hg Hmg Hmc Hcur Hcw] Hn Hc HQ HR. destruct (round32_bounds n) as [Hb Hb2]; [apply Hn|].
  apply wp_mem_gas_cost; [done|done|range_lia|done|done|done|done| |done].
  intros Hlt Hsm Hc2. assert (0 <= n) by apply Hn.
  pose proof (mem_fee_mono sch cur (Z.max cur (round32 n)) Hsch ltac:(lia)).
  apply HQ; [unfold cost_ok in *; lia|done|done|lia|lia|done|].
  eapply covers_mono; [|exact Hc]. lia.
Qed.

Lemma requirements_of_ok e self sch cur i stack r
    (Q : InstructionRequirements -> E -> Prop) (R : vm_error -> E -> Prop) :
  schedule_ok sch -> gasometer_ok sch self cur -> request_ok sch i stack r ->
  (forall req, requirements_ok sch cur i stack req -> Q req e) -> (R OutOfGas e) ->
  wp (requirements_of self sch cur r) Q R e.
Proof.
  intros Hsch [Hg Hmg Hmc Hcur Hcw] [Hrg Hrm Hshape Hcov Hstip Hprog] HQ HR.
  pose proof (stipend_nonneg sch i stack Hsch) as Hnn.
  pose proof (fun n Q' => wp_mem_request e self sch cur n (mem_demand i stack) Q' R Hsch
    (Build_gasometer_ok _ _ _ Hg Hmg Hmc Hcur Hcw)) as Hmem.
  destruct r as [g|g m|g m q|g m c]; cbn [requirements_of req_gas req_mem request_shape] in *.
  - gas_step. apply HQ. split; cbn; rewrite ?Hshape; try done; try lia.
    + by rewrite Z.max_l by lia.
    + eapply covers_mono; [|exact Hcov]. lia.
    + intros Hp Hh. specialize (Hprog Hp Hh). lia.
  - gas_step. apply Hmem; [done|done| |done]. intros d t sz Hd Ht Htc Hsz Hmax Hw Hcv.
    gas_step. gas_step; [done|done|]. gas_step.
    apply HQ. split; cbn; rewrite ?Hshape; try done; [unfold cost_ok in *; lia|].
    intros Hp Hh. specialize (Hprog Hp Hh). unfold cost_ok in Hd. lia.
  - destruct Hshape as [Hpass Hq]. pose proof (passes_gas_continues i Hpass) as Hcont.
    gas_step. apply Hmem; [done|done| |done]. intros d t sz Hd Ht Htc Hsz Hmax Hw Hcv.
    gas_step. gas_step; [done|done|]. gas_step.
    assert (Hgd : cost_ok (g + d)) by cost_solve.
    unfold wp. rewrite gas_provided_eq by done.
    destruct (provided self sch (g + d) q) as [p|] eqn:Hp; [|done].
    pose proof (provided_ok _ _ _ _ _ Hsch Hg Hgd Hq Hp) as Hpok.
    change (wp (do total_gas <- overflowing (overflow_add (g + d) p) in
      ret (mkRequirements total_gas (Some p) t sz)) Q R e).
    gas_step. gas_step; [done|done|]. gas_step. unfold cost_ok in *.
    apply HQ. split; cbn; try done; [unfold cost_ok; lia| |].
    + intros _. exists p. split_and!; [done|done|lia|].
      intros Hpr. specialize (Hprog Hpr Hcont). lia.
    + intros Hpr _. specialize (Hprog Hpr Hcont). lia.
  - destruct Hshape as [Hpass Hc]. gas_step. apply Hmem; [done|done| |done].
    intros d t sz Hd Ht Htc Hsz Hmax Hw Hcv. repeat gas_step; try cost_solve.
    assert (Hcw2 : cost_ok (copy_gas sch * ((c + 31) / 32))) by cost_solve. unfold cost_ok in *.
    apply HQ. split; cbn; rewrite ?Hpass; try done; [unfold cost_ok; lia|].
    intros Hpr Hh. specialize (Hprog Hpr Hh). lia.
Qed.

Lemma requirements_spec e0 e self cur i inf stack :
  let sch := ext_schedule e0 in
  schedule_ok sch -> host Inv e0 e -> gasometer_ok sch self cur ->
  Forall is_u256 stack -> info_slot i = Some inf -> info_args inf <= zlen stack ->
  wp (requirements self i inf stack cur)
     (fun req e' => host Inv e0 e' /\ requirements_ok sch cur i stack req)
     (fun er e' => proper er /\ host Inv e0 e') e.
Proof.
  intros sch Hsch He Hgo Hst Hinf Hlen. unfold requirements. gas_step. gas_step. gas_step.
  eapply wp_mono; [by apply (request_of_ok Inv e0 e sch)| |done].
  intros r e1 [He1 Hr]. rewrite (host_schedule _ _ _ He). fold sch.
  apply (requirements_of_ok e1 self sch cur i stack r); auto. by split.
Qed.

End RequirementLemmas.

(** ** Theorems on gas *)

(** With either cost type the factory may select, a call or create under the EIP-150
    cap gets the smaller of what it requested and all but one [d]-th of the gas remaining
    after the operation's own cost (everything but that part when it requests nothing), so
    the caller always keeps that part and the total never exceeds the current gas. *)
Theorem call_gas_capped {S : Type} (total_gas : Z) (self : Gasometer) (sch : Schedule) (needed d : Z)
    (requested : option Z) (s : S)
    (Hsch : schedule_wf sch = true)
    (Hgas : 0 <= current_gas self < cost_mod (CostType := factory_cost total_gas))
    (Hneeded : 0 <= needed <= current_gas self)
    (Hreq : opt_ok is_u256 requested)
    (Hcap : sub_gas_cap_divisor sch = Some d) :
  let rem := current_gas self - needed in
  exists p, gas_provided (Cost := factory_cost total_gas) self sch needed requested s = Ret p s /\
    p = match requested with Some r => Z.min r (rem - rem / d) | None => rem - rem / d end /\
    needed + p + rem / d <= current_gas self.
Proof.
  intros rem. pose proof (factory_cost_laws total_gas) as CL. apply schedule_wf_ok in Hsch.
  pose proof (ok_cap _ Hsch d Hcap) as Hd.
  assert (Hn : @cost_ok (factory_cost total_gas) needed) by (unfold cost_ok in *; lia).
  rewrite gas_provided_eq by done. unfold provided. rewrite Hcap.
  rewrite (proj2 (Z.leb_le _ _)) by lia. fold rem. unfold all_but.
  eexists; split; [done|]. split; [done|].
  pose proof (Z.div_pos rem d ltac:(lia) ltac:(lia)). destruct requested; lia.
Qed.

Lemma call_gas_capped_witness :
  exists p, gas_provided (Cost := factory_cost 100000) (mkGasometer 65000 0) new_byzantium 1000
              (Some 100000) tt = Ret p tt /\ p = 63000.
Proof.
  destruct (call_gas_capped 100000 (mkGasometer 65000 0) new_byzantium 1000 64 (Some 100000) tt)
    as (p & H1 & H2 & _); [reflexivity|vm_compute; split; [discriminate|reflexivity]|cbn; lia|cbn; range_lia|reflexivity|].
  exists p. split; [exact H1|]. rewrite H2. reflexivity.
Defined.

(** An instruction that addresses memory up to byte [n] pays exactly the increase of the
    quadratic memory fee from the current size to the required size rounded up to words;
    the total recorded is again the fee of the memory size, and the only failure is running
    out of gas. *)
Theorem memory_expansion_fee {S : Type} (self : Gasometer) (sch : Schedule) (cur n : Z) (s : S)
    (Hsch : schedule_wf sch = true)
    (Hcur : 0 <= cur < U64_MOD) (Hwords : cur mod 32 = 0) (Hn : 0 <= n < U64_MOD)
    (Hfee : current_mem_gas self = mem_fee sch cur) (Hok : current_mem_gas self < U64_MOD) :
  match mem_gas_cost (Cost := CostType_usize) self sch cur n s with
  | Ret (cost, total, size) s' =>
      s' = s /\ size = round32 n /\ total = mem_fee sch (Z.max cur size) /\
      cost = total - mem_fee sch cur /\ 0 <= cost
  | Throw er s' => er = OutOfGas /\ s' = s
  | Panic => False
  end.
Proof.
  apply schedule_wf_ok in Hsch.
  pose proof (mem_fee_mono sch 0 cur Hsch ltac:(lia)) as H0.
  assert (Hw : wp (mem_gas_cost (Cost := CostType_usize) self sch cur n)
    (fun '(cost, total, size) s' => s' = s /\ size = round32 n /\
       total = mem_fee sch (Z.max cur size) /\ cost = total - mem_fee sch cur /\ 0 <= cost)
    (fun er s' => er = OutOfGas /\ s' = s) s).
  { apply wp_mem_gas_cost; try done.
    - rewrite Hfee in *. unfold cost_ok. cbn. change (mem_fee sch 0) with 0 in H0. lia.
    - intros Hr _ _. pose proof (mem_fee_mono sch cur (Z.max cur (round32 n)) Hsch ltac:(lia)).
      split_and!; done || lia. }
  unfold wp in Hw. destruct (mem_gas_cost _ _ _ _ _) as [[[cost total] size] s'|er s'|]; exact Hw.
Qed.

Lemma memory_expansion_fee_witness :
  mem_gas_cost (Cost := CostType_usize) (mkGasometer 1000 6) new_byzantium 64 1000 tt
  = Ret (92, 98, 1024) tt.
Proof.
  pose proof (memory_expansion_fee (mkGasometer 1000 6) new_byzantium 64 1000 tt
    eq_refl ltac:(range_lia) eq_refl ltac:(range_lia) eq_refl ltac:(cbn; range_lia)) as H.
  destruct (mem_gas_cost _ _ _ _ _) as [[[cost total] size] []|er []|] eqn:He;
    vm_compute in He; [|discriminate He|discriminate He].
  destruct H as (_ & -> & -> & -> & _). reflexivity.
Defined.

(** In 256 bits the fee of fewer than [2^129] bytes does not overflow. *)
Lemma u256_gas_for_mem_fits {S : Type} (sch : Schedule) (m : Z) (s : S) :
  schedule_ok sch -> 0 <= m < 2 ^ 129 ->
  exists fee, gas_for_mem (Cost := CostType_U256) sch m s = Ret fee s.
Proof.
  intros Hsch Hm. pose proof (ok_memory_gas _ Hsch) as Hg. unfold small in Hg.
  unfold gas_for_mem, bind, overflowing. cbn.
  unfold u256_overflowing_mul, u256_overflow_mul_shr, u256_overflowing_add, assert_. cbn.
  rewrite (ok_quad_coeff_div _ Hsch).
  assert (Hs : 0 <= Z.shiftr m 5 < 2 ^ 124).
  { rewrite Z.shiftr_div_pow2 by lia. Z.to_euclidean_division_equations. lia. }
  set (w := Z.shiftr m 5) in *.
  assert (H1 : 0 <= w * memory_gas sch < 2 ^ 156) by nia.
  assert (H2 : 0 <= w * w < 2 ^ 248) by nia.
  assert (H3 : 0 <= Z.shiftr (w * w) 9 < 2 ^ 248).
  { rewrite Z.shiftr_div_pow2 by lia. Z.to_euclidean_division_equations. lia. }
  assert (H4 : Z.shiftr (w * w) 256 = 0).
  { rewrite Z.shiftr_div_pow2 by lia. apply Z.div_small. lia. }
  rewrite H4. case_bool; [range_lia|]. cbn.
  rewrite !Z.mod_small by range_lia. case_bool; [range_lia|]. eauto.
Qed.

(** The 256-bit cost type narrows the required memory size to 64 bits before any gas is
    compared: a request of [2^64] bytes or more (up to the sizes whose fee overflows 256
    bits) panics, whatever gas is left, instead of running out of gas. *)
Theorem u256_memory_size_panics {S : Type} (self : Gasometer) (sch : Schedule) (cur n : Z) (s : S)
    (Hsch : schedule_wf sch = true) (Hn : 2 ^ 64 <= n <= 2 ^ 128) :
  mem_gas_cost (Cost := CostType_U256) self sch cur n s = Panic.
Proof.
  apply schedule_wf_ok in Hsch. pose proof (ok_memory_gas _ Hsch) as Hg. unfold small in Hg.
  assert (Hround : n <= round32 n <= n + 31).
  { unfold round32. Z.to_euclidean_division_equations. lia. }
  assert (Hw : to_word_size (Cost := CostType_U256) n = ((n + 31) / 32, false)).
  { unfold to_word_size, add_gas_usize. cbn. unfold u256_overflowing_add. cbn.
    case_bool; [range_lia|]. rewrite Z.mod_small by range_lia.
    rewrite Z.shiftr_div_pow2 by lia. reflexivity. }
  assert (Hr : cost_shl (CostType := CostType_U256) ((n + 31) / 32) 5 = round32 n).
  { cbn. rewrite Z.shiftl_mul_pow2 by lia. change (2 ^ 5) with 32.
    apply Z.mod_small. fold (round32 n). range_lia. }
  assert (Hbig : (round32 n <? U64_MOD) = false) by range_lia.
  assert (Hfee : exists fee, gas_for_mem (Cost := CostType_U256) sch (round32 n) s = Ret fee s).
  { apply (u256_gas_for_mem_fits sch); [done|range_lia]. }
  unfold mem_gas_cost, bind, overflowing. rewrite Hw. cbn [fst snd ret]. rewrite Hr.
  destruct Hfee as [fee Hfee]. destruct (cur <? round32 n); [rewrite Hfee; cbn; destruct (checked_sub _ _); [|done]|];
    cbn; rewrite Hbig; reflexivity.
Qed.

(** The request of [2^64] bytes with [2^100] units of gas left. *)
Lemma u256_memory_size_panics_witness :
  mem_gas_cost (Cost := CostType_U256) (gasometer_new (2 ^ 100)) new_byzantium 0 (2 ^ 64) tt = Panic.
Proof. apply u256_memory_size_panics; [reflexivity|lia]. Defined.
