(* ===== verification/Memory.v ===== *)
(** * Interpreter memory

    [ethcore/evm/src/interpreter/memory.rs]: the trait [Memory] as implemented for
    [Vec<u8>]. Offsets and sizes are 256-bit words truncated to their low 64 bits; an
    access outside the vector is a panic ([None]). The interpreter grows the memory
    before each access, so a panic here would be a missing expansion. *)

From S2P Require Import Prelude Vm.
From stdpp Require Import base numbers option list.

Open Scope Z_scope.

Definition MAX_RETURN_WASTE_BYTES : Z := 16384.

(** Checks whether offset and size is valid memory range. *)
Definition is_valid_range (off size : Z) : bool :=
  let overflow := U64_MOD <=? off + size in
  (0 <? size) && negb overflow.

Definition mem_size (self : bytes) : Z := zlen self.

Definition read_slice (self : bytes) (init_off_u init_size_u : Z) : option bytes :=
  let off := low_u64 init_off_u in
  let size := low_u64 init_size_u in
  if negb (is_valid_range off size) then vec_slice self 0 0
  else hi ← usize_add off size; vec_slice self off hi.

Definition read (self : bytes) (offset : Z) : option Z :=
  let off := low_u64 offset in
  hi ← usize_add off 32; s ← vec_slice self off hi; u256_from_slice s.

(** The mutable view [&mut self[..]], as its start and length. *)
Definition writeable_slice (self : bytes) (offset size : Z) : option (Z * Z) :=
  let off := low_u64 offset in
  let s := low_u64 size in
  if negb (is_valid_range off s) then Some (0, 0)
  else hi ← usize_add off s; _ ← vec_slice self off hi; Some (off, s).

Definition write_slice (self : bytes) (offset : Z) (slice : bytes) : option bytes :=
  match slice with
  | [] => Some self
  | _ =>
      let off := low_u64 offset in
      _ ← usize_add off (zlen slice); vec_write self off slice
  end.

Definition write (self : bytes) (offset value : Z) : option bytes :=
  let off := low_u64 offset in
  _ ← usize_add off 32; vec_write self off (be_bytes 32 value).

Definition write_byte (self : bytes) (offset value : Z) : option bytes :=
  let off := low_u64 offset in
  let val := low_u64 value in
  vec_write self off [val mod 256].

Definition resize (self : bytes) (new_size : Z) : bytes := vec_resize self new_size 0.

Definition expand (self : bytes) (size : Z) : bytes :=
  if mem_size self <? size then resize self size else self.

Definition into_return_data (self : bytes) (offset size : Z) : option ReturnData :=
  let offset := low_u64 offset in
  let size := low_u64 size in
  if negb (is_valid_range offset size) then Some ReturnData_empty
  else
    waste ← usize_sub (mem_size self) size;
    if MAX_RETURN_WASTE_BYTES <? waste then
      if offset =? 0 then Some (mkReturnData (take (Z.to_nat size) self) offset size)
      else hi ← usize_add offset size; s ← vec_slice self offset hi; Some (mkReturnData s 0 size)
    else Some (mkReturnData self offset size).

(** ** Accesses inside the memory *)

(** The range an instruction was charged for: empty, or inside the memory. *)
Definition in_memory (self : bytes) (off size : Z) : Prop :=
  size = 0 \/ off + size <= zlen self.

(** The bytes of a range, [size] bytes from [off]. *)
Definition mem_bytes (self : bytes) (off size : Z) : bytes :=
  take (Z.to_nat size) (drop (Z.to_nat off) self).

Lemma zlen_mem_bytes self off size :
  0 <= off -> 0 <= size -> in_memory self off size -> zlen (mem_bytes self off size) = size.
Proof.
  intros Ho Hs [->|Hr]; unfold mem_bytes; [done|].
  apply zlen_take. rewrite zlen_drop by lia. lia.
Qed.

Lemma is_bytes_mem_bytes self off size : is_bytes self -> is_bytes (mem_bytes self off size).
Proof. intros. by apply Forall_take, Forall_drop. Qed.

Lemma mem_bytes_ok self off size : vec_ok self -> vec_ok (mem_bytes self off size).
Proof.
  intros [Hb Hl]. split; [by apply Forall_take, Forall_drop|].
  unfold mem_bytes, zlen in *. rewrite length_take, length_drop. lia.
Qed.

Lemma vec_ok_lt self : vec_ok self -> 0 <= zlen self < U64_MOD.
Proof. intros [_ H]. pose proof (zlen_nonneg self). range_lia. Qed.

(** Truncation to 64 bits is the identity on ranges inside a vector. *)
Lemma in_memory_range self off size :
  vec_ok self -> is_u256 off -> is_u256 size -> in_memory self off size ->
  (size = 0 /\ is_valid_range (low_u64 off) (low_u64 size) = false) \/
  (0 < size /\ off + size <= zlen self /\ low_u64 off = off /\ low_u64 size = size /\
   is_valid_range off size = true /\ usize_add off size = Some (off + size)).
Proof.
  intros Hv Ho Hs Hin. pose proof (vec_ok_lt _ Hv).
  destruct (Z.eq_dec size 0) as [->|Hne]; [left; split; [done|]|right].
  - unfold is_valid_range. by rewrite low_u64_small by range_lia.
  - destruct Hin as [|Hin]; [done|]. rewrite !low_u64_small by range_lia.
    unfold is_valid_range, usize_add.
    rewrite (proj2 (Z.ltb_lt 0 size)), (proj2 (Z.leb_gt _ _)), (proj2 (Z.ltb_lt _ U64_MOD))
      by range_lia.
    split_and!; done || range_lia.
Qed.

Lemma read_slice_in self off size :
  vec_ok self -> is_u256 off -> is_u256 size -> in_memory self off size ->
  read_slice self off size = Some (mem_bytes self off size).
Proof.
  intros Hv Ho Hs Hin. unfold read_slice.
  destruct (in_memory_range self off size Hv Ho Hs Hin)
    as [(-> & ->)|(Hpos & Hle & -> & -> & -> & ->)]; cbn [negb]; [by rewrite vec_slice_some by (done || apply zlen_nonneg)|].
  cbn [negb mbind option_bind]. rewrite vec_slice_some by range_lia.
  unfold mem_bytes. do 2 f_equal. lia.
Qed.

Lemma writeable_slice_in self off size :
  vec_ok self -> is_u256 off -> is_u256 size -> in_memory self off size ->
  exists o, writeable_slice self off size = Some (o, size) /\
            (0 < size -> o = off) /\ 0 <= o /\ o + size <= zlen self.
Proof.
  intros Hv Ho Hs Hin. unfold writeable_slice. pose proof (zlen_nonneg self).
  destruct (in_memory_range self off size Hv Ho Hs Hin)
    as [(-> & ->)|(Hpos & Hle & -> & -> & -> & ->)].
  - exists 0. split_and!; done || lia.
  - cbn [negb mbind option_bind]. rewrite vec_slice_some by range_lia.
    exists off. split_and!; done || range_lia.
Qed.

Lemma read_in self off :
  vec_ok self -> is_u256 off -> in_memory self off 32 ->
  read self off = Some (be_value (mem_bytes self off 32)).
Proof.
  intros Hv Ho [?|Hin]; [done|]. pose proof (vec_ok_lt _ Hv). unfold read.
  rewrite low_u64_small by range_lia. unfold usize_add.
  rewrite (proj2 (Z.ltb_lt _ U64_MOD)) by range_lia. cbn [mbind option_bind].
  rewrite vec_slice_some by range_lia. cbn [mbind option_bind]. unfold u256_from_slice.
  replace (off + 32 - off) with 32 by lia. fold (mem_bytes self off 32).
  rewrite zlen_mem_bytes by (done || range_lia || (right; lia)). done.
Qed.

Lemma write_slice_in self off slice :
  vec_ok self -> is_u256 off -> in_memory self off (zlen slice) ->
  exists self', write_slice self off slice = Some self' /\ zlen self' = zlen self /\
    (is_bytes slice -> vec_ok self') /\
    (slice <> [] -> vec_write self off slice = Some self').
Proof.
  intros Hv Ho Hin. pose proof (vec_ok_lt _ Hv). destruct slice as [|b bs] eqn:Hs.
  { exists self. done. }
  destruct Hin as [Hz|Hin]; [rewrite zlen_cons in Hz; pose proof (zlen_nonneg bs); lia|].
  rewrite <- Hs in *. assert (0 < zlen slice).
  { rewrite Hs, zlen_cons. pose proof (zlen_nonneg bs). lia. }
  unfold write_slice. rewrite Hs, <- Hs. rewrite low_u64_small by range_lia. unfold usize_add.
  rewrite (proj2 (Z.ltb_lt _ U64_MOD)) by range_lia. cbn [mbind option_bind].
  rewrite vec_write_some by range_lia.
  eexists; split; [done|]. split_and!; [|intros Hb|done].
  - eapply vec_write_len, vec_write_some; range_lia.
  - destruct Hv as [Hvb Hvl]. split.
    + eapply vec_write_Forall; [exact Hvb|exact Hb|apply vec_write_some; range_lia].
    + erewrite vec_write_len; [exact Hvl|apply vec_write_some; range_lia].
Qed.

Lemma write_in self off v :
  vec_ok self -> is_u256 off -> in_memory self off 32 ->
  exists self', write self off v = Some self' /\ zlen self' = zlen self /\ vec_ok self' /\
    vec_write self off (be_bytes 32 v) = Some self'.
Proof.
  intros Hv Ho Hin.
  destruct (write_slice_in self off (be_bytes 32 v)) as (self' & Hw & Hl & Hok & Hvw);
    [done|done|by rewrite zlen_be_bytes|].
  assert (Hne : be_bytes 32 v <> []) by (intros He; by apply (f_equal length) in He; rewrite length_be_bytes in He).
  specialize (Hvw Hne). exists self'. split_and!; [|done|by apply Hok, is_bytes_be_bytes|done].
  destruct Hin as [|Hin]; [done|]. pose proof (vec_ok_lt _ Hv). unfold write.
  rewrite low_u64_small by range_lia. unfold usize_add.
  by rewrite (proj2 (Z.ltb_lt _ U64_MOD)) by range_lia.
Qed.

Lemma write_byte_in self off v :
  vec_ok self -> is_u256 off -> in_memory self off 1 ->
  exists self', write_byte self off v = Some self' /\ zlen self' = zlen self /\ vec_ok self' /\
    vec_write self off [v mod 256] = Some self'.
Proof.
  intros Hv Ho Hin.
  assert (Hb : is_bytes [v mod 256]) by (repeat constructor; apply Z.mod_pos_bound; lia).
  destruct (write_slice_in self off [v mod 256]) as (self' & Hw & Hl & Hok & Hvw); [done|done|done|].
  specialize (Hvw ltac:(done)). exists self'. split_and!; [|done|by apply Hok|done].
  destruct Hin as [|Hin]; [done|]. pose proof (vec_ok_lt _ Hv). unfold write_byte.
  rewrite (low_u64_small off) by range_lia. rewrite <- Hvw. do 2 f_equal.
  unfold low_u64, U64_MOD. change (2 ^ 64) with (256 * 2 ^ 56).
  rewrite Z.rem_mul_r by lia. rewrite (Z.mul_comm 256), Z.mod_add, Z.mod_mod by lia. done.
Qed.

(** ** Expansion *)

Lemma zlen_expand self n : 0 <= n -> zlen (expand self n) = Z.max (zlen self) n.
Proof.
  intros Hn. unfold expand, mem_size, resize, vec_resize. case_bool; [|lia].
  unfold zlen in *. rewrite length_app, length_take, length_replicate. lia.
Qed.

Lemma is_bytes_expand self n : is_bytes self -> is_bytes (expand self n).
Proof.
  intros Hb. unfold expand, resize, vec_resize. case_bool; [|done].
  apply Forall_app. split; [by apply Forall_take|]. apply Forall_replicate. range_lia.
Qed.

Lemma expand_lookup self n i :
  expand self n !! i =
  if decide (i < length self)%nat then self !! i
  else if decide (Z.of_nat i < n) then Some 0 else None.
Proof.
  unfold expand, mem_size, resize, vec_resize, zlen. case_bool.
  - apply Z.ltb_lt in Hb. rewrite take_ge by lia. case_decide.
    + by rewrite lookup_app_l by lia.
    + rewrite lookup_app_r by lia. case_decide.
      * by rewrite lookup_replicate_2 by lia.
      * by rewrite lookup_ge_None_2 by (rewrite length_replicate; lia).
  - apply Z.ltb_ge in Hb. case_decide; [done|]. rewrite lookup_ge_None_2 by lia.
    case_decide; [lia|done].
Qed.

(** ** Reading after writing *)

Lemma mem_bytes_lookup self off size i :
  mem_bytes self off size !! i =
  if decide (i < Z.to_nat size)%nat then self !! (Z.to_nat off + i)%nat else None.
Proof. unfold mem_bytes. rewrite lookup_take, lookup_drop. done. Qed.

Lemma mem_bytes_written self self' off xs :
  vec_write self off xs = Some self' -> mem_bytes self' off (zlen xs) = xs.
Proof.
  intros Hw. pose proof (vec_write_inv _ _ _ _ Hw) as (Ho & _).
  apply list_eq. intros i. rewrite mem_bytes_lookup, (vec_write_lookup _ _ _ _ _ Hw).
  unfold zlen. repeat case_decide; try lia.
  - f_equal. lia.
  - by rewrite lookup_ge_None_2 by lia.
Qed.

Lemma mem_bytes_beside self self' off xs off' size' :
  vec_write self off xs = Some self' -> 0 <= off' -> 0 <= size' ->
  off' + size' <= off \/ off + zlen xs <= off' ->
  mem_bytes self' off' size' = mem_bytes self off' size'.
Proof.
  intros Hw Ho' Hs' Hdisj.
  apply list_eq. intros i. rewrite !mem_bytes_lookup, (vec_write_lookup _ _ _ _ _ Hw).
  repeat case_decide; done || lia.
Qed.

(** A 32-byte store is read back as the stored word, and a load from any disjoint
    word reads what it read before. *)
Theorem memory_write_read (self : bytes) (off v off' : Z)
    (Hself : vec_ok self) (Hoff : is_u256 off) (Hv : is_u256 v) (Hin : off + 32 <= zlen self)
    (Hoff' : is_u256 off') (Hin' : off' + 32 <= zlen self) :
  exists self', write self off v = Some self' /\ zlen self' = zlen self /\
    read self' off = Some v /\
    (off' + 32 <= off \/ off + 32 <= off' -> read self' off' = read self off').
Proof.
  destruct (write_in self off v) as (self' & -> & Hl & Hok & Hw); [done|done|by right|].
  exists self'. split_and!; [done|done| |].
  - rewrite read_in by (done || (right; lia)).
    change 32 with (zlen (be_bytes 32 v)) at 1. rewrite (mem_bytes_written _ _ _ _ Hw).
    rewrite be_value_be_bytes, Z.mod_small by range_lia. done.
  - intros Hd. rewrite !read_in by (done || (right; lia)).
    by rewrite (mem_bytes_beside _ _ _ _ _ _ Hw) by (rewrite ?zlen_be_bytes; range_lia).
Qed.

Lemma memory_write_read_witness :
  exists self', write (replicate 96 7) 32 258 = Some self' /\ read self' 32 = Some 258.
Proof.
  destruct (memory_write_read (replicate 96 7) 32 258 64) as (self' & H1 & _ & H2 & _);
    [|range_lia|range_lia|done|range_lia|done|exists self'; split; assumption].
  split; [|done]. apply Forall_replicate. range_lia.
Defined.

(** Slices written by the copying instructions are read back by [read_slice], for any
    range inside the memory, the empty range at an arbitrary offset included; bytes of
    disjoint ranges are untouched. *)
Theorem memory_slice_write_read (self slice : bytes) (off off' size' : Z)
    (Hself : vec_ok self) (Hslice : is_bytes slice) (Hoff : is_u256 off)
    (Hin : in_memory self off (zlen slice))
    (Hoff' : is_u256 off') (Hsize' : is_u256 size') (Hin' : in_memory self off' size') :
  exists self', write_slice self off slice = Some self' /\ zlen self' = zlen self /\
    read_slice self' off (zlen slice) = Some slice /\
    (off' + size' <= off \/ off + zlen slice <= off' ->
     read_slice self' off' size' = read_slice self off' size').
Proof.
  destruct (write_slice_in self off slice) as (self' & Hws & Hl & Hok & Hw); [done..|].
  specialize (Hok Hslice). exists self'.
  assert (Hin2 : in_memory self' off (zlen slice)) by (unfold in_memory; rewrite Hl; done).
  assert (Hin3 : in_memory self' off' size') by (unfold in_memory; rewrite Hl; done).
  assert (Hzl : is_u256 (zlen slice)).
  { pose proof (zlen_nonneg slice). pose proof (vec_ok_lt _ Hself).
    destruct Hin as [->|]; range_lia. }
  rewrite !read_slice_in by done. split_and!; [done|done| |].
  - destruct slice as [|b bs]; [done|]. by rewrite (mem_bytes_written _ _ _ _ (Hw ltac:(done))).
  - intros Hd. destruct slice as [|b bs]; [by injection Hws as ->|].
    by rewrite (mem_bytes_beside _ _ _ _ _ _ (Hw ltac:(done))) by range_lia.
Qed.

Lemma memory_slice_write_read_witness :
  exists self', write_slice (replicate 64 0) 3 [1; 2] = Some self' /\
    read_slice self' 3 2 = Some [1; 2].
Proof.
  destruct (memory_slice_write_read (replicate 64 0) [1; 2] 3 0 3) as (self' & H1 & _ & H2 & _);
    [|repeat constructor; done|range_lia|by right|range_lia|range_lia|by right
     |exists self'; split; assumption].
  split; [|done]. apply Forall_replicate. range_lia.
Defined.

(** ** Return data *)

(** The bytes a return buffer denotes. *)
Definition rd_bytes (r : ReturnData) : bytes :=
  take (Z.to_nat (rd_size r)) (drop (Z.to_nat (rd_offset r)) (rd_mem r)).

Lemma into_return_data_in self off size :
  vec_ok self -> is_u256 off -> is_u256 size -> in_memory self off size ->
  exists r, into_return_data self off size = Some r /\ return_data_ok r /\
            rd_bytes r = mem_bytes self off size /\
            zlen (rd_mem r) <= rd_size r + MAX_RETURN_WASTE_BYTES.
Proof.
  intros Hv Ho Hs Hin. pose proof (vec_ok_lt _ Hv). unfold into_return_data.
  destruct (in_memory_range self off size Hv Ho Hs Hin)
    as [(-> & ->)|(Hpos & Hle & -> & -> & -> & ->)]; cbn [negb].
  { exists ReturnData_empty. split_and!; [done|repeat split; [constructor|done..]|done|done]. }
  unfold usize_sub, mem_size. rewrite (proj2 (Z.leb_le size (zlen self))) by range_lia.
  cbn [mbind option_bind]. destruct Hv as [Hb Hl].
  destruct (Z.ltb_spec MAX_RETURN_WASTE_BYTES (zlen self - size)).
  - destruct (Z.eqb_spec off 0) as [->|Hne].
    + eexists; split; [done|]. unfold return_data_ok, rd_bytes; cbn.
      unfold mem_bytes.
      change (Z.to_nat 0) with O. rewrite zlen_take, !drop_0, take_take, Nat.min_id by range_lia.
      unfold vec_ok, MAX_RETURN_WASTE_BYTES. rewrite zlen_take by range_lia.
      split_and!; try done; try range_lia. by apply Forall_take.
    + cbn [mbind option_bind]. rewrite vec_slice_some by range_lia. cbn [mbind option_bind].
      replace (off + size - off) with size by lia. fold (mem_bytes self off size).
      eexists; split; [done|]. unfold return_data_ok, rd_bytes; cbn.
      assert (Hz : zlen (mem_bytes self off size) = size)
        by (apply zlen_mem_bytes; range_lia || by right).
      unfold vec_ok, MAX_RETURN_WASTE_BYTES. rewrite Hz. split_and!; try done; try range_lia.
      * by apply is_bytes_mem_bytes.
      * apply take_ge. unfold zlen in Hz. lia.
  - eexists; split; [done|]. unfold return_data_ok, rd_bytes; cbn. split_and!; try done; range_lia.
Qed.

(** Turning the memory into return data never panics on a charged range, denotes
    exactly the bytes of that range whichever way the buffer is trimmed, and keeps at most
    [MAX_RETURN_WASTE_BYTES] bytes beyond them. *)
Theorem into_return_data_spec (self : bytes) (off size : Z)
    (Hself : vec_ok self) (Hoff : is_u256 off) (Hsize : is_u256 size)
    (Hin : in_memory self off size) :
  exists r, into_return_data self off size = Some r /\ return_data_ok r /\
            Some (rd_bytes r) = read_slice self off size /\
            zlen (rd_mem r) <= rd_size r + MAX_RETURN_WASTE_BYTES.
Proof.
  destruct (into_return_data_in self off size) as (r & ? & ? & Hb & ?); [done..|].
  exists r. rewrite read_slice_in, Hb by done. done.
Qed.

Lemma into_return_data_spec_witness :
  exists r, into_return_data (replicate 64 9) 5 2 = Some r /\ rd_bytes r = [9; 9].
Proof.
  destruct (into_return_data_spec (replicate 64 9) 5 2) as (r & H1 & _ & H2 & _);
    [|range_lia|range_lia|by right|].
  - split; [|done]. apply Forall_replicate. range_lia.
  - exists r. split; [exact H1|]. injection H2. intros ->. reflexivity.
Defined.
