(* ===== verification/MemoryCache.v ===== *)
(** * Memory-bounded LRU cache

    [util/memory-cache/src/lib.rs]: [MemoryLruCache], a wrapper of the third-party
    [lru_cache::LruCache] that bounds the memory used by the values. The third-party cache
    is the class [LruCache], with its documented behaviour as [LruCacheLaws]. *)

From S2P Require Import Prelude.
From stdpp Require Import base numbers option list.

Open Scope Z_scope.

(** ** The underlying cache *)

Class LruCache (L K V : Type) : Type := {
  lru_new : Z -> L;
  lru_capacity : L -> Z;
  lru_len : L -> Z;
  lru_set_capacity : L -> Z -> L;
  lru_insert : L -> K -> V -> option V * L;
  lru_remove_lru : L -> option (K * V) * L;
  lru_get_mut : L -> K -> option V * L;
  lru_delete : L -> K -> option V * L;
  lru_clear : L -> L;
  (** the pairs in the order of [into_iter], least recently used first *)
  lru_into_iter : L -> list (K * V);
}.

(** Drops least recently used entries (the front) down to [cap] entries. *)
Definition evict {A} (cap : Z) (l : list A) : list A := drop (length l - Z.to_nat cap) l.

Section Contract.
Context {L K V : Type} `{EqDecision K} `{LruCache L K V}.

Definition lru_remove (k : K) (l : list (K * V)) : list (K * V) := filter (fun e => fst e <> k) l.

Definition lru_find (k : K) (l : list (K * V)) : option V :=
  snd <$> head (filter (fun e => fst e = k) l).

(** The contract: [entries] lists the pairs, least recently used first. A look-up moves a
    pair to the back; [insert] returns the old value of the same key and evicts from the
    front when the capacity is exceeded. *)
Class LruCacheLaws (entries : L -> list (K * V)) : Prop := {
  lru_new_entries : forall n, entries (lru_new n) = [];
  lru_new_capacity : forall n, lru_capacity (lru_new n) = n;
  lru_len_entries : forall l, lru_len l = zlen (entries l);
  lru_set_capacity_entries : forall l n, entries (lru_set_capacity l n) = evict n (entries l);
  lru_set_capacity_capacity : forall l n, lru_capacity (lru_set_capacity l n) = n;
  lru_insert_old : forall l k v, fst (lru_insert l k v) = lru_find k (entries l);
  lru_insert_entries : forall l k v,
    entries (snd (lru_insert l k v)) =
    evict (lru_capacity l) (lru_remove k (entries l) ++ [(k, v)]);
  lru_insert_capacity : forall l k v, lru_capacity (snd (lru_insert l k v)) = lru_capacity l;
  lru_remove_lru_fst : forall l, fst (lru_remove_lru l) = head (entries l);
  lru_remove_lru_entries : forall l, entries (snd (lru_remove_lru l)) = tail (entries l);
  lru_remove_lru_capacity : forall l, lru_capacity (snd (lru_remove_lru l)) = lru_capacity l;
  lru_get_mut_fst : forall l k, fst (lru_get_mut l k) = lru_find k (entries l);
  lru_get_mut_entries : forall l k,
    entries (snd (lru_get_mut l k)) =
    match lru_find k (entries l) with
    | Some v => lru_remove k (entries l) ++ [(k, v)]
    | None => entries l
    end;
  lru_get_mut_capacity : forall l k, lru_capacity (snd (lru_get_mut l k)) = lru_capacity l;
  lru_delete_fst : forall l k, fst (lru_delete l k) = lru_find k (entries l);
  lru_delete_entries : forall l k, entries (snd (lru_delete l k)) = lru_remove k (entries l);
  lru_clear_entries : forall l, entries (lru_clear l) = [];
  lru_into_iter_entries : forall l, lru_into_iter l = entries l;
}.

End Contract.

(** ** [MemoryLruCache] *)

Definition INITIAL_CAPACITY : Z := 4.

Record MemoryLruCache (L : Type) : Type := mkMemoryLruCache {
  mc_inner : L;
  mc_cur_size : Z;
  mc_max_size : Z;
}.
Arguments mkMemoryLruCache {L} _ _ _.
Arguments mc_inner {L} _.
Arguments mc_cur_size {L} _.
Arguments mc_max_size {L} _.

Section MemoryLruCache.
Context {L K V : Type} `{EqDecision K} `{LruCache L K V}.

(** [heap_size_of]: the size of a value, a function of the value. *)
Context (heap_size_of : V -> Z).

Definition memory_cache_new (max_size : Z) : MemoryLruCache L :=
  mkMemoryLruCache (lru_new INITIAL_CAPACITY) 0 max_size.

(** The loop [while self.cur_size > self.max_size]: each iteration removes an entry or
    stops, so the number of entries bounds it. *)
Fixpoint shrink (fuel : nat) (inner : L) (cur_size max_size : Z) : option (L * Z) :=
  if max_size <? cur_size then
    match fuel with
    | O => None
    | S fuel' =>
        let '(removed, inner') := lru_remove_lru inner in
        match removed with
        | Some (_, v) =>
            cur' ← usize_sub cur_size (heap_size_of v); shrink fuel' inner' cur' max_size
        | None => Some (inner', cur_size)
        end
    end
  else Some (inner, cur_size).

(** [MemoryLruCache::insert] *)
Definition memory_cache_insert (self : MemoryLruCache L) (key : K) (val : V)
    : option (MemoryLruCache L) :=
  let cap := lru_capacity (mc_inner self) in
  inner1 ←
    (if (lru_len (mc_inner self) =? cap) && (mc_cur_size self <? mc_max_size self)
     then cap2 ← usize_mul cap 2; Some (lru_set_capacity (mc_inner self) cap2)
     else Some (mc_inner self));
  cur1 ← usize_add (mc_cur_size self) (heap_size_of val);
  let '(lru, inner2) := lru_insert inner1 key val in
  cur2 ← (match lru with
          | Some old => usize_sub cur1 (heap_size_of old)
          | None => Some cur1
          end);
  '(inner3, cur3) ← shrink (S (Z.to_nat (lru_len inner2))) inner2 cur2 (mc_max_size self);
  Some (mkMemoryLruCache inner3 cur3 (mc_max_size self)).

(** [MemoryLruCache::get_mut] *)
Definition memory_cache_get_mut (self : MemoryLruCache L) (key : K)
    : option V * MemoryLruCache L :=
  let '(r, inner) := lru_get_mut (mc_inner self) key in
  (r, mkMemoryLruCache inner (mc_cur_size self) (mc_max_size self)).

(** [MemoryLruCache::current_size] *)
Definition current_size (self : MemoryLruCache L) : Z := mc_cur_size self.

(** ** Its invariant *)

Context (entries : L -> list (K * V)) {laws : LruCacheLaws entries}.
Context (Hsize : forall v, 1 <= heap_size_of v < 2 ^ 62).

Definition total_size (l : list (K * V)) : Z := foldr (fun e acc => heap_size_of (snd e) + acc) 0 l.

(** The counter never underestimates the memory in use and never exceeds the limit; keys
    are distinct; there is always a slot. *)
Definition cache_inv (self : MemoryLruCache L) : Prop :=
  total_size (entries (mc_inner self)) <= mc_cur_size self <= mc_max_size self /\
  mc_max_size self < 2 ^ 62 /\
  NoDup (fst <$> entries (mc_inner self)) /\
  0 < lru_capacity (mc_inner self) /\
  zlen (entries (mc_inner self)) <= lru_capacity (mc_inner self).

Lemma total_size_cons e l : total_size (e :: l) = heap_size_of (snd e) + total_size l.
Proof. done. Qed.

Lemma total_size_app l k : total_size (l ++ k) = total_size l + total_size k.
Proof. induction l as [|e l IH]; [done|]. cbn [app]. rewrite !total_size_cons. lia. Qed.

Lemma total_size_len l : zlen l <= total_size l.
Proof.
  induction l as [|[k v] l IH]; [done|]. rewrite zlen_cons, total_size_cons. cbn [snd].
  specialize (Hsize v). lia.
Qed.

Lemma total_size_nonneg l : 0 <= total_size l.
Proof. pose proof (total_size_len l). pose proof (zlen_nonneg l). lia. Qed.

Lemma total_size_drop n l : total_size (drop n l) <= total_size l.
Proof.
  rewrite <- (take_drop n l) at 2. rewrite total_size_app.
  pose proof (total_size_nonneg (take n l)). lia.
Qed.

(** Replacing a key gives back exactly the size of its old value. *)
Lemma total_size_remove k l : NoDup (fst <$> l) ->
  total_size (lru_remove k l) =
  total_size l - (match lru_find k l with Some v => heap_size_of v | None => 0 end).
Proof.
  unfold lru_remove, lru_find. induction l as [|[k' v] l IH]; intros Hnd; [done|].
  rewrite fmap_cons in Hnd. inversion Hnd as [|? ? Hni Hnd']; subst.
  rewrite !filter_cons. cbn [fst]. destruct (decide (k' <> k)) as [Hne|Heq].
  - rewrite decide_False by (intros ->; done). rewrite !total_size_cons, IH by done. cbn [snd]. lia.
  - apply dec_stable in Heq as ->. rewrite decide_True by done. cbn [head fmap option_fmap option_map snd].
    replace (filter (fun e => fst e <> k) l) with l; [rewrite total_size_cons; cbn [snd]; lia|].
    symmetry. apply filter_all. apply Forall_forall. intros [k2 v2] Hin Hk. cbn in Hk.
    subst. apply Hni. apply (list_elem_of_fmap_2 fst) in Hin. done.
Qed.

Lemma shrink_spec fuel inner cur max :
  total_size (entries inner) <= cur -> cur - total_size (entries inner) <= max ->
  (length (entries inner) <= fuel)%nat -> cur < U64_MOD ->
  exists inner' cur' n, shrink fuel inner cur max = Some (inner', cur') /\
    entries inner' = drop n (entries inner) /\
    total_size (entries inner') <= cur' <= max /\ lru_capacity inner' = lru_capacity inner.
Proof.
  revert inner cur. induction fuel as [|fuel IH]; intros inner cur Ht Hd Hf Hc; cbn [shrink];
    destruct (Z.ltb_spec max cur).
  - destruct (entries inner); [cbn in *; lia|cbn in Hf; lia].
  - exists inner, cur, O. split_and!; done || lia.
  - destruct (lru_remove_lru inner) as [removed inner1] eqn:Hr.
    assert (Hrem : removed = head (entries inner)) by (rewrite <- lru_remove_lru_fst, Hr; done).
    assert (Hent : entries inner1 = tail (entries inner))
      by (rewrite <- lru_remove_lru_entries, Hr; done).
    assert (Hcap : lru_capacity inner1 = lru_capacity inner)
      by (rewrite <- (lru_remove_lru_capacity inner), Hr; done).
    destruct (entries inner) as [|[k v] l] eqn:He; cbn [head tail] in *; subst removed; [cbn in *; lia|].
    rewrite total_size_cons in *. cbn [snd length] in *.
    pose proof (total_size_nonneg l). pose proof (Hsize v).
    unfold usize_sub. rewrite (proj2 (Z.leb_le _ _)) by lia. cbn [mbind option_bind].
    destruct (IH inner1 (cur - heap_size_of v)) as (inner' & cur' & n & -> & He' & Hb & Hc');
      rewrite ?Hent; try lia.
    rewrite He', Hent in Hb. exists inner', cur', (S n). rewrite He', Hent, Hc'. split_and!; done || lia.
  - exists inner, cur, O. split_and!; done || lia.
Qed.

Lemma evict_drop {A} cap (l : list A) : exists n, evict cap l = drop n l.
Proof. eexists. done. Qed.

Lemma evict_len {A} cap (l : list A) : 0 <= cap -> zlen (evict cap l) <= cap.
Proof. intros. unfold evict, zlen. rewrite length_drop. lia. Qed.

Lemma evict_small {A} cap (l : list A) : zlen l <= cap -> evict cap l = l.
Proof. intros Hl. unfold evict, zlen in *. replace (length l - Z.to_nat cap)%nat with O by lia. done. Qed.

Lemma NoDup_inserted k v (l : list (K * V)) :
  NoDup (fst <$> l) -> NoDup (fst <$> lru_remove k l ++ [(k, v)]).
Proof.
  intros Hnd. rewrite fmap_app. apply NoDup_app. split_and!.
  - by apply NoDup_fmap_filter.
  - intros x Hx Hk. apply list_elem_of_singleton in Hk. cbn in Hk. subst x.
    apply list_elem_of_fmap in Hx as (e & He & [Hne _]%list_elem_of_filter). done.
  - apply NoDup_singleton.
Qed.

Lemma NoDup_fmap_drop {A B} (f : A -> B) n (l : list A) : NoDup (f <$> l) -> NoDup (f <$> drop n l).
Proof.
  intros Hnd. rewrite <- (take_drop n l), fmap_app in Hnd. by apply NoDup_app in Hnd as (_ & _ & ?).
Qed.

(** The slots are grown before an insertion into a full cache below its limit. *)
Lemma grown_inner self : cache_inv self ->
  exists inner1,
    (if (lru_len (mc_inner self) =? lru_capacity (mc_inner self)) && (mc_cur_size self <? mc_max_size self)
     then cap2 ← usize_mul (lru_capacity (mc_inner self)) 2; Some (lru_set_capacity (mc_inner self) cap2)
     else Some (mc_inner self)) = Some inner1 /\
    entries inner1 = entries (mc_inner self) /\
    lru_capacity (mc_inner self) <= lru_capacity inner1.
Proof.
  intros ((Ht & Hc) & Hm & Hnd & Hcap & Hlen). rewrite lru_len_entries. case_bool; [|eexists; done].
  apply andb_true_iff in Hb as [Hl%Z.eqb_eq Hlt%Z.ltb_lt].
  pose proof (total_size_len (entries (mc_inner self))).
  unfold usize_mul. rewrite (proj2 (Z.ltb_lt _ _)) by range_lia. cbn [mbind option_bind].
  eexists; split; [done|].
  rewrite lru_set_capacity_entries, lru_set_capacity_capacity, evict_small by lia.
  split; [done|lia].
Qed.

(** The counter after the insertion proper, before the cache is shrunk. *)
Lemma insert_accounting self inner1 key val old inner2 :
  cache_inv self -> entries inner1 = entries (mc_inner self) ->
  lru_capacity (mc_inner self) <= lru_capacity inner1 ->
  lru_insert inner1 key val = (old, inner2) ->
  exists cur2 n,
    match old with
    | Some o => usize_sub (mc_cur_size self + heap_size_of val) (heap_size_of o)
    | None => Some (mc_cur_size self + heap_size_of val)
    end = Some cur2 /\
    total_size (entries inner2) <= cur2 < U64_MOD /\
    cur2 - total_size (entries inner2) <= mc_max_size self /\
    entries inner2 = drop n (lru_remove key (entries (mc_inner self)) ++ [(key, val)]) /\
    zlen (entries inner2) <= lru_capacity inner2 /\ lru_capacity inner2 = lru_capacity inner1.
Proof.
  intros ((Ht & Hc) & Hm & Hnd & Hcap & Hlen) He1 Hc1 Hins.
  pose proof (lru_insert_old inner1 key val) as Hold.
  pose proof (lru_insert_entries inner1 key val) as He2.
  pose proof (lru_insert_capacity inner1 key val) as Hcap2.
  rewrite Hins in Hold, He2, Hcap2. cbn [fst snd] in *. rewrite He1 in Hold, He2.
  pose proof (total_size_remove key (entries (mc_inner self)) Hnd) as Hrem.
  rewrite <- Hold in Hrem. set (rest := lru_remove key (entries (mc_inner self))) in *.
  pose proof (total_size_nonneg rest). pose proof (Hsize val).
  assert (Hlast : heap_size_of val <= total_size (entries inner2)).
  { rewrite He2. unfold evict. rewrite drop_app_le by (rewrite length_app; cbn; lia).
    rewrite total_size_app, total_size_cons. cbn.
    match goal with |- context [total_size (drop ?n rest)] =>
      pose proof (total_size_nonneg (drop n rest)) end. lia. }
  assert (Hle : total_size (entries inner2) <= total_size rest + heap_size_of val).
  { rewrite He2. etransitivity; [apply total_size_drop|].
    rewrite total_size_app, total_size_cons. cbn. lia. }
  exists (mc_cur_size self + heap_size_of val - match old with Some o => heap_size_of o | None => 0 end).
  eexists. split_and!; [|lia| | |exact He2|rewrite He2, Hcap2; apply evict_len; lia|exact Hcap2].
  - unfold usize_sub. destruct old as [o|]; [|f_equal; lia].
    by rewrite (proj2 (Z.leb_le _ _)) by lia.
  - destruct old as [o|]; [pose proof (Hsize o)|]; range_lia.
  - destruct old as [o|]; [pose proof (Hsize o)|]; lia.
Qed.

(** Insertion never panics, keeps the invariant, and what is stored afterwards is the new
    pair and the most recent of the old ones. *)
Lemma memory_cache_insert_ok self key val : cache_inv self ->
  exists self' n, memory_cache_insert self key val = Some self' /\ cache_inv self' /\
    mc_max_size self' = mc_max_size self /\
    entries (mc_inner self') =
      drop n (lru_remove key (entries (mc_inner self)) ++ [(key, val)]).
Proof.
  intros Hinv. pose proof Hinv as ((Ht & Hc) & Hm & Hnd & Hcap & Hlen).
  destruct (grown_inner self Hinv) as (inner1 & Hin1 & He1 & Hc1).
  unfold memory_cache_insert. rewrite Hin1. cbn [mbind option_bind].
  pose proof (Hsize val). unfold usize_add. rewrite (proj2 (Z.ltb_lt _ _)) by range_lia.
  cbn [mbind option_bind]. destruct (lru_insert inner1 key val) as [old inner2] eqn:Hins.
  destruct (insert_accounting self inner1 key val old inner2)
    as (cur2 & n1 & -> & Hcur2 & Hdrift & He2 & Hlen2 & Hcap2); [done..|].
  cbn [mbind option_bind].
  destruct (shrink_spec (S (Z.to_nat (lru_len inner2))) inner2 cur2 (mc_max_size self))
    as (inner3 & cur3 & n3 & -> & He3 & Hb3 & Hc3); [lia|lia| |lia|].
  { rewrite lru_len_entries. unfold zlen. lia. }
  cbn [mbind option_bind]. eexists _, (n1 + n3)%nat. split; [done|].
  unfold cache_inv. cbn [mc_inner mc_cur_size mc_max_size].
  rewrite He2 in He3. rewrite drop_drop in He3. rewrite Hc3, Hcap2. split_and!; try lia.
  - rewrite He3. by apply NoDup_fmap_drop, NoDup_inserted.
  - rewrite He3, <- drop_drop, <- He2. unfold zlen in *. rewrite length_drop. lia.
  - done.
Qed.

Lemma lru_find_Some (k : K) (v : V) l : lru_find k l = Some v -> (k, v) ∈ l.
Proof.
  unfold lru_find. destruct (filter _ l) as [|[k' v'] r] eqn:Hf; [done|]. cbn. intros [= ->].
  assert (Hin : (k', v) ∈ filter (fun e => fst e = k) l) by (rewrite Hf; left).
  apply list_elem_of_filter in Hin as [Hk Hin]. cbn in Hk. by subst.
Qed.

Lemma elem_of_remove_snoc (k : K) (v : V) e l :
  e ∈ lru_remove k l ++ [(k, v)] -> e = (k, v) \/ e ∈ l.
Proof.
  rewrite elem_of_app, list_elem_of_singleton. intros [[_ ?]%list_elem_of_filter|?]; auto.
Qed.

Lemma memory_cache_get_mut_ok self key : cache_inv self ->
  cache_inv (snd (memory_cache_get_mut self key)) /\
  fst (memory_cache_get_mut self key) = lru_find key (entries (mc_inner self)) /\
  (forall e, e ∈ entries (mc_inner (snd (memory_cache_get_mut self key))) ->
             e ∈ entries (mc_inner self)).
Proof.
  intros ((Ht & Hc) & Hm & Hnd & Hcap & Hlen). unfold memory_cache_get_mut.
  pose proof (lru_get_mut_fst (mc_inner self) key) as Hf.
  pose proof (lru_get_mut_entries (mc_inner self) key) as He.
  pose proof (lru_get_mut_capacity (mc_inner self) key) as Hcp.
  destruct (lru_get_mut (mc_inner self) key) as [r inner]. cbn in *.
  pose proof (total_size_remove key (entries (mc_inner self)) Hnd) as Hrem.
  unfold cache_inv; cbn. rewrite Hcp, He.
  destruct (lru_find key (entries (mc_inner self))) as [v|] eqn:Hfind; [|by split_and!].
  assert (Hlen2 : zlen (lru_remove key (entries (mc_inner self)) ++ [(key, v)])
                  <= zlen (entries (mc_inner self))).
  { unfold zlen. apply inj_le, submseteq_length, NoDup_submseteq.
    - apply (NoDup_fmap_1 fst), NoDup_inserted, Hnd.
    - intros e [->|?]%elem_of_remove_snoc; [by apply lru_find_Some|done]. }
  split_and!; try done.
  - rewrite total_size_app, total_size_cons, Hrem. cbn. lia.
  - by apply NoDup_inserted.
  - lia.
  - intros e [->|?]%elem_of_remove_snoc; [by apply lru_find_Some|done].
Qed.

End MemoryLruCache.

(** ** A list satisfies the contract *)
Module ListLru.

Record t (K V : Type) : Type := mk { cap : Z; pairs : list (K * V) }.
Arguments mk {K V} _ _.
Arguments cap {K V} _.
Arguments pairs {K V} _.

#[global] Instance list_lru {K V} `{EqDecision K} : LruCache (t K V) K V := {
  lru_new n := mk n [];
  lru_capacity := cap;
  lru_len l := zlen (pairs l);
  lru_set_capacity l n := mk n (evict n (pairs l));
  lru_insert l k v := (lru_find k (pairs l),
                       mk (cap l) (evict (cap l) (lru_remove k (pairs l) ++ [(k, v)])));
  lru_remove_lru l := (head (pairs l), mk (cap l) (tail (pairs l)));
  lru_get_mut l k := (lru_find k (pairs l),
                      match lru_find k (pairs l) with
                      | Some v => mk (cap l) (lru_remove k (pairs l) ++ [(k, v)])
                      | None => l
                      end);
  lru_delete l k := (lru_find k (pairs l), mk (cap l) (lru_remove k (pairs l)));
  lru_clear l := mk (cap l) [];
  lru_into_iter := pairs;
}.

#[global] Instance list_lru_laws {K V} `{EqDecision K} : LruCacheLaws (L := t K V) pairs.
Proof. split; intros; cbn; try done; by destruct (lru_find k (pairs l)). Qed.

End ListLru.

(** ** The memory bound *)

(** A sequence of insertions. *)
Definition insert_all {L K V} `{LruCache L K V} (heap_size_of : V -> Z)
    (self : MemoryLruCache L) (kvs : list (K * V)) : option (MemoryLruCache L) :=
  foldl (fun acc kv => c ← acc; memory_cache_insert heap_size_of c (fst kv) (snd kv)) (Some self) kvs.

(** Whatever is inserted, no counter over- or underflows, the loop that evicts
    terminates, and the values held never exceed the configured memory: the size of the
    stored values is at most [current_size], which is at most [max_size]. *)
Theorem memory_cache_bounded {L K V : Type} `{EqDecision K} `{LruCache L K V}
    (heap_size_of : V -> Z) (entries : L -> list (K * V)) (laws : LruCacheLaws entries)
    (Hsize : forall v, 1 <= heap_size_of v < 2 ^ 62)
    (max_size : Z) (Hmax : 0 <= max_size < 2 ^ 62) (kvs : list (K * V)) :
  exists c, insert_all heap_size_of (memory_cache_new max_size) kvs = Some c /\
    total_size heap_size_of (entries (mc_inner c)) <= current_size c <= max_size.
Proof.
  assert (Hgen : exists c, insert_all heap_size_of (memory_cache_new max_size) kvs = Some c /\
            cache_inv heap_size_of entries c /\ mc_max_size c = max_size).
  { unfold insert_all. induction kvs as [|[k v] kvs IH] using rev_ind.
    - eexists; split; [done|]. split; [|done]. unfold cache_inv, memory_cache_new; cbn.
      rewrite lru_new_entries, lru_new_capacity. cbn. unfold INITIAL_CAPACITY.
      split_and!; try lia; [constructor|done].
    - destruct IH as (c & Hc & Hinv & Hm). rewrite foldl_app, Hc. cbn.
      destruct (memory_cache_insert_ok heap_size_of entries Hsize c k v Hinv)
        as (c' & n & -> & Hinv' & Hm' & _).
      exists c'. by rewrite Hm'. }
  destruct Hgen as (c & Hc & (Hb & _) & Hm). exists c. rewrite Hm in Hb. done.
Qed.

Lemma memory_cache_bounded_witness :
  exists c, insert_all (L := ListLru.t Z Z) (fun v => 1 + v mod 8) (memory_cache_new 10)
              [(1, 5); (2, 7); (1, 3); (4, 2)] = Some c /\
    total_size (fun v => 1 + v mod 8) (ListLru.pairs (mc_inner c)) <= current_size c <= 10.
Proof.
  apply (memory_cache_bounded (L := ListLru.t Z Z) (fun v => 1 + v mod 8) ListLru.pairs _);
    [|lia].
  intros v. pose proof (Z.mod_pos_bound v 8). lia.
Defined.
