(* ===== verification/Account.v ===== *)
(** * Accounts

    [ethcore/src/state/account.rs]: a single account with its pending storage changes and
    code, and the caches in front of its storage trie. [Cell] and [RefCell] fields are
    plain fields; methods that write through them return the new account or run in the
    monad with the account as its state.

    The tries and the key-value store are third-party code: the class [HashDb] has the
    operations the sources call, on a value [D] that stands for the database. Reads return
    [None] where the caller's decoder panics and an error where the trie is incomplete. *)

From S2P Require Import Prelude MemoryCache.
From stdpp Require Import base numbers option gmap list.

Open Scope Z_scope.
Open Scope origo_scope.

(** [TrieError], as far as this code builds it. *)
Inductive trie_error : Type :=
| InvalidStateRoot (root : Z)
| IncompleteDatabase (key : Z)
| DecoderError (key : Z).

(** [BasicAccount]: what the state trie holds for an address. *)
Record BasicAccount : Type := mkBasicAccount {
  ba_nonce : Z;
  ba_balance : Z;
  ba_storage_root : Z;
  ba_code_hash : Z;
}.

(** The database: the roots present, the state trie by root and address, the storage tries by address hash,
    root and key, and the codes by address hash and code hash. *)
Class HashDb (D : Type) : Type := {
  db_contains : D -> Z -> bool;
  storage_contains : D -> Z -> Z -> bool;
  trie_account : D -> Z -> Z -> option (option BasicAccount + trie_error);
  trie_account_insert : D -> Z -> Z -> BasicAccount -> (D * Z) + trie_error;
  trie_account_remove : D -> Z -> Z -> (D * Z) + trie_error;
  trie_storage : D -> Z -> Z -> Z -> option (option Z + trie_error);
  trie_storage_insert : D -> Z -> Z -> Z -> Z -> (D * Z) + trie_error;
  trie_storage_remove : D -> Z -> Z -> Z -> (D * Z) + trie_error;
  code_get : D -> Z -> Z -> option bytes;
  code_emplace : D -> Z -> Z -> bytes -> D;
}.

(** A database read inside a method. *)
Definition fetch {S A} (r : option (A + trie_error)) : M S trie_error A :=
  do x <- expect r in lift_result x.

Inductive Filth : Type := Clean | Dirty.

Definition STORAGE_CACHE_ITEMS : Z := 8192.

Section Account.
Context {L : Type} {LC : LruCache L Z Z}.

Record Account : Type := mkAccount {
  a_balance : Z;
  a_nonce : Z;
  a_storage_root : Z;
  a_storage_cache : L;
  a_original_storage_cache : option (Z * L);
  a_storage_changes : gmap Z Z;
  a_code_hash : Z;
  a_code_size : option Z;
  a_code_cache : bytes;
  a_code_filth : Filth;
  a_address_hash : option Z;
}.

Definition with_balance (v : Z) (a : Account) : Account :=
  mkAccount v (a_nonce a) (a_storage_root a) (a_storage_cache a) (a_original_storage_cache a)
    (a_storage_changes a) (a_code_hash a) (a_code_size a) (a_code_cache a) (a_code_filth a)
    (a_address_hash a).
Definition with_nonce (v : Z) (a : Account) : Account :=
  mkAccount (a_balance a) v (a_storage_root a) (a_storage_cache a) (a_original_storage_cache a)
    (a_storage_changes a) (a_code_hash a) (a_code_size a) (a_code_cache a) (a_code_filth a)
    (a_address_hash a).
Definition with_storage_root (v : Z) (a : Account) : Account :=
  mkAccount (a_balance a) (a_nonce a) v (a_storage_cache a) (a_original_storage_cache a)
    (a_storage_changes a) (a_code_hash a) (a_code_size a) (a_code_cache a) (a_code_filth a)
    (a_address_hash a).
Definition with_storage_cache (v : L) (a : Account) : Account :=
  mkAccount (a_balance a) (a_nonce a) (a_storage_root a) v (a_original_storage_cache a)
    (a_storage_changes a) (a_code_hash a) (a_code_size a) (a_code_cache a) (a_code_filth a)
    (a_address_hash a).
Definition with_original_storage_cache (v : option (Z * L)) (a : Account) : Account :=
  mkAccount (a_balance a) (a_nonce a) (a_storage_root a) (a_storage_cache a) v
    (a_storage_changes a) (a_code_hash a) (a_code_size a) (a_code_cache a) (a_code_filth a)
    (a_address_hash a).
Definition with_storage_changes (v : gmap Z Z) (a : Account) : Account :=
  mkAccount (a_balance a) (a_nonce a) (a_storage_root a) (a_storage_cache a)
    (a_original_storage_cache a) v (a_code_hash a) (a_code_size a) (a_code_cache a)
    (a_code_filth a) (a_address_hash a).
Definition with_code (hash : Z) (size : option Z) (cache : bytes) (filth : Filth) (a : Account)
    : Account :=
  mkAccount (a_balance a) (a_nonce a) (a_storage_root a) (a_storage_cache a)
    (a_original_storage_cache a) (a_storage_changes a) hash size cache filth (a_address_hash a).
Definition with_address_hash (v : option Z) (a : Account) : Account :=
  mkAccount (a_balance a) (a_nonce a) (a_storage_root a) (a_storage_cache a)
    (a_original_storage_cache a) (a_storage_changes a) (a_code_hash a) (a_code_size a)
    (a_code_cache a) (a_code_filth a) v.

(** ** Constructors *)

Definition empty_storage_cache : L := lru_new STORAGE_CACHE_ITEMS.

(** [impl From<BasicAccount> for Account]; [from_rlp] decodes and converts. *)
Definition Account_from (basic : BasicAccount) : Account :=
  mkAccount (ba_balance basic) (ba_nonce basic) (ba_storage_root basic) empty_storage_cache None ∅
    (ba_code_hash basic) None [] Clean None.

Definition new_basic (balance nonce : Z) : Account :=
  mkAccount balance nonce KECCAK_NULL_RLP empty_storage_cache None ∅ KECCAK_EMPTY (Some 0) [] Clean
    None.

Definition new_contract (balance nonce original_storage_root : Z) : Account :=
  mkAccount balance nonce KECCAK_NULL_RLP empty_storage_cache
    (if original_storage_root =? KECCAK_NULL_RLP then None
     else Some (original_storage_root, empty_storage_cache))
    ∅ KECCAK_EMPTY None [] Clean None.

(** ** Code *)

Section Hash.
Context {K : Keccak}.

Definition init_code (code : bytes) (self : Account) : Account :=
  with_code (keccak code) (Some (zlen code)) code Dirty self.

Definition reset_code (code : bytes) (self : Account) : Account := init_code code self.

Definition reset_code_and_storage (code : bytes) (storage : gmap Z Z) (self : Account) : Account :=
  let a1 := with_code (keccak code) (Some (zlen code)) code Dirty self in
  let a2 := with_storage_changes storage (with_storage_cache empty_storage_cache a1) in
  let a3 := if negb (a_storage_root a2 =? KECCAK_NULL_RLP)
            then with_original_storage_cache (Some (a_storage_root a2, empty_storage_cache)) a2
            else a2 in
  with_storage_root KECCAK_NULL_RLP a3.

(** [keccak(address)], cached. *)
Definition address_hash (address : Z) (self : Account) : Z * Account :=
  match a_address_hash self with
  | Some h => (h, self)
  | None => let h := keccak (be_bytes 20 address) in (h, with_address_hash (Some h) self)
  end.

End Hash.

Definition is_empty_vec (l : bytes) : bool := match l with [] => true | _ => false end.

(** [code()] *)
Definition code (self : Account) : option bytes :=
  if negb (a_code_hash self =? KECCAK_EMPTY) && is_empty_vec (a_code_cache self) then None
  else Some (a_code_cache self).

Definition is_cached (self : Account) : bool :=
  negb (is_empty_vec (a_code_cache self)) ||
  (is_empty_vec (a_code_cache self) && (a_code_hash self =? KECCAK_EMPTY)).

Definition cache_given_code (code : bytes) (self : Account) : Account :=
  with_code (a_code_hash self) (Some (zlen code)) code (a_code_filth self) self.

Section Db.
Context {D : Type} {DB : HashDb D}.

(** [cache_code]: [db] is the account database of address hash [ah]. *)
Definition cache_code (db : D) (ah : Z) (self : Account) : option bytes * Account :=
  if is_cached self then (Some (a_code_cache self), self)
  else match code_get db ah (a_code_hash self) with
       | Some x => (Some x, with_code (a_code_hash self) (Some (zlen x)) x (a_code_filth self) self)
       | None => (None, self)
       end.

Definition cache_code_size (db : D) (ah : Z) (self : Account) : bool * Account :=
  let set_size n := with_code (a_code_hash self) (Some n) (a_code_cache self) (a_code_filth self) self in
  match a_code_size self with
  | Some _ => (true, self)
  | None =>
      if negb (a_code_hash self =? KECCAK_EMPTY) then
        match code_get db ah (a_code_hash self) with
        | Some x => (true, set_size (zlen x))
        | None => (false, self)
        end
      else (true, set_size 0)
  end.

(** ** Storage *)

Definition set_storage (key value : Z) (self : Account) : Account :=
  with_storage_changes (<[key := value]> (a_storage_changes self)) self.

Definition cached_moved_original_storage_at (key : Z) (self : Account) : option Z * Account :=
  if a_storage_root self =? KECCAK_NULL_RLP then (Some 0, self)
  else let '(r, c) := lru_get_mut (a_storage_cache self) key in (r, with_storage_cache c self).

Definition cached_storage_at (key : Z) (self : Account) : option Z * Account :=
  match a_storage_changes self !! key with
  | Some value => (Some value, self)
  | None => cached_moved_original_storage_at key self
  end.

Definition cached_original_storage_at (key : Z) (self : Account) : option Z * Account :=
  match a_original_storage_cache self with
  | Some (root, cache) =>
      let '(r, c) := lru_get_mut cache key in (r, with_original_storage_cache (Some (root, c)) self)
  | None => cached_moved_original_storage_at key self
  end.

(** Reads the storage trie at [storage_root] and caches the value. *)
Definition get_and_cache_storage {S} (storage_root : Z) (storage_cache : L) (db : D) (ah key : Z)
    : M S trie_error (Z * L) :=
  do item <- fetch (trie_storage db ah storage_root key) in
  let value := default 0 item in
  ret (value, snd (lru_insert storage_cache key value)).

Definition storage_at (db : D) (ah key : Z) : M Account trie_error Z :=
  do self <- get in
  let '(r, self1) := cached_storage_at key self in
  modify (fun _ => self1) ;;;
  match r with
  | Some value => ret value
  | None =>
      do '(value, cache) <- get_and_cache_storage (a_storage_root self1) (a_storage_cache self1) db ah key in
      modify (with_storage_cache cache) ;;;
      ret value
  end.

Definition original_storage_at (db : D) (ah key : Z) : M Account trie_error Z :=
  do self <- get in
  let '(r, self1) := cached_original_storage_at key self in
  modify (fun _ => self1) ;;;
  match r with
  | Some value => ret value
  | None =>
      match a_original_storage_cache self1 with
      | Some (root, cache0) =>
          do '(value, cache) <- get_and_cache_storage root cache0 db ah key in
          modify (with_original_storage_cache (Some (root, cache))) ;;;
          ret value
      | None =>
          do '(value, cache) <- get_and_cache_storage (a_storage_root self1) (a_storage_cache self1) db ah key in
          modify (with_storage_cache cache) ;;;
          ret value
      end
  end.

(** The loop of [commit_storage] over the drained changes. *)
Fixpoint commit_changes (ah : Z) (kvs : list (Z * Z)) : M (Account * D) trie_error unit :=
  match kvs with
  | [] => ret tt
  | (k, v) :: kvs' =>
      do '(self, db) <- get in
      do '(db', root') <- lift_result
        (if v =? 0 then trie_storage_remove db ah (a_storage_root self) k
         else trie_storage_insert db ah (a_storage_root self) k v) in
      modify (fun _ => (with_storage_cache (snd (lru_insert (a_storage_cache self) k v))
                          (with_storage_root root' self), db')) ;;;
      commit_changes ah kvs'
  end.

(** [commit_storage]: the trie opens an existing root or fails. *)
Definition commit_storage (ah : Z) : M (Account * D) trie_error unit :=
  do '(self, db) <- get in
  (if storage_contains db ah (a_storage_root self) then ret tt
   else throw (InvalidStateRoot (a_storage_root self))) ;;;
  modify (fun '(a, d) => (with_storage_changes ∅ a, d)) ;;;
  commit_changes ah (map_to_list (a_storage_changes self)) ;;;
  modify (fun '(a, d) => (with_original_storage_cache None a, d)).

Definition commit_code (ah : Z) : M (Account * D) trie_error unit :=
  modify (fun '(self, db) =>
    match a_code_filth self, is_empty_vec (a_code_cache self) with
    | Dirty, true => (with_code (a_code_hash self) (Some 0) (a_code_cache self) Clean self, db)
    | Dirty, false =>
        (with_code (a_code_hash self) (Some (zlen (a_code_cache self))) (a_code_cache self) Clean self,
         code_emplace db ah (a_code_hash self) (a_code_cache self))
    | Clean, _ => (self, db)
    end).

End Db.

(** ** Queries *)

Definition storage_is_clean (self : Account) : bool := bool_decide (a_storage_changes self = ∅).

Definition is_null (self : Account) : bool :=
  (a_balance self =? 0) && (a_nonce self =? 0) && (a_code_hash self =? KECCAK_EMPTY).

(** [is_empty]: asserts that the storage is clean. *)
Definition is_empty {S Er} (self : Account) : M S Er bool :=
  assert_ (storage_is_clean self) ;;;
  ret (is_null self && (a_storage_root self =? KECCAK_NULL_RLP)).

Definition is_basic (self : Account) : bool := a_code_hash self =? KECCAK_EMPTY.

Definition storage_root (self : Account) : option Z :=
  if storage_is_clean self then Some (a_storage_root self) else None.

Definition original_storage_root (self : Account) : Z :=
  match a_original_storage_cache self with
  | Some (root, _) => root
  | None => a_storage_root self
  end.

Definition is_base_storage_root_unchanged (self : Account) : bool :=
  match a_original_storage_cache self with None => true | Some _ => false end.

Definition base_storage_root (self : Account) : Z := a_storage_root self.

(** ** Updates *)

(** [U256::saturating_add] *)
Definition u256_saturating_add (a b : Z) : Z := Z.min (a + b) (U256_MOD - 1).

Definition inc_nonce (self : Account) : Account := with_nonce (u256_saturating_add (a_nonce self) 1) self.

Definition add_balance (x : Z) (self : Account) : Account :=
  with_balance (u256_saturating_add (a_balance self) x) self.

(** Asserts that the balance covers [x]. *)
Definition sub_balance (x : Z) (self : Account) : option Account :=
  if x <=? a_balance self then Some (with_balance (a_balance self - x) self) else None.

(** What [rlp] encodes. *)
Definition rlp (self : Account) : BasicAccount :=
  mkBasicAccount (a_nonce self) (a_balance self) (a_storage_root self) (a_code_hash self).

(** ** Copies *)

Definition clone_basic (self : Account) : Account :=
  mkAccount (a_balance self) (a_nonce self) (a_storage_root self) empty_storage_cache
    ((fun '(r, _) => (r, empty_storage_cache)) <$> a_original_storage_cache self) ∅
    (a_code_hash self) (a_code_size self) (a_code_cache self) (a_code_filth self)
    (a_address_hash self).

Definition clone_dirty (self : Account) : Account :=
  with_storage_changes (a_storage_changes self) (clone_basic self).

Definition clone_all (self : Account) : Account :=
  with_original_storage_cache (a_original_storage_cache self)
    (with_storage_cache (a_storage_cache self) (clone_dirty self)).

(** Replaces the data of [self] by that of [other], keeping cached storage of the same
    storage trie. *)
Definition overwrite_with (other self : Account) : Account :=
  mkAccount (a_balance other) (a_nonce other) (a_storage_root other)
    (if a_storage_root self =? a_storage_root other
     then foldl (fun c '(k, v) => snd (lru_insert c k v)) (a_storage_cache self)
            (lru_into_iter (a_storage_cache other))
     else a_storage_cache other)
    (a_original_storage_cache other) (a_storage_changes other) (a_code_hash other)
    (a_code_size other) (a_code_cache other) (a_code_filth other) (a_address_hash other).

End Account.

Arguments Account : clear implicits.
