(* ===== verification/State.v ===== *)
(** * The state of all accounts

    [ethcore/src/state/mod.rs]: the local cache of accounts in front of the state trie, the
    stack of checkpoints with their revert and discard operations, the queries and the
    updates of accounts, commit and clean-up. The trait [Backend] of
    [ethcore/src/state/backend.rs] is a class.

    The checkpoints are listed latest first. [RefMut] accessors are split in two: the
    method that makes the account present ([require]) and the update through the reference
    ([update_account]). Arguments of [trace!] are not evaluated. *)

From S2P Require Import Prelude MemoryCache Account.
From stdpp Require Import base numbers option gmap list.

Open Scope Z_scope.
Open Scope origo_scope.

(** [AccountState] *)
Inductive AccountState : Type := CleanFresh | CleanCached | EntryDirty | Committed.

#[export] Instance AccountState_eq_dec : EqDecision AccountState.
Proof. solve_decision. Defined.

Inductive RequireCache : Type := RequireNone | RequireCodeSize | RequireCode.

#[export] Instance RequireCache_eq_dec : EqDecision RequireCache.
Proof. solve_decision. Defined.

(** [CleanupMode]; the set behind the mutable reference is threaded through. *)
Inductive CleanupMode : Type :=
| ForceCreate
| NoEmpty
| TrackTouched (touched : gset Z).

(** [Backend]: [get_cached] hands the cached entry to a closure that may write to it, which
    is [set_cached]. [cache_code] may panic. *)
Class Backend (B D A : Type) : Type := {
  as_hash_db : B -> D;
  set_hash_db : B -> D -> B;
  add_to_account_cache : B -> Z -> option A -> bool -> B;
  backend_cache_code : B -> Z -> bytes -> option B;
  get_cached_account : B -> Z -> option (option A) * B;
  get_cached : B -> Z -> option (option A) * B;
  set_cached : B -> Z -> A -> B;
  get_cached_code : B -> Z -> option bytes * B;
  note_non_null_account : B -> Z -> B;
  is_known_null : B -> Z -> bool;
}.

(** [Basic]: a database without any cache. *)
Record Basic (H : Type) : Type := mkBasic { basic_db : H }.
Arguments mkBasic {H} _.
Arguments basic_db {H} _.

#[export] Instance Basic_Backend {H A : Type} : Backend (Basic H) H A := {
  as_hash_db b := basic_db b;
  set_hash_db _ d := mkBasic d;
  add_to_account_cache b _ _ _ := b;
  backend_cache_code b _ _ := Some b;
  get_cached_account b _ := (None, b);
  get_cached b _ := (None, b);
  set_cached b _ _ := b;
  get_cached_code b _ := (None, b);
  note_non_null_account b _ := b;
  is_known_null _ _ := false;
}.

(** [HashMap::entry(k).or_insert(v)] *)
Definition or_insert {V} (k : Z) (v : V) (m : gmap Z V) : gmap Z V :=
  match m !! k with Some _ => m | None => <[k := v]> m end.

Section State.
Context {L : Type} {LC : LruCache L Z Z} {K : Keccak}.
Context {D B : Type} {DB : HashDb D} {BE : Backend B D (Account L)}.

(** ** Entries *)

Record AccountEntry : Type := mkAccountEntry {
  e_account : option (Account L);
  e_old_balance : option Z;
  e_state : AccountState;
}.

Definition is_dirty (e : AccountEntry) : bool := bool_decide (e_state e = EntryDirty).

Definition exists_and_is_null (e : AccountEntry) : bool :=
  match e_account e with Some a => is_null a | None => false end.

Definition entry_clone_dirty (e : AccountEntry) : AccountEntry :=
  mkAccountEntry (clone_dirty <$> e_account e) (e_old_balance e) (e_state e).

Definition clone_if_dirty (e : AccountEntry) : option AccountEntry :=
  if is_dirty e then Some (entry_clone_dirty e) else None.

Definition new_dirty (account : option (Account L)) : AccountEntry :=
  mkAccountEntry account (a_balance <$> account) EntryDirty.

Definition new_clean (account : option (Account L)) : AccountEntry :=
  mkAccountEntry account (a_balance <$> account) CleanFresh.

Definition new_clean_cached (account : option (Account L)) : AccountEntry :=
  mkAccountEntry account (a_balance <$> account) CleanCached.

(** [AccountEntry::overwrite_with] leaves [old_balance] as it is. *)
Definition entry_overwrite_with (other self : AccountEntry) : AccountEntry :=
  mkAccountEntry
    (match e_account other with
     | Some acc => match e_account self with
                   | Some ours => Some (overwrite_with acc ours)
                   | None => Some acc
                   end
     | None => None
     end) (e_old_balance self) (e_state other).

Definition set_account (acc : Account L) (e : AccountEntry) : AccountEntry :=
  mkAccountEntry (Some acc) (e_old_balance e) (e_state e).

(** ** The state *)

Record State : Type := mkState {
  st_db : B;
  st_root : Z;
  st_cache : gmap Z AccountEntry;
  st_checkpoints : list (gmap Z (option AccountEntry));
  st_account_start_nonce : Z;
}.

Definition set_db (v : B) (s : State) : State :=
  mkState v (st_root s) (st_cache s) (st_checkpoints s) (st_account_start_nonce s).
Definition set_root (v : Z) (s : State) : State :=
  mkState (st_db s) v (st_cache s) (st_checkpoints s) (st_account_start_nonce s).
Definition set_st_cache (v : gmap Z AccountEntry) (s : State) : State :=
  mkState (st_db s) (st_root s) v (st_checkpoints s) (st_account_start_nonce s).
Definition set_checkpoints (v : list (gmap Z (option AccountEntry))) (s : State) : State :=
  mkState (st_db s) (st_root s) (st_cache s) v (st_account_start_nonce s).

(** [State::from_existing] *)
Definition from_existing (db : B) (root account_start_nonce : Z) : State + trie_error :=
  if db_contains (as_hash_db db) root
  then inl (mkState db root ∅ [] account_start_nonce)
  else inr (InvalidStateRoot root).

(** ** Checkpoints *)

Definition checkpoint (s : State) : Z * State :=
  (zlen (st_checkpoints s), set_checkpoints (∅ :: st_checkpoints s) s).

Definition discard_checkpoint (s : State) : State :=
  match st_checkpoints s with
  | [] => s
  | [_] => set_checkpoints [] s
  | checkpoint :: prev :: rest =>
      set_checkpoints
        ((if bool_decide (prev = ∅) then checkpoint
          else map_fold or_insert prev checkpoint) :: rest) s
  end.

(** One iteration of the loop of [revert_to_checkpoint]. *)
Definition revert_entry (k : Z) (v : option AccountEntry) (cache : gmap Z AccountEntry)
    : gmap Z AccountEntry :=
  match v with
  | Some v =>
      match cache !! k with
      | Some e => <[k := entry_overwrite_with v e]> cache
      | None => <[k := v]> cache
      end
  | None =>
      match cache !! k with
      | Some e => if is_dirty e then delete k cache else cache
      | None => cache
      end
  end.

Definition revert_to_checkpoint (s : State) : State :=
  match st_checkpoints s with
  | [] => s
  | checkpoint :: rest =>
      set_checkpoints rest (set_st_cache (map_fold revert_entry (st_cache s) checkpoint) s)
  end.

(** Records [v] in the latest checkpoint unless the address is recorded already. *)
Definition record (address : Z) (v : option AccountEntry) (s : State) : State :=
  match st_checkpoints s with
  | [] => s
  | checkpoint :: rest => set_checkpoints (or_insert address v checkpoint :: rest) s
  end.

Definition insert_cache (address : Z) (account : AccountEntry) (s : State) : State :=
  let old_value := st_cache s !! address in
  let s1 := set_st_cache (<[address := account]> (st_cache s)) s in
  if is_dirty account then record address old_value s1 else s1.

Definition note_cache (address : Z) (s : State) : State :=
  record address (entry_clone_dirty <$> (st_cache s !! address)) s.

(** ** Loading accounts *)

Definition geth : M State trie_error D := gets (fun s => as_hash_db (st_db s)).

Definition put_entry (a : Z) (e : AccountEntry) : M State trie_error unit :=
  modify (fun s => set_st_cache (<[a := e]> (st_cache s)) s).

(** A [Backend] method that also changes the backend. *)
Definition on_backend {A} (f : B -> A * B) : M State trie_error A :=
  do s <- get in
  let '(r, b) := f (st_db s) in
  modify (set_db b) ;;;
  ret r.

Definition known_null (a : Z) : M State trie_error bool := gets (fun s => is_known_null (st_db s) a).

(** [update_account_cache], with the account database of address hash [ah]. *)
Definition update_account_cache (require : RequireCache) (ah : Z) (account : Account L)
    : M State trie_error (bool * Account L) :=
  match require with
  | RequireNone => ret (true, account)
  | _ =>
      if is_cached account then ret (true, account)
      else
        let hash := a_code_hash account in
        do cached <- on_backend (fun b => get_cached_code b hash) in
        match cached with
        | Some code => ret (true, cache_given_code code account)
        | None =>
            do db <- geth in
            match require with
            | RequireNone => ret (true, account)
            | RequireCode =>
                let '(r, account') := cache_code db ah account in
                match r with
                | Some code =>
                    do s <- get in
                    do b <- expect (backend_cache_code (st_db s) hash code) in
                    modify (set_db b) ;;;
                    ret (true, account')
                | None => ret (false, account')
                end
            | RequireCodeSize => ret (cache_code_size db ah account)
            end
        end
  end.

(** The calls of [address_hash] and [update_account_cache] on an account at [a]. *)
Definition refresh (require : RequireCache) (a : Z) (account : Account L)
    : M State trie_error (bool * Account L) :=
  let '(ah, account1) := address_hash a account in
  update_account_cache require ah account1.

(** Opens the state trie and reads an account: [trie.readonly(db, root)?.get_with(a, ..)?]. *)
Definition load_account (a : Z) : M State trie_error (option (Account L)) :=
  do s <- get in
  (if db_contains (as_hash_db (st_db s)) (st_root s) then ret tt
   else throw (InvalidStateRoot (st_root s))) ;;;
  do basic <- fetch (trie_account (as_hash_db (st_db s)) (st_root s) a) in
  ret (Account_from <$> basic).

Definition ensure_cached {U} (a : Z) (require : RequireCache) (check_null : bool)
    (f : option (Account L) -> U) : M State trie_error U :=
  do s <- get in
  match st_cache s !! a with
  | Some maybe_acc =>
      match e_account maybe_acc with
      | Some account =>
          do '(ok, account') <- refresh require a account in
          put_entry a (set_account account' maybe_acc) ;;;
          if ok : bool then ret (f (Some account')) else throw (IncompleteDatabase a)
      | None => ret (f None)
      end
  | None =>
      do result <- on_backend (fun b => get_cached b a) in
      match result with
      | Some (Some account) =>
          do '(ok, account') <- refresh require a account in
          modify (fun s => set_db (set_cached (st_db s) a account') s) ;;;
          if ok : bool then ret (f (Some account')) else throw (IncompleteDatabase a)
      | Some None => ret (f None)
      | None =>
          do null <- known_null a in
          if check_null && null then ret (f None)
          else
            do maybe_acc <- load_account a in
            match maybe_acc with
            | Some account =>
                do '(ok, account') <- refresh require a account in
                if ok : bool then
                  modify (insert_cache a (new_clean (Some account'))) ;;;
                  ret (f (Some account'))
                else throw (IncompleteDatabase a)
            | None =>
                modify (insert_cache a (new_clean None)) ;;;
                ret (f None)
            end
      end
  end.

(** The part of [require_or_from] that brings the address into the local cache. *)
Definition load_entry (a : Z) : M State trie_error unit :=
  do s <- get in
  match st_cache s !! a with
  | Some _ => ret tt
  | None =>
      do cached <- on_backend (fun b => get_cached_account b a) in
      match cached with
      | Some acc => modify (insert_cache a (new_clean_cached acc))
      | None =>
          do null <- known_null a in
          if negb null then
            do acc <- load_account a in
            modify (insert_cache a (new_clean acc))
          else modify (insert_cache a (new_clean None))
      end
  end.

Definition require_or_from (a : Z) (require_code : bool) (default_account : Account L)
    (not_default : Account L -> Account L) : M State trie_error unit :=
  load_entry a ;;;
  modify (note_cache a) ;;;
  do s <- get in
  do entry <- expect (st_cache s !! a) in
  let account := match e_account entry with
                 | Some acc => not_default acc
                 | None => default_account
                 end in
  put_entry a (mkAccountEntry (Some account) (e_old_balance entry) EntryDirty) ;;;
  if require_code then
    do '(ok, account') <- refresh RequireCode a account in
    put_entry a (mkAccountEntry (Some account') (e_old_balance entry) EntryDirty) ;;;
    (if ok : bool then ret tt else throw (IncompleteDatabase a))
  else ret tt.

Definition require (a : Z) (require_code : bool) : M State trie_error unit :=
  do nonce <- gets st_account_start_nonce in
  require_or_from a require_code (new_basic 0 nonce) (fun x => x).

(** A write through the reference that [require] returns; [None] is a panic. *)
Definition update_account (a : Z) (f : Account L -> option (Account L)) : M State trie_error unit :=
  do s <- get in
  do entry <- expect (st_cache s !! a) in
  do acc <- expect (e_account entry) in
  do acc' <- expect (f acc) in
  put_entry a (set_account acc' entry).

(** ** Queries *)

Definition exists_ (a : Z) : M State trie_error bool :=
  ensure_cached a RequireNone false (fun a => match a with Some _ => true | None => false end).

Definition exists_and_not_null (a : Z) : M State trie_error bool :=
  ensure_cached a RequireNone false
    (fun a => match a with Some a => negb (is_null a) | None => false end).

Definition exists_and_has_code_or_nonce (a : Z) : M State trie_error bool :=
  do nonce <- gets st_account_start_nonce in
  ensure_cached a RequireCodeSize false
    (fun a => match a with
              | Some a => negb (a_code_hash a =? KECCAK_EMPTY) || negb (a_nonce a =? nonce)
              | None => false
              end).

Definition balance (a : Z) : M State trie_error Z :=
  ensure_cached a RequireNone true (fun a => match a with Some a => a_balance a | None => 0 end).

Definition nonce (a : Z) : M State trie_error Z :=
  do start <- gets st_account_start_nonce in
  ensure_cached a RequireNone true (fun a => match a with Some a => a_nonce a | None => start end).

Definition state_is_base_storage_root_unchanged (a : Z) : M State trie_error bool :=
  do r <- ensure_cached a RequireNone true (fun a => is_base_storage_root_unchanged <$> a) in
  ret (default true r).

Definition state_storage_root (a : Z) : M State trie_error (option Z) :=
  ensure_cached a RequireNone true (fun a => match a with Some a => storage_root a | None => None end).

Definition state_original_storage_root (a : Z) : M State trie_error Z :=
  do r <- ensure_cached a RequireNone true (fun a => original_storage_root <$> a) in
  ret (default KECCAK_NULL_RLP r).

Definition state_code (a : Z) : M State trie_error (option bytes) :=
  ensure_cached a RequireCode true (fun a => match a with Some a => code a | None => None end).

Definition state_code_hash (a : Z) : M State trie_error (option Z) :=
  ensure_cached a RequireNone true (fun a => a_code_hash <$> a).

Definition state_code_size (a : Z) : M State trie_error (option Z) :=
  ensure_cached a RequireCodeSize true (fun a => match a with Some a => a_code_size a | None => None end).

(** ** Storage *)

(** Runs an account method on an account at [a], with its account database. *)
Definition on_account {A} (a : Z) (account : Account L) (f : D -> Z -> M (Account L) trie_error A)
    : M State trie_error ((A + trie_error) * Account L) :=
  do db <- geth in
  let '(ah, account1) := address_hash a account in
  match f db ah account1 with
  | Ret v account2 => ret (inl v, account2)
  | Throw e account2 => ret (inr e, account2)
  | Panic => panic
  end.

(** The part of [storage_at_inner] that works on the global cache, on a local account that
    has not cached the key, or on the database. *)
Definition storage_elsewhere (address key : Z) (f_at : D -> Z -> Z -> M (Account L) trie_error Z)
    (local_account : option (AccountEntry * Account L)) : M State trie_error Z :=
  do cached <- on_backend (fun b => get_cached b address) in
  match cached with
  | Some None => ret 0
  | Some (Some a) =>
      do '(r, a') <- on_account address a (fun db ah => f_at db ah key) in
      modify (fun s => set_db (set_cached (st_db s) address a') s) ;;;
      lift_result r
  | None =>
      match local_account with
      | Some (entry, account) =>
          do '(r, account') <- on_account address account (fun db ah => f_at db ah key) in
          put_entry address (set_account account' entry) ;;;
          lift_result r
      | None =>
          do null <- known_null address in
          if null then ret 0
          else
            do s <- get in
            assert_ (db_contains (as_hash_db (st_db s)) (st_root s)) ;;;
            do maybe_acc <- load_account address in
            match maybe_acc with
            | Some a =>
                do '(r, a') <- on_account address a (fun db ah => f_at db ah key) in
                modify (insert_cache address (new_clean (Some a'))) ;;;
                lift_result r
            | None =>
                modify (insert_cache address (new_clean None)) ;;;
                ret 0
            end
      end
  end.

Definition storage_at_inner (address key : Z)
    (f_cached_at : Z -> Account L -> option Z * Account L)
    (f_at : D -> Z -> Z -> M (Account L) trie_error Z) : M State trie_error Z :=
  do s <- get in
  match st_cache s !! address with
  | Some maybe_acc =>
      match e_account maybe_acc with
      | Some account =>
          let '(r, account') := f_cached_at key account in
          put_entry address (set_account account' maybe_acc) ;;;
          match r with
          | Some value => ret value
          | None => storage_elsewhere address key f_at (Some (maybe_acc, account'))
          end
      | None => ret 0
      end
  | None => storage_elsewhere address key f_at None
  end.

Definition state_storage_at (address key : Z) : M State trie_error Z :=
  storage_at_inner address key cached_storage_at storage_at.

Definition state_original_storage_at (address key : Z) : M State trie_error Z :=
  storage_at_inner address key cached_original_storage_at original_storage_at.

(** [ReturnKind], or the value of an early return. *)
Inductive ReturnKind : Type := OriginalAt | SameAsNext | Found (value : Z).

(** An account recorded in the checkpoint at position [j]; the look-up refreshes its cache. *)
Definition recorded_kind (address key : Z) (j : nat) (entry : AccountEntry) : M State trie_error ReturnKind :=
  match e_account entry with
  | Some account =>
      let '(r, account') := cached_storage_at key account in
      modify (fun s => set_checkpoints
        (alter (<[address := Some (set_account account' entry)]>) j (st_checkpoints s)) s) ;;;
      match r with
      | Some value => ret (Found value)
      | None =>
          do root <- state_original_storage_root address in
          if base_storage_root account' =? root then ret OriginalAt else ret (Found 0)
      end
  | None => ret (Found 0)
  end.

(** The loop of [checkpoint_storage_at] over the checkpoints [cps], from the oldest wanted one
    at position [j] to the latest at position 0. *)
Fixpoint search_checkpoints (address key : Z) (cps : list (gmap Z (option AccountEntry))) (j : nat)
    : M State trie_error ReturnKind :=
  do c <- expect (cps !! j) in
  match c !! address with
  | Some (Some entry) => recorded_kind address key j entry
  | Some None => ret OriginalAt
  | None => match j with
            | O => ret SameAsNext
            | S j' => search_checkpoints address key cps j'
            end
  end.

Definition checkpoint_storage_at (start_checkpoint_index address key : Z)
    : M State trie_error (option Z) :=
  do s <- get in
  let len := zlen (st_checkpoints s) in
  if len <=? start_checkpoint_index then ret None
  else
    do kind <- search_checkpoints address key (st_checkpoints s)
      (Z.to_nat (len - 1 - start_checkpoint_index)) in
    match kind with
    | SameAsNext => do v <- state_storage_at address key in ret (Some v)
    | OriginalAt => do v <- state_original_storage_at address key in ret (Some v)
    | Found v => ret (Some v)
    end.

(** ** Updates *)

Definition touch (a : Z) : M State trie_error unit := require a false.

(** The cleanup mode is returned with the set it now refers to. *)
Definition state_add_balance (a incr : Z) (cleanup_mode : CleanupMode)
    : M State trie_error CleanupMode :=
  let is_value_transfer := negb (incr =? 0) in
  do create <- (if is_value_transfer then ret true
                else match cleanup_mode with
                     | ForceCreate => do e <- exists_ a in ret (negb e)
                     | _ => ret false
                     end) in
  if create : bool then
    require a false ;;;
    update_account a (fun x => Some (add_balance incr x)) ;;;
    ret cleanup_mode
  else
    match cleanup_mode with
    | TrackTouched set =>
        do e <- exists_ a in
        if e : bool then touch a ;;; ret (TrackTouched ({[a]} ∪ set))
        else ret cleanup_mode
    | _ => ret cleanup_mode
    end.

Definition state_sub_balance (a decr : Z) (cleanup_mode : CleanupMode)
    : M State trie_error CleanupMode :=
  do needed <- (if negb (decr =? 0) then ret true
                else do e <- exists_ a in ret (negb e)) in
  (if needed : bool then require a false ;;; update_account a (sub_balance decr) else ret tt) ;;;
  match cleanup_mode with
  | TrackTouched set => ret (TrackTouched ({[a]} ∪ set))
  | _ => ret cleanup_mode
  end.

Definition transfer_balance_from_public_to_private (from to by_ : Z) (cleanup_mode : CleanupMode)
    : M State trie_error CleanupMode := state_sub_balance from by_ cleanup_mode.

Definition transfer_balance_from_private_to_public (from to by_ : Z) (cleanup_mode : CleanupMode)
    : M State trie_error CleanupMode := state_add_balance to by_ cleanup_mode.

Definition transfer_balance (from to by_ : Z) (cleanup_mode : CleanupMode)
    : M State trie_error CleanupMode :=
  do mode <- state_sub_balance from by_ cleanup_mode in
  state_add_balance to by_ mode.

Definition state_inc_nonce (a : Z) : M State trie_error unit :=
  require a false ;;;
  update_account a (fun x => Some (inc_nonce x)).

Definition state_set_storage (a key value : Z) : M State trie_error unit :=
  do v <- state_storage_at a key in
  if negb (v =? value) then
    require a false ;;;
    update_account a (fun x => Some (set_storage key value x))
  else ret tt.

Definition state_init_code (a : Z) (code : bytes) : M State trie_error unit :=
  do nonce <- gets st_account_start_nonce in
  require_or_from a true (new_contract 0 nonce KECCAK_NULL_RLP) (fun x => x) ;;;
  update_account a (fun x => Some (init_code code x)).

Definition state_reset_code (a : Z) (code : bytes) : M State trie_error unit :=
  do nonce <- gets st_account_start_nonce in
  require_or_from a true (new_contract 0 nonce KECCAK_NULL_RLP) (fun x => x) ;;;
  update_account a (fun x => Some (reset_code code x)).

Definition patch_account (a : Z) (code : bytes) (storage : gmap Z Z) : M State trie_error unit :=
  require a false ;;;
  update_account a (fun x => Some (reset_code_and_storage code storage x)).

Definition state_new_contract (contract balance nonce_offset : Z) : M State trie_error unit :=
  do original_storage_root <- state_original_storage_root contract in
  do start <- gets st_account_start_nonce in
  let '(nonce, overflow) := u256_overflowing_add start nonce_offset in
  if overflow : bool then throw (DecoderError contract)
  else modify (insert_cache contract (new_dirty (Some (new_contract balance nonce original_storage_root)))).

Definition kill_account (account : Z) (s : State) : State := insert_cache account (new_dirty None) s.

(** The condition under which [kill_garbage] removes an entry. *)
Definition is_garbage (touched : gset Z) (remove_empty_touched : bool) (min_balance : option Z)
    (kill_contracts : bool) (address : Z) (entry : AccountEntry) : bool :=
  bool_decide (address ∈ touched) &&
  ((remove_empty_touched && exists_and_is_null entry) ||
   match min_balance, e_account entry with
   | Some balance, Some account =>
       (is_basic account || kill_contracts) && (a_balance account <? balance) &&
       match e_old_balance entry with Some b => a_balance account <? b | None => false end
   | _, _ => false
   end).

Definition kill_garbage (touched : gset Z) (remove_empty_touched : bool) (min_balance : option Z)
    (kill_contracts : bool) (s : State) : State :=
  let to_kill := omap (fun '(address, entry) =>
    if is_garbage touched remove_empty_touched min_balance kill_contracts address entry
    then Some address else None) (map_to_list (st_cache s)) in
  foldl (fun s address => kill_account address s) s to_kill.

(** ** Commit *)

(** Runs an account method with the account database as mutable state. *)
Definition commit_account (address : Z) (entry : AccountEntry) (account : Account L)
    : M State trie_error unit :=
  do db <- geth in
  let '(ah, account1) := address_hash address account in
  match (commit_storage ah ;;; commit_code ah) (account1, db) with
  | Ret _ (account2, db') =>
      modify (fun s => set_db (set_hash_db (st_db s) db') s) ;;;
      put_entry address (set_account account2 entry) ;;;
      do empty <- is_empty account2 in
      if empty : bool then ret tt
      else modify (fun s => set_db (note_non_null_account (st_db s) address) s)
  | Throw e (account2, db') =>
      modify (fun s => set_db (set_hash_db (st_db s) db') s) ;;;
      put_entry address (set_account account2 entry) ;;;
      throw e
  | Panic => panic
  end.

(** The first loop of [commit]: the sub-tries of the dirty accounts. *)
Fixpoint commit_subtries (addresses : list Z) : M State trie_error unit :=
  match addresses with
  | [] => ret tt
  | address :: rest =>
      do s <- get in
      do entry <- expect (st_cache s !! address) in
      match e_account entry with
      | Some account => commit_account address entry account
      | None => ret tt
      end ;;;
      commit_subtries rest
  end.

(** The second loop: the state trie. *)
Fixpoint commit_accounts (addresses : list Z) : M State trie_error unit :=
  match addresses with
  | [] => ret tt
  | address :: rest =>
      do s <- get in
      do entry <- expect (st_cache s !! address) in
      put_entry address (mkAccountEntry (e_account entry) (e_old_balance entry) Committed) ;;;
      do '(db', root') <- lift_result
        (match e_account entry with
         | Some account => trie_account_insert (as_hash_db (st_db s)) (st_root s) address (rlp account)
         | None => trie_account_remove (as_hash_db (st_db s)) (st_root s) address
         end) in
      modify (fun s => set_root root' (set_db (set_hash_db (st_db s) db') s)) ;;;
      commit_accounts rest
  end.

Definition dirty_addresses (s : State) : list Z :=
  omap (fun '(address, e) => if is_dirty e then Some address else None) (map_to_list (st_cache s)).

Definition no_checkpoints (s : State) : bool :=
  match st_checkpoints s with [] => true | _ => false end.

Definition commit : M State trie_error unit :=
  do s <- get in
  assert_ (no_checkpoints s) ;;;
  commit_subtries (dirty_addresses s) ;;;
  do s1 <- get in
  (if db_contains (as_hash_db (st_db s1)) (st_root s1) then ret tt
   else throw (InvalidStateRoot (st_root s1))) ;;;
  commit_accounts (dirty_addresses s1).

(** [propagate_to_global_cache] empties the cache into the backend. *)
Definition propagate_to_global_cache (s : State) : State :=
  let db' := foldl (fun b '(address, e) =>
    if bool_decide (e_state e = Committed) || bool_decide (e_state e = CleanFresh)
    then add_to_account_cache b address (e_account e) (bool_decide (e_state e = Committed))
    else b) (st_db s) (map_to_list (st_cache s)) in
  set_st_cache ∅ (set_db db' s).

(** [State::drop] *)
Definition drop_state (s : State) : Z * B :=
  let s' := propagate_to_global_cache s in (st_root s', st_db s').

Definition clear : M State trie_error unit :=
  do s <- get in
  assert_ (no_checkpoints s) ;;;
  modify (set_st_cache ∅).

End State.

Arguments AccountEntry : clear implicits.
Arguments State : clear implicits.
