(* ===== verification/StateSpec.v ===== *)
(** * What the state promises

    The abstract counterpart of [State]: a world maps every address to what can be observed
    of its account, and the checkpoints are a stack of worlds. [spec_op] gives each
    operation on it; taking a checkpoint pushes the current world, reverting pops it back
    and discarding drops it.

    The rest of the file relates the caches to this picture: [core_of] is the part of an
    account that matters, [account_ok] says that its caches agree with the database, and
    [BackendLaws] is what the state relies on from its backend. *)

From S2P Require Import Prelude MemoryCache Account State.
From stdpp Require Import base numbers option gmap list.

Open Scope Z_scope.
Open Scope origo_scope.

(** ** Worlds *)

Record account_view : Type := mkView {
  v_balance : Z;
  v_nonce : Z;
  v_code_hash : Z;
  v_code : bytes;
  v_storage : Z -> Z;
  (** storage at the last commit, as seen by the account *)
  v_original : Z -> Z;
}.

Definition world : Type := Z -> option account_view.

Definition view_eq (x y : account_view) : Prop :=
  v_balance x = v_balance y /\ v_nonce x = v_nonce y /\ v_code_hash x = v_code_hash y /\ v_code x = v_code y /\
  (forall k, v_storage x k = v_storage y k) /\ (forall k, v_original x k = v_original y k).

#[export] Instance view_equiv : Equiv account_view := view_eq.
#[export] Instance world_equiv : Equiv world := fun w w' => forall a, w a ≡ w' a.

#[export] Instance view_equivalence : Equivalence (≡@{account_view}).
Proof.
  split.
  - by intros x.
  - intros x y (? & ? & ? & ? & ? & ?). split_and!; done.
  - intros x y z (? & ? & ? & ? & Hs & Ho) (? & ? & ? & ? & Hs' & Ho').
    split_and!; congruence.
Qed.

Definition upd {A} (a : Z) (x : A) (f : Z -> A) : Z -> A := fun b => if b =? a then x else f b.

(** An account without code. *)
Definition view_new (balance nonce : Z) (original : Z -> Z) : account_view :=
  mkView balance nonce KECCAK_EMPTY [] (fun _ => 0) original.

Definition view_null (v : account_view) : bool :=
  (v_balance v =? 0) && (v_nonce v =? 0) && (v_code_hash v =? KECCAK_EMPTY).

Definition view_storage (w : world) (a k : Z) : Z :=
  match w a with Some v => v_storage v k | None => 0 end.

Definition view_original (w : world) (a k : Z) : Z :=
  match w a with Some v => v_original v k | None => 0 end.

(** ** Operations and their answers *)

Inductive op : Type :=
| OpCheckpoint
| OpDiscard
| OpRevert
| OpExists (a : Z)
| OpExistsNotNull (a : Z)
| OpHasCodeOrNonce (a : Z)
| OpBalance (a : Z)
| OpNonce (a : Z)
| OpCodeHash (a : Z)
| OpCode (a : Z)
| OpStorageAt (a k : Z)
| OpOriginalStorageAt (a k : Z)
| OpCheckpointStorageAt (i a k : Z)
| OpAddBalance (a x : Z) (mode : CleanupMode)
| OpSubBalance (a x : Z) (mode : CleanupMode)
| OpTransfer (from to x : Z) (mode : CleanupMode)
| OpIncNonce (a : Z)
| OpSetStorage (a k v : Z)
| OpInitCode (a : Z) (code : bytes)
| OpNewContract (a balance nonce_offset : Z)
| OpKill (a : Z).

(** Accounts are killed between transactions only: [OpKill] is specified with no checkpoint
    taken. *)

Inductive answer : Type :=
| AnsUnit
| AnsZ (z : Z)
| AnsBool (b : bool)
| AnsHash (h : option Z)
| AnsCode (c : option bytes)
| AnsMode (m : CleanupMode).

Section Spec.
Context {K : Keccak} (start_nonce : Z).

Definition require_view (w : world) (a : Z) : account_view :=
  default (view_new 0 start_nonce (fun _ => 0)) (w a).

Definition view_update (w : world) (a : Z) (f : account_view -> account_view) : world :=
  upd a (Some (f (require_view w a))) w.

Definition view_exists (w : world) (a : Z) : bool := match w a with Some _ => true | None => false end.

Definition add_view (x : Z) (v : account_view) : account_view :=
  mkView (u256_saturating_add (v_balance v) x) (v_nonce v) (v_code_hash v) (v_code v) (v_storage v) (v_original v).

Definition sub_view (x : Z) (v : account_view) : account_view :=
  mkView (v_balance v - x) (v_nonce v) (v_code_hash v) (v_code v) (v_storage v) (v_original v).

Definition track (a : Z) (mode : CleanupMode) : CleanupMode :=
  match mode with TrackTouched set => TrackTouched ({[a]} ∪ set) | _ => mode end.

Definition spec_add_balance (a x : Z) (mode : CleanupMode) (w : world) : CleanupMode * world :=
  if negb (x =? 0) || (match mode with ForceCreate => negb (view_exists w a) | _ => false end)
  then (mode, view_update w a (add_view x))
  else if view_exists w a then (track a mode, w) else (mode, w).

(** [None] where the balance does not cover the amount. *)
Definition spec_sub_balance (a x : Z) (mode : CleanupMode) (w : world) : option (CleanupMode * world) :=
  if negb (x =? 0) || negb (view_exists w a) then
    if x <=? v_balance (require_view w a)
    then Some (track a mode, view_update w a (sub_view x))
    else None
  else Some (track a mode, w).

Definition spec_op (o : op) (st : world * list world) : option (answer * (world * list world)) :=
  let '(w, ws) := st in
  match o with
  | OpCheckpoint => Some (AnsZ (zlen ws), (w, w :: ws))
  | OpDiscard => Some (AnsUnit, (w, tail ws))
  | OpRevert => Some (AnsUnit, match ws with [] => (w, []) | w' :: ws' => (w', ws') end)
  | OpExists a => Some (AnsBool (view_exists w a), st)
  | OpExistsNotNull a =>
      Some (AnsBool (match w a with Some v => negb (view_null v) | None => false end), st)
  | OpHasCodeOrNonce a =>
      Some (AnsBool (match w a with
                     | Some v => negb (v_code_hash v =? KECCAK_EMPTY) || negb (v_nonce v =? start_nonce)
                     | None => false
                     end), st)
  | OpBalance a => Some (AnsZ (match w a with Some v => v_balance v | None => 0 end), st)
  | OpNonce a => Some (AnsZ (match w a with Some v => v_nonce v | None => start_nonce end), st)
  | OpCodeHash a => Some (AnsHash (v_code_hash <$> w a), st)
  | OpCode a => Some (AnsCode (v_code <$> w a), st)
  | OpStorageAt a k => Some (AnsZ (view_storage w a k), st)
  | OpOriginalStorageAt a k => Some (AnsZ (view_original w a k), st)
  | OpCheckpointStorageAt i a k =>
      if 0 <=? i then
        Some (AnsHash (if i <? zlen ws
                       then (fun w' => view_storage w' a k) <$> ws !! Z.to_nat (zlen ws - 1 - i)
                       else None), st)
      else None
  | OpAddBalance a x mode => let '(m, w') := spec_add_balance a x mode w in Some (AnsMode m, (w', ws))
  | OpSubBalance a x mode => '(m, w') ← spec_sub_balance a x mode w; Some (AnsMode m, (w', ws))
  | OpTransfer from to x mode =>
      '(m, w') ← spec_sub_balance from x mode w;
      let '(m', w'') := spec_add_balance to x m w' in Some (AnsMode m', (w'', ws))
  | OpIncNonce a =>
      Some (AnsUnit, (view_update w a (fun v =>
        mkView (v_balance v) (u256_saturating_add (v_nonce v) 1) (v_code_hash v) (v_code v) (v_storage v)
          (v_original v)), ws))
  | OpSetStorage a k x =>
      Some (AnsUnit,
        (if view_storage w a k =? x then w
         else view_update w a (fun v =>
           mkView (v_balance v) (v_nonce v) (v_code_hash v) (v_code v) (upd k x (v_storage v)) (v_original v)), ws))
  | OpInitCode a code =>
      Some (AnsUnit, (view_update w a (fun v =>
        mkView (v_balance v) (v_nonce v) (keccak code) code (v_storage v) (v_original v)), ws))
  | OpNewContract a balance nonce_offset =>
      let nonce := start_nonce + nonce_offset in
      if (0 <=? nonce) && (nonce <? U256_MOD) then
        Some (AnsUnit, (upd a (Some (view_new balance nonce (view_original w a))) w, ws))
      else None
  | OpKill a => match ws with [] => Some (AnsUnit, (upd a None w, [])) | _ => None end
  end.

Fixpoint spec_run (os : list op) (st : world * list world)
    : option (list answer * (world * list world)) :=
  match os with
  | [] => Some ([], st)
  | o :: os' =>
      '(x, st1) ← spec_op o st;
      '(xs, st2) ← spec_run os' st1;
      Some (x :: xs, st2)
  end.

End Spec.

(** ** The same operations on [State] *)

Section Run.
Context {L : Type} {LC : LruCache L Z Z} {K : Keccak}.
Context {D B : Type} {DB : HashDb D} {BE : Backend B D (Account L)}.

Definition run_op (o : op) : M (State L B) trie_error answer :=
  match o with
  | OpCheckpoint => do s <- get in
                    let '(i, s') := checkpoint s in modify (fun _ => s') ;;; ret (AnsZ i)
  | OpDiscard => modify discard_checkpoint ;;; ret AnsUnit
  | OpRevert => modify revert_to_checkpoint ;;; ret AnsUnit
  | OpExists a => do r <- exists_ a in ret (AnsBool r)
  | OpExistsNotNull a => do r <- exists_and_not_null a in ret (AnsBool r)
  | OpHasCodeOrNonce a => do r <- exists_and_has_code_or_nonce a in ret (AnsBool r)
  | OpBalance a => do r <- balance a in ret (AnsZ r)
  | OpNonce a => do r <- nonce a in ret (AnsZ r)
  | OpCodeHash a => do r <- state_code_hash a in ret (AnsHash r)
  | OpCode a => do r <- state_code a in ret (AnsCode r)
  | OpStorageAt a k => do r <- state_storage_at a k in ret (AnsZ r)
  | OpOriginalStorageAt a k => do r <- state_original_storage_at a k in ret (AnsZ r)
  | OpCheckpointStorageAt i a k => do r <- checkpoint_storage_at i a k in ret (AnsHash r)
  | OpAddBalance a x mode => do m <- state_add_balance a x mode in ret (AnsMode m)
  | OpSubBalance a x mode => do m <- state_sub_balance a x mode in ret (AnsMode m)
  | OpTransfer from to x mode => do m <- transfer_balance from to x mode in ret (AnsMode m)
  | OpIncNonce a => state_inc_nonce a ;;; ret AnsUnit
  | OpSetStorage a k v => state_set_storage a k v ;;; ret AnsUnit
  | OpInitCode a code => state_init_code a code ;;; ret AnsUnit
  | OpNewContract a b n => state_new_contract a b n ;;; ret AnsUnit
  | OpKill a => modify (kill_account a) ;;; ret AnsUnit
  end.

Fixpoint run (os : list op) : M (State L B) trie_error (list answer) :=
  match os with
  | [] => ret []
  | o :: os' => do x <- run_op o in do xs <- run os' in ret (x :: xs)
  end.

End Run.

(** ** What the state promises to its clients

    [sim s st]: the state [s] shows the worlds [st]. Operations follow the specification. Stated for
    a client, which needs nothing else. *)
Class StateLaws {L : Type} {LC : LruCache L Z Z} {K : Keccak} {D B : Type} {DB : HashDb D}
    {BE : Backend B D (Account L)} (start_nonce : Z)
    (sim : State L B -> world * list world -> Prop) : Prop := {
  sl_op : forall s st o ans st', sim s st -> spec_op start_nonce o st = Some (ans, st') ->
    exists s', run_op o s = Ret ans s' /\ sim s' st';
  sl_code_size : forall s w ws a, sim s (w, ws) ->
    exists r s', state_code_size a s = Ret r s' /\ sim s' (w, ws) /\
      default 0 r = match w a with Some v => zlen (v_code v) | None => 0 end;
  sl_base_root : forall s st a, sim s st ->
    exists r s', state_is_base_storage_root_unchanged a s = Ret r s' /\ sim s' st;
  sl_world : forall s w w' ws, sim s (w, ws) -> w ≡ w' -> sim s (w', ws);
  sl_entry : forall s w ws a e acc, sim s (w, ws) -> st_cache s !! a = Some e -> e_account e = Some acc ->
    exists v, w a = Some v /\ v_balance v = a_balance acc /\ v_nonce v = a_nonce acc /\
      v_code_hash v = a_code_hash acc;
}.

(** ** Cores: accounts without their caches *)

Record core : Type := mkCore {
  c_balance : Z;
  c_nonce : Z;
  c_code_hash : Z;
  c_code : bytes;
  c_root : Z;
  c_original : option Z;
  c_changes : gmap Z Z;
}.

Section Cores.
(** The code of each code hash of the database. *)
Context (codes : Z -> bytes).

(** The code of an account, loaded or not. *)
Definition content {L} (a : Account L) : bytes :=
  if is_cached a then a_code_cache a else codes (a_code_hash a).

Definition core_of {L} (a : Account L) : core :=
  mkCore (a_balance a) (a_nonce a) (a_code_hash a) (content a) (a_storage_root a)
    (fst <$> a_original_storage_cache a) (a_storage_changes a).

Definition basic_core (b : BasicAccount) : core :=
  mkCore (ba_balance b) (ba_nonce b) (ba_code_hash b)
    (if ba_code_hash b =? KECCAK_EMPTY then [] else codes (ba_code_hash b)) (ba_storage_root b) None ∅.

End Cores.

(** Root of the storage at the last commit. *)
Definition c_original_root (c : core) : Z := default (c_root c) (c_original c).

Section Disk.
Context {L : Type} {LC : LruCache L Z Z} {K : Keccak} (entries : L -> list (Z * Z)).
Context {D : Type} {DB : HashDb D}.

Context (codes : Z -> bytes).

(** The database, the state root and the accounts the trie holds under it. *)
Context (db : D) (root : Z) (disk : Z -> option BasicAccount).

Definition addr_hash (a : Z) : Z := keccak (be_bytes 20 a).

(** The storage tries of the accounts and their codes are complete. *)
Record db_complete : Prop := {
  dc_root : db_contains db root = true;
  dc_account : forall a, trie_account db root a = Some (inl (disk a));
  dc_storage : forall a b k, disk a = Some b ->
    exists o, trie_storage db (addr_hash a) (ba_storage_root b) k = Some (inl o);
  dc_code : forall a b, disk a = Some b -> ba_code_hash b <> KECCAK_EMPTY ->
    code_get db (addr_hash a) (ba_code_hash b) = Some (codes (ba_code_hash b)) /\ codes (ba_code_hash b) <> [];
}.

Definition trie_value (a r k : Z) : Z :=
  match trie_storage db (addr_hash a) r k with Some (inl o) => default 0 o | _ => 0 end.

(** An empty storage trie is never read. *)
Definition base_value (a r k : Z) : Z := if r =? KECCAK_NULL_RLP then 0 else trie_value a r k.

Definition core_storage (a : Z) (c : core) (k : Z) : Z := default (base_value a (c_root c) k) (c_changes c !! k).

Definition core_original (a : Z) (c : core) (k : Z) : Z := base_value a (c_original_root c) k.

Definition interp (a : Z) (c : core) : account_view :=
  mkView (c_balance c) (c_nonce c) (c_code_hash c) (c_code c) (core_storage a c) (core_original a c).

(** The world a freshly opened state shows. *)
Definition disk_world : world := fun a => interp a <$> (basic_core codes <$> disk a).

Definition disk_root (a r : Z) : Prop := exists b, disk a = Some b /\ r = ba_storage_root b.

Definition cache_ok (a r : Z) (cache : L) : Prop :=
  Forall (fun '(k, v) => v = base_value a r k) (entries cache).

Definition code_ok (a : Z) (acc : Account L) : Prop :=
  is_cached acc = true \/
  (code_get db (addr_hash a) (a_code_hash acc) = Some (codes (a_code_hash acc)) /\ codes (a_code_hash acc) <> []).

(** The caches of an account agree with the database, and its roots are those of the
    database or empty. *)
Record account_ok (a : Z) (acc : Account L) : Prop := {
  ao_hash : forall h, a_address_hash acc = Some h -> h = addr_hash a;
  ao_root : a_storage_root acc = KECCAK_NULL_RLP \/ disk_root a (a_storage_root acc);
  ao_cache : cache_ok a (a_storage_root acc) (a_storage_cache acc);
  ao_original : forall r cache, a_original_storage_cache acc = Some (r, cache) ->
    r <> KECCAK_NULL_RLP /\ disk_root a r /\ cache_ok a r cache;
  ao_code : code_ok a acc;
  ao_size : forall n, a_code_size acc = Some n -> n = zlen (content codes acc);
  ao_unsized : a_code_size acc = None -> is_cached acc = true -> a_code_cache acc = [];
  (** code that was not changed is in the database *)
  ao_saved : a_code_filth acc = Clean -> a_code_hash acc <> KECCAK_EMPTY ->
    code_get db (addr_hash a) (a_code_hash acc) = Some (codes (a_code_hash acc)) /\ codes (a_code_hash acc) <> [];
}.

Definition clean_account (a : Z) (acc : Account L) : Prop :=
  account_ok a acc /\ Some (core_of codes acc) = basic_core codes <$> disk a.

(** What a backend hands out describes the same accounts as the database. *)
Definition cached_ok (a : Z) (r : option (option (Account L))) : Prop :=
  match r with
  | Some (Some acc) => clean_account a acc
  | Some None => disk a = None
  | None => True
  end.

Class BackendLaws {B : Type} {BE : Backend B D (Account L)} (BInv : B -> Prop) : Prop := {
  bl_db : forall b, BInv b -> as_hash_db b = db;
  bl_get_cached : forall b a r b', BInv b -> get_cached b a = (r, b') -> BInv b' /\ cached_ok a r;
  bl_get_cached_account : forall b a r b', BInv b -> get_cached_account b a = (r, b') ->
    BInv b' /\ cached_ok a r;
  bl_set_cached : forall b a acc, BInv b -> clean_account a acc -> BInv (set_cached b a acc);
  bl_get_cached_code : forall b h r b', BInv b -> get_cached_code b h = (r, b') ->
    BInv b' /\ (forall c, r = Some c -> c = codes h);
  bl_cache_code : forall b h, BInv b -> exists b', backend_cache_code b h (codes h) = Some b' /\ BInv b';
  bl_known_null : forall b a, BInv b -> is_known_null b a = true -> disk a = None;
}.

End Disk.

(** ** Views of entries and checkpoints *)

(** Dirty flag and core of an entry; an address that is not cached is clean and as the
    database has it. *)
Definition entry_view {L} (codes : Z -> bytes) (e : AccountEntry L) : bool * option core :=
  (is_dirty e, core_of codes <$> e_account e).

Section Views.
Context {L : Type} (codes : Z -> bytes) (disk : Z -> option BasicAccount).

Definition disk_view (a : Z) : bool * option core := (false, basic_core codes <$> disk a).

Definition cache_view (cache : gmap Z (AccountEntry L)) (a : Z) : bool * option core :=
  match cache !! a with Some e => entry_view codes e | None => disk_view a end.

(** What reverting to checkpoint [c] makes of the views [E]. *)
Definition restore (c : gmap Z (option (AccountEntry L))) (E : Z -> bool * option core) (a : Z)
    : bool * option core :=
  match c !! a with
  | None => E a
  | Some (Some e) => entry_view codes e
  | Some None => if fst (E a) then disk_view a else E a
  end.

(** The views at each checkpoint, latest first. *)
Fixpoint stack_views (cs : list (gmap Z (option (AccountEntry L)))) (E : Z -> bool * option core)
    : list (Z -> bool * option core) :=
  match cs with
  | [] => []
  | c :: cs' => restore c E :: stack_views cs' (restore c E)
  end.

(** A recorded address is dirty above its checkpoint. *)
Fixpoint chain_ok (cs : list (gmap Z (option (AccountEntry L)))) (E : Z -> bool * option core) : Prop :=
  match cs with
  | [] => True
  | c :: cs' => (forall a, is_Some (c !! a) -> fst (E a) = true) /\ chain_ok cs' (restore c E)
  end.

End Views.
