(* ===== verification/StateAccounts.v ===== *)
(** * Accounts keep their caches coherent

    Lemmas on the operations of [Account]: which of them leave the core of an account alone,
    that all of them keep [account_ok], and what the storage look-ups answer. *)

From S2P Require Import Prelude MemoryCache Account State StateSpec.
From stdpp Require Import base numbers option gmap list.

Open Scope Z_scope.
Open Scope origo_scope.

Section Accounts.
Context {L : Type} {LC : LruCache L Z Z} {K : Keccak} (entries : L -> list (Z * Z)).
Context {laws : LruCacheLaws entries}.
Context {D : Type} {DB : HashDb D}.
Context (codes : Z -> bytes) (db : D) (root : Z) (disk : Z -> option BasicAccount).
Context (Hdb : db_complete codes db root disk).

Local Abbreviation account_ok := (account_ok entries codes db disk).
Local Abbreviation code_ok := (code_ok codes db).
Local Abbreviation cache_ok := (cache_ok entries db).
Local Abbreviation base_value := (base_value db).
Local Abbreviation core_of := (core_of codes).
Local Abbreviation basic_core := (basic_core codes).
Local Abbreviation content := (content codes).

(** ** Caches *)

Lemma cache_ok_new a r n : cache_ok a r (lru_new n).
Proof. unfold StateSpec.cache_ok. by rewrite lru_new_entries. Qed.

Lemma cache_ok_sub a r c c' :
  (forall e, e ∈ entries c' -> e ∈ entries c \/ snd e = base_value a r (fst e)) ->
  cache_ok a r c -> cache_ok a r c'.
Proof.
  intros Hsub Hc. apply Forall_forall. intros [k v] Hin.
  destruct (Hsub _ Hin) as [Hin'|He]; [|done]. by eapply Forall_forall in Hc; [|exact Hin'].
Qed.

Lemma cache_ok_insert a r c k : cache_ok a r c -> cache_ok a r (snd (lru_insert c k (base_value a r k))).
Proof.
  apply cache_ok_sub. intros e. rewrite lru_insert_entries.
  destruct (evict_drop (lru_capacity c) (lru_remove k (entries c) ++ [(k, base_value a r k)])) as [n ->].
  intros [->|Hin]%(subseteq_drop n)%elem_of_remove_snoc; auto.
Qed.

Lemma cache_ok_find a r c k v : cache_ok a r c -> fst (lru_get_mut c k) = Some v -> v = base_value a r k.
Proof.
  intros Hc. rewrite lru_get_mut_fst. intros Hf%lru_find_Some.
  by eapply Forall_forall in Hc; [|exact Hf].
Qed.

Lemma cache_ok_get_mut a r c k : cache_ok a r c -> cache_ok a r (snd (lru_get_mut c k)).
Proof.
  intros Hc. refine (cache_ok_sub _ _ _ _ _ Hc). intros e. rewrite lru_get_mut_entries.
  destruct (lru_find k (entries c)) as [v|] eqn:Hf; [|by left].
  intros [->|Hin]%elem_of_remove_snoc; [|by left]. left. by apply lru_find_Some.
Qed.

Lemma cache_ok_merge a r c kvs :
  cache_ok a r c -> Forall (fun '(k, v) => v = base_value a r k) kvs ->
  cache_ok a r (foldl (fun c '(k, v) => snd (lru_insert c k v)) c kvs).
Proof.
  intros Hc Hkvs. revert c Hc. induction Hkvs as [|[k v] kvs -> _ IH]; intros c Hc; [done|].
  cbn. by apply IH, cache_ok_insert.
Qed.

(** ** Constructors and copies *)

Lemma account_ok_new_basic a b n : account_ok a (new_basic b n).
Proof.
  split; cbn; try done; [by left|apply cache_ok_new|by left|]. by intros ? [= <-].
Qed.

Lemma account_ok_new_contract a b n r :
  r = KECCAK_NULL_RLP \/ disk_root disk a r -> account_ok a (new_contract b n r).
Proof.
  intros Hr. split; cbn; try done; [by left|apply cache_ok_new| |by left].
  intros r' c'. case_bool; [done|]. intros [= <- <-].
  split_and!; [lia|naive_solver lia|apply cache_ok_new].
Qed.

Lemma account_ok_from a b : disk a = Some b -> account_ok a (Account_from b).
Proof.
  intros Hb. split; cbn; try done.
  - right. by exists b.
  - apply cache_ok_new.
  - unfold code_ok. cbn. destruct (Z.eq_dec (ba_code_hash b) KECCAK_EMPTY) as [He|He].
    + left. unfold is_cached. cbn. by rewrite He, Z.eqb_refl.
    + right. by eapply (dc_code _ _ _ _ Hdb).
  - intros _. by apply (dc_code _ _ _ _ Hdb).
Qed.

Lemma clean_account_from a b : disk a = Some b -> clean_account entries codes db disk a (Account_from b).
Proof.
  intros Hb. split; [by apply account_ok_from|]. rewrite Hb. cbn. unfold StateSpec.core_of, StateSpec.content, is_cached. cbn.
  done.
Qed.

Lemma core_clone_dirty (acc : Account L) : core_of (clone_dirty acc) = core_of acc.
Proof. unfold core_of. cbn. by destruct (a_original_storage_cache acc) as [[]|]. Qed.

Lemma account_ok_clone_dirty a acc : account_ok a acc -> account_ok a (clone_dirty acc).
Proof.
  intros [Hh Hr Hc Ho Hcode ? ? ?]. split; cbn; try done; [apply cache_ok_new|].
  intros r c. destruct (a_original_storage_cache acc) as [[r' c']|]; [|done]. cbn. intros [= <- <-].
  destruct (Ho _ _ eq_refl) as (? & ? & _). split_and!; [done..|apply cache_ok_new].
Qed.

Lemma core_overwrite_with (other self : Account L) : core_of (overwrite_with other self) = core_of other.
Proof. done. Qed.

Lemma account_ok_overwrite_with a other self :
  account_ok a other -> account_ok a self -> account_ok a (overwrite_with other self).
Proof.
  intros [Hh Hr Hc Ho Hcode ? ? ?] Hself. split; cbn; try done.
  case_bool; [|done]. apply cache_ok_merge; [|by rewrite lru_into_iter_entries].
  replace (a_storage_root other) with (a_storage_root self) by lia. apply (ao_cache _ _ _ _ _ _ Hself).
Qed.

(** ** Caching the address hash and the code *)

Lemma address_hash_ok a acc : account_ok a acc ->
  fst (address_hash a acc) = addr_hash a /\ core_of (snd (address_hash a acc)) = core_of acc /\
  account_ok a (snd (address_hash a acc)).
Proof.
  intros Ha. unfold address_hash. destruct (a_address_hash acc) as [h|] eqn:Hh; cbn.
  - split_and!; [by apply (ao_hash _ _ _ _ _ _ Ha)|done|done].
  - split_and!; [done..|]. destruct Ha as [? ? ? ? ? ? ? ?]. split; cbn; try done. by intros ? [= <-].
Qed.

Lemma code_ok_get a (acc : Account L) : code_ok a acc -> is_cached acc = false ->
  code_get db (addr_hash a) (a_code_hash acc) = Some (codes (a_code_hash acc)) /\ codes (a_code_hash acc) <> [].
Proof. intros [Hc|Hc] Hn; [congruence|done]. Qed.

(** The code of an account that was not loaded is. *)
Lemma load_code_ok a acc : account_ok a acc -> is_cached acc = false ->
  let acc' := with_code (a_code_hash acc) (Some (zlen (codes (a_code_hash acc)))) (codes (a_code_hash acc)) (a_code_filth acc) acc in
  core_of acc' = core_of acc /\ account_ok a acc' /\ is_cached acc' = true.
Proof.
  intros Ha Hn. destruct (code_ok_get a acc (ao_code _ _ _ _ _ _ Ha) Hn) as [_ Hne]. set (acc' := with_code _ _ _ _ _). cbn zeta.
  assert (Hc : is_cached acc' = true) by (unfold is_cached, acc'; cbn; by destruct (codes (a_code_hash acc))).
  assert (Hcont : content acc' = codes (a_code_hash acc)) by (unfold StateSpec.content; by rewrite Hc).
  split_and!; [|destruct Ha; split; try done|done].
  - unfold StateSpec.core_of. rewrite Hcont. unfold StateSpec.content. by rewrite Hn.
  - by left.
  - intros n [= <-]. by rewrite Hcont.
Qed.

(** The size alone. *)
Lemma load_size_ok a acc : account_ok a acc -> is_cached acc = false ->
  let acc' := with_code (a_code_hash acc) (Some (zlen (codes (a_code_hash acc)))) (a_code_cache acc) (a_code_filth acc) acc in
  core_of acc' = core_of acc /\ account_ok a acc'.
Proof.
  intros Ha Hn acc'. split; [done|]. destruct Ha; split; try done. intros n [= <-].
  change (content acc') with (content acc). unfold StateSpec.content. by rewrite Hn.
Qed.

(** An account whose code was asked for. *)
Lemma loaded_code (acc : Account L) : is_cached acc = true -> code acc = Some (content acc).
Proof.
  intros Hc. unfold code, StateSpec.content. rewrite Hc. unfold is_cached in Hc.
  destruct (a_code_cache acc); [|by rewrite andb_false_r]. cbn in Hc. by rewrite Hc.
Qed.

Lemma loaded_size a acc : account_ok a acc -> is_cached acc = true \/ is_Some (a_code_size acc) ->
  default 0 (a_code_size acc) = zlen (content acc).
Proof.
  intros Ha Hc. destruct (a_code_size acc) as [n|] eqn:Hs; [by apply (ao_size _ _ _ _ _ _ Ha)|].
  destruct Hc as [Hc|[n Hn]]; [|done]. pose proof (ao_unsized _ _ _ _ _ _ Ha Hs Hc) as He.
  unfold StateSpec.content. by rewrite Hc, He.
Qed.

(** ** Storage look-ups *)

(** Only the caches of [acc'] differ from those of [acc]. *)
Definition same_account (a : Z) (acc acc' : Account L) : Prop :=
  core_of acc' = core_of acc /\ account_ok a acc'.

Lemma account_ok_storage_cache a acc c :
  account_ok a acc -> cache_ok a (a_storage_root acc) c -> same_account a acc (with_storage_cache c acc).
Proof. intros [? ? ? ? ? ? ? ?] Hc. split; [done|by split]. Qed.

Lemma account_ok_original_cache a acc r c c' :
  account_ok a acc -> a_original_storage_cache acc = Some (r, c) -> cache_ok a r c' ->
  same_account a acc (with_original_storage_cache (Some (r, c')) acc).
Proof.
  intros Ha Hr Hc. split; [unfold core_of; cbn; by rewrite Hr|].
  destruct (ao_original _ _ _ _ _ _ Ha _ _ Hr) as (? & ? & _). destruct Ha as [? ? ? ? ? ? ? ?].
  split; cbn; try done. by intros ? ? [= <- <-].
Qed.

Lemma cached_moved_ok a acc k : account_ok a acc ->
  same_account a acc (snd (cached_moved_original_storage_at k acc)) /\
  (forall v, fst (cached_moved_original_storage_at k acc) = Some v -> v = base_value a (a_storage_root acc) k) /\
  (fst (cached_moved_original_storage_at k acc) = None -> a_storage_root acc <> KECCAK_NULL_RLP).
Proof.
  intros Ha. unfold cached_moved_original_storage_at. case_bool; cbn.
  - split_and!; [by split|intros v [= <-]; unfold StateSpec.base_value; by rewrite Hb|done].
  - pose proof (ao_cache _ _ _ _ _ _ Ha) as Hc.
    pose proof (cache_ok_get_mut a _ _ k Hc) as Hg.
    pose proof (fun v => cache_ok_find a _ _ k v Hc) as Hf.
    destruct (lru_get_mut _ _) as [r c]; cbn in *.
    split_and!; [by apply account_ok_storage_cache|done|lia].
Qed.

Lemma cached_storage_at_ok a acc k : account_ok a acc ->
  same_account a acc (snd (cached_storage_at k acc)) /\
  (forall v, fst (cached_storage_at k acc) = Some v -> v = core_storage db a (core_of acc) k) /\
  (fst (cached_storage_at k acc) = None ->
   a_storage_changes acc !! k = None /\ a_storage_root acc <> KECCAK_NULL_RLP).
Proof.
  intros Ha. unfold cached_storage_at, core_storage. cbn [core_of c_changes c_root].
  destruct (a_storage_changes acc !! k) as [v|] eqn:Hk; cbn.
  - split_and!; [by split|by intros ? [= <-]|done].
  - destruct (cached_moved_ok a acc k Ha) as (? & ? & ?). split_and!; auto.
Qed.

Lemma cached_original_storage_at_ok a acc k : account_ok a acc ->
  same_account a acc (snd (cached_original_storage_at k acc)) /\
  (forall v, fst (cached_original_storage_at k acc) = Some v -> v = core_original db a (core_of acc) k) /\
  (fst (cached_original_storage_at k acc) = None -> c_original_root (core_of acc) <> KECCAK_NULL_RLP).
Proof.
  intros Ha. unfold cached_original_storage_at, core_original, c_original_root. cbn [core_of c_original c_root].
  destruct (a_original_storage_cache acc) as [[r c]|] eqn:Ho; cbn.
  - destruct (ao_original _ _ _ _ _ _ Ha _ _ Ho) as (? & ? & Hc).
    pose proof (cache_ok_get_mut a _ _ k Hc) as Hg. pose proof (fun v => cache_ok_find a _ _ k v Hc) as Hf.
    destruct (lru_get_mut _ _) as [v c']; cbn in *. split_and!; [|done..].
    by eapply account_ok_original_cache.
  - destruct (cached_moved_ok a acc k Ha) as (? & ? & ?). split_and!; auto.
Qed.

(** A storage trie of the database answers, and the answer is cached. *)
Lemma get_and_cache_ok {S} a r cache k (s : S) :
  disk_root disk a r -> r <> KECCAK_NULL_RLP -> cache_ok a r cache ->
  exists cache', get_and_cache_storage r cache db (addr_hash a) k s = Ret (base_value a r k, cache') s /\
    cache_ok a r cache'.
Proof.
  intros (b & Hb & ->) Hr Hc. destruct (dc_storage _ _ _ _ Hdb a b k Hb) as [o Ho].
  assert (Hv : base_value a (ba_storage_root b) k = default 0 o).
  { unfold StateSpec.base_value, trie_value. rewrite Ho. case_bool; [lia|done]. }
  eexists. split; [|by apply (cache_ok_insert _ _ cache k)].
  unfold get_and_cache_storage, fetch, bind, expect. rewrite Ho. cbn. by rewrite Hv.
Qed.

Lemma same_account_trans a x y z : same_account a x y -> same_account a y z -> same_account a x z.
Proof. intros [H1 _] [H2 H3]. split; [congruence|done]. Qed.

Lemma ok_root_disk a acc : account_ok a acc -> a_storage_root acc <> KECCAK_NULL_RLP ->
  disk_root disk a (a_storage_root acc).
Proof. intros Ha Hr. by destruct (ao_root _ _ _ _ _ _ Ha). Qed.

(** What [storage_at] and [original_storage_at] have in common: [look] answers the value
    [value] of the account, or fails and leaves the value to be read elsewhere. *)
Definition lookup_ok (value : Z -> core -> Z -> Z)
    (f_cached_at : Z -> Account L -> option Z * Account L)
    (f_at : D -> Z -> Z -> M (Account L) trie_error Z) : Prop :=
  forall a acc k, account_ok a acc ->
    same_account a acc (snd (f_cached_at k acc)) /\
    (forall v, fst (f_cached_at k acc) = Some v -> v = value a (core_of acc) k) /\
    (fst (f_cached_at k acc) = None ->
     exists b, disk a = Some b /\ value a (core_of acc) k = value a (basic_core b) k) /\
    exists acc', f_at db (addr_hash a) k acc = Ret (value a (core_of acc) k) acc' /\
      same_account a acc acc'.

Lemma same_storage_root a acc acc' : same_account a acc acc' -> a_storage_root acc' = a_storage_root acc.
Proof. intros [Hc _]. by injection Hc. Qed.

Lemma storage_at_ok : lookup_ok (core_storage db) cached_storage_at storage_at.
Proof.
  intros a acc k Ha. destruct (cached_storage_at_ok a acc k Ha) as (Hsame & Hsome & Hnone).
  split_and!; [done..| |].
  - intros Hf. destruct (Hnone Hf) as [Hch Hr]. unfold core_storage. cbn. rewrite Hch.
    destruct (ok_root_disk _ _ Ha Hr) as (b & Hb & ->). by exists b.
  - unfold storage_at, bind, get. cbn.
    destruct (cached_storage_at k acc) as [[v|] acc1] eqn:Hc; cbn in *.
    { rewrite (Hsome v eq_refl). by eexists. }
    destruct (Hnone eq_refl) as [Hch Hr]. pose proof (same_storage_root _ _ _ Hsame) as Hroot.
    destruct (get_and_cache_ok a (a_storage_root acc1) (a_storage_cache acc1) k acc1) as (c & Hg & Hc').
    { rewrite Hroot. by apply ok_root_disk. }
    { by rewrite Hroot. }
    { apply (ao_cache _ _ _ _ _ _ (proj2 Hsame)). }
    rewrite Hg. cbn. eexists. split.
    + f_equal. unfold core_storage. cbn. rewrite Hch, Hroot. done.
    + eapply same_account_trans; [done|]. apply account_ok_storage_cache; [apply Hsame|done].
Qed.

Lemma original_storage_at_ok : lookup_ok (core_original db) cached_original_storage_at original_storage_at.
Proof.
  intros a acc k Ha. destruct (cached_original_storage_at_ok a acc k Ha) as (Hsame & Hsome & Hnone).
  assert (Hd : c_original_root (core_of acc) <> KECCAK_NULL_RLP ->
               disk_root disk a (c_original_root (core_of acc))).
  { unfold c_original_root. cbn. destruct (a_original_storage_cache acc) as [[r c]|] eqn:Ho; cbn.
    - intros _. by apply (ao_original _ _ _ _ _ _ Ha _ _ Ho).
    - by apply ok_root_disk. }
  split_and!; [done..| |].
  - intros Hf. destruct (Hd (Hnone Hf)) as (b & Hb & He). exists b. split; [done|].
    unfold core_original. by rewrite He.
  - unfold original_storage_at, bind, get. cbn.
    destruct (cached_original_storage_at k acc) as [[v|] acc1] eqn:Hc; cbn [fst snd] in *; cbn.
    { rewrite (Hsome v eq_refl). by eexists. }
    specialize (Hnone eq_refl). specialize (Hd Hnone). destruct Hsame as [Hcore Hok1].
    unfold core_original in *. rewrite <- Hcore in *. unfold c_original_root in *. cbn in *.
    destruct (a_original_storage_cache acc1) as [[r c0]|] eqn:Ho; cbn in *.
    + destruct (ao_original _ _ _ _ _ _ Hok1 _ _ Ho) as (? & ? & ?).
      destruct (get_and_cache_ok a r c0 k acc1) as (c & Hg & Hc'); [done..|].
      rewrite Hg. cbn. eexists. split; [done|].
      eapply (same_account_trans a acc acc1); [by split|]. by eapply account_ok_original_cache.
    + destruct (get_and_cache_ok a (a_storage_root acc1) (a_storage_cache acc1) k acc1) as (c & Hg & Hc');
        [done..|apply (ao_cache _ _ _ _ _ _ Hok1)|].
      rewrite Hg. cbn. eexists. split; [done|].
      eapply (same_account_trans a acc acc1); [by split|]. by apply account_ok_storage_cache.
Qed.

End Accounts.
