(* ===== verification/StateViews.v ===== *)
(** * Checkpoints on views

    How the stack of checkpoints acts on the views of [StateSpec]: reverting restores the
    recorded views, discarding merges a checkpoint into the one below it without changing
    what that one restores, and an update that records the old view leaves all checkpoints
    with the views they had. *)

From S2P Require Import Prelude MemoryCache Account State StateSpec.
From stdpp Require Import base numbers option gmap list.

Open Scope Z_scope.
Open Scope origo_scope.

(** A fold over a map whose step at [k] changes only the value at [k]. *)
Lemma map_fold_pointwise {V W} (f : Z -> V -> gmap Z W -> gmap Z W) (g : V -> option W -> option W)
    (Hk : forall k v m, f k v m !! k = g v (m !! k))
    (Ho : forall k v m a, a <> k -> f k v m !! a = m !! a) (m0 : gmap Z W) (c : gmap Z V) a :
  map_fold f m0 c !! a = match c !! a with Some v => g v (m0 !! a) | None => m0 !! a end.
Proof.
  revert a. apply (map_fold_weak_ind (fun m (c : gmap Z V) => forall a,
    m !! a = match c !! a with Some v => g v (m0 !! a) | None => m0 !! a end)).
  - intros a. by rewrite lookup_empty.
  - intros k v c' r Hk' IH a. destruct (decide (a = k)) as [->|Hne].
    + rewrite Hk, IH, Hk', lookup_insert_eq. done.
    + rewrite Ho, IH, lookup_insert_ne by done. done.
Qed.

Lemma or_insert_eq {V} k (v : V) m : or_insert k v m !! k = Some (default v (m !! k)).
Proof. unfold or_insert. destruct (m !! k) eqn:H; [done|]. by rewrite lookup_insert_eq. Qed.

Lemma or_insert_ne {V} k (v : V) m a : a <> k -> or_insert k v m !! a = m !! a.
Proof. intros Hne. unfold or_insert. destruct (m !! k); [done|]. by rewrite lookup_insert_ne. Qed.

Lemma merge_lookup {V} (prev c : gmap Z V) a :
  (if bool_decide (prev = ∅) then c else map_fold or_insert prev c) !! a =
  match prev !! a with Some v => Some v | None => c !! a end.
Proof.
  case_bool_decide as Hp; [by rewrite Hp, lookup_empty|].
  rewrite (map_fold_pointwise or_insert (fun v o => Some (default v o)) or_insert_eq or_insert_ne).
  by destruct (prev !! a), (c !! a).
Qed.

Section Views.
Context {L : Type} {LC : LruCache L Z Z} (codes : Z -> bytes) (disk : Z -> option BasicAccount).
Local Abbreviation entry_view := (entry_view codes).

Local Abbreviation views := (Z -> bool * option core).
Local Abbreviation checkpoints := (list (gmap Z (option (AccountEntry L)))).

Definition pw (E E' : views) : Prop := forall a, E a = E' a.

Lemma pw_refl E : pw E E. Proof. done. Qed.
Lemma pw_sym E E' : pw E E' -> pw E' E. Proof. by intros H a. Qed.
Lemma pw_trans E1 E2 E3 : pw E1 E2 -> pw E2 E3 -> pw E1 E3.
Proof. intros H1 H2 a. by rewrite H1, H2. Qed.

Lemma restore_ext (c : gmap Z (option (AccountEntry L))) E E' :
  pw E E' -> pw (restore codes disk c E) (restore codes disk c E').
Proof. intros H a. unfold restore. by rewrite H. Qed.

Lemma stack_ext (cs : checkpoints) E E' : pw E E' -> Forall2 pw (stack_views codes disk cs E) (stack_views codes disk cs E').
Proof.
  revert E E'. induction cs as [|c cs IH]; intros E E' H; cbn; [done|].
  constructor; [|apply IH]; by apply restore_ext.
Qed.

Lemma chain_ext (cs : checkpoints) E E' : pw E E' -> chain_ok codes disk cs E -> chain_ok codes disk cs E'.
Proof.
  revert E E'. induction cs as [|c cs IH]; intros E E' H; cbn; [done|]. intros [Hc Hcs].
  split; [intros a Ha; rewrite <- H; by apply Hc|]. eapply IH; [|done]. by apply restore_ext.
Qed.

Lemma Forall2_pw_trans Es1 Es2 Es3 : Forall2 pw Es1 Es2 -> Forall2 pw Es2 Es3 -> Forall2 pw Es1 Es3.
Proof. intros H. revert Es3. induction H; inversion 1; subst; constructor; eauto using pw_trans. Qed.

(** Checkpoints that record entries with the same views. *)
Definition csim (cs cs' : checkpoints) : Prop :=
  Forall2 (fun c c' : gmap Z (option (AccountEntry L)) =>
    forall a, fmap entry_view <$> c !! a = fmap entry_view <$> c' !! a) cs cs'.

Lemma csim_refl cs : csim cs cs.
Proof. by apply Forall_Forall2_diag, Forall_forall. Qed.

Lemma csim_sym cs cs' : csim cs cs' -> csim cs' cs.
Proof. induction 1; constructor; [done|done]. Qed.

Lemma csim_trans cs1 cs2 cs3 : csim cs1 cs2 -> csim cs2 cs3 -> csim cs1 cs3.
Proof. intros H. revert cs3. induction H as [|c1 c2 cs1 cs2 Hc _ IH]; inversion 1; subst; constructor; [|by apply IH]. intros a. by rewrite Hc. Qed.

Lemma restore_csim (c c' : gmap Z (option (AccountEntry L))) E :
  (forall a, fmap entry_view <$> c !! a = fmap entry_view <$> c' !! a) ->
  pw (restore codes disk c E) (restore codes disk c' E).
Proof.
  intros H a. specialize (H a). unfold restore.
  destruct (c !! a) as [[e|]|], (c' !! a) as [[e'|]|]; cbn in H; try done. congruence.
Qed.

Lemma stack_csim cs cs' E E' : csim cs cs' -> pw E E' ->
  Forall2 pw (stack_views codes disk cs E) (stack_views codes disk cs' E').
Proof.
  intros Hc. revert E E'. induction Hc as [|c c' cs cs' Hc _ IH]; intros E E' HE; cbn; [done|].
  assert (pw (restore codes disk c E) (restore codes disk c' E')).
  { eapply pw_trans; [by apply restore_csim|by apply restore_ext]. }
  constructor; [done|by apply IH].
Qed.

Lemma chain_csim cs cs' E E' : csim cs cs' -> pw E E' -> chain_ok codes disk cs E -> chain_ok codes disk cs' E'.
Proof.
  intros Hc. revert E E'. induction Hc as [|c c' cs cs' Hc _ IH]; intros E E' HE; cbn; [done|].
  intros [Hd Hcs]. split.
  - intros a Ha. rewrite <- HE. apply Hd. specialize (Hc a). by destruct (c !! a), (c' !! a).
  - eapply IH; [|done]. eapply pw_trans; [by apply restore_csim|by apply restore_ext].
Qed.

(** Reverting. *)
Lemma entry_view_overwrite (v e : AccountEntry L) : entry_view (entry_overwrite_with v e) = entry_view v.
Proof.
  unfold StateSpec.entry_view, entry_overwrite_with. cbn. destruct (e_account v); [|done].
  by destruct (e_account e).
Qed.

Lemma revert_lookup (cache : gmap Z (AccountEntry L)) c a :
  map_fold revert_entry cache c !! a =
  match c !! a with
  | None => cache !! a
  | Some (Some v) => Some (match cache !! a with Some e => entry_overwrite_with v e | None => v end)
  | Some None => match cache !! a with Some e => if is_dirty e then None else Some e | None => None end
  end.
Proof.
  rewrite (map_fold_pointwise revert_entry (fun v o =>
    match v with
    | Some v => Some (match o with Some e => entry_overwrite_with v e | None => v end)
    | None => match o with Some e => if is_dirty e then None else Some e | None => None end
    end)).
  - by destruct (c !! a) as [[]|].
  - intros k [v|] m; cbn; destruct (m !! k) as [e|] eqn:He.
    + by rewrite lookup_insert_eq.
    + by rewrite lookup_insert_eq.
    + destruct (is_dirty e); [by rewrite lookup_delete_eq|done].
    + done.
  - intros k [v|] m b Hne; cbn; destruct (m !! k) as [e|].
    + by rewrite lookup_insert_ne.
    + by rewrite lookup_insert_ne.
    + destruct (is_dirty e); [by rewrite lookup_delete_ne|done].
    + done.
Qed.

Lemma revert_view (cache : gmap Z (AccountEntry L)) c :
  pw (cache_view codes disk (map_fold revert_entry cache c)) (restore codes disk c (cache_view codes disk cache)).
Proof.
  intros a. unfold cache_view, restore. rewrite revert_lookup.
  destruct (c !! a) as [[v|]|]; [|..|done].
  - destruct (cache !! a); [apply entry_view_overwrite|done].
  - destruct (cache !! a) as [e|]; [|done]. cbn. by destruct (is_dirty e).
Qed.

(** Discarding: the merged checkpoint restores what its lower part restored. *)
Lemma discard_view (c prev m : gmap Z (option (AccountEntry L))) cs E :
  (forall a, m !! a = match prev !! a with Some v => Some v | None => c !! a end) ->
  chain_ok codes disk (c :: prev :: cs) E ->
  pw (restore codes disk m E) (restore codes disk prev (restore codes disk c E)) /\
  chain_ok codes disk (m :: cs) E.
Proof.
  intros Hm (Hc & Hp & Hcs).
  assert (Hd : forall a, is_Some (m !! a) -> fst (E a) = true).
  { intros a. rewrite Hm. destruct (c !! a) as [v|] eqn:Hca; [intros _; apply Hc; by rewrite Hca|].
    intros Ha. specialize (Hp a). unfold restore in Hp. rewrite Hca in Hp. apply Hp.
    by destruct (prev !! a). }
  assert (He : pw (restore codes disk m E) (restore codes disk prev (restore codes disk c E))).
  { intros a. unfold restore at 1 2. rewrite Hm.
    destruct (prev !! a) as [[v|]|] eqn:Hpa; [done| |done].
    rewrite (Hd a) by by rewrite Hm, Hpa. by rewrite Hp by by rewrite Hpa. }
  split; [done|]. split; [done|]. by eapply chain_ext; [apply pw_sym|].
Qed.

(** Each level is restored from the one above it. *)
Lemma level_lookup (cs : checkpoints) E j Ej : chain_ok codes disk cs E -> stack_views codes disk cs E !! j = Some Ej ->
  exists c Eprev, cs !! j = Some c /\ Ej = restore codes disk c Eprev /\
    (forall a, is_Some (c !! a) -> fst (Eprev a) = true) /\
    match j with O => Eprev = E | S j' => stack_views codes disk cs E !! j' = Some Eprev end.
Proof.
  revert cs E. induction j as [|j IH]; intros [|c cs] E Hch; cbn; try done; destruct Hch as [Hc Hcs].
  - intros [= <-]. by exists c, E.
  - intros Hl. destruct (IH cs _ Hcs Hl) as (c' & Ep & H1 & H2 & H3 & H4). exists c', Ep.
    split_and!; [done..|]. destruct j; [by subst|done].
Qed.

(** Replacing a recorded entry by one with the same view. *)
Lemma csim_alter (cs : checkpoints) j c a e e' : cs !! j = Some c -> c !! a = Some (Some e) -> entry_view e' = entry_view e ->
  csim (alter (<[a := Some e']>) j cs) cs.
Proof.
  intros Hj Ha He. revert cs Hj. induction j as [|j IH]; intros [|c0 cs] Hj; try done; cbn in *.
  - injection Hj as ->. constructor; [|apply csim_refl]. intros b.
    destruct (decide (b = a)) as [->|Hb]; [|by rewrite lookup_insert_ne].
    rewrite lookup_insert_eq, Ha. cbn. by rewrite He.
  - constructor; [done|by apply IH].
Qed.

(** An update at [a] that makes the address dirty and records [x] in the latest checkpoint. *)
Definition recorded_in (a : Z) (x : option (AccountEntry L)) (cs : checkpoints) : checkpoints :=
  match cs with [] => [] | c :: r => or_insert a x c :: r end.

Definition is_recorded (a : Z) (cs : checkpoints) : Prop :=
  match cs with [] => True | c :: _ => is_Some (c !! a) end.

Lemma is_recorded_in a x cs : is_recorded a (recorded_in a x cs).
Proof. destruct cs as [|c cs]; [done|]. cbn. rewrite or_insert_eq. by eexists. Qed.

Lemma recorded_in_same a x cs : is_recorded a cs -> recorded_in a x cs = cs.
Proof. destruct cs as [|c cs]; [done|]. cbn. unfold or_insert. by intros [y ->]. Qed.

Lemma is_recorded_csim a cs cs' : csim cs cs' -> is_recorded a cs -> is_recorded a cs'.
Proof. intros [|c c' ? ? Hc _]; [done|]. cbn. specialize (Hc a). by destruct (c !! a), (c' !! a). Qed.

Lemma record_view a x cs E E' :
  chain_ok codes disk cs E -> (forall b, b <> a -> E' b = E b) -> fst (E' a) = true ->
  (is_recorded a cs \/ match x with Some e => entry_view e = E a | None => E a = disk_view codes disk a end) ->
  chain_ok codes disk (recorded_in a x cs) E' /\
  Forall2 pw (stack_views codes disk (recorded_in a x cs) E') (stack_views codes disk cs E).
Proof.
  intros Hch Hne Hd Hx. destruct cs as [|c cs]; [done|]. destruct Hch as [Hc Hcs]. cbn [recorded_in].
  assert (He : pw (restore codes disk (or_insert a x c) E') (restore codes disk c E)).
  { intros b. unfold restore. destruct (decide (b = a)) as [->|Hb]; [|by rewrite or_insert_ne, Hne].
    rewrite or_insert_eq. destruct (c !! a) as [[v|]|] eqn:Hca; cbn; [done| |].
    - by rewrite Hd, Hc by by rewrite Hca.
    - destruct Hx as [[y Hy]|Hx]; [congruence|]. destruct x as [e|]; [done|]. by rewrite Hd, Hx. }
  cbn. split; [split|].
  - intros b. destruct (decide (b = a)) as [->|Hb]; [done|]. rewrite or_insert_ne, Hne by done. apply Hc.
  - by eapply chain_ext; [apply pw_sym|].
  - constructor; [done|by apply stack_ext].
Qed.

End Views.
