(* ===== verification/StateRefine.v ===== *)
(** * The state refines its specification

    Every operation of [State], run on caches and checkpoints that are coherent with the
    database, succeeds exactly as [spec_op] says and reaches a state related to the
    specification's. *)

From S2P Require Import Prelude MemoryCache Account State StateSpec StateAccounts StateViews.
From stdpp Require Import base numbers option gmap list.

Open Scope Z_scope.
Open Scope origo_scope.

#[local] Arguments address_hash : simpl never.
#[local] Arguments refresh : simpl never.
#[local] Arguments update_account_cache : simpl never.
#[local] Arguments load_account : simpl never.
#[local] Arguments on_account : simpl never.
#[local] Arguments require : simpl never.
#[local] Arguments update_account : simpl never.
#[local] Arguments state_storage_at : simpl never.
#[local] Arguments state_original_storage_at : simpl never.

Section Refine.
Context {L : Type} {LC : LruCache L Z Z} {K : Keccak} (entries : L -> list (Z * Z)).
Context {laws : LruCacheLaws entries}.
Context {D B : Type} {DB : HashDb D} {BE : Backend B D (Account L)}.
Context (codes : Z -> bytes) (db : D) (root : Z) (disk : Z -> option BasicAccount) (start : Z).
Context (Hdb : db_complete codes db root disk) (Hempty : keccak [] = KECCAK_EMPTY).
Context (BInv : B -> Prop) {BL : BackendLaws entries codes db disk BInv}.

Local Abbreviation account_ok := (account_ok entries codes db disk).
Local Abbreviation same_account := (same_account entries codes db disk).
Local Abbreviation St := (State L B).
Local Abbreviation core_of := (core_of codes).
Local Abbreviation basic_core := (basic_core codes).
Local Abbreviation content := (content codes).
Local Abbreviation entry_view := (entry_view codes).
Local Abbreviation csim := (csim codes).

Definition entry_ok (a : Z) (e : AccountEntry L) : Prop :=
  forall acc, e_account e = Some acc -> account_ok a acc.

Definition views (s : St) : Z -> bool * option core := cache_view codes disk (st_cache s).

Definition levels (s : St) : list (Z -> bool * option core) :=
  stack_views codes disk (st_checkpoints s) (views s).

(** What is not dirty is as the database has it. *)
Definition tidy (E : Z -> bool * option core) : Prop :=
  forall a, fst (E a) = false -> snd (E a) = basic_core <$> disk a.

Record state_inv (s : St) : Prop := {
  si_backend : BInv (st_db s);
  si_root : st_root s = root;
  si_nonce : st_account_start_nonce s = start;
  si_cache : forall a e, st_cache s !! a = Some e -> entry_ok a e;
  si_recorded : Forall (fun c : gmap Z (option (AccountEntry L)) =>
    forall a e, c !! a = Some (Some e) -> entry_ok a e) (st_checkpoints s);
  si_chain : chain_ok codes disk (st_checkpoints s) (views s);
  si_tidy : Forall tidy (views s :: levels s);
}.

Lemma tidy_pw E E' : pw E' E -> tidy E -> tidy E'.
Proof. intros HE HT a. rewrite (HE a). apply HT. Qed.

Lemma all_tidy_pw Es Es' : Forall2 pw Es' Es -> Forall tidy Es -> Forall tidy Es'.
Proof. induction 1 as [|E' E Es' Es HE _ IH]; [done|]. intros [HT HTs]%Forall_cons. constructor; [by eapply tidy_pw|by apply IH]. Qed.

(** ** Transitions that change nothing but caches *)

Definition quiet (s s' : St) : Prop :=
  state_inv s' /\ pw (views s') (views s) /\ csim (st_checkpoints s') (st_checkpoints s).

Lemma quiet_refl s : state_inv s -> quiet s s.
Proof. intros H. split_and!; [done..|apply csim_refl]. Qed.

Lemma quiet_trans s1 s2 s3 : quiet s1 s2 -> quiet s2 s3 -> quiet s1 s3.
Proof. intros (_ & H1 & H2) (H3 & H4 & H5). split_and!; [done|by eapply pw_trans|by eapply csim_trans]. Qed.

Lemma quiet_levels s s' : quiet s s' -> Forall2 pw (levels s') (levels s).
Proof. intros (_ & Hv & Hc). by apply stack_csim. Qed.

Lemma quiet_db s b : state_inv s -> BInv b -> quiet s (set_db b s).
Proof. intros [? ? ? ? ? ?] Hb. split_and!; [by split|done|apply csim_refl]. Qed.

Lemma cache_view_insert (cache : gmap Z (AccountEntry L)) a e b :
  cache_view codes disk (<[a := e]> cache) b = if b =? a then entry_view e else cache_view codes disk cache b.
Proof.
  unfold cache_view. case_bool.
  - replace b with a by lia. by rewrite lookup_insert_eq.
  - by rewrite lookup_insert_ne by lia.
Qed.

Lemma cache_entries_insert (s : St) a e : state_inv s -> entry_ok a e ->
  forall b e', <[a := e]> (st_cache s) !! b = Some e' -> entry_ok b e'.
Proof.
  intros Hs He b e'. rewrite lookup_insert_Some. intros [[<- <-]|[_ Hl]]; [done|].
  by apply (si_cache _ Hs).
Qed.

Lemma quiet_put s a e : state_inv s -> entry_ok a e -> entry_view e = views s a ->
  quiet s (set_st_cache (<[a := e]> (st_cache s)) s).
Proof.
  intros Hs He Hv.
  assert (Hpw : pw (views (set_st_cache (<[a := e]> (st_cache s)) s)) (views s)).
  { intros b. unfold views. cbn. rewrite cache_view_insert. case_bool; [|done].
    replace b with a by lia. done. }
  split_and!; [|done|apply csim_refl]. pose proof Hs as [? ? ? ? ? Hch]. split; try done.
  - by apply cache_entries_insert.
  - eapply chain_ext; [by apply pw_sym|done].
  - eapply all_tidy_pw; [|done]. constructor; [done|by apply stack_ext].
Qed.

Lemma quiet_insert_clean s a e : state_inv s -> entry_ok a e -> is_dirty e = false ->
  entry_view e = views s a -> quiet s (insert_cache a e s).
Proof. intros Hs He Hd Hv. unfold insert_cache. rewrite Hd. by apply quiet_put. Qed.

Lemma views_cached (s : St) a e : st_cache s !! a = Some e -> views s a = entry_view e.
Proof. intros He. unfold views, cache_view. by rewrite He. Qed.

Lemma views_absent (s : St) a : st_cache s !! a = None -> views s a = disk_view codes disk a.
Proof. intros He. unfold views, cache_view. by rewrite He. Qed.

Lemma entry_ok_account a e acc : entry_ok a e -> e_account e = Some acc -> account_ok a acc.
Proof. auto. Qed.

Lemma entry_ok_set a acc e : account_ok a acc -> entry_ok a (set_account acc e).
Proof. intros Ha acc' [= <-]. done. Qed.

Lemma entry_view_set (e : AccountEntry L) acc acc' : e_account e = Some acc -> core_of acc' = core_of acc ->
  entry_view (set_account acc' e) = entry_view e.
Proof. intros He Hc. unfold StateSpec.entry_view. cbn. by rewrite He, Hc. Qed.

(** A cached account is replaced by one that differs in its caches only. *)
Lemma quiet_set s a e acc acc' : state_inv s -> st_cache s !! a = Some e -> e_account e = Some acc ->
  same_account a acc acc' -> quiet s (set_st_cache (<[a := set_account acc' e]> (st_cache s)) s).
Proof.
  intros Hs He Hacc [Hc Hok]. apply quiet_put; [done|by apply entry_ok_set|].
  rewrite (views_cached _ _ _ He). by eapply entry_view_set.
Qed.

(** ** Loading *)

Lemma db_of s : state_inv s -> as_hash_db (st_db s) = db.
Proof. intros Hs. by apply (bl_db _ _ _ _ _ (si_backend _ Hs)). Qed.

Lemma load_account_ok s a : state_inv s -> load_account a s = Ret (Account_from <$> disk a) s.
Proof.
  intros Hs. unfold load_account, bind, get, fetch, expect. cbn.
  rewrite (db_of _ Hs), (si_root _ Hs), (dc_root _ _ _ _ Hdb). cbn.
  by rewrite (dc_account _ _ _ _ Hdb).
Qed.

(** The part of the code that was asked for is there. *)
Definition loaded (require : RequireCache) (acc : Account L) : Prop :=
  match require with
  | RequireNone => True
  | RequireCodeSize => is_cached acc = true \/ is_Some (a_code_size acc)
  | RequireCode => is_cached acc = true
  end.

Lemma update_account_cache_ok s require a acc : state_inv s -> account_ok a acc ->
  exists acc' b, update_account_cache require (addr_hash a) acc s = Ret (true, acc') (set_db b s) /\
    BInv b /\ same_account a acc acc' /\ loaded require acc'.
Proof.
  intros Hs Ha.
  assert (Hid : set_db (st_db s) s = s) by by destruct s.
  pose proof (si_backend _ Hs) as Hb.
  unfold update_account_cache. destruct (decide (require = RequireNone)) as [->|Hreq].
  { exists acc, (st_db s). rewrite Hid. done. }
  destruct (is_cached acc) eqn:Hcached.
  { exists acc, (st_db s). rewrite Hid. destruct require; [done|by split_and!; [..|left]|done]. }
  destruct (code_ok_get codes db a acc (ao_code _ _ _ _ _ _ Ha) Hcached) as [Hc _].
  destruct (load_code_ok entries codes db disk a acc Ha Hcached) as (Hcore & Hok & Hl).
  unfold on_backend, geth, bind, get, gets.
  destruct (get_cached_code (st_db s) (a_code_hash acc)) as [r b1] eqn:Hg.
  destruct (bl_get_cached_code _ _ _ _ _ _ _ _ Hb Hg) as [Hb1 Hr]. destruct r as [code|].
  { specialize (Hr code eq_refl) as ->. exists (cache_given_code (codes (a_code_hash acc)) acc), b1.
    destruct require; [done|..]; cbn; rewrite Hg; (split_and!; [done|done|by split|]); [by left|done]. }
  destruct require; [done| |].
  - exists (snd (cache_code_size db (addr_hash a) acc)), b1.
    cbn. rewrite Hg. cbn. rewrite (bl_db _ _ _ _ _ Hb1). unfold cache_code_size. rewrite Hc.
    destruct (a_code_size acc) eqn:Hsz; [split_and!; [done|done|done|right; cbn; rewrite Hsz; by eexists]|].
    assert (Hne : a_code_hash acc <> KECCAK_EMPTY).
    { intros He. unfold is_cached in Hcached. rewrite He, Z.eqb_refl in Hcached. by destruct (a_code_cache acc). }
    rewrite (proj2 (Z.eqb_neq _ _) Hne). destruct (load_size_ok entries codes db disk a acc Ha Hcached) as [Hcore' Hok'].
    split_and!; [done|done|by split|by right; eexists].
  - cbn. rewrite Hg. cbn. rewrite (bl_db _ _ _ _ _ Hb1). unfold cache_code. rewrite Hcached, Hc. cbn.
    destruct (bl_cache_code _ _ _ _ _ (a_code_hash acc) Hb1) as (b2 & -> & Hb2). cbn.
    eexists _, b2. split_and!; [done|done|by split|done].
Qed.

(** Hash and code of an account are brought into its caches. *)
Lemma refresh_ok s require a acc : state_inv s -> account_ok a acc ->
  exists acc' b, refresh require a acc s = Ret (true, acc') (set_db b s) /\
    BInv b /\ same_account a acc acc' /\ loaded require acc'.
Proof.
  intros Hs Ha. destruct (address_hash_ok entries codes db disk a acc Ha) as (Hh & Hc & Hok).
  unfold refresh. destruct (address_hash a acc) as [ah acc1]. cbn [fst snd] in *. subst ah.
  destruct (update_account_cache_ok s require a acc1 Hs Hok) as (acc' & b & -> & Hb & [Hc' Hok'] & Hl).
  exists acc', b. split_and!; [done|done| |done]. split; [congruence|done].
Qed.

(** The backend's answer for an address. *)
Lemma get_cached_ok s a : state_inv s ->
  exists r b, get_cached (st_db s) a = (r, b) /\ BInv b /\ cached_ok entries codes db disk a r.
Proof.
  intros Hs. destruct (get_cached (st_db s) a) as [r b] eqn:Hg. exists r, b.
  split; [done|]. exact (bl_get_cached _ _ _ _ _ _ _ _ (si_backend _ Hs) Hg).
Qed.

Lemma get_cached_account_ok s a : state_inv s ->
  exists r b, get_cached_account (st_db s) a = (r, b) /\ BInv b /\ cached_ok entries codes db disk a r.
Proof.
  intros Hs. destruct (get_cached_account (st_db s) a) as [r b] eqn:Hg. exists r, b.
  split; [done|]. exact (bl_get_cached_account _ _ _ _ _ _ _ _ (si_backend _ Hs) Hg).
Qed.

Lemma clean_account_same a acc acc' :
  clean_account entries codes db disk a acc -> same_account a acc acc' -> clean_account entries codes db disk a acc'.
Proof. intros [_ Hd] [Hc Hok]. split; [done|]. by rewrite Hc. Qed.

(** The answer of an account query: [f] of an account with the core the views show. *)
Definition answered {U} (s : St) (a : Z) (require : RequireCache) (f : option (Account L) -> U) (r : outcome St trie_error U) : Prop :=
  exists oacc s', r = Ret (f oacc) s' /\ quiet s s' /\
    core_of <$> oacc = snd (views s a) /\ (forall acc, oacc = Some acc -> account_ok a acc /\ loaded require acc).

Lemma answered_some {U} s a require (f : option (Account L) -> U) acc acc' s' :
  quiet s s' -> Some (core_of acc) = snd (views s a) -> same_account a acc acc' -> loaded require acc' ->
  answered s a require f (Ret (f (Some acc')) s').
Proof.
  intros Hq Hc Hsame Hl. exists (Some acc'), s'. split_and!; [done|done| |].
  - cbn. by rewrite (proj1 Hsame).
  - intros ? [= <-]. split; [apply Hsame|done].
Qed.

Lemma answered_none {U} s a require (f : option (Account L) -> U) s' :
  quiet s s' -> snd (views s a) = None -> answered s a require f (Ret (f None) s').
Proof. intros Hq Hn. exists None, s'. by rewrite Hn. Qed.

(** The account is loaded from the database into the local cache. *)
Lemma ensure_loaded_ok {U} s a require (f : option (Account L) -> U) :
  state_inv s -> st_cache s !! a = None ->
  answered s a require f ((do maybe_acc <- load_account a in
    match maybe_acc with
    | Some account =>
        do '(ok, account') <- refresh require a account in
        if ok : bool then modify (insert_cache a (new_clean (Some account'))) ;;; ret (f (Some account'))
        else throw (IncompleteDatabase a)
    | None => modify (insert_cache a (new_clean None)) ;;; ret (f None)
    end) s).
Proof.
  intros Hs He. unfold bind. rewrite (load_account_ok _ _ Hs).
  pose proof (views_absent _ _ He) as Hv. destruct (disk a) as [basic|] eqn:Hd; cbn.
  - pose proof (clean_account_from entries codes db root disk Hdb a basic Hd) as Hcl.
    destruct (refresh_ok s require a _ Hs (proj1 Hcl)) as (acc' & b' & -> & Hb' & Hsame & Hl). cbn.
    apply (answered_some s a require f (Account_from basic)); [|by rewrite Hv; apply (proj2 Hcl)|done|done].
    eapply quiet_trans; [by apply (quiet_db s b')|].
    apply quiet_insert_clean; [by apply quiet_db| |done|].
    + intros ? [= <-]. apply Hsame.
    + rewrite (views_absent (set_db b' s)) by done. unfold StateSpec.entry_view, StateSpec.disk_view. cbn.
      by rewrite (proj1 Hsame), Hd.
  - unfold disk_view in Hv. rewrite Hd in Hv.
    apply answered_none; [|by rewrite Hv]. by apply quiet_insert_clean.
Qed.

Lemma answered_quiet {U} s s1 a require (f : option (Account L) -> U) r :
  quiet s s1 -> answered s1 a require f r -> answered s a require f r.
Proof.
  intros Hq (oacc & s' & -> & Hq' & Hc & Hok). exists oacc, s'. split_and!; try done.
  - by eapply quiet_trans.
  - by rewrite Hc, (proj1 (proj2 Hq)).
Qed.

Lemma ensure_cached_ok {U} s a require check_null (f : option (Account L) -> U) : state_inv s ->
  answered s a require f (ensure_cached a require check_null f s).
Proof.
  intros Hs. unfold ensure_cached, on_backend. cbn [bind get].
  destruct (st_cache s !! a) as [e|] eqn:He.
  - pose proof (views_cached _ _ _ He) as Hv. destruct (e_account e) as [acc|] eqn:Hacc.
    + pose proof (si_cache _ Hs _ _ He _ Hacc) as Ha. unfold bind at 1.
      destruct (refresh_ok s require a acc Hs Ha) as (acc' & b & -> & Hb & Hsame & Hl).
      apply (answered_some s a require f acc); [|by rewrite Hv; cbn; rewrite Hacc|done|done].
      eapply quiet_trans; [by apply (quiet_db s b)|].
      eapply (quiet_set (set_db b s)); [by apply quiet_db|done..].
    + apply answered_none; [by apply quiet_refl|]. rewrite Hv. cbn. by rewrite Hacc.
  - pose proof (views_absent _ _ He) as Hv.
    destruct (get_cached_ok s a Hs) as (r & b & Hg & Hb & Hr). unfold bind at 1 2. cbn. rewrite Hg. cbn.
    pose proof (quiet_db s b Hs Hb) as Hq. pose proof (proj1 Hq) as Hs1.
    destruct r as [[acc|]|]; cbn in Hr.
    + unfold bind at 1.
      destruct (refresh_ok (set_db b s) require a acc Hs1 (proj1 Hr)) as (acc' & b' & -> & Hb' & Hsame & Hl).
      apply (answered_some s a require f acc); [|by rewrite Hv; apply Hr|done|done].
      eapply quiet_trans; [exact Hq|]. apply (quiet_db (set_db b s)); [done|].
      apply (bl_set_cached entries codes db disk); [done|]. by eapply clean_account_same.
    + apply answered_none; [done|]. rewrite Hv. cbn. by rewrite Hr.
    + unfold bind at 1, known_null, gets. cbn. destruct (check_null && is_known_null b a) eqn:Hnull.
      * apply andb_true_iff in Hnull as [_ Hnull].
        apply answered_none; [done|]. rewrite Hv. cbn.
        by rewrite (bl_known_null entries codes db disk b a Hb Hnull).
      * apply (answered_quiet _ _ _ _ _ _ Hq). by apply ensure_loaded_ok.
Qed.

(** ** Storage *)

Section Lookup.
Context (value : Z -> core -> Z -> Z) (f_cached_at : Z -> Account L -> option Z * Account L)
        (f_at : D -> Z -> Z -> M (Account L) trie_error Z)
        (Hlook : lookup_ok entries codes db disk value f_cached_at f_at).

Definition value_of (a k : Z) (o : option core) : Z :=
  match o with Some c => value a c k | None => 0 end.

Lemma on_account_ok s a acc k : state_inv s -> account_ok a acc ->
  exists acc', on_account a acc (fun db ah => f_at db ah k) s =
      Ret (inl (value a (core_of acc) k), acc') s /\ same_account a acc acc'.
Proof.
  intros Hs Ha. destruct (address_hash_ok entries codes db disk a acc Ha) as (Hh & Hc & Hok).
  unfold on_account, geth, bind, gets. cbn. rewrite (db_of _ Hs).
  destruct (address_hash a acc) as [ah acc1]. cbn [fst snd] in *. subst ah.
  destruct (Hlook a acc1 k Hok) as (_ & _ & _ & acc' & -> & Hc' & Hok').
  exists acc'. rewrite Hc. split; [done|]. split; [congruence|done].
Qed.

Lemma storage_elsewhere_ok s a k local : state_inv s ->
  match local with
  | Some (e, acc) => st_cache s !! a = Some (set_account acc e) /\
      exists b, disk a = Some b /\ value a (core_of acc) k = value a (basic_core b) k
  | None => st_cache s !! a = None
  end ->
  exists s', storage_elsewhere a k f_at local s = Ret (value_of a k (snd (views s a))) s' /\ quiet s s'.
Proof.
  intros Hs Hlocal. unfold storage_elsewhere, on_backend. cbn [bind get].
  destruct (get_cached_ok s a Hs) as (r & b & Hg & Hb & Hr). unfold bind at 1 2. cbn. rewrite Hg. cbn.
  pose proof (quiet_db s b Hs Hb) as Hq. pose proof (proj1 Hq) as Hs1.
  assert (Hdisk : value_of a k (snd (views s a)) = value_of a k (basic_core <$> disk a)).
  { destruct local as [[e acc]|].
    - destruct Hlocal as (He & bb & Hbb & Hv).
      rewrite (views_cached _ _ _ He). cbn. rewrite Hbb. cbn. by rewrite Hv.
    - by rewrite (views_absent _ _ Hlocal). }
  destruct r as [[acc|]|]; cbn in Hr.
  - destruct Hr as [Hok Hcore]. unfold bind at 1.
    destruct (on_account_ok (set_db b s) a acc k Hs1 Hok) as (acc' & -> & Hsame). cbn.
    eexists. split; [by rewrite Hdisk, <- Hcore|]. eapply quiet_trans; [exact Hq|].
    apply (quiet_db (set_db b s)); [done|]. apply (bl_set_cached entries codes db disk); [done|].
    by eapply clean_account_same.
  - eexists. split; [|exact Hq]. by rewrite Hdisk, Hr.
  - destruct local as [[e acc]|].
    + destruct Hlocal as (He & _). pose proof (si_cache _ Hs _ _ He _ eq_refl) as Hok. unfold bind at 1.
      destruct (on_account_ok (set_db b s) a acc k Hs1 Hok) as (acc' & -> & Hsame). cbn.
      eexists. split; [by rewrite (views_cached _ _ _ He)|].
      eapply quiet_trans; [exact Hq|].
      by apply (quiet_set (set_db b s) a (set_account acc e) acc).
    + unfold known_null, gets, bind. cbn. destruct (is_known_null b a) eqn:Hnull.
      { eexists. split; [|exact Hq]. by rewrite Hdisk, (bl_known_null entries codes db disk b a Hb Hnull). }
      rewrite (db_of _ Hs1), (si_root _ Hs1), (dc_root _ _ _ _ Hdb).
      cbn. rewrite (load_account_ok _ _ Hs1).
      rewrite Hdisk. pose proof (views_absent _ _ Hlocal) as Hv. unfold disk_view in Hv.
      destruct (disk a) as [basic|] eqn:Hd; cbn.
      * pose proof (account_ok_from entries codes db root disk Hdb a basic Hd) as Hok.
        destruct (on_account_ok (set_db b s) a _ k Hs1 Hok) as (acc' & -> & Hsame). cbn.
        eexists. split; [done|]. eapply quiet_trans; [exact Hq|].
        apply quiet_insert_clean; [done|intros ? [= <-]; apply Hsame|done|].
        change (views (set_db b s) a) with (views s a). rewrite Hv. unfold StateSpec.entry_view. cbn.
        by rewrite (proj1 Hsame).
      * eexists. split; [done|]. eapply quiet_trans; [exact Hq|]. by apply quiet_insert_clean.
Qed.

Lemma storage_at_inner_ok s a k : state_inv s ->
  exists s', storage_at_inner a k f_cached_at f_at s = Ret (value_of a k (snd (views s a))) s' /\ quiet s s'.
Proof.
  intros Hs. unfold storage_at_inner. cbn [bind get]. destruct (st_cache s !! a) as [e|] eqn:He.
  - pose proof (views_cached _ _ _ He) as Hv. destruct (e_account e) as [acc|] eqn:Hacc.
    + pose proof (si_cache _ Hs _ _ He _ Hacc) as Hok.
      destruct (Hlook a acc k Hok) as (Hsame & Hsome & Hnone & _).
      destruct (f_cached_at k acc) as [r acc']. cbn [fst snd] in *.
      pose proof (quiet_set s a e acc acc' Hs He Hacc Hsame) as Hq.
      unfold put_entry, bind, modify. destruct r as [v|].
      * eexists. split; [|exact Hq]. rewrite Hv. cbn. rewrite Hacc. by rewrite (Hsome v eq_refl).
      * destruct (storage_elsewhere_ok (set_st_cache (<[a := set_account acc' e]> (st_cache s)) s)
                    a k (Some (e, acc')))
          as (s' & Heq & Hq'); [apply Hq|..].
        { cbn. rewrite lookup_insert_eq. split; [done|]. rewrite (proj1 Hsame). by apply Hnone. }
        exists s'. rewrite <- (proj1 (proj2 Hq) a). split; [exact Heq|by eapply quiet_trans].
    + eexists. split; [by rewrite Hv; cbn; rewrite Hacc|by apply quiet_refl].
  - by apply storage_elsewhere_ok.
Qed.

End Lookup.

Lemma state_storage_at_ok s a k : state_inv s ->
  exists s', state_storage_at a k s = Ret (value_of (core_storage db) a k (snd (views s a))) s' /\ quiet s s'.
Proof. apply storage_at_inner_ok, (storage_at_ok entries codes db root disk Hdb). Qed.

Lemma state_original_storage_at_ok s a k : state_inv s ->
  exists s', state_original_storage_at a k s =
    Ret (value_of (core_original db) a k (snd (views s a))) s' /\ quiet s s'.
Proof. apply storage_at_inner_ok, (original_storage_at_ok entries codes db root disk Hdb). Qed.

(** ** Updates *)

(** The account at [a] becomes [v] and is dirty; the checkpoints show what they showed. *)
Definition wrote (a : Z) (v : option core) (s s' : St) : Prop :=
  state_inv s' /\ (forall b, views s' b = if b =? a then (true, v) else views s b) /\
  Forall2 pw (levels s') (levels s) /\ is_recorded a (st_checkpoints s').

Lemma record_checkpoints a x (s : St) : st_checkpoints (record a x s) = recorded_in a x (st_checkpoints s).
Proof. unfold record. by destruct (st_checkpoints s) eqn:Hc; cbn; rewrite ?Hc. Qed.

Lemma record_fields a x (s : St) :
  st_db (record a x s) = st_db s /\ st_root (record a x s) = st_root s /\
  st_cache (record a x s) = st_cache s /\ st_account_start_nonce (record a x s) = st_account_start_nonce s.
Proof. unfold record. by destruct (st_checkpoints s). Qed.

Lemma recorded_ok a x (cs : list (gmap Z (option (AccountEntry L)))) :
  (forall e, x = Some e -> entry_ok a e) ->
  Forall (fun c : gmap Z (option (AccountEntry L)) => forall a e, c !! a = Some (Some e) -> entry_ok a e) cs ->
  Forall (fun c : gmap Z (option (AccountEntry L)) => forall a e, c !! a = Some (Some e) -> entry_ok a e)
    (recorded_in a x cs).
Proof.
  intros Hx Hcs. destruct Hcs as [|c cs Hc Hcs]; cbn; [done|]. constructor; [|done].
  intros b e. destruct (decide (b = a)) as [->|Hb]; [|rewrite or_insert_ne by done; apply Hc].
  rewrite or_insert_eq. intros [= Hd]. destruct (c !! a) as [y|] eqn:Hca; cbn in Hd; [|by apply Hx].
  subst y. by apply Hc.
Qed.

Lemma write_ok s a x e : state_inv s -> entry_ok a e -> is_dirty e = true ->
  (forall e', x = Some e' -> entry_ok a e') ->
  (is_recorded a (st_checkpoints s) \/
   match x with Some e' => entry_view e' = views s a | None => views s a = disk_view codes disk a end) ->
  wrote a (core_of <$> e_account e) s (record a x (set_st_cache (<[a := e]> (st_cache s)) s)).
Proof.
  intros Hs He Hd Hx Hview. set (s1 := set_st_cache (<[a := e]> (st_cache s)) s).
  destruct (record_fields a x s1) as (Hdb' & Hroot & Hcache & Hn).
  pose proof (record_checkpoints a x s1) as Hcp.
  assert (Hv : forall b, views (record a x s1) b =
                 if b =? a then (true, core_of <$> e_account e) else views s b).
  { intros b. unfold views. rewrite Hcache. cbn. rewrite cache_view_insert. case_bool; [|done].
    unfold StateSpec.entry_view. by rewrite Hd. }
  destruct (record_view codes disk a x (st_checkpoints s) (views s) (views (record a x s1))) as [Hchain Hlev].
  { apply (si_chain _ Hs). }
  { intros b Hb. rewrite Hv. case_bool; [lia|done]. }
  { rewrite Hv, Z.eqb_refl. done. }
  { done. }
  split_and!; [|done| |].
  - split; rewrite ?Hdb', ?Hroot, ?Hcache, ?Hn, ?Hcp; cbn; try apply Hs.
    + by apply cache_entries_insert.
    + apply recorded_ok; [done|apply Hs].
    + done.
    + pose proof (si_tidy _ Hs) as [Ht Hts]%Forall_cons. constructor.
      * intros b. rewrite Hv. case_bool; [done|apply Ht].
      * eapply all_tidy_pw; [|exact Hts]. unfold levels at 1. by rewrite Hcp.
  - unfold levels at 1. by rewrite Hcp.
  - rewrite Hcp. apply is_recorded_in.
Qed.

(** [insert_cache] of a dirty entry. *)
Lemma insert_dirty_ok s a e : state_inv s -> entry_ok a e -> is_dirty e = true ->
  wrote a (core_of <$> e_account e) s (insert_cache a e s).
Proof.
  intros Hs He Hd. unfold insert_cache. rewrite Hd. apply write_ok; [done..| |].
  - intros e' He'. by apply (si_cache _ Hs).
  - right. destruct (st_cache s !! a) as [e0|] eqn:He0; [by rewrite (views_cached _ _ _ He0)|].
    by apply views_absent.
Qed.

(** [note_cache] followed by a write to the entry. *)
Lemma note_put_ok s a e0 e : state_inv s -> st_cache s !! a = Some e0 -> entry_ok a e -> is_dirty e = true ->
  wrote a (core_of <$> e_account e) s
    (set_st_cache (<[a := e]> (st_cache (note_cache a s))) (note_cache a s)).
Proof.
  intros Hs He0 He Hd. unfold note_cache. rewrite He0.
  assert (Hswap : forall x, set_st_cache (<[a := e]> (st_cache (record a x s))) (record a x s) =
                  record a x (set_st_cache (<[a := e]> (st_cache s)) s)).
  { intros x. unfold record. by destruct s as [? ? ? [|] ?]. }
  rewrite Hswap. apply write_ok; [done..| |].
  - intros e' [= <-] acc Hacc. unfold entry_clone_dirty in Hacc. cbn in Hacc.
    destruct (e_account e0) as [acc0|] eqn:Hacc0; [|done]. injection Hacc as <-.
    apply account_ok_clone_dirty; [done|]. by apply (si_cache _ Hs _ _ He0).
  - right. cbn. rewrite (views_cached _ _ _ He0). unfold StateSpec.entry_view, entry_clone_dirty. cbn.
    f_equal. destruct (e_account e0); cbn; [|done]. by rewrite core_clone_dirty.
Qed.

(** A further write to the same address. *)
Lemma wrote_put s s' a v e : wrote a v s s' -> entry_ok a e -> is_dirty e = true ->
  wrote a (core_of <$> e_account e) s (set_st_cache (<[a := e]> (st_cache s')) s').
Proof.
  intros (Hs & Hv & Hl & Hr) He Hd.
  destruct (write_ok s' a None e Hs He Hd) as (Hs2 & Hv2 & Hl2 & Hr2); [done|by left|].
  assert (Hsame : record a None (set_st_cache (<[a:=e]> (st_cache s')) s') =
                  set_st_cache (<[a:=e]> (st_cache s')) s').
  { unfold record. cbn. destruct (st_checkpoints s') as [|c cs] eqn:Hc; [done|]. cbn in Hr.
    unfold or_insert. destruct Hr as [y ->]. destruct s'. cbn in *. by subst. }
  rewrite Hsame in *. split_and!; [done| | |done].
  - intros b. rewrite Hv2, Hv. by case_bool.
  - by eapply Forall2_pw_trans.
Qed.

Lemma quiet_wrote s s1 s2 a v : quiet s s1 -> wrote a v s1 s2 -> wrote a v s s2.
Proof.
  intros Hq (Hs & Hv & Hl & Hr). split_and!; [done| | |done].
  - intros b. rewrite Hv. case_bool; [done|]. apply Hq.
  - eapply Forall2_pw_trans; [done|]. by apply quiet_levels.
Qed.

Lemma wrote_quiet s s1 s2 a v : wrote a v s s1 -> quiet s1 s2 -> wrote a v s s2.
Proof.
  intros (Hs & Hv & Hl & Hr) Hq. split_and!; [apply Hq| | |].
  - intros b. rewrite (proj1 (proj2 Hq)). apply Hv.
  - eapply Forall2_pw_trans; [|done]. by apply quiet_levels.
  - eapply is_recorded_csim; [|done]. apply csim_sym, Hq.
Qed.

Lemma load_entry_ok s a : state_inv s ->
  exists s' e, load_entry a s = Ret tt s' /\ quiet s s' /\ st_cache s' !! a = Some e.
Proof.
  intros Hs. unfold load_entry, on_backend. cbn [bind get].
  destruct (st_cache s !! a) as [e|] eqn:He; [by exists s, e; split_and!; [|apply quiet_refl|]|].
  pose proof (views_absent _ _ He) as Hv.
  destruct (get_cached_account_ok s a Hs) as (r & b & Hg & Hb & Hr). unfold bind at 1 2. cbn. rewrite Hg. cbn.
  pose proof (quiet_db s b Hs Hb) as Hq. pose proof (proj1 Hq) as Hs1.
  assert (Hins : forall e, is_dirty e = false -> entry_ok a e -> entry_view e = disk_view codes disk a ->
            exists s' e', modify (insert_cache a e) (set_db b s) = Ret (Er := trie_error) tt s' /\
              quiet s s' /\ st_cache s' !! a = Some e').
  { intros e Hd Hok Hev. eexists _, e. split; [done|]. split.
    - eapply quiet_trans; [exact Hq|]. apply quiet_insert_clean; [done..|]. by rewrite Hev.
    - unfold insert_cache. rewrite Hd. cbn. by rewrite lookup_insert_eq. }
  destruct r as [[acc|]|]; cbn in Hr.
  - apply Hins; [done|intros ? [= <-]; apply Hr|]. unfold StateSpec.entry_view, StateSpec.disk_view. cbn. f_equal. apply Hr.
  - apply Hins; [done..|]. unfold disk_view. by rewrite Hr.
  - unfold known_null, gets, bind. cbn. destruct (is_known_null b a) eqn:Hnull; cbn.
    + apply Hins; [done..|]. unfold disk_view. by rewrite (bl_known_null entries codes db disk b a Hb Hnull).
    + rewrite (load_account_ok _ _ Hs1). destruct (disk a) as [basic|] eqn:Hd; cbn.
      * apply Hins; [done| |by unfold disk_view; rewrite Hd].
        intros ? [= <-]. by apply (account_ok_from entries codes db root disk Hdb).
      * apply Hins; [done..|]. unfold disk_view. by rewrite Hd.
Qed.

(** The account [require_or_from] hands out is dirty and has the core the views show, or
    that of the default. *)
Lemma require_or_from_ok s a rc d : state_inv s -> account_ok a d ->
  exists s' e acc, require_or_from a rc d (fun x => x) s = Ret tt s' /\
    wrote a (Some (core_of acc)) s s' /\ st_cache s' !! a = Some e /\ e_account e = Some acc /\
    is_dirty e = true /\ account_ok a acc /\ core_of acc = default (core_of d) (snd (views s a)).
Proof.
  intros Hs Hd. unfold require_or_from. unfold bind at 1.
  destruct (load_entry_ok s a Hs) as (s1 & e0 & -> & Hq & He0). pose proof (proj1 Hq) as Hs1.
  set (acc := match e_account e0 with Some acc => acc | None => d end).
  assert (Hacc : account_ok a acc).
  { unfold acc. destruct (e_account e0) eqn:H0; [|done]. by apply (si_cache _ Hs1 _ _ He0). }
  assert (Hcore : core_of acc = default (core_of d) (snd (views s a))).
  { rewrite <- (proj1 (proj2 Hq)), (views_cached _ _ _ He0). unfold acc. cbn. by destruct (e_account e0). }
  set (e1 := mkAccountEntry (Some acc) (e_old_balance e0) EntryDirty).
  pose proof (note_put_ok s1 a e0 e1 Hs1 He0 (entry_ok_set a acc e1 Hacc) eq_refl) as Hw.
  destruct (record_fields a (entry_clone_dirty <$> st_cache s1 !! a) s1) as (_ & _ & Hcache & _).
  fold (note_cache a s1) in Hcache. cbn [bind modify get put_entry expect]. unfold bind at 1. cbn.
  rewrite Hcache in Hw |- *. rewrite He0. cbn. fold acc. fold e1. rewrite ?Hcache.
  apply (quiet_wrote _ _ _ _ _ Hq) in Hw. cbn in Hw.
  destruct rc.
  - unfold bind. destruct (refresh_ok _ RequireCode a acc (proj1 Hw) Hacc) as (acc' & b & -> & Hb & Hsame & _).
    cbn. set (s2 := set_st_cache (<[a:=e1]> (st_cache s1)) (note_cache a s1)) in *.
    set (e2 := mkAccountEntry (Some acc') (e_old_balance e0) EntryDirty).
    eexists _, e2, acc'. split; [done|]. split_and!; [|cbn; by rewrite lookup_insert_eq|done|done|apply Hsame|].
    + apply (wrote_put s (set_db b s2) a (Some (core_of acc)) e2); [|intros ? [= <-]; apply Hsame|done].
      eapply wrote_quiet; [exact Hw|]. apply quiet_db; [apply Hw|done].
    + by rewrite (proj1 Hsame).
  - eexists _, e1, acc. split; [done|]. split; [exact Hw|]. cbn. rewrite lookup_insert_eq. done.
Qed.

Lemma update_account_ok s s' a v e acc acc' f : wrote a v s s' -> st_cache s' !! a = Some e ->
  e_account e = Some acc -> is_dirty e = true -> f acc = Some acc' -> account_ok a acc' ->
  exists s'', update_account a f s' = Ret tt s'' /\ wrote a (Some (core_of acc')) s s''.
Proof.
  intros Hw He Hacc Hd Hf Hok. unfold update_account, bind, get, expect, put_entry. cbn.
  rewrite He. cbn. rewrite Hacc. cbn. rewrite Hf. cbn. eexists. split; [done|].
  apply (wrote_put _ _ _ _ (set_account acc' e) Hw); [by apply entry_ok_set|done].
Qed.

Lemma modify_account_ok s a rc d f (P : Account L -> Prop) : state_inv s -> account_ok a d ->
  (forall acc, account_ok a acc -> core_of acc = default (core_of d) (snd (views s a)) ->
    exists acc', f acc = Some acc' /\ account_ok a acc' /\ P acc') ->
  exists s1 s' acc', require_or_from a rc d (fun x => x) s = Ret tt s1 /\ update_account a f s1 = Ret tt s' /\
    P acc' /\ wrote a (Some (core_of acc')) s s'.
Proof.
  intros Hs Hd Hf.
  destruct (require_or_from_ok s a rc d Hs Hd) as (s1 & e & acc & Hr & Hw & He & Hacc & Hdirty & Hok & Hc).
  destruct (Hf acc Hok Hc) as (acc' & Hfa & Hok' & HP).
  destruct (update_account_ok s s1 a _ e acc acc' f Hw He Hacc Hdirty Hfa Hok') as (s' & Hu & Hw').
  by exists s1, s', acc'.
Qed.

(** ** Simulation *)

Definition world_of (E : Z -> bool * option core) : world := fun a => interp db a <$> snd (E a).

(** Root of the storage of an address at the last commit. *)
Definition original_root (o : option core) : Z := default KECCAK_NULL_RLP (c_original_root <$> o).

(** The checkpoints agree with the current state on these roots. *)
Definition uniform (s : St) : Prop :=
  Forall (fun E : Z -> bool * option core =>
    forall a, original_root (snd (E a)) = original_root (snd (views s a))) (levels s).

(** The current views and those of every checkpoint show the specification's worlds. *)
Definition sim (s : St) (st : world * list world) : Prop :=
  state_inv s /\ world_of (views s) ≡ fst st /\
  Forall2 (fun E w => world_of E ≡ w) (levels s) (snd st) /\ uniform s.

Lemma uniform_pw Es Es' (V V' : Z -> bool * option core) : Forall2 pw Es Es' ->
  (forall a, original_root (snd (V a)) = original_root (snd (V' a))) ->
  Forall (fun E : Z -> bool * option core => forall a, original_root (snd (E a)) = original_root (snd (V' a))) Es' ->
  Forall (fun E : Z -> bool * option core => forall a, original_root (snd (E a)) = original_root (snd (V a))) Es.
Proof.
  intros Hp HV. induction Hp as [|E E' Es Es' HE _ IH]; inversion 1; subst; constructor; [|by apply IH].
  intros a. rewrite HE, HV. auto.
Qed.

Lemma world_pw E E' : pw E E' -> world_of E ≡ world_of E'.
Proof. intros H a. unfold world_of. by rewrite H. Qed.

Lemma levels_sim Es Es' ws : Forall2 pw Es Es' -> Forall2 (fun E w => world_of E ≡ w) Es' ws ->
  Forall2 (fun E w => world_of E ≡ w) Es ws.
Proof.
  intros Hp. revert ws. induction Hp as [|E E' Es Es' HE _ IH]; inversion 1; subst; constructor; [|by apply IH].
  intros a. etrans; [by apply world_pw|]. done.
Qed.

Lemma sim_quiet s s' st : sim s st -> quiet s s' -> sim s' st.
Proof.
  intros (Hs & Hw & Hl & Hu) Hq. split_and!; [apply Hq| | |].
  - intros a. etrans; [|apply Hw]. apply world_pw, Hq.
  - eapply levels_sim; [|done]. by apply quiet_levels.
  - eapply uniform_pw; [by apply quiet_levels| |done]. intros a. by rewrite (proj1 (proj2 Hq)).
Qed.

Lemma sim_wrote s s' w ws a v x : sim s (w, ws) -> wrote a v s s' -> interp db a <$> v ≡ x ->
  ws = [] \/ original_root v = original_root (snd (views s a)) -> sim s' (upd a x w, ws).
Proof.
  intros (Hs & Hw & Hl & Hu) (Hs' & Hv & Hl' & _) Hx Ho. split_and!; [done| |by eapply levels_sim|].
  - intros b. unfold world_of, upd. cbn. rewrite Hv. case_bool; [|apply Hw].
    replace b with a by lia. done.
  - destruct Ho as [->|Ho].
    + inversion Hl as [HE|]. unfold uniform. rewrite <- HE in Hl'. inversion Hl'. constructor.
    + eapply uniform_pw; [done| |done]. intros b. rewrite Hv. case_bool; [|done].
      replace b with a by lia. done.
Qed.

(** What an account and its view have in common. *)
Lemma sim_view s w ws a : sim s (w, ws) ->
  match snd (views s a), w a with
  | Some c, Some v => interp db a c ≡ v
  | None, None => True
  | _, _ => False
  end.
Proof.
  intros (_ & Hw & _ & _). specialize (Hw a). unfold world_of in Hw. cbn in Hw.
  destruct (snd (views s a)), (w a); inversion Hw; done.
Qed.

Lemma account_query_ok {U} s w ws a req cn (f : option (Account L) -> U) (g : option account_view -> U) :
  sim s (w, ws) -> (forall acc v, interp db a (core_of acc) ≡ v -> f (Some acc) = g (Some v)) ->
  f None = g None ->
  exists s', ensure_cached a req cn f s = Ret (g (w a)) s' /\ sim s' (w, ws).
Proof.
  intros Hsim Hsome Hnone.
  destruct (ensure_cached_ok s a req cn f (proj1 Hsim)) as (oacc & s' & -> & Hq & Hc & _).
  exists s'. split; [|by eapply sim_quiet]. f_equal. pose proof (sim_view s w ws a Hsim) as Hv.
  rewrite <- Hc in Hv. destruct oacc as [acc|], (w a) as [v|]; cbn in Hv; try done. by apply Hsome.
Qed.

Lemma code_sim s w ws a : sim s (w, ws) ->
  exists s', state_code a s = Ret (v_code <$> w a) s' /\ sim s' (w, ws).
Proof.
  intros Hsim. unfold state_code.
  destruct (ensure_cached_ok s a RequireCode true (fun a => match a with Some a => code a | None => None end) (proj1 Hsim))
    as (oacc & s' & -> & Hq & Hc & Hok).
  exists s'. split; [|by eapply sim_quiet]. f_equal. pose proof (sim_view s w ws a Hsim) as Hv.
  rewrite <- Hc in Hv. destruct oacc as [acc|], (w a) as [v|]; cbn in Hv; try done.
  destruct (Hok acc eq_refl) as [Ha Hl]. rewrite (loaded_code codes acc Hl). cbn. f_equal. apply Hv.
Qed.

Lemma code_size_sim s w ws a : sim s (w, ws) ->
  exists r s', state_code_size a s = Ret r s' /\ sim s' (w, ws) /\
    default 0 r = match w a with Some v => zlen (v_code v) | None => 0 end.
Proof.
  intros Hsim. unfold state_code_size.
  destruct (ensure_cached_ok s a RequireCodeSize true (fun a => match a with Some a => a_code_size a | None => None end) (proj1 Hsim))
    as (oacc & s' & -> & Hq & Hc & Hok).
  eexists _, s'. split; [done|]. split; [by eapply sim_quiet|]. pose proof (sim_view s w ws a Hsim) as Hv.
  rewrite <- Hc in Hv. destruct oacc as [acc|], (w a) as [v|]; cbn in Hv; try done.
  destruct (Hok acc eq_refl) as [Ha Hl]. rewrite (loaded_size entries codes db disk a acc Ha Hl). f_equal. apply Hv.
Qed.

Lemma interp_null_root a b n o : o = None \/ o = Some KECCAK_NULL_RLP ->
  interp db a (mkCore b n KECCAK_EMPTY [] KECCAK_NULL_RLP o ∅) ≡ view_new b n (fun _ => 0).
Proof. intros [-> | ->]; repeat split; cbn. Qed.

(** An update through [require_or_from] is an update of the view. *)
Lemma modify_sim s w ws a rc d f F : sim s (w, ws) -> account_ok a d ->
  interp db a (core_of d) ≡ view_new 0 start (fun _ => 0) ->
  c_original_root (core_of d) = KECCAK_NULL_RLP ->
  (forall acc, account_ok a acc -> interp db a (core_of acc) ≡ require_view start w a ->
    exists acc', f acc = Some acc' /\ account_ok a acc' /\
      c_original_root (core_of acc') = c_original_root (core_of acc) /\
      interp db a (core_of acc') ≡ F (require_view start w a)) ->
  exists s1 s', require_or_from a rc d (fun x => x) s = Ret tt s1 /\ update_account a f s1 = Ret tt s' /\
    sim s' (view_update start w a F, ws).
Proof.
  intros Hsim Hd Hid Hnull Hf. pose proof (sim_view s w ws a Hsim) as Hv.
  assert (Hreq : interp db a (default (core_of d) (snd (views s a))) ≡ require_view start w a).
  { unfold require_view. by destruct (snd (views s a)), (w a). }
  destruct (modify_account_ok s a rc d f
              (fun acc' => interp db a (core_of acc') ≡ F (require_view start w a) /\
                 original_root (Some (core_of acc')) = original_root (snd (views s a))) (proj1 Hsim) Hd)
    as (s1 & s' & acc' & H1 & H2 & [HF HO] & Hw).
  { intros acc Hok Hc. rewrite <- Hc in Hreq. destruct (Hf acc Hok Hreq) as (acc' & ? & ? & Ho & ?).
    exists acc'. split_and!; [done..|]. unfold original_root. cbn [fmap option_fmap option_map default].
    rewrite Ho, Hc. by destruct (snd (views s a)). }
  exists s1, s'. split_and!; [done..|]. eapply sim_wrote; [done..| |by right]. by constructor.
Qed.

Lemma modify_basic_sim s w ws a f F : sim s (w, ws) ->
  (forall acc, account_ok a acc -> interp db a (core_of acc) ≡ require_view start w a ->
    exists acc', f acc = Some acc' /\ account_ok a acc' /\
      c_original_root (core_of acc') = c_original_root (core_of acc) /\
      interp db a (core_of acc') ≡ F (require_view start w a)) ->
  exists s1 s', require a false s = Ret tt s1 /\ update_account a f s1 = Ret tt s' /\
    sim s' (view_update start w a F, ws).
Proof.
  intros Hsim Hf. unfold require, bind, gets. rewrite (si_nonce _ (proj1 Hsim)).
  eapply modify_sim; [done|by apply account_ok_new_basic| |done|done].
  exact (interp_null_root a 0 start None (or_introl eq_refl)).
Qed.

(** [touch] changes no view, but creates a missing account. *)
Lemma touch_sim s w ws a : sim s (w, ws) -> view_exists w a = true ->
  exists s', touch a s = Ret tt s' /\ sim s' (w, ws).
Proof.
  intros Hsim Hex. unfold touch, require, bind, gets. rewrite (si_nonce _ (proj1 Hsim)).
  destruct (require_or_from_ok s a false (new_basic 0 start) (proj1 Hsim)) as (s' & e & acc & -> & Hw & _ & _ & _ & _ & Hc);
    [by apply account_ok_new_basic|].
  exists s'. split; [done|]. pose proof (sim_view s w ws a Hsim) as Hv. unfold view_exists in Hex.
  destruct (w a) as [v|] eqn:Hwa; [|done]. destruct (snd (views s a)) as [c|] eqn:Hca; [|done].
  cbn in Hc. subst c.
  destruct (sim_wrote s s' w ws a _ (Some v) Hsim Hw) as (Hs' & Hw' & Hl');
    [by constructor|by right; rewrite Hca|].
  split_and!; [done| |apply Hl'..]. intros b. etrans; [apply Hw'|]. cbn. unfold upd. case_bool; [|done].
  replace b with a by lia. by rewrite Hwa.
Qed.

(** ** Each operation *)

Lemma exists_sim s w ws a : sim s (w, ws) ->
  exists s', exists_ a s = Ret (view_exists w a) s' /\ sim s' (w, ws).
Proof.
  intros Hsim.
  exact (account_query_ok s w ws a _ _ _ (fun o => match o with Some _ => true | None => false end) Hsim
    (fun _ _ _ => eq_refl) eq_refl).
Qed.

Lemma account_ok_balance a acc x : account_ok a acc -> account_ok a (with_balance x acc).
Proof. intros [? ? ? ? ? ? ?]. by split. Qed.

Lemma account_ok_nonce a acc x : account_ok a acc -> account_ok a (with_nonce x acc).
Proof. intros [? ? ? ? ? ? ?]. by split. Qed.

Lemma account_ok_changes a acc x : account_ok a acc -> account_ok a (with_storage_changes x acc).
Proof. intros [? ? ? ? ? ? ?]. by split. Qed.

Lemma add_balance_sim s w ws a x mode : sim s (w, ws) ->
  exists s', state_add_balance a x mode s = Ret (fst (spec_add_balance start a x mode w)) s' /\
    sim s' (snd (spec_add_balance start a x mode w), ws).
Proof.
  intros Hsim. unfold state_add_balance, spec_add_balance.
  assert (Hcreate : exists s1, (if negb (x =? 0) then ret true
      else match mode with ForceCreate => do e <- exists_ a in ret (negb e) | _ => ret false end) s =
    Ret (negb (x =? 0) || (match mode with ForceCreate => negb (view_exists w a) | _ => false end)) s1 /\
    sim s1 (w, ws)).
  { destruct (negb (x =? 0)); [by exists s|]. destruct mode; try by exists s.
    destruct (exists_sim s w ws a Hsim) as (s1 & He & Hs1). exists s1. unfold bind. by rewrite He. }
  destruct Hcreate as (s1 & Hc & Hs1). unfold bind at 1. rewrite Hc. clear Hc Hsim.
  destruct (negb (x =? 0) || _); cbn [fst snd].
  - destruct (modify_basic_sim s1 w ws a (fun acc => Some (add_balance x acc)) (add_view x) Hs1)
      as (s2 & s3 & H2 & H3 & Hs3).
    { intros acc Hok (Hb & Hn & Hch & Hcd & Hst & Ho). eexists. split; [done|].
      split; [by apply account_ok_balance|]. split; [done|]. split_and!; cbn in *; [congruence|congruence|congruence|exact Hcd|exact Hst|exact Ho]. }
    exists s3. unfold bind. by rewrite H2, H3.
  - destruct mode as [| |set]; try by exists s1; destruct (view_exists w a).
    destruct (exists_sim s1 w ws a Hs1) as (s2 & He & Hs2). unfold bind. rewrite He.
    destruct (view_exists w a) eqn:Hex; [|by exists s2].
    destruct (touch_sim s2 w ws a Hs2 Hex) as (s3 & -> & Hs3). by exists s3.
Qed.

Lemma sub_balance_sim s w ws a x mode m w' : sim s (w, ws) ->
  spec_sub_balance start a x mode w = Some (m, w') ->
  exists s', state_sub_balance a x mode s = Ret m s' /\ sim s' (w', ws).
Proof.
  intros Hsim. unfold state_sub_balance, spec_sub_balance. fold (track a mode).
  assert (Hneed : exists s1, (if negb (x =? 0) then ret true else do e <- exists_ a in ret (negb e)) s =
    Ret (negb (x =? 0) || negb (view_exists w a)) s1 /\ sim s1 (w, ws)).
  { destruct (negb (x =? 0)); [by exists s|].
    destruct (exists_sim s w ws a Hsim) as (s1 & He & Hs1). exists s1. unfold bind. by rewrite He. }
  destruct Hneed as (s1 & Hn & Hs1). unfold bind at 1. rewrite Hn. clear Hn Hsim.
  assert (Htrack : forall s2 : St, match mode with
    | TrackTouched set => ret (TrackTouched ({[a]} ∪ set)) | _ => ret mode end s2 =
      Ret (Er := trie_error) (track a mode) s2) by by destruct mode.
  destruct (negb (x =? 0) || _).
  - case_bool; [|done]. intros [= <- <-].
    destruct (modify_basic_sim s1 w ws a (sub_balance x) (sub_view x) Hs1) as (s2 & s3 & H2 & H3 & Hs3).
    { intros acc Hok (Hbal & Hnon & Hch & Hcd & Hst & Ho). cbn in Hbal. exists (with_balance (a_balance acc - x) acc).
      split; [unfold sub_balance; case_bool; [done|lia]|].
      split; [by apply account_ok_balance|]. split; [done|]. split_and!; cbn in *; [congruence|congruence|congruence|exact Hcd|exact Hst|exact Ho]. }
    exists s3. unfold bind. rewrite H2, H3. by rewrite Htrack.
  - intros [= <- <-]. exists s1. unfold bind. cbn. by rewrite Htrack.
Qed.

Lemma transfer_sim s w ws from to x mode m w' : sim s (w, ws) ->
  spec_sub_balance start from x mode w = Some (m, w') ->
  exists s', transfer_balance from to x mode s = Ret (fst (spec_add_balance start to x m w')) s' /\
    sim s' (snd (spec_add_balance start to x m w'), ws).
Proof.
  intros Hsim Hsub. destruct (sub_balance_sim s w ws from x mode m w' Hsim Hsub) as (s1 & H1 & Hs1).
  unfold transfer_balance, bind. rewrite H1. by apply add_balance_sim.
Qed.

Lemma inc_nonce_sim s w ws a : sim s (w, ws) ->
  exists s', state_inc_nonce a s = Ret tt s' /\
    sim s' (view_update start w a (fun v => mkView (v_balance v) (u256_saturating_add (v_nonce v) 1)
      (v_code_hash v) (v_code v) (v_storage v) (v_original v)), ws).
Proof.
  intros Hsim.
  edestruct (modify_basic_sim s w ws a (fun x => Some (inc_nonce x)))
    as (s1 & s2 & H1 & H2 & Hs2); [done| |].
  2: { exists s2. unfold state_inc_nonce, bind. by rewrite H1, H2. }
  intros acc Hok (Hb & Hn & Hch & Hcd & Hst & Ho). eexists. split; [done|].
  split; [by apply account_ok_nonce|]. split; [done|]. split_and!; cbn in *; [congruence|congruence|congruence|exact Hcd|exact Hst|exact Ho].
Qed.

Lemma view_storage_sim s w ws a k : sim s (w, ws) ->
  value_of (core_storage db) a k (snd (views s a)) = view_storage w a k /\
  value_of (core_original db) a k (snd (views s a)) = view_original w a k.
Proof.
  intros Hsim. pose proof (sim_view s w ws a Hsim) as Hv. unfold view_storage, view_original.
  destruct (snd (views s a)), (w a); try done. destruct Hv as (_ & _ & _ & _ & Hs & Ho). split; [apply Hs|apply Ho].
Qed.

Lemma set_storage_sim s w ws a k x : sim s (w, ws) ->
  exists s', state_set_storage a k x s = Ret tt s' /\
    sim s' (if view_storage w a k =? x then w
            else view_update start w a (fun v => mkView (v_balance v) (v_nonce v) (v_code_hash v) (v_code v)
                   (upd k x (v_storage v)) (v_original v)), ws).
Proof.
  intros Hsim. unfold state_set_storage, bind.
  destruct (state_storage_at_ok s a k (proj1 Hsim)) as (s1 & -> & Hq).
  rewrite (proj1 (view_storage_sim s w ws a k Hsim)). apply (sim_quiet _ _ _ Hsim) in Hq. cbn.
  destruct (view_storage w a k =? x); cbn; [by exists s1|].
  edestruct (modify_basic_sim s1 w ws a (fun acc => Some (set_storage k x acc)))
    as (s2 & s3 & H2 & H3 & Hs3); [done| |].
  2: { exists s3. rewrite H2, H3. done. }
  intros acc Hok (Hb & Hn & Hch & Hcd & Hst & Ho). eexists. split; [done|].
  split; [by apply account_ok_changes|]. split; [done|]. split_and!; cbn in *; [congruence|congruence|congruence|exact Hcd| |exact Ho].
  intros k'. unfold core_storage, upd. cbn. case_bool.
  - replace k' with k by lia. by rewrite lookup_insert_eq.
  - rewrite lookup_insert_ne by lia. apply (Hst k').
Qed.

Lemma init_code_content (acc : Account L) c : is_cached (init_code c acc) = true /\ content (init_code c acc) = c.
Proof.
  assert (Hc : is_cached (init_code c acc) = true).
  { unfold is_cached, init_code. cbn. destruct c; [|done]. cbn. by rewrite Hempty, Z.eqb_refl. }
  split; [done|]. unfold StateSpec.content. by rewrite Hc.
Qed.

Lemma account_ok_init_code a acc c : account_ok a acc -> account_ok a (init_code c acc).
Proof.
  intros [? ? ? ? ? ? ?]. destruct (init_code_content acc c) as [Hc Hct]. split; try done.
  - by left.
  - intros n [= <-]. by rewrite Hct.
Qed.

Lemma init_code_sim s w ws a c : sim s (w, ws) ->
  exists s', state_init_code a c s = Ret tt s' /\
    sim s' (view_update start w a (fun v => mkView (v_balance v) (v_nonce v) (keccak c) c
      (v_storage v) (v_original v)), ws).
Proof.
  intros Hsim. unfold state_init_code, bind, gets. rewrite (si_nonce _ (proj1 Hsim)).
  edestruct (modify_sim s w ws a true (new_contract 0 start KECCAK_NULL_RLP)
              (fun x => Some (init_code c x))) as (s1 & s2 & H1 & H2 & Hs2); [done|..].
  5: { exists s2. rewrite H1, H2. done. }
  - apply account_ok_new_contract; [done|by left].
  - exact (interp_null_root a 0 start None (or_introl eq_refl)).
  - done.
  - intros acc Hok (Hb & Hn & Hch & Hcd & Hst & Ho). eexists. split; [done|].
    split; [by apply account_ok_init_code|]. split; [done|].
    split_and!; cbn in *; [congruence|congruence|done|apply init_code_content|exact Hst|exact Ho].
Qed.

Lemma original_root_ok a acc : account_ok a acc ->
  original_storage_root acc = KECCAK_NULL_RLP \/ disk_root disk a (original_storage_root acc).
Proof.
  intros Hok. unfold original_storage_root. destruct (a_original_storage_cache acc) as [[r c]|] eqn:Ho.
  - right. by apply (ao_original _ _ _ _ _ _ Hok _ _ Ho).
  - apply (ao_root _ _ _ _ _ _ Hok).
Qed.

Lemma core_original_root (acc : Account L) : c_original_root (core_of acc) = original_storage_root acc.
Proof. unfold c_original_root, original_storage_root. cbn. by destruct (a_original_storage_cache acc) as [[]|]. Qed.

Lemma new_contract_original_root b n r :
  c_original_root (StateSpec.core_of codes (L := L) (new_contract b n r)) = r.
Proof. rewrite core_original_root. unfold original_storage_root. cbn. case_bool; cbn; lia. Qed.

(** The view of a new contract over the storage at [r]. *)
Lemma interp_new_contract a b n r :
  interp db a (StateSpec.core_of codes (L := L) (new_contract b n r)) ≡ view_new b n (base_value db a r).
Proof.
  split_and!; try done.
  intros k. cbn [v_original interp view_new]. unfold core_original. by rewrite new_contract_original_root.
Qed.

Lemma state_original_storage_root_ok s a : state_inv s ->
  exists r s', state_original_storage_root a s = Ret r s' /\ quiet s s' /\
    r = default KECCAK_NULL_RLP (c_original_root <$> snd (views s a)) /\
    (r = KECCAK_NULL_RLP \/ disk_root disk a r).
Proof.
  intros Hs. unfold state_original_storage_root, bind.
  destruct (ensure_cached_ok s a RequireNone true (fun a => original_storage_root <$> a) Hs)
    as (oacc & s1 & -> & Hq & Hc & Hok).
  eexists _, s1. split; [done|]. split; [done|]. rewrite <- Hc. destruct oacc as [acc|].
  - split; [exact (eq_sym (core_original_root acc))|]. by apply original_root_ok, Hok.
  - split; [done|by left].
Qed.

Lemma new_contract_sim s w ws a b off : sim s (w, ws) -> 0 <= start + off < U256_MOD ->
  exists s', state_new_contract a b off s = Ret tt s' /\
    sim s' (upd a (Some (view_new b (start + off) (view_original w a))) w, ws).
Proof.
  intros Hsim Hrange. unfold state_new_contract, bind, gets.
  destruct (state_original_storage_root_ok s a (proj1 Hsim)) as (r & s1 & -> & Hq & Hr & Hdr).
  pose proof (sim_quiet _ _ _ Hsim Hq) as Hsim1. rewrite (si_nonce _ (proj1 Hsim1)).
  unfold u256_overflowing_add. rewrite Z.mod_small by done. case_bool; [lia|]. cbn.
  eexists. split; [done|]. eapply sim_wrote; [done|apply insert_dirty_ok; [apply Hsim1| |done]| |].
  - intros acc [= <-]. by apply account_ok_new_contract.
  - constructor. etrans; [apply interp_new_contract|]. split_and!; try done.
    intros k. cbn. rewrite <- (proj2 (view_storage_sim s w ws a k Hsim)), Hr.
    by destruct (snd (views s a)).
  - right. rewrite (proj1 (proj2 Hq)). fold (original_root (snd (views s a))) in Hr. rewrite <- Hr.
    exact (new_contract_original_root b (start + off) r).
Qed.

Lemma kill_sim s w a : sim s (w, []) -> sim (kill_account a s) (upd a None w, []).
Proof.
  intros Hsim. eapply sim_wrote; [done|apply insert_dirty_ok; [apply Hsim|done|done]| |by left].
  constructor.
Qed.

(** ** Checkpoints *)

Lemma restore_empty E : pw (restore (L := L) codes disk ∅ E) E.
Proof. intros a. unfold restore. by rewrite lookup_empty. Qed.

Lemma stack_views_length (cs : list (gmap Z (option (AccountEntry L)))) E :
  length (stack_views codes disk cs E) = length cs.
Proof. revert E. induction cs as [|c cs IH]; intros E; cbn; [done|]. by rewrite IH. Qed.

Lemma levels_length s : length (levels s) = length (st_checkpoints s).
Proof. apply stack_views_length. Qed.

Lemma checkpoint_ok s : state_inv s ->
  state_inv (snd (checkpoint s)) /\ pw (views (snd (checkpoint s))) (views s) /\
  Forall2 pw (levels (snd (checkpoint s))) (views s :: levels s).
Proof.
  intros Hs. assert (Hl : Forall2 pw (levels (snd (checkpoint s))) (views s :: levels s)).
  { unfold levels. cbn. constructor; [apply restore_empty|]. apply stack_ext, restore_empty. }
  split_and!; [|done|done]. pose proof Hs as [? ? ? ? ? ? Ht]. split; cbn; try done.
  - constructor; [|done]. intros a e. by rewrite lookup_empty.
  - split; [intros a [y Hy]; by rewrite lookup_empty in Hy|].
    eapply chain_ext; [|done]. apply pw_sym, restore_empty.
  - apply Forall_cons. split; [by apply Forall_cons in Ht as [? _]|by eapply all_tidy_pw].
Qed.

Lemma revert_ok s : state_inv s ->
  state_inv (revert_to_checkpoint s) /\
  match levels s with
  | [] => revert_to_checkpoint s = s
  | E :: Es => pw (views (revert_to_checkpoint s)) E /\ Forall2 pw (levels (revert_to_checkpoint s)) Es
  end.
Proof.
  intros Hs. unfold revert_to_checkpoint, levels. destruct (st_checkpoints s) as [|c cs] eqn:Hc; cbn; [done|].
  pose proof (si_chain _ Hs) as Hch. pose proof (si_recorded _ Hs) as Hrec. rewrite Hc in Hch, Hrec.
  destruct Hch as [_ Hch]. inversion Hrec as [|? ? Hrc Hrcs]; subst.
  pose proof (revert_view codes disk (st_cache s) c) as Hrv. split; [|by split; [|apply stack_ext]].
  split; cbn; try apply Hs; [|done|..].
  - intros a e. rewrite revert_lookup. destruct (c !! a) as [[v|]|] eqn:Hca.
    + intros [= <-]. pose proof (Hrc a v Hca) as Hv. destruct (st_cache s !! a) as [e0|] eqn:He0; [|done].
      intros acc. unfold entry_overwrite_with. cbn. destruct (e_account v) as [va|] eqn:Hva; [|done].
      destruct (e_account e0) as [ea|] eqn:Hea; intros [= <-]; [|by apply Hv].
      apply account_ok_overwrite_with; [done|by apply Hv|by apply (si_cache _ Hs _ _ He0)].
    + destruct (st_cache s !! a) as [e0|] eqn:He0; [|done]. destruct (is_dirty e0); [done|].
      intros [= <-]. by apply (si_cache _ Hs).
    + apply (si_cache _ Hs).
  - eapply chain_ext; [apply pw_sym, Hrv|done].
  - pose proof (si_tidy _ Hs) as [_ Ht]%Forall_cons. unfold levels in Ht |- *. rewrite Hc in Ht. cbn in Ht.
    eapply all_tidy_pw; [|exact Ht]. constructor; [exact Hrv|]. by apply stack_ext.
Qed.

Lemma discard_ok s : state_inv s ->
  state_inv (discard_checkpoint s) /\ pw (views (discard_checkpoint s)) (views s) /\
  Forall2 pw (levels (discard_checkpoint s)) (tail (levels s)).
Proof.
  intros Hs. unfold discard_checkpoint, levels.
  destruct (st_checkpoints s) as [|c cs] eqn:Hc; cbn; [rewrite Hc; by split_and!|].
  pose proof (si_chain _ Hs) as Hch. pose proof (si_recorded _ Hs) as Hrec. rewrite Hc in Hch, Hrec.
  inversion Hrec as [|? ? Hrc Hrcs]; subst. destruct cs as [|p cs]; cbn.
  { split_and!; [|done|constructor]. destruct Hs as [? ? ? ? ? ? [Ht _]%Forall_cons]. split; try done. by constructor. }
  inversion Hrcs as [|? ? Hrp Hrcs']; subst.
  destruct (discard_view codes disk c p _ cs (views s) (merge_lookup p c) Hch) as [Hpw Hch'].
  set (m := if bool_decide (p = ∅) then c else map_fold or_insert p c) in *.
  split_and!; [|done|cbn; constructor; [done|by apply stack_ext]].
  split; cbn; try apply Hs; [|done|].
  - constructor; [|done]. intros a e. unfold m. rewrite merge_lookup.
    destruct (p !! a) as [y|] eqn:Hp; [intros [= ->]; by apply Hrp|apply Hrc].
  - pose proof (si_tidy _ Hs) as [Ht Hts]%Forall_cons. constructor; [exact Ht|]. unfold levels in Hts |- *. rewrite Hc in Hts. cbn in Hts |- *.
    apply Forall_cons in Hts as [_ Hts]. eapply all_tidy_pw; [|exact Hts]. constructor; [exact Hpw|]. by apply stack_ext.
Qed.

(** The checkpoints of the specification follow those of the state. *)
Lemma sim_moved s s' w' ws' E' Es' : state_inv s' -> pw (views s') E' -> Forall2 pw (levels s') Es' ->
  world_of E' ≡ w' -> Forall2 (fun E w => world_of E ≡ w) Es' ws' ->
  (forall a, original_root (snd (E' a)) = original_root (snd (views s a))) ->
  Forall (fun E : Z -> bool * option core => forall a, original_root (snd (E a)) = original_root (snd (views s a))) Es' ->
  sim s' (w', ws').
Proof.
  intros Hs' Hv Hl Hw Hws Ho Hos. split_and!; [done| |by eapply levels_sim|].
  - intros a. etrans; [by apply world_pw|apply Hw].
  - eapply uniform_pw; [exact Hl| |exact Hos]. intros a. by rewrite Hv.
Qed.

Lemma checkpoint_sim s w ws : sim s (w, ws) ->
  fst (checkpoint s) = zlen ws /\ sim (snd (checkpoint s)) (w, w :: ws).
Proof.
  intros Hsim. pose proof Hsim as (Hs & Hw & Hl & Hu). cbn in *. split.
  - unfold zlen. apply Forall2_length in Hl. rewrite levels_length in Hl. by rewrite Hl.
  - destruct (checkpoint_ok s Hs) as (Hs' & Hv & Hls). by eapply sim_moved; [..|constructor|done|constructor].
Qed.

Lemma revert_sim s w ws : sim s (w, ws) ->
  sim (revert_to_checkpoint s) (match ws with [] => (w, []) | w' :: ws' => (w', ws') end).
Proof.
  intros Hsim. pose proof Hsim as (Hs & Hw & Hl & Hu). unfold uniform in Hu. cbn in *. destruct (revert_ok s Hs) as [Hs' Hv].
  destruct Hl as [|E w' Es ws' HE Hl]; [by rewrite Hv|]. apply Forall_cons in Hu as [Hu0 Hu].
  destruct Hv as [Hv Hls]. by eapply sim_moved.
Qed.

Lemma discard_sim s w ws : sim s (w, ws) -> sim (discard_checkpoint s) (w, tail ws).
Proof.
  intros Hsim. pose proof Hsim as (Hs & Hw & Hl & Hu). unfold uniform in Hu. cbn in *.
  destruct (discard_ok s Hs) as (Hs' & Hv & Hls). eapply sim_moved; try done.
  - by destruct Hl.
  - by destruct Hu.
Qed.

(** ** Storage at a checkpoint *)

Lemma value_original a k o : value_of (core_original db) a k o = base_value db a (original_root o) k.
Proof. by destruct o. Qed.

Lemma value_disk a k : value_of (core_storage db) a k (basic_core <$> disk a) =
  base_value db a (original_root (basic_core <$> disk a)) k.
Proof. by destruct (disk a). Qed.

(** Storage that is not empty and not replaced is that of the last commit. *)
Lemma base_is_original a acc : account_ok a acc -> a_storage_root acc <> KECCAK_NULL_RLP ->
  original_root (Some (core_of acc)) = a_storage_root acc.
Proof.
  intros Hok Hne. unfold original_root. cbn [fmap option_fmap option_map default].
  rewrite core_original_root. unfold original_storage_root.
  destruct (a_original_storage_cache acc) as [[r c]|] eqn:Ho; [|done].
  destruct (ao_original _ _ _ _ _ _ Hok _ _ Ho) as (_ & (b & Hb & ->) & _).
  destruct (ao_root _ _ _ _ _ _ Hok) as [|(b' & Hb' & ->)]; [done|]. cbn. congruence.
Qed.

Lemma recorded_entry_ok s j c a e : state_inv s -> st_checkpoints s !! j = Some c ->
  c !! a = Some (Some e) -> entry_ok a e.
Proof.
  intros Hs Hj Ha. pose proof (si_recorded _ Hs) as Hr. rewrite Forall_lookup in Hr. by eapply Hr.
Qed.

Lemma quiet_checkpoint s j c a e acc acc' : state_inv s -> st_checkpoints s !! j = Some c ->
  c !! a = Some (Some e) -> e_account e = Some acc -> same_account a acc acc' ->
  quiet s (set_checkpoints (alter (<[a := Some (set_account acc' e)]>) j (st_checkpoints s)) s).
Proof.
  intros Hs Hj Ha Hacc [Hcore Hok].
  pose proof (csim_alter codes _ _ _ _ _ (set_account acc' e) Hj Ha (entry_view_set e acc acc' Hacc Hcore)) as Hcs.
  split_and!; [|done|done]. pose proof Hs as [? ? ? ? Hr ? Ht]. split; cbn; try done.
  - apply Forall_lookup. intros i c'. rewrite list_lookup_alter. case_decide as Hi.
    + subst i. rewrite Hj. intros [= <-] b e'. rewrite lookup_insert_Some.
      intros [[<- [= <-]]|[_ Hl]]; [by apply entry_ok_set|]. by eapply recorded_entry_ok.
    + intros Hc' b e'. by eapply recorded_entry_ok.
  - eapply chain_csim; [by apply csim_sym|done|done].
  - eapply all_tidy_pw; [|exact Ht]. constructor; [done|by apply stack_csim].
Qed.

(** What the search through the checkpoints tells of the storage at level [j]. *)
Definition kind_ok (s : St) (Ej : Z -> bool * option core) (a k : Z) (kind : ReturnKind) : Prop :=
  let v := value_of (core_storage db) a k (snd (Ej a)) in
  match kind with
  | Found x => x = v
  | OriginalAt => value_of (core_original db) a k (snd (views s a)) = v
  | SameAsNext => value_of (core_storage db) a k (snd (views s a)) = v
  end.

Lemma recorded_kind_ok s j c a k e Ej : state_inv s -> st_checkpoints s !! j = Some c ->
  c !! a = Some (Some e) -> Ej a = entry_view e ->
  original_root (snd (Ej a)) = original_root (snd (views s a)) ->
  exists kind s', recorded_kind a k j e s = Ret kind s' /\ quiet s s' /\ kind_ok s Ej a k kind.
Proof.
  intros Hs Hj Ha HE Ho. pose proof (recorded_entry_ok _ _ _ _ _ Hs Hj Ha) as Hok.
  unfold kind_ok, recorded_kind. rewrite HE in Ho |- *. unfold StateSpec.entry_view in *. cbn [snd] in *.
  destruct (e_account e) as [acc|] eqn:Hacc.
  2: { exists (Found 0), s. by split_and!; [|apply quiet_refl|]. }
  destruct (cached_storage_at_ok entries codes db disk a acc k (Hok _ Hacc)) as (Hsame & Hsome & Hnone).
  destruct (cached_storage_at k acc) as [r acc']. cbn [fst snd] in *.
  pose proof (quiet_checkpoint s j c a e acc acc' Hs Hj Ha Hacc Hsame) as Hq. unfold bind, modify.
  destruct r as [v|].
  { exists (Found v). eexists. split_and!; [done|exact Hq|by apply Hsome]. }
  destruct (Hnone eq_refl) as [Hch Hr].
  destruct (state_original_storage_root_ok _ a (proj1 Hq)) as (root' & s2 & -> & Hq2 & Hroot & _).
  cbn [fmap option_fmap option_map] in Ho. rewrite (base_is_original a acc (Hok _ Hacc) Hr) in Ho.
  unfold base_storage_root. rewrite (same_storage_root entries codes db disk _ _ _ Hsame).
  change (root' = original_root (snd (views s a))) in Hroot.
  replace (a_storage_root acc =? root') with true by (symmetry; apply Z.eqb_eq; congruence).
  eexists _, s2. split_and!; [done|by eapply quiet_trans|].
  rewrite value_original, <- Ho. cbn. unfold core_storage. cbn. by rewrite Hch.
Qed.

Lemma search_ok s j a k Ej : state_inv s -> uniform s -> levels s !! j = Some Ej ->
  exists kind s', search_checkpoints a k (st_checkpoints s) j s = Ret kind s' /\ quiet s s' /\
    kind_ok s Ej a k kind.
Proof.
  intros Hs Hu. revert Ej. induction j as [|j IH]; intros Ej Hl;
    destruct (level_lookup codes disk _ _ _ _ (si_chain _ Hs) Hl) as (c & Ep & Hj & HE & Hd & Hp);
    pose proof Hu as Hu'; unfold uniform in Hu'; rewrite Forall_lookup in Hu'; specialize (Hu' _ _ Hl a);
    cbn [search_checkpoints]; unfold bind, expect; rewrite Hj; cbn;
    destruct (c !! a) as [[e|]|] eqn:Ha;
    try (eapply recorded_kind_ok; [done..| |done]; rewrite HE; unfold restore; by rewrite Ha).
  - eexists _, s. split_and!; [done|by apply quiet_refl|]. unfold kind_ok. rewrite value_original, <- Hu'.
    rewrite HE. unfold restore. rewrite Ha, Hd by by rewrite Ha. cbn. by rewrite value_disk.
  - eexists _, s. split_and!; [done|by apply quiet_refl|]. cbn. rewrite HE. unfold restore.
    rewrite Ha. by subst.
  - eexists _, s. split_and!; [done|by apply quiet_refl|]. unfold kind_ok. rewrite value_original, <- Hu'.
    rewrite HE. unfold restore. rewrite Ha, Hd by by rewrite Ha. cbn. by rewrite value_disk.
  - destruct (IH Ep Hp) as (kind & s' & -> & Hq & Hk). exists kind, s'. split_and!; [done..|].
    unfold kind_ok in *. rewrite HE. unfold restore. by rewrite Ha.
Qed.

Lemma checkpoint_storage_ok s i a k : state_inv s -> uniform s -> 0 <= i ->
  exists s', checkpoint_storage_at i a k s =
    Ret (if i <? zlen (levels s) then (fun E => value_of (core_storage db) a k (snd (E a))) <$>
           levels s !! Z.to_nat (zlen (levels s) - 1 - i) else None) s' /\ quiet s s'.
Proof.
  intros Hs Hu Hi. assert (Hlen : zlen (st_checkpoints s) = zlen (levels s)) by (unfold zlen; by rewrite levels_length).
  unfold checkpoint_storage_at, bind, get. rewrite Hlen. case_bool.
  { exists s. split; [|by apply quiet_refl]. by replace (i <? zlen (levels s)) with false by lia. }
  replace (i <? zlen (levels s)) with true by lia.
  destruct (lookup_lt_is_Some_2 (levels s) (Z.to_nat (zlen (levels s) - 1 - i))) as [Ej HEj]; [unfold zlen in *; lia|].
  destruct (search_ok s _ a k Ej Hs Hu HEj) as (kind & s1 & -> & Hq & Hk).
  rewrite HEj. cbn. unfold kind_ok in Hk. destruct kind as [| |v].
  - destruct (state_original_storage_at_ok s1 a k (proj1 Hq)) as (s2 & -> & Hq2).
    exists s2. rewrite (proj1 (proj2 Hq)), Hk. split; [done|by eapply quiet_trans].
  - destruct (state_storage_at_ok s1 a k (proj1 Hq)) as (s2 & -> & Hq2).
    exists s2. rewrite (proj1 (proj2 Hq)), Hk. split; [done|by eapply quiet_trans].
  - exists s1. by rewrite Hk.
Qed.

Lemma checkpoint_storage_sim s w ws i a k : sim s (w, ws) -> 0 <= i ->
  exists s', checkpoint_storage_at i a k s =
    Ret (if i <? zlen ws then (fun w' => view_storage w' a k) <$> ws !! Z.to_nat (zlen ws - 1 - i) else None) s' /\
    sim s' (w, ws).
Proof.
  intros Hsim Hi. pose proof Hsim as (Hs & Hw & Hl & Hu). cbn in Hl.
  destruct (checkpoint_storage_ok s i a k Hs Hu Hi) as (s' & -> & Hq). exists s'. split; [|by eapply sim_quiet].
  assert (zlen (levels s) = zlen ws) as -> by (unfold zlen; by rewrite (Forall2_length _ _ _ Hl)). f_equal.
  destruct (i <? zlen ws); [|done]. destruct (levels s !! _) as [E|] eqn:HE.
  - destruct (Forall2_lookup_l _ _ _ _ _ Hl HE) as (w' & -> & Hj). cbn. f_equal. specialize (Hj a).
    unfold world_of in Hj. unfold view_storage. destruct (snd (E a)), (w' a); inversion Hj as [? ? Hv|]; [apply Hv|done].
  - destruct (ws !! _) as [w'|] eqn:Hw'; [|done]. destruct (Forall2_lookup_r _ _ _ _ _ Hl Hw') as (E & HE' & _). congruence.
Qed.

(** ** All operations *)

(** A query followed by the wrapping of its answer. *)
Lemma query_step {U} (m : M St trie_error U) (g : U -> answer) s u st :
  (exists s', m s = Ret u s' /\ sim s' st) ->
  exists s', (do r <- m in ret (g r)) s = Ret (g u) s' /\ sim s' st.
Proof. intros (s' & Hm & Hs). exists s'. unfold bind. by rewrite Hm. Qed.

Lemma update_step (m : M St trie_error unit) s st :
  (exists s', m s = Ret tt s' /\ sim s' st) ->
  exists s', (m ;;; ret AnsUnit) s = Ret AnsUnit s' /\ sim s' st.
Proof. intros (s' & Hm & Hs). exists s'. unfold bind. by rewrite Hm. Qed.

Lemma lookup_step s w ws (m : M St trie_error Z) z : sim s (w, ws) ->
  (exists s', m s = Ret z s' /\ quiet s s') -> exists s', m s = Ret z s' /\ sim s' (w, ws).
Proof. intros Hsim (s' & Hm & Hq). exists s'. split; [done|]. by eapply sim_quiet. Qed.

Lemma op_sim s st o ans st' : sim s st -> spec_op start o st = Some (ans, st') ->
  exists s', run_op o s = Ret ans s' /\ sim s' st'.
Proof.
  destruct st as [w ws]. intros Hsim Hop.
  destruct o; cbn in Hop |- *; try (injection Hop as <- <-; apply update_step); try injection Hop as <- <-.
  - destruct (checkpoint_sim s w ws Hsim) as [Hi Hs].
    unfold checkpoint in *. cbn in *. eexists. split; [by rewrite <- Hi|done].
  - eexists. split; [done|by apply discard_sim].
  - eexists. split; [done|by apply revert_sim].
  - by apply query_step, exists_sim.
  - apply query_step.
    apply (account_query_ok s w ws a _ _ _ (fun o => match o with Some v => negb (view_null v) | None => false end) Hsim);
      [|done].
    intros acc v (Hb & Hn & Hc & _). cbn in *. unfold is_null, view_null. by rewrite Hb, Hn, Hc.
  - apply query_step. unfold exists_and_has_code_or_nonce, bind, gets. rewrite (si_nonce _ (proj1 Hsim)).
    apply (account_query_ok s w ws a _ _ _ (fun o => match o with
      | Some v => negb (v_code_hash v =? KECCAK_EMPTY) || negb (v_nonce v =? start)
      | None => false end) Hsim); [|done].
    intros acc v (_ & Hn & Hc & _). cbn in *. by rewrite Hn, Hc.
  - apply query_step.
    apply (account_query_ok s w ws a _ _ _ (fun o => match o with Some v => v_balance v | None => 0 end) Hsim); [|done].
    by intros acc v (Hb & _).
  - apply query_step. unfold nonce, bind, gets. rewrite (si_nonce _ (proj1 Hsim)).
    apply (account_query_ok s w ws a _ _ _ (fun o => match o with Some v => v_nonce v | None => start end) Hsim); [|done].
    by intros acc v (_ & Hn & _).
  - apply query_step. apply (account_query_ok s w ws a _ _ _ (fun o => v_code_hash <$> o) Hsim); [|done].
    intros acc v (_ & _ & Hc & _). cbn in *. by rewrite Hc.
  - by apply query_step, code_sim.
  - rewrite <- (proj1 (view_storage_sim s w ws a k Hsim)).
    apply query_step, (lookup_step s w ws _ _ Hsim), state_storage_at_ok, Hsim.
  - rewrite <- (proj2 (view_storage_sim s w ws a k Hsim)).
    apply query_step, (lookup_step s w ws _ _ Hsim), state_original_storage_at_ok, Hsim.
  - destruct (0 <=? i) eqn:Hi; [|done]. injection Hop as <- <-.
    apply query_step, checkpoint_storage_sim; [done|lia].
  - pose proof (add_balance_sim s w ws a x mode Hsim) as H. destruct (spec_add_balance _ _ _ _ _).
    injection Hop as <- <-. by apply query_step.
  - destruct (spec_sub_balance start a x mode w) as [[m w']|] eqn:Hsub; [|done].
    injection Hop as <- <-. apply query_step. by eapply sub_balance_sim.
  - destruct (spec_sub_balance start from x mode w) as [[m w']|] eqn:Hsub; [|done]. cbn in Hop.
    pose proof (transfer_sim s w ws from to x mode m w' Hsim Hsub) as H.
    destruct (spec_add_balance _ _ _ _ _). injection Hop as <- <-. by apply query_step.
  - by apply inc_nonce_sim.
  - by apply set_storage_sim.
  - by apply init_code_sim.
  - destruct (_ && _) eqn:Hrange; [|done]. injection Hop as <- <-. apply update_step.
    apply new_contract_sim; [done|lia].
  - destruct ws as [|]; [|done]. injection Hop as <- <-. eexists. split; [done|by apply kill_sim].
Qed.

Lemma run_sim os s st xs st' : sim s st -> spec_run start os st = Some (xs, st') ->
  exists s', run os s = Ret xs s' /\ sim s' st'.
Proof.
  revert s st xs st'. induction os as [|o os IH]; intros s st xs st' Hsim; cbn.
  { intros [= <- <-]. by exists s. }
  destruct (spec_op start o st) as [[x st1]|] eqn:Hop; [|done]. cbn.
  destruct (spec_run start os st1) as [[xs2 st2]|] eqn:Hrun; [|done]. cbn. intros [= <- <-].
  destruct (op_sim s st o x st1 Hsim Hop) as (s1 & H1 & Hsim1).
  destruct (IH s1 st1 xs2 st2 Hsim1 Hrun) as (s2 & H2 & Hsim2).
  exists s2. unfold bind. by rewrite H1, H2.
Qed.

(** A query of which the account's answer is all that is known. *)
Lemma plain_query_ok {U} s st a req cn (f : option (Account L) -> U) (P : U -> Prop) : sim s st ->
  (forall acc, account_ok a acc -> P (f (Some acc))) -> P (f None) ->
  exists r s', ensure_cached a req cn f s = Ret r s' /\ sim s' st /\ P r.
Proof.
  intros Hsim Hsome Hnone.
  destruct (ensure_cached_ok s a req cn f (proj1 Hsim)) as (oacc & s' & -> & Hq & _ & Hok).
  eexists _, s'. split; [done|]. split; [by eapply sim_quiet|].
  destruct oacc as [acc|]; [by apply Hsome, Hok|done].
Qed.

Lemma state_laws : StateLaws start sim.
Proof.
  split.
  - intros s st o ans st'. apply op_sim.
  - intros s w ws a. apply code_size_sim.
  - intros s st a Hsim. unfold state_is_base_storage_root_unchanged, bind.
    destruct (plain_query_ok s st a RequireNone true (fun a => is_base_storage_root_unchanged <$> a)
      (fun _ => True) Hsim) as (r & s' & -> & Hs & _); [done..|]. eauto.
  - intros s w w' ws (Hs & Hw & Hl & Hu) He. split_and!; try done.
    intros a. etrans; [apply Hw|apply He].
  - intros s w ws a e acc (_ & Hw & _) He Hacc. specialize (Hw a). cbn in Hw.
    unfold world_of, views, cache_view in Hw. rewrite He in Hw. cbn in Hw. rewrite Hacc in Hw. cbn in Hw.
    destruct (w a) as [v|]; inversion Hw as [? ? (Hb & Hn & Hc & _)|]; subst. exists v. by split_and!.
Qed.

(** A freshly opened state shows the accounts of the database. *)
Lemma from_existing_sim b : BInv b ->
  exists s, from_existing b root start = inl s /\ sim s (disk_world codes db disk, []).
Proof.
  intros Hb. unfold from_existing. rewrite (bl_db entries codes db disk b Hb), (dc_root _ _ _ _ Hdb).
  eexists. split; [done|]. split_and!; [| |constructor|constructor].
  - split; try done. by repeat constructor.
  - intros a. unfold world_of, views, cache_view. cbn. by rewrite lookup_empty.
Qed.

End Refine.
