(* ===== verification/StateTheorems.v ===== *)
(** * Theorems about the state

    The specification of the state is met on every database that is complete. [MemDb] is one
    to run it on: it keeps every version of every trie under its own root, as a
    content-addressed store does; roots are numbered. The theorems about the state are applied
    to concrete accounts in it. *)

From S2P Require Import Prelude MemoryCache Account State StateSpec StateAccounts StateViews StateRefine.
From stdpp Require Import base numbers option gmap list.

Open Scope Z_scope.
Open Scope origo_scope.

(** ** A database *)

Record MemDb : Type := mkMemDb {
  md_tries : gmap Z (gmap Z BasicAccount);
  md_storage : gmap (Z * Z) (gmap Z Z);
  md_codes : gmap (Z * Z) bytes;
  md_next : Z;
}.

(** The storage trie of an address hash at a root; the empty root is always present. *)
Definition md_storage_trie (d : MemDb) (ah root : Z) : option (gmap Z Z) :=
  if root =? KECCAK_NULL_RLP then Some ∅ else md_storage d !! (ah, root).

Definition md_put_trie (d : MemDb) (t : gmap Z BasicAccount) : MemDb * Z :=
  (mkMemDb (<[md_next d := t]> (md_tries d)) (md_storage d) (md_codes d) (md_next d + 1), md_next d).

Definition md_put_storage (d : MemDb) (ah : Z) (t : gmap Z Z) : MemDb * Z :=
  (mkMemDb (md_tries d) (<[(ah, md_next d) := t]> (md_storage d)) (md_codes d) (md_next d + 1), md_next d).

#[export] Instance MemDb_HashDb : HashDb MemDb := {
  db_contains d root := bool_decide (is_Some (md_tries d !! root));
  storage_contains d ah root := bool_decide (is_Some (md_storage_trie d ah root));
  trie_account d root a :=
    Some (match md_tries d !! root with Some t => inl (t !! a) | None => inr (InvalidStateRoot root) end);
  trie_account_insert d root a b :=
    match md_tries d !! root with
    | Some t => inl (md_put_trie d (<[a := b]> t))
    | None => inr (InvalidStateRoot root)
    end;
  trie_account_remove d root a :=
    match md_tries d !! root with
    | Some t => inl (md_put_trie d (delete a t))
    | None => inr (InvalidStateRoot root)
    end;
  trie_storage d ah root k :=
    Some (match md_storage_trie d ah root with
          | Some t => inl (t !! k)
          | None => inr (InvalidStateRoot root)
          end);
  trie_storage_insert d ah root k v :=
    match md_storage_trie d ah root with
    | Some t => inl (md_put_storage d ah (<[k := v]> t))
    | None => inr (InvalidStateRoot root)
    end;
  trie_storage_remove d ah root k :=
    match md_storage_trie d ah root with
    | Some t => inl (md_put_storage d ah (delete k t))
    | None => inr (InvalidStateRoot root)
    end;
  code_get d ah h := md_codes d !! (ah, h);
  code_emplace d ah h c := mkMemDb (md_tries d) (md_storage d) (<[(ah, h) := c]> (md_codes d)) (md_next d);
}.

(** A hash for tests: the value of the bytes, with the right value for no bytes. *)
Definition test_keccak : Keccak := fun b =>
  match b with [] => KECCAK_EMPTY | _ => be_value b mod U256_MOD end.

(** Account 1 holds 100 units and a storage cell, account 2 holds 7 units. *)
Definition test_accounts : gmap Z BasicAccount :=
  {[ 1 := mkBasicAccount 0 100 5 KECCAK_EMPTY;
     2 := mkBasicAccount 3 7 KECCAK_NULL_RLP KECCAK_EMPTY ]}.

Definition test_db : MemDb :=
  mkMemDb {[ 9 := test_accounts ]} {[ (1, 5) := {[ 10 := 42 ]} ]} ∅ 10.

Lemma basic_laws {L : Type} {LC : LruCache L Z Z} {K : Keccak} (entries : L -> list (Z * Z))
    {D : Type} {DB : HashDb D} (codes : Z -> bytes) (db : D) (disk : Z -> option BasicAccount) :
  BackendLaws (L := L) entries codes db disk (fun b : Basic D => basic_db b = db).
Proof. split; cbn; intros; simplify_eq; try done. by eexists. Qed.

Lemma test_db_complete codes : @db_complete test_keccak _ _ codes test_db 9 (fun a => test_accounts !! a).
Proof.
  split.
  - reflexivity.
  - intros a. reflexivity.
  - intros a b k. unfold test_accounts. rewrite lookup_insert_Some, lookup_singleton_Some.
    intros [[<- <-]|[_ [<- <-]]]; cbn; by eexists.
  - intros a b. unfold test_accounts. rewrite lookup_insert_Some, lookup_singleton_Some.
    by intros [[<- <-]|[_ [<- <-]]].
Qed.

(** ** Refinement *)

(** C1: the state with its account caches, storage caches and checkpoints of recorded entries
    behaves as a stack of snapshots of all accounts. Opened on a complete database, with any
    backend that serves the same accounts, it answers every sequence of operations
    (balances, nonces, codes, storage reads and writes, transfers, contract creation, nested
    checkpoints with revert and discard, storage at a checkpoint) as the specification
    does, with no panic and no error where the specification has an answer. *)
Theorem state_refines_snapshots {L : Type} {LC : LruCache L Z Z} {K : Keccak}
    (entries : L -> list (Z * Z)) (laws : LruCacheLaws entries)
    {D B : Type} {DB : HashDb D} {BE : Backend B D (Account L)}
    (codes : Z -> bytes) (db : D) (root : Z) (disk : Z -> option BasicAccount) (start : Z)
    (Hdb : db_complete codes db root disk) (Hempty : keccak [] = KECCAK_EMPTY)
    (BInv : B -> Prop) (BL : BackendLaws entries codes db disk BInv)
    (b : B) (Hb : BInv b) (os : list op) (xs : list answer)
    (Hspec : fst <$> spec_run start os (disk_world codes db disk, []) = Some xs) :
  exists s s', from_existing b root start = inl s /\ run (L := L) os s = Ret xs s'.
Proof.
  destruct (spec_run start os (disk_world codes db disk, [])) as [[xs' st]|] eqn:Hrun; [|done]. injection Hspec as <-.
  destruct (from_existing_sim entries _ db root disk start Hdb BInv b Hb) as (s & Hs & Hsim).
  destruct (run_sim entries codes db root disk start Hdb Hempty BInv os s _ _ st Hsim Hrun) as (s' & Hrun' & _).
  eauto.
Qed.

(** A transfer and a storage write under two nested checkpoints, the inner one reverted and
    the outer one discarded. *)
Definition sample_ops : list op :=
  [OpStorageAt 1 10; OpCheckpoint; OpTransfer 1 2 30 NoEmpty; OpSetStorage 1 10 43; OpCheckpoint;
   OpNewContract 1 5 0; OpStorageAt 1 10; OpOriginalStorageAt 1 10; OpCheckpointStorageAt 0 1 10;
   OpCheckpointStorageAt 1 1 10; OpInitCode 1 [96; 0]; OpCode 1; OpRevert; OpCode 1; OpStorageAt 1 10; OpDiscard; OpBalance 1; OpBalance 2].

Lemma state_refines_snapshots_witness :
  exists s s', from_existing (L := ListLru.t Z Z) (mkBasic test_db) 9 0 = inl s /\
    run (K := test_keccak) sample_ops s =
      Ret [AnsZ 42; AnsZ 0; AnsMode NoEmpty; AnsUnit; AnsZ 1; AnsUnit; AnsZ 0; AnsZ 42;
           AnsHash (Some 42); AnsHash (Some 43); AnsUnit; AnsCode (Some [96; 0]); AnsUnit; AnsCode (Some []); AnsZ 43; AnsUnit; AnsZ 70; AnsZ 37] s'.
Proof.
  eapply (state_refines_snapshots (K := test_keccak) ListLru.pairs _ (fun _ => []) test_db 9 (fun a => test_accounts !! a) 0
    (test_db_complete _) eq_refl _ (basic_laws ListLru.pairs _ test_db _) (mkBasic test_db) eq_refl sample_ops).
  vm_compute. reflexivity.
Defined.
