(* ===== verification/Worlds.v ===== *)
(** * Well-formed worlds

    The accounts of a world are at addresses, their words are words, and every operation of
    the state specification keeps them so. *)

From S2P Require Import Prelude Vm MemoryCache Account State StateSpec.
From stdpp Require Import base numbers option gmap list.

Open Scope Z_scope.

Record view_ok (v : account_view) : Prop := {
  vo_balance : is_u256 (v_balance v);
  vo_nonce : is_u256 (v_nonce v);
  vo_code_hash : is_u256 (v_code_hash v);
  vo_code : vec_ok (v_code v);
  vo_storage : forall k, is_u256 (v_storage v k);
  vo_original : forall k, is_u256 (v_original v k);
}.

Definition world_ok (w : world) : Prop := forall a v, w a = Some v -> is_address a /\ view_ok v.

Lemma vec_ok_nil : vec_ok [].
Proof. by split; [constructor|]. Qed.
#[export] Hint Resolve vec_ok_nil : core.

(** The balance of an account, which may not exist. *)
Definition balance_of (w : world) (a : Z) : Z := match w a with Some v => v_balance v | None => 0 end.

Lemma balance_ok w a : world_ok w -> is_u256 (balance_of w a).
Proof. intros Hw. unfold balance_of. destruct (w a) eqn:Ha; [by apply (Hw a)|range_lia]. Qed.

Lemma view_storage_ok w a k : world_ok w -> is_u256 (view_storage w a k).
Proof. intros Hw. unfold view_storage. destruct (w a) eqn:Ha; [by apply (Hw a)|range_lia]. Qed.

Lemma view_original_ok w a k : world_ok w -> is_u256 (view_original w a k).
Proof. intros Hw. unfold view_original. destruct (w a) eqn:Ha; [by apply (Hw a)|range_lia]. Qed.

Lemma world_ok_upd w a o : world_ok w -> (forall v, o = Some v -> is_address a /\ view_ok v) -> world_ok (upd a o w).
Proof. intros Hw Ho b v. unfold upd. destruct (Z.eqb_spec b a) as [->|]; [apply Ho|apply Hw]. Qed.

Lemma world_ok_equiv w w' : w ≡ w' -> world_ok w' -> world_ok w.
Proof.
  intros He Hw a v Hv. specialize (He a). rewrite Hv in He.
  destruct (w' a) as [v'|] eqn:Hv'; inversion He as [? ? (Hb & Hn & Hc & Hcd & Hs & Ho)|]; subst.
  destruct (Hw a v' Hv') as [Ha []]. split; [done|]. split; congruence || (intros k; rewrite ?Hs, ?Ho; auto).
Qed.

Lemma is_u256_saturating a x : is_u256 a -> 0 <= x -> is_u256 (u256_saturating_add a x).
Proof. unfold u256_saturating_add. range_lia. Qed.

(** The arguments of operations are words, and accounts are written at addresses. *)
Definition op_words (o : op) : Prop :=
  match o with
  | OpAddBalance a x _ | OpSubBalance a x _ => is_address a /\ 0 <= x
  | OpTransfer from to x _ => is_address from /\ is_address to /\ 0 <= x
  | OpIncNonce a => is_address a
  | OpSetStorage a _ v => is_address a /\ is_u256 v
  | OpInitCode a code => is_address a /\ vec_ok code
  | OpNewContract a b _ => is_address a /\ is_u256 b
  | _ => True
  end.

Section Worlds.
Context {K : Keccak} (HK : forall b, is_u256 (keccak b)) (start : Z) (Hstart : is_u256 start).

Lemma require_view_ok w a : world_ok w -> view_ok (require_view start w a).
Proof.
  intros Hw. unfold require_view. destruct (w a) eqn:Ha; [by apply (Hw a)|].
  split; cbn; auto; unfold KECCAK_EMPTY; range_lia.
Qed.

Lemma view_update_ok w a f : world_ok w -> is_address a -> (forall v, view_ok v -> view_ok (f v)) ->
  world_ok (view_update start w a f).
Proof.
  intros Hw Ha Hf. apply world_ok_upd; [done|]. intros v [= <-]. split; [done|]. by apply Hf, require_view_ok.
Qed.

Lemma add_balance_world_ok a x mode w : world_ok w -> is_address a -> 0 <= x ->
  world_ok (snd (spec_add_balance start a x mode w)).
Proof.
  intros Hw Ha Hx. unfold spec_add_balance. destruct (_ || _); [|by destruct (view_exists w a)].
  apply view_update_ok; [done..|]. intros v []. split; try done. by apply is_u256_saturating.
Qed.

Lemma sub_balance_world_ok a x mode w m w' : world_ok w -> is_address a -> 0 <= x ->
  spec_sub_balance start a x mode w = Some (m, w') -> world_ok w'.
Proof.
  intros Hw Ha Hx. unfold spec_sub_balance. destruct (_ || _); [|by intros [= _ <-]].
  destruct (Z.leb_spec x (v_balance (require_view start w a))); [|done]. intros [= _ <-].
  apply world_ok_upd; [done|]. intros v [= <-]. split; [done|].
  destruct (require_view_ok w a Hw). split; try done. cbn. range_lia.
Qed.

(** Balances after a credit and a debit. *)
Lemma balance_of_add a x mode w b : world_ok w ->
  balance_of (snd (spec_add_balance start a x mode w)) b =
    if b =? a then u256_saturating_add (balance_of w a) x else balance_of w b.
Proof.
  intros Hw. pose proof (balance_ok w a Hw) as Hb. unfold spec_add_balance.
  destruct (negb (x =? 0) || _) eqn:Hx.
  - unfold balance_of at 1, view_update, upd. cbn. destruct (b =? a); [|done].
    unfold require_view, balance_of. by destruct (w a).
  - assert (Hx0 : x = 0) by (destruct (Z.eqb_spec x 0); [done|]; done).
    assert (Hsame : balance_of w b = if b =? a then u256_saturating_add (balance_of w a) x else balance_of w b).
    { destruct (Z.eqb_spec b a) as [->|]; [|done]. unfold u256_saturating_add. range_lia. }
    by destruct (view_exists w a).
Qed.

Lemma balance_of_sub a x mode w m w' b : spec_sub_balance start a x mode w = Some (m, w') ->
  balance_of w' b = balance_of w b - (if b =? a then x else 0).
Proof.
  unfold spec_sub_balance. destruct (negb (x =? 0) || _) eqn:Hx.
  - destruct (x <=? _); [|done]. intros [= _ <-]. unfold balance_of at 1, view_update, upd. cbn.
    destruct (Z.eqb_spec b a) as [->|]; [|unfold balance_of; lia].
    unfold require_view, balance_of. by destruct (w a).
  - assert (x = 0) as -> by (destruct (Z.eqb_spec x 0); [done|]; done). intros [= _ <-]. destruct (b =? a); lia.
Qed.

Lemma spec_op_world_ok o w ws x w' ws' : world_ok w -> Forall world_ok ws -> op_words o ->
  spec_op start o (w, ws) = Some (x, (w', ws')) -> world_ok w' /\ Forall world_ok ws'.
Proof.
  intros Hw Hws Ho. destruct o; cbn in Ho |- *; try (intros [= <- <- <-]; done).
  - intros [= <- <- <-]. by split; [|constructor].
  - intros [= <- <- <-]. split; [done|]. destruct Hws; [constructor|done].
  - destruct Hws; intros [= <- <- <-]; by split.
  - destruct (0 <=? i); [|done]. by intros [= <- <- <-].
  - pose proof (add_balance_world_ok a x0 mode w Hw (proj1 Ho) (proj2 Ho)) as H.
    destruct (spec_add_balance start a x0 mode w). by intros [= <- <- <-].
  - destruct (spec_sub_balance start a x0 mode w) as [[m w1]|] eqn:Hsub; [|done]. intros [= <- <- <-].
    split; [|done]. destruct Ho. by eapply sub_balance_world_ok.
  - destruct (spec_sub_balance start from x0 mode w) as [[m w1]|] eqn:Hsub; [|done].
    destruct Ho as (Hfrom & Hto & Hx). apply sub_balance_world_ok in Hsub; [|done..]. cbn.
    pose proof (add_balance_world_ok to x0 m w1 Hsub Hto Hx) as H.
    destruct (spec_add_balance start to x0 m w1). by intros [= <- <- <-].
  - intros [= <- <- <-]. split; [|done]. apply view_update_ok; [done..|].
    intros v []. split; try done. by apply is_u256_saturating.
  - intros [= <- <- <-]. split; [|done]. destruct (view_storage w a k =? v); [done|].
    destruct Ho. apply view_update_ok; [done..|]. intros u []. split; try done.
    intros k'. cbn. unfold upd. by destruct (k' =? k).
  - intros [= <- <- <-]. split; [|done]. destruct Ho. apply view_update_ok; [done..|].
    intros v []. split; try done. apply HK.
  - destruct (_ && _) eqn:Hr; [|done]. intros [= <- <- <-]. split; [|done].
    destruct Ho. apply world_ok_upd; [done|]. intros v [= <-]. split; [done|]. split; cbn; try done; unfold KECCAK_EMPTY; try range_lia.
    intros k. by apply view_original_ok.
  - destruct ws; [|done]. intros [= <- <- <-]. split; [|done]. by apply world_ok_upd.
Qed.

End Worlds.
