(* ===== verification/WorldLogic.v ===== *)
(** * The state in terms of worlds

    What each method of the state does, for the code that uses it: from a state that shows
    the world [w] over the snapshots [ws] it returns without error and shows a world again.
    Proved from [StateLaws] alone. *)

From S2P Require Import Prelude Vm MemoryCache Account State StateSpec Worlds.
From stdpp Require Import base numbers option gmap list.

Open Scope Z_scope.
Open Scope origo_scope.

Section WorldLogic.
Context {L : Type} {LC : LruCache L Z Z} {K : Keccak} (HK : forall b, is_u256 (keccak b)).
Context {D B : Type} {DB : HashDb D} {BE : Backend B D (Account L)}.
Context (start : Z) (Hstart : is_u256 start).
Local Abbreviation St := (State L B).
Context (sim : St -> world * list world -> Prop) {SL : StateLaws start sim}.

(** [does m w ws Q]: run on [w] over [ws], the method [m] returns [a] and leaves [w'] over
    [ws] with [Q a w']. *)
Definition does {A} (m : M St trie_error A) (w : world) (ws : list world) (Q : A -> world -> Prop) : Prop :=
  forall s, sim s (w, ws) ->
    exists a s' w', m s = Ret a s' /\ sim s' (w', ws) /\ world_ok w' /\ Q a w'.

Lemma does_mono {A} (m : M St trie_error A) w ws (Q Q' : A -> world -> Prop) :
  does m w ws Q -> (forall a w', world_ok w' -> Q a w' -> Q' a w') -> does m w ws Q'.
Proof. intros Hm HQ s Hs. destruct (Hm s Hs) as (a & s' & w' & ? & ? & ? & ?). exists a, s', w'. auto. Qed.

Lemma does_ret {A} (a : A) w ws (Q : A -> world -> Prop) : world_ok w -> Q a w -> does (ret a) w ws Q.
Proof. intros Hw HQ s Hs. by exists a, s, w. Qed.

Lemma does_bind {A A'} (m : M St trie_error A) (k : A -> M St trie_error A') w ws Q :
  does m w ws (fun a w' => does (k a) w' ws Q) -> does (bind m k) w ws Q.
Proof.
  intros Hm s Hs. destruct (Hm s Hs) as (a & s' & w' & Hr & Hs' & _ & Hk).
  destruct (Hk s' Hs') as (a' & s2 & w2 & Hr2 & ?). exists a', s2, w2. unfold bind. by rewrite Hr.
Qed.

(** A method of which [run_op] wraps the answer. *)
Lemma does_op {A} (m : M St trie_error A) (g : A -> answer) o w ws a w' (Q : A -> world -> Prop) :
  run_op o = (do r <- m in ret (g r)) -> (forall x y, g x = g y -> x = y) ->
  op_words o -> world_ok w ->
  spec_op start o (w, []) = Some (g a, (w', [])) ->
  spec_op start o (w, ws) = Some (g a, (w', ws)) ->
  Q a w' -> does m w ws Q.
Proof.
  intros Hrun Hg Hwords Hw Hspec0 Hspec HQ s Hs.
  destruct (sl_op s _ o _ _ Hs Hspec) as (s' & Hr & Hs'). rewrite Hrun in Hr.
  exists a, s', w'. split_and!; [|done| |done].
  - unfold bind, ret in Hr. destruct (m s) as [a' s1|e s1|]; [|done|done].
    injection Hr as Ha ->. by rewrite (Hg _ _ Ha).
  - by destruct (spec_op_world_ok HK start Hstart o w [] _ _ _ Hw (Forall_nil_2 _) Hwords Hspec0).
Qed.

Context (w : world) (ws : list world) (Hw : world_ok w).

Lemma does_exists a (Q : bool -> world -> Prop) : Q (view_exists w a) w -> does (exists_ a) w ws Q.
Proof. intros HQ. by eapply (does_op _ AnsBool (OpExists a)); [..|exact HQ]; try done; intros x y [=]. Qed.

Lemma does_exists_and_not_null a (Q : bool -> world -> Prop) :
  (forall b, Q b w) -> does (exists_and_not_null a) w ws Q.
Proof. intros HQ. by eapply (does_op _ AnsBool (OpExistsNotNull a)); [..|apply HQ]; try done; intros x y [=]. Qed.

Definition has_code_or_nonce (a : Z) : bool :=
  match w a with
  | Some v => negb (v_code_hash v =? KECCAK_EMPTY) || negb (v_nonce v =? start)
  | None => false
  end.

Lemma does_has_code_or_nonce a (Q : bool -> world -> Prop) :
  Q (has_code_or_nonce a) w -> does (exists_and_has_code_or_nonce a) w ws Q.
Proof. intros HQ. by eapply (does_op _ AnsBool (OpHasCodeOrNonce a)); [..|exact HQ]; try done; intros x y [=]. Qed.

Lemma does_balance a (Q : Z -> world -> Prop) : Q (balance_of w a) w -> does (balance a) w ws Q.
Proof. intros HQ. by eapply (does_op _ AnsZ (OpBalance a)); [..|exact HQ]; try done; intros x y [=]. Qed.

Definition nonce_of (a : Z) : Z := match w a with Some v => v_nonce v | None => start end.

Lemma does_nonce a (Q : Z -> world -> Prop) : Q (nonce_of a) w -> does (nonce a) w ws Q.
Proof. intros HQ. by eapply (does_op _ AnsZ (OpNonce a)); [..|exact HQ]; try done; intros x y [=]. Qed.

Lemma does_code_hash a (Q : option Z -> world -> Prop) :
  Q (v_code_hash <$> w a) w -> does (state_code_hash a) w ws Q.
Proof. intros HQ. by eapply (does_op _ AnsHash (OpCodeHash a)); [..|exact HQ]; try done; intros x y [=]. Qed.

Lemma does_storage_at a k (Q : Z -> world -> Prop) :
  Q (view_storage w a k) w -> does (state_storage_at a k) w ws Q.
Proof. intros HQ. by eapply (does_op _ AnsZ (OpStorageAt a k)); [..|exact HQ]; try done; intros x y [=]. Qed.

Lemma does_add_balance a x mode (Q : CleanupMode -> world -> Prop) : is_address a -> 0 <= x ->
  Q (fst (spec_add_balance start a x mode w)) (snd (spec_add_balance start a x mode w)) ->
  does (state_add_balance a x mode) w ws Q.
Proof.
  intros Ha Hx HQ. eapply (does_op _ AnsMode (OpAddBalance a x mode)); [..|exact HQ]; try done.
  - by intros y z [=].
  - cbn. by destruct (spec_add_balance start a x mode w).
  - cbn. by destruct (spec_add_balance start a x mode w).
Qed.

Lemma does_sub_balance a x mode m w' (Q : CleanupMode -> world -> Prop) : is_address a -> 0 <= x ->
  spec_sub_balance start a x mode w = Some (m, w') -> Q m w' ->
  does (state_sub_balance a x mode) w ws Q.
Proof.
  intros Ha Hx Hsub HQ. eapply (does_op _ AnsMode (OpSubBalance a x mode)); [..|exact HQ]; try done.
  - by intros y z [=].
  - cbn. by rewrite Hsub.
  - cbn. by rewrite Hsub.
Qed.

Lemma does_transfer from to x mode m w' (Q : CleanupMode -> world -> Prop) : is_address from -> is_address to -> 0 <= x ->
  spec_sub_balance start from x mode w = Some (m, w') ->
  Q (fst (spec_add_balance start to x m w')) (snd (spec_add_balance start to x m w')) ->
  does (transfer_balance from to x mode) w ws Q.
Proof.
  intros Hf Ht Hx Hsub HQ. eapply (does_op _ AnsMode (OpTransfer from to x mode)); [..|exact HQ]; try done.
  - by intros y z [=].
  - cbn. rewrite Hsub. cbn. by destruct (spec_add_balance start to x m w').
  - cbn. rewrite Hsub. cbn. by destruct (spec_add_balance start to x m w').
Qed.

(** A balance that covers the amount can be charged. *)
Lemma sub_balance_funded a x mode : x <= balance_of w a ->
  exists m w', spec_sub_balance start a x mode w = Some (m, w').
Proof.
  intros Hx. unfold spec_sub_balance. destruct (_ || _); [|eauto].
  replace (v_balance (require_view start w a)) with (balance_of w a)
    by (unfold require_view, balance_of; by destruct (w a)).
  rewrite (proj2 (Z.leb_le _ _) Hx). eauto.
Qed.

(** The world in which the nonce of [a] is one more. *)
Definition next_nonce (a : Z) : world :=
  view_update start w a (fun v =>
    mkView (v_balance v) (u256_saturating_add (v_nonce v) 1) (v_code_hash v) (v_code v) (v_storage v) (v_original v)).

Lemma balance_of_next_nonce a b : balance_of (next_nonce a) b = balance_of w b.
Proof.
  unfold next_nonce, balance_of, view_update, upd. destruct (Z.eqb_spec b a) as [->|]; [|done].
  cbn. unfold require_view. by destruct (w a).
Qed.

Lemma does_next_nonce a (Q : unit -> world -> Prop) : is_address a -> Q tt (next_nonce a) -> does (state_inc_nonce a) w ws Q.
Proof.
  intros Ha HQ. eapply (does_op _ (fun _ => AnsUnit) (OpIncNonce a) w ws tt); [..|apply HQ]; try done.
  by intros [] [].
Qed.

Lemma does_inc_nonce a (Q : unit -> world -> Prop) : is_address a ->
  (forall w', (forall b, balance_of w' b = balance_of w b) -> Q tt w') -> does (state_inc_nonce a) w ws Q.
Proof. intros Ha HQ. apply does_next_nonce; [done|]. apply HQ, balance_of_next_nonce. Qed.

Lemma does_set_storage a k x (Q : unit -> world -> Prop) : is_address a -> is_u256 x ->
  (forall w', Q tt w') -> does (state_set_storage a k x) w ws Q.
Proof.
  intros Ha Hx HQ. eapply (does_op _ (fun _ => AnsUnit) (OpSetStorage a k x) w ws tt); [..|apply HQ]; try done.
  by intros [] [].
Qed.

Lemma does_init_code a c (Q : unit -> world -> Prop) : is_address a -> vec_ok c ->
  (forall w', Q tt w') -> does (state_init_code a c) w ws Q.
Proof.
  intros Ha Hc HQ. eapply (does_op _ (fun _ => AnsUnit) (OpInitCode a c) w ws tt); [..|apply HQ]; try done.
  by intros [] [].
Qed.

Lemma does_new_contract a b off (Q : unit -> world -> Prop) : is_address a -> is_u256 b -> 0 <= start + off < U256_MOD ->
  Q tt (upd a (Some (view_new b (start + off) (view_original w a))) w) -> does (state_new_contract a b off) w ws Q.
Proof.
  intros Ha Hb Hoff HQ.
  eapply (does_op _ (fun _ => AnsUnit) (OpNewContract a b off) w ws tt); [..|apply HQ]; try done.
  - by intros [] [].
  - cbn. replace (_ && _) with true by lia. done.
  - cbn. replace (_ && _) with true by lia. done.
Qed.

(** Codes and roots. *)
Lemma does_code a (Q : option bytes -> world -> Prop) : Q (v_code <$> w a) w -> does (state_code a) w ws Q.
Proof. intros HQ. by eapply (does_op _ AnsCode (OpCode a)); [..|exact HQ]; try done; intros x y [=]. Qed.

(** The code is a vector. *)
Lemma does_some_code a (Q : option bytes -> world -> Prop) :
  (forall r, (forall c, r = Some c -> vec_ok c) -> Q r w) -> does (state_code a) w ws Q.
Proof.
  intros HQ. apply does_code, HQ. intros c. destruct (w a) eqn:Ha; [|done]. intros [= <-]. by apply (Hw a).
Qed.

Lemma does_code_size a (Q : option Z -> world -> Prop) :
  (forall r, default 0 r = match w a with Some v => zlen (v_code v) | None => 0 end -> Q r w) ->
  does (state_code_size a) w ws Q.
Proof.
  intros HQ s Hs. destruct (sl_code_size s _ _ a Hs) as (r & s' & Hr & Hs' & Hc). exists r, s', w. auto.
Qed.

Lemma does_base_root a (Q : bool -> world -> Prop) :
  (forall b, Q b w) -> does (state_is_base_storage_root_unchanged a) w ws Q.
Proof.
  intros HQ s Hs. destruct (sl_base_root s _ a Hs) as (r & s' & Hr & Hs'). exists r, s', w. auto.
Qed.

Lemma does_checkpoint_storage_at i a k (Q : option Z -> world -> Prop) : 0 <= i ->
  Forall world_ok ws -> (forall r, (forall v, r = Some v -> is_u256 v) -> Q r w) ->
  does (checkpoint_storage_at i a k) w ws Q.
Proof.
  intros Hi Hws HQ s Hs.
  destruct (sl_op s _ (OpCheckpointStorageAt i a k)
    (AnsHash (if i <? zlen ws then (fun w' => view_storage w' a k) <$> ws !! Z.to_nat (zlen ws - 1 - i) else None))
    (w, ws) Hs) as (s' & Hr & Hs').
  { cbn. by rewrite (proj2 (Z.leb_le _ _) Hi). }
  cbn in Hr. unfold bind, ret in Hr. destruct (checkpoint_storage_at i a k s) as [r s1| |]; [|done|done].
  injection Hr as -> ->. eexists _, s', w. split_and!; [done|done|done|]. apply HQ. intros v.
  destruct (i <? zlen ws); [|done]. destruct (ws !! _) as [w'|] eqn:Hw'; [|done].
  intros [= <-]. apply view_storage_ok. rewrite Forall_forall in Hws. eapply Hws, list_elem_of_lookup_2, Hw'.
Qed.

End WorldLogic.

(** ** Removed accounts *)

Section Removed.
Context {L : Type} {LC : LruCache L Z Z} {K : Keccak}.
Context {D B : Type} {DB : HashDb D} {BE : Backend B D (Account L)}.
Context (start : Z) (sim : State L B -> world * list world -> Prop).
Context {SL : StateLaws start sim}.

(** The world without the accounts of a list. *)
Definition kill_all (l : list Z) (w : world) : world := fun a => if bool_decide (a ∈ l) then None else w a.

Lemma kill_all_ok l (v : world) : world_ok v -> world_ok (kill_all l v).
Proof. intros Hv a x. unfold kill_all. case_bool; [done|]. apply Hv. Qed.

Lemma kill_accounts_sim l s v : sim s (v, []) ->
  sim (foldl (fun s a => kill_account a s) s l) (kill_all l v, []).
Proof.
  revert s v. induction l as [|a l IH]; intros s v Hs; cbn.
  - eapply sl_world; [exact Hs|]. intros b. unfold kill_all. by rewrite bool_decide_eq_false_2 by set_solver.
  - destruct (sl_op s (v, []) (OpKill a) _ _ Hs eq_refl) as (s' & Hr & Hs'). cbn in Hr. injection Hr as <-.
    eapply sl_world; [exact (IH _ _ Hs')|]. intros b. unfold kill_all, upd.
    destruct (Z.eqb_spec b a) as [->|Hne].
    + rewrite (bool_decide_eq_true_2 (a ∈ a :: l)) by set_solver. by case_bool.
    + rewrite (bool_decide_ext (b ∈ a :: l) (b ∈ l)) by set_solver. done.
Qed.

(** Killed accounts have no account in the cache, the other entries stay. *)
Lemma kill_accounts_cache l (s : State L B) a e :
  st_cache (foldl (fun s a => kill_account a s) s l) !! a = Some e ->
  e_account e = None \/ (a ∉ l /\ st_cache s !! a = Some e).
Proof.
  revert s. induction l as [|b l IH]; intros s He; cbn in He; [right; split; [set_solver|done]|].
  destruct (IH _ He) as [?|[Hl Hs]]; [by left|].
  assert (Hk : st_cache (kill_account b s) = <[b := new_dirty None]> (st_cache s)).
  { unfold kill_account, insert_cache. cbn. unfold record. by destruct (st_checkpoints _). }
  rewrite Hk in Hs. destruct (decide (a = b)) as [->|Hne].
  - rewrite lookup_insert_eq in Hs. injection Hs as <-. by left.
  - rewrite lookup_insert_ne in Hs by done. right. split; [set_solver|done].
Qed.

(** [kill_garbage] leaves no entry in the cache that it would remove. *)
Lemma kill_garbage_clears touched ke mb kc (s : State L B) a e :
  st_cache (kill_garbage touched ke mb kc s) !! a = Some e -> is_garbage touched ke mb kc a e = false.
Proof.
  intros He. destruct (is_garbage touched ke mb kc a e) eqn:Hg; [|done].
  apply kill_accounts_cache in He as [Hn|[Hl Hs]].
  - unfold is_garbage, exists_and_is_null in Hg. rewrite Hn in Hg. destruct ke, mb; by rewrite andb_false_r in Hg.
  - destruct Hl. apply list_elem_of_omap. exists (a, e). split; [by apply elem_of_map_to_list|]. by rewrite Hg.
Qed.

(** [kill_garbage] removes touched accounts that are null, where empty ones are to be
    removed, or that hold less than the minimal balance. *)
Lemma kill_garbage_sim touched ke mb kc s v : sim s (v, []) -> exists l,
  sim (kill_garbage touched ke mb kc s) (kill_all l v, []) /\
  forall a, a ∈ l -> a ∈ touched /\ exists x, v a = Some x /\
    ((ke = true /\ view_null x = true) \/
     (exists m, mb = Some m /\ v_balance x < m /\ (v_code_hash x = KECCAK_EMPTY \/ kc = true))).
Proof.
  intros Hs. eexists. split; [by apply kill_accounts_sim|]. intros a Ha.
  apply list_elem_of_omap in Ha as ([a' e] & He & Hg). apply elem_of_map_to_list in He.
  destruct (is_garbage touched ke mb kc a' e) eqn:Hgarb; [|done]. injection Hg as ->.
  unfold is_garbage, exists_and_is_null in Hgarb. apply andb_true_iff in Hgarb as [Ht Hgarb].
  split; [by apply bool_decide_eq_true in Ht|].
  destruct (e_account e) as [acc|] eqn:Hacc; [|destruct mb, ke; done].
  destruct (sl_entry s v [] a e acc Hs He Hacc) as (x & Hx & Hb & Hn & Hc). exists x. split; [done|].
  apply orb_true_iff in Hgarb as [Hnull|Hdust].
  - left. apply andb_true_iff in Hnull as [-> Hnull]. split; [done|]. unfold view_null. by rewrite Hb, Hn, Hc.
  - right. destruct mb as [m|]; [|done]. exists m. split; [done|]. apply andb_true_iff in Hdust as [[Hbasic Hlt]%andb_true_iff _].
    rewrite Hb, Hc. split; [lia|]. destruct kc; [by right|]. left. rewrite orb_false_r in Hbasic. by apply Z.eqb_eq.
Qed.

End Removed.
