(* ===== verification/Transaction.v ===== *)
(** * Transactions

    [ethcore/types/src/transaction/transaction.rs]: actions and their encoding, the replay
    protection of signatures, transactions with a private part, and the checks that need no
    state ([verify_basic], [verify_private_tx_basic] and
    [EthereumMachine::verify_transaction_basic]).

    A computation that panics is [None]. RLP items and the recovery of public keys are
    parameters. *)

From S2P Require Import Prelude.
From stdpp Require Import base numbers option strings list.

Open Scope Z_scope.

(** [PRIVATE_EXECUTIVE_ADDRESS], [SYSTEM_ADDRESS] and [UNSIGNED_SENDER]. *)
Definition UNSIGNED_SENDER : Z := 0xffffffffffffffffffffffffffffffffffffffff.
Definition SYSTEM_ADDRESS : Z := 0xfffffffffffffffffffffffffffffffffffffffe.
Definition PRIVATE_EXECUTIVE_ADDRESS : Z := 0xfffffffffffffffffffffffffffffffffffffffd.

(** The words of a [U256] constant, least significant first. *)
Definition u256_words (w0 w1 w2 w3 : Z) : Z := w0 + U64_MOD * (w1 + U64_MOD * (w2 + U64_MOD * w3)).

Definition CONVERSION_FACTOR : Z := u256_words 0x3B9ACA00 0 0 0.
Definition MAX_VALUE_ALLOWED : Z := u256_words 0xFFFFFFFFC4653600 0x1DCD64FF 0 0.

(** ** Actions *)

Inductive Action : Type :=
| ActionCreate
| ActionCall (address : Z)
| ActionPrivateToPrivate
| ActionPublicToPrivate
| ActionPrivateCall (address : Z).

#[export] Instance Action_eq_dec : EqDecision Action.
Proof. solve_decision. Defined.

Definition is_input_private (a : Action) : bool :=
  match a with ActionPrivateToPrivate | ActionPrivateCall _ => true | _ => false end.

(** The crate [rlp]: items, and the readers and writers of values that are used here. *)
Inductive DecoderError : Type :=
| RlpInvalidLength
| RlpCustom (msg : string)
| RlpOther.

Class RlpCodec (R : Type) : Type := {
  rlp_is_empty : R -> bool;
  rlp_size : R -> Z;
  rlp_as_address : R -> Z + DecoderError;
  rlp_as_u8 : R -> Z + DecoderError;
  rlp_as_bytes : R -> bytes + DecoderError;
  rlp_of_str : string -> R;
  rlp_of_address : Z -> R;
  rlp_of_u8 : Z -> R;
  rlp_of_bytes : bytes -> R;
}.

Section Codec.
Context {R : Type} {RC : RlpCodec R}.

Definition INVALID_ACTION : DecoderError := RlpCustom "Invalid action.".

(** [impl rlp::Decodable for Action] *)
Definition action_decode (rlp : R) : option (Action + DecoderError) :=
  if rlp_is_empty rlp then Some (inl ActionCreate)
  else if rlp_size rlp =? 20 then
    Some match rlp_as_address rlp with inl a => inl (ActionCall a) | inr e => inr e end
  else if rlp_size rlp =? 1 then
    Some match rlp_as_u8 rlp with
         | inl b => if b =? 1 then inl ActionPrivateToPrivate
                    else if b =? 2 then inl ActionPublicToPrivate else inr INVALID_ACTION
         | inr e => inr e
         end
  else if rlp_size rlp =? 21 then
    match rlp_as_bytes rlp with
    | inl bytes =>
        b0 ← vec_get bytes 0;
        if b0 =? 3 then
          addr ← vec_slice bytes 1 21;
          Some (inl (ActionPrivateCall (be_value addr)))
        else Some (inr INVALID_ACTION)
    | inr e => Some (inr e)
    end
  else Some (inr RlpInvalidLength).

(** [impl rlp::Encodable for Action] *)
Definition action_encode (a : Action) : R :=
  match a with
  | ActionCreate => rlp_of_str ""%string
  | ActionCall addr => rlp_of_address addr
  | ActionPrivateToPrivate => rlp_of_u8 1
  | ActionPublicToPrivate => rlp_of_u8 2
  | ActionPrivateCall addr => rlp_of_bytes ([3] ++ be_bytes 20 addr)
  end.

End Codec.

(** ** Replay protection *)

(** [add_chain_replay_protection]; the sums may overflow. *)
Definition add_chain_replay_protection (v : Z) (chain_id : option Z) : option Z :=
  match chain_id with
  | Some n => d ← usize_mul n 2; o ← usize_add 35 d; usize_add v o
  | None => usize_add v 27
  end.

Definition check_replay_protection (v : Z) : Z :=
  if v =? 27 then 0
  else if v =? 28 then 1
  else if 35 <=? v then (v - 1) mod 2
  else 4.

(** ** Transactions *)

(** What is read of a spend and of an output here; proofs and signatures are checked by
    the transaction pool. Points of the curve are kept in their encoding. *)
Record SpendDescription : Type := mkSpendDescription {
  sd_anchor : Z;
  sd_nullifier : bytes;
}.

Record OutputDescription : Type := mkOutputDescription {
  od_cmu : Z;
  od_ephemeral_key : bytes;
  od_enc_ciphertext : bytes;
}.

(** [balancing_value] is an [i64]. *)
Record PrivateTransaction : Type := mkPrivateTransaction {
  pt_spends : list SpendDescription;
  pt_outputs : list OutputDescription;
  pt_balancing_value : Z;
  pt_binding_sig : bytes;
}.

Record Transaction : Type := mkTransaction {
  t_nonce : Z;
  t_gas_price : Z;
  t_gas : Z;
  t_action : Action;
  t_value : Z;
  t_data : bytes;
  t_private : option PrivateTransaction;
}.

Definition is_private (t : Transaction) : bool := match t_private t with Some _ => true | None => false end.
Definition is_privacy (t : Transaction) : bool := bool_decide (t_action t = ActionPrivateToPrivate).
Definition is_shield (t : Transaction) : bool := bool_decide (t_action t = ActionPublicToPrivate).
Definition is_unshield (t : Transaction) : bool :=
  match t_action t with ActionPrivateCall _ => true | _ => false end.

(** [get_nullifier_set], as a list without duplicates. *)
Definition get_nullifier_set (t : Transaction) : list Z :=
  match t_private t with
  | Some private => list.remove_dups ((fun s => be_value (sd_nullifier s)) <$> pt_spends private)
  | None => []
  end.

Definition v_shielded_spend (t : Transaction) : list SpendDescription :=
  match t_private t with Some private => pt_spends private | None => [] end.

Definition v_shielded_output (t : Transaction) : list OutputDescription :=
  match t_private t with Some private => pt_outputs private | None => [] end.

Definition get_commitment_notes (t : Transaction) : list Z :=
  match t_private t with Some private => od_cmu <$> pt_outputs private | None => [] end.

Definition get_commitment_anchors (t : Transaction) : list Z :=
  match t_private t with Some private => sd_anchor <$> pt_spends private | None => [] end.

Definition balancing_value (t : Transaction) : Z :=
  match t_private t with Some private => pt_balancing_value private | None => 0 end.

Record UnverifiedTransaction : Type := mkUnverifiedTransaction {
  ut_unsigned : Transaction;
  ut_v : Z;
  ut_r : Z;
  ut_s : Z;
  ut_hash : Z;
}.

Definition is_unsigned (t : UnverifiedTransaction) : bool := (ut_r t =? 0) && (ut_s t =? 0).

Definition standard_v (t : UnverifiedTransaction) : Z := check_replay_protection (ut_v t).

Definition chain_id (t : UnverifiedTransaction) : option Z :=
  if is_unsigned t then Some (ut_v t)
  else if 35 <=? ut_v t then Some ((ut_v t - 35) / 2)
  else None.

(** [Signature::is_low_s] of the signature of a transaction. *)
Definition LOW_S_MAX : Z := 0x7FFFFFFFFFFFFFFFFFFFFFFFFFFFFFFF5D576E7357A4501DDFE92F46681B20A0.

(** ** Errors *)

Inductive PrivateTxError : Type :=
| InvalidAction
| InvalidNonce
| InvalidValue
| InvalidBalancingValue
| InvalidNumberOfSpends
| DuplicatedNullifier.

(** [transaction::Error] *)
Inductive transaction_error : Type :=
| AlreadyImported
| Old
| TooCheapToReplace
| LimitReached
| InsufficientGasPrice (minimal got : Z)
| InsufficientGas (minimal got : Z)
| InsufficientBalance (balance cost : Z)
| GasLimitExceeded (limit got : Z)
| InvalidGasLimit (min max : option Z) (found : Z)
| SenderBanned
| RecipientBanned
| CodeBanned
| InvalidChainId
| NotAllowed
| InvalidSignature (msg : string)
| TooBig
| InvalidRlp (msg : string)
| ConflictNullifier
| InvalidCommitmentAnchor
| InvalidSpendDescription
| InvalidOutputDescription
| InvalidBalancingValueOrBindingSig
| InvalidPrivateTx (e : PrivateTxError).

Definition INVALID_SIGNATURE : transaction_error := InvalidSignature "Crypto error (Invalid EC signature)".

Definition check_low_s (t : UnverifiedTransaction) : unit + transaction_error :=
  if negb (ut_s t <=? LOW_S_MAX) then inr INVALID_SIGNATURE else inl tt.

(** ** Checks *)

Definition verify_basic (t : UnverifiedTransaction) (check_low_s_flag : bool) (chain : option Z)
    (allow_empty_signature : bool) : unit + transaction_error :=
  let tx := ut_unsigned t in
  let signature_result :=
    if is_input_private (t_action tx) then
      if negb (is_unsigned t) then inr INVALID_SIGNATURE else inl tt
    else if allow_empty_signature && is_unsigned t then
      if negb ((t_gas_price tx =? 0) && (t_value tx =? 0) && (t_nonce tx =? 0))
      then inr INVALID_SIGNATURE else inl tt
    else
      match (if check_low_s_flag then check_low_s t else inl tt) with
      | inr e => inr e
      | inl _ => if is_unsigned t then inr INVALID_SIGNATURE else inl tt
      end in
  match signature_result with
  | inr e => inr e
  | inl _ =>
      match chain_id t, chain with
      | None, _ => inl tt
      | Some n, Some m => if n =? m then inl tt else inr InvalidChainId
      | _, _ => inr InvalidChainId
      end
  end.

(** [U256::from] of an [i64]: a negative number panics. *)
Definition u256_from_i64 (z : Z) : option Z := if 0 <=? z then Some z else None.

(** Multiplication of [U256]: an overflow panics. *)
Definition u256_mul (a b : Z) : option Z := if a * b <? U256_MOD then Some (a * b) else None.

Definition I64_MIN : Z := - 2 ^ 63.

(** Negation of an [i64], which wraps around. *)
Definition i64_neg (z : Z) : Z := if z =? I64_MIN then z else - z.

(** The loop over the nullifiers of the spends. *)
Fixpoint duplicated_nullifier (nullifier_set : list bytes) (spends : list SpendDescription) : bool :=
  match spends with
  | [] => false
  | spend :: spends' =>
      if bool_decide (sd_nullifier spend ∈ nullifier_set) then true
      else duplicated_nullifier (sd_nullifier spend :: nullifier_set) spends'
  end.

(** Whether the balancing value and the value of the transaction agree. *)
Definition balancing_value_matches (tx : Transaction) : option bool :=
  if bool_decide (t_action tx = ActionPublicToPrivate) then
    if 0 <? balancing_value tx then Some false
    else
      b ← u256_from_i64 (i64_neg (balancing_value tx));
      p ← u256_mul b CONVERSION_FACTOR;
      Some (p =? t_value tx)
  else
    b ← u256_from_i64 (balancing_value tx);
    p ← u256_mul b CONVERSION_FACTOR;
    fee ← u256_mul (t_gas_price tx) (t_gas tx);
    total ← u256_add fee (t_value tx);
    Some (p =? total).

Definition verify_private_tx_basic (t : UnverifiedTransaction) : option (unit + transaction_error) :=
  let tx := ut_unsigned t in
  let fail e := Some (inr (InvalidPrivateTx e)) in
  match t_private tx with
  | None => fail InvalidAction
  | Some private_tx =>
      match t_action tx with
      | ActionPublicToPrivate | ActionPrivateToPrivate | ActionPrivateCall _ =>
          if is_input_private (t_action tx) && negb (t_nonce tx =? 0) then fail InvalidNonce
          else if is_privacy tx && negb (t_value tx =? 0) then fail InvalidValue
          else if bool_decide (t_action tx = ActionPublicToPrivate) && (MAX_VALUE_ALLOWED <? t_value tx)
          then fail InvalidValue
          else
            matches_ ← balancing_value_matches tx;
            if negb matches_ then fail InvalidBalancingValue
            else if bool_decide (t_action tx = ActionPublicToPrivate) then
              match pt_spends private_tx with
              | [] => Some (inl tt)
              | _ => fail InvalidNumberOfSpends
              end
            else
              match pt_spends private_tx with
              | [] => fail InvalidNumberOfSpends
              | spends => if duplicated_nullifier [] spends then fail DuplicatedNullifier else Some (inl tt)
              end
      | _ => fail InvalidAction
      end
  end.

(** [EthereumMachine::verify_transaction_basic] (machine/impls.rs), with the parameters of
    the machine it reads. *)
Record TxParams : Type := mkTxParams {
  tp_homestead_transition : option Z;
  tp_validate_chain_id_transition : Z;
  tp_eip155_transition : Z;
  tp_chain_id : Z;
}.

Definition verify_transaction_basic (params : TxParams) (t : UnverifiedTransaction) (number : Z)
    : option (unit + transaction_error) :=
  let check_low_s_flag :=
    match tp_homestead_transition params with Some transition => transition <=? number | None => true end in
  let chain :=
    if number <? tp_validate_chain_id_transition params then chain_id t
    else if tp_eip155_transition params <=? number then Some (tp_chain_id params)
    else None in
  match verify_basic t check_low_s_flag chain false with
  | inr e => Some (inr e)
  | inl _ => if is_private (ut_unsigned t) then verify_private_tx_basic t else Some (inl tt)
  end.

(** ** Signed transactions *)

Record SignedTransaction : Type := mkSignedTransaction {
  sg_transaction : UnverifiedTransaction;
  sg_sender : Z;
}.

(** The RLP of a transaction, and the recovery of the sender from its signature. *)
Class TransactionCrypto : Type := {
  rlp_sealed : UnverifiedTransaction -> bytes;
  recover_sender : UnverifiedTransaction -> Z + string;
}.

Section Signed.
Context {K : Keccak} {TC : TransactionCrypto}.

Definition compute_hash (t : UnverifiedTransaction) : UnverifiedTransaction :=
  mkUnverifiedTransaction (ut_unsigned t) (ut_v t) (ut_r t) (ut_s t) (keccak (rlp_sealed t)).

(** The sender of a private transaction is made of its hash. *)
Definition sign_for_private (t : Transaction) (chain : Z) : SignedTransaction :=
  let unverified := compute_hash (mkUnverifiedTransaction t chain 0 0 0) in
  mkSignedTransaction unverified (ut_hash unverified mod U160_MOD).

(** [SignedTransaction::new] *)
Definition signed_new (t : UnverifiedTransaction) : SignedTransaction + string :=
  if is_input_private (t_action (ut_unsigned t)) then inl (sign_for_private (ut_unsigned t) (ut_v t))
  else if is_unsigned t then inl (mkSignedTransaction t UNSIGNED_SENDER)
  else match recover_sender t with
       | inl sender => inl (mkSignedTransaction t sender)
       | inr e => inr e
       end.

End Signed.
