(* ===== verification/TransactionTheorems.v ===== *)
(** * What the checks of transactions guarantee

    Theorems about [Transaction.v]: the private transactions that [verify_private_tx_basic]
    accepts and those on which it panics, the transactions with private input that
    [verify_transaction_basic] lets through, replay protection, and the encoding of
    actions. *)

From S2P Require Import Prelude Transaction.
From stdpp Require Import base numbers option strings sets list.

Open Scope Z_scope.

(** ** Private transactions *)

(** Words, and a balancing value that is an [i64]. *)
Record tx_wf (tx : Transaction) : Prop := {
  tw_nonce : is_u256 (t_nonce tx);
  tw_gas_price : is_u256 (t_gas_price tx);
  tw_gas : is_u256 (t_gas tx);
  tw_value : is_u256 (t_value tx);
  tw_balancing : - 2 ^ 63 <= balancing_value tx < 2 ^ 63;
}.

(** The fee and the value that a private input has to pay. *)
Definition private_cost (tx : Transaction) : Z := t_gas_price tx * t_gas tx + t_value tx.

(** The transactions with a private part that are meant: the balancing value is what moves
    between the public and the private side, in units of 10^9. *)
Definition private_tx_ok (tx : Transaction) : Prop :=
  match t_private tx with
  | None => False
  | Some private =>
      match t_action tx with
      | ActionPublicToPrivate =>
          t_value tx = - balancing_value tx * 10 ^ 9 /\ t_value tx <= (2 ^ 63 - 1) * 10 ^ 9 /\
          pt_spends private = []
      | ActionPrivateToPrivate | ActionPrivateCall _ =>
          t_nonce tx = 0 /\ (t_action tx = ActionPrivateToPrivate -> t_value tx = 0) /\
          balancing_value tx * 10 ^ 9 = private_cost tx /\ pt_spends private <> [] /\
          NoDup (sd_nullifier <$> pt_spends private)
      | ActionCreate | ActionCall _ => False
      end
  end.

Lemma max_value_allowed : MAX_VALUE_ALLOWED = (2 ^ 63 - 1) * 10 ^ 9.
Proof. reflexivity. Qed.

Lemma duplicated_nullifier_false seen spends :
  duplicated_nullifier seen spends = false <->
  NoDup (sd_nullifier <$> spends) /\ forall s, s ∈ spends -> sd_nullifier s ∉ seen.
Proof.
  revert seen. induction spends as [|s spends IH]; intros seen; cbn.
  { split; [|done]. intros _. split; [constructor|set_solver]. }
  case_bool.
  - apply bool_decide_eq_true in Hb. split; [done|]. intros [_ H]. specialize (H s). set_solver.
  - apply bool_decide_eq_false in Hb. rewrite IH, NoDup_cons. split.
    + intros [Hn Hs]. split; [split; [|done]|].
      * rewrite list_elem_of_fmap. intros (s' & Heq & Hs'). specialize (Hs s' Hs'). set_solver.
      * intros s' [->|Hs']%elem_of_cons; [done|]. specialize (Hs s' Hs'). set_solver.
    + intros [[Hs Hn] Hseen]. split; [done|]. intros s' Hs' [Heq|Hin]%elem_of_cons.
      * apply Hs. rewrite list_elem_of_fmap. by exists s'.
      * apply (Hseen s'); set_solver.
Qed.

(** The balancing value of a shielding transaction. *)
Lemma balancing_shield tx : tx_wf tx -> t_action tx = ActionPublicToPrivate ->
  t_value tx <= MAX_VALUE_ALLOWED ->
  balancing_value_matches tx = Some true <-> t_value tx = - balancing_value tx * 10 ^ 9.
Proof.
  intros [_ _ _ Hv Hbv] Ha Hmax. rewrite max_value_allowed in Hmax. unfold balancing_value_matches.
  rewrite bool_decide_eq_true_2 by done. change CONVERSION_FACTOR with (10 ^ 9).
  destruct (Z.ltb_spec 0 (balancing_value tx)); [split; [done|range_lia]|].
  unfold i64_neg, I64_MIN, u256_from_i64, u256_mul.
  destruct (Z.eqb_spec (balancing_value tx) (- 2 ^ 63)) as [Hmin|Hmin].
  - rewrite (proj2 (Z.leb_gt _ _)) by lia. cbn [mbind option_bind]. split; [done|]. intros Heq. exfalso. lia.
  - rewrite (proj2 (Z.leb_le _ _)) by lia. cbn [mbind option_bind].
    rewrite (proj2 (Z.ltb_lt _ _)) by range_lia. cbn [mbind option_bind].
    split; [intros [= Heq%Z.eqb_eq]; lia|]. intros Heq. f_equal. apply Z.eqb_eq. lia.
Qed.

(** The balancing value of a transaction with private input, and when it cannot be
    compared. *)
Lemma balancing_private tx : tx_wf tx -> t_action tx <> ActionPublicToPrivate ->
  (balancing_value_matches tx = Some true <-> balancing_value tx * 10 ^ 9 = private_cost tx) /\
  (balancing_value_matches tx = None <-> balancing_value tx < 0 \/ U256_MOD <= private_cost tx).
Proof.
  intros [_ Hp Hg Hv Hbv] Ha. unfold balancing_value_matches, private_cost.
  rewrite bool_decide_eq_false_2 by done. change CONVERSION_FACTOR with (10 ^ 9).
  assert (0 <= t_gas_price tx * t_gas tx) by (apply Z.mul_nonneg_nonneg; range_lia).
  unfold u256_from_i64, u256_mul, u256_add.
  destruct (Z.leb_spec 0 (balancing_value tx)); cbn [mbind option_bind].
  2: { split; [|split; [by left|done]]. split; [done|]. intros ?. range_lia. }
  rewrite (proj2 (Z.ltb_lt (balancing_value tx * 10 ^ 9) _)) by range_lia. cbn [mbind option_bind].
  destruct (Z.ltb_spec (t_gas_price tx * t_gas tx) U256_MOD); cbn [mbind option_bind].
  2: { split; [split; [done|range_lia]|]. split; [|done]. intros _. right. range_lia. }
  destruct (Z.ltb_spec (t_gas_price tx * t_gas tx + t_value tx) U256_MOD); cbn [mbind option_bind].
  - split; [|split; [done|lia]]. split; [intros [= Heq%Z.eqb_eq]; lia|]. intros Heq. f_equal. by apply Z.eqb_eq.
  - split; [split; [done|range_lia]|]. split; [|done]. intros _. by right.
Qed.

(** The check of the spends of a private input. *)
Lemma spends_accepted spends :
  match spends with
  | [] => Some (inr (InvalidPrivateTx InvalidNumberOfSpends))
  | _ => if duplicated_nullifier [] spends then Some (inr (InvalidPrivateTx DuplicatedNullifier)) else Some (inl tt)
  end = Some (inl tt : unit + transaction_error) <-> spends <> [] /\ NoDup (sd_nullifier <$> spends).
Proof.
  destruct spends as [|s spends]; [split; [done|by intros [? _]]|].
  pose proof (duplicated_nullifier_false [] (s :: spends)) as Hdup.
  destruct (duplicated_nullifier [] (s :: spends)).
  - split; [done|]. intros [_ Hnd]. assert (true = false); [|done]. apply Hdup. split; [done|set_solver].
  - split; [|done]. intros _. split; [done|]. by apply Hdup.
Qed.

(** C29: [verify_private_tx_basic] accepts a well-formed transaction exactly if it is a
    shielding transaction without spends, whose balancing value is minus its value, or a
    transaction with private input, zero nonce, at least one spend and distinct nullifiers,
    whose balancing value covers exactly the value and the whole gas fee; values are in
    units of 10^9. No sum wraps around on the way to an acceptance. *)
Theorem verify_private_tx_basic_accepts t : tx_wf (ut_unsigned t) ->
  verify_private_tx_basic t = Some (inl tt) <-> private_tx_ok (ut_unsigned t).
Proof.
  intros Hwf. unfold verify_private_tx_basic, private_tx_ok, is_privacy. set (tx := ut_unsigned t) in *.
  destruct (t_private tx) as [private|]; [|done].
  destruct (t_action tx) as [|a| | |a] eqn:Ha; try done; cbn [is_input_private andb];
    repeat (rewrite (bool_decide_eq_true_2 (ActionPublicToPrivate = _)) by done);
    repeat (rewrite (bool_decide_eq_true_2 (ActionPrivateToPrivate = _)) by done);
    repeat (rewrite bool_decide_eq_false_2 by done); cbn [andb negb].
  - pose proof (proj1 (balancing_private tx Hwf ltac:(by rewrite Ha))) as Hbal.
    destruct (Z.eqb_spec (t_nonce tx) 0); cbn [negb]; [|split; [done|naive_solver]].
    destruct (Z.eqb_spec (t_value tx) 0); cbn [negb]; [|split; [done|naive_solver]].
    destruct (balancing_value_matches tx) as [[]|]; cbn [mbind option_bind negb];
      [|split; [done|naive_solver]|split; [done|naive_solver]].
    pose proof (spends_accepted (pt_spends private)) as Hsp. destruct (pt_spends private); naive_solver.
  - destruct (Z.ltb_spec MAX_VALUE_ALLOWED (t_value tx)) as [Hmax|Hmax].
    { split; [done|]. intros (_ & Hle & _). rewrite max_value_allowed in Hmax. lia. }
    pose proof (balancing_shield tx Hwf Ha Hmax) as Hbal. rewrite max_value_allowed in Hmax.
    destruct (balancing_value_matches tx) as [[]|]; cbn [mbind option_bind negb];
      [|split; [done|naive_solver]|split; [done|naive_solver]].
    destruct (pt_spends private) as [|s spends]; [|split; [done|naive_solver]].
    split; [|done]. intros _. split; [by apply Hbal|done].
  - pose proof (proj1 (balancing_private tx Hwf ltac:(by rewrite Ha))) as Hbal.
    destruct (Z.eqb_spec (t_nonce tx) 0); cbn [negb]; [|split; [done|naive_solver]].
    destruct (balancing_value_matches tx) as [[]|]; cbn [mbind option_bind negb];
      [|split; [done|naive_solver]|split; [done|naive_solver]].
    pose proof (spends_accepted (pt_spends private)) as Hsp. destruct (pt_spends private); naive_solver.
Qed.

(** A shielding transaction of 2 units, and a private call that pays 5 units for gas and 1
    unit for value. *)
Definition shield_tx : UnverifiedTransaction :=
  mkUnverifiedTransaction (mkTransaction 7 1 21000 ActionPublicToPrivate (2 * 10 ^ 9) []
    (Some (mkPrivateTransaction [] [mkOutputDescription 5 [] []] (-2) []))) 37 1 1 0.

Definition unshield_tx (bv : Z) : UnverifiedTransaction :=
  mkUnverifiedTransaction (mkTransaction 0 (10 ^ 5) (5 * 10 ^ 4) (ActionPrivateCall 9) (10 ^ 9) []
    (Some (mkPrivateTransaction [mkSpendDescription 3 [1]; mkSpendDescription 3 [2]] [] bv []))) 1 0 0 0.

Lemma verify_private_tx_basic_accepts_witness :
  (tx_wf (ut_unsigned (unshield_tx 6)) /\
    (verify_private_tx_basic (unshield_tx 6) = Some (inl tt) <-> private_tx_ok (ut_unsigned (unshield_tx 6)))) /\
  verify_private_tx_basic (unshield_tx 6) = Some (inl tt) /\
  verify_private_tx_basic (unshield_tx 5) = Some (inr (InvalidPrivateTx InvalidBalancingValue)) /\
  verify_private_tx_basic shield_tx = Some (inl tt).
Proof.
  assert (Hwf : tx_wf (ut_unsigned (unshield_tx 6))) by (split; cbn; range_lia).
  split_and!; [exact Hwf|apply (verify_private_tx_basic_accepts (unshield_tx 6) Hwf)|reflexivity..].
Defined.

(** When [verify_private_tx_basic] panics. *)
Definition private_tx_panics (tx : Transaction) : Prop :=
  is_private tx = true /\
  match t_action tx with
  | ActionPublicToPrivate => t_value tx <= MAX_VALUE_ALLOWED /\ balancing_value tx = - 2 ^ 63
  | ActionPrivateToPrivate | ActionPrivateCall _ =>
      t_nonce tx = 0 /\ (t_action tx = ActionPrivateToPrivate -> t_value tx = 0) /\
      (balancing_value tx < 0 \/ U256_MOD <= private_cost tx)
  | ActionCreate | ActionCall _ => False
  end.

Lemma balancing_shield_panics tx : tx_wf tx -> t_action tx = ActionPublicToPrivate ->
  balancing_value_matches tx = None <-> balancing_value tx = - 2 ^ 63.
Proof.
  intros [_ _ _ Hv Hbv] Ha. unfold balancing_value_matches.
  rewrite bool_decide_eq_true_2 by done. change CONVERSION_FACTOR with (10 ^ 9).
  destruct (Z.ltb_spec 0 (balancing_value tx)); [split; [done|range_lia]|].
  unfold i64_neg, I64_MIN, u256_from_i64, u256_mul.
  destruct (Z.eqb_spec (balancing_value tx) (- 2 ^ 63)) as [Hmin|Hmin].
  - rewrite (proj2 (Z.leb_gt _ _)) by lia. done.
  - rewrite (proj2 (Z.leb_le _ _)) by lia. cbn [mbind option_bind].
    rewrite (proj2 (Z.ltb_lt _ _)) by range_lia. done.
Qed.

(** [verify_private_tx_basic] panics, instead of rejecting the transaction, exactly on
    private inputs with zero nonce whose balancing value is negative or whose cost does not
    fit a [U256], and on a shielding transaction with the least balancing value. All of
    these decode from the wire, where the balancing value is an unsigned word. *)
Theorem verify_private_tx_basic_panics t : tx_wf (ut_unsigned t) ->
  verify_private_tx_basic t = None <-> private_tx_panics (ut_unsigned t).
Proof.
  intros Hwf. unfold verify_private_tx_basic, private_tx_panics, is_privacy, is_private. set (tx := ut_unsigned t) in *.
  destruct (t_private tx) as [private|]; [|naive_solver].
  assert (Hspends : forall spends, match spends with
    | [] => Some (inr (InvalidPrivateTx InvalidNumberOfSpends))
    | _ => if duplicated_nullifier [] spends then Some (inr (InvalidPrivateTx DuplicatedNullifier))
           else Some (inl tt : unit + transaction_error) end <> None)
    by (intros []; [done|]; by case_bool).
  destruct (t_action tx) as [|a| | |a] eqn:Ha; try naive_solver; cbn [is_input_private andb];
    repeat (rewrite (bool_decide_eq_true_2 (ActionPublicToPrivate = _)) by done);
    repeat (rewrite (bool_decide_eq_true_2 (ActionPrivateToPrivate = _)) by done);
    repeat (rewrite bool_decide_eq_false_2 by done); cbn [andb negb].
  - pose proof (proj2 (balancing_private tx Hwf ltac:(by rewrite Ha))) as Hbal.
    destruct (Z.eqb_spec (t_nonce tx) 0); cbn [negb]; [|naive_solver].
    destruct (Z.eqb_spec (t_value tx) 0); cbn [negb]; [|naive_solver].
    destruct (balancing_value_matches tx) as [[]|]; cbn [mbind option_bind negb]; [|naive_solver|naive_solver].
    specialize (Hspends (pt_spends private)). destruct (pt_spends private); naive_solver.
  - destruct (Z.ltb_spec MAX_VALUE_ALLOWED (t_value tx)) as [Hmax|Hmax]; [naive_solver lia|].
    pose proof (balancing_shield_panics tx Hwf Ha) as Hbal.
    destruct (balancing_value_matches tx) as [[]|]; cbn [mbind option_bind negb]; [|naive_solver|naive_solver].
    destruct (pt_spends private); naive_solver.
  - pose proof (proj2 (balancing_private tx Hwf ltac:(by rewrite Ha))) as Hbal.
    destruct (Z.eqb_spec (t_nonce tx) 0); cbn [negb]; [|naive_solver].
    destruct (balancing_value_matches tx) as [[]|]; cbn [mbind option_bind negb]; [|naive_solver|naive_solver].
    specialize (Hspends (pt_spends private)). destruct (pt_spends private); naive_solver.
Qed.

Lemma verify_private_tx_basic_panics_witness :
  tx_wf (ut_unsigned (unshield_tx (-1))) /\ private_tx_panics (ut_unsigned (unshield_tx (-1))) /\
  verify_private_tx_basic (unshield_tx (-1)) = None.
Proof.
  assert (Hwf : tx_wf (ut_unsigned (unshield_tx (-1)))) by (split; cbn; range_lia).
  assert (Hp : private_tx_panics (ut_unsigned (unshield_tx (-1)))).
  { split; [reflexivity|]. cbn. split; [reflexivity|]. split; [discriminate|]. left. lia. }
  split_and!; [exact Hwf|exact Hp|]. apply (verify_private_tx_basic_panics (unshield_tx (-1)) Hwf), Hp.
Defined.

(** ** Private inputs without a private part *)

(** C30: an unsigned transaction whose action has a private input but which carries no
    private part at all passes [verify_transaction_basic], whatever its value, its nonce
    and its fee: the checks of the balancing value and of the spends are skipped. *)
Theorem unbacked_private_input_accepted params t number :
  is_input_private (t_action (ut_unsigned t)) = true -> t_private (ut_unsigned t) = None ->
  is_unsigned t = true ->
  number < tp_validate_chain_id_transition params \/
    (tp_eip155_transition params <= number /\ ut_v t = tp_chain_id params) ->
  verify_transaction_basic params t number = Some (inl tt).
Proof.
  intros Ha Hp Hu Hc. unfold verify_transaction_basic, verify_basic, chain_id. rewrite Ha, Hu.
  cbn [negb]. unfold is_private. rewrite Hp.
  destruct (Z.ltb_spec number (tp_validate_chain_id_transition params)).
  - by rewrite Z.eqb_refl.
  - destruct Hc as [|[Hn Hv]]; [lia|]. rewrite (proj2 (Z.leb_le _ _) Hn), Hv. by rewrite Z.eqb_refl.
Qed.

(** Every unit below 2^256 sent to the account 9, without spends. *)
Definition unbacked_tx : UnverifiedTransaction :=
  mkUnverifiedTransaction (mkTransaction 3 0 21000 (ActionPrivateCall 9) (2 ^ 256 - 1) [] None) 27 0 0 0.

Lemma unbacked_private_input_accepted_witness :
  verify_transaction_basic (mkTxParams None 0 0 27) unbacked_tx 5 = Some (inl tt).
Proof.
  apply (unbacked_private_input_accepted (mkTxParams None 0 0 27) unbacked_tx 5); try reflexivity.
  right. split; [cbn; lia|reflexivity].
Defined.

(** ** Replay protection *)

(** The chain id and the parity bit that [add_chain_replay_protection] puts into [v]
    are what [chain_id] and [standard_v] read from a signed transaction; without a chain
    id, none is read. *)
Theorem replay_protection_roundtrip tx r s h bit chain v : 0 <= bit <= 1 -> (forall n, chain = Some n -> 0 <= n) ->
  add_chain_replay_protection bit chain = Some v -> (r <> 0 \/ s <> 0) ->
  let t := mkUnverifiedTransaction tx v r s h in chain_id t = chain /\ standard_v t = bit.
Proof.
  intros Hbit Hchain Hadd Hrs. unfold chain_id, standard_v, check_replay_protection, is_unsigned. cbn.
  replace ((r =? 0) && (s =? 0)) with false by (destruct (Z.eqb_spec r 0), (Z.eqb_spec s 0); cbn; lia || done).
  destruct chain as [n|]; cbn in Hadd.
  - specialize (Hchain n eq_refl). unfold usize_mul, usize_add in Hadd. repeat (case_bool_in Hadd; cbn in Hadd; [|done]). injection Hadd as <-.
    rewrite (proj2 (Z.leb_le _ _)) by lia. rewrite !(proj2 (Z.eqb_neq _ _)) by lia. split.
    + f_equal. replace (bit + (35 + n * 2) - 35) with (bit + n * 2) by lia. rewrite Z.div_add by lia.
      rewrite Z.div_small by lia. lia.
    + replace (bit + (35 + n * 2) - 1) with (bit + (17 + n) * 2) by lia. rewrite Z.mod_add by lia.
      apply Z.mod_small; lia.
  - unfold usize_add in Hadd. case_bool_in Hadd; [|done]. injection Hadd as <-.
    assert (bit = 0 \/ bit = 1) as [-> | ->] by lia; done.
Qed.

Lemma replay_protection_roundtrip_witness :
  add_chain_replay_protection 1 (Some 27) = Some 90 /\
  (let t := mkUnverifiedTransaction (ut_unsigned shield_tx) 90 1 1 0 in chain_id t = Some 27 /\ standard_v t = 1).
Proof.
  split; [reflexivity|].
  apply (replay_protection_roundtrip (ut_unsigned shield_tx) 1 1 0 1 (Some 27) 90); [lia|intros n [= <-]; lia|reflexivity|by left].
Defined.

(** ** The encoding of actions *)

(** What the crate [rlp] documents of byte strings, addresses and small numbers: the empty
    string is the empty item, the size of an item is that of its payload, and a value is
    read back. *)
Class RlpCodecLaws {R : Type} {RC : RlpCodec R} : Prop := {
  rl_str : rlp_is_empty (rlp_of_str "") = true;
  rl_address : forall a, is_address a -> rlp_is_empty (rlp_of_address a) = false /\
    rlp_size (rlp_of_address a) = 20 /\ rlp_as_address (rlp_of_address a) = inl a;
  rl_u8 : forall b, 0 < b < 256 -> rlp_is_empty (rlp_of_u8 b) = false /\ rlp_size (rlp_of_u8 b) = 1 /\
    rlp_as_u8 (rlp_of_u8 b) = inl b;
  rl_bytes : forall l, l <> [] -> rlp_is_empty (rlp_of_bytes l) = false /\ rlp_size (rlp_of_bytes l) = zlen l /\
    rlp_as_bytes (rlp_of_bytes l) = inl l;
}.

Definition action_wf (a : Action) : Prop :=
  match a with ActionCall x | ActionPrivateCall x => is_address x | _ => True end.

(** Decoding the encoding of an action gives the action back; in particular the
    encodings of the five kinds are told apart. *)
Theorem action_roundtrip {R} {RC : RlpCodec R} {RL : RlpCodecLaws} a : action_wf a ->
  action_decode (action_encode a) = Some (inl a).
Proof.
  unfold action_decode. destruct a as [|x| | |x]; intros Hwf; cbn [action_encode].
  - by rewrite rl_str.
  - destruct (rl_address x Hwf) as (-> & -> & ->). done.
  - destruct (rl_u8 1) as (-> & -> & ->); [lia|done].
  - destruct (rl_u8 2) as (-> & -> & ->); [lia|done].
  - destruct (rl_bytes ([3] ++ be_bytes 20 x)) as (-> & -> & ->); [done|].
    replace (zlen ([3] ++ be_bytes 20 x)) with 21 by (unfold zlen; by rewrite length_app, length_be_bytes).
    cbn [Z.eqb Pos.eqb]. change (vec_get ([3] ++ be_bytes 20 x) 0) with (Some 3). cbn [mbind option_bind].
    rewrite vec_slice_some by (unfold zlen; rewrite ?length_app, ?length_be_bytes; cbn; lia).
    cbn [mbind option_bind Z.eqb Pos.eqb]. change (Z.to_nat 1) with 1%nat. change (Z.to_nat (21 - 1)) with 20%nat.
    rewrite take_ge by (rewrite length_drop, length_app, length_be_bytes; cbn; lia).
    change (drop 1 ([3] ++ be_bytes 20 x)) with (be_bytes 20 x). rewrite be_value_be_bytes, Z.mod_small by (cbn in Hwf; range_lia). done.
Qed.

(** Items as payloads. *)
#[local] Instance payload_codec : RlpCodec bytes := {
  rlp_is_empty l := bool_decide (l = []);
  rlp_size l := zlen l;
  rlp_as_address l := if zlen l =? 20 then inl (be_value l) else inr RlpInvalidLength;
  rlp_as_u8 l := match l with [b] => inl b | _ => inr RlpOther end;
  rlp_as_bytes l := inl l;
  rlp_of_str s := [];
  rlp_of_address a := be_bytes 20 a;
  rlp_of_u8 b := if b =? 0 then [] else [b];
  rlp_of_bytes l := l;
}.

#[local] Instance payload_laws : RlpCodecLaws (R := bytes).
Proof.
  split; [done|..].
  - intros a Ha. cbn [rlp_is_empty rlp_size rlp_as_address rlp_of_address payload_codec]. rewrite zlen_be_bytes, be_value_be_bytes, Z.mod_small by range_lia. split; [|done].
    apply bool_decide_eq_false. intros H. pose proof (length_be_bytes 20 a) as Hl. by rewrite H in Hl.
  - intros b Hb. cbn. rewrite (proj2 (Z.eqb_neq _ _)) by lia. done.
  - intros l Hl. cbn. split; [|done]. by apply bool_decide_eq_false.
Qed.

Lemma action_roundtrip_witness :
  action_decode (action_encode (ActionPrivateCall 9) : bytes) = Some (inl (ActionPrivateCall 9)).
Proof. apply (action_roundtrip (ActionPrivateCall 9)). cbn. range_lia. Defined.
