(* ===== verification/Blocks.v ===== *)
(** * Blocks

    [types/src/header.rs], [types/src/views/block.rs], [types/src/views/body.rs] and the
    localised transactions of [types/src/transaction/transaction.rs]. An encoded block is
    kept as the value it decodes to; the hash of a header, which is the Keccak hash of its
    encoding, is a field of the header. *)

From S2P Require Import Prelude Transaction.
From stdpp Require Import base numbers option list.

Open Scope Z_scope.

Record Header : Type := mkHeader {
  h_parent_hash : Z;
  h_timestamp : Z;
  h_number : Z;
  h_author : Z;
  h_transactions_root : Z;
  h_uncles_hash : Z;
  h_extra_data : bytes;
  h_state_root : Z;
  h_receipts_root : Z;
  h_log_bloom : Z;
  h_gas_used : Z;
  h_gas_limit : Z;
  h_difficulty : Z;
  h_seal : list bytes;
  h_hash : Z;
}.

(** [ExtendedHeader] *)
Record ExtendedHeader : Type := mkExtendedHeader {
  eh_header : Header;
  eh_is_finalized : bool;
  eh_parent_total_difficulty : Z;
}.

Definition total_score (h : ExtendedHeader) : option Z :=
  u256_add (eh_parent_total_difficulty h) (h_difficulty (eh_header h)).

Record Body : Type := mkBody {
  b_transactions : list UnverifiedTransaction;
  b_uncles : list Header;
}.

Record Block : Type := mkBlock { b_header : Header; b_body : Body }.

(** [LocalizedTransaction], without the memoised sender. *)
Record LocalizedTransaction : Type := mkLocalizedTransaction {
  lt_signed : UnverifiedTransaction;
  lt_block_number : Z;
  lt_block_hash : Z;
  lt_transaction_index : Z;
}.

Definition lt_hash (t : LocalizedTransaction) : Z := ut_hash (lt_signed t).
Definition lt_unsigned (t : LocalizedTransaction) : Transaction := ut_unsigned (lt_signed t).

(** ** Views of bodies and blocks *)

(** [.enumerate().map(..)] with the location of each transaction. *)
Fixpoint localize (hash number i : Z) (ts : list UnverifiedTransaction) : list LocalizedTransaction :=
  match ts with
  | [] => []
  | t :: ts => mkLocalizedTransaction t number hash i :: localize hash number (i + 1) ts
  end.

Definition localized_transactions (hash number : Z) (b : Body) : list LocalizedTransaction :=
  localize hash number 0 (b_transactions b).

Definition localized_private_transactions (hash number : Z) (b : Body) : list LocalizedTransaction :=
  filter (fun t => is_private (lt_unsigned t) = true) (localized_transactions hash number b).

Definition transaction_hashes (b : Body) : list Z := ut_hash <$> b_transactions b.

Definition transaction_at (b : Body) (index : Z) : option UnverifiedTransaction := vec_get (b_transactions b) index.

Definition localized_transaction_at (hash number index : Z) (b : Body) : option LocalizedTransaction :=
  t ← transaction_at b index;
  Some (mkLocalizedTransaction t number hash index).

Definition body_uncle_hashes (b : Body) : list Z := h_hash <$> b_uncles b.

Definition b_hash (b : Block) : Z := h_hash (b_header b).
Definition b_number (b : Block) : Z := h_number (b_header b).
Definition b_parent_hash (b : Block) : Z := h_parent_hash (b_header b).

Definition localized_private_txs (b : Block) : list LocalizedTransaction :=
  localized_private_transactions (b_hash b) (b_number b) (b_body b).

(** The notes of the block, in the order of their outputs. *)
Definition block_notes (b : Block) : list Z :=
  mjoin ((fun t => get_commitment_notes (lt_unsigned t)) <$> localized_private_txs b).

(** ** Facts *)

(** What depends on the transactions only does not depend on the location. *)
Lemma localize_fmap {A} (f : UnverifiedTransaction -> A) hash number i ts :
  (fun t => f (lt_signed t)) <$> localize hash number i ts = f <$> ts.
Proof. revert i. induction ts as [|t ts IH]; intros i; [done|]. cbn. by rewrite IH. Qed.

Lemma private_fmap {A} (f : UnverifiedTransaction -> A) hash number b :
  (fun t => f (lt_signed t)) <$> localized_private_transactions hash number b =
  f <$> filter (fun t => is_private (ut_unsigned t) = true) (b_transactions b).
Proof.
  unfold localized_private_transactions, localized_transactions. generalize 0.
  induction (b_transactions b) as [|t ts IH]; intros i; [done|]. cbn [localize].
  rewrite !filter_cons. unfold lt_unsigned at 1. cbn [lt_signed].
  destruct (decide (is_private (ut_unsigned t) = true)); cbn; by rewrite IH.
Qed.
