(* ===== verification/Substate.v ===== *)
(** * Substates

    [ethcore/src/state/substate.rs]: what a transaction accumulates besides the state. *)

From S2P Require Import Prelude Schedule State.
From stdpp Require Import base numbers option gmap list.

Open Scope Z_scope.

(** [types::log_entry::LogEntry] *)
Record LogEntry : Type := mkLogEntry {
  le_address : Z;
  le_topics : list Z;
  le_data : bytes;
}.

Record Substate : Type := mkSubstate {
  ss_suicides : gset Z;
  ss_touched : gset Z;
  ss_logs : list LogEntry;
  ss_sstore_clears_refund : Z;
  ss_contracts_created : list Z;
}.

(** [Substate::new] *)
Definition substate_new : Substate := mkSubstate ∅ ∅ [] 0 [].

Definition I128_HALF : Z := 2 ^ 127.

(** [i128] addition; it wraps around in release builds. *)
Definition i128_add (x y : Z) : Z := (x + y + I128_HALF) mod (2 * I128_HALF) - I128_HALF.

Definition accrue (self s : Substate) : Substate :=
  mkSubstate (ss_suicides self ∪ ss_suicides s) (ss_touched self ∪ ss_touched s)
    (ss_logs self ++ ss_logs s)
    (i128_add (ss_sstore_clears_refund self) (ss_sstore_clears_refund s))
    (ss_contracts_created self ++ ss_contracts_created s).

Definition set_suicides (v : gset Z) (s : Substate) : Substate :=
  mkSubstate v (ss_touched s) (ss_logs s) (ss_sstore_clears_refund s) (ss_contracts_created s).
Definition set_touched (v : gset Z) (s : Substate) : Substate :=
  mkSubstate (ss_suicides s) v (ss_logs s) (ss_sstore_clears_refund s) (ss_contracts_created s).
Definition set_logs (v : list LogEntry) (s : Substate) : Substate :=
  mkSubstate (ss_suicides s) (ss_touched s) v (ss_sstore_clears_refund s) (ss_contracts_created s).
Definition set_refund (v : Z) (s : Substate) : Substate :=
  mkSubstate (ss_suicides s) (ss_touched s) (ss_logs s) v (ss_contracts_created s).
Definition set_contracts_created (v : list Z) (s : Substate) : Substate :=
  mkSubstate (ss_suicides s) (ss_touched s) (ss_logs s) (ss_sstore_clears_refund s) v.

(** The mode refers to the set of touched addresses of the substate. *)
Definition to_cleanup_mode (self : Substate) (schedule : Schedule) : CleanupMode :=
  match kill_dust schedule, no_empty schedule, kill_empty schedule with
  | DustOff, false, _ => ForceCreate
  | DustOff, true, false => NoEmpty
  | DustOff, true, true => TrackTouched (ss_touched self)
  | _, _, _ => TrackTouched (ss_touched self)
  end.

(** What the reference made of the substate. *)
Definition from_cleanup_mode (mode : CleanupMode) (self : Substate) : Substate :=
  match mode with TrackTouched touched => set_touched touched self | _ => self end.

(** ** Relations between substates *)

(** All but the touched addresses is the same. *)
Definition same_effects (s s' : Substate) : Prop :=
  ss_suicides s' = ss_suicides s /\ ss_logs s' = ss_logs s /\
  ss_sstore_clears_refund s' = ss_sstore_clears_refund s /\
  ss_contracts_created s' = ss_contracts_created s.

(** Suicides, logs and created contracts are added only. *)
Definition extends (s s' : Substate) : Prop :=
  ss_suicides s ⊆ ss_suicides s' /\ ss_logs s `prefix_of` ss_logs s' /\
  ss_contracts_created s `prefix_of` ss_contracts_created s'.

#[export] Instance same_effects_preorder : PreOrder same_effects.
Proof.
  split; [by intros s|]. intros s1 s2 s3 (? & ? & ? & ?) (? & ? & ? & ?). unfold same_effects. naive_solver congruence.
Qed.

#[export] Instance extends_preorder : PreOrder extends.
Proof.
  split; [by intros s|]. intros s1 s2 s3 (? & ? & ?) (? & ? & ?). split_and!; by etrans.
Qed.

Lemma same_effects_extends s s' : same_effects s s' -> extends s s'.
Proof. intros (H1 & H2 & _ & H3). unfold extends. by rewrite H1, H2, H3. Qed.

Lemma extends_accrue s un : extends s (accrue s un).
Proof. split_and!; cbn; [set_solver|by apply prefix_app_r|by apply prefix_app_r]. Qed.

Lemma from_cleanup_mode_effects mode s : same_effects s (from_cleanup_mode mode s).
Proof. by destruct mode. Qed.
