(* ===== verification/JumpTable.v ===== *)
(** * Jump destinations

    [ethcore/evm/src/interpreter/shared_cache.rs]: the scan of the code for valid jump
    destinations, and the cache of scan results by code hash. The cache is used through
    the interface [DestCache], which [MemoryLruCache] implements. *)

From S2P Require Import Prelude Instructions MemoryCache.
From stdpp Require Import base numbers option list.

Open Scope Z_scope.

(** One iteration of the loop at [position]: the destination recorded, if any, and the
    number of bytes the position advances. *)
Definition scan_at (opcode : Z) (position : Z) : list Z * Z :=
  match from_u8 opcode with
  | Some i =>
      if instr_eqb i JUMPDEST then ([position], 1)
      else match push_bytes i with
           | Some n => ([], n + 1)
           | None => ([], 1)
           end
  | None => ([], 1)
  end.

(** The [while position < code.len()] loop; the position grows at every iteration, so
    [code.len()] iterations are enough. *)
Fixpoint scan (fuel : nat) (code : bytes) (position : Z) : list Z :=
  match fuel with
  | O => []
  | S fuel' =>
      match vec_get code position with
      | None => []
      | Some opcode =>
          let '(found, step) := scan_at opcode position in
          found ++ scan fuel' code (position + step)
      end
  end.

(** [SharedCache::find_jump_destinations]; the bit set is the list of its elements. *)
Definition find_jump_destinations (code : bytes) : list Z := scan (length code) code 0.

(** [BitSet::contains] *)
Definition contains (s : list Z) (p : Z) : bool := existsb (Z.eqb p) s.

(** The cache [MemoryLruCache<H256, Bits>]: [get_mut] may reorder entries, [insert] may
    evict others; [None] is a panic. *)
Class DestCache (C : Type) : Type := {
  cache_get_mut : C -> Z -> option (list Z) * C;
  cache_insert : C -> Z -> list Z -> option C;
}.

(** Its contract: on caches satisfying [cache_ok] no operation panics, what is returned is
    what was stored, [get_mut] adds nothing, [insert] adds at most the new entry. *)
Class DestCacheLaws (C : Type) `{DestCache C} (cache_ok : C -> Prop)
    (stored : C -> Z -> list Z -> Prop) : Prop := {
  dc_get : forall c h d, cache_ok c -> fst (cache_get_mut c h) = Some d -> stored c h d;
  dc_get_ok : forall c h, cache_ok c -> cache_ok (snd (cache_get_mut c h));
  dc_get_mono : forall c h h' d, cache_ok c -> stored (snd (cache_get_mut c h)) h' d -> stored c h' d;
  dc_insert : forall c h d, cache_ok c ->
    exists c', cache_insert c h d = Some c' /\ cache_ok c' /\
      forall h' d', stored c' h' d' -> (h' = h /\ d' = d) \/ stored c h' d';
}.

(** [SharedCache::jump_destinations] *)
Definition jump_destinations {C} {DC : DestCache C} (cache : C) (code_hash : option Z) (code : bytes)
    : option (list Z * C) :=
  match code_hash with
  | Some h =>
      if h =? KECCAK_EMPTY then Some (find_jump_destinations code, cache)
      else
        let '(hit, cache') := cache_get_mut cache h in
        match hit with
        | Some d => Some (d, cache')
        | None =>
            let d := find_jump_destinations code in
            cache'' ← cache_insert cache' h d; Some (d, cache'')
        end
  | None => Some (find_jump_destinations code, cache)
  end.

(** ** What the scan finds *)

(** The positions at which an instruction starts: the beginning of the code, and after
    each instruction with its immediate bytes. *)
Inductive boundary (code : bytes) : Z -> Prop :=
| boundary_start : boundary code 0
| boundary_next p op : boundary code p -> vec_get code p = Some op ->
    boundary code (p + 1 + immediate_bytes op).

(** The same, from a given boundary on. *)
Inductive reaches (code : bytes) (from : Z) : Z -> Prop :=
| reaches_refl : reaches code from from
| reaches_next p op : vec_get code from = Some op ->
    reaches code (from + 1 + immediate_bytes op) p -> reaches code from p.

Lemma reaches_snoc code a p op :
  reaches code a p -> vec_get code p = Some op -> reaches code a (p + 1 + immediate_bytes op).
Proof. induction 1; intros; eauto using reaches_refl, reaches_next. Qed.

Lemma boundary_reaches code p : boundary code p <-> reaches code 0 p.
Proof.
  split.
  - induction 1; eauto using reaches_refl, reaches_snoc.
  - intros Hr. assert (Hb : boundary code 0) by constructor. revert Hb.
    induction Hr; intros Hb; [done|]. apply IHHr. by constructor.
Qed.

Lemma immediate_bytes_nonneg op : 0 <= immediate_bytes op.
Proof. unfold immediate_bytes. case_bool; lia. Qed.

Lemma reaches_le code a p : reaches code a p -> a <= p.
Proof. induction 1; [lia|]. pose proof (immediate_bytes_nonneg op). lia. Qed.

Lemma scan_at_spec op p :
  scan_at op p = (if op =? 0x5b then [p] else [], 1 + immediate_bytes op).
Proof.
  unfold scan_at. destruct (from_u8 op) as [i|] eqn:Hd.
  - rewrite (push_bytes_immediate op i Hd).
    destruct (instr_eqb i JUMPDEST) eqn:He.
    + apply instr_eqb_spec in He as ->. apply as_u8_from_u8 in Hd as <-. done.
    + assert (Hne : op <> 0x5b).
      { intros ->. injection Hd as <-. done. }
      rewrite (proj2 (Z.eqb_neq _ _) Hne).
      destruct (Z.eqb_spec (immediate_bytes op) 0) as [->|]; f_equal; lia.
  - rewrite (from_u8_None_immediate op Hd). destruct (Z.eqb_spec op 0x5b) as [->|]; done.
Qed.

Lemma scan_spec fuel code pos p :
  0 <= pos -> zlen code - pos <= Z.of_nat fuel ->
  p ∈ scan fuel code pos <-> reaches code pos p /\ vec_get code p = Some 0x5b.
Proof.
  revert pos. induction fuel as [|fuel IH]; intros pos H0 Hf; cbn [scan].
  - split; [by intros ?%elem_of_nil|]. intros [Hr%reaches_le Hg%vec_get_Some]. lia.
  - destruct (vec_get code pos) as [op|] eqn:Hop.
    + rewrite scan_at_spec, elem_of_app. pose proof (immediate_bytes_nonneg op).
      rewrite IH by lia. rewrite Z.add_assoc. split.
      * intros [Hin|[Hr Hg]]; [|eauto using reaches_next].
        destruct (Z.eqb_spec op 0x5b) as [->|]; [|by apply elem_of_nil in Hin].
        apply list_elem_of_singleton in Hin as ->. split; [constructor|done].
      * intros [Hr Hg]. inversion Hr as [|p' op' Hop' Hr']; subst.
        -- left. rewrite Hop in Hg. injection Hg as ->. by apply list_elem_of_singleton.
        -- rewrite Hop in Hop'. injection Hop' as ->. auto.
    + split; [by intros ?%elem_of_nil|]. intros [Hr%reaches_le Hg%vec_get_Some].
      destruct (vec_get_is_Some code pos) as [? ?]; [lia|congruence].
Qed.

Lemma contains_spec s p : contains s p = true <-> p ∈ s.
Proof.
  unfold contains. rewrite existsb_exists. split.
  - intros (x & Hx & ->%Z.eqb_eq). by apply list_elem_of_In.
  - intros Hp. exists p. split; [by apply list_elem_of_In|apply Z.eqb_refl].
Qed.

(** C31: the scan marks a position exactly when an instruction starts there and that
    instruction is [JUMPDEST]; a [0x5b] byte inside the immediate data of a [PUSH] is
    never a destination. *)
Theorem find_jump_destinations_spec (code : bytes) (p : Z) :
  contains (find_jump_destinations code) p = true <->
  boundary code p /\ vec_get code p = Some 0x5b.
Proof.
  rewrite contains_spec, boundary_reaches. apply scan_spec; [lia|]. unfold zlen. lia.
Qed.

(** ** The cache of scans *)

Section MemoryLruInstance.
Context {L : Type} `{LruCache L Z (list Z)}.
Context (heap_size_of : list Z -> Z) (Hsize : forall v, 1 <= heap_size_of v < 2 ^ 62).
Context (entries : L -> list (Z * list Z)) {laws : LruCacheLaws entries}.

#[local] Instance memory_lru_dest_cache : DestCache (MemoryLruCache L) := {
  cache_get_mut := memory_cache_get_mut;
  cache_insert := memory_cache_insert heap_size_of;
}.

Definition memory_stored (c : MemoryLruCache L) (h : Z) (d : list Z) : Prop :=
  (h, d) ∈ entries (mc_inner c).

Lemma memory_lru_dest_cache_laws :
  DestCacheLaws (MemoryLruCache L) (cache_inv heap_size_of entries) memory_stored.
Proof.
  split; cbn.
  - intros c h d Hc. destruct (memory_cache_get_mut_ok heap_size_of entries c h Hc) as (_ & -> & _).
    apply lru_find_Some.
  - intros c h Hc. by destruct (memory_cache_get_mut_ok heap_size_of entries c h Hc).
  - intros c h h' d Hc. destruct (memory_cache_get_mut_ok heap_size_of entries c h Hc) as (_ & _ & Hin).
    apply Hin.
  - intros c h d Hc. destruct (memory_cache_insert_ok heap_size_of entries Hsize c h d Hc)
      as (c' & n & -> & Hok & _ & He).
    exists c'. split_and!; [done|done|]. unfold memory_stored. rewrite He. intros h' d' Hin.
    assert (Hi : (h', d') ∈ lru_remove h (entries (mc_inner c)) ++ [(h, d)])
      by (rewrite <- (take_drop n); apply elem_of_app; by right).
    apply elem_of_remove_snoc in Hi as [[= -> ->]|]; auto.
Qed.

End MemoryLruInstance.

Section Coherence.
Context {C : Type} `{DestCache C} (cache_ok : C -> Prop) (stored : C -> Z -> list Z -> Prop).
Context {laws : DestCacheLaws C cache_ok stored}.
Context (hash : bytes -> Z) (known : bytes -> Prop).

(** Every entry is the scan of the known code with that hash. *)
Definition coherent (c : C) : Prop :=
  cache_ok c /\
  forall h d code, stored c h d -> known code -> hash code = h -> d = find_jump_destinations code.

Lemma jump_destinations_coherent c code_hash code :
  (forall c1 c2, known c1 -> known c2 -> hash c1 = hash c2 -> c1 = c2) ->
  coherent c -> known code -> (forall h, code_hash = Some h -> h = hash code) ->
  exists c', jump_destinations c code_hash code = Some (find_jump_destinations code, c') /\
             coherent c'.
Proof.
  intros Hinj [Hok Hcoh] Hk Hh. unfold jump_destinations.
  destruct code_hash as [h|]; [|exists c; done]. specialize (Hh h eq_refl). subst h.
  case_bool; [exists c; done|].
  pose proof (dc_get c (hash code)) as Hget. pose proof (dc_get_ok c (hash code) Hok) as Hok'.
  pose proof (fun h' d => dc_get_mono c (hash code) h' d Hok) as Hmono.
  destruct (cache_get_mut c (hash code)) as [[d|] c1]; cbn in *.
  - exists c1. rewrite <- (Hcoh _ d code (Hget d Hok eq_refl) Hk eq_refl). split; [done|].
    split; [done|]. eauto.
  - destruct (dc_insert c1 (hash code) (find_jump_destinations code) Hok') as (c2 & -> & Hok2 & Hst).
    exists c2. split; [done|]. split; [done|]. intros h d code' Hd Hk' Hh'.
    destruct (Hst h d Hd) as [[-> ->]|Hd']; [|eauto]. by rewrite (Hinj _ _ Hk' Hk Hh').
Qed.

End Coherence.

(** Behind the memory-bounded cache, a look-up of jump destinations always answers
    with the scan of the code, whether it hits, misses or evicts, as long as the hash
    identifies the code among those in use; the cache stays coherent. *)
Theorem shared_cache_transparent {L : Type} `{LruCache L Z (list Z)}
    (heap_size_of : list Z -> Z) (entries : L -> list (Z * list Z)) (laws : LruCacheLaws entries)
    (hash : bytes -> Z) (known : bytes -> Prop) (c : MemoryLruCache L)
    (code_hash : option Z) (code : bytes)
    (Hsize : forall v, 1 <= heap_size_of v < 2 ^ 62)
    (Hinj : forall c1 c2, known c1 -> known c2 -> hash c1 = hash c2 -> c1 = c2)
    (Hc : coherent (cache_inv heap_size_of entries) (memory_stored entries) hash known c)
    (Hk : known code) (Hh : forall h, code_hash = Some h -> h = hash code) :
  exists c', jump_destinations (DC := memory_lru_dest_cache heap_size_of) c code_hash code
             = Some (find_jump_destinations code, c') /\
    coherent (cache_inv heap_size_of entries) (memory_stored entries) hash known c'.
Proof.
  pose proof (memory_lru_dest_cache_laws heap_size_of Hsize entries).
  by eapply jump_destinations_coherent.
Qed.

Lemma shared_cache_transparent_witness :
  exists c', jump_destinations (C := MemoryLruCache (ListLru.t Z (list Z)))
               (DC := memory_lru_dest_cache (fun _ => 1)) (memory_cache_new 10)
               (Some 0x5b5b) [0x5b; 0x5b] = Some ([0; 1], c').
Proof.
  destruct (shared_cache_transparent (L := ListLru.t Z (list Z)) (fun _ => 1) ListLru.pairs _
    be_value (fun c => c = [0x5b; 0x5b]) (memory_cache_new 10) (Some 0x5b5b) [0x5b; 0x5b])
    as (c' & Hc' & _).
  - lia.
  - intros c1 c2 -> ->. done.
  - split; [|intros h d code Hd; by apply elem_of_nil in Hd].
    split_and!; cbn; first [lia|constructor|by vm_compute].
  - done.
  - intros h [= <-]. reflexivity.
  - exists c'. exact Hc'.
Defined.
