(* ===== verification/Word.v ===== *)
(** * Word arithmetic of the interpreter

    The arithmetic, comparison and bitwise arms of [exec_instruction]
    ([ethcore/evm/src/interpreter/mod.rs]) as functions of the popped operands, each with
    the short cuts and sign manipulations the code uses. *)

From S2P Require Import Prelude.
From stdpp Require Import base numbers list.

Open Scope Z_scope.

(** ** Definitions *)

Definition bool_to_u256 (val : bool) : Z := if val then 1 else 0.

Definition set_sign (value : Z) (sign : bool) : Z :=
  if sign then fst (u256_overflowing_add (Z.lxor (u256_not 0) value) 1) else value.

(** [arr[3].leading_zeros() == 0]: the most significant bit of the top word. *)
Definition get_and_reset_sign (value : Z) : Z * bool :=
  let sign := Z.testbit value 255 in (set_sign value sign, sign).

Definition op_add (a b : Z) : Z := fst (u256_overflowing_add a b).
Definition op_mul (a b : Z) : Z := fst (u256_overflowing_mul a b).
Definition op_sub (a b : Z) : Z := fst (u256_overflowing_sub a b).

Definition op_div (a b : Z) : Z :=
  if negb (b =? 0) then
    if b =? 1 then a
    else if b =? 2 then u256_shr a 1
    else if b =? 0x20 then u256_shr a 5
    else if b =? 0x100 then u256_shr a 8
    else if b =? 0x10000 then u256_shr a 16
    else if b =? 0x1000000 then u256_shr a 24
    else if b =? 2 ^ 64 then u256_shr a 64
    else if b =? 2 ^ 96 then u256_shr a 96
    else if b =? 2 ^ 224 then u256_shr a 224
    else if b =? 2 ^ 248 then u256_shr a 248
    else a / b
  else 0.

Definition op_mod (a b : Z) : Z := if negb (b =? 0) then a mod b else 0.

Definition op_sdiv (x y : Z) : Z :=
  let '(a, sign_a) := get_and_reset_sign x in
  let '(b, sign_b) := get_and_reset_sign y in
  let min := u256_shl 1 255 - 1 in
  if b =? 0 then 0
  else if (a =? min) && (b =? u256_not 0) then min
  else set_sign (a / b) (xorb sign_a sign_b).

Definition op_smod (ua ub : Z) : Z :=
  let '(a, sign_a) := get_and_reset_sign ua in
  let b := fst (get_and_reset_sign ub) in
  if negb (b =? 0) then set_sign (a mod b) sign_a else 0.

(** [U256::overflowing_pow]: square and multiply, modulo [2^256]. *)
Fixpoint pow_mod (base : Z) (e : positive) : Z :=
  match e with
  | xH => base mod U256_MOD
  | xO e' => let r := pow_mod base e' in (r * r) mod U256_MOD
  | xI e' => let r := pow_mod base e' in (base * ((r * r) mod U256_MOD)) mod U256_MOD
  end.

Definition op_exp (base expon : Z) : Z :=
  match expon with
  | Zpos e => pow_mod base e
  | _ => 1
  end.

Definition op_not (a : Z) : Z := u256_not a.
Definition op_lt (a b : Z) : Z := bool_to_u256 (a <? b).
Definition op_gt (a b : Z) : Z := bool_to_u256 (b <? a).

Definition op_slt (x y : Z) : Z :=
  let '(a, neg_a) := get_and_reset_sign x in
  let '(b, neg_b) := get_and_reset_sign y in
  let is_positive_lt := (a <? b) && negb (neg_a || neg_b) in
  let is_negative_lt := (b <? a) && (neg_a && neg_b) in
  let has_different_signs := neg_a && negb neg_b in
  bool_to_u256 (is_positive_lt || is_negative_lt || has_different_signs).

Definition op_sgt (x y : Z) : Z :=
  let '(a, neg_a) := get_and_reset_sign x in
  let '(b, neg_b) := get_and_reset_sign y in
  let is_positive_gt := (b <? a) && negb (neg_a || neg_b) in
  let is_negative_gt := (a <? b) && (neg_a && neg_b) in
  let has_different_signs := negb neg_a && neg_b in
  bool_to_u256 (is_positive_gt || is_negative_gt || has_different_signs).

Definition op_eq (a b : Z) : Z := bool_to_u256 (a =? b).
Definition op_iszero (a : Z) : Z := bool_to_u256 (a =? 0).
Definition op_and (a b : Z) : Z := Z.land a b.
Definition op_or (a b : Z) : Z := Z.lor a b.
Definition op_xor (a b : Z) : Z := Z.lxor a b.

Definition op_byte (word val : Z) : Z :=
  if word <? 32 then Z.land (u256_shr val (8 * (31 - low_u64 word))) 0xff else 0.

Definition op_addmod (a b c : Z) : Z :=
  if negb (c =? 0) then ((a + b) mod U512_MOD) mod c else 0.

Definition op_mulmod (a b c : Z) : Z :=
  if negb (c =? 0) then ((a * b) mod U512_MOD) mod c else 0.

(** The branch of [SIGNEXTEND] taken where the byte index is below 32. *)
Definition op_signextend (bit number : Z) : Z :=
  let bit_position := low_u64 bit * 8 + 7 in
  let mask := u256_shl 1 bit_position - 1 in
  if Z.testbit number bit_position then Z.lor number (u256_not mask) else Z.land number mask.

Definition op_shl (shift value : Z) : Z := if 256 <=? shift then 0 else u256_shl value shift.
Definition op_shr (shift value : Z) : Z := if 256 <=? shift then 0 else u256_shr value shift.

Definition op_sar (shift value : Z) : Z :=
  let CONST_HIBIT := 2 ^ 255 in
  let sign := negb (Z.land value CONST_HIBIT =? 0) in
  if 256 <=? shift then if sign then U256_MOD - 1 else 0
  else
    let shifted := u256_shr value shift in
    if sign then Z.lor shifted (u256_shl (U256_MOD - 1) (256 - shift)) else shifted.

(** ** The words as integers *)

(** Two's complement reading of a word. *)
Definition signed (x : Z) : Z := if x <? 2 ^ 255 then x else x - U256_MOD.

(** The word that represents an integer. *)
Definition of_signed (z : Z) : Z := z mod U256_MOD.

(** Sign extension of the low [n] bits. *)
Definition sign_extend_bits (n x : Z) : Z :=
  let low := x mod 2 ^ n in if low <? 2 ^ (n - 1) then low else low - 2 ^ n.

(** ** Sign and magnitude *)

Lemma lxor_not x : is_u256 x -> Z.lxor (u256_not 0) x = U256_MOD - 1 - x.
Proof.
  intros Hx. unfold u256_not. rewrite Z.sub_0_r.
  assert (Hand : Z.land (Z.lxor (U256_MOD - 1) x) x = 0).
  { apply Z.bits_inj'; intros n Hn.
    rewrite Z.land_spec, Z.lxor_spec, Z.bits_0.
    destruct (Z_lt_le_dec n 256) as [Hlt|Hge].
    - replace (U256_MOD - 1) with (Z.ones 256) by reflexivity.
      rewrite Z.ones_spec_low by lia. by destruct (Z.testbit x n).
    - rewrite (u256_high_bits x) by done. by destruct (Z.testbit _ n). }
  assert (Hsum : Z.lxor (U256_MOD - 1) x + x = U256_MOD - 1).
  { rewrite Z.add_nocarry_lxor by done. by rewrite Z.lxor_assoc, Z.lxor_nilpotent, Z.lxor_0_r. }
  lia.
Qed.

Lemma set_sign_spec v s : is_u256 v -> set_sign v s = of_signed (if s then - v else v).
Proof.
  intros Hv. unfold set_sign, of_signed. destruct s; [|symmetry; apply Z.mod_small; exact Hv].
  rewrite lxor_not by done. cbn [fst u256_overflowing_add].
  replace (U256_MOD - 1 - v + 1) with (- v + 1 * U256_MOD) by lia.
  by rewrite Z.mod_add by done.
Qed.

Lemma testbit_sign x : is_u256 x -> Z.testbit x 255 = (2 ^ 255 <=? x).
Proof.
  intros Hx. destruct (Z.leb_spec (2 ^ 255) x) as [H|H].
  - apply Z.testbit_true; [lia|].
    rewrite <- (Z.div_unique_pos x (2 ^ 255) 1 (x - 2 ^ 255)); range_lia || done.
  - destruct Hx as [Hx0 _].
    apply (proj1 (range_testbit_iff 255 x ltac:(lia) Hx0)); [exact H|lia].
Qed.

Lemma get_and_reset_sign_spec x :
  is_u256 x -> get_and_reset_sign x = (Z.abs (signed x), signed x <? 0).
Proof.
  intros Hx. unfold get_and_reset_sign. rewrite set_sign_spec, testbit_sign by done.
  unfold of_signed, signed.
  destruct (Z.leb_spec (2 ^ 255) x), (Z.ltb_spec x (2 ^ 255)); try lia.
  - replace (- x) with (U256_MOD - x + -1 * U256_MOD) by lia.
    rewrite Z.mod_add, Z.mod_small by range_lia.
    f_equal; [range_lia|symmetry; apply Z.ltb_lt; range_lia].
  - rewrite Z.mod_small by exact Hx.
    f_equal; [range_lia|symmetry; apply Z.ltb_ge; range_lia].
Qed.

Lemma signed_bound x : is_u256 x -> - 2 ^ 255 <= signed x < 2 ^ 255.
Proof. unfold signed. case_bool; range_lia. Qed.

Lemma signed_zero x : is_u256 x -> (signed x = 0 <-> x = 0).
Proof. unfold signed. case_bool; range_lia. Qed.

Lemma signed_of_signed z : - 2 ^ 255 <= z < 2 ^ 255 -> signed (of_signed z) = z.
Proof.
  intros Hz. unfold signed, of_signed. destruct (Z_lt_le_dec z 0).
  - replace z with (z + U256_MOD + -1 * U256_MOD) by lia.
    rewrite Z.mod_add, Z.mod_small by range_lia. case_bool; range_lia.
  - rewrite Z.mod_small by range_lia. case_bool; range_lia.
Qed.

Lemma quot_abs_sign a b : b <> 0 ->
  (if xorb (a <? 0) (b <? 0) then - (Z.abs a / Z.abs b) else Z.abs a / Z.abs b) = Z.quot a b.
Proof.
  intros Hb. rewrite <- Z.quot_div_nonneg by lia. rewrite Z.quot_abs by done.
  destruct (Z.ltb_spec a 0), (Z.ltb_spec b 0); cbn.
  - rewrite Z.abs_eq; [done|]. rewrite <- Z.quot_opp_opp by done. apply Z.quot_pos; lia.
  - rewrite Z.abs_neq; [lia|].
    rewrite <- (Z.opp_involutive a), Z.quot_opp_l by done. pose proof (Z.quot_pos (- a) b). lia.
  - rewrite Z.abs_neq; [lia|].
    rewrite <- (Z.opp_involutive b), Z.quot_opp_r by lia. pose proof (Z.quot_pos a (- b)). lia.
  - rewrite Z.abs_eq; [done|]. apply Z.quot_pos; lia.
Qed.

Lemma rem_abs_sign a b : b <> 0 ->
  (if a <? 0 then - (Z.abs a mod Z.abs b) else Z.abs a mod Z.abs b) = Z.rem a b.
Proof.
  intros Hb. rewrite <- Z.rem_mod_nonneg by lia. rewrite Z.rem_abs by done.
  destruct (Z.ltb_spec a 0).
  - rewrite Z.abs_neq; [lia|]. rewrite <- (Z.opp_involutive a), Z.rem_opp_l by done.
    pose proof (Z.rem_bound_pos_pos (- a) b). pose proof (Z.rem_nonneg (- a) b). lia.
  - rewrite Z.abs_eq; [done|]. apply Z.rem_nonneg; lia.
Qed.

(** ** Unsigned operations *)

Lemma op_div_spec a b : op_div a b = if b =? 0 then 0 else a / b.
Proof.
  unfold op_div, u256_shr. destruct (Z.eqb_spec b 0) as [->|Hb]; [done|cbn [negb]].
  repeat match goal with
  | |- (if b =? ?k then _ else _) = _ =>
      destruct (Z.eqb_spec b k) as [->|]; [rewrite ?Z.shiftr_div_pow2 by lia; try done|]
  end; [|done].
  by rewrite Z.div_1_r.
Qed.

Lemma pow_mod_spec base e : pow_mod base e = base ^ Zpos e mod U256_MOD.
Proof.
  induction e as [e IH|e IH|]; cbn [pow_mod].
  - rewrite IH, <- Z.mul_mod, Z.mul_mod_idemp_r by done.
    f_equal. rewrite Pos2Z.inj_xI, Z.pow_add_r, Z.pow_twice_r, Z.pow_1_r by lia. lia.
  - rewrite IH, <- Z.mul_mod by done. f_equal.
    by rewrite Pos2Z.inj_xO, Z.pow_twice_r.
  - by rewrite Z.pow_1_r.
Qed.

Lemma op_exp_spec base expon : 0 <= expon -> op_exp base expon = base ^ expon mod U256_MOD.
Proof. destruct expon; intros; [done|apply pow_mod_spec|lia]. Qed.

Lemma op_addmod_spec a b c : is_u256 a -> is_u256 b ->
  op_addmod a b c = if c =? 0 then 0 else (a + b) mod c.
Proof.
  intros. unfold op_addmod. destruct (c =? 0); [done|cbn [negb]].
  by rewrite (Z.mod_small (a + b)) by range_lia.
Qed.

Lemma op_mulmod_spec a b c : is_u256 a -> is_u256 b ->
  op_mulmod a b c = if c =? 0 then 0 else (a * b) mod c.
Proof.
  intros Ha Hb. unfold op_mulmod. destruct (c =? 0); [done|cbn [negb]].
  rewrite (Z.mod_small (a * b)); [done|]. unfold_widths. nia.
Qed.

Lemma be_bytes_lookup n v i : (i < n)%nat -> 0 <= v ->
  be_bytes n v !! i = Some ((v / 256 ^ Z.of_nat (n - 1 - i)) mod 256).
Proof.
  revert v i. induction n as [|n IH]; intros v i Hi Hv; [lia|]. cbn [be_bytes].
  destruct (decide (i < n)%nat) as [Hlt|Hge].
  - rewrite lookup_app_l by (rewrite length_be_bytes; lia).
    rewrite IH by (lia || (apply Z.div_pos; lia)). f_equal.
    rewrite Z.div_div by (try apply Z.pow_pos_nonneg; lia).
    rewrite <- Z.pow_succ_r by lia. do 3 f_equal. lia.
  - rewrite lookup_app_r by (rewrite length_be_bytes; lia). rewrite length_be_bytes.
    replace (i - n)%nat with O by lia. replace (S n - 1 - i)%nat with O by lia.
    cbn. by rewrite Z.div_1_r.
Qed.

(** [BYTE] selects from the big-endian encoding of the word. *)
Lemma op_byte_spec k v : is_u256 k -> is_u256 v ->
  op_byte k v = default 0 (be_bytes 32 v !! Z.to_nat k).
Proof.
  intros Hk Hv. unfold op_byte. destruct (Z.ltb_spec k 32).
  - rewrite low_u64_small by range_lia.
    rewrite be_bytes_lookup by range_lia. cbn [default].
    unfold u256_shr. change 0xff with (Z.ones 8). rewrite Z.land_ones by lia.
    rewrite Z.shiftr_div_pow2 by range_lia. change (2 ^ 8) with 256.
    change 256 with (2 ^ 8). rewrite <- Z.pow_mul_r by lia. unfold id.
    do 3 f_equal. range_lia.
  - rewrite lookup_ge_None_2; [done|]. rewrite length_be_bytes. lia.
Qed.

(** ** Shifts *)

Lemma op_shl_spec s v : is_u256 s -> op_shl s v = (v * 2 ^ s) mod U256_MOD.
Proof.
  intros Hs. unfold op_shl, u256_shl. destruct (Z.leb_spec 256 s).
  - replace s with (256 + (s - 256)) by lia. rewrite Z.pow_add_r by lia.
    replace (v * (2 ^ 256 * 2 ^ (s - 256))) with (v * 2 ^ (s - 256) * U256_MOD)
      by (unfold U256_MOD; lia).
    by rewrite Z.mod_mul.
  - by rewrite Z.shiftl_mul_pow2 by range_lia.
Qed.

Lemma op_shr_spec s v : is_u256 s -> is_u256 v -> op_shr s v = v / 2 ^ s.
Proof.
  intros Hs Hv. unfold op_shr, u256_shr. destruct (Z.leb_spec 256 s).
  - symmetry. apply Z.div_small. split; [range_lia|].
    eapply Z.lt_le_trans with (2 ^ 256); [range_lia|apply Z.pow_le_mono_r; lia].
  - by rewrite Z.shiftr_div_pow2 by range_lia.
Qed.

Lemma lor_high a m n : 0 <= n -> 0 <= a < 2 ^ n -> Z.lor a (m * 2 ^ n) = a + m * 2 ^ n.
Proof.
  intros Hn Ha. rewrite <- Z.shiftl_mul_pow2 by done.
  assert (Hand : Z.land a (Z.shiftl m n) = 0).
  { apply Z.bits_inj'; intros i Hi. rewrite Z.land_spec, Z.bits_0, Z.shiftl_spec by done.
    destruct (Z_lt_le_dec i n).
    - by rewrite (Z.testbit_neg_r m), andb_false_r by lia.
    - destruct Ha as [Ha0 Ha].
      by rewrite (proj1 (range_testbit_iff n a Hn Ha0) Ha) by done. }
  by rewrite Z.add_nocarry_lxor, Z.lxor_lor.
Qed.

(** The words with exactly the bits from [n] up set. *)
Lemma high_ones n : 0 <= n <= 256 -> U256_MOD - 2 ^ n = Z.ones (256 - n) * 2 ^ n.
Proof.
  intros Hn. rewrite Z.ones_equiv, <- Z.sub_1_r, Z.mul_sub_distr_r, <- Z.pow_add_r by lia.
  unfold U256_MOD. do 2 f_equal; lia.
Qed.

Lemma land_hibit v : is_u256 v -> negb (Z.land v (2 ^ 255) =? 0) = (2 ^ 255 <=? v).
Proof.
  intros Hv. rewrite <- testbit_sign by done.
  destruct (Z.testbit v 255) eqn:Hb.
  - apply negb_true_iff, Z.eqb_neq. intros H0.
    assert (Z.testbit (Z.land v (2 ^ 255)) 255 = false) as Hf by (rewrite H0; done).
    rewrite Z.land_spec, Hb, Z.pow2_bits_true in Hf by lia. done.
  - apply negb_false_iff, Z.eqb_eq, Z.bits_inj'; intros i Hi.
    rewrite Z.land_spec, Z.pow2_bits_eqb, Z.bits_0 by lia.
    destruct (Z.eqb_spec 255 i) as [<-|]; [by rewrite Hb|apply andb_false_r].
Qed.

Lemma u256_shl_max n : 0 <= n <= 256 -> u256_shl (U256_MOD - 1) n = U256_MOD - 2 ^ n.
Proof.
  intros Hn. unfold u256_shl. rewrite Z.shiftl_mul_pow2 by lia.
  assert (1 <= 2 ^ n <= 2 ^ 256).
  { split; [pose proof (Z.pow_pos_nonneg 2 n); lia|apply Z.pow_le_mono_r; lia]. }
  replace ((U256_MOD - 1) * 2 ^ n) with (U256_MOD - 2 ^ n + (2 ^ n - 1) * U256_MOD) by lia.
  rewrite Z.mod_add by done. apply Z.mod_small. range_lia.
Qed.

(** [SAR] rounds towards minus infinity. *)
Lemma op_sar_spec s v : is_u256 s -> is_u256 v ->
  op_sar s v = of_signed (signed v / 2 ^ s).
Proof.
  intros Hs Hv. unfold op_sar. rewrite land_hibit by done.
  unfold of_signed, signed.
  assert (Hbig : 256 <= s -> 2 ^ 256 <= 2 ^ s) by (intros; apply Z.pow_le_mono_r; lia).
  destruct (Z.leb_spec (2 ^ 255) v), (Z.ltb_spec v (2 ^ 255)); try lia;
    destruct (Z.leb_spec 256 s) as [H256|H256].
  - rewrite <- (Z.div_unique_pos (v - U256_MOD) (2 ^ s) (-1) (v - U256_MOD + 2 ^ s)); [done| |lia].
    specialize (Hbig H256). range_lia.
  - rewrite u256_shl_max by range_lia. rewrite high_ones by range_lia.
    unfold u256_shr. rewrite Z.shiftr_div_pow2 by range_lia.
    assert (Hsh : 2 ^ 256 = 2 ^ (256 - s) * 2 ^ s)
      by (rewrite <- Z.pow_add_r by range_lia; f_equal; lia).
    assert (0 < 2 ^ s) by (apply Z.pow_pos_nonneg; range_lia).
    assert (0 <= v / 2 ^ s < 2 ^ (256 - s)).
    { split; [apply Z.div_pos; range_lia|apply Z.div_lt_upper_bound; range_lia]. }
    rewrite lor_high, <- high_ones by range_lia.
    replace (v - U256_MOD) with (v + (- 2 ^ (256 - s)) * 2 ^ s) by range_lia.
    rewrite Z.div_add by lia.
    assert (2 ^ (256 - s) <= 2 ^ 256) by (apply Z.pow_le_mono_r; range_lia).
    apply (Z.mod_unique_pos _ _ (-1)); range_lia.
  - specialize (Hbig H256). rewrite (Z.div_small v) by range_lia. done.
  - unfold u256_shr. rewrite Z.shiftr_div_pow2 by range_lia. symmetry. apply Z.mod_small.
    split; [apply Z.div_pos; [range_lia|apply Z.pow_pos_nonneg; range_lia]|].
    apply Z.div_lt_upper_bound; [apply Z.pow_pos_nonneg; range_lia|].
    pose proof (Z.pow_pos_nonneg 2 s). unfold_widths. nia.
Qed.

Lemma mod_pow_succ n p : 0 <= p ->
  n mod 2 ^ (p + 1) = n mod 2 ^ p + (if Z.testbit n p then 2 ^ p else 0).
Proof.
  intros Hp. pose proof (Z.pow_pos_nonneg 2 p ltac:(lia) Hp).
  rewrite Z.pow_add_r, Z.pow_1_r, Z.rem_mul_r by lia.
  rewrite Z.testbit_eqb by lia. pose proof (Z.mod_pos_bound (n / 2 ^ p) 2 ltac:(lia)).
  destruct (Z.eqb_spec ((n / 2 ^ p) mod 2) 1) as [->|]; [lia|].
  replace ((n / 2 ^ p) mod 2) with 0 by lia. lia.
Qed.

Lemma op_signextend_spec k n : is_u256 n -> 0 <= k < 32 ->
  op_signextend k n = of_signed (sign_extend_bits (8 * k + 8) n).
Proof.
  intros Hn Hk. unfold op_signextend, sign_extend_bits, of_signed.
  rewrite low_u64_small by range_lia. set (p := k * 8 + 7).
  replace (8 * k + 8) with (p + 1) by lia. replace (p + 1 - 1) with p by lia.
  assert (Hp : 0 <= p <= 255) by lia.
  assert (Hpow : 1 <= 2 ^ p <= 2 ^ 255).
  { split; [pose proof (Z.pow_pos_nonneg 2 p); lia|apply Z.pow_le_mono_r; lia]. }
  assert (Hmask : u256_shl 1 p - 1 = Z.ones p).
  { unfold u256_shl. rewrite Z.shiftl_1_l, Z.mod_small by range_lia.
    by rewrite Z.ones_equiv, Z.sub_1_r. }
  rewrite Hmask, mod_pow_succ by lia. rewrite Z.pow_add_r, Z.pow_1_r by lia.
  pose proof (Z.mod_pos_bound n (2 ^ p) ltac:(lia)).
  destruct (Z.testbit n p) eqn:Hbit.
  - rewrite (proj2 (Z.ltb_ge _ _)) by lia.
    assert (Hnot : u256_not (Z.ones p) = Z.ones (256 - p) * 2 ^ p).
    { rewrite <- high_ones by lia. unfold u256_not. rewrite Z.ones_equiv. lia. }
    transitivity (Z.lor (n mod 2 ^ p) (Z.ones (256 - p) * 2 ^ p)).
    + rewrite Hnot. apply Z.bits_inj'; intros i Hi.
      rewrite !Z.lor_spec, <- Z.shiftl_mul_pow2, Z.shiftl_spec by lia.
      destruct (Z_lt_le_dec i p); [by rewrite Z.mod_pow2_bits_low by lia|].
      destruct (Z_lt_le_dec i 256).
      * rewrite Z.ones_spec_low by lia. by rewrite !orb_true_r.
      * by rewrite (u256_high_bits n), Z.mod_pow2_bits_high by (done || lia).
    + rewrite lor_high, <- high_ones by lia.
      apply (Z.mod_unique_pos _ _ (-1)); range_lia.
  - rewrite (proj2 (Z.ltb_lt _ _)) by lia. rewrite Z.land_ones by lia.
    symmetry. rewrite Z.add_0_r. apply Z.mod_small. range_lia.
Qed.

(** ** Signed operations *)

Lemma op_sdiv_spec x y : is_u256 x -> is_u256 y ->
  op_sdiv x y = if y =? 0 then 0 else of_signed (Z.quot (signed x) (signed y)).
Proof.
  intros Hx Hy. unfold op_sdiv. rewrite !get_and_reset_sign_spec by done.
  pose proof (signed_bound x Hx). pose proof (signed_bound y Hy).
  pose proof (signed_zero y Hy) as Hz.
  destruct (Z.eqb_spec (Z.abs (signed y)) 0) as [Heq|Hne].
  - rewrite (proj2 (Z.eqb_eq y 0)) by (apply Hz; lia). done.
  - rewrite (proj2 (Z.eqb_neq y 0)) by (intros ->; apply Hne; by rewrite (proj2 Hz)).
    rewrite (proj2 (Z.eqb_neq (Z.abs (signed y)) (u256_not 0))) by (unfold u256_not; range_lia).
    rewrite andb_false_r, set_sign_spec, quot_abs_sign; [done|lia|].
    split; [apply Z.div_pos; lia|].
    apply Z.div_lt_upper_bound; [lia|]. unfold_widths. nia.
Qed.

Lemma op_smod_spec x y : is_u256 x -> is_u256 y ->
  op_smod x y = if y =? 0 then 0 else of_signed (Z.rem (signed x) (signed y)).
Proof.
  intros Hx Hy. unfold op_smod. rewrite !get_and_reset_sign_spec by done. cbn [fst].
  pose proof (signed_bound x Hx). pose proof (signed_bound y Hy).
  pose proof (signed_zero y Hy) as Hz.
  destruct (Z.eqb_spec (Z.abs (signed y)) 0) as [Heq|Hne]; cbn [negb].
  - rewrite (proj2 (Z.eqb_eq y 0)) by (apply Hz; lia). done.
  - rewrite (proj2 (Z.eqb_neq y 0)) by (intros ->; apply Hne; by rewrite (proj2 Hz)).
    rewrite set_sign_spec, rem_abs_sign; [done|lia|].
    pose proof (Z.mod_pos_bound (Z.abs (signed x)) (Z.abs (signed y))). range_lia.
Qed.

Lemma op_slt_spec x y : is_u256 x -> is_u256 y ->
  op_slt x y = bool_to_u256 (signed x <? signed y).
Proof.
  intros Hx Hy. unfold op_slt. rewrite !get_and_reset_sign_spec by done. f_equal.
  repeat match goal with |- context [?a <? ?b] => destruct (Z.ltb_spec a b) end; cbn; done || lia.
Qed.

Lemma op_sgt_spec x y : is_u256 x -> is_u256 y ->
  op_sgt x y = bool_to_u256 (signed y <? signed x).
Proof.
  intros Hx Hy. unfold op_sgt. rewrite !get_and_reset_sign_spec by done. f_equal.
  repeat match goal with |- context [?a <? ?b] => destruct (Z.ltb_spec a b) end; cbn; done || lia.
Qed.

(** ** Closure: every operation of words yields a word *)

Lemma u256_div a b : is_u256 a -> 0 < b -> is_u256 (a / b).
Proof.
  intros Ha Hb. split; [apply Z.div_pos; range_lia|].
  apply Z.div_lt_upper_bound; [done|]. unfold_widths. nia.
Qed.

Lemma u256_mod_small a b : is_u256 b -> b <> 0 -> is_u256 (a mod b).
Proof. intros Hb H0. pose proof (Z.mod_pos_bound a b). range_lia. Qed.

Lemma u256_of_bits f a b :
  (forall x y i, Z.testbit (f x y) i = false \/ Z.testbit x i = true \/ Z.testbit y i = true) ->
  0 <= f a b -> is_u256 a -> is_u256 b -> is_u256 (f a b).
Proof.
  intros Hf H0 Ha Hb. apply is_u256_bits; [done|]. intros i Hi.
  destruct (Hf a b i) as [?|[H|H]]; [done| |];
    rewrite u256_high_bits in H by done; done.
Qed.

Lemma bool_to_u256_ok b : is_u256 (bool_to_u256 b).
Proof. unfold bool_to_u256. destruct b; range_lia. Qed.
#[export] Hint Resolve bool_to_u256_ok u256_div u256_mod_small : origo.

(** An operation that maps words to words. *)
Definition closed1 (f : Z -> Z) : Prop := forall a, is_u256 a -> is_u256 (f a).
Definition closed2 (f : Z -> Z -> Z) : Prop := forall a b, is_u256 a -> is_u256 b -> is_u256 (f a b).
Definition closed3 (f : Z -> Z -> Z -> Z) : Prop :=
  forall a b c, is_u256 a -> is_u256 b -> is_u256 c -> is_u256 (f a b c).

Lemma op_add_closed : closed2 op_add. Proof. intros a b _ _. apply is_u256_mod. Qed.
Lemma op_mul_closed : closed2 op_mul. Proof. intros a b _ _. apply is_u256_mod. Qed.
Lemma op_sub_closed : closed2 op_sub. Proof. intros a b _ _. apply is_u256_mod. Qed.
Lemma op_div_closed : closed2 op_div.
Proof.
  intros a b Ha Hb. rewrite op_div_spec. destruct (Z.eqb_spec b 0); [range_lia|].
  apply u256_div; [done|range_lia].
Qed.
Lemma op_mod_closed : closed2 op_mod.
Proof.
  intros a b Ha Hb. unfold op_mod. destruct (Z.eqb_spec b 0); cbn [negb]; [range_lia|]. by apply u256_mod_small.
Qed.
Lemma op_sdiv_closed : closed2 op_sdiv.
Proof. intros a b Ha Hb. rewrite op_sdiv_spec by done. case_bool; [range_lia|apply is_u256_mod]. Qed.
Lemma op_smod_closed : closed2 op_smod.
Proof. intros a b Ha Hb. rewrite op_smod_spec by done. case_bool; [range_lia|apply is_u256_mod]. Qed.
Lemma op_exp_closed : closed2 op_exp.
Proof. intros a b Ha Hb. rewrite op_exp_spec by range_lia. apply is_u256_mod. Qed.
Lemma op_not_closed : closed1 op_not.
Proof. intros a Ha. unfold op_not, u256_not. range_lia. Qed.
Lemma op_lt_closed : closed2 op_lt. Proof. intros a b _ _. apply bool_to_u256_ok. Qed.
Lemma op_gt_closed : closed2 op_gt. Proof. intros a b _ _. apply bool_to_u256_ok. Qed.
Lemma op_slt_closed : closed2 op_slt.
Proof. intros a b Ha Hb. rewrite op_slt_spec by done. apply bool_to_u256_ok. Qed.
Lemma op_sgt_closed : closed2 op_sgt.
Proof. intros a b Ha Hb. rewrite op_sgt_spec by done. apply bool_to_u256_ok. Qed.
Lemma op_eq_closed : closed2 op_eq. Proof. intros a b _ _. apply bool_to_u256_ok. Qed.
Lemma op_iszero_closed : closed1 op_iszero. Proof. intros a _. apply bool_to_u256_ok. Qed.
Lemma op_and_closed : closed2 op_and.
Proof.
  intros a b Ha Hb. apply u256_of_bits; [|apply Z.land_nonneg; left; range_lia|done|done].
  intros x y i. rewrite Z.land_spec. destruct (Z.testbit x i); auto.
Qed.
Lemma op_or_closed : closed2 op_or.
Proof.
  intros a b Ha Hb. apply u256_of_bits; [|apply Z.lor_nonneg; range_lia|done|done].
  intros x y i. rewrite Z.lor_spec. destruct (Z.testbit x i), (Z.testbit y i); auto.
Qed.
Lemma op_xor_closed : closed2 op_xor.
Proof.
  intros a b Ha Hb. apply u256_of_bits; [|apply Z.lxor_nonneg; range_lia|done|done].
  intros x y i. rewrite Z.lxor_spec. destruct (Z.testbit x i), (Z.testbit y i); auto.
Qed.
Lemma op_byte_closed : closed2 op_byte.
Proof.
  intros a b Ha Hb. rewrite op_byte_spec by done.
  destruct (be_bytes 32 b !! _) eqn:Hl; cbn; [|range_lia].
  pose proof (Forall_lookup_1 _ _ _ _ (is_bytes_be_bytes 32 b) Hl) as Hz. cbn in Hz. unfold id. range_lia.
Qed.
Lemma op_addmod_closed : closed3 op_addmod.
Proof.
  intros a b c Ha Hb Hc. unfold op_addmod.
  destruct (Z.eqb_spec c 0); cbn [negb]; [range_lia|]. by apply u256_mod_small.
Qed.
Lemma op_mulmod_closed : closed3 op_mulmod.
Proof.
  intros a b c Ha Hb Hc. unfold op_mulmod.
  destruct (Z.eqb_spec c 0); cbn [negb]; [range_lia|]. by apply u256_mod_small.
Qed.
Lemma op_signextend_closed k n : is_u256 n -> 0 <= k < 32 -> is_u256 (op_signextend k n).
Proof. intros. rewrite op_signextend_spec by done. apply is_u256_mod. Qed.
Lemma op_shl_closed : closed2 op_shl.
Proof. intros a b Ha Hb. rewrite op_shl_spec by done. apply is_u256_mod. Qed.
Lemma op_shr_closed : closed2 op_shr.
Proof.
  intros a b Ha Hb. rewrite op_shr_spec by done.
  apply u256_div; [done|apply Z.pow_pos_nonneg; range_lia].
Qed.
Lemma op_sar_closed : closed2 op_sar.
Proof. intros a b Ha Hb. rewrite op_sar_spec by done. apply is_u256_mod. Qed.

#[export] Hint Resolve op_add_closed op_mul_closed op_sub_closed op_div_closed op_mod_closed
  op_sdiv_closed op_smod_closed op_exp_closed op_not_closed op_lt_closed op_gt_closed
  op_slt_closed op_sgt_closed op_eq_closed op_iszero_closed op_and_closed op_or_closed
  op_xor_closed op_byte_closed op_addmod_closed op_mulmod_closed op_shl_closed op_shr_closed
  op_sar_closed : origo.

(** ** The arithmetic of the machine *)

(** C32: the signed instructions compute on two's complement integers: [SDIV] is division
    truncated towards zero and [SMOD] its remainder (both zero for a zero divisor, with
    [-2^255 / -1] wrapping), [SLT] and [SGT] compare the signed values, [SAR] is floor division
    of the signed value by a power of two, for every shift amount, and [SIGNEXTEND], for the
    byte indices below 32 with which the interpreter calls it, extends the two's complement
    value of the low bytes. *)
Theorem signed_instructions_spec (x y : Z) (Hx : is_u256 x) (Hy : is_u256 y) :
  op_sdiv x y = (if y =? 0 then 0 else of_signed (Z.quot (signed x) (signed y))) /\
  op_smod x y = (if y =? 0 then 0 else of_signed (Z.rem (signed x) (signed y))) /\
  op_slt x y = bool_to_u256 (signed x <? signed y) /\
  op_sgt x y = bool_to_u256 (signed y <? signed x) /\
  op_sar x y = of_signed (signed y / 2 ^ x) /\
  (x < 32 -> op_signextend x y = of_signed (sign_extend_bits (8 * x + 8) y)).
Proof.
  split_and!; auto using op_sdiv_spec, op_smod_spec, op_slt_spec, op_sgt_spec, op_sar_spec.
  intros. apply op_signextend_spec; range_lia.
Qed.

(** The extreme quotient: the most negative word divided by minus one. *)
Lemma signed_instructions_spec_witness :
  op_sdiv (2 ^ 255) (2 ^ 256 - 1) = 2 ^ 255 /\ op_smod (2 ^ 256 - 7) 3 = 2 ^ 256 - 1 /\
  op_sar 1 (2 ^ 256 - 3) = 2 ^ 256 - 2 /\ op_signextend 1 0x8234 = 2 ^ 256 - 0x7dcc.
Proof.
  destruct (signed_instructions_spec (2 ^ 255) (2 ^ 256 - 1) ltac:(range_lia) ltac:(range_lia)) as (-> & _).
  destruct (signed_instructions_spec (2 ^ 256 - 7) 3 ltac:(range_lia) ltac:(range_lia)) as (_ & -> & _).
  destruct (signed_instructions_spec 1 (2 ^ 256 - 3) ltac:(range_lia) ltac:(range_lia)) as (_ & _ & _ & _ & -> & _).
  destruct (signed_instructions_spec 1 0x8234 ltac:(range_lia) ltac:(range_lia)) as (_ & _ & _ & _ & _ & H).
  rewrite H by lia. split_and!; vm_compute; reflexivity.
Defined.

(** The unsigned instructions compute modulo [2^256]: [DIV], with its table of shift
    short cuts, is floor division (zero for a zero divisor), [EXP] by squaring is the power,
    and [ADDMOD] and [MULMOD] reduce the exact sum and product, not the wrapped ones. *)
Theorem unsigned_instructions_spec (a b c : Z) (Ha : is_u256 a) (Hb : is_u256 b) (Hc : is_u256 c) :
  op_div a b = (if b =? 0 then 0 else a / b) /\
  op_exp a b = a ^ b mod U256_MOD /\
  op_addmod a b c = (if c =? 0 then 0 else (a + b) mod c) /\
  op_mulmod a b c = (if c =? 0 then 0 else (a * b) mod c).
Proof.
  split_and!; auto using op_div_spec, op_addmod_spec, op_mulmod_spec.
  apply op_exp_spec; range_lia.
Qed.

Lemma unsigned_instructions_spec_witness :
  op_div (2 ^ 255) (2 ^ 96) = 2 ^ 159 /\ op_mulmod (2 ^ 255) 6 10 = 8.
Proof.
  destruct (unsigned_instructions_spec (2 ^ 255) (2 ^ 96) 10 ltac:(range_lia) ltac:(range_lia)
              ltac:(range_lia)) as (-> & _).
  destruct (unsigned_instructions_spec (2 ^ 255) 6 10 ltac:(range_lia) ltac:(range_lia)
              ltac:(range_lia)) as (_ & _ & _ & ->).
  split; vm_compute; reflexivity.
Defined.

(** The bit-level instructions: [BYTE] indexes the big-endian bytes of the word, and
    [SHL] and [SHR] multiply and divide by a power of two for every shift amount. *)
Theorem bit_instructions_spec (s v : Z) (Hs : is_u256 s) (Hv : is_u256 v) :
  op_byte s v = default 0 (be_bytes 32 v !! Z.to_nat s) /\
  op_shl s v = (v * 2 ^ s) mod U256_MOD /\
  op_shr s v = v / 2 ^ s.
Proof. split_and!; auto using op_byte_spec, op_shl_spec, op_shr_spec. Qed.
