(* ===== verification/Interpreter.v ===== *)
(** * The interpreter

    [ethcore/evm/src/interpreter/mod.rs]: the state of one execution, the instruction
    semantics, the step function with its gas, stack and jump checks, the execution loop
    and the resumption after a sub-call or sub-create.

    The state is the pair of the interpreter and the host. [informant] (debug printing)
    is not part of it. Arms of [exec_instruction] are separate definitions where the code
    of an arm is more than a few lines; the arithmetic ones are in [Word]. *)

From S2P Require Import Prelude Schedule Instructions Vm CostType Gasometer Memory JumpTable Word.
From stdpp Require Import base numbers option strings list.

Open Scope Z_scope.
Open Scope origo_scope.

(** ActionParams without code. *)
Record InterpreterParams : Type := mkInterpreterParams {
  ip_code_address : Z;
  ip_code_hash : option Z;
  ip_address : Z;
  ip_sender : Z;
  ip_origin : Z;
  ip_gas : Z;
  ip_gas_price : Z;
  ip_value : ActionValue;
  ip_data : option bytes;
  ip_call_type : CallType;
  ip_params_type : ParamsType;
}.

(** [impl From<ActionParams> for InterpreterParams] *)
Definition InterpreterParams_from (p : ActionParams) : InterpreterParams := {|
  ip_code_address := ap_code_address p;
  ip_code_hash := ap_code_hash p;
  ip_address := ap_address p;
  ip_sender := ap_sender p;
  ip_origin := ap_origin p;
  ip_gas := ap_gas p;
  ip_gas_price := ap_gas_price p;
  ip_value := ap_value p;
  ip_data := ap_data p;
  ip_call_type := ap_call_type p;
  ip_params_type := ap_params_type p;
|}.

Inductive InstructionResult : Type :=
| InstrOk
| UnusedGas (gas : Z)
| JumpToPosition (position : Z)
| StopExecutionNeedsReturn (gas init_off init_size : Z) (apply : bool)
| StopExecution
| InstrTrap (trap : TrapKind).

(** Stepping result returned by interpreter. *)
Inductive InterpreterResult : Type :=
| Stopped
| Done (r : GasLeft + vm_error)
| Continue
| StepTrap (trap : TrapKind).

(** What [exec] returns: a finished execution or a trap to be resumed. *)
Inductive ExecResult : Type :=
| ExecDone (r : GasLeft + vm_error)
| ExecTrap (trap : TrapKind).

Section Interpreter.
Context {C : Type} {DC : DestCache C}.

(** Interpreter EVM implementation; [reader] is [position] and [code]. *)
Record Interp : Type := mkInterp {
  i_mem : bytes;
  i_cache : C;
  i_params : InterpreterParams;
  i_position : Z;
  i_code : bytes;
  i_return_data : ReturnData;
  i_do_trace : bool;
  i_done : bool;
  i_valid_jump_destinations : option (list Z);
  i_gasometer : option Gasometer;
  i_stack : list Z;
  i_resume_output_range : option (Z * Z);
  i_resume_result : option InstructionResult;
  i_last_stack_ret_len : Z;
}.

Definition set_mem (v : bytes) (i : Interp) : Interp :=
  {| i_mem := v; i_cache := i_cache i; i_params := i_params i; i_position := i_position i; i_code
     := i_code i; i_return_data := i_return_data i; i_do_trace := i_do_trace i; i_done := i_done
     i; i_valid_jump_destinations := i_valid_jump_destinations i; i_gasometer := i_gasometer i;
     i_stack := i_stack i; i_resume_output_range := i_resume_output_range i; i_resume_result :=
     i_resume_result i; i_last_stack_ret_len := i_last_stack_ret_len i |}.
Definition set_cache (v : C) (i : Interp) : Interp :=
  {| i_mem := i_mem i; i_cache := v; i_params := i_params i; i_position := i_position i; i_code :=
     i_code i; i_return_data := i_return_data i; i_do_trace := i_do_trace i; i_done := i_done i;
     i_valid_jump_destinations := i_valid_jump_destinations i; i_gasometer := i_gasometer i;
     i_stack := i_stack i; i_resume_output_range := i_resume_output_range i; i_resume_result :=
     i_resume_result i; i_last_stack_ret_len := i_last_stack_ret_len i |}.
Definition set_position (v : Z) (i : Interp) : Interp :=
  {| i_mem := i_mem i; i_cache := i_cache i; i_params := i_params i; i_position := v; i_code :=
     i_code i; i_return_data := i_return_data i; i_do_trace := i_do_trace i; i_done := i_done i;
     i_valid_jump_destinations := i_valid_jump_destinations i; i_gasometer := i_gasometer i;
     i_stack := i_stack i; i_resume_output_range := i_resume_output_range i; i_resume_result :=
     i_resume_result i; i_last_stack_ret_len := i_last_stack_ret_len i |}.
Definition set_return_data (v : ReturnData) (i : Interp) : Interp :=
  {| i_mem := i_mem i; i_cache := i_cache i; i_params := i_params i; i_position := i_position i;
     i_code := i_code i; i_return_data := v; i_do_trace := i_do_trace i; i_done := i_done i;
     i_valid_jump_destinations := i_valid_jump_destinations i; i_gasometer := i_gasometer i;
     i_stack := i_stack i; i_resume_output_range := i_resume_output_range i; i_resume_result :=
     i_resume_result i; i_last_stack_ret_len := i_last_stack_ret_len i |}.
Definition set_do_trace (v : bool) (i : Interp) : Interp :=
  {| i_mem := i_mem i; i_cache := i_cache i; i_params := i_params i; i_position := i_position i;
     i_code := i_code i; i_return_data := i_return_data i; i_do_trace := v; i_done := i_done i;
     i_valid_jump_destinations := i_valid_jump_destinations i; i_gasometer := i_gasometer i;
     i_stack := i_stack i; i_resume_output_range := i_resume_output_range i; i_resume_result :=
     i_resume_result i; i_last_stack_ret_len := i_last_stack_ret_len i |}.
Definition set_done (v : bool) (i : Interp) : Interp :=
  {| i_mem := i_mem i; i_cache := i_cache i; i_params := i_params i; i_position := i_position i;
     i_code := i_code i; i_return_data := i_return_data i; i_do_trace := i_do_trace i; i_done :=
     v; i_valid_jump_destinations := i_valid_jump_destinations i; i_gasometer := i_gasometer i;
     i_stack := i_stack i; i_resume_output_range := i_resume_output_range i; i_resume_result :=
     i_resume_result i; i_last_stack_ret_len := i_last_stack_ret_len i |}.
Definition set_valid_jump_destinations (v : option (list Z)) (i : Interp) : Interp :=
  {| i_mem := i_mem i; i_cache := i_cache i; i_params := i_params i; i_position := i_position i;
     i_code := i_code i; i_return_data := i_return_data i; i_do_trace := i_do_trace i; i_done :=
     i_done i; i_valid_jump_destinations := v; i_gasometer := i_gasometer i; i_stack := i_stack i;
     i_resume_output_range := i_resume_output_range i; i_resume_result := i_resume_result i;
     i_last_stack_ret_len := i_last_stack_ret_len i |}.
Definition set_gasometer (v : option Gasometer) (i : Interp) : Interp :=
  {| i_mem := i_mem i; i_cache := i_cache i; i_params := i_params i; i_position := i_position i;
     i_code := i_code i; i_return_data := i_return_data i; i_do_trace := i_do_trace i; i_done :=
     i_done i; i_valid_jump_destinations := i_valid_jump_destinations i; i_gasometer := v; i_stack
     := i_stack i; i_resume_output_range := i_resume_output_range i; i_resume_result :=
     i_resume_result i; i_last_stack_ret_len := i_last_stack_ret_len i |}.
Definition set_stack (v : list Z) (i : Interp) : Interp :=
  {| i_mem := i_mem i; i_cache := i_cache i; i_params := i_params i; i_position := i_position i;
     i_code := i_code i; i_return_data := i_return_data i; i_do_trace := i_do_trace i; i_done :=
     i_done i; i_valid_jump_destinations := i_valid_jump_destinations i; i_gasometer :=
     i_gasometer i; i_stack := v; i_resume_output_range := i_resume_output_range i;
     i_resume_result := i_resume_result i; i_last_stack_ret_len := i_last_stack_ret_len i |}.
Definition set_resume_output_range (v : option (Z * Z)) (i : Interp) : Interp :=
  {| i_mem := i_mem i; i_cache := i_cache i; i_params := i_params i; i_position := i_position i;
     i_code := i_code i; i_return_data := i_return_data i; i_do_trace := i_do_trace i; i_done :=
     i_done i; i_valid_jump_destinations := i_valid_jump_destinations i; i_gasometer :=
     i_gasometer i; i_stack := i_stack i; i_resume_output_range := v; i_resume_result :=
     i_resume_result i; i_last_stack_ret_len := i_last_stack_ret_len i |}.
Definition set_resume_result (v : option InstructionResult) (i : Interp) : Interp :=
  {| i_mem := i_mem i; i_cache := i_cache i; i_params := i_params i; i_position := i_position i;
     i_code := i_code i; i_return_data := i_return_data i; i_do_trace := i_do_trace i; i_done :=
     i_done i; i_valid_jump_destinations := i_valid_jump_destinations i; i_gasometer :=
     i_gasometer i; i_stack := i_stack i; i_resume_output_range := i_resume_output_range i;
     i_resume_result := v; i_last_stack_ret_len := i_last_stack_ret_len i |}.
Definition set_last_stack_ret_len (v : Z) (i : Interp) : Interp :=
  {| i_mem := i_mem i; i_cache := i_cache i; i_params := i_params i; i_position := i_position i;
     i_code := i_code i; i_return_data := i_return_data i; i_do_trace := i_do_trace i; i_done :=
     i_done i; i_valid_jump_destinations := i_valid_jump_destinations i; i_gasometer :=
     i_gasometer i; i_stack := i_stack i; i_resume_output_range := i_resume_output_range i;
     i_resume_result := i_resume_result i; i_last_stack_ret_len := v |}.

Context {Cost : CostType} {K : Keccak}.

(** [Interpreter::new]; [None] is the panic on missing code. *)
Definition interpreter_new (params : ActionParams) (cache : C) : option Interp :=
  code ← ap_code params;
  Some {|
    i_mem := []; i_cache := cache; i_params := InterpreterParams_from params;
    i_position := 0; i_code := code; i_return_data := ReturnData_empty;
    i_do_trace := true; i_done := false; i_valid_jump_destinations := None;
    i_gasometer := match from_u256 (ap_gas params) with
                   | inl gas => Some (gasometer_new gas)
                   | inr _ => None
                   end;
    i_stack := []; i_resume_output_range := None; i_resume_result := None;
    i_last_stack_ret_len := 0;
  |}.

Context {E : Type} {X : Ext E}.

Definition IS : Type := (Interp * E)%type.

Definition lift_ext {A} (m : M E vm_error A) : M IS vm_error A :=
  fun '(i, e) => match m e with
                 | Ret a e' => Ret a (i, e')
                 | Throw er e' => Throw er (i, e')
                 | Panic => Panic
                 end.

Definition geti {A} (f : Interp -> A) : M IS vm_error A := gets (fun s => f (fst s)).
Definition gete {A} (f : E -> A) : M IS vm_error A := gets (fun s => f (snd s)).
Definition modi (f : Interp -> Interp) : M IS vm_error unit := modify (fun s => (f (fst s), snd s)).

(** ** Stack access (stack.rs) *)

Definition pop_back : M IS vm_error Z :=
  fun '(i, e) => match i_stack i with
                 | x :: r => Ret x (set_stack r i, e)
                 | [] => Panic
                 end.

Definition push (v : Z) : M IS vm_error unit := modi (fun i => set_stack (v :: i_stack i) i).

Fixpoint pop_many (n : nat) : M IS vm_error (list Z) :=
  match n with
  | O => ret []
  | S n' => do x <- pop_back in do r <- pop_many n' in ret (x :: r)
  end.

Definition pop_n (no_of_elems : Z) : M IS vm_error (list Z) :=
  assert_ (no_of_elems <=? MAX_NO_OF_TOPICS) ;;; pop_many (Z.to_nat no_of_elems).

(** [self.stack.swap(len - no_from_top - 1, len - 1)] *)
Definition swap_with_top (no_from_top : Z) : M IS vm_error unit :=
  do st <- geti i_stack in
  do a <- expect (vec_get st no_from_top) in
  do b <- expect (vec_get st 0) in
  modi (set_stack (<[0%nat := a]> (<[Z.to_nat no_from_top := b]> st))).

(** The last [n] items in vector order, bottom first. *)
Definition peek_top (st : list Z) (n : Z) : M IS vm_error (list Z) :=
  assert_ (n <=? zlen st) ;;; ret (rev (take (Z.to_nat n) st)).

(** [Cost::from_u256(gas_left).expect(..)] *)
Definition expect_cost (v : Z) : M IS vm_error Z :=
  expect (match from_u256 v with inl x => Some x | inr _ => None end).

Definition with_mem (f : bytes -> option bytes) : M IS vm_error unit :=
  do mem <- geti i_mem in
  do mem' <- expect (f mem) in
  modi (set_mem mem').

(** [CodeReader::read] *)
Definition reader_read (no_of_bytes : Z) : M IS vm_error Z :=
  do pos <- geti i_position in
  do next <- expect (usize_add pos no_of_bytes) in
  modi (set_position next) ;;;
  do code <- geti i_code in
  let max := Z.min next (zlen code) in
  do s <- expect (vec_slice code pos max) in
  expect (u256_from_slice s).

(** ** Instruction semantics *)

Definition exec_create (instruction : Instruction) (provided : option Z)
    : M IS vm_error InstructionResult :=
  do endowment <- pop_back in
  do init_off <- pop_back in
  do init_size <- pop_back in
  do address_scheme <-
    (match instruction with
     | CREATE => ret FromSenderAndNonce
     | CREATE2 => do salt <- pop_back in ret (FromSenderSaltAndCodeHash salt)
     | _ => panic
     end) in
  do create_gas <- expect provided in
  do is_static <- gete ext_is_static in
  if is_static then throw MutableCallInStaticContext else
  modi (set_return_data ReturnData_empty) ;;;
  do address <- geti (fun i => ip_address (i_params i)) in
  do bal <- lift_ext (ext_balance address) in
  do depth <- gete ext_depth in
  do schedule <- gete ext_schedule in
  let can_create := (endowment <=? bal) && (depth <? max_depth schedule) in
  if negb can_create then push 0 ;;; ret (UnusedGas create_gas) else
  do mem <- geti i_mem in
  do contract_code <- expect (read_slice mem init_off init_size) in
  do create_result <-
    lift_ext (infallible
      (ext_create (as_u256 create_gas) endowment contract_code address_scheme true)) in
  match create_result with
  | inl (CreateCreated address gas_left) =>
      push (address_to_u256 address) ;;;
      do g <- expect_cost gas_left in ret (UnusedGas g)
  | inl (CreateReverted gas_left return_data) =>
      push 0 ;;;
      modi (set_return_data return_data) ;;;
      do g <- expect_cost gas_left in ret (UnusedGas g)
  | inl CreateFailed => push 0 ;;; ret InstrOk
  | inr trap => ret (InstrTrap trap)
  end.

(** Copies the output of a call into the caller's output range:
    [let output = mem.writeable_slice(..); output[..len].copy_from_slice(&data[..len])]. *)
Definition copy_output (mem : bytes) (out_off out_size : Z) (data : bytes) : option bytes :=
  '(start, n) ← writeable_slice mem out_off out_size;
  let len := Z.min n (zlen data) in
  vec_write mem start (take (Z.to_nat len) data).

(** The arms shared by [Success] and [Reverted]. *)
Definition finish_call (out_off out_size : Z) (data : ReturnData) (flag gas_left : Z)
    : M IS vm_error InstructionResult :=
  do d <- rd_deref data in
  with_mem (fun mem => copy_output mem out_off out_size d) ;;;
  push flag ;;;
  modi (set_return_data data) ;;;
  do g <- expect_cost gas_left in
  ret (UnusedGas g).

(** Sender, receiver, whether the balance suffices, and the call type. *)
Definition call_addresses (instruction : Instruction) (code_address : Z) (value : option Z)
    : M IS vm_error (Z * Z * bool * CallType) :=
  do address <- geti (fun i => ip_address (i_params i)) in
  do sender <- geti (fun i => ip_sender (i_params i)) in
  match instruction with
  | CALL =>
      do is_static <- gete ext_is_static in
      if is_static && match value with Some v => negb (v =? 0) | None => false end
      then throw MutableCallInStaticContext
      else
        do bal <- lift_ext (ext_balance address) in
        do v <- expect value in
        ret (address, code_address, v <=? bal, CallCall)
  | CALLCODE =>
      do bal <- lift_ext (ext_balance address) in
      do v <- expect value in
      ret (address, address, v <=? bal, CallCallCode)
  | DELEGATECALL => ret (sender, address, true, CallDelegateCall)
  | STATICCALL => ret (address, code_address, true, CallStaticCall)
  | _ => panic
  end.

(** The value operand: absent for DELEGATECALL, zero for STATICCALL. *)
Definition call_value (instruction : Instruction) : M IS vm_error (option Z) :=
  match instruction with
  | DELEGATECALL => ret None
  | STATICCALL => ret (Some 0)
  | _ => do v <- pop_back in ret (Some v)
  end.

Definition exec_call (instruction : Instruction) (provided : option Z)
    : M IS vm_error InstructionResult :=
  do schedule <- gete ext_schedule in
  assert_ (call_stipend schedule <? call_value_transfer_gas schedule) ;;;
  pop_back ;;;
  do call_gas <- expect provided in
  do code_address <- pop_back in
  let code_address := u256_to_address code_address in
  do value <- call_value instruction in
  do in_off <- pop_back in
  do in_size <- pop_back in
  do out_off <- pop_back in
  do out_size <- pop_back in
  let stipend := match value with
                 | None => 0
                 | Some val => if val =? 0 then 0 else call_stipend schedule
                 end in
  let call_gas := fst (overflow_add call_gas stipend) in
  do '(sender_address, receive_address, has_balance, call_type) <-
    call_addresses instruction code_address value in
  modi (set_return_data ReturnData_empty) ;;;
  do depth <- gete ext_depth in
  let can_call := has_balance && (depth <? max_depth schedule) in
  if negb can_call then push 0 ;;; ret (UnusedGas call_gas) else
  do mem <- geti i_mem in
  do input <- expect (read_slice mem in_off in_size) in
  do call_result <-
    lift_ext (infallible
      (ext_call (as_u256 call_gas) sender_address receive_address value input code_address
         call_type true)) in
  modi (set_resume_output_range (Some (out_off, out_size))) ;;;
  match call_result with
  | inl (CallSuccess gas_left data) => finish_call out_off out_size data 1 gas_left
  | inl (CallReverted gas_left data) => finish_call out_off out_size data 0 gas_left
  | inl CallFailed => push 0 ;;; ret InstrOk
  | inr trap => ret (InstrTrap trap)
  end.

Definition exec_log (instruction : Instruction) : M IS vm_error InstructionResult :=
  do no_of_topics <- expect (log_topics instruction) in
  do offset <- pop_back in
  do size <- pop_back in
  do topics <- pop_n no_of_topics in
  do mem <- geti i_mem in
  do data <- expect (read_slice mem offset size) in
  lift_ext (ext_log topics data) ;;;
  ret InstrOk.

Definition exec_push (instruction : Instruction) : M IS vm_error InstructionResult :=
  do bytes <- expect (push_bytes instruction) in
  do val <- reader_read bytes in
  push val ;;;
  ret InstrOk.

Definition exec_sstore : M IS vm_error InstructionResult :=
  do address <- pop_back in
  do val <- pop_back in
  do current_val <- lift_ext (ext_storage_at address) in
  do schedule <- gete ext_schedule in
  (if eip1283 schedule then
     do original_val <- lift_ext (ext_initial_storage_at address) in
     lift_ext (handle_eip1283_sstore_clears_refund original_val current_val val)
   else if negb (current_val =? 0) && (val =? 0)
        then lift_ext (infallible (ext_add_sstore_refund (sstore_refund_gas schedule)))
        else ret tt) ;;;
  lift_ext (ext_set_storage address val) ;;;
  ret InstrOk.

Definition exec_calldataload : M IS vm_error InstructionResult :=
  do big_id <- pop_back in
  let id := low_u64 big_id in
  let max := (id + 32) mod U64_MOD in
  do data <- geti (fun i => ip_data (i_params i)) in
  match data with
  | Some data =>
      let bound := Z.min (zlen data) max in
      if (id <? bound) && (big_id <? zlen data) then
        do s <- expect (vec_slice data id bound) in
        do v <- expect (vec_write (replicate 32 0) 0 s) in
        do w <- expect (u256_from_slice v) in
        push w ;;; ret InstrOk
      else push 0 ;;; ret InstrOk
  | None => push 0 ;;; ret InstrOk
  end.

(** The memory after zeroing the part of the destination that lies beyond the source. *)
Definition zero_tail (mem : bytes) (dest_offset source_offset size source_size : Z) : option bytes :=
  '(start, n) ←
    (if source_size <? source_offset then writeable_slice mem dest_offset size
     else
       a ← u256_add dest_offset source_size;
       o ← u256_sub a source_offset;
       b ← u256_add source_offset size;
       s ← u256_sub b source_size;
       writeable_slice mem o s);
  vec_write mem start (replicate (Z.to_nat n) 0).

(** [copy_data_to_memory], from the three popped operands. *)
Definition copy_to_memory (mem source : bytes) (dest_offset source_offset size : Z) : option bytes :=
  let source_size := zlen source in
  beyond ←
    (if (source_size <? source_offset) || (source_size <? size) then Some true
     else sum ← u256_add source_offset size; Some (source_size <? sum));
  '(mem', output_end) ←
    (if beyond : bool then
       mem' ← zero_tail mem dest_offset source_offset size source_size;
       Some (mem', zlen source)
     else
       hi ← usize_add (low_u64 size) (low_u64 source_offset); Some (mem, hi));
  if source_offset <? source_size then
    let output_begin := low_u64 source_offset in
    s ← vec_slice source output_begin output_end;
    write_slice mem' dest_offset s
  else Some mem'.

Definition copy_data_to_memory (source : bytes) : M IS vm_error unit :=
  do dest_offset <- pop_back in
  do source_offset <- pop_back in
  do size <- pop_back in
  with_mem (fun mem => copy_to_memory mem source dest_offset source_offset size).

Definition exec_returndatacopy : M IS vm_error InstructionResult :=
  do st <- geti i_stack in
  do source_offset <- peek st 1 in
  do size <- peek st 2 in
  do rd <- geti i_return_data in
  do d <- rd_deref rd in
  if zlen d <? u256_saturating_add source_offset size then throw OutOfBounds
  else copy_data_to_memory d ;;; ret InstrOk.

Definition exec_extcodecopy : M IS vm_error InstructionResult :=
  do a <- pop_back in
  do code <- lift_ext (ext_extcode (u256_to_address a)) in
  copy_data_to_memory (default [] code) ;;;
  ret InstrOk.

Definition exec_signextend : M IS vm_error InstructionResult :=
  do bit <- pop_back in
  if bit <? 32 then
    do number <- pop_back in
    push (op_signextend bit number) ;;; ret InstrOk
  else ret InstrOk.

(** Arms that replace one, two or three operands by one result, or push one value. *)
Definition push_ok (v : Z) : M IS vm_error InstructionResult := push v ;;; ret InstrOk.

Definition unop (f : Z -> Z) : M IS vm_error InstructionResult :=
  do a <- pop_back in push_ok (f a).

Definition binop (f : Z -> Z -> Z) : M IS vm_error InstructionResult :=
  do a <- pop_back in do b <- pop_back in push_ok (f a b).

Definition ternop (f : Z -> Z -> Z -> Z) : M IS vm_error InstructionResult :=
  do a <- pop_back in do b <- pop_back in do c <- pop_back in push_ok (f a b c).

(** Arms that pop an operand, query the host and push the answer. *)
Definition query (f : Z -> M E vm_error Z) : M IS vm_error InstructionResult :=
  do a <- pop_back in do v <- lift_ext (f a) in push_ok v.

Definition exec_instruction (gas : Z) (instruction : Instruction) (provided : option Z)
    : M IS vm_error InstructionResult :=
  match instruction with
  | JUMP => do jump <- pop_back in ret (JumpToPosition jump)
  | JUMPI =>
      do jump <- pop_back in
      do condition <- pop_back in
      if negb (condition =? 0) then ret (JumpToPosition jump) else ret InstrOk
  | JUMPDEST => ret InstrOk
  | CREATE | CREATE2 => exec_create instruction provided
  | CALL | CALLCODE | DELEGATECALL | STATICCALL => exec_call instruction provided
  | RETURN =>
      do init_off <- pop_back in
      do init_size <- pop_back in
      ret (StopExecutionNeedsReturn gas init_off init_size true)
  | REVERT =>
      do init_off <- pop_back in
      do init_size <- pop_back in
      ret (StopExecutionNeedsReturn gas init_off init_size false)
  | STOP => ret StopExecution
  | SUICIDE =>
      do address <- pop_back in
      lift_ext (ext_suicide (u256_to_address address)) ;;;
      ret StopExecution
  | LOG0 | LOG1 | LOG2 | LOG3 | LOG4 => exec_log instruction
  | PUSH1 | PUSH2 | PUSH3 | PUSH4 | PUSH5 | PUSH6 | PUSH7 | PUSH8 | PUSH9 | PUSH10 | PUSH11
  | PUSH12 | PUSH13 | PUSH14 | PUSH15 | PUSH16 | PUSH17 | PUSH18 | PUSH19 | PUSH20 | PUSH21
  | PUSH22 | PUSH23 | PUSH24 | PUSH25 | PUSH26 | PUSH27 | PUSH28 | PUSH29 | PUSH30 | PUSH31
  | PUSH32 => exec_push instruction
  | MLOAD =>
      do offset <- pop_back in
      do mem <- geti i_mem in
      do word <- expect (read mem offset) in
      push_ok word
  | MSTORE =>
      do offset <- pop_back in
      do word <- pop_back in
      with_mem (fun mem => write mem offset word) ;;;
      ret InstrOk
  | MSTORE8 =>
      do offset <- pop_back in
      do byte <- pop_back in
      with_mem (fun mem => write_byte mem offset byte) ;;;
      ret InstrOk
  | MSIZE => do mem <- geti i_mem in push_ok (mem_size mem)
  | SHA3 =>
      do offset <- pop_back in
      do size <- pop_back in
      do mem <- geti i_mem in
      do s <- expect (read_slice mem offset size) in
      push_ok (keccak s)
  | SLOAD => query ext_storage_at
  | SSTORE => exec_sstore
  | PC =>
      do pos <- geti i_position in
      do pc <- expect (usize_sub pos 1) in
      push_ok pc
  | GAS => push_ok (as_u256 gas)
  | ADDRESS => do a <- geti (fun i => ip_address (i_params i)) in push_ok (address_to_u256 a)
  | ORIGIN => do a <- geti (fun i => ip_origin (i_params i)) in push_ok (address_to_u256 a)
  | BALANCE => query (fun a => ext_balance (u256_to_address a))
  | CALLER => do a <- geti (fun i => ip_sender (i_params i)) in push_ok (address_to_u256 a)
  | CALLVALUE => do v <- geti (fun i => ip_value (i_params i)) in push_ok (action_value v)
  | CALLDATALOAD => exec_calldataload
  | CALLDATASIZE =>
      do data <- geti (fun i => ip_data (i_params i)) in
      push_ok (match data with Some l => zlen l | None => 0 end)
  | CODESIZE => do code <- geti i_code in push_ok (zlen code)
  | RETURNDATASIZE =>
      do rd <- geti i_return_data in
      do d <- rd_deref rd in
      push_ok (zlen d)
  | EXTCODESIZE =>
      query (fun a => do len <- ext_extcodesize (u256_to_address a) in ret (default 0 len))
  | EXTCODEHASH =>
      query (fun a => do h <- ext_extcodehash (u256_to_address a) in ret (default 0 h))
  | CALLDATACOPY =>
      do data <- geti (fun i => ip_data (i_params i)) in
      copy_data_to_memory (default [] data) ;;; ret InstrOk
  | RETURNDATACOPY => exec_returndatacopy
  | CODECOPY => do code <- geti i_code in copy_data_to_memory code ;;; ret InstrOk
  | EXTCODECOPY => exec_extcodecopy
  | GASPRICE => do p <- geti (fun i => ip_gas_price (i_params i)) in push_ok p
  | BLOCKHASH => query (fun n => infallible (ext_blockhash n))
  | COINBASE => do i <- gete ext_env_info in push_ok (address_to_u256 (ei_author i))
  | TIMESTAMP => do i <- gete ext_env_info in push_ok (ei_timestamp i)
  | NUMBER => do i <- gete ext_env_info in push_ok (ei_number i)
  | DIFFICULTY => do i <- gete ext_env_info in push_ok (ei_difficulty i)
  | GASLIMIT => do i <- gete ext_env_info in push_ok (ei_gas_limit i)
  | DUP1 | DUP2 | DUP3 | DUP4 | DUP5 | DUP6 | DUP7 | DUP8 | DUP9 | DUP10 | DUP11 | DUP12
  | DUP13 | DUP14 | DUP15 | DUP16 =>
      do position <- expect (dup_position instruction) in
      do st <- geti i_stack in
      do val <- peek st position in
      push_ok val
  | SWAP1 | SWAP2 | SWAP3 | SWAP4 | SWAP5 | SWAP6 | SWAP7 | SWAP8 | SWAP9 | SWAP10 | SWAP11
  | SWAP12 | SWAP13 | SWAP14 | SWAP15 | SWAP16 =>
      do position <- expect (swap_position instruction) in
      swap_with_top position ;;;
      ret InstrOk
  | POP => pop_back ;;; ret InstrOk
  | ADD => binop op_add
  | MUL => binop op_mul
  | SUB => binop op_sub
  | DIV => binop op_div
  | MOD => binop op_mod
  | SDIV => binop op_sdiv
  | SMOD => binop op_smod
  | EXP => binop op_exp
  | NOT => unop op_not
  | LT => binop op_lt
  | SLT => binop op_slt
  | GT => binop op_gt
  | SGT => binop op_sgt
  | EQ => binop op_eq
  | ISZERO => unop op_iszero
  | AND => binop op_and
  | OR => binop op_or
  | XOR => binop op_xor
  | BYTE => binop op_byte
  | ADDMOD => ternop op_addmod
  | MULMOD => ternop op_mulmod
  | SIGNEXTEND => exec_signextend
  | SHL => binop op_shl
  | SHR => binop op_shr
  | SAR => binop op_sar
  end.

(** ** Checks around an instruction *)

(** Opcodes that the schedule does not enable. *)
Definition is_disabled (schedule : Schedule) (i : Instruction) : bool :=
  (instr_eqb i DELEGATECALL && negb (have_delegate_call schedule))
  || (instr_eqb i CREATE2 && negb (have_create2 schedule))
  || (instr_eqb i STATICCALL && negb (have_static_call schedule))
  || ((instr_eqb i RETURNDATACOPY || instr_eqb i RETURNDATASIZE)
      && negb (have_return_data schedule))
  || (instr_eqb i REVERT && negb (have_revert schedule))
  || ((instr_eqb i SHL || instr_eqb i SHR || instr_eqb i SAR)
      && negb (have_bitwise_shifting schedule))
  || (instr_eqb i EXTCODEHASH && negb (have_extcodehash schedule)).

Definition verify_instruction (instruction : Instruction) (info : InstructionInfo)
    : M IS vm_error unit :=
  do schedule <- gete ext_schedule in
  if is_disabled schedule instruction then throw (BadInstruction (as_u8 instruction)) else
  do st <- geti i_stack in
  if negb (info_args info <=? zlen st) then
    throw (StackUnderflow (info_name info) (info_args info) (zlen st))
  else
    do rest <- expect (usize_sub (zlen st) (info_args info)) in
    do total <- expect (usize_add rest (info_ret info)) in
    if stack_limit schedule <? total then
      do wanted <- expect (usize_sub (info_ret info) (info_args info)) in
      throw (OutOfStack (info_name info) wanted (stack_limit schedule))
    else ret tt.

Definition mem_written (instruction : Instruction) (st : list Z) : M IS vm_error (option (Z * Z)) :=
  let read pos := do v <- peek st pos in ret (low_u64 v) in
  do written <-
    match instruction with
    | MSTORE | MLOAD => do a <- read 0 in ret (Some (a, 32))
    | MSTORE8 => do a <- read 0 in ret (Some (a, 1))
    | CALLDATACOPY | CODECOPY | RETURNDATACOPY =>
        do a <- read 0 in do b <- read 2 in ret (Some (a, b))
    | EXTCODECOPY => do a <- read 1 in do b <- read 3 in ret (Some (a, b))
    | CALL | CALLCODE => do a <- read 5 in do b <- read 6 in ret (Some (a, b))
    | DELEGATECALL | STATICCALL => do a <- read 4 in do b <- read 5 in ret (Some (a, b))
    | _ => ret None
    end in
  ret (match written with
       | Some (offset, size) => if negb (is_valid_range offset size) then None else written
       | None => None
       end).

Definition store_written (instruction : Instruction) (st : list Z)
    : M IS vm_error (option (Z * Z)) :=
  match instruction with
  | SSTORE => do a <- peek st 0 in do b <- peek st 1 in ret (Some (a, b))
  | _ => ret None
  end.

Definition verify_jump (jump_u : Z) (valid_jump_destinations : list Z) : M IS vm_error Z :=
  let jump := low_u64 jump_u in
  if contains valid_jump_destinations jump && (jump =? jump_u)
  then ret jump
  else throw (BadJumpDestination jump).

(** [self.gasometer.as_mut().expect(GASOMETER_PROOF)] *)
Definition get_gasometer : M IS vm_error Gasometer :=
  do g <- geti i_gasometer in expect g.

Definition put_gasometer (g : Gasometer) : M IS vm_error unit := modi (set_gasometer (Some g)).

(** ** One step *)

(** The part of [step_inner] that decodes, checks, charges and executes an instruction. *)
Definition fetch_and_execute : M IS vm_error InstructionResult :=
  do code <- geti i_code in
  do pos <- geti i_position in
  do opcode <- expect (vec_get code pos) in
  let instruction := from_u8 opcode in
  do next <- expect (usize_add pos 1) in
  modi (set_position next) ;;;
  do do_trace <- geti i_do_trace in
  do g <- get_gasometer in
  do trace <- (if do_trace
               then lift_ext (infallible
                      (ext_trace_next_instruction pos opcode (as_u256 (current_gas g))))
               else ret false) in
  modi (set_do_trace trace) ;;;
  match instruction with
  | None => throw (BadInstruction opcode)
  | Some instruction =>
      do inf <- info instruction in
      modi (set_last_stack_ret_len (info_ret inf)) ;;;
      verify_instruction instruction inf ;;;
      do st <- geti i_stack in
      do mem <- geti i_mem in
      do req <- lift_ext (requirements g instruction inf st (mem_size mem)) in
      (if trace then
         do mw <- mem_written instruction st in
         do sw <- store_written instruction st in
         lift_ext (infallible
           (ext_trace_prepare_execute pos opcode (as_u256 (gas_cost req)) mw sw))
       else ret tt) ;;;
      verify_gas g (gas_cost req) ;;;
      modi (set_mem (expand mem (memory_required_size req))) ;;;
      do left <- expect (cost_sub (current_gas g) (gas_cost req)) in
      put_gasometer (mkGasometer left (memory_total_gas req)) ;;;
      exec_instruction left instruction (provide_gas req)
  end.

(** [GasLeft::Known(current_gas)] *)
Definition done_known : M IS vm_error InterpreterResult :=
  do g <- get_gasometer in ret (Done (inl (Known (as_u256 (current_gas g))))).

(** The check that ends [step_inner]. *)
Definition continue_or_end : M IS vm_error InterpreterResult :=
  do pos <- geti i_position in
  do code <- geti i_code in
  if zlen code <=? pos then done_known else ret Continue.

(** The match on the instruction's result that advances the program counter or stops. *)
Definition advance (result : InstructionResult) : M IS vm_error InterpreterResult :=
  match result with
  | JumpToPosition position =>
      do vjd <- geti i_valid_jump_destinations in
      do dests <-
        (match vjd with
         | Some d => ret d
         | None =>
             do cache <- geti i_cache in
             do hash <- geti (fun i => ip_code_hash (i_params i)) in
             do code <- geti i_code in
             do '(d, cache') <- expect (jump_destinations cache hash code) in
             modi (set_cache cache') ;;;
             modi (set_valid_jump_destinations (Some d)) ;;;
             ret d
         end) in
      do pos <- verify_jump position dests in
      modi (set_position pos) ;;;
      continue_or_end
  | StopExecutionNeedsReturn gas init_off init_size apply =>
      do mem <- geti i_mem in
      modi (set_mem []) ;;;
      do data <- expect (into_return_data mem init_off init_size) in
      ret (Done (inl (NeedsReturn (as_u256 gas) data apply)))
  | StopExecution => done_known
  | _ => continue_or_end
  end.

(** Inner helper function for step. An error is [InterpreterResult::Done(Err(..))]. *)
Definition step_inner : M IS vm_error InterpreterResult :=
  do resume <- geti i_resume_result in
  modi (set_resume_result None) ;;;
  do result <- (match resume with Some r => ret r | None => fetch_and_execute end) in
  match result with
  | InstrTrap trap => ret (StepTrap trap)
  | _ =>
      (match result with
       | UnusedGas gas =>
           do g <- get_gasometer in
           do sum <- expect (cost_add (current_gas g) gas) in
           put_gasometer (mkGasometer sum (current_mem_gas g))
       | _ => ret tt
       end) ;;;
      do trace <- geti i_do_trace in
      (if trace then
         do g <- get_gasometer in
         do st <- geti i_stack in
         do n <- geti i_last_stack_ret_len in
         do top <- peek_top st n in
         do mem <- geti i_mem in
         lift_ext (infallible (ext_trace_executed (as_u256 (current_gas g)) top mem))
       else ret tt) ;;;
      advance result
  end.

(** Execute a single step on the VM. *)
Definition step : M IS Empty_set InterpreterResult := fun '(i, e) =>
  if i_done i then Ret Stopped (i, e) else
  let finish r (s : IS) :=
    Ret r (match r with Done _ => (set_done true (fst s), snd s) | _ => s end) in
  match i_gasometer i with
  | None => finish (Done (inr OutOfGas)) (i, e)
  | Some g =>
      if zlen (i_code i) =? 0 then finish (Done (inl (Known (as_u256 (current_gas g))))) (i, e)
      else match step_inner (i, e) with
           | Ret r s => finish r s
           | Throw err s => finish (Done (inr err)) s
           | Panic => Panic
           end
  end.

(** [Exec::exec]: the loop over [step]; [None] is fuel exhaustion of the model. *)
Fixpoint exec (fuel : nat) : M IS Empty_set (option ExecResult) :=
  match fuel with
  | O => ret None
  | S fuel' =>
      do result <- step in
      match result with
      | Continue => exec fuel'
      | Done value => ret (Some (ExecDone value))
      | StepTrap trap => ret (Some (ExecTrap trap))
      | Stopped => panic
      end
  end.

(** ** Resumption after a trap; [None] is a panic. *)

(** The arms of [resume_call] shared by [Success] and [Reverted]. *)
Definition resume_with (this : Interp) (out_off out_size gas_left flag : Z) (data : ReturnData)
    : option Interp :=
  hi ← usize_add (rd_offset data) (rd_size data);
  d ← vec_slice (rd_mem data) (rd_offset data) hi;
  mem ← copy_output (i_mem this) out_off out_size d;
  g ← match from_u256 gas_left with inl x => Some x | inr _ => None end;
  Some (set_resume_result (Some (UnusedGas g))
         (set_stack (flag :: i_stack this)
            (set_return_data data (set_mem mem this)))).

Definition resume_call (self : Interp) (result : MessageCallResult) : option Interp :=
  '(out_off, out_size) ← i_resume_output_range self;
  let this := set_resume_output_range None self in
  match result with
  | CallSuccess gas_left data => resume_with this out_off out_size gas_left 1 data
  | CallReverted gas_left data => resume_with this out_off out_size gas_left 0 data
  | CallFailed =>
      Some (set_resume_result (Some InstrOk) (set_stack (0 :: i_stack this) this))
  end.

Definition resume_create (self : Interp) (result : ContractCreateResult) : option Interp :=
  match result with
  | CreateCreated address gas_left =>
      g ← match from_u256 gas_left with inl x => Some x | inr _ => None end;
      Some (set_resume_result (Some (UnusedGas g))
              (set_stack (address_to_u256 address :: i_stack self) self))
  | CreateReverted gas_left return_data =>
      g ← match from_u256 gas_left with inl x => Some x | inr _ => None end;
      Some (set_resume_result (Some (UnusedGas g))
              (set_return_data return_data (set_stack (0 :: i_stack self) self)))
  | CreateFailed => Some (set_resume_result (Some InstrOk) (set_stack (0 :: i_stack self) self))
  end.

End Interpreter.
Arguments Interp C : clear implicits.
