(* ===== verification/Twins.v ===== *)
(** * Two runs of one program

    [twin R Q m1 m2]: run from states that [R] relates, the two computations end in the same
    way. Answers are related by [Q], errors are equal, and the states reached are related by
    [R] again. A program of which the state is only seen through methods that respect [R]
    respects [R]; the tactic [twins] follows its text. The interpreter is such a program for
    every host ([ExtTwins]). *)

From S2P Require Import Prelude Schedule Instructions Vm CostType Gasometer Memory JumpTable Word Interpreter.
From stdpp Require Import base numbers option strings list.

Open Scope Z_scope.
Open Scope origo_scope.

(** ** The relation and its rules *)

Definition ends {S S' Er A A'} (R : S -> S' -> Prop) (Q : A -> A' -> Prop) (o : outcome S Er A) (o' : outcome S' Er A') : Prop :=
  match o, o' with
  | Ret a s, Ret a' s' => Q a a' /\ R s s'
  | Throw e s, Throw e' s' => e = e' /\ R s s'
  | Panic, Panic => True
  | _, _ => False
  end.

Definition twin {S S' Er A A'} (R : S -> S' -> Prop) (Q : A -> A' -> Prop) (m : M S Er A) (m' : M S' Er A') : Prop :=
  forall s s', R s s' -> ends R Q (m s) (m' s').

(** A computation respects [R]. *)
Abbreviation respects R m := (twin R eq m m).

Section Rules.
Context {S S' Er : Type} (R : S -> S' -> Prop).

Lemma twin_bind {A A' C C'} (Q : A -> A' -> Prop) (Q' : C -> C' -> Prop) (m : M S Er A) m' (k : A -> M S Er C) k' :
  twin R Q m m' -> (forall a a', Q a a' -> twin R Q' (k a) (k' a')) -> twin R Q' (bind m k) (bind m' k').
Proof.
  intros Hm Hk s s' Hs. specialize (Hm s s' Hs). unfold bind. destruct (m s), (m' s'); cbn in *; try done.
  destruct Hm. by apply Hk.
Qed.

Lemma twin_mono {A A'} (Q Q' : A -> A' -> Prop) (m : M S Er A) m' : twin R Q m m' -> (forall a a', Q a a' -> Q' a a') -> twin R Q' m m'.
Proof. intros Hm HQ s s' Hs. specialize (Hm s s' Hs). destruct (m s), (m' s'); cbn in *; try done. naive_solver. Qed.

Lemma twin_ret {A A'} (Q : A -> A' -> Prop) a a' : Q a a' -> twin (Er := Er) R Q (ret a) (ret a').
Proof. by intros HQ s s' Hs. Qed.

Lemma twin_throw {A A'} (Q : A -> A' -> Prop) e : twin (Er := Er) R Q (throw e) (throw e).
Proof. by intros s s' Hs. Qed.

Lemma twin_panic {A A'} (Q : A -> A' -> Prop) : twin (Er := Er) R Q panic panic.
Proof. by intros s s' Hs. Qed.

Lemma twin_expect {A} (o : option A) : twin (Er := Er) R eq (expect o) (expect o).
Proof. destruct o; [by apply twin_ret|apply twin_panic]. Qed.

Lemma twin_assert b : twin (Er := Er) R eq (assert_ b) (assert_ b).
Proof. destruct b; [by apply twin_ret|apply twin_panic]. Qed.

Lemma twin_result {A} (r : A + Er) : twin R eq (lift_result r) (lift_result r).
Proof. destruct r; [by apply twin_ret|apply twin_throw]. Qed.

Lemma twin_get : twin (Er := Er) R R get get.
Proof. by intros s s' Hs. Qed.

Lemma twin_gets {A A'} (f : S -> A) (f' : S' -> A') (Q : A -> A' -> Prop) :
  (forall s s', R s s' -> Q (f s) (f' s')) -> twin (Er := Er) R Q (gets f) (gets f').
Proof. intros Hf s s' Hs. split; [by apply Hf|done]. Qed.

Lemma twin_modify (f : S -> S) (f' : S' -> S') : (forall s s', R s s' -> R (f s) (f' s')) ->
  twin (Er := Er) R eq (modify f) (modify f').
Proof. intros Hf s s' Hs. split; [done|by apply Hf]. Qed.

End Rules.

(** Two steps that are related together. *)
Lemma twin_then {S S' Er A A' C F F'} (R : S -> S' -> Prop) (Q : F -> F' -> Prop) (m : M S Er A) (m' : M S' Er A')
    (k : M S Er C) (k' : M S' Er C) (h : M S Er F) (h' : M S' Er F') :
  twin R eq (m ;;; k) (m' ;;; k') -> twin R Q h h' -> twin R Q (m ;;; k ;;; h) (m' ;;; k' ;;; h').
Proof.
  intros Hm Hh s s' Hs. specialize (Hm s s' Hs). unfold bind in *. destruct (m s) as [a s1|e s1|], (m' s') as [a' s1'|e' s1'|]; try done.
  1: destruct (k s1), (k' s1'); try done; cbn in Hm; destruct Hm as [_ Hs']; by apply Hh.
  all: try (destruct (k s1); done). all: destruct (k' s1'); done.
Qed.

(** The related states are read before the program goes on. *)
Lemma twin_at {S S' Er A A'} (R : S -> S' -> Prop) (Q : A -> A' -> Prop) (k : S -> M S Er A) (k' : S' -> M S' Er A') :
  (forall s s', R s s' -> twin R Q (k s) (k' s')) -> twin R Q (bind get k) (bind get k').
Proof. intros Hk s s' Hs. by apply Hk. Qed.

Lemma twin_infallible {S S' Er A A'} (R : S -> S' -> Prop) (Q : A -> A' -> Prop) (m : M S Empty_set A) (m' : M S' Empty_set A') :
  twin R Q m m' -> twin R Q (infallible (Er := Er) m) (infallible m').
Proof.
  intros Hm s s' Hs. specialize (Hm s s' Hs). unfold infallible.
  destruct (m s) as [|[]|], (m' s') as [|[]|]; done.
Qed.

Create HintDb twins.
#[export] Hint Resolve twin_throw twin_panic twin_expect twin_assert twin_result twin_infallible : twins.

Ltac head_of t := lazymatch t with ?f _ => head_of f | _ => t end.

(** Rules for wrappers around a computation, extended below. *)
Ltac twin_enter := apply twin_infallible.

(** Both sides have the same text: the tactic follows it, with equal answers, and unfolds
    what it has no rule for. *)
Ltac twin_step :=
  lazymatch goal with
  | |- twin _ _ (bind _ _) (bind _ _) => eapply (twin_bind _ eq); [|intros ? ? <-; cbv beta]
  | |- twin _ _ (ret _) (ret _) => apply twin_ret; reflexivity
  | |- twin _ _ (let '_ := ?x in _) (let '_ := ?x in _) => destruct x
  | |- twin _ _ (if ?x then _ else _) (if ?x then _ else _) => destruct x
  | |- twin _ _ (match ?x with _ => _ end) (match ?x with _ => _ end) => destruct x
  | |- twin _ _ ?m _ => first [solve [eauto with twins]|twin_enter|let f := head_of m in unfold f; cbv beta]
  end.
Ltac twins := cbv zeta; repeat (twin_step; cbv zeta).

(** ** Hosts *)

(** Related hosts answer alike; of the size of a code only the value that is used. *)
Class ExtTwins {E : Type} {X : Ext E} (RE : E -> E -> Prop) : Prop := {
  et_initial_storage_at k : respects RE (ext_initial_storage_at k);
  et_storage_at k : respects RE (ext_storage_at k);
  et_set_storage k v : respects RE (ext_set_storage k v);
  et_exists a : respects RE (ext_exists a);
  et_exists_and_not_null a : respects RE (ext_exists_and_not_null a);
  et_origin_balance : respects RE ext_origin_balance;
  et_balance a : respects RE (ext_balance a);
  et_blockhash n : respects RE (ext_blockhash n);
  et_create g v c s t : respects RE (ext_create g v c s t);
  et_call g s r v d c ct t : respects RE (ext_call g s r v d c ct t);
  et_extcode a : respects RE (ext_extcode a);
  et_extcodehash a : respects RE (ext_extcodehash a);
  et_extcodesize a : twin RE (fun r r' => default 0 r = default 0 r') (ext_extcodesize a) (ext_extcodesize a);
  et_log ts d : respects RE (ext_log ts d);
  et_ret g d b : respects RE (ext_ret g d b);
  et_suicide a : respects RE (ext_suicide a);
  et_schedule e e' : RE e e' -> ext_schedule e = ext_schedule e';
  et_env_info e e' : RE e e' -> ext_env_info e = ext_env_info e';
  et_depth e e' : RE e e' -> ext_depth e = ext_depth e';
  et_add_sstore_refund v : respects RE (ext_add_sstore_refund v);
  et_sub_sstore_refund v : respects RE (ext_sub_sstore_refund v);
  et_trace_next_instruction pc i g : respects RE (ext_trace_next_instruction pc i g);
  et_trace_prepare_execute pc i g mw sw : respects RE (ext_trace_prepare_execute pc i g mw sw);
  et_trace_executed g st m : respects RE (ext_trace_executed g st m);
  et_is_static e e' : RE e e' -> ext_is_static e = ext_is_static e';
}.
#[export] Hint Resolve et_initial_storage_at et_storage_at et_set_storage et_exists et_exists_and_not_null
  et_origin_balance et_balance et_blockhash et_create et_call et_extcode et_extcodehash et_log et_ret et_suicide
  et_add_sstore_refund et_sub_sstore_refund et_trace_next_instruction et_trace_prepare_execute et_trace_executed : twins.

(** ** The gasometer *)

Section Gas.
Context {E : Type} {X : Ext E} (RE : E -> E -> Prop) {XT : ExtTwins RE} {Cost : CostType}.

Lemma gets_schedule {Er} : twin (Er := Er) RE eq (gets ext_schedule) (gets ext_schedule).
Proof. apply twin_gets. apply et_schedule. Qed.
Hint Resolve gets_schedule : twins.

Lemma overflowing_twin {S} (R : S -> S -> Prop) x : respects R (overflowing x).
Proof. twins. Qed.
Hint Resolve overflowing_twin : twins.

Lemma requirements_twin g i info st n : respects RE (requirements g i info st n).
Proof. twins. Qed.

End Gas.
#[export] Hint Resolve gets_schedule overflowing_twin requirements_twin : twins.

(** ** The interpreter *)

Section Interpreter.
Context {C : Type} {DC : DestCache C} {Cost : CostType} {K : Keccak}.
Context {E : Type} {X : Ext E} (RE : E -> E -> Prop) {XT : ExtTwins RE}.

(** The same interpreter on related hosts. *)
Definition same_interp (s s' : Interp C * E) : Prop := fst s = fst s' /\ RE (snd s) (snd s').
Local Abbreviation RI := same_interp.

Lemma lift_ext_twin {A} (Q : A -> A -> Prop) (m m' : M E vm_error A) : twin RE Q m m' -> twin RI Q (lift_ext m) (lift_ext m').
Proof.
  intros Hm [i e] [i' e'] [Hi He]. specialize (Hm e e' He). cbn in *. subst i'.
  destruct (m e), (m' e'); cbn in *; try done; by destruct Hm.
Qed.

Lemma geti_twin {A} (f : Interp C -> A) : respects RI (geti f).
Proof. apply twin_gets. by intros s s' [-> _]. Qed.

Lemma modi_twin (f : Interp C -> Interp C) : respects RI (modi f).
Proof. apply twin_modify. intros s s' [-> He]. by split. Qed.

Lemma gete_twin {A} (f : E -> A) : (forall e e', RE e e' -> f e = f e') -> respects RI (gete f).
Proof. intros Hf. apply twin_gets. intros s s' [_ He]. by apply Hf. Qed.

Lemma pop_back_twin : respects RI pop_back.
Proof. intros [i e] [i' e'] [[= <-] He]. cbn. by destruct (i_stack i). Qed.

Ltac twin_enter ::= first [apply twin_infallible|apply lift_ext_twin].
Hint Resolve geti_twin modi_twin gete_twin pop_back_twin et_schedule et_depth et_env_info et_is_static : twins.

Lemma pop_many_twin n : respects RI (pop_many n).
Proof. induction n; cbn [pop_many]; twins. Qed.
Hint Resolve pop_many_twin : twins.

Lemma handle_refund_twin o c n : respects RE (handle_eip1283_sstore_clears_refund o c n).
Proof. twins. Qed.

Lemma extcodesize_twin : respects RI (query (fun a => do len <- ext_extcodesize (u256_to_address a) in ret (default 0 len))).
Proof.
  unfold query. twin_step; [twins|]. twin_step; [|twins]. apply lift_ext_twin.
  eapply twin_bind; [apply et_extcodesize|]. intros r r' Hr. by apply twin_ret.
Qed.
Hint Resolve handle_refund_twin extcodesize_twin : twins.

Lemma exec_instruction_twin g i p : respects RI (exec_instruction g i p).
Proof. twins. Qed.
Hint Resolve exec_instruction_twin : twins.

Lemma step_inner_twin : respects RI step_inner.
Proof. twins. Qed.

Lemma step_twin : respects RI step.
Proof.
  intros [i e] [i' e'] [[= <-] He]. cbn [step]. destruct (i_done i); [done|]. destruct (i_gasometer i) as [g|]; [|done].
  destruct (zlen (i_code i) =? 0); [done|]. pose proof (step_inner_twin (i, e) (i, e') (conj eq_refl He)) as Hs.
  destruct (step_inner (i, e)) as [r s|er s|], (step_inner (i, e')) as [r' s'|er' s'|]; cbn in Hs |- *; try done.
  - destruct Hs as [<- [Hi Hs]]. split; [done|]. destruct r; try done. split; [by rewrite Hi|done].
  - destruct Hs as [<- [Hi Hs]]. split; [done|]. split; [by rewrite Hi|done].
Qed.

Lemma exec_twin fuel : respects RI (exec fuel).
Proof. induction fuel as [|fuel IH]; cbn [exec]; [twins|]. eapply (twin_bind _ eq); [apply step_twin|]. intros r ? <-. twins. Qed.

End Interpreter.
