(* ===== verification/StateTwins.v ===== *)
(** * The state does not depend on its caches

    Two states over databases with the same accounts are alike if their views and those of
    their checkpoints are equal, whatever their local caches, backends and storage caches
    hold. Every method of the state respects this: alike states answer alike and stay alike.
    Removing garbage does too, where the database holds no empty accounts and dust is not
    removed. *)

From S2P Require Import Prelude Vm MemoryCache Account State StateSpec StateAccounts StateViews StateRefine Interpreter Twins.
From stdpp Require Import base numbers option gmap list.

Open Scope Z_scope.
Open Scope origo_scope.

Section Removed.
Context {L : Type} {LC : LruCache L Z Z} {K : Keccak} (entries : L -> list (Z * Z)).
Context {D B : Type} {DB : HashDb D} {BE : Backend B D (Account L)}.
Context (codes : Z -> bytes) (root : Z) (disk : Z -> option BasicAccount) (start : Z) (db : D) (BInv : B -> Prop).
Local Abbreviation St := (State L B).
Local Abbreviation inv := (state_inv entries codes db root disk start BInv).
Local Abbreviation views := (views codes disk).
Local Abbreviation levels := (levels codes disk).

Lemma kill_all_views l (s : St) : inv s -> let s1 := foldl (fun s a => kill_account a s) s l in
  inv s1 /\ (forall a, views s1 a = if bool_decide (a ∈ l) then (true, None) else views s a) /\ Forall2 pw (levels s1) (levels s).
Proof.
  revert s. induction l as [|a l IH]; intros s Hi; cbn.
  - split_and!; [done| |by apply Forall_Forall2_diag, Forall_true]. intros a. by rewrite bool_decide_eq_false_2 by set_solver.
  - destruct (insert_dirty_ok entries codes db root disk start BInv s a (new_dirty None) Hi) as (Hi1 & Hv1 & Hl1 & _); [done..|].
    destruct (IH _ Hi1) as (Hi2 & Hv2 & Hl2). split_and!; [done| |by eapply Forall2_pw_trans].
    intros b. rewrite Hv2. destruct (decide (b ∈ l)) as [Hb|Hb].
    + by rewrite !bool_decide_eq_true_2 by set_solver.
    + rewrite (bool_decide_eq_false_2 (b ∈ l)) by done. unfold kill_account. rewrite Hv1. destruct (Z.eqb_spec b a) as [->|].
      * by rewrite bool_decide_eq_true_2 by set_solver.
      * by rewrite bool_decide_eq_false_2 by set_solver.
Qed.

(** No account of the database is empty, as EIP-161 leaves them. *)
Context (Hfull : forall a b, disk a = Some b -> is_null (Account_from (L := L) b) = false).

Lemma null_cached (s : St) a : match snd (views s a) with Some c => (c_balance c =? 0) && (c_nonce c =? 0) && (c_code_hash c =? KECCAK_EMPTY) | None => false end = true <->
  exists e, st_cache s !! a = Some e /\ exists_and_is_null e = true.
Proof.
  unfold StateRefine.views, cache_view. destruct (st_cache s !! a) as [e|].
  - cbn. unfold exists_and_is_null, is_null. split.
    + intros H. exists e. split; [done|]. by destruct (e_account e).
    + intros (e0 & [= <-] & H). by destruct (e_account e).
  - split; [|by intros (e & ? & _)]. cbn. destruct (disk a) as [b|] eqn:Hb; [|done]. cbn. specialize (Hfull a b Hb).
    unfold is_null in Hfull. cbn in Hfull. by rewrite Hfull.
Qed.

Lemma garbage_elem touched ke kc (s : St) a :
  a ∈ omap (fun '(address, entry) => if is_garbage touched ke None kc address entry then Some address else None)
        (map_to_list (st_cache s)) <->
  a ∈ touched /\ ke = true /\ exists e, st_cache s !! a = Some e /\ exists_and_is_null e = true.
Proof.
  rewrite list_elem_of_omap. split.
  - intros ([a' e] & He & Hg). apply elem_of_map_to_list in He. unfold is_garbage in Hg. rewrite orb_false_r in Hg.
    destruct (_ && _) eqn:Hc; [|done]. injection Hg as ->. apply andb_true_iff in Hc as [Ht [-> Hn]%andb_true_iff].
    apply bool_decide_eq_true in Ht. split_and!; [done|done|by exists e].
  - intros (Ht & -> & e & He & Hn). exists (a, e). split; [by apply elem_of_map_to_list|].
    unfold is_garbage. by rewrite Hn, bool_decide_eq_true_2.
Qed.

End Removed.

Section Alike.
Context {L : Type} {LC : LruCache L Z Z} {K : Keccak} (entries : L -> list (Z * Z)).
Context {laws : LruCacheLaws entries}.
Context {D B : Type} {DB : HashDb D} {BE : Backend B D (Account L)}.
Context (codes : Z -> bytes) (root : Z) (disk : Z -> option BasicAccount) (start : Z) (Hempty : keccak [] = KECCAK_EMPTY).

(** Two databases and the backends over them. *)
Context (db db' : D) (Hdb : db_complete codes db root disk) (Hdb' : db_complete codes db' root disk).
Context (Hvalues : forall a b k, disk a = Some b -> trie_value db a (ba_storage_root b) k = trie_value db' a (ba_storage_root b) k).
Context (BInv BInv' : B -> Prop) {BL : BackendLaws entries codes db disk BInv} {BL' : BackendLaws entries codes db' disk BInv'}.

Local Abbreviation St := (State L B).
Local Abbreviation inv := (state_inv entries codes db root disk start BInv).
Local Abbreviation inv' := (state_inv entries codes db' root disk start BInv').
Local Abbreviation quiet := (StateRefine.quiet entries codes db root disk start BInv).
Local Abbreviation quiet' := (StateRefine.quiet entries codes db' root disk start BInv').
Local Abbreviation wrote := (StateRefine.wrote entries codes db root disk start BInv).
Local Abbreviation wrote' := (StateRefine.wrote entries codes db' root disk start BInv').
Local Abbreviation views := (views codes disk).
Local Abbreviation levels := (levels codes disk).
Local Abbreviation core_of := (core_of codes).
Local Abbreviation ok := (account_ok entries codes db disk).
Local Abbreviation ok' := (account_ok entries codes db' disk).

(** The same accounts now and at every checkpoint. *)
Definition like (s s' : St) : Prop :=
  inv s /\ inv' s' /\ pw (views s) (views s') /\ Forall2 pw (levels s) (levels s').

Definition alike (s s' : St) : Prop := like s s' /\ uniform codes disk s.

Lemma like_quiet s s' s1 s1' : like s s' -> quiet s s1 -> quiet' s' s1' -> like s1 s1'.
Proof.
  intros (_ & _ & Hv & Hl) Hq Hq'. split_and!; [apply Hq|apply Hq'| |].
  - eapply pw_trans; [apply Hq|]. eapply pw_trans; [exact Hv|]. apply pw_sym, Hq'.
  - eapply Forall2_pw_trans; [by eapply quiet_levels|]. eapply Forall2_pw_trans; [exact Hl|].
    apply Forall2_flip. eapply Forall2_impl; [by eapply quiet_levels|]. intros E E' HE. by apply pw_sym.
Qed.

Lemma alike_quiet s s' s1 s1' : alike s s' -> quiet s s1 -> quiet' s' s1' -> alike s1 s1'.
Proof.
  intros [Hl Hu] Hq Hq'. split; [by eapply like_quiet|]. unfold uniform in *.
  eapply uniform_pw; [by eapply quiet_levels| |exact Hu]. intros a. by rewrite (proj1 (proj2 Hq)).
Qed.

Lemma like_wrote s s' s1 s1' a v : like s s' -> wrote a v s s1 -> wrote' a v s' s1' -> like s1 s1'.
Proof.
  intros (_ & _ & Hv & Hl) (Hi & Hw & Hls & _) (Hi' & Hw' & Hls' & _). split_and!; [done|done| |].
  - intros b. rewrite Hw, Hw'. by case_bool.
  - eapply Forall2_pw_trans; [exact Hls|]. eapply Forall2_pw_trans; [exact Hl|].
    apply Forall2_flip. eapply Forall2_impl; [exact Hls'|]. intros E E' HE. by apply pw_sym.
Qed.

Lemma alike_wrote s s' s1 s1' a v : alike s s' -> wrote a v s s1 -> wrote' a v s' s1' ->
  original_root v = original_root (snd (views s a)) -> alike s1 s1'.
Proof.
  intros [Hl Hu] Hw Hw' Ho. split; [by eapply like_wrote|]. unfold uniform in *. destruct Hw as (_ & Hv & Hls & _).
  eapply uniform_pw; [exact Hls| |exact Hu]. intros b. rewrite Hv. case_bool; [|done]. by replace b with a by lia.
Qed.

(** ** Queries *)

Lemma ensure_twin {U U'} a req cn (f : option (Account L) -> U) (f' : option (Account L) -> U') (Q : U -> U' -> Prop) :
  (forall acc acc', core_of acc = core_of acc' -> ok a acc -> ok' a acc' -> loaded req acc -> loaded req acc' ->
     Q (f (Some acc)) (f' (Some acc'))) -> Q (f None) (f' None) ->
  twin alike Q (ensure_cached a req cn f) (ensure_cached a req cn f').
Proof.
  intros Hsome Hnone s s' Hal. pose proof Hal as [(Hi & Hi' & Hv & _) _].
  destruct (ensure_cached_ok entries codes db root disk start Hdb BInv s a req cn f Hi) as (o & s1 & -> & Hq & Hc & Ho).
  destruct (ensure_cached_ok entries codes db' root disk start Hdb' BInv' s' a req cn f' Hi') as (o' & s1' & -> & Hq' & Hc' & Ho').
  split; [|by eapply alike_quiet]. rewrite Hv, <- Hc' in Hc.
  destruct o as [acc|], o' as [acc'|]; try done. cbn in Hc. injection Hc as Hc.
  destruct (Ho acc eq_refl) as [? ?], (Ho' acc' eq_refl) as [? ?]. apply Hsome; try done. unfold StateSpec.core_of. congruence.
Qed.

Lemma core_fields (acc acc' : Account L) : core_of acc = core_of acc' ->
  a_balance acc = a_balance acc' /\ a_nonce acc = a_nonce acc' /\ a_code_hash acc = a_code_hash acc' /\
  content codes acc = content codes acc' /\ a_storage_root acc = a_storage_root acc' /\
  fst <$> a_original_storage_cache acc = fst <$> a_original_storage_cache acc' /\
  a_storage_changes acc = a_storage_changes acc'.
Proof. intros [=]. by split_and!. Qed.

Ltac by_core := let H := fresh in intros ? ? H ? ? ? ?; apply core_fields in H as (? & ? & ? & ? & ? & ? & ?); congruence.

Lemma exists_twin a : respects alike (exists_ a).
Proof. by apply ensure_twin. Qed.

Lemma is_null_core (acc acc' : Account L) : core_of acc = core_of acc' -> is_null acc = is_null acc'.
Proof. intros H. apply core_fields in H as (Hb & Hn & Hc & _). unfold is_null. by rewrite Hb, Hn, Hc. Qed.

Lemma exists_and_not_null_twin a : respects alike (exists_and_not_null a).
Proof. apply ensure_twin; [|done]. intros acc acc' Hc _ _ _ _. by rewrite (is_null_core acc acc'). Qed.

Lemma start_nonce_twin : twin (Er := trie_error) alike eq (gets st_account_start_nonce) (gets st_account_start_nonce).
Proof. apply twin_gets. intros s s' [(Hi & Hi' & _) _]. by rewrite (si_nonce _ _ _ _ _ _ _ _ Hi), (si_nonce _ _ _ _ _ _ _ _ Hi'). Qed.
Hint Resolve start_nonce_twin exists_twin : twins.

Lemma has_code_or_nonce_twin a : respects alike (exists_and_has_code_or_nonce a).
Proof.
  unfold exists_and_has_code_or_nonce. twin_step; [twins|]. apply ensure_twin; [|done].
  intros acc acc' H _ _ _ _. apply core_fields in H as (_ & Hn & Hc & _). by rewrite Hn, Hc.
Qed.

Lemma balance_twin a : respects alike (balance a).
Proof. apply ensure_twin; [by_core|done]. Qed.

Lemma nonce_twin a : respects alike (nonce a).
Proof. unfold nonce. twin_step; [twins|]. apply ensure_twin; [by_core|done]. Qed.

Lemma code_hash_twin a : respects alike (state_code_hash a).
Proof. apply ensure_twin; [|done]. intros acc acc' H _ _ _ _. apply core_fields in H as (_ & _ & Hc & _). cbn. by rewrite Hc. Qed.

Lemma code_twin a : respects alike (state_code a).
Proof.
  apply ensure_twin; [|done]. intros acc acc' H _ _ Hl Hl'. apply core_fields in H as (_ & _ & _ & Hc & _).
  by rewrite (loaded_code codes acc Hl), (loaded_code codes acc' Hl'), Hc.
Qed.

Lemma code_size_twin a : twin alike (fun r r' => default 0 r = default 0 r') (state_code_size a) (state_code_size a).
Proof.
  apply ensure_twin; [|done]. intros acc acc' H Ha Ha' Hl Hl'. apply core_fields in H as (_ & _ & _ & Hc & _).
  by rewrite (loaded_size entries codes db disk a acc Ha Hl), (loaded_size entries codes db' disk a acc' Ha' Hl'), Hc.
Qed.

Lemma base_root_twin a : respects alike (state_is_base_storage_root_unchanged a).
Proof.
  unfold state_is_base_storage_root_unchanged. twin_step; [|twins]. apply ensure_twin; [|done].
  intros acc acc' H _ _ _ _. apply core_fields in H as (_ & _ & _ & _ & _ & Ho & _). cbn. f_equal.
  unfold is_base_storage_root_unchanged. by destruct (a_original_storage_cache acc) as [[]|], (a_original_storage_cache acc') as [[]|].
Qed.

Lemma original_root_twin a : respects alike (state_original_storage_root a).
Proof.
  unfold state_original_storage_root. twin_step; [|twins]. apply ensure_twin; [|done].
  intros acc acc' H _ _ _ _. cbn. f_equal. by rewrite <- !(core_original_root codes), H.
Qed.

(** ** Storage *)

(** The roots an account shows are those of the database, or empty. *)
Definition roots_ok (E : Z -> bool * option core) : Prop := forall a c, snd (E a) = Some c ->
  (c_root c = KECCAK_NULL_RLP \/ disk_root disk a (c_root c)) /\
  (c_original_root c = KECCAK_NULL_RLP \/ disk_root disk a (c_original_root c)).

Lemma entry_roots a e c : entry_ok entries codes db disk a e -> snd (entry_view codes e) = Some c ->
  (c_root c = KECCAK_NULL_RLP \/ disk_root disk a (c_root c)) /\
  (c_original_root c = KECCAK_NULL_RLP \/ disk_root disk a (c_original_root c)).
Proof.
  intros He. cbn. destruct (e_account e) as [acc|] eqn:Hacc; [|done]. intros [= <-]. specialize (He acc Hacc).
  split; [apply (ao_root _ _ _ _ _ _ He)|]. rewrite (core_original_root codes). by apply (original_root_ok entries codes db).
Qed.

Lemma disk_roots a c : snd (disk_view codes disk a) = Some c ->
  (c_root c = KECCAK_NULL_RLP \/ disk_root disk a (c_root c)) /\
  (c_original_root c = KECCAK_NULL_RLP \/ disk_root disk a (c_original_root c)).
Proof. cbn. destruct (disk a) as [b|] eqn:Hb; [|done]. intros [= <-]. split; right; by exists b. Qed.

Lemma view_roots s : inv s -> roots_ok (views s).
Proof.
  intros Hi a c. unfold StateRefine.views, cache_view. destruct (st_cache s !! a) as [e|] eqn:He; [|apply disk_roots].
  apply entry_roots. by apply (si_cache _ _ _ _ _ _ _ _ Hi).
Qed.

Lemma level_roots s : inv s -> Forall roots_ok (levels s).
Proof.
  intros Hi. unfold StateRefine.levels. pose proof (si_recorded _ _ _ _ _ _ _ _ Hi) as Hr. pose proof (view_roots s Hi) as Hv.
  revert Hv. generalize (views s) as E. induction Hr as [|c cs Hc _ IH]; intros E HE; cbn; constructor.
  2: apply IH.
  all: intros a x; unfold restore; destruct (c !! a) as [[e|]|] eqn:Ha; [by apply entry_roots, Hc| |apply HE];
    destruct (fst (E a)); [apply disk_roots|apply HE].
Qed.

Lemma base_values a r k : r = KECCAK_NULL_RLP \/ disk_root disk a r -> base_value db a r k = base_value db' a r k.
Proof. intros [->|(b & Hb & ->)]; [done|]. unfold base_value. by rewrite (Hvalues a b k Hb). Qed.

Lemma storage_values E a k : roots_ok E ->
  value_of (core_storage db) a k (snd (E a)) = value_of (core_storage db') a k (snd (E a)) /\
  value_of (core_original db) a k (snd (E a)) = value_of (core_original db') a k (snd (E a)).
Proof.
  intros HE. destruct (snd (E a)) as [c|] eqn:Hc; [|done]. destruct (HE a c Hc) as [Hr Ho].
  cbn. unfold core_storage, core_original. by rewrite (base_values a _ k Hr), (base_values a _ k Ho).
Qed.

Lemma storage_at_twin a k : respects alike (state_storage_at a k).
Proof.
  intros s s' Hal. pose proof Hal as [(Hi & Hi' & Hv & _) _].
  destruct (state_storage_at_ok entries codes db root disk start Hdb BInv s a k Hi) as (s1 & -> & Hq).
  destruct (state_storage_at_ok entries codes db' root disk start Hdb' BInv' s' a k Hi') as (s1' & -> & Hq').
  split; [|by eapply alike_quiet]. rewrite <- (Hv a). apply storage_values, view_roots, Hi.
Qed.

Lemma original_storage_at_twin a k : respects alike (state_original_storage_at a k).
Proof.
  intros s s' Hal. pose proof Hal as [(Hi & Hi' & Hv & _) _].
  destruct (state_original_storage_at_ok entries codes db root disk start Hdb BInv s a k Hi) as (s1 & -> & Hq).
  destruct (state_original_storage_at_ok entries codes db' root disk start Hdb' BInv' s' a k Hi') as (s1' & -> & Hq').
  split; [|by eapply alike_quiet]. rewrite <- (Hv a). apply storage_values, view_roots, Hi.
Qed.

Lemma checkpoint_storage_at_twin i a k : 0 <= i -> respects alike (checkpoint_storage_at i a k).
Proof.
  intros Hi0 s s' Hal. pose proof Hal as [(Hi & Hi' & Hv & Hl) Hu].
  assert (Hu' : uniform codes disk s').
  { unfold uniform in *. eapply uniform_pw; [|intros b; symmetry; by rewrite (Hv b)|exact Hu].
    apply Forall2_flip. eapply Forall2_impl; [exact Hl|]. intros E E' HE. by apply pw_sym. }
  destruct (checkpoint_storage_ok entries codes db root disk start Hdb BInv s i a k Hi Hu Hi0) as (s1 & -> & Hq).
  destruct (checkpoint_storage_ok entries codes db' root disk start Hdb' BInv' s' i a k Hi' Hu' Hi0) as (s1' & -> & Hq').
  split; [|by eapply alike_quiet]. assert (zlen (levels s) = zlen (levels s')) as -> by (unfold zlen; by rewrite (Forall2_length _ _ _ Hl)).
  destruct (i <? zlen (levels s')); [|done]. pose proof (level_roots s Hi) as Hr. set (j := Z.to_nat _).
  destruct (levels s !! j) as [E|] eqn:HE, (levels s' !! j) as [E'|] eqn:HE'; cbn.
  - f_equal. pose proof (Forall2_lookup_lr _ _ _ _ _ _ Hl HE HE') as Hp. rewrite <- (Hp a).
    apply storage_values. by eapply Forall_lookup_1 in Hr.
  - destruct (Forall2_lookup_l _ _ _ _ _ Hl HE) as (x & Hx & _). congruence.
  - destruct (Forall2_lookup_r _ _ _ _ _ Hl HE') as (x & Hx & _). congruence.
  - done.
Qed.

(** ** Updates *)

(** An account is handed out for writing and written to. *)
Lemma modify_twin a rc d f : ok a d -> ok' a d -> c_original_root (core_of d) = KECCAK_NULL_RLP ->
  (forall acc acc', core_of acc = core_of acc' -> ok a acc -> ok' a acc' ->
     match f acc, f acc' with
     | Some x, Some x' => core_of x = core_of x' /\ ok a x /\ ok' a x' /\ c_original_root (core_of x) = c_original_root (core_of acc)
     | None, None => True
     | _, _ => False
     end) ->
  respects alike (require_or_from a rc d (fun x => x) ;;; update_account a f).
Proof.
  intros Hd Hd' Hnull Hf s s' Hal. pose proof Hal as [(Hi & Hi' & Hv & _) _]. unfold bind.
  destruct (require_or_from_ok entries codes db root disk start Hdb BInv s a rc d Hi Hd)
    as (s1 & e & acc & -> & Hw & He & Hacc & Hdirty & Hok & Hc).
  destruct (require_or_from_ok entries codes db' root disk start Hdb' BInv' s' a rc d Hi' Hd')
    as (s1' & e' & acc' & -> & Hw' & He' & Hacc' & Hdirty' & Hok' & Hc').
  rewrite <- (Hv a) in Hc'. assert (Hcc : core_of acc = core_of acc') by congruence.
  specialize (Hf acc acc' Hcc Hok Hok'). destruct (f acc) as [x|] eqn:Hx, (f acc') as [x'|] eqn:Hx'; try done.
  - destruct Hf as (Hxx & Hxo & Hxo' & Ho).
    destruct (update_account_ok entries codes db root disk start BInv s s1 a _ e acc x f Hw He Hacc Hdirty Hx Hxo) as (s2 & -> & Hw2).
    destruct (update_account_ok entries codes db' root disk start BInv' s' s1' a _ e' acc' x' f Hw' He' Hacc' Hdirty' Hx' Hxo') as (s2' & -> & Hw2').
    split; [done|]. rewrite <- Hxx in Hw2'. eapply alike_wrote; [done..|]. unfold original_root.
    cbn [fmap option_fmap option_map default]. rewrite Ho, Hc. by destruct (snd (views s a)).
  - unfold update_account, bind, get, expect. rewrite He, He'. cbn. rewrite Hacc, Hacc'. cbn. by rewrite Hx, Hx'.
Qed.

Lemma require_twin a f : (forall acc acc', core_of acc = core_of acc' -> ok a acc -> ok' a acc' ->
     match f acc, f acc' with
     | Some x, Some x' => core_of x = core_of x' /\ ok a x /\ ok' a x' /\ c_original_root (core_of x) = c_original_root (core_of acc)
     | None, None => True
     | _, _ => False
     end) -> respects alike (require a false ;;; update_account a f).
Proof.
  intros Hf s s' Hal. pose proof Hal as [(Hi & Hi' & _) _].
  assert (Hm : respects alike (require_or_from a false (new_basic 0 start) (fun x => x) ;;; update_account a f))
    by (apply modify_twin; [by apply account_ok_new_basic..|done|done]).
  specialize (Hm s s' Hal). unfold require, bind, gets in *.
  by rewrite (si_nonce _ _ _ _ _ _ _ _ Hi), (si_nonce _ _ _ _ _ _ _ _ Hi').
Qed.

(** [touch] changes no account that exists. *)
Lemma touch_twin a : respects alike (touch a).
Proof.
  intros s s' Hal. pose proof Hal as [(Hi & Hi' & Hv & _) _]. unfold touch, require, bind, gets.
  rewrite (si_nonce _ _ _ _ _ _ _ _ Hi), (si_nonce _ _ _ _ _ _ _ _ Hi').
  destruct (require_or_from_ok entries codes db root disk start Hdb BInv s a false (new_basic 0 start) Hi)
    as (s1 & e & acc & -> & Hw & _ & _ & _ & _ & Hc); [by apply account_ok_new_basic|].
  destruct (require_or_from_ok entries codes db' root disk start Hdb' BInv' s' a false (new_basic 0 start) Hi')
    as (s1' & e' & acc' & -> & Hw' & _ & _ & _ & _ & Hc'); [by apply account_ok_new_basic|].
  split; [done|]. rewrite <- (Hv a) in Hc'. rewrite Hc' in Hw'. rewrite Hc in Hw. eapply alike_wrote; [done..|].
  unfold original_root. cbn [fmap option_fmap option_map default]. by destruct (snd (views s a)).
Qed.

Hint Resolve touch_twin : twins.

(** Cores with one field changed. *)
Definition core_with_balance (x : Z) (c : core) : core :=
  mkCore x (c_nonce c) (c_code_hash c) (c_code c) (c_root c) (c_original c) (c_changes c).
Definition core_with_nonce (x : Z) (c : core) : core :=
  mkCore (c_balance c) x (c_code_hash c) (c_code c) (c_root c) (c_original c) (c_changes c).
Definition core_with_changes (m : gmap Z Z) (c : core) : core :=
  mkCore (c_balance c) (c_nonce c) (c_code_hash c) (c_code c) (c_root c) (c_original c) m.
Definition core_with_code (code : bytes) (c : core) : core :=
  mkCore (c_balance c) (c_nonce c) (keccak code) code (c_root c) (c_original c) (c_changes c).

Lemma core_init_code code (acc : Account L) : core_of (init_code code acc) = core_with_code code (core_of acc).
Proof. unfold StateSpec.core_of. by rewrite (proj2 (init_code_content codes Hempty acc code)). Qed.

Lemma add_balance_twin a x mode : respects alike (state_add_balance a x mode).
Proof.
  unfold state_add_balance. twin_step; [twins|]. case_match; [|twins].
  apply twin_then; [|twins]. apply require_twin. intros acc acc' Hc Ha Ha'.
  split_and!; [|by apply account_ok_balance..|done].
  change (core_with_balance (u256_saturating_add (c_balance (core_of acc)) x) (core_of acc) =
    core_with_balance (u256_saturating_add (c_balance (core_of acc')) x) (core_of acc')). by rewrite Hc.
Qed.

Lemma sub_balance_twin a x mode : respects alike (state_sub_balance a x mode).
Proof.
  unfold state_sub_balance. twin_step; [twins|]. twin_step; [|twins]. case_match; [|twins].
  apply require_twin. intros acc acc' Hc Ha Ha'. unfold sub_balance.
  assert (a_balance acc = a_balance acc') as Hb by apply (f_equal c_balance Hc). rewrite Hb. destruct (x <=? a_balance acc'); [|done].
  split_and!; [|by apply account_ok_balance..|done].
  change (core_with_balance (a_balance acc' - x) (core_of acc) = core_with_balance (a_balance acc' - x) (core_of acc')). by rewrite Hc.
Qed.
Hint Resolve add_balance_twin sub_balance_twin storage_at_twin : twins.

Lemma transfer_twin from to x mode : respects alike (transfer_balance from to x mode).
Proof. twins. Qed.

Lemma inc_nonce_twin a : respects alike (state_inc_nonce a).
Proof.
  apply require_twin. intros acc acc' Hc Ha Ha'. split_and!; [|by apply account_ok_nonce..|done].
  change (core_with_nonce (u256_saturating_add (c_nonce (core_of acc)) 1) (core_of acc) =
    core_with_nonce (u256_saturating_add (c_nonce (core_of acc')) 1) (core_of acc')). by rewrite Hc.
Qed.

Lemma set_storage_twin a k x : respects alike (state_set_storage a k x).
Proof.
  unfold state_set_storage. twin_step; [twins|]. case_match; [|twins].
  apply require_twin. intros acc acc' Hc Ha Ha'. split_and!; [|by apply account_ok_changes..|done].
  change (core_with_changes (<[k := x]> (c_changes (core_of acc))) (core_of acc) =
    core_with_changes (<[k := x]> (c_changes (core_of acc'))) (core_of acc')). by rewrite Hc.
Qed.

Lemma init_code_twin a code : respects alike (state_init_code a code).
Proof.
  unfold state_init_code. twin_step; [twins|]. apply modify_twin; [by apply account_ok_new_contract; [|left]..|done|].
  intros acc acc' Hc Ha Ha'. split_and!; [|by apply account_ok_init_code..|done]. by rewrite !core_init_code, Hc.
Qed.

Lemma new_contract_twin a b off : respects alike (state_new_contract a b off).
Proof.
  intros s s' Hal. pose proof Hal as [(Hi & Hi' & Hv & _) _]. unfold state_new_contract, bind, gets.
  destruct (state_original_storage_root_ok entries codes db root disk start Hdb BInv s a Hi) as (r & s1 & -> & Hq & Hr & Hd).
  destruct (state_original_storage_root_ok entries codes db' root disk start Hdb' BInv' s' a Hi') as (r' & s1' & -> & Hq' & Hr' & _).
  rewrite <- (Hv a), <- Hr in Hr'. subst r'. pose proof (alike_quiet _ _ _ _ Hal Hq Hq') as Hal1.
  rewrite (si_nonce _ _ _ _ _ _ _ _ (proj1 Hq)), (si_nonce _ _ _ _ _ _ _ _ (proj1 Hq')).
  destruct (u256_overflowing_add start off) as [n []]; [done|]. split; [done|].
  eapply alike_wrote; [exact Hal1|..].
  - apply insert_dirty_ok; [apply Hq| |done]. intros acc [= <-]. by apply account_ok_new_contract.
  - apply insert_dirty_ok; [apply Hq'| |done]. intros acc [= <-]. by apply account_ok_new_contract.
  - rewrite (proj1 (proj2 Hq)). change (default KECCAK_NULL_RLP (c_original_root <$> snd (views s a))) with (original_root (snd (views s a))) in Hr.
    rewrite <- Hr. exact (new_contract_original_root codes b n r).
Qed.

(** ** Checkpoints *)

Lemma Forall2_pw_sym Es Es' : Forall2 pw Es Es' -> Forall2 pw Es' Es.
Proof. intros H. apply Forall2_flip. eapply Forall2_impl; [exact H|]. intros E E' HE. by apply pw_sym. Qed.

(** States that reach given views, of which the roots are those of [s]. *)
Lemma alike_moved (s s1 s1' : St) E E' Es Es' : inv s1 -> inv' s1' -> pw (views s1) E -> pw (views s1') E' -> pw E E' ->
  Forall2 pw (levels s1) Es -> Forall2 pw (levels s1') Es' -> Forall2 pw Es Es' ->
  (forall a, original_root (snd (E a)) = original_root (snd (views s a))) ->
  Forall (fun E : Z -> bool * option core => forall a, original_root (snd (E a)) = original_root (snd (views s a))) Es ->
  alike s1 s1'.
Proof.
  intros Hi Hi' Hv Hv' HE Hl Hl' HEs Ho Hos. split.
  - split_and!; [done|done| |].
    + eapply pw_trans; [exact Hv|]. eapply pw_trans; [exact HE|]. by apply pw_sym.
    + eapply Forall2_pw_trans; [exact Hl|]. eapply Forall2_pw_trans; [exact HEs|]. by apply Forall2_pw_sym.
  - eapply uniform_pw; [exact Hl| |exact Hos]. intros a. by rewrite Hv.
Qed.

Lemma checkpoint_alike s s' : alike s s' -> alike (snd (checkpoint s)) (snd (checkpoint s')).
Proof.
  intros [(Hi & Hi' & Hv & Hl) Hu].
  destruct (checkpoint_ok entries codes db root disk start BInv s Hi) as (Hi1 & Hv1 & Hl1).
  destruct (checkpoint_ok entries codes db' root disk start BInv' s' Hi') as (Hi1' & Hv1' & Hl1').
  by eapply (alike_moved s); [..|constructor|done|constructor].
Qed.

Lemma discard_alike s s' : alike s s' -> alike (discard_checkpoint s) (discard_checkpoint s').
Proof.
  intros [(Hi & Hi' & Hv & Hl) Hu]. unfold uniform in Hu.
  destruct (discard_ok entries codes db root disk start BInv s Hi) as (Hi1 & Hv1 & Hl1).
  destruct (discard_ok entries codes db' root disk start BInv' s' Hi') as (Hi1' & Hv1' & Hl1').
  eapply (alike_moved s); [exact Hi1|exact Hi1'|exact Hv1|exact Hv1'|exact Hv|exact Hl1|exact Hl1'|by destruct Hl|done|by destruct Hu].
Qed.

Lemma revert_alike s s' : alike s s' -> alike (revert_to_checkpoint s) (revert_to_checkpoint s').
Proof.
  intros Hal. pose proof Hal as [(Hi & Hi' & Hv & Hl) Hu]. unfold uniform in Hu.
  destruct (revert_ok entries codes db root disk start BInv s Hi) as [Hi1 Hr].
  destruct (revert_ok entries codes db' root disk start BInv' s' Hi') as [Hi1' Hr'].
  destruct Hl as [|E E' Es Es' HE Hl]; [by rewrite Hr, Hr'|]. apply Forall_cons in Hu as [Hu0 Hu].
  destruct Hr as [Hv1 Hl1], Hr' as [Hv1' Hl1']. by eapply (alike_moved s).
Qed.

(** ** Removed accounts *)

(** No account of the database is empty, as EIP-161 leaves them. *)
Context (Hfull : forall a b, disk a = Some b -> is_null (Account_from (L := L) b) = false).

Lemma kill_garbage_like touched ke kc s s' : like s s' ->
  like (kill_garbage touched ke None kc s) (kill_garbage touched ke None kc s').
Proof.
  intros (Hi & Hi' & Hv & Hl). unfold kill_garbage. set (l := omap _ _). set (l' := omap _ (map_to_list (st_cache s'))).
  assert (Hll : forall a, a ∈ l <-> a ∈ l').
  { intros a. unfold l, l'. by rewrite !garbage_elem, <- !(null_cached codes disk Hfull), (Hv a). }
  destruct (kill_all_views entries codes root disk start db BInv l s Hi) as (Hi1 & Hv1 & Hl1).
  destruct (kill_all_views entries codes root disk start db' BInv' l' s' Hi') as (Hi1' & Hv1' & Hl1').
  split_and!; [done|done| |].
  - intros a. by rewrite Hv1, Hv1', (Hv a), (bool_decide_ext _ _ (Hll a)).
  - eapply Forall2_pw_trans; [exact Hl1|]. eapply Forall2_pw_trans; [exact Hl|]. by apply Forall2_pw_sym.
Qed.

Lemma kill_accounts_like l s s' : like s s' -> like (foldl (fun s a => kill_account a s) s l) (foldl (fun s a => kill_account a s) s' l).
Proof.
  intros (Hi & Hi' & Hv & Hl).
  destruct (kill_all_views entries codes root disk start db BInv l s Hi) as (Hi1 & Hv1 & Hl1).
  destruct (kill_all_views entries codes root disk start db' BInv' l s' Hi') as (Hi1' & Hv1' & Hl1').
  split_and!; [done|done| |].
  - intros a. by rewrite Hv1, Hv1', (Hv a).
  - eapply Forall2_pw_trans; [exact Hl1|]. eapply Forall2_pw_trans; [exact Hl|]. by apply Forall2_pw_sym.
Qed.

End Alike.
