(* ===== verification/CopyData.v ===== *)
(** * The copying instructions

    [copy_data_to_memory] of [ethcore/evm/src/interpreter/mod.rs], the routine behind
    [CALLDATACOPY], [CODECOPY], [EXTCODECOPY] and [RETURNDATACOPY]: it zeroes the part of the
    destination that lies beyond the source and then copies the rest. Here it is shown to
    be the copy of the zero-extended source, and never to panic on a charged range. *)

From S2P Require Import Prelude Vm Memory Interpreter.
From stdpp Require Import base numbers option list.

Open Scope Z_scope.

(** The memory after copying [n] bytes of [source], from offset [s], to offset [d]. *)
Definition copied (mem source mem' : bytes) (d s n : Z) : Prop :=
  forall k : nat, mem' !! k =
    if decide (d <= Z.of_nat k < d + n)
    then Some (default 0 (if decide (Z.of_nat k - d + s < zlen source)
                          then source !! Z.to_nat (Z.of_nat k - d + s) else None))
    else mem !! k.

Lemma zero_range mem d n :
  vec_ok mem -> is_u256 d -> is_u256 n -> in_memory mem d n ->
  exists mem', ('(start, m) ← writeable_slice mem d n; vec_write mem start (replicate (Z.to_nat m) 0))
               = Some mem' /\ zlen mem' = zlen mem /\ vec_ok mem' /\
    forall k, mem' !! k = if decide (d <= Z.of_nat k < d + n) then Some 0 else mem !! k.
Proof.
  intros Hm Hd Hn Hin.
  destruct (writeable_slice_in mem d n Hm Hd Hn Hin) as (o & -> & Ho & Ho0 & Hle).
  cbn [mbind option_bind]. assert (Hz : zlen (replicate (Z.to_nat n) 0) = n)
    by (apply zlen_replicate; range_lia).
  assert (Hw := vec_write_some mem (replicate (Z.to_nat n) 0) o Ho0 ltac:(lia)).
  eexists; split; [exact Hw|]. split_and!.
  - by eapply vec_write_len.
  - destruct Hm as [Hb Hl]. split; [|by erewrite vec_write_len].
    eapply vec_write_Forall; [exact Hb| |exact Hw]. apply Forall_replicate. range_lia.
  - intros k. rewrite (vec_write_lookup _ _ _ _ k Hw), Hz.
    destruct (Z.eq_dec n 0) as [->|Hne].
    + rewrite !decide_False by lia. done.
    + rewrite Ho by range_lia. case_decide; [|done]. apply lookup_replicate_2. lia.
Qed.

(** Zeroing starts where the source ends. *)
Lemma zero_tail_in mem d s n z :
  vec_ok mem -> is_u256 d -> is_u256 s -> is_u256 n -> in_memory mem d n -> 0 <= z < U64_MOD ->
  z < s \/ z < s + n ->
  exists mem', zero_tail mem d s n z = Some mem' /\ zlen mem' = zlen mem /\ vec_ok mem' /\
    forall k, mem' !! k = if decide (d + Z.max 0 (z - s) <= Z.of_nat k < d + n) then Some 0 else mem !! k.
Proof.
  intros Hm Hd Hs Hn Hin Hz Hb. pose proof (vec_ok_lt _ Hm) as Hlt. unfold zero_tail.
  destruct (Z.ltb_spec z s).
  - rewrite Z.max_l by lia. rewrite Z.add_0_r. by apply zero_range.
  - assert (Hn0 : 0 < n) by range_lia. destruct Hin as [|Hin]; [lia|].
    rewrite u256_add_some by range_lia. cbn [mbind option_bind].
    rewrite u256_sub_some by range_lia. cbn [mbind option_bind].
    rewrite u256_add_some by range_lia. cbn [mbind option_bind].
    rewrite u256_sub_some by range_lia. cbn [mbind option_bind].
    destruct (zero_range mem (d + z - s) (s + n - z)) as (mem' & Hw & Hl & Hok & Hk);
      [done|range_lia|range_lia|right; lia|].
    exists mem'. split_and!; [exact Hw|done|done|]. intros k. rewrite Hk.
    repeat case_decide; done || lia.
Qed.

Lemma write_slice_lookup mem off slice :
  vec_ok mem -> is_u256 off -> is_bytes slice -> in_memory mem off (zlen slice) ->
  exists mem', write_slice mem off slice = Some mem' /\ zlen mem' = zlen mem /\ vec_ok mem' /\
    forall k, mem' !! k = if decide (off <= Z.of_nat k < off + zlen slice)
                          then slice !! (k - Z.to_nat off)%nat else mem !! k.
Proof.
  intros Hm Ho Hb Hin. destruct (write_slice_in mem off slice Hm Ho Hin) as (mem' & Hw & Hl & Hok & Hv).
  exists mem'. split_and!; [done|done|by apply Hok|]. intros k.
  destruct slice as [|x slice].
  - injection Hw as <-. rewrite decide_False; [done|]. unfold zlen. cbn. lia.
  - by apply vec_write_lookup, Hv.
Qed.

(** The copy proper, onto the zeroed memory. *)
Lemma copy_prefix mem mem1 source d s n hi :
  vec_ok mem1 -> zlen mem1 = zlen mem -> vec_ok source -> is_u256 d -> is_u256 s -> is_u256 n ->
  in_memory mem d n -> s < zlen source -> hi = Z.min (s + n) (zlen source) ->
  (forall k, mem1 !! k = if decide (d + Z.max 0 (zlen source - s) <= Z.of_nat k < d + n)
                         then Some 0 else mem !! k) ->
  exists mem', (sl ← vec_slice source (low_u64 s) hi; write_slice mem1 d sl) = Some mem' /\
    zlen mem' = zlen mem /\ vec_ok mem' /\ copied mem source mem' d s n.
Proof.
  intros Hm Hl Hsrc Hd Hs Hn Hin Hlt -> Hk. pose proof (vec_ok_lt _ Hsrc) as Hsl.
  rewrite low_u64_small by range_lia.
  assert (Hv := vec_slice_some source s (Z.min (s + n) (zlen source)) ltac:(range_lia) ltac:(range_lia) ltac:(lia)).
  rewrite Hv. cbn [mbind option_bind]. pose proof (vec_slice_len _ _ _ _ Hv) as Hlen.
  pose proof (fun j => vec_slice_lookup _ _ _ _ j Hv) as Hlk.
  pose proof (vec_slice_Forall is_u8 _ _ _ _ (proj1 Hsrc) Hv) as Hsb.
  revert Hv Hlen Hlk Hsb. generalize (take (Z.to_nat (Z.min (s + n) (zlen source) - s)) (drop (Z.to_nat s) source)).
  intros sl Hv Hlen Hlk Hsb.
  destruct (write_slice_lookup mem1 d sl Hm Hd Hsb) as (mem' & Hw & Hl' & Hok & Hk').
  { unfold in_memory in *. rewrite Hl. range_lia. }
  exists mem'. split_and!; [done|by rewrite Hl'|done|].
  intros k. rewrite Hk', Hlen, Hk. unfold is_u256 in *. repeat case_decide; try lia; try done.
  rewrite Hlk, decide_True by lia.
  destruct (lookup_lt_is_Some_2 source (Z.to_nat (Z.of_nat k - d + s))) as [x Hx];
    [unfold zlen in *; lia|].
  rewrite Hx. cbn. rewrite <- Hx. f_equal. lia.
Qed.

Lemma copy_to_memory_in mem source d s n :
  vec_ok mem -> vec_ok source -> is_u256 d -> is_u256 s -> is_u256 n -> in_memory mem d n ->
  exists mem', copy_to_memory mem source d s n = Some mem' /\ zlen mem' = zlen mem /\ vec_ok mem' /\
    copied mem source mem' d s n.
Proof.
  intros Hm Hsrc Hd Hs Hn Hin. pose proof (vec_ok_lt _ Hsrc) as Hz. unfold copy_to_memory.
  assert (Hb : exists b, (if (zlen source <? s) || (zlen source <? n) then Some true
     else sum ← u256_add s n; Some (zlen source <? sum)) = Some b /\
     (b = true <-> zlen source < s \/ zlen source < s + n)).
  { destruct (Z.ltb_spec (zlen source) s), (Z.ltb_spec (zlen source) n); cbn [orb].
    1-3: eexists; split; [done|]; range_lia.
    rewrite u256_add_some by range_lia. eexists; split; [done|]. cbn. rewrite Z.ltb_lt. lia. }
  destruct Hb as (b & -> & Hb). cbn [mbind option_bind]. destruct b.
  - destruct (zero_tail_in mem d s n (zlen source)) as (mem1 & -> & Hl1 & Hok1 & Hk1);
      [done..|by apply Hb|]. cbn [mbind option_bind].
    destruct (Z.ltb_spec s (zlen source)).
    + apply (copy_prefix mem); try done. range_lia.
    + exists mem1. split_and!; [done..|]. intros k. rewrite Hk1.
      unfold is_u256 in *. repeat case_decide; done || lia.
  - assert (Hnb : s <= zlen source /\ s + n <= zlen source).
    { destruct (decide (zlen source < s \/ zlen source < s + n)) as [Hx|]; [by apply Hb in Hx|lia]. }
    rewrite usize_add_some by (rewrite !low_u64_small by range_lia; range_lia).
    cbn [mbind option_bind].
    destruct (Z.ltb_spec s (zlen source)).
    + apply (copy_prefix mem); try done; [rewrite !low_u64_small by range_lia; lia|]. intros k. rewrite decide_False by lia. done.
    + exists mem. split_and!; [done..|]. intros k. rewrite decide_False by lia. done.
Qed.

(** The copying instructions never panic on a charged destination and copy the source
    as if it were followed by infinitely many zeros, whatever the offsets and sizes;
    nothing outside the destination changes. *)
Theorem copy_to_memory_spec (mem source : bytes) (d s n : Z)
    (Hm : vec_ok mem) (Hsrc : vec_ok source) (Hd : is_u256 d) (Hs : is_u256 s) (Hn : is_u256 n)
    (Hin : in_memory mem d n) :
  exists mem', copy_to_memory mem source d s n = Some mem' /\ zlen mem' = zlen mem /\
    forall k : nat, mem' !! k =
      if decide (d <= Z.of_nat k < d + n)
      then Some (default 0 (if decide (Z.of_nat k - d + s < zlen source)
                            then source !! Z.to_nat (Z.of_nat k - d + s) else None))
      else mem !! k.
Proof.
  destruct (copy_to_memory_in mem source d s n) as (mem' & ? & ? & _ & ?); [done..|]. eauto.
Qed.

Lemma copy_to_memory_spec_witness :
  exists mem', copy_to_memory (replicate 32 9) [1; 2; 3] 4 1 5 = Some mem' /\
    mem' !! 5%nat = Some 3 /\ mem' !! 8%nat = Some 0 /\ mem' !! 9%nat = Some 9.
Proof.
  destruct (copy_to_memory_spec (replicate 32 9) [1; 2; 3] 4 1 5) as (mem' & H1 & _ & H2);
    [|split; [repeat constructor; done|done]|range_lia|range_lia|range_lia|by right|].
  - split; [|done]. apply Forall_replicate. range_lia.
  - exists mem'. rewrite !H2. split; [exact H1|]. split_and!; reflexivity.
Defined.
