(* ===== verification/InterpreterSafety.v ===== *)
(** * Safety of the interpreter

    No step of the interpreter panics, and every step keeps the invariant that makes the
    next one safe: the memory is a whole number of words, paid for and large enough for the
    instruction; the stack holds words, at least as many as the instruction needs and never
    more than the limit; gas never wraps. *)

From S2P Require Import Prelude Schedule Instructions Vm CostType Gasometer Memory JumpTable Word Interpreter CopyData.
From stdpp Require Import base numbers option strings list.

Open Scope Z_scope.
Open Scope origo_scope.

Section Rules.
Context {C E : Type} {X : Ext E}.
Implicit Types (i : Interp C) (e : E).

Lemma wp_pop_back i e x r (Q : Z -> IS -> Prop) R :
  i_stack i = x :: r -> Q x (set_stack r i, e) -> wp pop_back Q R (i, e).
Proof. intros Hs HQ. unfold wp, pop_back. by rewrite Hs. Qed.

Lemma wp_push i e v (Q : unit -> IS -> Prop) R :
  Q tt (set_stack (v :: i_stack i) i, e) -> wp (push v) Q R (i, e).
Proof. done. Qed.

(** The same on states in which only the stack was replaced so far. *)
Lemma wp_pop_set i e x r (Q : Z -> IS -> Prop) R :
  Q x (set_stack r i, e) -> wp pop_back Q R (set_stack (x :: r) i, e).
Proof. done. Qed.

Lemma wp_push_set i e v l (Q : unit -> IS -> Prop) R :
  Q tt (set_stack (v :: l) i, e) -> wp (push v) Q R (set_stack l i, e).
Proof. done. Qed.

Lemma set_stack_eq i l : i_stack i = l -> i = set_stack l i.
Proof. intros <-. by destruct i. Qed.

Lemma wp_geti {A} i e (f : Interp C -> A) (Q : A -> IS -> Prop) R :
  Q (f i) (i, e) -> wp (geti f) Q R (i, e).
Proof. done. Qed.

Lemma wp_gete {A} i e (f : E -> A) (Q : A -> IS -> Prop) R :
  Q (f e) (i, e) -> wp (gete f) Q R (i, e).
Proof. done. Qed.

Lemma wp_modi i e f (Q : unit -> IS -> Prop) R : Q tt (f i, e) -> wp (modi f) Q R (i, e).
Proof. done. Qed.

Lemma wp_lift_ext {A} i e (m : M E vm_error A) (Q : A -> IS -> Prop) R :
  wp m (fun a e' => Q a (i, e')) (fun er e' => R er (i, e')) e -> wp (lift_ext m) Q R (i, e).
Proof. unfold wp, lift_ext. by destruct (m e). Qed.

Lemma wp_with_mem i e f mem (Q : unit -> IS -> Prop) R :
  f (i_mem i) = Some mem -> Q tt (set_mem mem i, e) -> wp (with_mem f) Q R (i, e).
Proof.
  intros Hf HQ. unfold with_mem. wp_bind. apply wp_geti. wp_bind.
  eapply wp_expect; [exact Hf|]. by apply wp_modi.
Qed.

Lemma wp_rd_deref {S Er} r (Q : bytes -> S -> Prop) (R : Er -> S -> Prop) s :
  return_data_ok r ->
  (is_bytes (rd_bytes r) -> zlen (rd_bytes r) = rd_size r -> rd_size r < 2 ^ 63 ->
   Q (rd_bytes r) s) ->
  wp (rd_deref r) Q R s.
Proof.
  intros ([Hb Hl] & Ho & Hs & Hle) HQ. unfold rd_deref. wp_bind.
  eapply wp_expect.
  { unfold usize_add. by rewrite (proj2 (Z.ltb_lt _ _)) by range_lia. }
  eapply wp_expect; [by apply vec_slice_some; lia|].
  replace (rd_offset r + rd_size r - rd_offset r) with (rd_size r) by lia.
  apply HQ; [by apply Forall_take, Forall_drop| |lia].
  apply zlen_take. rewrite zlen_drop by lia. lia.
Qed.

End Rules.

(** One statement of an instruction: sequencing, stack and field access. *)
Ltac istep :=
  match goal with
  | |- wp (bind _ _) _ _ _ => apply wp_bind
  | |- wp (ret _) _ _ _ => apply wp_ret
  | |- wp pop_back _ _ (set_stack _ _, _) => apply wp_pop_set
  | |- wp pop_back _ _ _ => eapply wp_pop_back; [first [eassumption|reflexivity]|]
  | |- wp (push _) _ _ (set_stack _ _, _) => apply wp_push_set
  | |- wp (push _) _ _ _ => apply wp_push
  | |- wp (push_ok _) _ _ _ => unfold push_ok
  | |- wp (geti _) _ _ _ => apply wp_geti
  | |- wp (gete _) _ _ _ => apply wp_gete
  | |- wp (modi _) _ _ _ => apply wp_modi
  | |- wp (lift_ext _) _ _ _ => apply wp_lift_ext
  end.

(** Splits the facts on the words of a stack. *)
Ltac split_words :=
  repeat match goal with
  | H : Forall is_u256 (_ :: _) |- _ => apply Forall_cons in H as [? H]
  end.

(** ** What an instruction needs and what it leaves *)

Section Exec.
Context {C : Type} {DC : DestCache C} {Cost : CostType} {CL : CostLaws Cost}.
Context {K : Keccak} (HK : forall b, is_u256 (keccak b)).
Context {E : Type} {X : Ext E} (Inv : E -> Prop).
Context {me : Z} {affords : E -> Z -> Z -> Prop} {trap_ready : E -> TrapKind -> Prop}.
Context {EL : ExtLaws me Inv affords trap_ready}.
Implicit Types (i : Interp C) (e : E).

Record params_ok (p : InterpreterParams) : Prop := {
  po_address : is_address (ip_address p);
  po_sender : is_address (ip_sender p);
  po_origin : is_address (ip_origin p);
  po_gas_price : is_u256 (ip_gas_price p);
  po_value : is_u256 (action_value (ip_value p));
  po_data : opt_ok vec_ok (ip_data p);
}.

(** The gas a call or create may give back: what was provided and the stipend. *)
Definition allowance (sch : Schedule) (instr : Instruction) (st : list Z) (p : option Z) : Z :=
  default 0 p + stipend_of sch instr st.

Record exec_pre (i : Interp C) (e : E) (left : Z) (instr : Instruction) (inf : InstructionInfo)
    (p : option Z) : Prop := {
  ep_host : Inv e;
  ep_info : info_slot instr = Some inf;
  ep_args : info_args inf <= zlen (i_stack i);
  ep_stack : Forall is_u256 (i_stack i);
  ep_mem : vec_ok (i_mem i);
  ep_covers : covers (zlen (i_mem i)) (mem_demand instr (i_stack i));
  ep_code : vec_ok (i_code i);
  ep_pos : 1 <= i_position i <= zlen (i_code i);
  ep_rd : return_data_ok (i_return_data i);
  ep_params : params_ok (i_params i);
  ep_left : cost_ok left;
  ep_provided : passes_gas instr = true ->
    exists q, p = Some q /\ 0 <= q /\ q + stipend_of (ext_schedule e) instr (i_stack i) < cost_mod;
  ep_self : ip_address (i_params i) = me;
}.

(** What an instruction leaves alone, and the state it keeps well formed. *)
Record frame (i i' : Interp C) : Prop := mkFrame {
  fr_code : i_code i' = i_code i;
  fr_params : i_params i' = i_params i;
  fr_gas : i_gasometer i' = i_gasometer i;
  fr_cache : i_cache i' = i_cache i;
  fr_vjd : i_valid_jump_destinations i' = i_valid_jump_destinations i;
  fr_done : i_done i' = i_done i;
  fr_trace : i_do_trace i' = i_do_trace i;
  fr_resume : i_resume_result i' = i_resume_result i;
  fr_ret : i_last_stack_ret_len i' = i_last_stack_ret_len i;
  fr_len : zlen (i_mem i') = zlen (i_mem i);
  fr_mem : vec_ok (i_mem i');
  fr_rd : return_data_ok (i_return_data i');
  fr_pos : i_position i <= i_position i' <= i_position i + 32;
  fr_stack : Forall is_u256 (i_stack i');
}.

(** What the trap of a call or create leaves for the resumption. *)
Definition trap_ok (bound : Z) (i : Interp C) (t : TrapKind) : Prop :=
  match t with
  | TrapCall p => 0 <= ap_gas p <= bound /\
      exists o n, i_resume_output_range i = Some (o, n) /\ is_u256 o /\ is_u256 n /\
                  in_memory (i_mem i) o n
  | TrapCreate p _ => 0 <= ap_gas p <= bound
  end.

Definition result_ok (left bound : Z) (instr : Instruction) (i' : Interp C)
    (r : InstructionResult) : Prop :=
  match r with
  | InstrOk => halts instr = false
  | UnusedGas g => halts instr = false /\ passes_gas instr = true /\ 0 <= g <= bound
  | JumpToPosition p => halts instr = false /\ is_u256 p
  | StopExecutionNeedsReturn g o n _ =>
      g = left /\ is_u256 o /\ is_u256 n /\ in_memory (i_mem i') o n
  | StopExecution => True
  | InstrTrap t => halts instr = false /\ passes_gas instr = true /\ trap_ok bound i' t
  end.

(** The stack effect is the table's; a trap leaves the result to the resumption. *)
Definition stack_effect (inf : InstructionInfo) (i i' : Interp C) (r : InstructionResult) : Prop :=
  match r with
  | InstrTrap _ => info_ret inf = 1 /\ zlen (i_stack i') = zlen (i_stack i) - info_args inf
  | _ => zlen (i_stack i') = zlen (i_stack i) - info_args inf + info_ret inf
  end.

Definition exec_post (i : Interp C) (e : E) (left : Z) (instr : Instruction) (inf : InstructionInfo)
    (p : option Z) (r : InstructionResult) (s : IS) : Prop :=
  host Inv e (snd s) /\ frame i (fst s) /\ stack_effect inf i (fst s) r /\
  result_ok left (allowance (ext_schedule e) instr (i_stack i) p) instr (fst s) r /\
  forall t, r = InstrTrap t -> trap_ready (snd s) t.

Definition exec_err (e : E) (er : vm_error) (s : IS (C := C)) : Prop := proper er /\ host Inv e (snd s).

Definition exec_safe (instr : Instruction) : Prop :=
  forall i e left inf p, exec_pre i e left instr inf p ->
    wp (exec_instruction left instr p) (exec_post i e left instr inf p) (exec_err e) (i, e).

Lemma host_refl e : Inv e -> host Inv e e.
Proof. done. Qed.

(** Only the stack changed. *)
Lemma frame_stack i e left instr inf p st :
  exec_pre i e left instr inf p -> Forall is_u256 st -> frame i (set_stack st i).
Proof. intros [] Hst. split; cbn; first [done|lia|apply H]. Qed.

Lemma zlen_nil_absurd (A : Type) n (P : Prop) : 0 < n -> n <= zlen (@nil A) -> P.
Proof. unfold zlen. cbn. lia. Qed.

(** *** Pure instructions *)

(** An instruction that pops its arguments and pushes its results, all words. *)
Lemma stack_post i e e' left instr inf p st r :
  exec_pre i e left instr inf p -> host Inv e e' -> Forall is_u256 st ->
  zlen st = zlen (i_stack i) - info_args inf + info_ret inf ->
  match r with InstrTrap _ => False | _ => True end ->
  result_ok left (allowance (ext_schedule e) instr (i_stack i) p) instr (set_stack st i) r ->
  exec_post i e left instr inf p r (set_stack st i, e').
Proof.
  intros Hp He Hst Hlen Ht Hr. split_and!; cbn [fst snd]; [done| | |done|].
  - by eapply frame_stack.
  - by destruct r.
  - by intros t ->.
Qed.

Lemma push_post i e e' left instr inf p v r :
  exec_pre i e left instr inf p -> host Inv e e' -> halts instr = false -> info_ret inf = 1 ->
  is_u256 v -> Forall is_u256 r -> zlen r = zlen (i_stack i) - info_args inf ->
  exec_post i e left instr inf p InstrOk (set_stack (v :: r) i, e').
Proof.
  intros Hp He Hh Hr Hv Hrs Hlen. apply stack_post; auto. rewrite zlen_cons. lia.
Qed.

Lemma demand_in i e left instr inf p off size l : exec_pre i e left instr inf p ->
  mem_demand instr (i_stack i) = l -> (off, size) ∈ l -> in_memory (i_mem i) off size.
Proof.
  intros Hp Hd Hin. pose proof (ep_covers _ _ _ _ _ _ Hp) as Hc. rewrite Hd in Hc.
  unfold covers in Hc. rewrite Forall_forall in Hc. exact (Hc _ Hin).
Qed.

Lemma mem_post i e left instr inf p mem st : exec_pre i e left instr inf p -> halts instr = false ->
  Forall is_u256 st -> vec_ok mem -> zlen mem = zlen (i_mem i) ->
  zlen st = zlen (i_stack i) - info_args inf + info_ret inf ->
  exec_post i e left instr inf p InstrOk (set_mem mem (set_stack st i), e).
Proof.
  intros Hp Hh Hst Hm Hl Hlen. split_and!; cbn [fst snd]; [apply host_refl, Hp| |done|done|done].
  destruct (frame_stack i e left instr inf p st Hp Hst) as []. split; cbn in *; try done.
Qed.

(** The refund bookkeeping of EIP-1283 never underflows a price. *)
Lemma eip1283_refund_ok o c n :
  method_ok Inv (fun _ => True) (handle_eip1283_sstore_clears_refund o c n).
Proof.
  intros e He. unfold handle_eip1283_sstore_clears_refund.
  pose proof (schedule_wf_ok _ (law_schedule e He)) as Hsch.
  assert (Hmeth : forall (m : M E Empty_set unit) e', method_ok Inv (fun _ => True) m -> host Inv e e' ->
    wp (infallible m) (fun _ e2 => True /\ Inv e2 /\ same_env e e2)
       (fun er e2 => proper er /\ Inv e2 /\ same_env e e2) (e' : E) (Er := vm_error)).
  { intros m e' Hm He'. apply wp_infallible.
    eapply wp_method; [exact Hm|exact He'|intros a e2 _ [? ?]; done|done]. }
  wp_bind. apply wp_gets.
  assert (Hsub : forall a b, b <= a -> usize_sub a b = Some (a - b))
    by (intros a b Hab; unfold usize_sub; by rewrite (proj2 (Z.leb_le _ _)) by done).
  assert (Hrest : forall e', host Inv e e' ->
    wp (if o =? n then
      if o =? 0 then
        do refund <- expect (usize_sub (sstore_set_gas (ext_schedule e)) (sload_gas (ext_schedule e))) in
        infallible (ext_add_sstore_refund refund)
      else
        do refund <- expect (usize_sub (sstore_reset_gas (ext_schedule e)) (sload_gas (ext_schedule e))) in
        infallible (ext_add_sstore_refund refund)
    else ret tt) (fun _ e2 => True /\ Inv e2 /\ same_env e e2)
       (fun er e2 => proper er /\ Inv e2 /\ same_env e e2) (e' : E) (Er := vm_error)).
  { intros e' He'. destruct (o =? n); [|apply wp_ret; by destruct He'].
    destruct (o =? 0); wp_bind; (eapply wp_expect; [apply Hsub, Hsch|]);
      apply Hmeth; auto; apply law_add_sstore_refund. }
  destruct (c =? n); [by apply wp_ret|]. destruct (o =? c).
  - destruct (o =? 0); [by apply wp_ret|]. destruct (n =? 0); [|by apply wp_ret].
    apply Hmeth; [apply law_add_sstore_refund|done].
  - wp_bind. eapply wp_mono with (Q := fun _ e2 => True /\ Inv e2 /\ same_env e e2);
      [|intros _ e2 (_ & ? & ?); by apply Hrest|intros er e2 H2; exact H2].
    destruct (negb (o =? 0)); [|by apply wp_ret]. destruct (c =? 0).
    + apply Hmeth; [apply law_sub_sstore_refund|done].
    + destruct (n =? 0); [|by apply wp_ret]. apply Hmeth; [apply law_add_sstore_refund|done].
Qed.

Context (i : Interp C) (e : E) (left : Z) (instr : Instruction) (inf : InstructionInfo)
  (p : option Z) (Hp : exec_pre i e left instr inf p).
Let post := exec_post i e left instr inf p.
Let err := exec_err e.

Hint Extern 1 (host _ _ _) => apply host_refl, Hp : core.

(** The operands of the instruction, by the pattern of the stack. *)
Tactic Notation "operands" constr(Ha) simple_intropattern(pat) :=
  let Hargs := fresh "Hargs" in let Hst := fresh "Hst" in
  pose proof (ep_args _ _ _ _ _ _ Hp) as Hargs; pose proof (ep_stack _ _ _ _ _ _ Hp) as Hst;
  rewrite Ha in Hargs; destruct (i_stack i) as pat eqn:Hs; [by unfold zlen in Hargs..|];
  clear Hargs; split_words; rewrite (set_stack_eq i _ Hs).

Lemma unop_ok f : halts instr = false -> info_args inf = 1 -> info_ret inf = 1 -> closed1 f ->
  wp (unop f) post err (i, e).
Proof.
  intros Hh Ha Hr Hf. unfold unop.
  operands Ha [|a r]. repeat istep.
  apply push_post; auto. rewrite Hs, zlen_cons. lia.
Qed.

Lemma binop_ok f : halts instr = false -> info_args inf = 2 -> info_ret inf = 1 -> closed2 f ->
  wp (binop f) post err (i, e).
Proof.
  intros Hh Ha Hr Hf. unfold binop.
  operands Ha [|a [|b r]]. repeat istep.
  apply push_post; auto. rewrite Hs, !zlen_cons. lia.
Qed.

Lemma ternop_ok f : halts instr = false -> info_args inf = 3 -> info_ret inf = 1 -> closed3 f ->
  wp (ternop f) post err (i, e).
Proof.
  intros Hh Ha Hr Hf. unfold ternop.
  operands Ha [|a [|b [|c r]]]. repeat istep.
  apply push_post; auto. rewrite Hs, !zlen_cons. lia.
Qed.

Lemma push_ok_ok v : halts instr = false -> info_args inf = 0 -> info_ret inf = 1 -> is_u256 v ->
  wp (push_ok v) post err (i, e).
Proof.
  intros Hh Ha Hr Hv. rewrite (set_stack_eq i _ eq_refl). repeat istep.
  apply push_post; auto; [apply Hp|lia].
Qed.

Lemma query_ok f : halts instr = false -> info_args inf = 1 -> info_ret inf = 1 ->
  (forall a, is_u256 a -> method_ok Inv is_u256 (f a)) -> wp (query f) post err (i, e).
Proof.
  intros Hh Ha Hr Hf. unfold query. operands Ha [|a r]. do 4 istep.
  eapply wp_method; [by apply Hf|apply host_refl, Hp| |done].
  intros v e' Hv He'. repeat istep. apply push_post; auto. rewrite Hs, zlen_cons. lia.
Qed.

(** [DUPn] and [SWAPn]. *)
Lemma dup_ok n : halts instr = false -> dup_position instr = Some n ->
  info_args inf = n + 1 -> info_ret inf = n + 2 -> 0 <= n ->
  wp (do position <- expect (dup_position instr) in
      do st <- geti i_stack in do val <- peek st position in push_ok val) post err (i, e).
Proof.
  intros Hh Hn Ha Hr H0. pose proof (ep_args _ _ _ _ _ _ Hp) as Hargs.
  rewrite Hn. istep. apply wp_ret. do 3 istep.
  apply wp_peek; [apply Hp|lia|]. intros v Hv Hvu. repeat istep.
  apply stack_post; auto; [constructor; [done|apply Hp]|]. rewrite zlen_cons. lia.
Qed.

Lemma swap_ok n : halts instr = false -> swap_position instr = Some n ->
  info_args inf = n + 1 -> info_ret inf = n + 1 -> 0 <= n ->
  wp (do position <- expect (swap_position instr) in
      swap_with_top position ;;; ret InstrOk) post err (i, e).
Proof.
  intros Hh Hn Ha Hr H0. pose proof (ep_args _ _ _ _ _ _ Hp) as Hargs.
  pose proof (ep_stack _ _ _ _ _ _ Hp) as Hst.
  rewrite Hn. istep. apply wp_ret. istep. unfold swap_with_top. do 3 istep.
  destruct (vec_get_is_Some (i_stack i) n ltac:(lia)) as [a Hga].
  destruct (vec_get_is_Some (i_stack i) 0 ltac:(lia)) as [b Hgb].
  eapply wp_expect; [exact Hga|]. istep. eapply wp_expect; [exact Hgb|]. repeat istep.
  apply stack_post; auto.
  - apply Forall_insert; [apply Forall_insert; [done|]|].
    + by eapply (vec_get_Forall is_u256).
    + by eapply (vec_get_Forall is_u256).
  - unfold zlen in *. rewrite !length_insert. lia.
Qed.

Lemma pop_ok : halts instr = false -> info_args inf = 1 -> info_ret inf = 0 ->
  wp (pop_back ;;; ret InstrOk) post err (i, e).
Proof.
  intros Hh Ha Hr. operands Ha [|a r]. repeat istep. apply stack_post; auto.
  rewrite Hs, zlen_cons. lia.
Qed.

Lemma signextend_ok : halts instr = false -> info_args inf = 2 -> info_ret inf = 1 ->
  wp exec_signextend post err (i, e).
Proof.
  intros Hh Ha Hr. unfold exec_signextend. operands Ha [|a [|b r]]. repeat istep. case_bool.
  - repeat istep. apply push_post; auto; [|rewrite Hs, !zlen_cons; lia].
    apply op_signextend_closed; [done|range_lia].
  - repeat istep. apply push_post; auto. rewrite Hs, !zlen_cons. lia.
Qed.

Lemma reader_read_ok n (Q : Z -> IS -> Prop) R : 1 <= n <= 32 ->
  (forall v, is_u256 v -> Q v (set_position (i_position i + n) i, e)) ->
  wp (reader_read n) Q R (i, e).
Proof.
  intros Hn HQ. unfold reader_read. destruct (ep_code _ _ _ _ _ _ Hp) as [Hcb Hcl].
  pose proof (ep_pos _ _ _ _ _ _ Hp) as Hpos.
  do 3 istep. eapply wp_expect.
  { unfold usize_add. by rewrite (proj2 (Z.ltb_lt _ _)) by range_lia. }
  do 5 istep. eapply wp_expect; [apply vec_slice_some; cbn; lia|]. cbn [i_code set_position].
  set (sl := take _ _). destruct (u256_from_slice_some sl) as (v & Hv & Hvu).
  - unfold sl. rewrite zlen_take; [lia|]. rewrite zlen_drop by lia. lia.
  - by apply Forall_take, Forall_drop.
  - eapply wp_expect; [exact Hv|]. auto.
Qed.

Lemma push_bytes_ok n : halts instr = false -> push_bytes instr = Some n -> 1 <= n <= 32 ->
  info_args inf = 0 -> info_ret inf = 1 -> wp (exec_push instr) post err (i, e).
Proof.
  intros Hh Hn Hr Ha Hret. unfold exec_push. rewrite Hn. istep. apply wp_ret. istep.
  apply reader_read_ok; [done|]. intros v Hv. repeat istep. split_and!; cbn [fst snd].
  - auto.
  - destruct (frame_stack i e left instr inf p (v :: i_stack i) Hp) as [];
      [constructor; [done|apply Hp]|]. split; cbn in *; try done. lia.
  - unfold stack_effect. cbn [i_stack set_stack set_position]. rewrite zlen_cons. lia.
  - done.
  - done.
Qed.

(** *** Memory instructions *)

Lemma mload_ok : instr = MLOAD -> info_args inf = 1 -> info_ret inf = 1 ->
  wp (do offset <- pop_back in do mem <- geti i_mem in
      do word <- expect (read mem offset) in push_ok word) post err (i, e).
Proof.
  intros Hi Ha Hr. assert (Hh : halts instr = false) by (by rewrite Hi).
  pose proof (ep_mem _ _ _ _ _ _ Hp) as Hm. operands Ha [|a r].
  assert (Hin : in_memory (i_mem i) a 32)
    by (apply (demand_in i e left instr inf p a 32 [(a, 32)]); [exact Hp|by rewrite Hi, Hs|by left]).
  do 5 istep. eapply wp_expect; [by apply read_in|]. repeat istep.
  apply push_post; auto; [|rewrite Hs, zlen_cons; lia].
  pose proof (be_value_bound (mem_bytes (i_mem i) a 32) (is_bytes_mem_bytes _ _ _ (proj1 Hm))) as Hbd.
  rewrite zlen_mem_bytes in Hbd by (done || range_lia). exact Hbd.
Qed.

Lemma mstore_ok f n : halts instr = false ->
  mem_demand instr (i_stack i) = [(arg (i_stack i) 0, n)] ->
  info_args inf = 2 -> info_ret inf = 0 ->
  (forall m off v, vec_ok m -> is_u256 off -> in_memory m off n ->
     exists m', f m off v = Some m' /\ zlen m' = zlen m /\ vec_ok m') ->
  wp (do offset <- pop_back in do word <- pop_back in
      with_mem (fun mem => f mem offset word) ;;; ret InstrOk) post err (i, e).
Proof.
  intros Hh Hd Ha Hr Hf. pose proof (ep_mem _ _ _ _ _ _ Hp) as Hm. operands Ha [|a [|b r]].
  assert (Hin : in_memory (i_mem i) a n)
    by (apply (demand_in i e left instr inf p a n [(a, n)]); [exact Hp|by rewrite Hs|by left]).
  destruct (Hf (i_mem i) a b) as (m' & Hm' & Hl & Hok); [done..|].
  do 5 istep. eapply wp_with_mem; [exact Hm'|]. istep.
  apply mem_post; auto. rewrite Hs, !zlen_cons. lia.
Qed.

Lemma sha3_ok : instr = SHA3 -> info_args inf = 2 -> info_ret inf = 1 ->
  wp (do offset <- pop_back in do size <- pop_back in do mem <- geti i_mem in
      do s <- expect (read_slice mem offset size) in push_ok (keccak s)) post err (i, e).
Proof.
  intros Hi Ha Hr. assert (Hh : halts instr = false) by (by rewrite Hi).
  pose proof (ep_mem _ _ _ _ _ _ Hp) as Hm. operands Ha [|a [|b r]].
  assert (Hin : in_memory (i_mem i) a b) by (apply (demand_in i e left instr inf p a b [(a, b)]); [exact Hp|by rewrite Hi, Hs|by left]).
  do 7 istep. eapply wp_expect; [by apply read_slice_in|]. repeat istep.
  apply push_post; auto. rewrite Hs, !zlen_cons. lia.
Qed.

Lemma return_ok apply : instr = RETURN \/ instr = REVERT -> info_args inf = 2 -> info_ret inf = 0 ->
  wp (do init_off <- pop_back in do init_size <- pop_back in
      ret (StopExecutionNeedsReturn left init_off init_size apply)) post err (i, e).
Proof.
  intros Hi Ha Hr. operands Ha [|a [|b r]].
  assert (Hin : in_memory (i_mem i) a b)
    by (apply (demand_in i e left instr inf p a b [(a, b)]);
        [exact Hp|destruct Hi as [-> | ->]; by rewrite Hs|by left]).
  repeat istep. apply stack_post; auto; [rewrite Hs, !zlen_cons; lia|by split_and!].
Qed.

Lemma u256_to_address_ok v : is_address (u256_to_address v).
Proof. unfold u256_to_address. apply Z.mod_pos_bound. done. Qed.

Lemma suicide_ok : info_args inf = 1 -> info_ret inf = 0 ->
  wp (do address <- pop_back in
      lift_ext (ext_suicide (u256_to_address address)) ;;; ret StopExecution) post err (i, e).
Proof.
  intros Ha Hr. operands Ha [|a r]. do 4 istep.
  eapply wp_method; [apply law_suicide, u256_to_address_ok|apply host_refl, Hp|intros _ e' _ He'|done].
  repeat istep. apply stack_post; auto; [rewrite Hs, zlen_cons; lia|done].
Qed.

Lemma pop_many_ok n st l (Q : list Z -> IS -> Prop) R :
  zlen st = Z.of_nat n -> Q st (set_stack l i, e) ->
  wp (pop_many n) Q R (set_stack (st ++ l) i, e).
Proof.
  revert st Q. induction n as [|n IH]; intros st Q Hlen HQ; cbn [pop_many].
  - destruct st; [done|]. rewrite zlen_cons in Hlen. pose proof (zlen_nonneg st). lia.
  - destruct st as [|x st]; [unfold zlen in Hlen; cbn in Hlen; lia|]. rewrite zlen_cons in Hlen.
    cbn [app]. do 3 istep. apply IH; [lia|]. by istep.
Qed.

Lemma log_ok n : halts instr = false -> log_topics instr = Some n -> 0 <= n <= 4 ->
  mem_demand instr (i_stack i) = [(arg (i_stack i) 0, arg (i_stack i) 1)] ->
  info_args inf = n + 2 -> info_ret inf = 0 -> wp (exec_log instr) post err (i, e).
Proof.
  intros Hh Hn Hn4 Hd Ha Hr. unfold exec_log. rewrite Hn. pose proof (ep_mem _ _ _ _ _ _ Hp) as Hm.
  pose proof (ep_args _ _ _ _ _ _ Hp) as Hargs. pose proof (ep_stack _ _ _ _ _ _ Hp) as Hst.
  destruct (i_stack i) as [|a [|b l]] eqn:Hs; [unfold zlen in Hargs; cbn in Hargs; lia..|].
  rewrite !zlen_cons in Hargs. split_words. rewrite (set_stack_eq i _ Hs).
  assert (Hin : in_memory (i_mem i) a b) by (apply (demand_in i e left instr inf p a b [(a, b)]); [exact Hp|by rewrite Hs|by left]).
  istep. apply wp_ret. do 5 istep. unfold pop_n. istep. apply wp_assert; [apply Z.leb_le; exact (proj2 Hn4)|].
  rewrite <- (take_drop (Z.to_nat n) l). apply pop_many_ok; [rewrite zlen_take; lia|].
  do 3 istep. eapply wp_expect; [by apply read_slice_in|]. do 2 istep.
  eapply wp_method; [apply law_log|apply host_refl, Hp|intros _ e' _ He'|done].
  repeat istep. apply stack_post; auto; [by apply Forall_drop|].
  rewrite zlen_drop, Hs, !zlen_cons by lia. lia.
Qed.

Lemma copy_ok source st (Q : unit -> IS -> Prop) R d s n e' :
  vec_ok source -> vec_ok (i_mem i) -> is_u256 d -> is_u256 s -> is_u256 n ->
  in_memory (i_mem i) d n ->
  (forall mem, vec_ok mem -> zlen mem = zlen (i_mem i) -> Q tt (set_mem mem (set_stack st i), e')) ->
  wp (copy_data_to_memory source) Q R (set_stack (d :: s :: n :: st) i, e').
Proof.
  intros Hsrc Hm Hd Hs Hn Hin HQ. unfold copy_data_to_memory.
  destruct (copy_to_memory_in (i_mem i) source d s n) as (mem & Hc & Hl & Hok & _); [done..|].
  do 6 istep. eapply wp_with_mem; [exact Hc|]. by apply HQ.
Qed.

Lemma datacopy_ok source : halts instr = false -> vec_ok source ->
  mem_demand instr (i_stack i) = [(arg (i_stack i) 0, arg (i_stack i) 2)] ->
  info_args inf = 3 -> info_ret inf = 0 ->
  wp (copy_data_to_memory source ;;; ret InstrOk) post err (i, e).
Proof.
  intros Hh Hsrc Hd Ha Hr. pose proof (ep_mem _ _ _ _ _ _ Hp) as Hm.
  operands Ha [|a [|b [|c r]]].
  assert (Hin : in_memory (i_mem i) a c)
    by (apply (demand_in i e left instr inf p a c [(a, c)]); [exact Hp|by rewrite Hs|by left]).
  istep. apply copy_ok; auto. intros mem Hok Hl. istep.
  apply mem_post; auto. rewrite Hs, !zlen_cons. lia.
Qed.

Lemma returndatacopy_ok : instr = RETURNDATACOPY -> info_args inf = 3 -> info_ret inf = 0 ->
  wp exec_returndatacopy post err (i, e).
Proof.
  intros Hi Ha Hr. assert (Hh : halts instr = false) by (by rewrite Hi).
  pose proof (ep_args _ _ _ _ _ _ Hp) as Hargs. unfold exec_returndatacopy.
  do 3 istep. apply wp_peek; [apply Hp|lia|intros so _ _].
  istep. apply wp_peek; [apply Hp|lia|intros sz _ _]. do 3 istep.
  apply wp_rd_deref; [apply Hp|]. intros Hb Hl Hlt. case_bool; [refine (conj I _); apply host_refl, Hp|].
  apply datacopy_ok; [done|split; [done|lia]|by rewrite Hi|done|done].
Qed.

Lemma extcodecopy_ok : instr = EXTCODECOPY -> info_args inf = 4 -> info_ret inf = 0 ->
  wp exec_extcodecopy post err (i, e).
Proof.
  intros Hi Ha Hr. assert (Hh : halts instr = false) by (by rewrite Hi).
  pose proof (ep_mem _ _ _ _ _ _ Hp) as Hm. unfold exec_extcodecopy.
  operands Ha [|x [|a [|b [|c r]]]].
  assert (Hin : in_memory (i_mem i) a c)
    by (apply (demand_in i e left instr inf p a c [(a, c)]); [exact Hp|by rewrite Hi, Hs|by left]).
  do 4 istep. eapply wp_method; [apply law_extcode|apply host_refl, Hp|intros code e' Hcode He'|done].
  istep. apply copy_ok; auto.
  { destruct code; [done|]. split; [constructor|done]. }
  intros mem Hok Hl. istep. split_and!; cbn [fst snd]; [done| | |done|done].
  - apply (mem_post i e left instr inf p mem r Hp Hh); auto. rewrite Hs, !zlen_cons. lia.
  - unfold stack_effect. cbn [i_stack set_mem set_stack]. rewrite Hs, !zlen_cons. lia.
Qed.

Lemma calldataload_ok : halts instr = false -> info_args inf = 1 -> info_ret inf = 1 ->
  wp exec_calldataload post err (i, e).
Proof.
  intros Hh Ha Hr. pose proof (po_data _ (ep_params _ _ _ _ _ _ Hp)) as Hdata.
  unfold exec_calldataload. operands Ha [|a r]. do 4 istep. cbn [i_params set_stack].
  assert (Hpush : forall v, is_u256 v ->
    wp (push v ;;; ret InstrOk) post err (set_stack r i, e)).
  { intros v Hv. repeat istep. apply push_post; auto. rewrite Hs, zlen_cons. lia. }
  assert (H0 : is_u256 0) by range_lia.
  destruct (ip_data (i_params i)) as [data|]; [|by apply Hpush]. cbn in Hdata.
  pose proof (vec_ok_lt _ Hdata). case_bool; [|by apply Hpush].
  apply andb_true_iff in Hb as [Hb1%Z.ltb_lt Hb2%Z.ltb_lt].
  rewrite low_u64_small in Hb1 by range_lia. rewrite low_u64_small by range_lia.
  set (bound := Z.min (zlen data) ((a + 32) mod U64_MOD)) in *.
  assert (Hbd : bound <= a + 32).
  { unfold bound. pose proof (Z.mod_le (a + 32) U64_MOD). range_lia. }
  assert (Hsl := vec_slice_some data a bound ltac:(range_lia) ltac:(lia) ltac:(lia)).
  istep. eapply wp_expect; [exact Hsl|].
  pose proof (vec_slice_len _ _ _ _ Hsl) as Hlen.
  pose proof (vec_slice_Forall is_u8 _ _ _ _ (proj1 Hdata) Hsl) as Hsb.
  assert (Hw := vec_write_some (replicate 32 0) _ 0 ltac:(lia)
    ltac:(rewrite Hlen; change (zlen (replicate 32 0)) with 32; lia)).
  istep. eapply wp_expect; [exact Hw|].
  pose proof (vec_write_len _ _ _ _ Hw) as Hlw.
  destruct (u256_from_slice_some _ ltac:(rewrite Hlw; done)
    ltac:(eapply vec_write_Forall; [|exact Hsb|exact Hw]; apply Forall_replicate; range_lia))
    as (v & Hv & Hvu).
  istep. eapply wp_expect; [exact Hv|]. by apply Hpush.
Qed.

Lemma returndatasize_ok : halts instr = false -> info_args inf = 0 -> info_ret inf = 1 ->
  wp (do rd <- geti i_return_data in do d <- rd_deref rd in push_ok (zlen d)) post err (i, e).
Proof.
  intros Hh Ha Hr. do 3 istep. apply wp_rd_deref; [apply Hp|]. intros Hb Hl Hlt.
  apply push_ok_ok; auto. pose proof (zlen_nonneg (rd_bytes (i_return_data i))). range_lia.
Qed.

(** *** Storage *)

Lemma sstore_ok : halts instr = false -> info_args inf = 2 -> info_ret inf = 0 ->
  wp exec_sstore post err (i, e).
Proof.
  intros Hh Ha Hr. unfold exec_sstore. operands Ha [|a [|b r]]. do 6 istep.
  eapply wp_method; [apply law_storage_at|apply host_refl, Hp|intros cur e1 Hcur He1|done].
  do 3 istep.
  eapply wp_mono with (Q := fun _ s => exists e2, s = (set_stack r i, e2) /\ host Inv e e2)
    (R := err); [| |done].
  - case_bool.
    + do 2 istep.
      eapply wp_method; [apply law_initial_storage_at|exact He1|intros orig e2 Ho He2|done].
      istep. eapply wp_method; [apply eip1283_refund_ok|exact He2|eauto|done].
    + case_bool; [|istep; eauto]. istep. apply wp_infallible.
      eapply wp_method; [apply law_add_sstore_refund|exact He1|eauto|done].
  - intros _ s (e2 & -> & He2). do 2 istep.
    eapply wp_method; [by apply law_set_storage|exact He2|intros _ e3 _ He3|done].
    istep. apply stack_post; auto. rewrite Hs, !zlen_cons. lia.
Qed.

(** *** Create and call *)


Lemma expect_cost_ok v (Q : Z -> IS (C := C) (E := E) -> Prop) R s : 0 <= v < cost_mod -> Q v s ->
  wp (expect_cost v) Q R s.
Proof.
  intros Hv HQ. unfold expect_cost. pose proof cost_mod_bounds.
  rewrite cl_from_u256 by range_lia. rewrite (proj2 (Z.ltb_lt _ _)) by lia. by apply wp_ret.
Qed.

Lemma frame_rd st rd ror :
  Forall is_u256 st -> return_data_ok rd ->
  frame i (set_resume_output_range ror (set_stack st (set_return_data rd i))).
Proof.
  intros Hst Hrd. destruct (frame_stack i e left instr inf p st Hp Hst) as [].
  split; cbn in *; done.
Qed.

Lemma return_data_empty_ok : return_data_ok ReturnData_empty.
Proof. repeat split; [constructor|done..]. Qed.

(** The result of a finished call or create: a flag or address on the stack, the unused
    gas within the allowance. *)
Lemma finished_post i' e' v r : passes_gas instr = true -> info_ret inf = 1 ->
  host Inv e e' -> frame i i' -> i_stack i' = v :: r ->
  zlen r = zlen (i_stack i) - info_args inf ->
  post InstrOk (i', e') /\
  forall g, 0 <= g <= allowance (ext_schedule e) instr (i_stack i) p -> post (UnusedGas g) (i', e').
Proof.
  intros Hpass Hr He Hf Hst Hlen. pose proof (passes_gas_continues _ Hpass).
  assert (zlen (i_stack i') = zlen (i_stack i) - info_args inf + info_ret inf)
    by (rewrite Hst, zlen_cons; lia).
  split; [|intros g Hg]; by split_and!.
Qed.

Lemma trap_post i' e' t : passes_gas instr = true -> info_ret inf = 1 ->
  host Inv e e' -> frame i i' -> zlen (i_stack i') = zlen (i_stack i) - info_args inf ->
  trap_ok (allowance (ext_schedule e) instr (i_stack i) p) i' t -> trap_ready e' t ->
  post (InstrTrap t) (i', e').
Proof.
  intros Hpass Hr He Hf Hlen Ht Htr. pose proof (passes_gas_continues _ Hpass).
  split_and!; try done. by intros t' [= <-].
Qed.

(** A frame, from the well-formedness of the parts that changed. *)
Lemma frame_set i' :
  i_code i' = i_code i -> i_params i' = i_params i -> i_gasometer i' = i_gasometer i ->
  i_cache i' = i_cache i -> i_valid_jump_destinations i' = i_valid_jump_destinations i ->
  i_done i' = i_done i -> i_do_trace i' = i_do_trace i -> i_resume_result i' = i_resume_result i ->
  i_last_stack_ret_len i' = i_last_stack_ret_len i -> i_position i' = i_position i ->
  vec_ok (i_mem i') -> zlen (i_mem i') = zlen (i_mem i) -> return_data_ok (i_return_data i') ->
  Forall is_u256 (i_stack i') -> frame i i'.
Proof. intros. split; try done. lia. Qed.

Ltac solve_frame :=
  apply frame_set; try reflexivity; cbn [i_mem i_return_data i_stack set_mem set_return_data
    set_stack set_resume_output_range]; auto using return_data_empty_ok, Forall_cons_2.

Lemma create_ok : instr = CREATE /\ info_args inf = 3 \/ instr = CREATE2 /\ info_args inf = 4 ->
  info_ret inf = 1 -> wp (exec_create instr p) post err (i, e).
Proof.
  intros Hi Hr. assert (Hpass : passes_gas instr = true) by (by destruct Hi as [[-> _]|[-> _]]).
  destruct (ep_provided _ _ _ _ _ _ Hp Hpass) as (q & Hq & Hq0 & Hqb).
  pose proof (ep_mem _ _ _ _ _ _ Hp) as Hm. pose proof (ep_args _ _ _ _ _ _ Hp) as Hargs.
  pose proof (ep_stack _ _ _ _ _ _ Hp) as Hst. unfold exec_create.
  destruct (i_stack i) as [|endow [|off [|size st]]] eqn:Hs;
    [unfold zlen in Hargs; cbn in Hargs; lia..|]. rewrite !zlen_cons in Hargs. split_words.
  rewrite <- Hs in Hqb. rewrite (set_stack_eq i _ Hs).
  assert (Hin : in_memory (i_mem i) off size)
    by (apply (demand_in i e left instr inf p off size [(off, size)]);
        [exact Hp|destruct Hi as [[-> _]|[-> _]]; by rewrite Hs|by left]).
  do 7 istep.
  apply wp_mono with (Q := fun _ s => exists r, s = (set_stack r i, e) /\ Forall is_u256 r /\
    zlen r = zlen (i_stack i) - info_args inf) (R := err); [| |done].
  { destruct Hi as [[-> Ha]|[-> Ha]].
    - istep. exists st. rewrite Hs, !zlen_cons. split_and!; [done|done|lia].
    - destruct st as [|salt st]; [unfold zlen in Hargs; cbn in Hargs; lia|]. split_words. repeat istep.
      exists st. rewrite Hs, !zlen_cons. split_and!; [done|done|lia]. }
  intros scheme s (r & -> & Hrs & Hlen). rewrite Hq. istep. apply wp_ret.
  do 2 istep. destruct (ext_is_static e); [refine (conj I _); apply host_refl, Hp|]. do 6 istep.
  eapply wp_method_and; [apply law_balance|apply law_affords, Hp|apply host_refl, Hp|intros bal e1 Hbal Haff He1|done].
  pose proof (schedule_wf_ok _ (law_schedule e (ep_host _ _ _ _ _ _ Hp))) as Hsch.
  pose proof (stipend_nonneg (ext_schedule e) instr (i_stack i) Hsch) as Hnn.
  assert (Hall : allowance (ext_schedule e) instr (i_stack i) p
                 = q + stipend_of (ext_schedule e) instr (i_stack i)) by (by rewrite Hq).
  assert (Hz : is_u256 0) by range_lia. pose proof cost_mod_bounds.
  do 4 istep. case_bool.
  { repeat istep. apply (finished_post _ _ 0 r); auto; [solve_frame|rewrite Hall; lia]. }
  apply negb_false_iff, andb_true_iff in Hb as [Hle%Z.leb_le _].
  do 3 istep. eapply wp_expect; [by apply read_slice_in|]. do 2 istep. apply wp_infallible.
  assert (Hqu : as_u256 q = q) by (apply cl_as_u256; unfold cost_ok; lia). rewrite Hqu.
  eapply wp_method_and; [apply law_create; range_lia| |exact He1|intros res e2 Hres Htr He2|done].
  { apply law_create_ready; [apply He1|range_lia|done|by apply mem_bytes_ok|].
    eapply law_affords_less; [|exact Hle]. cbn in Haff. by rewrite (ep_self _ _ _ _ _ _ Hp) in Haff. }
  destruct res as [[addr gl| |gl d]|[|prm addr]]; [| | |done|].
  - destruct Hres as [Haddr Hgl]. do 3 istep. apply expect_cost_ok; [lia|]. istep.
    apply (finished_post _ _ addr r); auto; [|rewrite Hall; lia]. solve_frame. constructor; [|done]. by apply is_address_u256.
  - repeat istep. apply (finished_post _ _ 0 r); auto. solve_frame.
  - destruct Hres as [Hgl Hd]. do 5 istep. apply expect_cost_ok; [lia|]. istep.
    apply (finished_post _ _ 0 r); auto; [|rewrite Hall; lia]. solve_frame.
  - istep. apply trap_post; auto; [solve_frame|]. cbn in *. rewrite Hall. lia.
Qed.


Lemma copy_output_in mem off size data :
  vec_ok mem -> is_u256 off -> is_u256 size -> in_memory mem off size -> is_bytes data ->
  exists mem', copy_output mem off size data = Some mem' /\ zlen mem' = zlen mem /\ vec_ok mem'.
Proof.
  intros Hm Ho Hs Hin Hd. unfold copy_output.
  destruct (writeable_slice_in mem off size Hm Ho Hs Hin) as (o & -> & _ & Ho0 & Hle).
  cbn [mbind option_bind]. pose proof (zlen_nonneg data).
  assert (Hl : zlen (take (Z.to_nat (Z.min size (zlen data))) data) = Z.min size (zlen data))
    by (apply zlen_take; range_lia).
  assert (Hw := vec_write_some mem (take (Z.to_nat (Z.min size (zlen data))) data) o Ho0 ltac:(lia)).
  eexists; split; [exact Hw|]. split; [by eapply vec_write_len|]. destruct Hm as [Hmb Hml].
  split; [|by erewrite vec_write_len].
  eapply vec_write_Forall; [exact Hmb| |exact Hw]. by apply Forall_take.
Qed.

(** The state of a call after its operands are popped and the sub-call returned. *)
Lemma finish_call_ok i1 e1 out_off out_size data flag gl r :
  passes_gas instr = true -> info_ret inf = 1 -> host Inv e e1 -> frame i i1 ->
  i_stack i1 = r -> i_mem i1 = i_mem i ->
  zlen r = zlen (i_stack i) - info_args inf ->
  is_u256 out_off -> is_u256 out_size -> in_memory (i_mem i) out_off out_size ->
  return_data_ok data -> is_u256 flag ->
  0 <= gl <= allowance (ext_schedule e) instr (i_stack i) p ->
  allowance (ext_schedule e) instr (i_stack i) p < cost_mod ->
  wp (finish_call out_off out_size data flag gl) post err (i1, e1).
Proof.
  intros Hpass Hr He1 Hf Hst Hmem Hlen Ho Hn Hin Hd Hfl Hgl Hall. unfold finish_call. istep.
  apply wp_rd_deref; [done|]. intros Hb Hbl Hlt. istep.
  pose proof (ep_mem _ _ _ _ _ _ Hp) as Hm.
  destruct (copy_output_in (i_mem i1) out_off out_size (rd_bytes data)) as (mem' & Hc & Hl & Hok);
    [rewrite ?Hmem; done..|].
  eapply wp_with_mem; [exact Hc|]. do 5 istep. apply expect_cost_ok; [lia|]. istep.
  apply (finished_post _ _ flag r); auto; [|by rewrite <- Hst].
  destruct Hf. split; cbn [i_code i_params i_gasometer i_cache i_valid_jump_destinations i_done
    i_do_trace i_resume_result i_last_stack_ret_len i_position i_mem i_return_data i_stack
    set_mem set_return_data set_stack]; auto. by rewrite Hl.
Qed.

Lemma call_addresses_ok st code_address value (Q : Z * Z * bool * CallType -> IS -> Prop) :
  passes_gas instr = true -> instr <> CREATE -> instr <> CREATE2 ->
  (instr <> DELEGATECALL -> is_Some value) -> (instr = DELEGATECALL -> value = None) ->
  (instr = STATICCALL -> value = Some 0) -> is_address code_address ->
  (forall sa ra hb ct e1, host Inv e e1 -> is_address sa -> is_address ra ->
     (hb = true -> forall x, value = Some x -> affords e1 sa x) ->
     Q (sa, ra, hb, ct) (set_stack st i, e1)) ->
  wp (call_addresses instr code_address value) Q err (set_stack st i, e).
Proof.
  intros Hpass Hc1 Hc2 Hv Hvd Hvs Hca HQ. unfold call_addresses. do 4 istep.
  destruct (ep_params _ _ _ _ _ _ Hp) as [Hpa Hps _ _ _ _]. pose proof (ep_host _ _ _ _ _ _ Hp) as Hi.
  assert (Haff : forall v e1 bal, affords e1 (ip_address (i_params i)) bal -> (v <=? bal) = true ->
    forall x, Some v = Some x -> affords e1 (ip_address (i_params i)) x).
  { intros v e1 bal Ha Hle x [= <-]. eapply law_affords_less; [exact Ha|]. by apply Z.leb_le. }
  destruct instr; try done; repeat istep.
  - case_bool; [refine (conj I _); apply host_refl, Hp|]. destruct Hv as [v ->]; [done|]. do 2 istep.
    eapply wp_method_and; [apply law_balance|by apply law_affords|apply host_refl, Hp|intros bal e1 Hbal Ha He1|done].
    istep. apply wp_ret. istep. apply HQ; auto. exact (Haff v e1 bal Ha).
  - destruct Hv as [v ->]; [done|].
    eapply wp_method_and; [apply law_balance|by apply law_affords|apply host_refl, Hp|intros bal e1 Hbal Ha He1|done].
    istep. apply wp_ret. istep. apply HQ; auto. exact (Haff v e1 bal Ha).
  - apply HQ; auto. intros _ x Hx. by rewrite Hvd in Hx.
  - apply HQ; auto. intros _ x Hx. rewrite Hvs in Hx by done. injection Hx as <-. by apply law_affords_zero.
Qed.

(** The operands of a call after the gas and the address. *)
Record call_args (value : option Z) (in_off in_size out_off out_size : Z) (r : list Z) : Prop := {
  ca_words : is_u256 in_off /\ is_u256 in_size /\ is_u256 out_off /\ is_u256 out_size;
  ca_rest : Forall is_u256 r;
  ca_len : zlen r = zlen (i_stack i) - info_args inf;
  ca_in : in_memory (i_mem i) in_off in_size;
  ca_out : in_memory (i_mem i) out_off out_size;
  ca_value : instr <> DELEGATECALL -> is_Some value;
  ca_none : instr = DELEGATECALL -> value = None;
  ca_zero : instr = STATICCALL -> value = Some 0;
  ca_u256 : opt_ok is_u256 value;
  ca_stipend : match value with
               | None => 0
               | Some val => if val =? 0 then 0 else call_stipend (ext_schedule e)
               end = stipend_of (ext_schedule e) instr (i_stack i);
}.

Definition is_call : Prop :=
  (instr = CALL \/ instr = CALLCODE) /\ info_args inf = 7 \/
  (instr = DELEGATECALL \/ instr = STATICCALL) /\ info_args inf = 6.

Lemma call_value_ok gas addr st (Q : option Z -> IS -> Prop) : is_call ->
  i_stack i = gas :: addr :: st ->
  (forall value io isz oo os r, call_args value io isz oo os r ->
     Q value (set_stack (io :: isz :: oo :: os :: r) i, e)) ->
  wp (call_value instr) Q err (set_stack st i, e).
Proof.
  intros Hc Hs HQ. pose proof (ep_args _ _ _ _ _ _ Hp) as Hargs.
  pose proof (ep_stack _ _ _ _ _ _ Hp) as Hst. rewrite Hs in Hargs, Hst.
  rewrite !zlen_cons in Hargs. split_words. unfold call_value.
  assert (Hdem : forall o n l, mem_demand instr (i_stack i) = l -> (o, n) ∈ l -> in_memory (i_mem i) o n)
    by (intros; by eapply demand_in).
  rewrite Hs in Hdem. destruct Hc as [[Hi Ha]|[Hi Ha]].
  - destruct st as [|v [|io [|isz [|oo [|os r]]]]]; [unfold zlen in Hargs; cbn in Hargs; lia..|].
    split_words.
    assert (Hd : mem_demand instr (gas :: addr :: v :: io :: isz :: oo :: os :: r) = [(io, isz); (oo, os)])
      by (by destruct Hi as [-> | ->]).
    assert (Hw : wp (do w <- pop_back in ret (Some w)) Q err
                    (set_stack (v :: io :: isz :: oo :: os :: r) i, e)).
    { repeat istep. apply HQ. split; [done|done|rewrite Hs, !zlen_cons; lia| | |eauto|..].
      - apply (Hdem _ _ _ Hd). by left.
      - apply (Hdem _ _ _ Hd). by right; left.
      - by destruct Hi as [-> | ->].
      - by destruct Hi as [-> | ->].
      - done.
      - rewrite Hs. by destruct Hi as [-> | ->]. }
    by destruct Hi as [-> | ->].
  - destruct st as [|io [|isz [|oo [|os r]]]]; [unfold zlen in Hargs; cbn in Hargs; lia..|].
    split_words.
    assert (Hd : mem_demand instr (gas :: addr :: io :: isz :: oo :: os :: r) = [(io, isz); (oo, os)])
      by (by destruct Hi as [-> | ->]).
    assert (Hw : forall value, (instr = DELEGATECALL /\ value = None \/ instr = STATICCALL /\ value = Some 0) ->
      Q value (set_stack (io :: isz :: oo :: os :: r) i, e)).
    { intros value Hv. apply HQ. split; [done|done|rewrite Hs, !zlen_cons; lia| | |..].
      - apply (Hdem _ _ _ Hd). by left.
      - apply (Hdem _ _ _ Hd). by right; left.
      - destruct Hv as [[-> ->]|[-> ->]]; [done|eauto].
      - by destruct Hv as [[-> ->]|[-> ->]].
      - by destruct Hv as [[-> ->]|[-> ->]].
      - destruct Hv as [[-> ->]|[-> ->]]; cbn; [done|range_lia].
      - rewrite Hs. by destruct Hv as [[-> ->]|[-> ->]]. }
    destruct Hi as [-> | ->]; istep; apply Hw; eauto.
Qed.

Lemma call_ok : is_call -> info_ret inf = 1 -> wp (exec_call instr p) post err (i, e).
Proof.
  intros Hc Hr.
  assert (Hpass : passes_gas instr = true) by (by destruct Hc as [[[-> | ->] _]|[[-> | ->] _]]).
  destruct (ep_provided _ _ _ _ _ _ Hp Hpass) as (q & Hq & Hq0 & Hqb).
  pose proof (ep_mem _ _ _ _ _ _ Hp) as Hm. pose proof (ep_host _ _ _ _ _ _ Hp) as Hinv.
  pose proof (schedule_wf_ok _ (law_schedule e Hinv)) as Hsch.
  pose proof (stipend_nonneg (ext_schedule e) instr (i_stack i) Hsch) as Hnn.
  pose proof cost_mod_bounds as Hcm.
  assert (Hst2 : exists gas addr st, i_stack i = gas :: addr :: st).
  { pose proof (ep_args _ _ _ _ _ _ Hp) as Hargs.
    destruct (i_stack i) as [|gas [|addr st]]; [..|eauto];
      unfold zlen in Hargs; cbn in Hargs; destruct Hc as [[_ Ha]|[_ Ha]]; lia. }
  destruct Hst2 as (gas & addr & st & Hs). unfold exec_call. rewrite (set_stack_eq i _ Hs).
  do 3 istep. apply wp_assert; [apply Z.ltb_lt, Hsch|]. do 3 istep. rewrite Hq. apply wp_ret.
  do 3 istep. apply (call_value_ok gas addr st); [done|done|].
  intros value io isz oo os r [(Hio & His & Hoo & Hos) Hrs Hlen Hin Hout Hv Hvn Hvz Hvu Hstip].
  do 9 istep. rewrite Hstip.
  set (bound := allowance (ext_schedule e) instr (i_stack i) p).
  assert (Hbound : bound = q + stipend_of (ext_schedule e) instr (i_stack i))
    by (unfold bound, allowance; by rewrite Hq).
  assert (Hov : fst (overflow_add q (stipend_of (ext_schedule e) instr (i_stack i))) = bound).
  { rewrite cl_overflow_add by (unfold cost_ok; lia). cbn [fst]. rewrite Z.mod_small by lia. done. }
  rewrite Hov. apply call_addresses_ok; [done|..].
  1-2: destruct Hc as [[[-> | ->] _]|[[-> | ->] _]]; done.
  1-3: done.
  { apply u256_to_address_ok. }
  intros sa ra hb ct e1 He1 Hsa Hra Haff. do 4 istep. assert (Hz : is_u256 0) by range_lia. case_bool.
  { repeat istep. apply (finished_post _ _ 0 r); auto; [solve_frame|lia]. }
  apply negb_false_iff, andb_true_iff in Hb as [Hhb _].
  do 3 istep. eapply wp_expect; [by apply read_slice_in|]. do 2 istep. apply wp_infallible.
  assert (Hbu : as_u256 bound = bound) by (apply cl_as_u256; unfold cost_ok; lia). rewrite Hbu.
  eapply wp_method_and; [apply law_call; range_lia| |exact He1|intros res e2 Hres Htr He2|done].
  { apply law_call_ready; [apply He1|range_lia| |auto].
    split_and!; [done|done|done|by apply mem_bytes_ok|apply u256_to_address_ok]. }
  do 2 istep. destruct res as [[gl d| |gl d]|[prm|prm addr']]; [..|done].
  - destruct Hres. apply (finish_call_ok _ _ _ _ _ _ _ r); auto; [solve_frame|range_lia|lia].
  - repeat istep. apply (finished_post _ _ 0 r); auto. solve_frame.
  - destruct Hres. apply (finish_call_ok _ _ _ _ _ _ _ r); auto; [solve_frame|lia].
  - istep. apply trap_post; auto; [solve_frame|]. cbn in *. rewrite Hres.
    split; [fold bound; lia|exists oo, os; by split_and!].
Qed.

(** *** Control flow *)

Lemma jump_ok : halts instr = false -> info_args inf = 1 -> info_ret inf = 0 ->
  wp (do jump <- pop_back in ret (JumpToPosition jump)) post err (i, e).
Proof.
  intros Hh Ha Hr. operands Ha [|a r]. repeat istep.
  apply stack_post; auto; [rewrite Hs, zlen_cons; lia|done].
Qed.

Lemma jumpi_ok : halts instr = false -> info_args inf = 2 -> info_ret inf = 0 ->
  wp (do jump <- pop_back in do condition <- pop_back in
      if negb (condition =? 0) then ret (JumpToPosition jump) else ret InstrOk) post err (i, e).
Proof.
  intros Hh Ha Hr. operands Ha [|a [|b r]]. do 4 istep.
  destruct (negb (b =? 0)); istep; apply stack_post; auto; try done; rewrite Hs, !zlen_cons; lia.
Qed.

Lemma nop_ok r : info_args inf = info_ret inf -> r = InstrOk /\ halts instr = false \/ r = StopExecution ->
  wp (ret r) post err (i, e).
Proof.
  intros Ha Hr. istep. rewrite (set_stack_eq i _ eq_refl) at 1.
  apply stack_post; auto; [apply Hp|lia|..]; destruct Hr as [[-> ?]| ->]; done.
Qed.

End Exec.

Section Instructions.
Context {C : Type} {DC : DestCache C} {Cost : CostType} {CL : CostLaws Cost}.
Context {K : Keccak} (HK : forall b, is_u256 (keccak b)).
Context {E : Type} {X : Ext E} (Inv : E -> Prop).
Context {me : Z} {affords : E -> Z -> Z -> Prop} {trap_ready : E -> TrapKind -> Prop}.
Context {EL : ExtLaws me Inv affords trap_ready}.

Lemma method_default (m : M E vm_error (option Z)) (P : Z -> Prop) :
  method_ok Inv (opt_ok P) m -> (forall v, P v -> is_u256 v) ->
  method_ok Inv is_u256 (do v <- m in ret (default 0 v)).
Proof.
  intros Hm HP e He. wp_bind. eapply wp_mono; [exact (Hm e He)| |done].
  intros v e' (Hv & Hi' & He'). apply wp_ret. split_and!; [|done|done].
  destruct v as [v|]; cbn in *; [auto|range_lia].
Qed.

Lemma method_infallible (m : M E Empty_set Z) :
  method_ok Inv is_u256 m -> method_ok Inv is_u256 (infallible m : M E vm_error Z).
Proof.
  intros Hm e He. apply wp_infallible. eapply wp_mono; [exact (Hm e He)|done|done].
Qed.

(** Every instruction is safe from a state that satisfies its preconditions. *)
Lemma exec_instruction_ok (i : Interp C) (e : E) left instr inf p :
  exec_pre Inv (me := me) i e left instr inf p ->
  wp (exec_instruction left instr p) (exec_post Inv (trap_ready := trap_ready) i e left instr inf p) (exec_err Inv e) (i, e).
Proof.
  intros Hp. pose proof (ep_info _ _ _ _ _ _ _ Hp) as Hinf.
  pose proof (ep_params _ _ _ _ _ _ _ Hp) as Hpar.
  pose proof (law_env_info e (ep_host _ _ _ _ _ _ _ Hp)) as Henv.
  destruct instr; vm_compute in Hinf; injection Hinf as <-; cbn [exec_instruction];
    try (eapply unop_ok; [exact Hp|reflexivity..|auto with origo]);
    try (eapply binop_ok; [exact Hp|reflexivity..|auto with origo]);
    try (eapply ternop_ok; [exact Hp|reflexivity..|auto with origo]);
    try (eapply push_bytes_ok; [exact Hp|reflexivity|reflexivity|cbn; lia|reflexivity..]);
    try (eapply dup_ok; [exact Hp|reflexivity|reflexivity|reflexivity|reflexivity|cbn; lia]);
    try (eapply swap_ok; [exact Hp|reflexivity|reflexivity|reflexivity|reflexivity|cbn; lia]);
    try (eapply (log_ok Inv); [exact Hp|reflexivity|reflexivity|cbn; lia|reflexivity..]);
    try (eapply nop_ok; [exact Hp|reflexivity|tauto]);
    try (eapply (call_ok Inv); [exact Hp|unfold is_call; tauto|reflexivity]);
    try (eapply (create_ok Inv); [exact Hp|tauto|reflexivity]);
    try (eapply (return_ok Inv); [exact Hp|tauto|reflexivity..]);
    try (istep; istep; eapply push_ok_ok; [exact Hp|reflexivity..|]; apply is_address_u256, Hpar);
    try (istep; istep; eapply push_ok_ok; [exact Hp|reflexivity..|]; apply Hpar);
    try (istep; istep; eapply push_ok_ok; [exact Hp|reflexivity..|]; destruct Henv as (? & ? & ? & ? & ?);
         solve [done|range_lia]);
    try (eapply (query_ok Inv); [exact Hp|reflexivity..|intros a Ha];
         first [ apply law_storage_at | apply law_balance | apply method_infallible, law_blockhash, Ha
               | eapply method_default; [apply law_extcodesize|range_lia]
               | eapply method_default; [apply law_extcodehash|done] ]).
  - by eapply signextend_ok.
  - by eapply sha3_ok.
  - by eapply calldataload_ok.
  - istep. istep. eapply push_ok_ok; [exact Hp|done..|]. destruct Hpar as [_ _ _ _ _ Hd].
    destruct (ip_data (i_params i)) as [l|]; cbn in Hd; [|range_lia].
    pose proof (vec_ok_lt _ Hd). range_lia.
  - istep. istep. eapply datacopy_ok; [exact Hp|done| |done..]. destruct Hpar as [_ _ _ _ _ Hd].
    destruct (ip_data (i_params i)) as [l|]; [exact Hd|]. split; [constructor|done].
  - istep. istep. eapply push_ok_ok; [exact Hp|done..|].
    pose proof (vec_ok_lt _ (ep_code _ _ _ _ _ _ _ Hp)). range_lia.
  - istep. istep. eapply datacopy_ok; [exact Hp|done|apply Hp|done..].
  - by eapply (extcodecopy_ok Inv).
  - by eapply returndatasize_ok.
  - by eapply (returndatacopy_ok Inv).
  - istep. istep. eapply push_ok_ok; [exact Hp|done..|]. apply is_address_u256, Henv.
  - by eapply pop_ok.
  - by eapply mload_ok.
  - eapply (mstore_ok Inv); [exact Hp|done..|]. intros m off v Hm Ho Hin.
    destruct (write_in m off v Hm Ho Hin) as (m' & ? & ? & ? & _). eauto.
  - eapply (mstore_ok Inv); [exact Hp|done..|]. intros m off v Hm Ho Hin.
    destruct (write_byte_in m off v Hm Ho Hin) as (m' & ? & ? & ? & _). eauto.
  - by eapply (sstore_ok Inv).
  - by eapply jump_ok.
  - by eapply jumpi_ok.
  - pose proof (ep_pos _ _ _ _ _ _ _ Hp) as Hpos.
    pose proof (vec_ok_lt _ (ep_code _ _ _ _ _ _ _ Hp)).
    do 3 istep. eapply wp_expect.
    { unfold usize_sub. by rewrite (proj2 (Z.leb_le _ _)) by lia. }
    eapply push_ok_ok; [exact Hp|done..|]. range_lia.
  - istep. istep. eapply push_ok_ok; [exact Hp|done..|].
    pose proof (vec_ok_lt _ (ep_mem _ _ _ _ _ _ _ Hp)). unfold mem_size. range_lia.
  - eapply push_ok_ok; [exact Hp|done..|].
    pose proof (ep_left _ _ _ _ _ _ _ Hp) as Hl. rewrite cl_as_u256 by done.
    unfold cost_ok in Hl. pose proof cost_mod_bounds. range_lia.
  - by eapply (suicide_ok Inv).
Qed.

End Instructions.
