(* ===== verification/InterpreterStep.v ===== *)
(** * Steps and executions

    The invariant of the interpreter across [step], the absence of panics in any
    execution, its termination within the gas provided, and the resumption after a
    sub-call. The interpreter runs with the 64-bit cost type, the one the factory selects
    whenever the gas fits. *)

From S2P Require Import Prelude Schedule Instructions Vm CostType Gasometer Memory JumpTable Word Interpreter CopyData InterpreterSafety.
From stdpp Require Import base numbers option strings list.

Open Scope Z_scope.
Open Scope origo_scope.

Section Step.
Context {C : Type} {DC : DestCache C} {Cost : CostType} {CL : CostLaws Cost}.
Context (H64 : cost_mod = U64_MOD).
Context {K : Keccak} (HK : forall b, is_u256 (keccak b)).
Context (cache_ok : C -> Prop) (stored : C -> Z -> list Z -> Prop).
Context {CDL : DestCacheLaws C cache_ok stored}.
Context {E : Type} {X : Ext E} (Inv : E -> Prop).
Context {me : Z} {affords : E -> Z -> Z -> Prop} {trap_ready : E -> TrapKind -> Prop}.
Context {EL : ExtLaws me Inv affords trap_ready}.
Implicit Types (i : Interp C) (e : E).

(** The parts of the state that are well formed between any two statements. *)
Record base_ok (i : Interp C) (e : E) (g : Gasometer) : Prop := {
  bo_host : Inv e;
  bo_cache : cache_ok (i_cache i);
  bo_code : vec_ok (i_code i);
  bo_params : params_ok (i_params i);
  bo_mem : is_bytes (i_mem i);
  bo_rd : return_data_ok (i_return_data i);
  bo_pos : 0 <= i_position i < U64_MOD;
  bo_stack : Forall is_u256 (i_stack i);
  bo_gasometer : i_gasometer i = Some g;
  bo_gas : gasometer_ok (ext_schedule e) g (zlen (i_mem i));
  bo_ret_len : 0 <= i_last_stack_ret_len i;
  bo_self : ip_address (i_params i) = me;
}.

Definition limit e : Z := stack_limit (ext_schedule e).

Lemma base_mem i e g : base_ok i e g -> vec_ok (i_mem i).
Proof. intros [? ? ? ? Hm ? ? ? ? [? ? ? Hl ?] ? ?]. split; [done|lia]. Qed.

(** What is left to spend: the gas, and the gas a finished sub-call gives back. *)
Definition unused (r : InstructionResult) : Z := match r with UnusedGas u => u | _ => 0 end.

(** The state after an instruction, before the bookkeeping that follows it. *)
Definition after (i : Interp C) (e : E) (g : Gasometer) (r : InstructionResult) (s : IS) : Prop :=
  let i' := fst s in let e' := snd s in
  exists g', host Inv e e' /\ base_ok i' e' g' /\ i_resume_result i' = None /\
    i_code i' = i_code i /\ i_done i' = i_done i /\
    match r with
    | InstrTrap t =>
        zlen (i_stack i') + 1 <= limit e /\ i_last_stack_ret_len i' <= 1 /\ trap_ready e' t /\
        exists bound, trap_ok bound i' t /\ current_gas g' + bound <= current_gas g /\
          (progress_ok (ext_schedule e) -> current_gas g' + bound < current_gas g)
    | _ =>
        zlen (i_stack i') <= limit e /\ i_last_stack_ret_len i' <= zlen (i_stack i') /\
        0 <= unused r /\ current_gas g' + unused r <= current_gas g /\
        match r with
        | JumpToPosition p => is_u256 p
        | StopExecutionNeedsReturn gl o n _ =>
            gl = current_gas g' /\ is_u256 o /\ is_u256 n /\ in_memory (i_mem i') o n
        | _ => True
        end /\
        match r with
        | InstrOk | UnusedGas _ | JumpToPosition _ =>
            progress_ok (ext_schedule e) -> current_gas g' + unused r < current_gas g
        | _ => True
        end
    end.

Definition host_err (e : E) (er : vm_error) (s : IS (C := C)) : Prop := proper er /\ host Inv e (snd s).

Lemma host_refl' e : Inv e -> host Inv e e.
Proof. done. Qed.

Lemma host_trans e1 e2 e3 : host Inv e1 e2 -> host Inv e2 e3 -> host Inv e1 e3.
Proof. intros [_ H1] [H2 H3]. split; [done|]. by eapply same_env_trans. Qed.

Lemma mem_written_ok instr inf i e (Q : option (Z * Z) -> IS -> Prop) (R : vm_error -> IS -> Prop) :
  info_slot instr = Some inf -> info_args inf <= zlen (i_stack i) -> Forall is_u256 (i_stack i) ->
  (forall r, Q r (i, e)) -> wp (mem_written instr (i_stack i)) Q R (i, e).
Proof.
  intros Hinf Hargs Hst HQ. unfold mem_written.
  assert (Hread : forall n (Q' : Z -> IS -> Prop), 0 <= n < zlen (i_stack i) ->
    (forall v, Q' v (i, e)) ->
    wp (do v <- peek (i_stack i) n in ret (low_u64 v)) Q' R (i, e)).
  { intros n Q' Hn HQ'. wp_bind. apply wp_peek; [done|done|intros]. by apply wp_ret. }
  destruct instr; vm_compute in Hinf; injection Hinf as <-; cbn [info_args] in Hargs;
    repeat first [apply Hread; [lia|intros]|wp_bind|apply wp_ret; auto].
Qed.

Lemma store_written_ok instr inf i e (Q : option (Z * Z) -> IS -> Prop) (R : vm_error -> IS -> Prop) :
  info_slot instr = Some inf -> info_args inf <= zlen (i_stack i) -> Forall is_u256 (i_stack i) ->
  (forall r, Q r (i, e)) -> wp (store_written instr (i_stack i)) Q R (i, e).
Proof.
  intros Hinf Hargs Hst HQ. unfold store_written.
  destruct instr; try (by apply wp_ret). vm_compute in Hinf. injection Hinf as <-.
  cbn [info_args] in Hargs.
  repeat first [wp_bind|apply wp_peek; [done|lia|intros]|apply wp_ret; auto].
Qed.

(** The stack checks: what the instruction needs is there, what it leaves fits. *)
Lemma verify_instruction_ok instr inf i e (Q : unit -> IS -> Prop) R :
  info_slot instr = Some inf -> zlen (i_stack i) <= limit e -> small (limit e) ->
  (info_args inf <= zlen (i_stack i) ->
   zlen (i_stack i) - info_args inf + info_ret inf <= limit e -> Q tt (i, e)) ->
  (forall er, proper er -> R er (i, e)) -> wp (verify_instruction instr inf) Q R (i, e).
Proof.
  intros Hinf Hlen Hlim HQ HR. unfold verify_instruction.
  destruct (info_slot_total instr) as (inf' & Hinf' & Ha & Hret).
  rewrite Hinf in Hinf'. injection Hinf' as <-. unfold small in Hlim.
  pose proof (zlen_nonneg (i_stack i)). do 2 istep. case_bool; [apply wp_throw; by apply HR|]. do 2 istep.
  destruct (Z.leb_spec (info_args inf) (zlen (i_stack i))); cbn [negb]; [|apply wp_throw; by apply HR].
  istep. eapply wp_expect.
  { unfold usize_sub. by rewrite (proj2 (Z.leb_le _ _)) by lia. }
  istep. eapply wp_expect.
  { unfold usize_add. by rewrite (proj2 (Z.ltb_lt _ _)) by range_lia. }
  fold (limit e). destruct (Z.ltb_spec (limit e) (zlen (i_stack i) - info_args inf + info_ret inf)).
  - istep. eapply wp_expect.
    { unfold usize_sub. by rewrite (proj2 (Z.leb_le _ _)) by lia. }
    apply wp_throw. by apply HR.
  - apply wp_ret. by apply HQ.
Qed.

(** From the effect of an instruction to the state after it. [i2] is the state with the
    instruction paid for. *)
Lemma exec_post_after i i2 e e2 g g2 instr inf req r s :
  requirements_ok (ext_schedule e) (zlen (i_mem i)) instr (i_stack i) req ->
  base_ok i2 e2 g2 -> host Inv e e2 -> i_code i2 = i_code i -> i_stack i2 = i_stack i ->
  i_position i2 + 32 < U64_MOD ->
  i_resume_result i2 = None -> i_done i2 = i_done i -> i_last_stack_ret_len i2 = info_ret inf ->
  info_args inf <= zlen (i_stack i) -> 0 <= info_ret inf ->
  zlen (i_stack i) - info_args inf + info_ret inf <= limit e ->
  current_gas g2 = current_gas g - gas_cost req ->
  exec_post Inv (trap_ready := trap_ready) i2 e2 (current_gas g2) instr inf (provide_gas req) r s ->
  after i e g r s.
Proof.
  intros Hreq [Hinv Hcache Hcode Hpar Hmem Hrd Hpos Hst Hgm Hgo Hret0 Hme] He Hci Hsi Hp32 Hrr Hdn Hrl
    Hargs Hret Hlim Hg2 (He' & Hf & Heff & Hres & Htrap).
  destruct s as [i' e']; cbn [fst snd] in *.
  destruct Hf as [Fcode Fpar Fgas Fcache Fvjd Fdone Ftr Fres Fret Flen Fmem Frd Fpos Fst].
  pose proof (host_schedule _ _ _ He) as Hs1. pose proof (host_schedule _ _ _ He') as Hs2.
  assert (Hbase : base_ok i' e' g2).
  { split; rewrite ?Fcode, ?Fpar, ?Fgas, ?Fcache, ?Fret, ?Hs2, ?Flen; try done.
    - apply He'. - apply Fmem. - lia. }
  unfold after. cbn [fst snd]. exists g2. split_and!; [by eapply host_trans|done|by rewrite Fres|by rewrite Fcode|by rewrite Fdone|].
  unfold stack_effect in Heff. unfold allowance in Hres. rewrite Hs1, Hsi in *. cbn [unused].
  pose proof (rq_gas _ _ _ _ _ Hreq) as Hgc. unfold cost_ok in Hgc.
  pose proof (zlen_nonneg (i_stack i')). rewrite Fret, Hrl.
  assert (Hprov : passes_gas instr = true ->
    default 0 (provide_gas req) + stipend_of (ext_schedule e) instr (i_stack i) <= gas_cost req /\
    (progress_ok (ext_schedule e) ->
     default 0 (provide_gas req) + stipend_of (ext_schedule e) instr (i_stack i) < gas_cost req)).
  { intros Hp. destruct (rq_provide _ _ _ _ _ Hreq Hp) as (q & -> & _ & H1 & H2). cbn.
    split; [done|]. intros Hpr. specialize (H2 Hpr). unfold id. lia. }
  pose proof (rq_progress _ _ _ _ _ Hreq) as Hprog.
  destruct r as [|u|pos|gl o n ap| |t]; cbn [result_ok unused] in *.
  - split_and!; try done; try lia. intros Hpr. specialize (Hprog Hpr Hres). lia.
  - destruct Hres as (Hh & Hp & Hu). destruct (Hprov Hp) as [Hb1 Hb2].
    split_and!; try done; try lia. intros Hpr. specialize (Hb2 Hpr). lia.
  - destruct Hres as (Hh & Hu). split_and!; try done; try lia.
    intros Hpr. specialize (Hprog Hpr Hh). lia.
  - split_and!; try done; try lia; apply Hres.
  - split_and!; try done; lia.
  - destruct Hres as (Hh & Hp & Ht), Heff as [Hr1 Heff]. destruct (Hprov Hp) as [Hb1 Hb2].
    split_and!; [lia|lia|by apply Htrap|]. eexists; split_and!; [exact Ht|lia|].
    intros Hpr. specialize (Hb2 Hpr). lia.
Qed.

(** Paying for the instruction, growing the memory and executing it. *)
Lemma charge_and_execute_ok i e e1 g instr inf req :
  schedule_ok (ext_schedule e) -> base_ok i e g -> host Inv e e1 ->
  requirements_ok (ext_schedule e) (zlen (i_mem i)) instr (i_stack i) req ->
  info_slot instr = Some inf -> info_args inf <= zlen (i_stack i) -> 0 <= info_ret inf ->
  zlen (i_stack i) - info_args inf + info_ret inf <= limit e ->
  i_resume_result i = None -> i_last_stack_ret_len i = info_ret inf ->
  1 <= i_position i <= zlen (i_code i) ->
  wp (verify_gas g (gas_cost req) ;;;
      modi (set_mem (expand (i_mem i) (memory_required_size req))) ;;;
      do left <- expect (cost_sub (current_gas g) (gas_cost req)) in
      put_gasometer (mkGasometer left (memory_total_gas req)) ;;;
      exec_instruction left instr (provide_gas req)) (after i e g) (host_err e) (i, e1).
Proof.
  intros Hsch Hb He1 Hreq Hinf Hargs Hret Hlim Hrr Hrl Hpos.
  pose proof Hb as [Hinv Hcache Hcode Hpar Hmem Hrd Hpos0 Hst Hgm Hgo Hret0 Hme].
  pose proof (host_schedule _ _ _ He1) as Hs1.
  destruct Hgo as [Gg Gmg Gmc Gcur Gcw].
  destruct Hreq as [Rg Rmg Rmc Rsz Rmax Rw Rcov Rprov Rprog] eqn:HR; clear HR.
  wp_bind. unfold verify_gas. destruct (Z.ltb_spec (current_gas g) (gas_cost req)).
  { apply wp_throw. by split. }
  apply wp_ret. do 2 istep. wp_bind. eapply wp_expect.
  { rewrite cl_sub by done. by rewrite (proj2 (Z.leb_le _ _)) by lia. }
  wp_bind. unfold put_gasometer. istep.
  set (g2 := mkGasometer (current_gas g - gas_cost req) (memory_total_gas req)).
  set (i2 := set_gasometer (Some g2) (set_mem (expand (i_mem i) (memory_required_size req)) i)).
  pose proof (zlen_expand (i_mem i) (memory_required_size req) Rsz) as Hzl.
  assert (Hmv : vec_ok (i_mem i2)).
  { split; [by apply is_bytes_expand|]. cbn. rewrite Hzl. lia. }
  assert (Hl2 : cost_ok (current_gas g2)) by (cbn; unfold cost_ok in *; lia).
  assert (Hb2 : base_ok i2 e1 g2).
  { split; try done; [apply He1|apply Hmv|]. cbn. rewrite Hs1, Hzl. split; cbn; try done; [lia|].
    destruct (Z.max_spec (zlen (i_mem i)) (memory_required_size req)) as [[_ ->]|[_ ->]]; done. }
  eapply wp_mono; [apply (exec_instruction_ok HK Inv i2 e1 (current_gas g2) instr inf (provide_gas req))|..].
  - split; try done; [apply He1| |].
    + cbn. rewrite Hzl. exact Rcov.
    + intros Hp. destruct (Rprov Hp) as (q & -> & Hq & Hle & _). exists q. rewrite Hs1. cbn.
      unfold cost_ok in *. split_and!; [done|lia|lia].
  - intros r s Hpost. eapply (exec_post_after i i2 e e1 g g2 instr inf req); try done.
    destruct Hcode as [_ Hc]. cbn. range_lia.
  - intros er s [Hp He2]. split; [done|]. by eapply host_trans.
Qed.

(** Decoding, tracing and checking an instruction before it is charged. *)
Lemma fetch_and_execute_ok i e g :
  base_ok i e g -> zlen (i_stack i) <= limit e -> i_resume_result i = None ->
  i_position i < zlen (i_code i) ->
  wp fetch_and_execute (after i e g) (host_err e) (i, e).
Proof.
  intros Hb Hlen Hrr Hpos. pose proof (bo_host _ _ _ Hb) as Hinv.
  pose proof (schedule_wf_ok _ (law_schedule e Hinv)) as Hsch.
  pose proof (host_refl' e Hinv) as He. unfold fetch_and_execute.
  pose proof Hb as [_ Hcache Hcode Hpar Hmem Hrd Hpos0 Hst Hgm Hgo Hret0 Hme].
  pose proof (vec_ok_lt _ Hcode) as Hcl.
  do 5 istep. destruct (vec_get_is_Some (i_code i) (i_position i) ltac:(lia)) as [op Hop].
  eapply wp_expect; [exact Hop|]. istep. eapply wp_expect.
  { unfold usize_add. by rewrite (proj2 (Z.ltb_lt _ _)) by lia. }
  do 5 istep. unfold get_gasometer. do 2 istep. eapply wp_expect; [exact Hgm|]. istep.
  apply wp_mono with (Q := fun _ s => exists e1, s = (set_position (i_position i + 1) i, e1) /\ host Inv e e1)
    (R := host_err e); [| |done].
  { case_bool; [|istep; eauto]. istep. apply wp_infallible.
    eapply wp_method; [apply law_trace_next_instruction|exact He|eauto|done]. }
  intros trace s (e1 & -> & He1). do 2 istep.
  destruct (from_u8 op) as [instr|]; [|by apply wp_throw].
  destruct (info_slot_total instr) as (inf & Hinf & Ha & Hret).
  wp_bind. unfold info. eapply wp_expect; [exact Hinf|]. do 3 istep.
  set (i1 := set_last_stack_ret_len (info_ret inf) (set_do_trace trace (set_position (i_position i + 1) i))).
  pose proof (host_schedule _ _ _ He1) as Hs1.
  assert (Hlim1 : limit e1 = limit e) by (unfold limit; by rewrite Hs1).
  apply (verify_instruction_ok instr inf i1 e1); [done|by rewrite Hlim1|rewrite Hlim1; apply Hsch| |done].
  rewrite Hlim1. intros Hargs Hlim.
  assert (Hb1 : base_ok i1 e1 g).
  { split; try done; cbn; [apply He1|range_lia|by rewrite Hs1|lia]. }
  do 5 istep. change (mem_size (i_mem i1)) with (zlen (i_mem i1)). istep.
  eapply wp_mono; [apply (requirements_spec H64 Inv e e1 g (zlen (i_mem i1)) instr inf (i_stack i1)); done| |done].
  intros req e2 [He2 Hreq]. wp_bind.
  apply wp_mono with (Q := fun _ s => exists e3, s = (i1, e3) /\ host Inv e e3) (R := host_err e); [| |done].
  { case_bool; [|istep; eauto]. wp_bind. eapply mem_written_ok; [done..|]. intros mw.
    wp_bind. eapply store_written_ok; [done..|]. intros sw. istep. apply wp_infallible.
    eapply wp_method; [apply law_trace_prepare_execute|exact He2|eauto|done]. }
  intros _ s (e3 & -> & He3).
  assert (Hbe : base_ok i1 e g) by (destruct Hb1; split; try done; by rewrite <- Hs1).
  eapply wp_mono; [apply (charge_and_execute_ok i1 e e3 g instr inf req); try done; cbn; lia|done|done].
Qed.

(** ** The invariant *)

(** What a result of an execution may carry. *)
Definition gas_left_ok (budget : Z) (r : GasLeft + vm_error) : Prop :=
  match r with
  | inl (Known n) => 0 <= n <= budget
  | inl (NeedsReturn n d _) => 0 <= n <= budget /\ return_data_ok d
  | inr er => proper er
  end.

(** A state from which the interpreter may be stepped. After a resumption, a pending
    result takes the place of the next instruction. *)
Definition ready (i : Interp C) (e : E) (g : Gasometer) : Prop :=
  base_ok i e g /\ i_done i = false /\ zlen (i_stack i) <= limit e /\
  match i_resume_result i with
  | None => zlen (i_code i) = 0 \/ i_position i < zlen (i_code i)
  | Some r => i_last_stack_ret_len i <= zlen (i_stack i) /\
      match r with
      | InstrOk => True
      | UnusedGas u => 0 <= u /\ current_gas g + u < cost_mod
      | _ => False
      end
  end.

Definition budget (i : Interp C) (g : Gasometer) : Z :=
  current_gas g + match i_resume_result i with Some r => unused r | None => 0 end.

(** A state that waits for the result of a sub-call or sub-create. *)
Definition trapped (i : Interp C) (e : E) (g : Gasometer) (t : TrapKind) (b : Z) : Prop :=
  base_ok i e g /\ i_done i = false /\ i_resume_result i = None /\
  zlen (i_stack i) + 1 <= limit e /\ i_last_stack_ret_len i <= 1 /\
  exists bound, trap_ok bound i t /\ current_gas g + bound <= b /\
    (progress_ok (ext_schedule e) -> current_gas g + bound < b).

Definition step_post (i : Interp C) (e : E) (b : Z) (r : InterpreterResult) (s : IS) : Prop :=
  let i' := fst s in let e' := snd s in
  host Inv e e' /\
  match r with
  | Continue => exists g', ready i' e' g' /\ i_resume_result i' = None /\ budget i' g' <= b /\
      (progress_ok (ext_schedule e) -> i_resume_result i = None -> budget i' g' < b)
  | StepTrap t => trap_ready e' t /\ exists g', trapped i' e' g' t b
  | Done res => i_done i' = true /\ gas_left_ok b res
  | Stopped => False
  end.

(** The same before [step] records that the execution is done. *)
Definition inner_post (i : Interp C) (e : E) (b : Z) (r : InterpreterResult) (s : IS) : Prop :=
  match r with
  | Done res => host Inv e (snd s) /\ gas_left_ok b res
  | _ => step_post i e b r s
  end.

Lemma gasometer_gas i e g : base_ok i e g -> 0 <= current_gas g < cost_mod.
Proof. intros Hb. apply (go_gas _ _ _ (bo_gas _ _ _ Hb)). Qed.

Lemma as_u256_gas i e g : base_ok i e g -> as_u256 (current_gas g) = current_gas g.
Proof. intros Hb. apply cl_as_u256, (gasometer_gas i e g Hb). Qed.

(** The end of a step: the execution ran off the code, or goes on. *)
Lemma continue_or_end_ok i0 i e e0 g b :
  host Inv e0 e -> base_ok i e g -> i_resume_result i = None -> i_done i = false ->
  zlen (i_stack i) <= limit e0 -> current_gas g <= b ->
  (progress_ok (ext_schedule e0) -> i_resume_result i0 = None -> current_gas g < b) ->
  wp continue_or_end (inner_post i0 e0 b) (host_err e0) (i, e).
Proof.
  intros He Hb Hrr Hdn Hst Hg Hpr. unfold continue_or_end. do 4 istep.
  destruct (Z.leb_spec (zlen (i_code i)) (i_position i)).
  - unfold done_known, get_gasometer. do 3 istep. eapply wp_expect; [apply Hb|]. istep.
    split; [done|]. rewrite (as_u256_gas i e g Hb). pose proof (gasometer_gas i e g Hb). cbn. lia.
  - istep. split; [done|]. exists g. unfold ready, budget. cbn [fst snd]. rewrite Hrr.
    split_and!; try done; try lia.
    + unfold limit in *. by rewrite (host_schedule _ _ _ He).
    + intros. rewrite Z.add_0_r. auto.
Qed.

Lemma jump_destinations_ok c h code : cache_ok c ->
  exists d c', jump_destinations c h code = Some (d, c') /\ cache_ok c'.
Proof.
  intros Hc. unfold jump_destinations. destruct h as [h|]; [|eauto].
  case_bool; [eauto|]. pose proof (dc_get_ok c h Hc) as Hok.
  destruct (cache_get_mut c h) as [[d|] c1]; [eauto|].
  destruct (dc_insert c1 h (find_jump_destinations code) Hok) as (c2 & -> & Hok2 & _). cbn. eauto.
Qed.

(** The facts on a result that [advance] relies on. *)
Definition result_facts (i : Interp C) (g : Gasometer) (r : InstructionResult) : Prop :=
  match r with
  | JumpToPosition p => is_u256 p
  | StopExecutionNeedsReturn gl o n _ =>
      gl = current_gas g /\ is_u256 o /\ is_u256 n /\ in_memory (i_mem i) o n
  | InstrTrap _ => False
  | _ => True
  end.

Definition progresses (r : InstructionResult) : bool :=
  match r with InstrOk | UnusedGas _ | JumpToPosition _ => true | _ => false end.

Lemma advance_ok i0 e0 b r i e g :
  host Inv e0 e -> base_ok i e g -> i_resume_result i = None -> i_done i = false ->
  zlen (i_stack i) <= limit e0 -> current_gas g <= b -> result_facts i g r ->
  (progresses r = true -> progress_ok (ext_schedule e0) -> i_resume_result i0 = None ->
   current_gas g < b) ->
  wp (advance r) (inner_post i0 e0 b) (host_err e0) (i, e).
Proof.
  intros He Hb Hrr Hdn Hst Hg Hf Hpr. pose proof (gasometer_gas i e g Hb).
  destruct r as [|u|p|gl o n ap| |t]; cbn [advance result_facts progresses] in *.
  - apply (continue_or_end_ok i0 i e e0 g); auto.
  - apply (continue_or_end_ok i0 i e e0 g); auto.
  - do 3 istep.
    apply wp_mono with (Q := fun _ s => exists i1, s = (i1, e) /\ base_ok i1 e g /\
      i_resume_result i1 = None /\ i_done i1 = false /\ i_stack i1 = i_stack i) (R := host_err e0);
      [| |done].
    { destruct (i_valid_jump_destinations i) as [d|]; [istep; eauto 6|].
      destruct (jump_destinations_ok (i_cache i) (ip_code_hash (i_params i)) (i_code i))
        as (d & c' & Hj & Hc'); [apply Hb|].
      do 7 istep. eapply wp_expect; [exact Hj|]. repeat istep.
      eexists; split; [done|]. split_and!; try done. by destruct Hb. }
    intros d s (i1 & -> & Hb1 & Hrr1 & Hdn1 & Hst1). istep. unfold verify_jump.
    case_bool; [|by apply wp_throw]. istep. do 2 istep.
    apply (continue_or_end_ok i0 _ e e0 g); auto; [|by cbn; rewrite Hst1].
    destruct Hb1; split; try done. apply low_u64_bound.
  - destruct Hf as (-> & Ho & Hn & Hin). do 4 istep. wp_bind.
    destruct (into_return_data_in (i_mem i) o n (base_mem i e g Hb) Ho Hn Hin) as (d & Hd & Hok & _).
    eapply wp_expect; [exact Hd|]. istep. split; [done|].
    rewrite (as_u256_gas i e g Hb). cbn. split; [lia|done].
  - unfold done_known, get_gasometer. do 3 istep. eapply wp_expect; [apply Hb|]. istep.
    split; [done|]. rewrite (as_u256_gas i e g Hb). cbn. lia.
  - done.
Qed.

(** Crediting unused gas, and the trace of the executed instruction. *)
Definition after_instruction (result : InstructionResult) : M (IS (C := C)) vm_error InterpreterResult :=
  (match result with
   | UnusedGas gas =>
       do g <- get_gasometer in
       do sum <- expect (cost_add (current_gas g) gas) in
       put_gasometer (mkGasometer sum (current_mem_gas g))
   | _ => ret tt
   end) ;;;
  do trace <- geti i_do_trace in
  (if trace then
     do g <- get_gasometer in
     do st <- geti i_stack in
     do n <- geti i_last_stack_ret_len in
     do top <- peek_top st n in
     do mem <- geti i_mem in
     lift_ext (infallible (ext_trace_executed (as_u256 (current_gas g)) top mem))
   else ret tt) ;;;
  advance result.

Lemma after_instruction_ok i0 e0 b r i e g :
  host Inv e0 e -> base_ok i e g -> i_resume_result i = None -> i_done i = false ->
  zlen (i_stack i) <= limit e0 -> i_last_stack_ret_len i <= zlen (i_stack i) ->
  0 <= unused r -> current_gas g + unused r <= b -> b < cost_mod -> result_facts i g r ->
  (progresses r = true -> progress_ok (ext_schedule e0) -> i_resume_result i0 = None ->
   current_gas g + unused r < b) ->
  wp (after_instruction r) (inner_post i0 e0 b) (host_err e0) (i, e).
Proof.
  intros He Hb Hrr Hdn Hst Hrl Hu Hg Hbc Hf Hpr. unfold after_instruction. wp_bind.
  pose proof (gasometer_gas i e g Hb) as Hgg.
  apply wp_mono with (Q := fun _ s => exists i1 g1, s = (i1, e) /\ base_ok i1 e g1 /\
    current_gas g1 = current_gas g + unused r /\ i_mem i1 = i_mem i /\ i_stack i1 = i_stack i /\
    i_resume_result i1 = None /\ i_done i1 = false /\
    i_last_stack_ret_len i1 = i_last_stack_ret_len i) (R := host_err e0); [| |done].
  { destruct r; try (istep; exists i, g; cbn [unused]; split_and!; try done; lia).
    cbn [unused] in *. wp_bind. unfold get_gasometer. do 2 istep. eapply wp_expect; [apply Hb|].
    wp_bind. eapply wp_expect.
    { rewrite cl_add by (unfold cost_ok; lia). by rewrite (proj2 (Z.ltb_lt _ _)) by lia. }
    unfold put_gasometer. istep.
    eexists _, (mkGasometer (current_gas g + gas) (current_mem_gas g)).
    split; [done|]. split_and!; try done.
    destruct Hb as [? ? ? ? ? ? ? ? ? [] ? ?]. split; try done. split; cbn; try done.
    unfold cost_ok. lia. }
  intros _ s (i1 & g1 & -> & Hb1 & Hg1 & Hm1 & Hs1 & Hr1 & Hd1 & Hl1). do 3 istep.
  apply wp_mono with (Q := fun _ s => exists e2, s = (i1, e2) /\ host Inv e0 e2) (R := host_err e0);
    [| |done].
  { case_bool; [|istep; eauto]. wp_bind. unfold get_gasometer. do 2 istep.
    eapply wp_expect; [apply Hb1|]. do 5 istep. unfold peek_top. wp_bind.
    apply wp_assert; [apply Z.leb_le; by rewrite Hl1, Hs1|]. do 4 istep. apply wp_infallible.
    eapply wp_method; [apply law_trace_executed|exact He|eauto|done]. }
  intros _ s (e2 & -> & He2).
  apply (advance_ok i0 e0 b r i1 e2 g1); try done; try lia.
  - destruct Hb1; split; try done; [apply He2|].
    by rewrite (host_schedule _ _ _ He2), <- (host_schedule _ _ _ He).
  - by rewrite Hs1.
  - destruct r; try done. cbn [unused] in *. cbn. rewrite Hm1. by replace (current_gas g1) with (current_gas g) by lia.
  - intros. rewrite Hg1. auto.
Qed.

Lemma base_ok_resume i e g r : base_ok i e g -> base_ok (set_resume_result r i) e g.
Proof. intros []. by split. Qed.

Lemma step_inner_ok i e g : ready i e g -> zlen (i_code i) <> 0 ->
  wp step_inner (inner_post i e (budget i g)) (host_err e) (i, e).
Proof.
  intros (Hb & Hdn & Hst & Hr) Hne. pose proof (bo_host _ _ _ Hb) as Hinv.
  pose proof (gasometer_gas i e g Hb) as Hgg.
  pose proof (host_refl' e Hinv) as He. unfold step_inner. do 5 istep. unfold budget.
  pose proof (base_ok_resume i e g None Hb) as Hb'.
  destruct (i_resume_result i) as [r|] eqn:Hrr.
  - destruct Hr as [Hrl Hr]. istep.
    assert (Hfin : 0 <= unused r -> current_gas g + unused r < cost_mod -> result_facts i g r ->
      wp (after_instruction r) (inner_post i e (current_gas g + unused r)) (host_err e)
         (set_resume_result None i, e)).
    { intros H1 H2 H3. apply (after_instruction_ok i e _ r _ e g); try done; try lia.
      intros _ _ H4. by rewrite Hrr in H4. }
    destruct r; try done; apply Hfin; try done; cbn [unused]; lia.
  - destruct Hr as [Hr|Hr]; [done|]. rewrite Z.add_0_r.
    eapply wp_mono; [apply (fetch_and_execute_ok (set_resume_result None i) e g); done| |done].
    intros r [i1 e1] (g1 & He1 & Hb1 & Hrr1 & Hcd1 & Hdn1 & Hres). cbn [fst snd] in *.
    cbn [i_done set_resume_result] in Hdn1. rewrite Hdn in Hdn1.
    change (wp (match r with InstrTrap trap => ret (StepTrap trap) | _ => after_instruction r end)
               (inner_post i e (current_gas g)) (host_err e) (i1, e1)).
    destruct r as [|u|p|gl o n ap| |t].
    6:{ destruct Hres as (Hl1 & Hl2 & Htr & bound & Ht & Hg1 & Hg2). istep. split; [done|].
        split; [done|]. exists g1. cbn [fst snd]. split_and!; try done; unfold limit in *;
        rewrite (host_schedule _ _ _ He1); eauto. }
    all: destruct Hres as (H1 & H2 & H3 & H4 & H5 & H6);
      apply (after_instruction_ok i e (current_gas g) _ i1 e1 g1); try done; try lia;
      intros; first [done|auto].
Qed.

(** No step panics from a ready state; the invariant, the stack limit and the gas bound
    hold afterwards. *)
Lemma step_ok i e g : ready i e g ->
  wp step (step_post i e (budget i g)) (fun _ _ => False) (i, e).
Proof.
  intros Hready. pose proof Hready as (Hb & Hdn & Hst & Hr). unfold wp, step. rewrite Hdn.
  rewrite (bo_gasometer _ _ _ Hb). pose proof (host_refl' e (bo_host _ _ _ Hb)) as He.
  destruct (Z.eqb_spec (zlen (i_code i)) 0) as [Hz|Hne].
  - split; [done|]. split; [done|]. rewrite (as_u256_gas i e g Hb).
    pose proof (gasometer_gas i e g Hb). unfold budget. cbn.
    destruct (i_resume_result i) as [[| | | | |]|]; cbn [unused]; try done; lia.
  - pose proof (step_inner_ok i e g Hready Hne) as Hin. unfold wp in Hin.
    destruct (step_inner (i, e)) as [r s|er s|]; [|destruct Hin; by split_and!|done].
    destruct r as [|res| |t]; cbn [inner_post] in Hin; try exact Hin.
    destruct Hin as [H1 H2]. by split.
Qed.

(** ** Whole executions *)

Definition exec_ok_post (e : E) (b : Z) (r : option ExecResult) (s : IS) : Prop :=
  host Inv e (snd s) /\
  match r with
  | Some (ExecDone res) => i_done (fst s) = true /\ gas_left_ok b res
  | Some (ExecTrap t) => trap_ready (snd s) t /\ exists g, trapped (fst s) (snd s) g t b
  | None => False
  end.

(** Iterations an execution needs at most: every instruction costs gas. *)
Definition steps_bound (i : Interp C) (g : Gasometer) : Z :=
  budget i g + match i_resume_result i with Some _ => 2 | None => 1 end.

Lemma budget_nonneg i e g : ready i e g -> 0 <= budget i g < cost_mod.
Proof.
  intros (Hb & _ & _ & Hr). pose proof (gasometer_gas i e g Hb). unfold budget.
  destruct (i_resume_result i) as [[| | | | |]|]; cbn [unused]; try lia; destruct Hr; lia || done.
Qed.

Lemma trapped_mono i e g t b b' : b <= b' -> trapped i e g t b -> trapped i e g t b'.
Proof.
  intros Hle (? & ? & ? & ? & ? & bound & ? & ? & Hpr). split_and!; try done.
  exists bound. split_and!; [done|lia|]. intros H'. specialize (Hpr H'). lia.
Qed.

Lemma gas_left_ok_mono b b' r : b <= b' -> gas_left_ok b r -> gas_left_ok b' r.
Proof. intros Hle. destruct r as [[]|]; cbn; lia || (intros [? ?]; split; [lia|done]) || done. Qed.

(** The loop of [exec] ends: with an answer, an error, or a trap. *)
Lemma exec_terminates fuel i e g : progress_ok (ext_schedule e) -> ready i e g ->
  steps_bound i g <= Z.of_nat fuel ->
  wp (exec fuel) (exec_ok_post e (budget i g)) (fun _ _ => False) (i, e).
Proof.
  revert i e g. induction fuel as [|fuel IH]; intros i e g Hpr Hr Hf; cbn [exec].
  { pose proof (budget_nonneg i e g Hr). unfold steps_bound in Hf.
    destruct (i_resume_result i); lia. }
  wp_bind. eapply wp_mono; [exact (step_ok i e g Hr)| |done].
  intros r [i1 e1] [He1 Hpost]. cbn [fst snd] in *. destruct r as [|res| |t]; [done| | |].
  - by apply wp_ret.
  - destruct Hpost as (g1 & Hr1 & Hrr1 & Hle & Hlt).
    eapply wp_mono; [apply (IH i1 e1 g1); [|done|]| |done].
    + by rewrite (host_schedule _ _ _ He1).
    + specialize (Hlt Hpr). unfold steps_bound in *. rewrite Hrr1.
      destruct (i_resume_result i); [lia|]. specialize (Hlt eq_refl). lia.
    + intros res [i2 e2] [He2 Hres]. split; [by eapply host_trans|]. cbn [fst snd] in *.
      destruct res as [[res|t]|]; [|destruct Hres as [Ht [g2 Hres]]; split; [done|exists g2; by eapply trapped_mono]|done].
      destruct Hres. split; [done|]. by eapply gas_left_ok_mono.
  - by apply wp_ret.
Qed.

(** ** Resumption *)

(** What the executive hands back: at most the gas the trap asked for. *)
Definition call_result_ok (gas : Z) (r : MessageCallResult) : Prop :=
  match r with
  | CallSuccess gl d | CallReverted gl d => 0 <= gl <= gas /\ return_data_ok d
  | CallFailed => True
  end.

Definition create_result_ok (gas : Z) (r : ContractCreateResult) : Prop :=
  match r with
  | CreateCreated a gl => is_address a /\ 0 <= gl <= gas
  | CreateReverted gl d => 0 <= gl <= gas /\ return_data_ok d
  | CreateFailed => True
  end.

(** The gas a result hands back. *)
Definition call_gas_back (r : MessageCallResult) : Z :=
  match r with CallSuccess gl _ | CallReverted gl _ => gl | CallFailed => 0 end.

Definition create_gas_back (r : ContractCreateResult) : Z :=
  match r with CreateCreated _ gl | CreateReverted gl _ => gl | CreateFailed => 0 end.

Lemma base_ok_host i e e' g : host Inv e e' -> base_ok i e g -> base_ok i e' g.
Proof.
  intros He []. split; try done; [apply He|]. by rewrite (host_schedule _ _ _ He).
Qed.

Lemma from_u256_ok v : 0 <= v < cost_mod ->
  match from_u256 v with inl x => Some x | inr _ => None end = Some v.
Proof.
  intros Hv. pose proof cost_mod_bounds. rewrite cl_from_u256 by range_lia.
  by rewrite (proj2 (Z.ltb_lt _ _)) by lia.
Qed.

(** The resumed state: a word pushed, a pending result, perhaps new memory contents. *)
Lemma resumed_ready i e e' g t b i' v r :
  trapped i e g t b -> host Inv e e' -> b < cost_mod ->
  i_code i' = i_code i -> i_params i' = i_params i -> i_cache i' = i_cache i ->
  i_gasometer i' = i_gasometer i -> i_position i' = i_position i -> i_done i' = i_done i ->
  i_last_stack_ret_len i' = i_last_stack_ret_len i ->
  i_stack i' = v :: i_stack i -> i_resume_result i' = Some r ->
  is_bytes (i_mem i') -> zlen (i_mem i') = zlen (i_mem i) -> return_data_ok (i_return_data i') ->
  is_u256 v -> r = InstrOk \/ (exists u, r = UnusedGas u /\ 0 <= u /\ current_gas g + u <= b) ->
  0 <= current_gas g <= b ->
  ready i' e' g /\ budget i' g = current_gas g + unused r.
Proof.
  intros (Hb & Hdn & Hrr & Hst & Hrl & _) He Hbc H1 H2 H3 H4 H5 H6 H7 H8 H9 H10 H11 H12 Hv Hr Hg.
  assert (Hz : zlen (i_stack i') = 1 + zlen (i_stack i)) by (by rewrite H8, zlen_cons).
  pose proof (zlen_nonneg (i_stack i)). unfold ready, budget. rewrite H9.
  assert (Hb' : base_ok i' e' g).
  { apply (base_ok_host _ _ _ _ He) in Hb as [].
    split; rewrite ?H1, ?H2, ?H3, ?H4, ?H5, ?H7, ?H8, ?H11; try done. by constructor. }
  assert (Hlim : limit e' = limit e) by (unfold limit; by rewrite (host_schedule _ _ _ He)).
  split_and!; try done; try (by rewrite H6); try (rewrite ?Hlim, ?H7, Hz; lia);
    destruct Hr as [-> |(u & -> & Hu & Hle)]; cbn [unused]; try done; lia.
Qed.

(** A trapped call is resumed safely with any result within its gas. *)
Lemma resume_call_ok i e e' g prm b res :
  trapped i e g (TrapCall prm) b -> host Inv e e' -> b < cost_mod -> call_result_ok (ap_gas prm) res ->
  exists i', resume_call i res = Some i' /\ ready i' e' g /\
    budget i' g = current_gas g + call_gas_back res.
Proof.
  intros Ht He Hbc Hres.
  pose proof Ht as (Hb & _ & _ & _ & _ & bound & ([Hg0 Hgb] & o & n & Hror & Ho & Hn & Hin) & Hgle & _).
  pose proof (gasometer_gas i e g Hb) as Hgg.
  assert (Hwith : forall gl flag d, 0 <= gl <= ap_gas prm -> return_data_ok d -> is_u256 flag ->
    exists i', resume_with (set_resume_output_range None i) o n gl flag d = Some i' /\
      ready i' e' g /\ budget i' g = current_gas g + gl).
  { intros gl flag d Hgl Hd Hfl. unfold resume_with. pose proof Hd as ([Hdb Hdl] & Hd1 & Hd2 & Hd3).
    rewrite usize_add_some by range_lia. cbn [mbind option_bind].
    rewrite vec_slice_some by lia. cbn [mbind option_bind].
    destruct (copy_output_in (i_mem i) o n
      (take (Z.to_nat (rd_offset d + rd_size d - rd_offset d)) (drop (Z.to_nat (rd_offset d)) (rd_mem d))))
      as (mem' & Hc & Hl & Hok); [by eapply base_mem|done..|by apply Forall_take, Forall_drop|].
    cbn [i_mem set_resume_output_range]. rewrite Hc. cbn [mbind option_bind].
    rewrite from_u256_ok by lia. cbn [mbind option_bind].
    eexists; split; [done|].
    apply (resumed_ready i e e' g (TrapCall prm) b _ flag (UnusedGas gl)); try done; [apply Hok| |lia].
    right. exists gl. split_and!; [done|lia|lia]. }
  unfold resume_call. rewrite Hror. cbn [mbind option_bind].
  destruct res as [gl d| |gl d]; cbn in Hres;
    [destruct Hres; by apply Hwith| |destruct Hres; by apply Hwith].
  eexists; split; [done|].
  apply (resumed_ready i e e' g (TrapCall prm) b _ 0 InstrOk); try done; [apply Hb|apply Hb|by left|lia].
Qed.

Lemma resume_create_ok i e e' g prm a b res :
  trapped i e g (TrapCreate prm a) b -> host Inv e e' -> b < cost_mod ->
  create_result_ok (ap_gas prm) res ->
  exists i', resume_create i res = Some i' /\ ready i' e' g /\
    budget i' g = current_gas g + create_gas_back res.
Proof.
  intros Ht He Hbc Hres.
  pose proof Ht as (Hb & _ & _ & _ & _ & bound & [Hg0 Hgb] & Hgle & _).
  pose proof (gasometer_gas i e g Hb) as Hgg. unfold resume_create.
  destruct res as [addr gl| |gl d]; cbn in Hres.
  - destruct Hres as [Ha Hgl]. rewrite from_u256_ok by lia. cbn [mbind option_bind].
    eexists; split; [done|].
    apply (resumed_ready i e e' g (TrapCreate prm a) b _ addr (UnusedGas gl)); try done;
      [apply Hb|apply Hb|by apply is_address_u256| |lia].
    right. exists gl. split_and!; [done|lia|lia].
  - eexists; split; [done|].
    apply (resumed_ready i e e' g (TrapCreate prm a) b _ 0 InstrOk); try done;
      [apply Hb|apply Hb|by left|lia].
  - destruct Hres as [Hgl Hd]. rewrite from_u256_ok by lia. cbn [mbind option_bind].
    eexists; split; [done|].
    apply (resumed_ready i e e' g (TrapCreate prm a) b _ 0 (UnusedGas gl)); try done;
      [apply Hb| |lia].
    right. exists gl. split_and!; [done|lia|lia].
Qed.

(** ** The start of an execution *)

Record action_ok (prm : ActionParams) (code : bytes) : Prop := {
  act_code : ap_code prm = Some code;
  act_code_ok : vec_ok code;
  act_gas : 0 <= ap_gas prm < cost_mod;
  act_params : params_ok (InterpreterParams_from prm);
}.

Lemma interpreter_new_ready prm code c e :
  action_ok prm code -> ap_address prm = me -> cache_ok c -> Inv e ->
  exists i, interpreter_new prm c = Some i /\ i_resume_result i = None /\
    ready i e (gasometer_new (ap_gas prm)) /\ budget i (gasometer_new (ap_gas prm)) = ap_gas prm.
Proof.
  intros [Hc Hcok Hg Hpar] Hme Hca Hinv. unfold interpreter_new. rewrite Hc. cbn [mbind option_bind].
  pose proof cost_mod_bounds. rewrite cl_from_u256 by range_lia.
  rewrite (proj2 (Z.ltb_lt _ _)) by lia. eexists; split; [done|].
  pose proof (schedule_wf_ok _ (law_schedule e Hinv)) as Hsch.
  split; [done|]. split; [|unfold budget; cbn; lia].
  split_and!; try done.
  - split; cbn; try done; [constructor|apply return_data_empty_ok|].
    split; cbn; try done. unfold cost_ok. lia.
  - cbn. change (zlen []) with 0. apply Hsch.
  - cbn. destruct (Z.eq_dec (zlen code) 0); [by left|right]. pose proof (zlen_nonneg code). lia.
Qed.

End Step.

Lemma cost_mod_usize : cost_mod (CostType := CostType_usize) = U64_MOD.
Proof. done. Qed.
