(* ===== verification/TestHost.v ===== *)
(** * A concrete host

    A small instance of the host interface, in the manner of [FakeExt] of
    [ethcore/vm/src/tests.rs]: storage and the refund counter are real, other accounts are
    empty, and calls and creates trap to the executive. It shows that the contract the
    interpreter's theorems assume of a host can be met, and lets executions be evaluated. *)

From S2P Require Import Prelude Schedule Instructions Vm MemoryCache JumpTable Interpreter.
From stdpp Require Import base numbers option list gmap.

Open Scope Z_scope.
Open Scope origo_scope.

Record TestHost : Type := mkTestHost {
  th_store : gmap Z Z;
  th_original : gmap Z Z;
  th_refund : Z;
  th_schedule : Schedule;
}.

Definition th_env : EnvInfo := mkEnvInfo 1 2 3 4 8000000 [] 0.

Definition th_params (gas : Z) (code : bytes) : ActionParams :=
  mkActionParams 0 None 0 0 0 gas 0 (Transfer 0) (Some code) None CallNone Separate false false.

#[export] Instance TestHost_Ext : Ext TestHost := {
  ext_initial_storage_at k := gets (fun h => default 0 (th_original h !! k));
  ext_storage_at k := gets (fun h => default 0 (th_store h !! k));
  ext_set_storage k v := modify (fun h => mkTestHost (<[k := v]> (th_store h)) (th_original h)
                                            (th_refund h) (th_schedule h));
  ext_exists _ := ret false;
  ext_exists_and_not_null _ := ret false;
  ext_origin_balance := ret 0;
  ext_balance _ := ret 0;
  ext_blockhash _ := ret 0;
  ext_create gas _ code _ _ := ret (inr (TrapCreate (th_params gas code) 1));
  ext_call gas _ _ _ _ _ _ _ := ret (inr (TrapCall (th_params gas [])));
  ext_extcode _ := ret None;
  ext_extcodehash _ := ret None;
  ext_extcodesize _ := ret None;
  ext_log _ _ := ret tt;
  ext_ret gas _ _ := ret gas;
  ext_suicide _ := ret tt;
  ext_schedule := th_schedule;
  ext_env_info _ := th_env;
  ext_depth _ := 0;
  ext_add_sstore_refund v := modify (fun h => mkTestHost (th_store h) (th_original h)
                                                (th_refund h + v) (th_schedule h));
  ext_sub_sstore_refund v := modify (fun h => mkTestHost (th_store h) (th_original h)
                                                (th_refund h - v) (th_schedule h));
  ext_trace_next_instruction _ _ _ := ret true;
  ext_trace_prepare_execute _ _ _ _ _ := ret tt;
  ext_trace_executed _ _ _ := ret tt;
  ext_is_static _ := false;
}.

Definition words_ok (m : gmap Z Z) : Prop := forall k v, m !! k = Some v -> is_u256 v.

Definition TestHost_inv (h : TestHost) : Prop :=
  words_ok (th_store h) /\ words_ok (th_original h) /\ schedule_wf (th_schedule h) = true.

Lemma words_ok_default m k : words_ok m -> is_u256 (default 0 (m !! k)).
Proof. intros Hm. destruct (m !! k) eqn:Hk; cbn; [by apply (Hm k)|range_lia]. Qed.

(** The host acts for the account at 0; every account is empty. *)
Definition th_affords (_ : TestHost) (_ v : Z) : Prop := v <= 0.
Definition th_trap_ready (_ : TestHost) (_ : TrapKind) : Prop := True.

#[export] Instance TestHost_laws : ExtLaws 0 TestHost_inv th_affords th_trap_ready.
Proof.
  split; try (intros; intros h Hh; pose proof Hh as (Hs & Ho & Hw));
    try (apply wp_ret); try (apply wp_gets); try (apply wp_modify);
    try (split_and!; done || range_lia).
  - intros e (_ & _ & Hw). done.
  - intros e _. change (env_info_ok th_env). unfold env_info_ok, th_env. cbn. split_and!; range_lia.
  - intros e _. done.
  - split_and!; [by apply words_ok_default|done..].
  - split_and!; [by apply words_ok_default|done..].
  - split_and!; [done| |done..]. split_and!; try done. intros k' v'. cbn.
    destruct (decide (k = k')) as [->|]; [rewrite lookup_insert_eq; intros [= <-]; done|].
    rewrite lookup_insert_ne by done. apply Hs.
  - intros a e _. apply wp_ret. unfold th_affords. lia.
  - intros e a b v Hb Hv. unfold th_affords in *. lia.
  - intros e a _. unfold th_affords. lia.
  - intros. by apply wp_ret.
  - intros. by apply wp_ret.
Qed.

(** A cache for the scans, and a hash. *)
#[export] Instance TestHost_cache : DestCache (MemoryLruCache (ListLru.t Z (list Z))) :=
  memory_lru_dest_cache (fun _ => 1).

#[export] Instance TestHost_keccak : Keccak := fun b => be_value b mod U256_MOD.

Definition th_fresh : TestHost := mkTestHost ∅ ∅ 0 new_constantinople.

Lemma th_fresh_inv : TestHost_inv th_fresh.
Proof. split_and!; [done|done|reflexivity]. Qed.
