(* ===== verification/EvmTheorems.v ===== *)
(** * The interpreter: main theorems

    The guarantees of the EVM interpreter ([ethcore/evm/src/interpreter]) with the 64-bit
    cost type, against any host that meets the contract [ExtLaws]: no instruction or step
    panics, executions terminate within their gas, and trapped executions can be resumed. *)

From S2P Require Import Prelude Schedule Instructions Vm CostType Gasometer Memory MemoryCache JumpTable Word Interpreter CopyData InterpreterSafety InterpreterStep TestHost.
From stdpp Require Import base numbers option strings list gmap.

Open Scope Z_scope.
Open Scope origo_scope.

(** Every instruction, executed from a state that satisfies what the checks before it
    establish (enough operands, memory covering its ranges, gas provided), neither panics nor
    fails with an internal error;
    it changes the stack height exactly as the instruction table says, leaves code,
    parameters, gas and memory size alone, keeps memory and stack well formed, and hands
    back at most the gas it was given plus the stipend; a call or create traps only with a
    transfer the sender can afford. *)
Theorem instruction_safe {C E : Type} {DC : DestCache C} {K : Keccak} {X : Ext E}
    (HK : forall b, is_u256 (keccak b)) (Inv : E -> Prop)
    (me : Z) (affords : E -> Z -> Z -> Prop) (trap_ready : E -> TrapKind -> Prop)
    (EL : ExtLaws me Inv affords trap_ready)
    (i : Interp C) (e : E) (left : Z) (instr : Instruction) (inf : InstructionInfo) (p : option Z)
    (Hpre : exec_pre (Cost := CostType_usize) (me := me) Inv i e left instr inf p) :
  match exec_instruction (Cost := CostType_usize) left instr p (i, e) with
  | Ret r s => host Inv e (snd s) /\ frame i (fst s) /\ stack_effect inf i (fst s) r /\
               result_ok left (allowance (ext_schedule e) instr (i_stack i) p) instr (fst s) r /\
               forall t, r = InstrTrap t -> trap_ready (snd s) t
  | Throw er s => proper er /\ host Inv e (snd s)
  | Panic => False
  end.
Proof.
  pose proof (exec_instruction_ok HK Inv i e left instr inf p Hpre) as Hw. unfold wp in Hw.
  by destruct (exec_instruction _ _ _ _).
Qed.

(** C21: one step of the interpreter never panics. From a ready state it either continues
    in a ready state, with strictly less gas when it executed an instruction, or traps in a
    state that can be resumed, or finishes with no more gas than it had. *)
Theorem step_safe {C E : Type} {DC : DestCache C} {K : Keccak} {X : Ext E}
    (HK : forall b, is_u256 (keccak b))
    (cache_ok : C -> Prop) (stored : C -> Z -> list Z -> Prop)
    (CDL : DestCacheLaws C cache_ok stored) (Inv : E -> Prop)
    (me : Z) (affords : E -> Z -> Z -> Prop) (trap_ready : E -> TrapKind -> Prop)
    (EL : ExtLaws me Inv affords trap_ready)
    (i : Interp C) (e : E) (g : Gasometer)
    (Hready : ready (Cost := CostType_usize) (me := me) cache_ok Inv i e g) :
  exists r s, step (Cost := CostType_usize) (i, e) = Ret r s /\
    step_post (Cost := CostType_usize) (me := me) (trap_ready := trap_ready) cache_ok Inv i e (budget i g) r s.
Proof.
  pose proof (step_ok cost_mod_usize HK cache_ok stored Inv i e g Hready) as Hw. unfold wp in Hw.
  destruct (step (i, e)) as [r s|[]|]; [eauto|done].
Qed.

(** C22: an execution of any code with [gas] units of gas is over after at most [gas + 1]
    iterations of the interpreter loop: it returns an answer with at most that much gas
    left, fails with an error, or traps for a sub-execution. It never panics. *)
Theorem execution_terminates {C E : Type} {DC : DestCache C} {K : Keccak} {X : Ext E}
    (HK : forall b, is_u256 (keccak b))
    (cache_ok : C -> Prop) (stored : C -> Z -> list Z -> Prop)
    (CDL : DestCacheLaws C cache_ok stored) (Inv : E -> Prop)
    (me : Z) (affords : E -> Z -> Z -> Prop) (trap_ready : E -> TrapKind -> Prop)
    (EL : ExtLaws me Inv affords trap_ready)
    (prm : ActionParams) (code : bytes) (c : C) (e : E)
    (Hact : action_ok (Cost := CostType_usize) prm code) (Hme : ap_address prm = me) (Hc : cache_ok c) (Hinv : Inv e)
    (Hprogress : schedule_progress (ext_schedule e) = true) :
  exists i r s,
    interpreter_new (Cost := CostType_usize) prm c = Some i /\
    exec (Cost := CostType_usize) (S (Z.to_nat (ap_gas prm))) (i, e) = Ret (Some r) s /\
    exec_ok_post (Cost := CostType_usize) (me := me) (trap_ready := trap_ready) cache_ok Inv e
      (ap_gas prm) (Some r) s.
Proof.
  destruct (interpreter_new_ready cost_mod_usize cache_ok Inv prm code c e Hact Hme Hc Hinv)
    as (i & Hi & Hrr & Hr & Hb).
  destruct Hact as [_ _ Hg _].
  pose proof (exec_terminates cost_mod_usize HK cache_ok stored Inv (S (Z.to_nat (ap_gas prm))) i e _
    (schedule_progress_ok _ Hprogress) Hr) as Hw.
  unfold steps_bound in Hw. rewrite Hb, Hrr in Hw. specialize (Hw ltac:(lia)). unfold wp in Hw.
  exists i. destruct (exec _ (i, e)) as [[r|] s|[]|]; [eauto|by destruct Hw|done].
Qed.

(** C23: a trapped execution accepts every result of the sub-execution it asked for (at most
    the gas it provided comes back) and is then ready to run again; its gas is what it kept
    and what came back, never more than it had before the call. *)
Theorem resume_safe {C E : Type} {DC : DestCache C} {K : Keccak} {X : Ext E}
    (cache_ok : C -> Prop) (Inv : E -> Prop) (me : Z)
    (i : Interp C) (e e' : E) (g : Gasometer) (t : TrapKind) (b : Z)
    (Htrap : trapped (Cost := CostType_usize) (me := me) cache_ok Inv i e g t b) (Hhost : host Inv e e')
    (Hb : b < U64_MOD) :
  match t with
  | TrapCall prm => forall res, call_result_ok (ap_gas prm) res ->
      exists i', resume_call (Cost := CostType_usize) i res = Some i' /\
        ready (Cost := CostType_usize) (me := me) cache_ok Inv i' e' g /\
        budget i' g = current_gas g + call_gas_back res /\ budget i' g <= b
  | TrapCreate prm a => forall res, create_result_ok (ap_gas prm) res ->
      exists i', resume_create (Cost := CostType_usize) i res = Some i' /\
        ready (Cost := CostType_usize) (me := me) cache_ok Inv i' e' g /\
        budget i' g = current_gas g + create_gas_back res /\ budget i' g <= b
  end.
Proof.
  pose proof Htrap as (_ & _ & _ & _ & _ & bound & Ht & Hle & _).
  destruct t as [prm|prm a]; intros res Hres.
  - destruct (resume_call_ok (me := me) cost_mod_usize cache_ok Inv i e e' g prm b res) as (i' & ? & ? & ?);
      try done. exists i'. split_and!; try done. destruct Ht as [[? ?] _], res; cbn in *; lia.
  - destruct (resume_create_ok (me := me) cost_mod_usize cache_ok Inv i e e' g prm a b res) as (i' & ? & ? & ?);
      try done. exists i'. split_and!; try done. destruct Ht as [? ?], res; cbn in *; lia.
Qed.

(** ** Concrete executions *)

Lemma th_keccak_ok b : is_u256 (keccak b).
Proof. apply is_u256_mod. Qed.

Definition th_cache_ok : MemoryLruCache (ListLru.t Z (list Z)) -> Prop :=
  cache_inv (fun _ => 1) ListLru.pairs.

Lemma th_cache_laws : DestCacheLaws _ th_cache_ok (memory_stored ListLru.pairs).
Proof. apply (memory_lru_dest_cache_laws (fun _ => 1)); [lia|apply _]. Qed.

Lemma th_cache_new : th_cache_ok (memory_cache_new 1000).
Proof. split_and!; cbn; first [lia|constructor|by vm_compute]. Qed.

Lemma th_action_ok gas code : is_bytes code -> zlen code < 2 ^ 63 -> 0 <= gas < U64_MOD ->
  action_ok (Cost := CostType_usize) (th_params gas code) code.
Proof.
  intros Hb Hl Hg. split; [done|done|done|].
  split; cbn; try done; range_lia.
Qed.

(** [PUSH1 2; PUSH1 3; ADD; PUSH1 0; SSTORE] with 30000 units of gas. *)
Definition sample_code : bytes := [0x60; 2; 0x60; 3; 0x01; 0x60; 0; 0x55].

Lemma sample_code_ok : is_bytes sample_code.
Proof. repeat constructor; range_lia. Qed.

Lemma execution_terminates_witness :
  exists i r s,
    interpreter_new (Cost := CostType_usize) (th_params 30000 sample_code) (memory_cache_new 1000)
      = Some i /\
    exec (Cost := CostType_usize) (S (Z.to_nat 30000)) (i, th_fresh) = Ret (Some r) s /\
    exec_ok_post (Cost := CostType_usize) (me := 0) (trap_ready := th_trap_ready) th_cache_ok
      TestHost_inv th_fresh 30000 (Some r) s.
Proof.
  apply (execution_terminates th_keccak_ok th_cache_ok (memory_stored ListLru.pairs) th_cache_laws
    TestHost_inv 0 th_affords th_trap_ready _ (th_params 30000 sample_code) sample_code).
  - apply th_action_ok; [apply sample_code_ok|reflexivity|range_lia].
  - reflexivity.
  - apply th_cache_new.
  - apply th_fresh_inv.
  - reflexivity.
Defined.

(** The initial state of such an execution. *)
Definition th_interp (gas : Z) (code : bytes) : Interp (MemoryLruCache (ListLru.t Z (list Z))) :=
  mkInterp [] (memory_cache_new 1000) (InterpreterParams_from (th_params gas code)) 0 code
    ReturnData_empty true false None (Some (gasometer_new gas)) [] None None 0.

Lemma th_ready gas code : is_bytes code -> zlen code < 2 ^ 63 -> 0 <= gas < U64_MOD ->
  ready (Cost := CostType_usize) (me := 0) th_cache_ok TestHost_inv (th_interp gas code) th_fresh
    (gasometer_new gas).
Proof.
  intros Hb Hl Hg.
  destruct (interpreter_new_ready cost_mod_usize th_cache_ok TestHost_inv (th_params gas code) code
    (memory_cache_new 1000) th_fresh (th_action_ok gas code Hb Hl Hg) eq_refl th_cache_new th_fresh_inv)
    as (i & Hi & _ & Hr & _).
  replace (th_interp gas code) with i; [exact Hr|].
  unfold interpreter_new in Hi. cbn [ap_code th_params mbind option_bind] in Hi.
  rewrite cl_from_u256 in Hi by (cbn; range_lia).
  rewrite (proj2 (Z.ltb_lt _ _)) in Hi by (cbn; range_lia). injection Hi as <-. reflexivity.
Qed.

Lemma step_safe_witness :
  exists r s, step (Cost := CostType_usize) (th_interp 30000 sample_code, th_fresh) = Ret r s /\
    step_post (Cost := CostType_usize) (me := 0) (trap_ready := th_trap_ready) th_cache_ok TestHost_inv (th_interp 30000 sample_code)
      th_fresh (budget (th_interp 30000 sample_code) (gasometer_new 30000)) r s.
Proof.
  apply (step_safe th_keccak_ok th_cache_ok (memory_stored ListLru.pairs) th_cache_laws TestHost_inv 0 th_affords th_trap_ready _
    (th_interp 30000 sample_code) th_fresh (gasometer_new 30000)).
  apply th_ready; [apply sample_code_ok|reflexivity|range_lia].
Defined.

Lemma instruction_safe_witness :
  match exec_instruction (Cost := CostType_usize) 100 ADD None
          (set_position 5 (set_stack [2; 3] (th_interp 100 sample_code)), th_fresh) with
  | Ret r s => zlen (i_stack (fst s)) = 1
  | _ => False
  end.
Proof.
  pose proof (instruction_safe th_keccak_ok TestHost_inv 0 th_affords th_trap_ready _
    (set_position 5 (set_stack [2; 3] (th_interp 100 sample_code))) th_fresh 100 ADD
    (mkInfo "ADD" 2 1 TierVeryLow) None) as H.
  assert (Hpre : exec_pre (Cost := CostType_usize) (me := 0) TestHost_inv
    (set_position 5 (set_stack [2; 3] (th_interp 100 sample_code))) th_fresh 100 ADD
    (mkInfo "ADD" 2 1 TierVeryLow) None).
  { destruct (th_ready 100 sample_code sample_code_ok eq_refl ltac:(range_lia)) as ([] & _).
    split; try done; try (repeat constructor; range_lia). }
  specialize (H Hpre). destruct H as (_ & _ & H & _). exact H.
Defined.

Lemma resume_safe_witness :
  exists i', resume_call (Cost := CostType_usize)
      (set_resume_output_range (Some (0, 0)) (th_interp 100 sample_code)) (CallSuccess 40 ReturnData_empty)
      = Some i' /\
    ready (Cost := CostType_usize) (me := 0) th_cache_ok TestHost_inv i' th_fresh (gasometer_new 100) /\
    budget i' (gasometer_new 100) = 100 + 40 /\ budget i' (gasometer_new 100) <= 151.
Proof.
  refine (resume_safe th_cache_ok TestHost_inv 0
    (set_resume_output_range (Some (0, 0)) (th_interp 100 sample_code)) th_fresh th_fresh
    (gasometer_new 100) (TrapCall (th_params 50 [])) 151 _ _ _ (CallSuccess 40 ReturnData_empty) _).
  - destruct (th_ready 100 sample_code sample_code_ok eq_refl ltac:(range_lia)) as (Hb & _).
    split_and!; try done.
    + by destruct Hb.
    + exists 50. split_and!; [|done|done]. split; [done|]. exists 0, 0. split_and!; try done; [range_lia..|by left].
  - split; [apply th_fresh_inv|done].
  - range_lia.
  - split; [done|apply return_data_empty_ok].
Defined.
