(* ===== verification/VmFactory.v ===== *)
(** * Virtual machines and their factory

    The traits [Exec], [ResumeCall] and [ResumeCreate] of [ethcore/vm/src/lib.rs] as a class,
    with what the executive relies on ([ExecLaws]); and [VmFactory] of
    [ethcore/src/factory.rs], which chooses between the EVM interpreter and the wasm
    engine. The interpreter meets the contract; the wasm engine is a parameter.

    The cache of jump destinations is shared with other threads: an interpreter starts from
    what the factory's cache holds when it is created, and its answers do not depend on it. *)

From S2P Require Import Prelude Schedule Instructions Vm CostType Gasometer Memory MemoryCache JumpTable Word Interpreter CopyData InterpreterSafety InterpreterStep.
From stdpp Require Import base numbers option strings list.

Open Scope Z_scope.
Open Scope origo_scope.

(** [ExecTrapResult]: an answer, or a trap with the machine to be resumed. *)
Inductive exec_outcome (X : Type) : Type :=
| ExecFinished (result : GasLeft + vm_error)
| ExecTrapped (trap : TrapKind) (resume : X).
Arguments ExecFinished {X} _.
Arguments ExecTrapped {X} _ _.

(** [exec] is run on fuel; [None] is its exhaustion. Resumption may panic. *)
Class Exec (E X : Type) : Type := {
  vm_exec : nat -> X -> M E Empty_set (option (exec_outcome X));
  vm_resume_call : X -> MessageCallResult -> option X;
  vm_resume_create : X -> ContractCreateResult -> option X;
}.

Definition trap_params (t : TrapKind) : ActionParams :=
  match t with TrapCall p | TrapCreate p _ => p end.

(** [vm_ready me Inv x e b]: the machine [x], acting for [me], may run on the host [e] with
    [b] units of gas. [vm_waiting me Inv x t e k]: it waits for the result of [t] and has
    kept [k] units. *)
Class ExecLaws {E X : Type} {EE : Ext E} {EV : Exec E X}
    (vm_ready : Z -> (E -> Prop) -> X -> E -> Z -> Prop)
    (vm_waiting : Z -> (E -> Prop) -> X -> TrapKind -> E -> Z -> Prop) : Prop := {
  el_exec : forall me Inv affords trap_ready, ExtLaws me Inv affords trap_ready ->
    forall x e b fuel, vm_ready me Inv x e b -> schedule_progress (ext_schedule e) = true ->
    b + 2 <= Z.of_nat fuel ->
    wp (vm_exec fuel x)
      (fun r e' => host Inv e e' /\
         match r with
         | Some (ExecFinished res) => gas_left_ok b res
         | Some (ExecTrapped t x') => trap_ready e' t /\ 0 <= ap_gas (trap_params t) /\
             exists k, 0 <= k /\ k + ap_gas (trap_params t) < b /\ vm_waiting me Inv x' t e' k
         | None => False
         end) (fun _ _ => False) e;
  el_resume_call : forall me Inv x p e e' k res, vm_waiting me Inv x (TrapCall p) e k ->
    host Inv e e' -> call_result_ok (ap_gas p) res ->
    exists x', vm_resume_call x res = Some x' /\ vm_ready me Inv x' e' (k + call_gas_back res);
  el_resume_create : forall me Inv x p a e e' k res, vm_waiting me Inv x (TrapCreate p a) e k ->
    host Inv e e' -> create_result_ok (ap_gas p) res ->
    exists x', vm_resume_create x res = Some x' /\ vm_ready me Inv x' e' (k + create_gas_back res);
}.

(** [VmFactory] as the executive uses it; creation may panic. *)
Class Factory (F X : Type) : Type :=
  vm_create : F -> ActionParams -> Schedule -> Z -> option X.

(** Factories in the state [factory_ok] make machines ready to run on the action's gas,
    under the schedules that [suits] describes. *)
Class FactoryLaws {E X F : Type} {EE : Ext E} {EV : Exec E X} {FA : Factory F X}
    (vm_ready : Z -> (E -> Prop) -> X -> E -> Z -> Prop)
    (factory_ok : F -> Prop) (suits : Schedule -> Prop) : Prop :=
  fl_create : forall me Inv affords trap_ready, ExtLaws me Inv affords trap_ready ->
    forall f p code sch depth e, factory_ok f -> suits sch ->
    ap_code p = Some code -> vec_ok code -> 0 <= ap_gas p < U64_MOD ->
    params_ok (InterpreterParams_from p) -> ap_address p = me -> Inv e ->
    exists x, vm_create f p sch depth = Some x /\ vm_ready me Inv x e (ap_gas p).

(** ** The factory *)

Definition WASM_MAGIC_NUMBER : bytes := [0; 0x61; 0x73; 0x6d].

Section Factory.
Context {C : Type} {DC : DestCache C} {K : Keccak}.
Context {E : Type} {X : Ext E}.

(** An interpreter with its cost type. *)
Record Evm : Type := mkEvm {
  evm_cost : CostType;
  evm_interp : Interp C;
}.

(** [Factory::create] of [ethcore/evm/src/factory.rs]. *)
Definition evm_create (evm_cache : C) (params : ActionParams) : option Evm :=
  let cost := factory_cost (ap_gas params) in
  i ← interpreter_new (Cost := cost) params evm_cache;
  Some (mkEvm cost i).

Definition evm_exec (fuel : nat) (x : Evm) : M E Empty_set (option (exec_outcome Evm)) :=
  fun e =>
    match exec (Cost := evm_cost x) fuel (evm_interp x, e) with
    | Ret (Some (ExecDone r)) (_, e') => Ret (Some (ExecFinished r)) e'
    | Ret (Some (ExecTrap t)) (i, e') => Ret (Some (ExecTrapped t (mkEvm (evm_cost x) i))) e'
    | Ret None (_, e') => Ret None e'
    | Throw err _ => match err with end
    | Panic => Panic
    end.

Definition evm_resume_call (x : Evm) (result : MessageCallResult) : option Evm :=
  i ← resume_call (Cost := evm_cost x) (evm_interp x) result; Some (mkEvm (evm_cost x) i).

Definition evm_resume_create (x : Evm) (result : ContractCreateResult) : option Evm :=
  i ← resume_create (Cost := evm_cost x) (evm_interp x) result; Some (mkEvm (evm_cost x) i).

(** The wasm engine. *)
Context {W : Type} {WE : Exec E W} (wasm_new : ActionParams -> W).

(** [Box<Exec>] *)
Inductive ExecBox : Type :=
| EvmBox (x : Evm)
| WasmBox (x : W).

Definition is_wasm (schedule : Schedule) (params : ActionParams) : bool :=
  match wasm schedule with
  | Some _ =>
      match ap_code params with
      | Some code => (4 <? zlen code) && bool_decide (take 4 code = WASM_MAGIC_NUMBER)
      | None => false
      end
  | None => false
  end.

(** [VmFactory::create] *)
Definition factory_create (evm_cache : C) (params : ActionParams) (schedule : Schedule) (depth : Z)
    : option ExecBox :=
  if is_wasm schedule params then Some (WasmBox (wasm_new params))
  else EvmBox <$> evm_create evm_cache params.

#[export] Instance ExecBox_Factory : Factory C ExecBox := factory_create.

Definition map_outcome {A B} (f : A -> B) (o : exec_outcome A) : exec_outcome B :=
  match o with ExecFinished r => ExecFinished r | ExecTrapped t x => ExecTrapped t (f x) end.

#[export] Instance ExecBox_Exec : Exec E ExecBox := {
  vm_exec fuel m :=
    match m with
    | EvmBox x => do r <- evm_exec fuel x in ret (map_outcome EvmBox <$> r)
    | WasmBox x => do r <- vm_exec fuel x in ret (map_outcome WasmBox <$> r)
    end;
  vm_resume_call m result :=
    match m with
    | EvmBox x => EvmBox <$> evm_resume_call x result
    | WasmBox x => WasmBox <$> vm_resume_call x result
    end;
  vm_resume_create m result :=
    match m with
    | EvmBox x => EvmBox <$> evm_resume_create x result
    | WasmBox x => WasmBox <$> vm_resume_create x result
    end;
}.

(** ** The interpreter keeps the contract of a machine *)

Context (HK : forall b, is_u256 (keccak b)).
Context (cache_ok : C -> Prop) (stored : C -> Z -> list Z -> Prop) {CDL : DestCacheLaws C cache_ok stored}.

Definition box_ready (me : Z) (Inv : E -> Prop) (m : ExecBox) (e : E) (b : Z) : Prop :=
  exists i g, m = EvmBox (mkEvm CostType_usize i) /\
    ready (Cost := CostType_usize) (me := me) cache_ok Inv i e g /\
    budget i g = b.

Definition box_waiting (me : Z) (Inv : E -> Prop) (m : ExecBox) (t : TrapKind) (e : E) (k : Z) : Prop :=
  exists i g b, m = EvmBox (mkEvm CostType_usize i) /\
    trapped (Cost := CostType_usize) (me := me) cache_ok Inv i e g t b /\
    b < U64_MOD /\ current_gas g = k.

Lemma box_exec_ok me Inv affords trap_ready (EL : ExtLaws me Inv affords trap_ready) m e b fuel :
  box_ready me Inv m e b -> schedule_progress (ext_schedule e) = true -> b + 2 <= Z.of_nat fuel ->
  wp (vm_exec fuel m)
    (fun r e' => host Inv e e' /\
       match r with
       | Some (ExecFinished res) => gas_left_ok b res
       | Some (ExecTrapped t x') => trap_ready e' t /\ 0 <= ap_gas (trap_params t) /\
           exists k, 0 <= k /\ k + ap_gas (trap_params t) < b /\ box_waiting me Inv x' t e' k
       | None => False
       end) (fun _ _ => False) e.
Proof.
  intros (i & g & -> & Hr & Hb) Hp Hf. apply schedule_progress_ok in Hp.
  pose proof (exec_terminates cost_mod_usize HK cache_ok stored Inv fuel i e g Hp Hr) as Hw.
  assert (Hs : steps_bound i g <= Z.of_nat fuel)
    by (unfold steps_bound; rewrite Hb; destruct (i_resume_result i); lia).
  specialize (Hw Hs). pose proof (budget_nonneg cache_ok Inv i e g Hr) as Hbn. rewrite Hb in Hw, Hbn.
  unfold wp in Hw |- *. cbn [vm_exec ExecBox_Exec]. unfold bind, evm_exec. cbn [evm_cost evm_interp].
  destruct (exec fuel (i, e)) as [[[r|t]|] [i' e']|[]|]; cbn; [| |by destruct Hw|done].
  - destruct Hw as [He [_ Hres]]. by split.
  - destruct Hw as [He [Htr [g' Htrap]]]. split; [done|]. split; [done|].
    pose proof Htrap as (Hbase & _ & _ & _ & _ & bound & Ht & Hle & Hlt).
    pose proof (gasometer_gas cache_ok Inv i' e' g' Hbase) as Hg.
    assert (Hgas : 0 <= ap_gas (trap_params t) <= bound) by (destruct t; [apply Ht|done]).
    assert (Hpr : progress_ok (ext_schedule e')) by (pose proof (host_schedule _ _ _ He) as Hsc; cbn in Hsc; by rewrite Hsc).
    specialize (Hlt Hpr). split; [lia|]. exists (current_gas g'). split_and!; [lia|lia|].
    exists i', g', b. split_and!; try done. cbn in Hbn. lia.
Qed.

#[export] Instance box_laws : ExecLaws box_ready box_waiting.
Proof.
  split.
  - exact box_exec_ok.
  - intros me Inv m p e e' k res (i & g & b & -> & Ht & Hb & <-) He Hres.
    destruct (resume_call_ok (me := me) cost_mod_usize cache_ok Inv i e e' g p b res Ht He Hb Hres)
      as (i' & Hi & Hr & Hbud).
    eexists. split; [cbn; unfold evm_resume_call; cbn; by rewrite Hi|]. by exists i', g.
  - intros me Inv m p a e e' k res (i & g & b & -> & Ht & Hb & <-) He Hres.
    destruct (resume_create_ok (me := me) cost_mod_usize cache_ok Inv i e e' g p a b res Ht He Hb Hres)
      as (i' & Hi & Hr & Hbud).
    eexists. split; [cbn; unfold evm_resume_create; cbn; by rewrite Hi|]. by exists i', g.
Qed.

(** A fresh interpreter may run with the gas of its action; wasm is not enabled. *)
#[export] Instance box_factory_laws : FactoryLaws box_ready cache_ok (fun sch => wasm sch = None).
Proof.
  intros me Inv affords trap_ready EL cache prm code sch depth e Hcache Hwasm Hc Hcok Hg Hpar Hme Hinv.
  unfold vm_create, ExecBox_Factory, factory_create, is_wasm. rewrite Hwasm.
  destruct (interpreter_new_ready cost_mod_usize cache_ok Inv prm code cache e) as (i & Hi & _ & Hr & Hb);
    [done|done|done|done|].
  unfold evm_create, factory_cost, can_fit_in_usize.
  replace (ap_gas prm =? low_u64 (ap_gas prm)) with true
    by (symmetry; apply Z.eqb_eq; unfold low_u64; by rewrite Z.mod_small).
  rewrite Hi. eexists. split; [done|]. by exists i, (gasometer_new (ap_gas prm)).
Qed.

End Factory.

Arguments Evm C : clear implicits.
Arguments ExecBox C W : clear implicits.
