(* ===== verification/Tracer.v ===== *)
(** * Tracers and machines

    The trait [Tracer] and [VMTracer] of [ethcore/src/trace/mod.rs] as classes, with the
    tracers of [noop_tracer.rs]; and what execution asks of [ethcore/src/machine/impls.rs]
    and [ethcore/src/builtin.rs].

    A tracer may panic when its calls are not balanced; [None] is a panic. *)

From S2P Require Import Prelude Schedule Vm.
From stdpp Require Import base numbers option strings gmap list.

Open Scope Z_scope.

(** ** Tracers *)

(** [Tracer]; [trace_reward] belongs to the closing of a block. *)
Class Tracer (T : Type) : Type := {
  tracer_output : Type;
  prepare_trace_call : ActionParams -> Z -> bool -> T -> option T;
  prepare_trace_create : ActionParams -> T -> option T;
  done_trace_call : Z -> bytes -> T -> option T;
  done_trace_create : Z -> bytes -> Z -> T -> option T;
  done_trace_failed : vm_error -> T -> option T;
  trace_suicide : Z -> Z -> Z -> T -> option T;
  tracer_drain : T -> list tracer_output;
}.

(** [VMTracer] *)
Class VMTracer (V : Type) : Type := {
  vm_tracer_output : Type;
  trace_next_instruction : Z -> Z -> Z -> V -> option (bool * V);
  trace_prepare_execute : Z -> Z -> Z -> option (Z * Z) -> option (Z * Z) -> V -> option V;
  trace_executed : Z -> list Z -> bytes -> V -> option V;
  prepare_subtrace : bytes -> V -> option V;
  done_subtrace : V -> option V;
  vm_tracer_drain : V -> option vm_tracer_output;
}.

(** Tracers that do not panic when calls and creates are balanced: [level n t] says that
    [n] of them are open. *)
Class TracerLaws {T : Type} {TR : Tracer T} (level : nat -> T -> Prop) : Prop := {
  tl_prepare_call : forall p d b n t, level n t ->
    exists t', prepare_trace_call p d b t = Some t' /\ level (S n) t';
  tl_prepare_create : forall p n t, level n t ->
    exists t', prepare_trace_create p t = Some t' /\ level (S n) t';
  tl_done_call : forall g o n t, level (S n) t ->
    exists t', done_trace_call g o t = Some t' /\ level n t';
  tl_done_create : forall g c a n t, level (S n) t ->
    exists t', done_trace_create g c a t = Some t' /\ level n t';
  tl_done_failed : forall e n t, level (S n) t ->
    exists t', done_trace_failed e t = Some t' /\ level n t';
  tl_suicide : forall a b r n t, level n t -> exists t', trace_suicide a b r t = Some t' /\ level n t';
}.

Class VMTracerLaws {V : Type} {VR : VMTracer V} (level : nat -> V -> Prop) : Prop := {
  vl_next_instruction : forall pc i g n v, level n v ->
    exists b v', trace_next_instruction pc i g v = Some (b, v') /\ level n v';
  vl_prepare_execute : forall pc i g m s n v, level n v ->
    exists v', trace_prepare_execute pc i g m s v = Some v' /\ level n v';
  vl_executed : forall g s m n v, level n v ->
    exists v', trace_executed g s m v = Some v' /\ level n v';
  vl_prepare_subtrace : forall c n v, level n v ->
    exists v', prepare_subtrace c v = Some v' /\ level (S n) v';
  vl_done_subtrace : forall n v, level (S n) v -> exists v', done_subtrace v = Some v' /\ level n v';
}.

Inductive NoopTracer : Type := mkNoopTracer.
Inductive NoopVMTracer : Type := mkNoopVMTracer.

#[export] Instance NoopTracer_Tracer : Tracer NoopTracer := {
  tracer_output := unit;
  prepare_trace_call _ _ _ t := Some t;
  prepare_trace_create _ t := Some t;
  done_trace_call _ _ t := Some t;
  done_trace_create _ _ _ t := Some t;
  done_trace_failed _ t := Some t;
  trace_suicide _ _ _ t := Some t;
  tracer_drain _ := [];
}.

(** The default methods of the trait. *)
#[export] Instance NoopVMTracer_VMTracer : VMTracer NoopVMTracer := {
  vm_tracer_output := unit;
  trace_next_instruction _ _ _ v := Some (false, v);
  trace_prepare_execute _ _ _ _ _ v := Some v;
  trace_executed _ _ _ v := Some v;
  prepare_subtrace _ v := Some v;
  done_subtrace v := Some v;
  vm_tracer_drain _ := None;
}.

#[export] Instance NoopTracer_laws : TracerLaws (T := NoopTracer) (fun _ _ => True).
Proof. split; eauto. Qed.

#[export] Instance NoopVMTracer_laws : VMTracerLaws (V := NoopVMTracer) (fun _ _ => True).
Proof. split; eauto. Qed.

(** ** Built-in contracts and the machine *)

(** [Builtin]: its pricer and its native implementation, which writes to an empty buffer. *)
Record Builtin : Type := mkBuiltin {
  bi_cost : bytes -> Z;
  bi_execute : bytes -> bytes + string;
  bi_activate_at : Z;
}.

Definition bi_is_active (b : Builtin) (at_ : Z) : bool := bi_activate_at b <=? at_.

(** The parameters of [EthereumMachine] that execution reads. *)
Record Machine : Type := mkMachine {
  ma_builtins : gmap Z Builtin;
  ma_eip210_transition : Z;
  ma_eip210_contract_address : Z;
  ma_eip210_contract_gas : Z;
}.

Definition machine_builtin (m : Machine) (a block_number : Z) : option Builtin :=
  b ← ma_builtins m !! a; if bi_is_active b block_number then Some b else None.

Definition create_address_scheme (m : Machine) (number : Z) : CreateContractAddress := FromSenderAndNonce.

(** What execution relies on: prices are words, outputs are vectors. *)
Definition machine_ok (m : Machine) : Prop :=
  forall a b, ma_builtins m !! a = Some b ->
    (forall d, 0 <= bi_cost b d) /\
    (forall d o, vec_ok d -> bi_execute b d = inl o -> vec_ok o).
