(* ===== verification/Externalities.v ===== *)
(** * Externalities

    [ethcore/src/externalities.rs]: the host of the virtual machine, over the state and the
    substate of an execution; with [contract_address] and the conversions of results of
    [ethcore/src/executive.rs].

    The four mutable references of an [Externalities] value are the record [Run]. A nested
    execution inside a host method (calls that do not trap, and the block hash contract of
    EIP-210) goes through the class [Executor], which the executive implements. *)

From S2P Require Import Prelude Schedule Vm CostType MemoryCache Account State Substate Transaction Tracer.
From stdpp Require Import base numbers option strings gmap list.

Open Scope Z_scope.
Open Scope origo_scope.

(** RLP of the list of a sender and a nonce. *)
Class RlpPair : Type := rlp_pair : Z -> Z -> bytes.

(** [Address::from] of a hash: its low 20 bytes. *)
Definition address_from_hash (h : Z) : Z := h mod U160_MOD.

(** [contract_address]: the address of a new contract and the hash of its code. *)
Definition contract_address {K : Keccak} {R : RlpPair} (address_scheme : CreateContractAddress)
    (sender nonce : Z) (code : bytes) : Z * option Z :=
  match address_scheme with
  | FromSenderAndNonce => (address_from_hash (keccak (rlp_pair sender nonce)), None)
  | FromSenderSaltAndCodeHash salt =>
      let code_hash := keccak code in
      let buffer := [0xff] ++ be_bytes 20 sender ++ be_bytes 32 salt ++ be_bytes 32 code_hash in
      (address_from_hash (keccak buffer), Some code_hash)
  | FromSenderAndCodeHash =>
      let code_hash := keccak code in
      let buffer := be_bytes 20 sender ++ be_bytes 32 code_hash in
      (address_from_hash (keccak buffer), Some code_hash)
  end.

Inductive OutputPolicy : Type := OutputReturn | OutputInitContract.

Record OriginInfo : Type := mkOriginInfo {
  oi_address : Z;
  oi_origin : Z;
  oi_gas_price : Z;
  oi_value : Z;
}.

(** [OriginInfo::from] *)
Definition OriginInfo_from (params : ActionParams) : OriginInfo :=
  mkOriginInfo (ap_address params) (ap_origin params) (ap_gas_price params)
    (action_value (ap_value params)).

Definition into_message_call_result (result : FinalizationResult + vm_error) : MessageCallResult :=
  match result with
  | inl r => if fr_apply_state r then CallSuccess (fr_gas_left r) (fr_return_data r)
             else CallReverted (fr_gas_left r) (fr_return_data r)
  | inr _ => CallFailed
  end.

(** The substate records the address of a contract that was created. *)
Definition into_contract_create_result (result : FinalizationResult + vm_error) (address : Z)
    (substate : Substate) : ContractCreateResult * Substate :=
  match result with
  | inl r =>
      if fr_apply_state r then
        (CreateCreated address (fr_gas_left r),
         set_contracts_created (ss_contracts_created substate ++ [address]) substate)
      else (CreateReverted (fr_gas_left r) (fr_return_data r), substate)
  | inr _ => (CreateFailed, substate)
  end.

(** The mutable references an execution works on. *)
Record Run (St T V : Type) : Type := mkRun {
  r_state : St;
  r_substate : Substate;
  r_tracer : T;
  r_vm_tracer : V;
}.
Arguments mkRun {St T V} _ _ _ _.
Arguments r_state {St T V} _.
Arguments r_substate {St T V} _.
Arguments r_tracer {St T V} _.
Arguments r_vm_tracer {St T V} _.

Section Run.
Context {St T V : Type}.

Definition set_state (v : St) (r : Run St T V) : Run St T V :=
  mkRun v (r_substate r) (r_tracer r) (r_vm_tracer r).
Definition set_substate (v : Substate) (r : Run St T V) : Run St T V :=
  mkRun (r_state r) v (r_tracer r) (r_vm_tracer r).
Definition set_tracer (v : T) (r : Run St T V) : Run St T V :=
  mkRun (r_state r) (r_substate r) v (r_vm_tracer r).
Definition set_vm_tracer (v : V) (r : Run St T V) : Run St T V :=
  mkRun (r_state r) (r_substate r) (r_tracer r) v.

End Run.

(** [Executive::new] or [Executive::from_parent] with the given depth and static flag,
    followed by [call_with_crossbeam] or [create_with_crossbeam]. *)
Class Executor (St T V : Type) : Type := {
  executor_call : EnvInfo -> Machine -> Schedule -> Z -> bool -> ActionParams -> Z ->
                  M (Run St T V) vm_error FinalizationResult;
  executor_create : EnvInfo -> Machine -> Schedule -> Z -> bool -> ActionParams -> Z ->
                    M (Run St T V) vm_error FinalizationResult;
}.

(** [Display] of [TrieError]. *)
Class ShowTrieError : Type := show_trie_error : trie_error -> string.

(** [impl From<TrieError> for vm::Error] *)
Definition vm_error_from {SH : ShowTrieError} (e : trie_error) : vm_error :=
  Internal ("Internal error: " +:+ show_trie_error e).

(** The result of a computation as a value; a panic is not caught. *)
Definition attempt {S Er Er' A} (m : M S Er A) : M S Er' (A + Er) :=
  fun s => match m s with
           | Ret a s' => Ret (inl a) s'
           | Throw e s' => Ret (inr e) s'
           | Panic => Panic
           end.

Section Externalities.
Context {L : Type} {LC : LruCache L Z Z} {K : Keccak} {R : RlpPair} {SH : ShowTrieError}.
Context {D B : Type} {DB : HashDb D} {BE : Backend B D (Account L)}.
Context {T V : Type} {TR : Tracer T} {VR : VMTracer V}.
Local Abbreviation St := (State L B).
Context {EX : Executor St T V}.

Record Externalities : Type := mkExternalities {
  x_run : Run St T V;
  x_env_info : EnvInfo;
  x_depth : Z;
  x_stack_depth : Z;
  x_origin_info : OriginInfo;
  x_machine : Machine;
  x_schedule : Schedule;
  x_output : OutputPolicy;
  x_static_flag : bool;
}.

Definition set_run (v : Run St T V) (x : Externalities) : Externalities :=
  mkExternalities v (x_env_info x) (x_depth x) (x_stack_depth x) (x_origin_info x) (x_machine x)
    (x_schedule x) (x_output x) (x_static_flag x).

(** A computation on the references of the externalities. *)
Definition on_run {Er A} (m : M (Run St T V) Er A) : M Externalities Er A :=
  fun x => match m (x_run x) with
           | Ret a r => Ret a (set_run r x)
           | Throw e r => Throw e (set_run r x)
           | Panic => Panic
           end.

(** A method of the state inside an execution. *)
Definition on_state {A} (m : M St trie_error A) : M (Run St T V) trie_error A :=
  fun r => match m (r_state r) with
           | Ret a s => Ret a (set_state s r)
           | Throw e s => Throw e (set_state s r)
           | Panic => Panic
           end.

(** The operator [?] on a result of the state. *)
Definition try_state {A} (m : M St trie_error A) : M (Run St T V) vm_error A :=
  do v <- attempt (on_state m) in
  match v with inl a => ret a | inr e => throw (vm_error_from e) end.

Definition lift_state {A} (m : M St trie_error A) : M Externalities vm_error A := on_run (try_state m).

Definition getx {Er A} (f : Externalities -> A) : M Externalities Er A := gets f.

Definition modify_substate {Er} (f : Substate -> Substate) : M Externalities Er unit :=
  on_run (modify (fun r => set_substate (f (r_substate r)) r)).

(** A method of the virtual machine tracer. *)
Definition on_vm_tracer {Er} (f : V -> option V) : M Externalities Er unit :=
  on_run (do r <- get in do v <- expect (f (r_vm_tracer r)) in modify (set_vm_tracer v)).

Definition my_address (x : Externalities) : Z := oi_address (x_origin_info x).

Definition x_initial_storage_at (key : Z) : M Externalities vm_error Z :=
  do address <- getx my_address in
  do unchanged <- lift_state (state_is_base_storage_root_unchanged address) in
  if unchanged : bool then
    do v <- lift_state (checkpoint_storage_at 0 address key) in
    ret (default 0 v)
  else ret 0.

Definition x_storage_at (key : Z) : M Externalities vm_error Z :=
  do address <- getx my_address in
  lift_state (state_storage_at address key).

Definition x_set_storage (key value : Z) : M Externalities vm_error unit :=
  do static <- getx x_static_flag in
  if static : bool then throw MutableCallInStaticContext
  else
    do address <- getx my_address in
    lift_state (state_set_storage address key value).

Definition x_balance (address : Z) : M Externalities vm_error Z := lift_state (balance address).

(** Code and code hash of an account. *)
Definition code_and_hash (address : Z) : M St trie_error (option bytes * option Z) :=
  do code <- state_code address in
  do hash <- state_code_hash address in
  ret (code, hash).

(** A state method whose error is handled by the caller. *)
Definition try_externalities {A} (m : M St trie_error A) : M Externalities Empty_set (A + trie_error) :=
  on_run (attempt (on_state m)).

(** The block hash contract of EIP-210. *)
Definition blockhash_contract (number : Z) : M Externalities Empty_set Z :=
  do x <- get in
  let address := ma_eip210_contract_address (x_machine x) in
  do code_res <- try_externalities (code_and_hash address) in
  match code_res with
  | inr _ => ret 0
  | inl (code, code_hash) =>
      let params := {|
        ap_sender := my_address x;
        ap_address := address;
        ap_value := Apparent (oi_value (x_origin_info x));
        ap_code_address := address;
        ap_origin := oi_origin (x_origin_info x);
        ap_gas := ma_eip210_contract_gas (x_machine x);
        ap_gas_price := 0;
        ap_code := code;
        ap_code_hash := code_hash;
        ap_data := Some (be_bytes 32 number);
        ap_call_type := CallCall;
        ap_params_type := Separate;
        ap_is_input_private := false;
        ap_is_output_private := false;
      |} in
      do stack_depth <- expect (usize_add (x_stack_depth x) 1) in
      do r <- on_run (attempt (executor_call (x_env_info x) (x_machine x) (x_schedule x) 0 false
                                 params stack_depth)) in
      match r with
      | inl r =>
          do data <- rd_deref (fr_return_data r) in
          do word <- expect (vec_slice data 0 32) in
          ret (be_value word)
      | inr _ => ret 0
      end
  end.

Definition x_blockhash (number : Z) : M Externalities Empty_set Z :=
  do x <- get in
  let env_number := ei_number (x_env_info x) in
  do horizon <- expect (usize_add env_number 256) in
  if ma_eip210_transition (x_machine x) <=? horizon then blockhash_contract number
  else if (number <? env_number) && (Z.max 256 env_number - 256 <=? low_u64 number) then
    let index := env_number - low_u64 number - 1 in
    assert_ (index <? zlen (ei_last_hashes (x_env_info x))) ;;;
    expect (vec_get (ei_last_hashes (x_env_info x)) index)
  else ret 0.

(** [create]: [inr] is the trap. *)
Definition x_create (gas value : Z) (code : bytes) (address_scheme : CreateContractAddress) (trap : bool)
    : M Externalities Empty_set (ContractCreateResult + TrapKind) :=
  do x <- get in
  do nonce <- try_externalities (nonce (my_address x)) in
  match nonce with
  | inr _ => ret (inl CreateFailed)
  | inl nonce =>
      let '(address, code_hash) := contract_address address_scheme (my_address x) nonce code in
      let params := {|
        ap_code_address := address;
        ap_address := address;
        ap_sender := my_address x;
        ap_origin := oi_origin (x_origin_info x);
        ap_gas := gas;
        ap_gas_price := oi_gas_price (x_origin_info x);
        ap_value := Transfer value;
        ap_code := Some code;
        ap_code_hash := code_hash;
        ap_data := None;
        ap_call_type := CallNone;
        ap_params_type := Embedded;
        ap_is_input_private := false;
        ap_is_output_private := false;
      |} in
      do incremented <-
        (if negb (x_static_flag x) &&
            (negb (keep_unsigned_nonce (x_schedule x)) || negb (ap_sender params =? UNSIGNED_SENDER))
         then try_externalities (state_inc_nonce (my_address x))
         else ret (inl tt)) in
      match incremented with
      | inr _ => ret (inl CreateFailed)
      | inl _ =>
          if trap then ret (inr (TrapCreate params address))
          else
            do depth <- expect (usize_add (x_depth x) 1) in
            do stack_depth <- expect (usize_add (x_stack_depth x) 1) in
            do out <- on_run (attempt (executor_create (x_env_info x) (x_machine x) (x_schedule x)
                                         depth (x_static_flag x) params stack_depth)) in
            do substate <- getx (fun x => r_substate (x_run x)) in
            let '(result, substate') := into_contract_create_result out address substate in
            modify_substate (fun _ => substate') ;;;
            ret (inl result)
      end
  end.

Definition x_call (gas sender_address receive_address : Z) (value : option Z) (data : bytes)
    (code_address : Z) (call_type : CallType) (trap : bool)
    : M Externalities Empty_set (MessageCallResult + TrapKind) :=
  do x <- get in
  do code_res <- try_externalities (code_and_hash code_address) in
  match code_res with
  | inr _ => ret (inl CallFailed)
  | inl (code, code_hash) =>
      let params := {|
        ap_sender := sender_address;
        ap_address := receive_address;
        ap_value := match value with
                    | Some value => Transfer value
                    | None => Apparent (oi_value (x_origin_info x))
                    end;
        ap_code_address := code_address;
        ap_origin := oi_origin (x_origin_info x);
        ap_gas := gas;
        ap_gas_price := oi_gas_price (x_origin_info x);
        ap_code := code;
        ap_code_hash := code_hash;
        ap_data := Some data;
        ap_call_type := call_type;
        ap_params_type := Separate;
        ap_is_input_private := false;
        ap_is_output_private := false;
      |} in
      if trap then ret (inr (TrapCall params))
      else
        do depth <- expect (usize_add (x_depth x) 1) in
        do stack_depth <- expect (usize_add (x_stack_depth x) 1) in
        do out <- on_run (attempt (executor_call (x_env_info x) (x_machine x) (x_schedule x)
                                     depth (x_static_flag x) params stack_depth)) in
        ret (inl (into_message_call_result out))
  end.

Definition x_ret (gas : Z) (data : ReturnData) (apply_state : bool) : M Externalities vm_error Z :=
  do x <- get in
  match x_output x with
  | OutputReturn => ret gas
  | OutputInitContract =>
      if apply_state then
        do data <- rd_deref data in
        let return_cost := zlen data * create_data_gas (x_schedule x) in
        if (gas <? return_cost) || (create_data_limit (x_schedule x) <? zlen data) then
          if exceptional_failed_code_deposit (x_schedule x) then throw OutOfGas else ret gas
        else
          lift_state (state_init_code (my_address x) data) ;;;
          expect (u256_sub gas return_cost)
      else ret gas
  end.

Definition x_log (topics : list Z) (data : bytes) : M Externalities vm_error unit :=
  do static <- getx x_static_flag in
  if static : bool then throw MutableCallInStaticContext
  else
    do address <- getx my_address in
    modify_substate (fun s => set_logs (ss_logs s ++ [mkLogEntry address topics data]) s).

(** A balance operation with the clean-up mode of the substate, which records the touched
    accounts. If the operation fails with an internal error, what it has recorded is not
    kept; the substate is dropped with the execution then. *)
Definition with_cleanup (schedule : Schedule) (m : CleanupMode -> M St trie_error CleanupMode)
    : M (Run St T V) vm_error unit :=
  do r <- get in
  do mode <- try_state (m (to_cleanup_mode (r_substate r) schedule)) in
  modify (fun r => set_substate (from_cleanup_mode mode (r_substate r)) r).

Definition x_suicide (refund_address : Z) : M Externalities vm_error unit :=
  do static <- getx x_static_flag in
  if static : bool then throw MutableCallInStaticContext
  else
    do x <- get in
    let address := my_address x in
    do bal <- x_balance address in
    (if address =? refund_address then lift_state (state_sub_balance address bal NoEmpty) ;;; ret tt
     else on_run (with_cleanup (x_schedule x) (transfer_balance address refund_address bal))) ;;;
    on_run (do r <- get in
            do t <- expect (trace_suicide address bal refund_address (r_tracer r)) in
            modify (set_tracer t)) ;;;
    modify_substate (fun s => set_suicides ({[address]} ∪ ss_suicides s) s).

#[export] Instance Externalities_Ext : Ext Externalities := {
  ext_initial_storage_at := x_initial_storage_at;
  ext_storage_at := x_storage_at;
  ext_set_storage := x_set_storage;
  ext_exists a := lift_state (exists_ a);
  ext_exists_and_not_null a := lift_state (exists_and_not_null a);
  ext_origin_balance := do address <- getx my_address in x_balance address;
  ext_balance := x_balance;
  ext_blockhash := x_blockhash;
  ext_create := x_create;
  ext_call := x_call;
  ext_extcode a := lift_state (state_code a);
  ext_extcodehash a := lift_state (state_code_hash a);
  ext_extcodesize a := lift_state (state_code_size a);
  ext_log := x_log;
  ext_ret := x_ret;
  ext_suicide := x_suicide;
  ext_schedule := x_schedule;
  ext_env_info := x_env_info;
  ext_depth := x_depth;
  ext_add_sstore_refund v :=
    modify_substate (fun s => set_refund (i128_add (ss_sstore_clears_refund s) v) s);
  ext_sub_sstore_refund v :=
    modify_substate (fun s => set_refund (i128_add (ss_sstore_clears_refund s) (- v)) s);
  ext_trace_next_instruction pc instruction gas :=
    on_run (do r <- get in
            do '(b, v) <- expect (trace_next_instruction pc instruction gas (r_vm_tracer r)) in
            modify (set_vm_tracer v) ;;; ret b);
  ext_trace_prepare_execute pc instruction gas_cost mem_written store_written :=
    on_vm_tracer (trace_prepare_execute pc instruction gas_cost mem_written store_written);
  ext_trace_executed gas_used stack_push mem := on_vm_tracer (trace_executed gas_used stack_push mem);
  ext_is_static := x_static_flag;
}.

End Externalities.

Arguments Externalities : clear implicits.
