(* ===== verification/ExternalitiesLaws.v ===== *)
(** * The externalities keep the interpreter's contract

    [Externalities] over a state that shows worlds meets [ExtLaws]: no method panics, each
    keeps the invariant [x_inv], and a call or create traps only with parameters from
    which the executive can start the sub-execution. *)

From S2P Require Import Prelude Schedule Instructions Vm CostType Gasometer Memory MemoryCache Account State StateSpec Worlds WorldLogic Substate JumpTable Interpreter InterpreterSafety Tracer Externalities.
From stdpp Require Import base numbers option strings gmap list.

Open Scope Z_scope.
Open Scope origo_scope.

(** Parameters of an action: words, addresses and vectors. *)
Record params_wf (p : ActionParams) : Prop := {
  pw_params : params_ok (InterpreterParams_from p);
  pw_code : opt_ok vec_ok (ap_code p);
}.

(** The sender's balance covers the value, unless the value is private. *)
Definition funded (w : world) (p : ActionParams) : Prop :=
  ap_is_input_private p = false -> forall v, ap_value p = Transfer v -> v <= balance_of w (ap_sender p).

(** What the host has prepared for a sub-execution. *)
Definition trap_params_ok (w : world) (t : TrapKind) : Prop :=
  match t with
  | TrapCall p => params_wf p /\ funded w p
  | TrapCreate p a => params_wf p /\ funded w p /\ ap_address p = a /\ is_Some (ap_code p)
  end.

(** Block number and recent hashes that [blockhash] can answer from, without the contract
    of EIP-210. *)
Definition hashes_ok (m : Machine) (i : EnvInfo) : Prop :=
  ei_number i + 256 < U64_MOD /\ ei_number i + 256 < ma_eip210_transition m /\
  Z.min 256 (ei_number i) <= zlen (ei_last_hashes i) /\ Forall is_u256 (ei_last_hashes i).

Section Laws.
Context {L : Type} {LC : LruCache L Z Z} {K : Keccak} {R : RlpPair} {SH : ShowTrieError}.
Context {D B : Type} {DB : HashDb D} {BE : Backend B D (Account L)}.
Context {T V : Type} {TR : Tracer T} {VR : VMTracer V} {EX : Executor (State L B) T V}.
Local Abbreviation St := (State L B).
Local Abbreviation Ex := (Externalities L B T V).

Context (HK : forall b, is_u256 (keccak b)) (start : Z) (Hstart : is_u256 start).
Context (sim : St -> world * list world -> Prop) {SL : StateLaws start sim}.
Context (tlevel : nat -> T -> Prop) {TL : TracerLaws tlevel}.
Context (vlevel : nat -> V -> Prop) {VL : VMTracerLaws vlevel}.

(** The references show the world [w] over the snapshots [ws], with [n] open traces. *)
Definition shows (ws : list world) (n : nat) (w : world) (r : Run St T V) : Prop :=
  sim (r_state r) (w, ws) /\ world_ok w /\ tlevel n (r_tracer r) /\ vlevel n (r_vm_tracer r).

(** What an [Externalities] value is created with. *)
Record externalities_wf (x : Ex) : Prop := {
  xw_schedule : schedule_wf (x_schedule x) = true;
  xw_env_info : env_info_ok (x_env_info x);
  xw_depth : 0 <= x_depth x;
  xw_address : is_address (my_address x);
  xw_origin : is_address (oi_origin (x_origin_info x));
  xw_gas_price : is_u256 (oi_gas_price (x_origin_info x));
  xw_value : is_u256 (oi_value (x_origin_info x));
  xw_hashes : hashes_ok (x_machine x) (x_env_info x);
}.

Context (x0 : Ex) (Hx0 : externalities_wf x0) (ws : list world) (Hws : Forall world_ok ws) (n : nat).

Definition x_inv (x : Ex) : Prop := x = set_run (x_run x) x0 /\ exists w, shows ws n w (x_run x).

Definition x_affords (x : Ex) (a v : Z) : Prop :=
  x = set_run (x_run x) x0 /\ exists w, shows ws n w (x_run x) /\ v <= balance_of w a.

Definition x_trap_ready (x : Ex) (t : TrapKind) : Prop :=
  x = set_run (x_run x) x0 /\ exists w, shows ws n w (x_run x) /\ trap_params_ok w t.

(** ** Rules *)

(** Applies a lemma of [WorldLogic] to this state. *)
Ltac does_by lem :=
  first [eapply (lem _ _ _ HK _ _ _ _ start Hstart sim _)
        |eapply (lem _ _ _ _ _ _ _ start sim _)]; [done|..]; try done.

Lemma wp_on_run {Er A} (m : M (Run St T V) Er A) (x : Ex) (Q : A -> Ex -> Prop) (P : Er -> Ex -> Prop) :
  wp m (fun a r => Q a (set_run r x)) (fun e r => P e (set_run r x)) (x_run x) -> wp (on_run m) Q P x.
Proof. unfold wp, on_run. by destruct (m (x_run x)). Qed.

Lemma wp_attempt_state {Er A} (m : M St trie_error A) (r : Run St T V) w
    (Q : A -> world -> Prop) (Q' : A + trie_error -> Run St T V -> Prop) (P : Er -> Run St T V -> Prop) :
  shows ws n w r -> does sim m w ws Q ->
  (forall a w' r', Q a w' -> shows ws n w' r' -> r_substate r' = r_substate r -> Q' (inl a) r') ->
  wp (attempt (on_state m)) Q' P r.
Proof.
  intros (Hs & Hw & Ht & Hv) Hm HQ. unfold wp, attempt, on_state.
  destruct (Hm _ Hs) as (a & s' & w' & -> & Hs' & Hw' & HQa). by apply (HQ a w').
Qed.

Lemma wp_try_state {A} (m : M St trie_error A) (r : Run St T V) w (Q : A -> world -> Prop)
    (Q' : A -> Run St T V -> Prop) (P : vm_error -> Run St T V -> Prop) :
  shows ws n w r -> does sim m w ws Q ->
  (forall a w' r', Q a w' -> shows ws n w' r' -> r_substate r' = r_substate r -> Q' a r') ->
  wp (try_state m) Q' P r.
Proof.
  intros Hsh Hm HQ. unfold try_state. wp_bind. eapply wp_attempt_state; [done..|].
  intros a w' r' HQa Hsh' Hss. apply wp_ret. eauto.
Qed.

(** The environment of externalities with the same references. *)
Lemma set_run_inv r w (x : Ex) : x = set_run (x_run x) x0 -> shows ws n w r -> x_inv (set_run r x) /\ same_env x (set_run r x).
Proof. intros -> Hsh. split; [|done]. split; [done|]. by exists w. Qed.

Lemma x_lift_state {A} (m : M St trie_error A) (Q : A -> Prop) :
  (forall w, world_ok w -> does sim m w ws (fun a _ => Q a)) -> method_ok x_inv Q (lift_state m).
Proof.
  intros Hm x [Hx (w & Hsh)]. apply wp_on_run.
  eapply wp_try_state; [exact Hsh|apply Hm, Hsh|]. intros a w' r' HQ Hsh' _.
  split; [done|]. by eapply set_run_inv.
Qed.

Lemma method_bind {Er A A'} {EK : ExecutionError Er} (m : M Ex Er A) (k : A -> M Ex Er A') (Q : A -> Prop) (Q' : A' -> Prop) :
  method_ok x_inv Q m -> (forall a, Q a -> method_ok x_inv Q' (k a)) -> method_ok x_inv Q' (bind m k).
Proof.
  intros Hm Hk x Hx. wp_bind. eapply wp_mono; [exact (Hm x Hx)| |done].
  intros a x' (HQ & Hx' & He). eapply wp_mono; [exact (Hk a HQ x' Hx')|..].
  - intros a' x2 (? & ? & He2). split_and!; [done|done|]. by eapply same_env_trans.
  - intros e x2 (? & ? & He2). split_and!; [done|done|]. by eapply same_env_trans.
Qed.

Lemma method_getx {Er A} {EK : ExecutionError Er} (f : Ex -> A) (Q : A -> Prop) :
  (forall x, x_inv x -> Q (f x)) -> method_ok x_inv Q (getx f : M Ex Er A).
Proof. intros HQ x Hx. apply wp_gets. split_and!; [by apply HQ|done|done]. Qed.

Lemma method_ret {Er A} {EK : ExecutionError Er} (a : A) (Q : A -> Prop) : Q a -> method_ok x_inv Q (ret a : M Ex Er A).
Proof. intros HQ x Hx. by apply wp_ret. Qed.

Lemma method_throw {A} (e : vm_error) (Q : A -> Prop) : proper e ->
  method_ok x_inv Q (throw e : M Ex vm_error A).
Proof. intros He x Hx. by apply wp_throw. Qed.

Lemma method_weaken {Er A} {EK : ExecutionError Er} (m : M Ex Er A) (Q Q' : A -> Prop) :
  method_ok x_inv Q m -> (forall a, Q a -> Q' a) -> method_ok x_inv Q' m.
Proof. intros Hm HQ x Hx. eapply wp_mono; [exact (Hm x Hx)| |done]. intros a x' (? & ?). auto. Qed.

(** A change of the substate or the tracers. *)
Lemma method_modify {Er} {EK : ExecutionError Er} (f : Run St T V -> Run St T V) :
  (forall w r, shows ws n w r -> shows ws n w (f r)) ->
  method_ok x_inv (fun _ => True) (on_run (modify f) : M Ex Er unit).
Proof.
  intros Hf x [Hx (w & Hsh)]. apply wp_on_run, wp_modify. split; [done|]. eapply set_run_inv; [done|by apply Hf].
Qed.

Lemma x_consts (x : Ex) : x = set_run (x_run x) x0 ->
  x_env_info x = x_env_info x0 /\ x_depth x = x_depth x0 /\ x_origin_info x = x_origin_info x0 /\
  x_machine x = x_machine x0 /\ x_schedule x = x_schedule x0 /\ x_output x = x_output x0 /\
  x_static_flag x = x_static_flag x0.
Proof. by intros ->. Qed.

Lemma my_address_ok x : x_inv x -> is_address (my_address x).
Proof. intros [Hx _]. unfold my_address. destruct (x_consts x Hx) as (_ & _ & -> & _). apply Hx0. Qed.

(** ** Methods *)

Lemma x_storage_at_ok k : method_ok x_inv is_u256 (x_storage_at k).
Proof.
  eapply method_bind; [by apply (method_getx _ (fun _ => True))|]. intros a _.
  apply x_lift_state. intros w Hw. does_by @does_storage_at. by apply view_storage_ok.
Qed.

Lemma x_initial_storage_at_ok k : method_ok x_inv is_u256 (x_initial_storage_at k).
Proof.
  eapply method_bind; [by apply (method_getx _ (fun _ => True))|]. intros a _.
  eapply method_bind; [apply (x_lift_state _ (fun _ => True)); intros w Hw; does_by @does_base_root|].
  intros [] _; [|apply method_ret; range_lia].
  eapply method_bind.
  - apply (x_lift_state _ (opt_ok is_u256)). intros w Hw. does_by @does_checkpoint_storage_at.
    intros r Hr. destruct r as [v|]; cbn; [by apply Hr|done].
  - intros [v|] Hv; apply method_ret; [done|cbn; range_lia].
Qed.

(** A method that is refused in a static context. *)
Lemma not_static_ok {A} (m : M Ex vm_error A) (Q : A -> Prop) : method_ok x_inv Q m ->
  method_ok x_inv Q (do static <- getx x_static_flag in
    if static : bool then throw MutableCallInStaticContext else m).
Proof.
  intros Hm. eapply method_bind; [by apply (method_getx _ (fun _ => True))|].
  intros [] _; [by apply method_throw|done].
Qed.

Lemma x_set_storage_ok k v : is_u256 v -> method_ok x_inv (fun _ => True) (x_set_storage k v).
Proof.
  intros Hv. apply not_static_ok.
  eapply method_bind; [apply (method_getx _ is_address), my_address_ok|]. intros a Ha.
  apply x_lift_state. intros w Hw. does_by @does_set_storage.
Qed.

Lemma x_balance_ok a : method_ok x_inv is_u256 (x_balance a).
Proof. apply x_lift_state. intros w Hw. does_by @does_balance. by apply balance_ok. Qed.

Lemma x_log_ok ts d : method_ok x_inv (fun _ => True) (x_log ts d).
Proof.
  apply not_static_ok. eapply method_bind; [by apply (method_getx _ (fun _ => True))|].
  intros a _. by apply method_modify.
Qed.

Lemma x_blockhash_ok k : is_u256 k -> method_ok x_inv is_u256 (x_blockhash k).
Proof.
  intros Hk x Hx. destruct (x_consts x (proj1 Hx)) as (Ei & _ & _ & Em & _).
  unfold x_blockhash. wp_bind. cbn. rewrite Ei, Em.
  pose proof (xw_hashes _ Hx0) as (Hn & He & Hl & Hh). pose proof (xw_env_info _ Hx0) as (Hnum & _).
  wp_bind. eapply wp_expect.
  { unfold usize_add. by rewrite (proj2 (Z.ltb_lt _ _)) by range_lia. }
  rewrite (proj2 (Z.leb_gt _ _)) by lia.
  destruct (_ && _) eqn:Hrange; [|apply wp_ret; split_and!; [range_lia|done|done]].
  apply andb_true_iff in Hrange as [H1%Z.ltb_lt H2%Z.leb_le].
  unfold low_u64 in *. rewrite Z.mod_small in * by range_lia.
  wp_bind. apply wp_assert; [apply Z.ltb_lt; range_lia|].
  destruct (vec_get_is_Some (ei_last_hashes (x_env_info x0)) (ei_number (x_env_info x0) - k - 1))
    as [h Hg]; [range_lia|].
  eapply wp_expect; [exact Hg|]. split_and!; [|done|done].
  rewrite Forall_forall in Hh. apply Hh. unfold vec_get in Hg. destruct (0 <=? _); [|done].
  by eapply list_elem_of_lookup_2.
Qed.

Lemma wp_with_cleanup sch m (r : Run St T V) w (Q : world -> Prop) (Q' : unit -> Run St T V -> Prop)
    (P : vm_error -> Run St T V -> Prop) :
  shows ws n w r -> (forall mode, does sim (m mode) w ws (fun _ w' => Q w')) ->
  (forall w' r', Q w' -> shows ws n w' r' -> same_effects (r_substate r) (r_substate r') -> Q' tt r') ->
  wp (with_cleanup sch m) Q' P r.
Proof.
  intros Hsh Hm HQ. unfold with_cleanup. wp_bind. cbn. wp_bind.
  eapply wp_try_state; [done|apply Hm|]. intros mode w' r' Hw' Hsh' Hss.
  apply wp_modify. apply (HQ w'); [done|done|]. cbn. rewrite Hss. apply from_cleanup_mode_effects.
Qed.

Lemma wp_trace_suicide {Er} a b c (r : Run St T V) w (Q : unit -> Run St T V -> Prop) (P : Er -> Run St T V -> Prop) :
  shows ws n w r -> (forall r', shows ws n w r' -> Q tt r') ->
  wp (do r <- get in do t <- expect (trace_suicide a b c (r_tracer r)) in modify (set_tracer t)) Q P r.
Proof.
  intros (Hs & Hw & Ht & Hv) HQ. wp_bind. cbn. wp_bind.
  destruct (tl_suicide a b c n (r_tracer r) Ht) as (t' & Htr & Ht').
  eapply wp_expect; [exact Htr|]. apply wp_modify. by apply HQ.
Qed.

(** Transfers of a whole balance. *)
Lemma does_suicide w a to mode : world_ok w -> is_address a -> is_address to ->
  does sim (transfer_balance a to (balance_of w a) mode) w ws (fun _ _ => True) /\
  does sim (state_sub_balance a (balance_of w a) mode) w ws (fun _ _ => True).
Proof.
  intros Hw Ha Hto. destruct (sub_balance_funded start w a (balance_of w a) mode) as (m & w' & Hsub); [done|].
  pose proof (balance_ok w a Hw) as [Hb _]. split.
  - eapply (does_transfer HK start Hstart sim); done.
  - eapply (does_sub_balance HK start Hstart sim); done.
Qed.

Lemma x_suicide_ok to : is_address to -> method_ok x_inv (fun _ => True) (x_suicide to).
Proof.
  intros Hto. apply not_static_ok. intros x [Hx (w & Hsh)]. pose proof (my_address_ok x (conj Hx (ex_intro _ w Hsh))) as Hme.
  wp_bind. cbn. wp_bind. apply wp_on_run. eapply wp_try_state with (Q := fun b w' => w' = w /\ b = balance_of w (my_address x)); [exact Hsh|..].
  { pose proof (proj1 (proj2 Hsh)). does_by @does_balance. }
  intros b w1 r1 [-> ->] Hsh1 _. wp_bind.
  apply wp_mono with (Q := fun _ x' => x' = set_run (x_run x') x /\ exists w', shows ws n w' (x_run x'))
    (R := fun _ _ => False); [| |done].
  - destruct (my_address x =? to).
    + wp_bind. apply wp_on_run.
      eapply wp_try_state; [exact Hsh1|apply (does_suicide w (my_address x) to NoEmpty); [apply Hsh|done..]|].
      intros m w2 r2 _ Hsh2 _. apply wp_ret. eauto.
    + apply wp_on_run. eapply (wp_with_cleanup _ _ _ w (fun _ => True)); [exact Hsh1|..].
      * intros mode. apply does_suicide; [apply Hsh|done..].
      * intros w2 r2 _ Hsh2 _. eauto.
  - intros _ x2 [Hx2 (w2 & Hsh2)]. wp_bind. apply wp_on_run. eapply wp_trace_suicide; [exact Hsh2|].
    intros r3 Hsh3. apply wp_on_run, wp_modify. split; [done|].
    assert (Hset : forall r, set_run r x2 = set_run r x) by (intros; by rewrite Hx2).
    change (x_inv (set_run (set_substate (set_suicides ({[my_address x]} ∪ ss_suicides (r_substate r3)) (r_substate r3)) r3) x2)
      /\ same_env x (set_run (set_substate (set_suicides ({[my_address x]} ∪ ss_suicides (r_substate r3)) (r_substate r3)) r3) x2)).
    rewrite Hset. by apply (set_run_inv _ w2).
Qed.

(** Results of [try_externalities]. *)
Lemma wp_try_externalities {A} (m : M St trie_error A) (x : Ex) w (Q : A -> world -> Prop)
    (Q' : A + trie_error -> Ex -> Prop) (P : Empty_set -> Ex -> Prop) :
  shows ws n w (x_run x) -> does sim m w ws Q ->
  (forall a w' r', Q a w' -> shows ws n w' r' -> Q' (inl a) (set_run r' x)) ->
  wp (try_externalities m) Q' P x.
Proof. intros Hsh Hm HQ. apply wp_on_run. eapply wp_attempt_state; eauto. Qed.

Lemma does_code_and_hash w a : world_ok w ->
  does sim (code_and_hash a) w ws (fun r w' => w' = w /\ opt_ok vec_ok (fst r)).
Proof.
  intros Hw. apply does_bind. does_by @does_some_code. intros c Hc. apply does_bind. does_by @does_code_hash.
  apply does_ret; [done|]. split; [done|]. cbn. destruct c; [by apply Hc|done].
Qed.

(** Calls trap with the parameters of the instruction and the code of the callee. *)
Lemma x_call_traps (x : Ex) w g s r v d c ct : shows ws n w (x_run x) ->
  wp (x_call g s r v d c ct true) (fun res x' => exists p r', res = inr (TrapCall p) /\ x' = set_run r' x /\
      shows ws n w r' /\ ap_gas p = g /\ ap_sender p = s /\ ap_address p = r /\ ap_data p = Some d /\
      ap_origin p = oi_origin (x_origin_info x) /\ ap_gas_price p = oi_gas_price (x_origin_info x) /\
      ap_value p = match v with Some v => Transfer v | None => Apparent (oi_value (x_origin_info x)) end /\
      ap_is_input_private p = false /\ ap_is_output_private p = false /\ opt_ok vec_ok (ap_code p))
    (fun _ _ => False) x.
Proof.
  intros Hsh. unfold x_call. wp_bind. cbn. wp_bind.
  eapply wp_try_externalities; [exact Hsh|apply does_code_and_hash, Hsh|].
  intros [code hash] w' r' [-> Hc] Hsh'. apply wp_ret. eexists _, r'. split; [done|]. by split_and!.
Qed.

Lemma x_call_ok g s r v d c ct : method_ok x_inv
  (fun x => match x with
            | inl (CallSuccess gl rd) => 0 <= gl <= g /\ return_data_ok rd
            | inl (CallReverted gl rd) => 0 <= gl <= g /\ return_data_ok rd
            | inl CallFailed => True
            | inr (TrapCall p) => ap_gas p = g
            | inr (TrapCreate _ _) => False
            end) (x_call g s r v d c ct true).
Proof.
  intros x [Hx (w & Hsh)]. eapply wp_mono; [exact (x_call_traps x w g s r v d c ct Hsh)| |done].
  intros res x' (p & r' & -> & -> & Hsh' & Hg & _). split; [done|]. by eapply set_run_inv.
Qed.

Lemma x_call_ready g s r v d c ct x : x_inv x -> call_args_ok s r v d c ->
  (forall a, v = Some a -> x_affords x s a) ->
  wp (x_call g s r v d c ct true) (fun res x' => forall t, res = inr t -> x_trap_ready x' t) (fun _ _ => True) x.
Proof.
  intros [Hx (w & Hsh)] (Hs & Hr & Hv & Hd & Hc) Haff.
  assert (Hw : exists w', shows ws n w' (x_run x) /\ forall a, v = Some a -> a <= balance_of w' s).
  { destruct v as [a|]; [|by exists w]. destruct (Haff a eq_refl) as (_ & w' & Hw' & Hle).
    exists w'. split; [done|]. by intros ? [= <-]. }
  destruct Hw as (w' & Hsh' & Hle).
  eapply wp_mono; [exact (x_call_traps x w' g s r v d c ct Hsh')| |done].
  intros res x' (p & r' & -> & -> & Hsh2 & Hg & Es & Ea & Ed & Eo & Egp & Ev & Ei & Eout & Ecode) t [= <-].
  destruct (x_consts x Hx) as (_ & _ & Eoi & _). rewrite Eoi in *. destruct Hx0.
  split; [by rewrite Hx|]. exists w'. split; [done|]. split.
  - split; try done. split; cbn; rewrite ?Es, ?Ea, ?Ed, ?Eo, ?Egp, ?Ev; try done. by destruct v.
  - intros _ a. rewrite Ev, Es. destruct v; [|done]. intros [= <-]. by apply Hle.
Qed.

(** Creates trap with a fresh address and the code as given. *)
Lemma x_create_traps (x : Ex) w g v c sch : is_address (my_address x) -> shows ws n w (x_run x) ->
  wp (x_create g v c sch true) (fun res x' => exists p a r' w', res = inr (TrapCreate p a) /\ x' = set_run r' x /\
      shows ws n w' r' /\ (forall b, balance_of w' b = balance_of w b) /\ ap_gas p = g /\
      ap_sender p = my_address x /\ ap_address p = a /\ is_address a /\ ap_data p = None /\
      ap_origin p = oi_origin (x_origin_info x) /\ ap_gas_price p = oi_gas_price (x_origin_info x) /\
      ap_value p = Transfer v /\ ap_is_input_private p = false /\ ap_is_output_private p = false /\
      ap_code p = Some c)
    (fun _ _ => False) x.
Proof.
  intros Hme Hsh. unfold x_create. wp_bind. cbn. wp_bind. pose proof (proj1 (proj2 Hsh)) as Hw.
  eapply wp_try_externalities with (Q := fun _ w' => w' = w); [exact Hsh|does_by @does_nonce|].
  intros nonce w1 r1 -> Hsh1.
  assert (Ha : is_address (fst (contract_address sch (my_address x) nonce c))).
  { destruct sch; cbn; unfold address_from_hash; apply Z.mod_pos_bound; done. }
  destruct (contract_address sch (my_address x) nonce c) as [a h]. cbn [fst] in Ha. wp_bind.
  apply wp_mono with (Q := fun res x' => res = inl tt /\ exists r' w', x' = set_run r' x /\
    shows ws n w' r' /\ forall b, balance_of w' b = balance_of w b) (R := fun _ _ => False); [| |done].
  - cbn [ap_sender]. case_bool; [|apply wp_ret; split; [done|]; by exists r1, w].
    eapply wp_try_externalities with (Q := fun _ w' => forall b, balance_of w' b = balance_of w b);
      [exact Hsh1|does_by @does_inc_nonce|].
    intros [] w2 r2 Hb2 Hsh2. split; [done|]. by exists r2, w2.
  - intros res x2 (-> & r2 & w2 & -> & Hsh2 & Hb2). apply wp_ret.
    eexists _, a, r2, w2. split; [done|]. split; [done|]. by split_and!.
Qed.

Lemma x_create_ok g v c sch : method_ok x_inv
  (fun r => match r with
            | inl (CreateCreated a gl) => is_address a /\ 0 <= gl <= g
            | inl (CreateReverted gl d) => 0 <= gl <= g /\ return_data_ok d
            | inl CreateFailed => True
            | inr (TrapCreate p _) => ap_gas p = g
            | inr (TrapCall _) => False
            end) (x_create g v c sch true).
Proof.
  intros x [Hx (w & Hsh)]. eapply wp_mono; [exact (x_create_traps x w g v c sch (my_address_ok x (conj Hx (ex_intro _ w Hsh))) Hsh)| |done].
  intros res x' (p & a & r' & w' & -> & -> & Hsh' & _ & Hg & _). split; [done|]. by eapply set_run_inv.
Qed.

Lemma x_create_ready g v c sch x : is_u256 v -> vec_ok c -> x_affords x (my_address x0) v ->
  wp (x_create g v c sch true) (fun res x' => forall t, res = inr t -> x_trap_ready x' t) (fun _ _ => True) x.
Proof.
  intros Hv Hc (Hx & w & Hsh & Hle).
  eapply wp_mono; [exact (x_create_traps x w g v c sch (my_address_ok x (conj Hx (ex_intro _ w Hsh))) Hsh)| |done].
  intros res x' (p & a & r' & w' & -> & -> & Hsh2 & Hb & Hg & Es & Ea & Haddr & Ed & Eo & Egp & Ev & Ei & Eout & Ecode)
    t [= <-].
  destruct (x_consts x Hx) as (_ & _ & Eoi & _). unfold my_address in *. rewrite Eoi in *. destruct Hx0.
  split; [by rewrite Hx|]. exists w'. split; [done|]. split_and!; [|..|by rewrite Ecode].
  - split; try done; [|by rewrite Ecode]. split; cbn; rewrite ?Es, ?Ea, ?Ed, ?Eo, ?Egp, ?Ev; done.
  - intros _ b. rewrite Ev, Es. intros [= <-]. by rewrite Hb.
  - done.
Qed.

(** Changes of the virtual machine tracer. *)
Lemma on_vm_tracer_ok {Er} {EK : ExecutionError Er} (f : V -> option V) :
  (forall v, vlevel n v -> exists v', f v = Some v' /\ vlevel n v') ->
  method_ok x_inv (fun _ => True) (on_vm_tracer f : M Ex Er unit).
Proof.
  intros Hf x [Hx (w & Hs & Hw & Ht & Hv)]. apply wp_on_run. wp_bind. cbn. wp_bind.
  destruct (Hf _ Hv) as (v' & Hfv & Hv'). eapply wp_expect; [exact Hfv|]. apply wp_modify.
  split; [done|]. by eapply (set_run_inv _ w).
Qed.

Lemma x_trace_next_ok {Er} {EK : ExecutionError Er} pc i g :
  method_ok x_inv (fun _ => True)
    (on_run (do r <- get in
             do '(b, v) <- expect (trace_next_instruction pc i g (r_vm_tracer r)) in
             modify (set_vm_tracer v) ;;; ret b) : M Ex Er bool).
Proof.
  intros x [Hx (w & Hs & Hw & Ht & Hv)]. apply wp_on_run. wp_bind. cbn. wp_bind.
  destruct (vl_next_instruction pc i g n (r_vm_tracer (x_run x)) Hv) as (b & v' & Htr & Hv').
  eapply wp_expect; [exact Htr|]. wp_bind. apply wp_modify, wp_ret.
  split; [done|]. by eapply (set_run_inv _ w).
Qed.

Lemma create_data_gas_nonneg : 0 <= create_data_gas (x_schedule x0).
Proof.
  pose proof (xw_schedule _ Hx0) as H. unfold schedule_wf in H.
  rewrite !andb_true_iff in H. destruct H as [[[[_ H] _] _] _]. cbn [forallb] in H.
  rewrite !andb_true_iff in H. unfold small_price in H. lia.
Qed.

(** Returning from an execution keeps at most the gas that was left. *)
Lemma x_ret_ok gas d apply_state : is_u256 gas -> return_data_ok d ->
  method_ok x_inv (fun g => 0 <= g <= gas) (x_ret gas d apply_state).
Proof.
  intros Hg Hd x Hx. destruct (x_consts x (proj1 Hx)) as (_ & _ & _ & _ & Es & _).
  pose proof (my_address_ok x Hx) as Hme. unfold x_ret. wp_bind. cbn.
  assert (Hall : wp (ret gas : M Ex vm_error Z) (fun a e' => 0 <= a <= gas /\ x_inv e' /\ same_env x e')
    (fun er e' => proper er /\ x_inv e' /\ same_env x e') x) by (apply wp_ret; split_and!; [range_lia..|done|done]).
  destruct (x_output x); [done|]. destruct apply_state; [|done]. wp_bind.
  apply wp_rd_deref; [done|]. intros Hb Hl Hlt. rewrite Es. case_bool.
  { destruct (exceptional_failed_code_deposit _); [by apply wp_throw|done]. }
  apply orb_false_iff in Hb0 as [Hcost%Z.ltb_ge _].
  pose proof create_data_gas_nonneg. pose proof (zlen_nonneg (rd_bytes d)).
  eapply (method_bind (lift_state _) _ (fun _ => True)); [..|done].
  - apply x_lift_state. intros w Hw. does_by @does_init_code. split; [done|lia].
  - intros _ _ x' Hx'. eapply wp_expect.
    { unfold u256_sub. by rewrite (proj2 (Z.leb_le _ _)) by lia. }
    split_and!; [nia..|done|done].
Qed.

#[export] Instance externalities_laws : ExtLaws (my_address x0) x_inv x_affords x_trap_ready.
Proof.
  split.
  - intros x [Hx _]. change (schedule_wf (x_schedule x) = true).
    destruct (x_consts x Hx) as (_ & _ & _ & _ & -> & _). apply Hx0.
  - intros x [Hx _]. change (env_info_ok (x_env_info x)). destruct (x_consts x Hx) as (-> & _). apply Hx0.
  - intros x [Hx _]. change (0 <= x_depth x). destruct (x_consts x Hx) as (_ & -> & _). apply Hx0.
  - apply x_initial_storage_at_ok.
  - apply x_storage_at_ok.
  - intros k v _ Hv. by apply x_set_storage_ok.
  - intros a. apply x_lift_state. intros w Hw. does_by @does_exists.
  - intros a. apply x_lift_state. intros w Hw. does_by @does_exists_and_not_null.
  - eapply method_bind; [by apply (method_getx _ (fun _ => True))|]. intros a _. apply x_balance_ok.
  - apply x_balance_ok.
  - apply x_blockhash_ok.
  - intros. apply x_create_ok.
  - intros. apply x_call_ok.
  - intros a. apply x_lift_state. intros w Hw. does_by @does_some_code. intros [c|] Hc; cbn; [by apply Hc|done].
  - intros a. apply x_lift_state. intros w Hw. does_by @does_code_hash.
    destruct (w a) as [v|] eqn:Ha; cbn; [by apply (Hw a)|done].
  - intros a. apply x_lift_state. intros w Hw. does_by @does_code_size. intros [k|] Hc; cbn; [|done].
    cbn in Hc. rewrite Hc. destruct (w a) as [v|] eqn:Ha; [|done]. apply vec_ok_lt, (Hw a v Ha).
  - apply x_log_ok.
  - apply x_suicide_ok.
  - intros v. by apply method_modify.
  - intros v. by apply method_modify.
  - intros. apply x_trace_next_ok.
  - intros. apply on_vm_tracer_ok. intros v. apply vl_prepare_execute.
  - intros. apply on_vm_tracer_ok. intros v. apply vl_executed.
  - intros a x [Hx (w & Hsh)]. apply wp_on_run. pose proof (proj1 (proj2 Hsh)) as Hw.
    eapply wp_try_state with (Q := fun b w' => w' = w /\ b = balance_of w a); [exact Hsh|does_by @does_balance|].
    intros b w1 r1 [-> ->] Hsh1 _. split; [by rewrite Hx|]. by exists w.
  - intros x a b v (Hx & w & Hsh & Hle) Hv. split; [done|]. exists w. split; [done|lia].
  - intros x a [Hx (w & Hsh)]. split; [done|]. exists w. split; [done|]. apply balance_ok, Hsh.
  - intros g v c sch x Hx Hg Hv Hc Haff. by apply x_create_ready.
  - intros g s r v d c ct x Hx Hg Hargs Haff. by apply x_call_ready.
Qed.

End Laws.
