(* ===== verification/Executive.v ===== *)
(** * The executive

    [CallCreateExecutive] and the calls of [Executive] of [ethcore/src/executive.rs]: the
    execution of a message call or contract creation, with its stack of suspended
    executions.

    Methods work on the record [Run]: the state, the substate of the caller and the two
    tracers. [exec] and the resumptions hand a machine fuel, and [None] is its exhaustion;
    [consume] spends one unit per iteration of its loop. *)

From S2P Require Import Prelude Schedule Vm CostType MemoryCache Account State Substate VmFactory Tracer Externalities.
From stdpp Require Import base numbers option strings gmap list.

Open Scope Z_scope.
Open Scope origo_scope.

Section Kinds.
Context {X F : Type}.

(** [CallCreateExecutiveKind] *)
Inductive CallCreateExecutiveKind : Type :=
| KindTransfer (params : ActionParams)
| KindCallBuiltin (params : ActionParams)
| KindExecCall (params : ActionParams) (unconfirmed_substate : Substate)
| KindExecCreate (params : ActionParams) (unconfirmed_substate : Substate)
| KindResumeCall (origin_info : OriginInfo) (resume : X) (unconfirmed_substate : Substate)
| KindResumeCreate (origin_info : OriginInfo) (resume : X) (unconfirmed_substate : Substate).

Record CallCreateExecutive : Type := mkCallCreateExecutive {
  ce_info : EnvInfo;
  ce_machine : Machine;
  ce_schedule : Schedule;
  ce_factory : F;
  ce_depth : Z;
  ce_stack_depth : Z;
  ce_static_flag : bool;
  ce_is_create : bool;
  ce_gas : Z;
  ce_kind : CallCreateExecutiveKind;
}.

Definition set_kind (v : CallCreateExecutiveKind) (e : CallCreateExecutive) : CallCreateExecutive :=
  mkCallCreateExecutive (ce_info e) (ce_machine e) (ce_schedule e) (ce_factory e) (ce_depth e)
    (ce_stack_depth e) (ce_static_flag e) (ce_is_create e) (ce_gas e) v.

(** [new_call_raw]; [None] is the panic on a built-in that is not active. *)
Definition new_call_raw (params : ActionParams) (info : EnvInfo) (machine : Machine) (schedule : Schedule)
    (factory : F) (depth stack_depth : Z) (parent_static_flag : bool) : option CallCreateExecutive :=
  let gas := ap_gas params in
  let static_flag := parent_static_flag ||
    match ap_call_type params with CallStaticCall => true | _ => false end in
  kind ← match machine_builtin machine (ap_code_address params) (ei_number info) with
         | Some builtin =>
             if bi_is_active builtin (ei_number info) then Some (KindCallBuiltin params) else None
         | None =>
             match ap_code params with
             | Some _ => Some (KindExecCall params substate_new)
             | None => Some (KindTransfer params)
             end
         end;
  Some (mkCallCreateExecutive info machine schedule factory depth stack_depth static_flag false gas kind).

Definition new_create_raw (params : ActionParams) (info : EnvInfo) (machine : Machine) (schedule : Schedule)
    (factory : F) (depth stack_depth : Z) (static_flag : bool) : CallCreateExecutive :=
  let gas := ap_gas params in
  let kind := KindExecCreate params substate_new in
  mkCallCreateExecutive info machine schedule factory depth stack_depth static_flag true gas kind.

(** [unconfirmed_substate] gives a mutable reference: a getter and a setter. *)
Definition unconfirmed_substate (e : CallCreateExecutive) : option Substate :=
  match ce_kind e with
  | KindExecCall _ unsub | KindExecCreate _ unsub
  | KindResumeCreate _ _ unsub | KindResumeCall _ _ unsub => Some unsub
  | KindTransfer _ | KindCallBuiltin _ => None
  end.

Definition set_unconfirmed_substate (v : Substate) (e : CallCreateExecutive) : CallCreateExecutive :=
  set_kind match ce_kind e with
           | KindExecCall p _ => KindExecCall p v
           | KindExecCreate p _ => KindExecCreate p v
           | KindResumeCreate o x _ => KindResumeCreate o x v
           | KindResumeCall o x _ => KindResumeCall o x v
           | k => k
           end e.

(** [ExecutiveTrapResult]: a result, or a trap with the executive to be resumed. *)
Inductive executive_result : Type :=
| Finished (result : FinalizationResult + vm_error)
| Trapped (trap : TrapKind) (resume : CallCreateExecutive).

End Kinds.
Arguments CallCreateExecutiveKind : clear implicits.
Arguments CallCreateExecutive : clear implicits.
Arguments executive_result : clear implicits.

(** Whether a call type transfers or may be static. *)
Definition check_static_flag (params : ActionParams) (static_flag is_create : bool) : unit + vm_error :=
  if is_create then
    if static_flag then inr MutableCallInStaticContext else inl tt
  else if static_flag &&
          match ap_call_type params with CallStaticCall | CallCall => true | _ => false end &&
          (0 <? action_value (ap_value params))
  then inr MutableCallInStaticContext else inl tt.

Section Executive.
Context {L : Type} {LC : LruCache L Z Z} {K : Keccak} {R : RlpPair} {SH : ShowTrieError}.
Context {D B : Type} {DB : HashDb D} {BE : Backend B D (Account L)}.
Context {T V : Type} {TR : Tracer T} {VR : VMTracer V}.
Local Abbreviation St := (State L B).
Local Abbreviation Rn := (Run St T V).
Context {EX : Executor St T V}.
Context {X F : Type} {EV : Exec (Externalities L B T V) X} {FA : Factory F X}.
Local Abbreviation Ce := (CallCreateExecutive X F).

(** ** Balances *)

Definition check_eip684 (params : ActionParams) : M Rn vm_error unit :=
  do b <- try_state (exists_and_has_code_or_nonce (ap_address params)) in
  if b : bool then throw OutOfGas else ret tt.

Definition transfer_exec_balance (params : ActionParams) (schedule : Schedule) : M Rn vm_error unit :=
  match ap_value params with
  | Transfer val =>
      match ap_is_input_private params, ap_is_output_private params with
      | false, false =>
          with_cleanup schedule (transfer_balance (ap_sender params) (ap_address params) val)
      | true, false =>
          with_cleanup schedule
            (transfer_balance_from_private_to_public (ap_sender params) (ap_address params) val)
      | false, true =>
          with_cleanup schedule
            (transfer_balance_from_public_to_private (ap_sender params) (ap_address params) val)
      | true, true => ret tt
      end
  | Apparent _ => ret tt
  end.

Definition transfer_exec_balance_and_init_contract (params : ActionParams) (schedule : Schedule)
    : M Rn vm_error unit :=
  let nonce_offset := if no_empty schedule then 1 else 0 in
  do prev_bal <- try_state (balance (ap_address params)) in
  match ap_value params with
  | Transfer val =>
      (if negb (ap_is_input_private params) then
         with_cleanup schedule (state_sub_balance (ap_sender params) val)
       else ret tt) ;;;
      try_state (state_new_contract (ap_address params) (u256_saturating_add val prev_bal) nonce_offset)
  | Apparent _ => try_state (state_new_contract (ap_address params) prev_bal nonce_offset)
  end.

(** ** Checkpoints *)

Definition modify_state {Er} (f : St -> St) : M Rn Er unit := modify (fun r => set_state (f (r_state r)) r).

Definition take_checkpoint {Er} : M Rn Er unit := modify_state (fun s => snd (checkpoint s)).

Definition enact_result (result : FinalizationResult + vm_error) (un_substate : Substate)
    : M Rn Empty_set unit :=
  let revert := modify_state revert_to_checkpoint in
  let apply := modify_state discard_checkpoint ;;;
               modify (fun r => set_substate (accrue (r_substate r) un_substate) r) in
  match result with
  | inr OutOfGas | inr (BadJumpDestination _) | inr (BadInstruction _) | inr (StackUnderflow _ _ _)
  | inr (BuiltIn _) | inr (Wasm _) | inr (OutOfStack _ _ _) | inr MutableCallInStaticContext
  | inr OutOfBounds | inr Reverted => revert
  | inl r => if fr_apply_state r then apply else revert
  | inr (Internal _) => apply
  end.

(** ** Running a machine *)

(** [as_externalities]: the references and the constants of the executive. *)
Definition as_externalities (self : Ce) (origin_info : OriginInfo) (output : OutputPolicy) (r : Rn)
    : Externalities L B T V :=
  mkExternalities r (ce_info self) (ce_depth self) (ce_stack_depth self) origin_info (ce_machine self)
    (ce_schedule self) output (ce_static_flag self).

(** The machine runs on externalities over the unconfirmed substate, and a result is
    finalised. *)
Definition run_machine (fuel : nat) (self : Ce) (origin_info : OriginInfo) (exec : X)
    (un_substate : Substate) (output : OutputPolicy)
    : M Rn Empty_set (option (exec_outcome X) * option (FinalizationResult + vm_error) * Substate) :=
  fun r =>
    let ext := as_externalities self origin_info output (set_substate un_substate r) in
    match (do out <- vm_exec fuel exec in
           match out with
           | Some (ExecFinished val) => do res <- attempt (finalize val) in ret (out, Some res)
           | _ => ret (out, None)
           end) ext with
    | Ret (out, res) ext' =>
        Ret (out, res, r_substate (x_run ext')) (set_substate (r_substate r) (x_run ext'))
    | Throw e _ => match e : Empty_set with end
    | Panic => Panic
    end.

(** What [exec], [resume_call] and [resume_create] do with a machine. *)
Definition run_and_enact (fuel : nat) (self : Ce) (origin_info : OriginInfo) (exec : X)
    (un_substate : Substate) (output : OutputPolicy) : M Rn Empty_set (option (executive_result X F)) :=
  do '(out, res, un_substate) <- run_machine fuel self origin_info exec un_substate output in
  match out, res with
  | Some (ExecTrapped (TrapCall subparams) resume), _ =>
      ret (Some (Trapped (TrapCall subparams)
                   (set_kind (KindResumeCall origin_info resume un_substate) self)))
  | Some (ExecTrapped (TrapCreate subparams address) resume), _ =>
      ret (Some (Trapped (TrapCreate subparams address)
                   (set_kind (KindResumeCreate origin_info resume un_substate) self)))
  | Some (ExecFinished _), Some res => enact_result res un_substate ;;; ret (Some (Finished res))
  | _, _ => ret None
  end.

(** ** Execution *)

Definition exec_transfer (self : Ce) (params : ActionParams) : M Rn vm_error FinalizationResult :=
  lift_result (check_static_flag params (ce_static_flag self) (ce_is_create self)) ;;;
  transfer_exec_balance params (ce_schedule self) ;;;
  ret (mkFinalizationResult (ap_gas params) true ReturnData_empty).

Definition exec_builtin (self : Ce) (params : ActionParams) : M Rn vm_error FinalizationResult :=
  do builtin <- expect (machine_builtin (ce_machine self) (ap_code_address params)
                          (ei_number (ce_info self))) in
  lift_result (check_static_flag params (ce_static_flag self) (ce_is_create self)) ;;;
  take_checkpoint ;;;
  transfer_exec_balance params (ce_schedule self) ;;;
  let data := default [] (ap_data params) in
  let cost := bi_cost builtin data in
  if cost <=? ap_gas params then
    match bi_execute builtin data with
    | inr e => modify_state revert_to_checkpoint ;;; throw (BuiltIn e)
    | inl builtin_out_buffer =>
        modify_state discard_checkpoint ;;;
        do gas_left <- expect (u256_sub (ap_gas params) cost) in
        ret (mkFinalizationResult gas_left true
               (mkReturnData builtin_out_buffer 0 (zlen builtin_out_buffer)))
    end
  else modify_state revert_to_checkpoint ;;; throw OutOfGas.

(** [pre_inner] of a call and of a create. *)
Definition prepare_call (self : Ce) (params : ActionParams) : M Rn vm_error unit :=
  lift_result (check_static_flag params (ce_static_flag self) (ce_is_create self)) ;;;
  take_checkpoint ;;;
  transfer_exec_balance params (ce_schedule self).

Definition prepare_create (self : Ce) (params : ActionParams) : M Rn vm_error unit :=
  check_eip684 params ;;;
  lift_result (check_static_flag params (ce_static_flag self) (ce_is_create self)) ;;;
  take_checkpoint ;;;
  transfer_exec_balance_and_init_contract params (ce_schedule self).

(** The common part of an executed call and create. *)
Definition exec_code (fuel : nat) (self : Ce) (params : ActionParams) (un_substate : Substate)
    (prepare : M Rn vm_error unit) (output : OutputPolicy)
    : M Rn Empty_set (option (executive_result X F)) :=
  do pre <- attempt prepare in
  match pre with
  | inr err => ret (Some (Finished (inr err)))
  | inl _ =>
      let origin_info := OriginInfo_from params in
      do exec <- expect (vm_create (ce_factory self) params (ce_schedule self) (ce_depth self)) in
      run_and_enact fuel self origin_info exec un_substate output
  end.

Definition exec_executive (fuel : nat) (self : Ce) : M Rn Empty_set (option (executive_result X F)) :=
  match ce_kind self with
  | KindTransfer params =>
      assert_ (negb (ce_is_create self)) ;;;
      do res <- attempt (exec_transfer self params) in ret (Some (Finished res))
  | KindCallBuiltin params =>
      assert_ (negb (ce_is_create self)) ;;;
      do res <- attempt (exec_builtin self params) in ret (Some (Finished res))
  | KindExecCall params un_substate =>
      assert_ (negb (ce_is_create self)) ;;;
      exec_code fuel self params un_substate (prepare_call self params) OutputReturn
  | KindExecCreate params un_substate =>
      assert_ (ce_is_create self) ;;;
      exec_code fuel self params un_substate (prepare_create self params) OutputInitContract
  | KindResumeCall _ _ _ | KindResumeCreate _ _ _ => panic
  end.

Definition resume_output (self : Ce) : OutputPolicy :=
  if ce_is_create self then OutputInitContract else OutputReturn.

Definition executive_resume_call (fuel : nat) (self : Ce) (result : MessageCallResult)
    : M Rn Empty_set (option (executive_result X F)) :=
  match ce_kind self with
  | KindResumeCall origin_info resume un_substate =>
      do exec <- expect (vm_resume_call resume result) in
      run_and_enact fuel self origin_info exec un_substate (resume_output self)
  | _ => panic
  end.

Definition executive_resume_create (fuel : nat) (self : Ce) (result : ContractCreateResult)
    : M Rn Empty_set (option (executive_result X F)) :=
  match ce_kind self with
  | KindResumeCreate origin_info resume un_substate =>
      do exec <- expect (vm_resume_create resume result) in
      run_and_enact fuel self origin_info exec un_substate (resume_output self)
  | _ => panic
  end.

(** ** Traces *)

Definition on_tracer {Er} (f : T -> option T) : M Rn Er unit :=
  do r <- get in do t <- expect (f (r_tracer r)) in modify (set_tracer t).

Definition on_subtracer {Er} (f : V -> option V) : M Rn Er unit :=
  do r <- get in do v <- expect (f (r_vm_tracer r)) in modify (set_vm_tracer v).

(** [params.code.as_ref().map_or_else(|| &[], |d| d)] *)
Definition code_or_empty (params : ActionParams) : bytes := default [] (ap_code params).

Definition trace_call_begins (params : ActionParams) (depth : Z) (is_builtin : bool) : M Rn Empty_set unit :=
  on_tracer (prepare_trace_call params depth is_builtin) ;;;
  on_subtracer (prepare_subtrace (code_or_empty params)).

Definition trace_create_begins (params : ActionParams) : M Rn Empty_set unit :=
  on_tracer (prepare_trace_create params) ;;;
  on_subtracer (prepare_subtrace (code_or_empty params)).

(** A trace of the result, with the trace of a success as given. *)
Definition trace_ends (gas : Z) (val : FinalizationResult + vm_error) (succeeded : Z -> bytes -> T -> option T)
    : M Rn Empty_set unit :=
  match val with
  | inl val =>
      if fr_apply_state val then
        do gas_used <- expect (u256_sub gas (fr_gas_left val)) in
        do output <- rd_deref (fr_return_data val) in
        on_tracer (succeeded gas_used output)
      else on_tracer (done_trace_failed Reverted)
  | inr err => on_tracer (done_trace_failed err)
  end ;;;
  on_subtracer done_subtrace.

Definition trace_call_ends (gas : Z) (val : FinalizationResult + vm_error) : M Rn Empty_set unit :=
  trace_ends gas val done_trace_call.

Definition trace_create_ends (gas : Z) (val : FinalizationResult + vm_error) (address : Z)
    : M Rn Empty_set unit :=
  trace_ends gas val (fun gas_used code => done_trace_create gas_used code address).

(** ** The loop of [consume] *)

(** The top of the call stack comes first. *)
Local Abbreviation Stack := (list (option Z * Ce)).
Local Abbreviation Last := (option (bool * Z * executive_result X F)).

(** Runs with the substate of the caller: that of the last executive on the stack, or
    the top substate. *)
Definition with_parent_substate {A} (callstack : Stack) (m : M Rn Empty_set A) : M Rn Empty_set (A * Stack) :=
  match callstack with
  | [] => do a <- m in ret (a, [])
  | (address, second_last) :: rest =>
      do parent_substate <- expect (unconfirmed_substate second_last) in
      do r <- get in
      modify (set_substate parent_substate) ;;;
      do a <- m in
      do r' <- get in
      modify (set_substate (r_substate r)) ;;;
      ret (a, (address, set_unconfirmed_substate (r_substate r') second_last) :: rest)
  end.

(** An execution whose answer becomes [last_res]. *)
Definition continue_with (self : Ce) (callstack : Stack) (m : M Rn Empty_set (option (executive_result X F)))
    : M Rn Empty_set (option (Last * Stack)) :=
  do '(res, callstack) <- with_parent_substate callstack m in
  ret (res ← res; Some (Some (ce_is_create self, ce_gas self, res), callstack)).

(** One iteration: the result of [consume], or the next [last_res] and [callstack]. *)
Definition consume_step (fuel : nat) (last_res : Last) (callstack : Stack)
    : M Rn Empty_set (option ((FinalizationResult + vm_error) + Last * Stack)) :=
  match last_res with
  | None =>
      match callstack with
      | (_, exec) :: callstack =>
          do next <- continue_with exec callstack (exec_executive fuel exec) in
          ret (inr <$> next)
      | [] => panic
      end
  | Some (is_create, gas, Finished val) =>
      match callstack with
      | (address, exec) :: callstack =>
          if is_create : bool then
            do address <- expect address in
            trace_create_ends gas val address ;;;
            do un_substate <- expect (unconfirmed_substate exec) in
            let '(contract_create_result, un_substate) :=
              into_contract_create_result val address un_substate in
            let exec := set_unconfirmed_substate un_substate exec in
            do next <- continue_with exec callstack
                         (executive_resume_create fuel exec contract_create_result) in
            ret (inr <$> next)
          else
            trace_call_ends gas val ;;;
            do next <- continue_with exec callstack
                         (executive_resume_call fuel exec (into_message_call_result val)) in
            ret (inr <$> next)
      | [] => ret (Some (inl val))
      end
  | Some (_, _, Trapped (TrapCall subparams) resume) =>
      do depth <- expect (usize_add (ce_depth resume) 1) in
      trace_call_begins subparams depth
        (match machine_builtin (ce_machine resume) (ap_address subparams) (ei_number (ce_info resume)) with
         | Some _ => true | None => false end) ;;;
      do sub_exec <- expect (new_call_raw subparams (ce_info resume) (ce_machine resume)
                               (ce_schedule resume) (ce_factory resume) depth (ce_stack_depth resume)
                               (ce_static_flag resume)) in
      ret (Some (inr (None, (None, sub_exec) :: (None, resume) :: callstack)))
  | Some (_, _, Trapped (TrapCreate subparams address) resume) =>
      trace_create_begins subparams ;;;
      do depth <- expect (usize_add (ce_depth resume) 1) in
      let sub_exec := new_create_raw subparams (ce_info resume) (ce_machine resume)
                        (ce_schedule resume) (ce_factory resume) depth (ce_stack_depth resume)
                        (ce_static_flag resume) in
      ret (Some (inr (None, (None, sub_exec) :: (Some address, resume) :: callstack)))
  end.

Fixpoint consume_loop (n fuel : nat) (last_res : Last) (callstack : Stack)
    : M Rn Empty_set (option (FinalizationResult + vm_error)) :=
  match n with
  | O => ret None
  | S n =>
      do next <- consume_step fuel last_res callstack in
      match next with
      | None => ret None
      | Some (inl val) => ret (Some val)
      | Some (inr (last_res, callstack)) => consume_loop n fuel last_res callstack
      end
  end.

Definition consume (fuel : nat) (self : Ce) : M Rn Empty_set (option (FinalizationResult + vm_error)) :=
  do res <- exec_executive fuel self in
  match res with
  | None => ret None
  | Some res => consume_loop fuel fuel (Some (false, ce_gas self, res)) []
  end.

(** ** Calls and creates of [Executive] *)

(** [Executive]; its state is that of the run. [vm_factory] is the factory of the state. *)
Record Executive : Type := mkExecutive {
  ev_info : EnvInfo;
  ev_machine : Machine;
  ev_schedule : Schedule;
  ev_depth : Z;
  ev_static_flag : bool;
  ev_vm_factory : F;
}.

(** [Executive::new] *)
Definition executive_new (info : EnvInfo) (machine : Machine) (schedule : Schedule) (factory : F) : Executive :=
  mkExecutive info machine schedule 0 false factory.

Definition call_with_stack_depth (fuel : nat) (self : Executive) (params : ActionParams) (stack_depth : Z)
    : M Rn Empty_set (option (FinalizationResult + vm_error)) :=
  trace_call_begins params (ev_depth self)
    (match machine_builtin (ev_machine self) (ap_address params) (ei_number (ev_info self)) with
     | Some _ => true | None => false end) ;;;
  let gas := ap_gas params in
  do exec <- expect (new_call_raw params (ev_info self) (ev_machine self) (ev_schedule self)
                       (ev_vm_factory self) (ev_depth self) stack_depth (ev_static_flag self)) in
  do result <- consume fuel exec in
  match result with
  | None => ret None
  | Some result => trace_call_ends gas result ;;; ret (Some result)
  end.

Definition create_with_stack_depth (fuel : nat) (self : Executive) (params : ActionParams) (stack_depth : Z)
    : M Rn Empty_set (option (FinalizationResult + vm_error)) :=
  trace_create_begins params ;;;
  let address := ap_address params in
  let gas := ap_gas params in
  do result <- consume fuel (new_create_raw params (ev_info self) (ev_machine self) (ev_schedule self)
                               (ev_vm_factory self) (ev_depth self) stack_depth (ev_static_flag self)) in
  match result with
  | None => ret None
  | Some result => trace_create_ends gas result address ;;; ret (Some result)
  end.

(** [call] and [create] *)
Definition executive_call (fuel : nat) (self : Executive) (params : ActionParams)
    : M Rn Empty_set (option (FinalizationResult + vm_error)) := call_with_stack_depth fuel self params 0.

Definition executive_create (fuel : nat) (self : Executive) (params : ActionParams)
    : M Rn Empty_set (option (FinalizationResult + vm_error)) := create_with_stack_depth fuel self params 0.

(** The variants that move to a thread with a larger stack at one depth: the same
    execution. *)
Definition call_with_crossbeam (fuel : nat) (self : Executive) (params : ActionParams) (stack_depth : Z)
    : M Rn Empty_set (option (FinalizationResult + vm_error)) :=
  call_with_stack_depth fuel self params stack_depth.

Definition create_with_crossbeam (fuel : nat) (self : Executive) (params : ActionParams) (stack_depth : Z)
    : M Rn Empty_set (option (FinalizationResult + vm_error)) :=
  create_with_stack_depth fuel self params stack_depth.

(** An execution as the externalities use it; out of fuel, it has no answer. *)
Definition as_result (m : M Rn Empty_set (option (FinalizationResult + vm_error)))
    : M Rn vm_error FinalizationResult :=
  fun r => match m r with
           | Ret (Some (inl v)) r' => Ret v r'
           | Ret (Some (inr e)) r' => Throw e r'
           | Ret None _ | Panic => Panic
           | Throw e _ => match e : Empty_set with end
           end.

Definition executive_executor (fuel : nat) (factory : F) : Executor St T V := {|
  executor_call info machine schedule depth static_flag params stack_depth :=
    as_result (call_with_crossbeam fuel
      (mkExecutive info machine schedule depth static_flag factory) params stack_depth);
  executor_create info machine schedule depth static_flag params stack_depth :=
    as_result (create_with_crossbeam fuel
      (mkExecutive info machine schedule depth static_flag factory) params stack_depth);
|}.

End Executive.
Arguments Executive : clear implicits.

(** ** Nesting

    The executive is the [Executor] of its own externalities: [n] bounds how deep the
    executions that do not trap are nested. *)
Section Nesting.
Context {L : Type} {LC : LruCache L Z Z} {K : Keccak} {R : RlpPair} {SH : ShowTrieError}.
Context {D B : Type} {DB : HashDb D} {BE : Backend B D (Account L)}.
Context {T V : Type} {TR : Tracer T} {VR : VMTracer V}.
Context {X F : Type} (EV : Executor (State L B) T V -> Exec (Externalities L B T V) X) {FA : Factory F X}.

Definition no_executor : Executor (State L B) T V := {|
  executor_call _ _ _ _ _ _ _ := panic;
  executor_create _ _ _ _ _ _ _ := panic;
|}.

Fixpoint nested_executor (n fuel : nat) (factory : F) : Executor (State L B) T V :=
  match n with
  | O => no_executor
  | S n =>
      let EX := nested_executor n fuel factory in
      executive_executor (EX := EX) (EV := EV EX) fuel factory
  end.

End Nesting.
