(* ===== verification/ExecutiveSafety.v ===== *)
(** * Executions finish and are atomic

    For the executive over a state that shows worlds, a machine that meets [ExecLaws] and
    balanced tracers: [exec] and the resumptions never panic; a result has at most the gas
    the execution was started with, and a failed one leaves the world as it found it; a trap
    leaves less gas than the execution had. Hence [consume] ends. *)

From S2P Require Import Prelude Schedule Instructions Vm CostType Gasometer Memory MemoryCache Account State StateSpec Worlds WorldLogic Substate JumpTable Interpreter InterpreterSafety InterpreterStep VmFactory Tracer Externalities ExternalitiesLaws Executive.
From stdpp Require Import base numbers option strings gmap list.

Open Scope Z_scope.
Open Scope origo_scope.

(** ** Results *)

(** The execution had no effect: an error, or a reverted state. *)
Definition failed (res : FinalizationResult + vm_error) : Prop :=
  match res with inl r => fr_apply_state r = false | inr _ => True end.

Definition result_ok (gas : Z) (res : FinalizationResult + vm_error) : Prop :=
  match res with
  | inl r => 0 <= fr_gas_left r <= gas /\ return_data_ok (fr_return_data r)
  | inr er => proper er
  end.

Lemma result_ok_mono g g' res : g <= g' -> result_ok g res -> result_ok g' res.
Proof. destruct res; cbn; [|done]. intros ? [? ?]. split; [lia|done]. Qed.

Definition gas_of (res : FinalizationResult + vm_error) : Z :=
  match res with inl r => fr_gas_left r | inr _ => 0 end.

Lemma call_result_back g res : 0 <= g -> result_ok g res ->
  call_result_ok g (into_message_call_result res) /\
  call_gas_back (into_message_call_result res) = gas_of res.
Proof. destruct res as [r|]; cbn; [|done]. by destruct (fr_apply_state r). Qed.

Lemma create_result_back g res a s : 0 <= g -> is_address a -> result_ok g res ->
  create_result_ok g (fst (into_contract_create_result res a s)) /\
  create_gas_back (fst (into_contract_create_result res a s)) = gas_of res.
Proof. destruct res as [r|]; cbn; [|done]. intros ? ? [? ?]. by destruct (fr_apply_state r). Qed.

Section Safety.
Context {L : Type} {LC : LruCache L Z Z} {K : Keccak} {R : RlpPair} {SH : ShowTrieError}.
Context {D B : Type} {DB : HashDb D} {BE : Backend B D (Account L)}.
Context {T V : Type} {TR : Tracer T} {VR : VMTracer V} {EX : Executor (State L B) T V}.
Local Abbreviation St := (State L B).
Local Abbreviation Rn := (Run St T V).
Local Abbreviation Ex := (Externalities L B T V).
Context {X F : Type} {EV : Exec Ex X} {FA : Factory F X}.
Local Abbreviation Ce := (CallCreateExecutive X F).

Context (HK : forall b, is_u256 (keccak b)) (start : Z) (Hstart : 0 <= start < U256_MOD - 1).
Context (sim : St -> world * list world -> Prop) {SL : StateLaws start sim}.
Context (tlevel : nat -> T -> Prop) {TL : TracerLaws tlevel}.
Context (vlevel : nat -> V -> Prop) {VL : VMTracerLaws vlevel}.
Context (vm_ready : Z -> (Ex -> Prop) -> X -> Ex -> Z -> Prop).
Context (vm_waiting : Z -> (Ex -> Prop) -> X -> TrapKind -> Ex -> Z -> Prop).
Context {XL : ExecLaws vm_ready vm_waiting}.
Context (factory_ok : F -> Prop) (suits : Schedule -> Prop) {FL : FactoryLaws vm_ready factory_ok suits}.

Local Abbreviation shows := (shows sim tlevel vlevel).
Local Abbreviation x_inv := (x_inv sim tlevel vlevel).

Lemma start_u256 : is_u256 start.
Proof. range_lia. Qed.

(** ** Checkpoints *)

Lemma shows_checkpoint ws n w (r : Rn) : shows ws n w r ->
  shows (w :: ws) n w (set_state (snd (checkpoint (r_state r))) r).
Proof.
  intros (Hs & Hrest). split; [|done]. destruct (sl_op (r_state r) (w, ws) OpCheckpoint _ _ Hs eq_refl)
    as (s' & Hr & Hs'). cbn in Hr. injection Hr as _ Hr. cbn. by rewrite Hr.
Qed.

Lemma shows_discard ws n w w1 (r : Rn) : shows (w1 :: ws) n w r ->
  shows ws n w (set_state (discard_checkpoint (r_state r)) r).
Proof.
  intros (Hs & Hrest). split; [|done]. destruct (sl_op (r_state r) (w, w1 :: ws) OpDiscard _ _ Hs eq_refl)
    as (s' & Hr & Hs'). cbn in Hr. injection Hr as Hr. cbn. by rewrite Hr.
Qed.

Lemma shows_revert ws n w w1 (r : Rn) : world_ok w1 -> shows (w1 :: ws) n w r ->
  shows ws n w1 (set_state (revert_to_checkpoint (r_state r)) r).
Proof.
  intros Hw1 (Hs & _ & Ht & Hv). destruct (sl_op (r_state r) (w, w1 :: ws) OpRevert _ _ Hs eq_refl)
    as (s' & Hr & Hs'). cbn in Hr. injection Hr as Hr. split_and!; [|done..]. cbn. by rewrite Hr.
Qed.

Lemma shows_substate ws n w (r : Rn) s : shows ws n w r -> shows ws n w (set_substate s r).
Proof. done. Qed.

(** The effect of [enact_result] on a result over the snapshot [w1]. *)
Lemma enact_result_ok ws n w w1 (r : Rn) res un (P : Empty_set -> Rn -> Prop) :
  world_ok w1 -> shows (w1 :: ws) n w r -> match res with inr er => proper er | _ => True end ->
  wp (enact_result res un)
    (fun _ r' => exists w', shows ws n w' r' /\ extends (r_substate r) (r_substate r') /\
      (failed res -> w' = w1 /\ r_substate r' = r_substate r) /\ (~ failed res -> w' = w)) P r.
Proof.
  intros Hw1 Hsh Hp.
  assert (Hrev : failed res -> wp (modify_state revert_to_checkpoint)
    (fun _ r' => exists w', shows ws n w' r' /\ extends (r_substate r) (r_substate r') /\
      (failed res -> w' = w1 /\ r_substate r' = r_substate r) /\ (~ failed res -> w' = w)) P r).
  { intros Hf. apply wp_modify. exists w1. split; [by eapply shows_revert|]. done. }
  unfold enact_result. destruct res as [v|er]; [|destruct er; try by apply Hrev]; [|by destruct Hp].
  destruct (fr_apply_state v) eqn:Ha; [|by apply Hrev].
  wp_bind. apply wp_modify, wp_modify. exists w. split; [by apply shows_substate, (shows_discard _ _ _ w1)|].
  split; [apply extends_accrue|]. cbn. rewrite Ha. done.
Qed.

(** ** Executives *)

(** What an executive is created with. Depth and gas are bounded together: each level of
    calls spends gas. *)
Record executive_wf (self : Ce) : Prop := {
  ew_schedule : schedule_wf (ce_schedule self) = true;
  ew_progress : schedule_progress (ce_schedule self) = true;
  ew_suits : suits (ce_schedule self);
  ew_info : env_info_ok (ce_info self);
  ew_hashes : hashes_ok (ce_machine self) (ce_info self);
  ew_machine : machine_ok (ce_machine self);
  ew_factory : factory_ok (ce_factory self);
  ew_depth : 0 <= ce_depth self;
  ew_gas : 0 <= ce_gas self;
  ew_bound : ce_depth self + ce_gas self < U64_MOD;
}.

(** [x0] has the constants of the externalities of an executive. *)
Definition belongs (x0 : Ex) (self : Ce) (oi : OriginInfo) : Prop :=
  externalities_wf x0 /\ forall r, as_externalities self oi (resume_output self) r = set_run r x0.

Definition resume_kind (t : TrapKind) (oi : OriginInfo) (x : X) (un : Substate) : CallCreateExecutiveKind X :=
  match t with
  | TrapCall _ => KindResumeCall oi x un
  | TrapCreate _ _ => KindResumeCreate oi x un
  end.

(** A suspended executive, which waits for the result of [t] and has kept [k] units of gas. *)
Definition paused (self : Ce) (t : TrapKind) (ws : list world) (n : nat) (k : Z) : Prop :=
  exists oi x un x0 e, ce_kind self = resume_kind t oi x un /\ belongs x0 self oi /\
    x_inv x0 ws n e /\ vm_waiting (my_address x0) (x_inv x0 ws n) x t e k.

(** The post-condition of an execution with [b] units of gas, of which [w1] is the world
    at its start and [s] the substate of the caller. *)
Definition run_post (self : Ce) (ws : list world) (n : nat) (w1 : world) (s : Substate) (b : Z)
    (res : option (executive_result X F)) (r' : Rn) : Prop :=
  match res with
  | None => False
  | Some (Finished v) => result_ok b v /\ exists w', shows ws n w' r' /\ extends s (r_substate r') /\
      (failed v -> w' = w1 /\ same_effects s (r_substate r'))
  | Some (Trapped t self') => same_effects s (r_substate r') /\ self' = set_kind (ce_kind self') self /\
      (exists w', shows (w1 :: ws) n w' r' /\ trap_params_ok w' t) /\ 0 <= ap_gas (trap_params t) /\
      exists k, 0 <= k /\ k + ap_gas (trap_params t) < b /\ paused self' t (w1 :: ws) n k
  end.

Lemma run_post_mono self ws n w1 s s' b b' res r' : b <= b' -> same_effects s s' ->
  run_post self ws n w1 s' b res r' -> run_post self ws n w1 s b' res r'.
Proof.
  intros Hb Hs. destruct res as [[v|t self']|]; cbn; [..|done].
  - intros (Hv & w' & Hsh & He & Hf). split; [by eapply result_ok_mono|]. exists w'. split; [done|].
    split; [etrans; [by apply same_effects_extends|done]|]. intros Hfv. destruct (Hf Hfv). split; [done|]. by etrans.
  - intros (He & Hself & Hw & Hg & k & Hk & Hlt & Hp). split; [by etrans|]. split; [done|]. split; [done|].
    split; [done|]. exists k. split_and!; [done|lia|done].
Qed.

(** A world that the externalities show after a run. *)
Lemma x_inv_shows x0 ws n (e : Ex) : x_inv x0 ws n e -> exists w, shows ws n w (x_run e).
Proof. intros [_ H]. done. Qed.

Lemma finalize_ok x0 ws n b val (e : Ex) : externalities_wf x0 -> b < U256_MOD -> gas_left_ok b val ->
  x_inv x0 ws n e ->
  wp (finalize val) (fun fr e' => result_ok b (inl fr) /\ x_inv x0 ws n e') (fun er e' => proper er /\ x_inv x0 ws n e') e.
Proof.
  intros Hx0 Hb Hval Hinv. destruct val as [[gl|gl d ap]|er]; cbn [gas_left_ok finalize] in *.
  - apply wp_ret. split; [|done]. cbn. split; [lia|apply return_data_empty_ok].
  - destruct Hval as [Hgl Hd]. wp_bind.
    pose proof (x_ret_ok HK start start_u256 sim tlevel vlevel x0 Hx0 ws n gl d ap ltac:(range_lia) Hd e Hinv) as Hw.
    eapply wp_mono; [exact Hw|..].
    + intros g e' (Hg & He & _). apply wp_ret. split; [|done]. cbn. split; [lia|done].
    + intros er e' (Her & He & _). done.
  - by apply wp_throw.
Qed.

(** A machine ready for [b] units of gas over the snapshot [w1]. *)
Lemma run_machine_ok fuel self oi x un x0 ws n w1 b (r : Rn) : executive_wf self -> belongs x0 self oi ->
  Forall world_ok (w1 :: ws) -> (exists w, shows (w1 :: ws) n w r) -> b <= ce_gas self -> b + 2 <= Z.of_nat fuel ->
  vm_ready (my_address x0) (x_inv x0 (w1 :: ws) n) x
    (as_externalities self oi (resume_output self) (set_substate un r)) b ->
  wp (run_machine fuel self oi x un (resume_output self))
    (fun '(out, res, un') r' => r_substate r' = r_substate r /\
      match out, res with
      | Some (ExecFinished _), Some v => result_ok b v /\ exists w, shows (w1 :: ws) n w r'
      | Some (ExecTrapped t x'), None => (exists w, shows (w1 :: ws) n w r' /\ trap_params_ok w t) /\
          0 <= ap_gas (trap_params t) /\ exists k e, 0 <= k /\ k + ap_gas (trap_params t) < b /\
          x_inv x0 (w1 :: ws) n e /\ vm_waiting (my_address x0) (x_inv x0 (w1 :: ws) n) x' t e k
      | _, _ => False
      end) (fun _ _ => False) r.
Proof.
  intros Hwf [Hx0 Hb0] Hws [w Hsh] Hb Hfuel Hready. pose proof (ew_depth _ Hwf). pose proof (ew_bound _ Hwf).
  pose proof (externalities_laws HK start start_u256 sim tlevel vlevel x0 Hx0 (w1 :: ws) Hws n) as EL.
  pose proof (el_exec _ _ _ _ EL x _ b fuel Hready) as Hw. specialize (Hw (ew_progress _ Hwf)). specialize (Hw Hfuel).
  unfold run_machine, wp in *. unfold bind.
  destruct (vm_exec fuel x _) as [[[val|t x']|] e'|[]|]; [..|done]; destruct Hw as [[Hinv Henv] Hpost]; [| |done].
  - pose proof (finalize_ok x0 (w1 :: ws) n b val e' Hx0 ltac:(range_lia) Hpost Hinv) as Hfin.
    unfold attempt, wp in *. destruct (finalize val e') as [fr e2|er e2|]; cbn; [..|done]; split; try done.
    + destruct Hfin as [Hr Hi]. split; [done|]. destruct (x_inv_shows _ _ _ _ Hi) as [w2 ?]. by exists w2.
    + destruct Hfin as [Hr Hi]. split; [done|]. destruct (x_inv_shows _ _ _ _ Hi) as [w2 ?]. by exists w2.
  - cbn. split; [done|]. destruct Hpost as ((_ & w2 & Hsh2 & Htp) & Hg & k & Hk & Hlt & Hwait).
    split; [by exists w2|]. split; [done|]. by exists k, e'.
Qed.

Lemma run_and_enact_ok fuel self oi x un x0 ws n w1 b (r : Rn) : executive_wf self -> belongs x0 self oi ->
  Forall world_ok (w1 :: ws) -> (exists w, shows (w1 :: ws) n w r) -> b <= ce_gas self -> b + 2 <= Z.of_nat fuel ->
  vm_ready (my_address x0) (x_inv x0 (w1 :: ws) n) x
    (as_externalities self oi (resume_output self) (set_substate un r)) b ->
  wp (run_and_enact fuel self oi x un (resume_output self)) (run_post self ws n w1 (r_substate r) b)
    (fun _ _ => False) r.
Proof.
  intros Hwf Hbel Hws Hsh Hb Hfuel Hready. unfold run_and_enact. wp_bind.
  eapply wp_mono; [exact (run_machine_ok fuel self oi x un x0 ws n w1 b r Hwf Hbel Hws Hsh Hb Hfuel Hready)| |done].
  intros [[out res] un'] r1 [Hs1 Hpost]. destruct out as [[val|t x']|]; [..|done].
  - destruct res as [v|]; [|done]. destruct Hpost as [Hv [w2 Hsh2]]. wp_bind.
    eapply wp_mono; [apply (enact_result_ok ws n w2 w1 _ _ _ (fun _ _ => False)); [by inversion Hws|done|by destruct v]| |done].
    intros _ r2 (w3 & Hsh3 & He & Hf & _). apply wp_ret. cbn. rewrite <- Hs1. split; [done|]. exists w3.
    split; [done|]. split; [done|]. intros Hfv. destruct (Hf Hfv) as [-> ->]. done.
  - destruct res as [v|]; [done|]. destruct Hpost as (Hw2 & Hg & k & e & Hk & Hlt & Hinv & Hwait).
    destruct t as [p|p a]; apply wp_ret; cbn; rewrite Hs1; (split; [done|]); (split; [done|]); (split; [done|]);
      (split; [done|]); exists k; (split; [done|]); (split; [done|]); by exists oi, x', un', x0, e.
Qed.

(** ** Transfers *)

(** The balances after the transfer of an action's value: the private side of a transfer
    has no account. *)
Definition moved (p : ActionParams) (w w' : world) : Prop :=
  match ap_value p with
  | Transfer v => forall a, balance_of w' a =
      let b := balance_of w a - (if negb (ap_is_input_private p) && (a =? ap_sender p) then v else 0) in
      if negb (ap_is_output_private p) && (a =? ap_address p) then u256_saturating_add b v else b
  | Apparent _ => w' = w
  end.

(** [funded] as the state needs it. *)
Lemma value_nonneg p v : params_wf p -> ap_value p = Transfer v -> is_u256 v.
Proof. intros [[_ _ _ _ Hv _] _] Hval. cbn in Hv. by rewrite Hval in Hv. Qed.

Lemma params_addresses p : params_wf p -> is_address (ap_sender p) /\ is_address (ap_address p).
Proof. intros [[Ha Hs _ _ _ _] _]. by split. Qed.

Lemma transfer_exec_balance_ok ws n w p sch (r : Rn) (P : vm_error -> Rn -> Prop) :
  params_wf p -> funded w p -> shows ws n w r ->
  wp (transfer_exec_balance p sch)
    (fun _ r' => exists w', shows ws n w' r' /\ moved p w w' /\ same_effects (r_substate r) (r_substate r')) P r.
Proof.
  intros Hp Hf Hsh. pose proof (proj1 (proj2 Hsh)) as Hw. destruct (params_addresses p Hp). unfold transfer_exec_balance, moved.
  destruct (ap_value p) as [v|v] eqn:Hv; [|by apply wp_ret; exists w].
  pose proof (value_nonneg p v Hp Hv) as [Hv0 _]. unfold funded in Hf.
  destruct (ap_is_input_private p) eqn:Hi, (ap_is_output_private p) eqn:Ho; cbn [negb andb].
  - apply wp_ret. exists w. split_and!; try done. intros a. cbn. lia.
  - eapply (wp_with_cleanup sim tlevel vlevel ws n _ _ _ w
      (fun w' => forall a, balance_of w' a = if a =? ap_address p then u256_saturating_add (balance_of w a) v else balance_of w a));
      [done| |intros w' r' Hw' ? ?; exists w'; split_and!; try done; intros a; cbn; rewrite Hw'; case_bool; f_equal; lia].
    intros mode. eapply (does_add_balance HK start start_u256 sim); [done..|].
    intros a. rewrite balance_of_add by done. case_bool; [|done]. by apply Z.eqb_eq in Hb as ->.
  - eapply (wp_with_cleanup sim tlevel vlevel ws n _ _ _ w
      (fun w' => forall a, balance_of w' a = balance_of w a - (if a =? ap_sender p then v else 0)));
      [done| |intros w' r' Hw' ? ?; exists w'; by split_and!].
    intros mode. destruct (sub_balance_funded start w (ap_sender p) v mode) as (m & w1 & Hsub); [by apply Hf|].
    eapply (does_sub_balance HK start start_u256 sim); [done..|exact Hsub|].
    intros a. by rewrite (balance_of_sub _ _ _ _ _ _ _ _ Hsub).
  - eapply (wp_with_cleanup sim tlevel vlevel ws n _ _ _ w
      (fun w' => forall a, balance_of w' a =
        let b := balance_of w a - (if a =? ap_sender p then v else 0) in
        if a =? ap_address p then u256_saturating_add b v else b));
      [done| |intros w' r' Hw' ? ?; exists w'; by split_and!].
    intros mode. destruct (sub_balance_funded start w (ap_sender p) v mode) as (m & w1 & Hsub); [by apply Hf|].
    eapply (does_transfer HK start start_u256 sim); [done..|exact Hsub|].
    intros a. rewrite balance_of_add by (by eapply (sub_balance_world_ok start start_u256); [..|exact Hsub]).
    cbn. rewrite !(balance_of_sub _ _ _ _ _ _ _ _ Hsub). case_bool; [|done]. by apply Z.eqb_eq in Hb as ->.
Qed.

(** The same for the account of a new contract, which keeps what it had. *)
Lemma init_contract_ok ws n w p sch (r : Rn) (P : vm_error -> Rn -> Prop) :
  params_wf p -> funded w p -> shows ws n w r ->
  wp (transfer_exec_balance_and_init_contract p sch)
    (fun _ r' => (exists w', shows ws n w' r') /\ same_effects (r_substate r) (r_substate r')) P r.
Proof.
  intros Hp Hf Hsh. pose proof (proj1 (proj2 Hsh)) as Hw. destruct (params_addresses p Hp). unfold transfer_exec_balance_and_init_contract. wp_bind.
  eapply (wp_try_state sim tlevel vlevel ws n) with (Q := fun b w' => w' = w /\ b = balance_of w (ap_address p));
    [exact Hsh|by eapply (does_balance HK start start_u256 sim)|].
  intros b w1 r1 [-> ->] Hsh1 Hs1. pose proof (balance_ok w (ap_address p) Hw) as Hb.
  assert (Hoff : 0 <= start + (if no_empty sch then 1 else 0) < U256_MOD) by (case_bool; lia).
  assert (Hnew : forall w2 (r2 : Rn) b2, is_u256 b2 -> shows ws n w2 r2 -> same_effects (r_substate r) (r_substate r2) ->
    wp (try_state (state_new_contract (ap_address p) b2 (if no_empty sch then 1 else 0)))
      (fun _ r' => (exists w', shows ws n w' r') /\ same_effects (r_substate r) (r_substate r')) P r2).
  { intros w2 r2 b2 Hb2 Hsh2 Hs2. pose proof (proj1 (proj2 Hsh2)) as Hw2.
    eapply (wp_try_state sim tlevel vlevel ws n) with (Q := fun _ _ => True);
      [exact Hsh2|by eapply (does_new_contract HK start start_u256 sim)|].
    intros _ w3 r3 _ Hsh3 Hs3. split; [by exists w3|]. by rewrite Hs3. }
  destruct (ap_value p) as [v|v] eqn:Hv; [|by apply (Hnew w); [..|rewrite Hs1]].
  pose proof (value_nonneg p v Hp Hv) as Hv0. wp_bind. unfold funded in Hf.
  destruct (ap_is_input_private p) eqn:Hi; cbn [negb].
  - apply wp_ret. apply (Hnew w); [|done|by rewrite Hs1]. unfold u256_saturating_add. range_lia.
  - eapply (wp_with_cleanup sim tlevel vlevel ws n _ _ _ w (fun _ => True)); [done| |].
    + intros mode. destruct (sub_balance_funded start w (ap_sender p) v mode) as (m & w1 & Hsub); [by apply Hf|].
      eapply (does_sub_balance HK start start_u256 sim); [done|done|apply Hv0|exact Hsub|done].
    + intros w2 r2 _ Hsh2 Hs2. apply (Hnew w2); [unfold u256_saturating_add; range_lia|done|]. by rewrite <- Hs1.
Qed.

(** ** The start of an execution *)

Definition action_ready (w : world) (self : Ce) (p : ActionParams) : Prop :=
  params_wf p /\ funded w p /\ ap_gas p = ce_gas self.

(** An executive as [new_call_raw] and [new_create_raw] make it. *)
Definition fresh (w : world) (self : Ce) : Prop :=
  match ce_kind self with
  | KindTransfer p => ce_is_create self = false /\ action_ready w self p
  | KindCallBuiltin p => ce_is_create self = false /\ action_ready w self p /\
      is_Some (machine_builtin (ce_machine self) (ap_code_address p) (ei_number (ce_info self)))
  | KindExecCall p _ => ce_is_create self = false /\ action_ready w self p /\ is_Some (ap_code p)
  | KindExecCreate p _ => ce_is_create self = true /\ action_ready w self p /\ is_Some (ap_code p)
  | _ => False
  end.

Lemma check_static_ok p f c (r : Rn) :
  wp (lift_result (check_static_flag p f c)) (fun _ r' => r' = r) (fun er r' => proper er /\ r' = r) r.
Proof.
  apply wp_lift_result; [done|]. intros er. unfold check_static_flag.
  destruct c; case_bool; intros [= <-]; done.
Qed.

Lemma take_checkpoint_ok {Er} ws n w (r : Rn) (P : Er -> Rn -> Prop) : shows ws n w r ->
  wp take_checkpoint (fun _ r' => shows (w :: ws) n w r' /\ r_substate r' = r_substate r) P r.
Proof. intros Hsh. apply wp_modify. split; [by apply shows_checkpoint|done]. Qed.

(** After [pre_inner]: the checkpoint is taken, or nothing has changed. *)
Definition prepared (ws : list world) (n : nat) (w : world) (r : Rn) (_ : unit) (r' : Rn) : Prop :=
  (exists w', shows (w :: ws) n w' r') /\ same_effects (r_substate r) (r_substate r').

Definition refused (ws : list world) (n : nat) (w : world) (r : Rn) (er : vm_error) (r' : Rn) : Prop :=
  proper er /\ shows ws n w r' /\ r_substate r' = r_substate r.

Lemma prepare_call_ok ws n w (self : Ce) p (r : Rn) : params_wf p -> funded w p -> shows ws n w r ->
  wp (prepare_call self p)
    (fun _ r' => exists w', shows (w :: ws) n w' r' /\ moved p w w' /\ same_effects (r_substate r) (r_substate r'))
    (refused ws n w r) r.
Proof.
  intros Hp Hf Hsh. unfold prepare_call. wp_bind.
  eapply wp_mono; [apply check_static_ok| |by intros er r' [? ->]]. intros _ r' ->. wp_bind.
  eapply wp_mono; [by apply (take_checkpoint_ok ws n w _ (fun _ _ => False))| |done].
  intros _ r1 [Hsh1 Hs1]. rewrite <- Hs1. by apply transfer_exec_balance_ok.
Qed.

Lemma prepare_create_ok ws n w (self : Ce) p (r : Rn) : params_wf p -> funded w p -> shows ws n w r ->
  wp (prepare_create self p) (prepared ws n w r) (refused ws n w r) r.
Proof.
  intros Hp Hf Hsh. pose proof (proj1 (proj2 Hsh)) as Hw. unfold prepare_create, check_eip684. wp_bind. wp_bind.
  eapply (wp_try_state sim tlevel vlevel ws n) with (Q := fun _ w' => w' = w);
    [exact Hsh|by eapply (does_has_code_or_nonce HK start start_u256 sim)|].
  intros b w1 r1 -> Hsh1 Hs1. unfold prepared, refused. rewrite <- Hs1.
  destruct b; [by apply wp_throw|]. apply wp_ret. wp_bind.
  eapply wp_mono; [apply check_static_ok| |by intros er r' [? ->]]. intros _ r' ->. wp_bind.
  eapply wp_mono; [by apply (take_checkpoint_ok ws n w _ (fun _ _ => False))| |done].
  intros _ r2 [Hsh2 Hs2]. rewrite <- Hs2. by apply (init_contract_ok _ _ w).
Qed.

Lemma wp_attempt {S Er Er' A} (m : M S Er A) (Q : A + Er -> S -> Prop) (P : Er' -> S -> Prop) s :
  wp m (fun a s' => Q (inl a) s') (fun e s' => Q (inr e) s') s -> wp (attempt m) Q P s.
Proof. unfold wp, attempt. by destruct (m s). Qed.

(** What [exec] owes for the kinds that do not run code. *)
Definition native_post (self : Ce) (ws : list world) (n : nat) (w : world) (s : Substate)
    (v : FinalizationResult + vm_error) (r' : Rn) : Prop :=
  result_ok (ce_gas self) v /\ exists w', shows ws n w' r' /\ same_effects s (r_substate r') /\ (failed v -> w' = w).

Lemma native_run_post self ws n w s v (r' : Rn) : native_post self ws n w s v r' ->
  run_post self ws n w s (ce_gas self) (Some (Finished v)) r'.
Proof.
  intros (Hv & w' & Hsh & He & Hf). split; [done|]. exists w'. split; [done|].
  split; [by apply same_effects_extends|]. intros Hfv. split; [by apply Hf|done].
Qed.

Lemma refused_native self ws n w r er r' : refused ws n w r er r' -> native_post self ws n w (r_substate r) (inr er) r'.
Proof. intros (Hp & Hsh & Hs). split; [done|]. exists w. by rewrite Hs. Qed.

Lemma exec_transfer_ok self ws n w p (r : Rn) : executive_wf self -> action_ready w self p -> shows ws n w r ->
  wp (exec_transfer self p)
    (fun v r' => native_post self ws n w (r_substate r) (inl v) r' /\ exists w', shows ws n w' r' /\ moved p w w')
    (refused ws n w r) r.
Proof.
  intros Hwf (Hp & Hf & Hg) Hsh. unfold exec_transfer. wp_bind.
  eapply wp_mono; [apply check_static_ok| |by intros er r' [? ->]]. intros _ r' ->. wp_bind.
  eapply wp_mono; [by apply (transfer_exec_balance_ok ws n w _ _ _ (fun _ _ => False))| |done].
  intros _ r1 (w1 & Hsh1 & Hm & He1). apply wp_ret. split; [|by exists w1].
  split; [cbn; rewrite Hg; pose proof (ew_gas _ Hwf); split; [lia|apply return_data_empty_ok]|]. by exists w1.
Qed.

Lemma zlen_vec_return_data o : vec_ok o -> return_data_ok (mkReturnData o 0 (zlen o)).
Proof. intros Ho. pose proof (zlen_nonneg o). split_and!; cbn; [done|lia|lia|lia]. Qed.

Lemma exec_builtin_ok self ws n w p (r : Rn) : executive_wf self -> action_ready w self p -> shows ws n w r ->
  is_Some (machine_builtin (ce_machine self) (ap_code_address p) (ei_number (ce_info self))) ->
  wp (exec_builtin self p) (fun v r' => native_post self ws n w (r_substate r) (inl v) r')
    (fun er r' => native_post self ws n w (r_substate r) (inr er) r') r.
Proof.
  intros Hwf (Hp & Hf & Hg) Hsh [b Hb]. unfold exec_builtin. pose proof (proj1 (proj2 Hsh)) as Hw. wp_bind.
  eapply wp_expect; [exact Hb|]. wp_bind.
  eapply wp_mono; [apply check_static_ok| |intros er r' [? ->]; by apply refused_native].
  intros _ r' ->. wp_bind.
  eapply wp_mono; [by apply (take_checkpoint_ok ws n w _ (fun _ _ => False))| |done].
  intros _ r1 [Hsh1 Hs1]. wp_bind.
  eapply wp_mono; [by apply (transfer_exec_balance_ok (w :: ws) n w _ _ _ (fun _ _ => False))| |done].
  intros _ r2 (w2 & Hsh2 & _ & He2). rewrite Hs1 in He2.
  unfold machine_builtin in Hb. destruct (ma_builtins _ !! _) as [b'|] eqn:Hb'; [|done]. cbn in Hb.
  destruct (bi_is_active _ _); [|done]. injection Hb as ->.
  destruct (ew_machine _ Hwf _ _ Hb') as [Hcost Hout].
  assert (Hdata : vec_ok (default [] (ap_data p))).
  { pose proof (po_data _ (pw_params _ Hp)) as Hd. cbn in Hd. destruct (ap_data p); [done|]. by split; [constructor|]. }
  assert (Hrev : forall er, proper er -> native_post self ws n w (r_substate r) (inr er)
    (set_state (revert_to_checkpoint (r_state r2)) r2)).
  { intros er Her. split; [done|]. exists w. split; [by eapply shows_revert|]. done. }
  case_bool; [|wp_bind; apply wp_modify, wp_throw; by apply Hrev].
  destruct (bi_execute b _) as [o|e] eqn:Hexec; [|wp_bind; apply wp_modify, wp_throw; by apply Hrev].
  wp_bind. apply wp_modify. wp_bind. specialize (Hcost (default [] (ap_data p))). apply Z.leb_le in Hb.
  eapply wp_expect; [unfold u256_sub; by rewrite (proj2 (Z.leb_le _ _) Hb)|]. apply wp_ret. split.
  - cbn. rewrite <- Hg. split; [lia|]. by apply zlen_vec_return_data, (Hout _ _ Hdata).
  - exists w2. split; [by apply (shows_discard _ _ _ w)|]. done.
Qed.

(** The externalities of a fresh execution. *)
Lemma as_externalities_wf (self : Ce) p (r : Rn) : executive_wf self -> params_wf p ->
  externalities_wf (as_externalities self (OriginInfo_from p) (resume_output self) r).
Proof. intros [] [[] _]. by split. Qed.

Lemma exec_code_ok fuel self ws n w p un prepare (r : Rn) : executive_wf self -> action_ready w self p ->
  is_Some (ap_code p) -> Forall world_ok (w :: ws) -> ce_gas self + 2 <= Z.of_nat fuel ->
  wp prepare (prepared ws n w r) (refused ws n w r) r ->
  wp (exec_code fuel self p un prepare (resume_output self))
    (run_post self ws n w (r_substate r) (ce_gas self)) (fun _ _ => False) r.
Proof.
  intros Hwf (Hp & Hf & Hg) [code Hcode] Hws Hfuel Hprep. unfold exec_code. wp_bind. apply wp_attempt.
  eapply wp_mono; [exact Hprep|..]; [|intros er r1 Hr1; apply wp_ret; by apply native_run_post, refused_native].
  intros _ r1 [[w1 Hsh1] He1]. wp_bind.
  set (x0 := as_externalities self (OriginInfo_from p) (resume_output self) (set_substate un r1)).
  assert (Hx0 : externalities_wf x0) by by apply as_externalities_wf.
  pose proof (externalities_laws HK start start_u256 sim tlevel vlevel x0 Hx0 (w :: ws) Hws n) as EL.
  pose proof (ew_depth _ Hwf). pose proof (ew_gas _ Hwf). pose proof (ew_bound _ Hwf).
  destruct (fl_create _ _ _ _ EL (ce_factory self) p code (ce_schedule self) (ce_depth self) x0)
    as (x & Hx & Hready).
  - apply Hwf.
  - apply Hwf.
  - done.
  - pose proof (pw_code _ Hp) as Hc. by rewrite Hcode in Hc.
  - lia.
  - apply Hp.
  - done.
  - split; [done|]. by exists w1.
  - eapply wp_expect; [exact Hx|].
    eapply wp_mono; [apply (run_and_enact_ok fuel self (OriginInfo_from p) x un x0 ws n w (ap_gas p))| |done].
    + done.
    + by split.
    + done.
    + by exists w1.
    + lia.
    + lia.
    + done.
    + intros res r2. rewrite Hg. by apply run_post_mono.
Qed.

Lemma exec_executive_ok fuel self ws n w (r : Rn) : executive_wf self -> fresh w self ->
  Forall world_ok ws -> shows ws n w r -> ce_gas self + 2 <= Z.of_nat fuel ->
  wp (exec_executive fuel self) (run_post self ws n w (r_substate r) (ce_gas self)) (fun _ _ => False) r.
Proof.
  intros Hwf Hfr Hws Hsh Hfuel. unfold exec_executive, fresh in *.
  assert (Hws' : Forall world_ok (w :: ws)) by (constructor; [apply Hsh|done]).
  destruct (ce_kind self) as [p|p|p un|p un|oi x un|oi x un] eqn:Hk; [| | | |done|done].
  - destruct Hfr as [Hc Ha]. wp_bind. apply wp_assert; [by rewrite Hc|]. wp_bind. apply wp_attempt.
    eapply wp_mono; [by apply exec_transfer_ok|..].
    + intros v r' [Hr' _]. by apply wp_ret, native_run_post.
    + intros er r' Hr'. by apply wp_ret, native_run_post, refused_native.
  - destruct Hfr as (Hc & Ha & Hb). wp_bind. apply wp_assert; [by rewrite Hc|]. wp_bind. apply wp_attempt.
    eapply wp_mono; [by apply exec_builtin_ok|..]; intros v r' Hr'; by apply wp_ret, native_run_post.
  - destruct Hfr as (Hc & Ha & Hcode). wp_bind. apply wp_assert; [by rewrite Hc|].
    replace OutputReturn with (resume_output self) by (unfold resume_output; by rewrite Hc).
    apply exec_code_ok; try done. eapply wp_mono; [apply prepare_call_ok; [apply Ha|apply Ha|done]| |done].
    intros u r' (w' & ? & _ & ?). split; [by exists w'|done].
  - destruct Hfr as (Hc & Ha & Hcode). wp_bind. apply wp_assert; [done|].
    replace OutputInitContract with (resume_output self) by (unfold resume_output; by rewrite Hc).
    apply exec_code_ok; try done. apply prepare_create_ok; [apply Ha|apply Ha|done].
Qed.

(** ** Resumption *)

(** The host of a suspended machine, with other references. *)
Lemma belongs_host x0 self oi ws n w (e : Ex) (r : Rn) : belongs x0 self oi -> x_inv x0 ws n e -> shows ws n w r ->
  host (x_inv x0 ws n) e (as_externalities self oi (resume_output self) r).
Proof.
  intros [_ Hx] [He _] Hsh. rewrite Hx. split; [by split; [|exists w]|]. rewrite He. done.
Qed.

Lemma resume_call_executive_ok fuel self p ws n w1 k res (r : Rn) :
  executive_wf self -> paused self (TrapCall p) (w1 :: ws) n k -> Forall world_ok (w1 :: ws) ->
  (exists w, shows (w1 :: ws) n w r) -> 0 <= ap_gas p -> k + ap_gas p <= ce_gas self -> ce_gas self + 2 <= Z.of_nat fuel ->
  result_ok (ap_gas p) res ->
  wp (executive_resume_call fuel self (into_message_call_result res))
    (run_post self ws n w1 (r_substate r) (k + gas_of res)) (fun _ _ => False) r.
Proof.
  intros Hwf (oi & x & un & x0 & e & Hk & Hbel & Hinv & Hwait) Hws [w Hsh] Hg Hle Hfuel Hres.
  unfold executive_resume_call. rewrite Hk. cbn [resume_kind]. wp_bind.
  destruct (call_result_back _ _ Hg Hres) as [Hok Hback].
  destruct (el_resume_call _ _ _ _ _ (as_externalities self oi (resume_output self) (set_substate un r)) _ _ Hwait
    ltac:(by eapply belongs_host) Hok) as (x' & Hx' & Hready).
  eapply wp_expect; [exact Hx'|]. rewrite Hback in Hready.
  assert (gas_of res <= ap_gas p) by (destruct res; cbn in *; lia).
  apply (run_and_enact_ok fuel self oi x' un x0); try done; [by exists w|lia|lia].
Qed.

Lemma resume_create_executive_ok fuel self p a ws n w1 k res s (r : Rn) :
  executive_wf self -> paused self (TrapCreate p a) (w1 :: ws) n k -> Forall world_ok (w1 :: ws) ->
  (exists w, shows (w1 :: ws) n w r) -> 0 <= ap_gas p -> is_address a -> k + ap_gas p <= ce_gas self ->
  ce_gas self + 2 <= Z.of_nat fuel -> result_ok (ap_gas p) res ->
  wp (executive_resume_create fuel self (fst (into_contract_create_result res a s)))
    (run_post self ws n w1 (r_substate r) (k + gas_of res)) (fun _ _ => False) r.
Proof.
  intros Hwf (oi & x & un & x0 & e & Hk & Hbel & Hinv & Hwait) Hws [w Hsh] Hg Ha Hle Hfuel Hres.
  unfold executive_resume_create. rewrite Hk. cbn [resume_kind]. wp_bind.
  destruct (create_result_back _ _ a s Hg Ha Hres) as [Hok Hback].
  destruct (el_resume_create _ _ _ _ _ _ (as_externalities self oi (resume_output self) (set_substate un r)) _ _ Hwait
    ltac:(by eapply belongs_host) Hok) as (x' & Hx' & Hready).
  eapply wp_expect; [exact Hx'|]. rewrite Hback in Hready.
  assert (gas_of res <= ap_gas p) by (destruct res; cbn in *; lia).
  apply (run_and_enact_ok fuel self oi x' un x0); try done; [by exists w|lia|lia].
Qed.

(** ** Traces *)

Lemma on_tracer_ok {Er} f ws n n' w (r : Rn) (Q : unit -> Rn -> Prop) (P : Er -> Rn -> Prop) :
  sim (r_state r) (w, ws) /\ world_ok w /\ tlevel n (r_tracer r) ->
  (forall t, tlevel n t -> exists t', f t = Some t' /\ tlevel n' t') ->
  (forall t', tlevel n' t' -> Q tt (set_tracer t' r)) -> wp (on_tracer f) Q P r.
Proof.
  intros (Hs & Hw & Ht) Hf HQ. unfold on_tracer. wp_bind. cbn. wp_bind.
  destruct (Hf _ Ht) as (t' & Hft & Ht'). eapply wp_expect; [exact Hft|]. by apply wp_modify, HQ.
Qed.

Lemma on_subtracer_ok {Er} f n n' (r : Rn) (Q : unit -> Rn -> Prop) (P : Er -> Rn -> Prop) :
  vlevel n (r_vm_tracer r) -> (forall v, vlevel n v -> exists v', f v = Some v' /\ vlevel n' v') ->
  (forall v', vlevel n' v' -> Q tt (set_vm_tracer v' r)) -> wp (on_subtracer f) Q P r.
Proof.
  intros Hv Hf HQ. unfold on_subtracer. wp_bind. cbn. wp_bind.
  destruct (Hf _ Hv) as (v' & Hfv & Hv'). eapply wp_expect; [exact Hfv|]. by apply wp_modify, HQ.
Qed.

(** The run shows the same worlds with [n] open traces. *)
Definition traced (ws : list world) (n : nat) (w : world) (r : Rn) (_ : unit) (r' : Rn) : Prop :=
  shows ws n w r' /\ r_substate r' = r_substate r.

Lemma trace_pair_ok f g ws n n' w (r : Rn) : shows ws n w r ->
  (forall t, tlevel n t -> exists t', f t = Some t' /\ tlevel n' t') ->
  (forall v, vlevel n v -> exists v', g v = Some v' /\ vlevel n' v') ->
  wp (on_tracer f ;;; on_subtracer g : M Rn Empty_set unit) (traced ws n' w r) (fun _ _ => False) r.
Proof.
  intros (Hs & Hw & Ht & Hv) Hf Hg. wp_bind. eapply (on_tracer_ok f ws n n' w); [done|done|]. intros t' Ht'.
  eapply on_subtracer_ok; [exact Hv|exact Hg|]. by intros v' Hv'.
Qed.

Lemma trace_call_begins_ok p d b ws n w (r : Rn) : shows ws n w r ->
  wp (trace_call_begins p d b) (traced ws (S n) w r) (fun _ _ => False) r.
Proof.
  intros Hsh. eapply trace_pair_ok; [done|intros t; apply tl_prepare_call|intros v; apply vl_prepare_subtrace].
Qed.

Lemma trace_create_begins_ok p ws n w (r : Rn) : shows ws n w r ->
  wp (trace_create_begins p) (traced ws (S n) w r) (fun _ _ => False) r.
Proof.
  intros Hsh. eapply trace_pair_ok; [done|intros t; apply tl_prepare_create|intros v; apply vl_prepare_subtrace].
Qed.

Lemma trace_ends_ok gas v f ws n w (r : Rn) : shows ws (S n) w r -> result_ok gas v ->
  (forall g o t, tlevel (S n) t -> exists t', f g o t = Some t' /\ tlevel n t') ->
  wp (trace_ends gas v f) (traced ws n w r) (fun _ _ => False) r.
Proof.
  intros Hsh Hv Hf. unfold trace_ends.
  assert (Hdone : forall h, (forall t, tlevel (S n) t -> exists t', h t = Some t' /\ tlevel n t') ->
    wp (on_tracer h ;;; on_subtracer done_subtrace : M Rn Empty_set unit) (traced ws n w r) (fun _ _ => False) r).
  { intros h Hh. eapply trace_pair_ok; [done|done|intros x; apply vl_done_subtrace]. }
  destruct v as [v|er]; [|apply Hdone; intros t; apply tl_done_failed].
  destruct Hv as [Hg Hd]. destruct (fr_apply_state v); [|apply Hdone; intros t; apply tl_done_failed].
  wp_bind. wp_bind. eapply wp_expect; [unfold u256_sub; by rewrite (proj2 (Z.leb_le _ _)) by lia|]. wp_bind.
  apply wp_rd_deref; [done|]. intros _ _ _. eapply wp_bind_inv, Hdone, Hf.
Qed.

(** ** Sub-executions *)

Lemma new_call_raw_ok w p info machine schedule factory depth stack_depth static :
  params_wf p -> funded w p ->
  exists self : Ce, new_call_raw p info machine schedule factory depth stack_depth static = Some self /\
    fresh w self /\ ce_info self = info /\ ce_machine self = machine /\ ce_schedule self = schedule /\
    ce_factory self = factory /\ ce_depth self = depth /\ ce_is_create self = false /\ ce_gas self = ap_gas p.
Proof.
  intros Hp Hf. unfold new_call_raw. destruct (machine_builtin machine _ _) as [b|] eqn:Hb.
  - assert (bi_is_active b (ei_number info) = true) as ->.
    { unfold machine_builtin in Hb. destruct (_ !! _) as [b'|]; [|done]. cbn in Hb.
      destruct (bi_is_active b' _) eqn:Ha; [|done]. by injection Hb as ->. }
    eexists. split; [done|]. by split_and!.
  - destruct (ap_code p) as [c|] eqn:Hc; eexists; (split; [done|]); by split_and!.
Qed.

(** ** The call stack *)

Local Abbreviation Stack := (list (option Z * Ce)).

Definition trap_address (t : TrapKind) : option Z :=
  match t with TrapCall _ => None | TrapCreate _ a => Some a end.

Definition trap_is_create (t : TrapKind) : bool :=
  match t with TrapCall _ => false | TrapCreate _ _ => true end.

Lemma paused_substate self t ws n k s : paused self t ws n k -> paused (set_unconfirmed_substate s self) t ws n k.
Proof.
  intros (oi & x & un & x0 & e & Hk & Hbel & Hinv & Hwait). exists oi, x, s, x0, e.
  unfold set_unconfirmed_substate. rewrite Hk. by destruct t.
Qed.

Lemma paused_unconfirmed self t ws n k : paused self t ws n k -> is_Some (unconfirmed_substate self).
Proof. intros (oi & x & un & x0 & e & Hk & _). unfold unconfirmed_substate. rewrite Hk. by destruct t. Qed.

Lemma set_unconfirmed_consts s (self : Ce) : let self' := set_unconfirmed_substate s self in
  ce_is_create self' = ce_is_create self /\ ce_gas self' = ce_gas self /\ (executive_wf self -> executive_wf self').
Proof. split_and!; try done. intros []. by split. Qed.

Section Loop.

(** An execution started with [G] units of gas in the world [w0], over the snapshots [ws0]
    and with [n0] traces open. *)
Context (w0 : world) (ws0 : list world) (n0 : nat) (G : Z).

(** A stack of suspended executives over the snapshots [ws], with [n] traces open: the top
    waits for a call or create with [g] units of gas, and together they have kept [kept]. *)
Inductive suspended : Stack -> list world -> nat -> bool -> Z -> Z -> Prop :=
| suspended_nil c g : suspended [] ws0 n0 c g 0
| suspended_cons self t rest ws n w1 k kept :
    suspended rest ws n (ce_is_create self) (ce_gas self) kept -> (rest = [] -> w1 = w0) ->
    executive_wf self -> ce_gas self <= G -> paused self t (w1 :: ws) n k -> world_ok w1 ->
    0 <= k -> 0 <= ap_gas (trap_params t) -> k + ap_gas (trap_params t) < ce_gas self ->
    opt_ok is_address (trap_address t) ->
    suspended ((trap_address t, self) :: rest) (w1 :: ws) (S n) (trap_is_create t)
      (ap_gas (trap_params t)) (k + kept).

Lemma suspended_kept st ws n c g kept : suspended st ws n c g kept -> 0 <= kept.
Proof. induction 1; lia. Qed.

Lemma suspended_worlds st ws n c g kept : Forall world_ok ws0 -> suspended st ws n c g kept -> Forall world_ok ws.
Proof. intros Hws. induction 1; [done|]. by constructor. Qed.

(** The substate of the last executive changes when the one above it runs. *)
Lemma suspended_substate a self st ws n c g kept s : suspended ((a, self) :: st) ws n c g kept ->
  suspended ((a, set_unconfirmed_substate s self) :: st) ws n c g kept.
Proof.
  inversion 1; subst. destruct (set_unconfirmed_consts s self) as (Hc & Hg & Hwf).
  apply (suspended_cons (set_unconfirmed_substate s self)); try done; rewrite ?Hc, ?Hg; auto.
  by apply paused_substate.
Qed.

Lemma suspended_unconfirmed a self st ws n c g kept : suspended ((a, self) :: st) ws n c g kept ->
  is_Some (unconfirmed_substate self).
Proof. inversion 1; subst. by eapply paused_unconfirmed. Qed.

Context (s0 : Substate).

(** The invariant of the loop; [m] bounds the iterations that are left. *)
Definition loop_ok (last_res : option (bool * Z * executive_result X F)) (st : Stack) (r : Rn) (m : Z) : Prop :=
  match last_res with
  | Some (c, g, Finished v) => exists ws n w kept, suspended st ws n c g kept /\ g <= G /\ result_ok g v /\
      shows ws n w r /\ extends s0 (r_substate r) /\
      (st <> [] \/ failed v -> same_effects s0 (r_substate r)) /\ (st = [] -> failed v -> w = w0) /\
      3 * (gas_of v + kept) + zlen st + 1 <= m
  | Some (_, _, Trapped t self) => exists ws n w w1 k kept,
      suspended st ws n (ce_is_create self) (ce_gas self) kept /\ executive_wf self /\ ce_gas self <= G /\
      shows (w1 :: ws) n w r /\ trap_params_ok w t /\ paused self t (w1 :: ws) n k /\ world_ok w1 /\
      (st = [] -> w1 = w0) /\ same_effects s0 (r_substate r) /\
      0 <= k /\ 0 <= ap_gas (trap_params t) /\ k + ap_gas (trap_params t) < ce_gas self /\
      3 * (k + ap_gas (trap_params t) + kept) + zlen st + 4 <= m
  | None => exists a self rest ws n w kept, st = (a, self) :: rest /\ rest <> [] /\
      suspended rest ws n (ce_is_create self) (ce_gas self) kept /\ executive_wf self /\ ce_gas self <= G /\
      fresh w self /\ shows ws n w r /\ same_effects s0 (r_substate r) /\
      3 * (ce_gas self + kept) + zlen rest + 2 <= m
  end.

Lemma loop_ok_mono l st r m m' : m <= m' -> loop_ok l st r m -> loop_ok l st r m'.
Proof.
  intros Hm. destruct l as [[[c g] [v|t self]]|]; cbn; [intros (ws & n & w & kept & H); exists ws, n, w, kept
    |intros (ws & n & w & w1 & k & kept & H); exists ws, n, w, w1, k, kept
    |intros (a & self & rest & ws & n & w & kept & H); exists a, self, rest, ws, n, w, kept];
    repeat (destruct H as [? H]; split; [done|]); lia.
Qed.

Lemma loop_ok_pos l st r m : loop_ok l st r m -> 0 < m.
Proof.
  pose proof (zlen_nonneg st). destruct l as [[[c g] [v|t self]]|]; cbn.
  - intros (ws & n & w & kept & Hs & _ & Hv & _ & _ & _ & _ & Hm). pose proof (suspended_kept _ _ _ _ _ _ Hs).
    destruct v; cbn in *; lia.
  - intros (ws & n & w & w1 & k & kept & Hs & Hrest). pose proof (suspended_kept _ _ _ _ _ _ Hs). lia.
  - intros (a & self & rest & ws & n & w & kept & -> & _ & Hs & Hwf & Hrest).
    pose proof (suspended_kept _ _ _ _ _ _ Hs). pose proof (ew_gas _ Hwf). pose proof (zlen_nonneg rest). lia.
Qed.

(** The result of an execution becomes [last_res]. Above other executives, the substate of
    the run is not the caller's and stays as it was. *)
Lemma post_loop_ok self st ws n w1 s b kept res (r' : Rn) top :
  suspended st ws n (ce_is_create self) (ce_gas self) kept -> executive_wf self -> ce_gas self <= G ->
  0 <= b <= ce_gas self -> world_ok w1 -> (st = [] -> w1 = w0) ->
  run_post self ws n w1 s b (Some res) r' ->
  (st = [] -> top = r_substate r' /\ s = s0) -> (st <> [] -> same_effects s0 top) ->
  loop_ok (Some (ce_is_create self, ce_gas self, res)) st (set_substate top r') (3 * (b + kept) + zlen st + 1).
Proof.
  intros Hst Hwf HG Hb Hw1 Hw0 Hpost Hnil Hcons. destruct res as [v|t self']; cbn in Hpost.
  - destruct Hpost as (Hv & w & Hsh & He & Hf). exists ws, n, w, kept. split; [done|]. split; [done|].
    split; [eapply result_ok_mono; [|done]; lia|]. split; [done|]. cbn [r_substate set_substate].
    assert (gas_of v <= b) by (destruct v; cbn in *; lia).
    destruct st as [|f st].
    + destruct (Hnil eq_refl) as [-> ->]. rewrite (Hw0 eq_refl) in Hf. split; [done|]. split; [|split; [|lia]].
      * intros [|Hfv]; [done|]. by apply Hf.
      * intros _ Hfv. by apply Hf.
    + split; [by apply same_effects_extends, Hcons|]. split; [intros _; by apply Hcons|]. split; [done|lia].
  - destruct Hpost as (He & Hself & (w & Hsh & Htp) & Hg & k & Hk & Hlt & Hp).
    exists ws, n, w, w1, k, kept. rewrite Hself in Hp |- *. split_and!; try done; try lia.
    + by destruct Hwf; split.
    + destruct st; [|by apply Hcons]. destruct (Hnil eq_refl) as [-> <-]. done.
    + cbn. lia.
Qed.

Lemma continue_with_ok self st ws n w1 b kept m (r : Rn) :
  suspended st ws n (ce_is_create self) (ce_gas self) kept -> executive_wf self -> ce_gas self <= G ->
  0 <= b <= ce_gas self -> world_ok w1 -> (st = [] -> w1 = w0) -> same_effects s0 (r_substate r) ->
  (forall s, wp m (run_post self ws n w1 s b) (fun _ _ => False) (set_substate s r)) ->
  wp (continue_with self st m)
    (fun next r' => exists l st', next = Some (l, st') /\ loop_ok l st' r' (3 * (b + kept) + zlen st + 1))
    (fun _ _ => False) r.
Proof.
  intros Hst Hwf HG Hb Hw1 Hw0 Hs0 Hm. unfold continue_with. wp_bind. unfold with_parent_substate.
  destruct st as [|[a second] st].
  - wp_bind. specialize (Hm (r_substate r)).
    replace (set_substate (r_substate r) r) with r in Hm by by destruct r.
    eapply wp_mono; [exact Hm| |done]. intros [res|] r' Hpost; [|done]. apply wp_ret. apply wp_ret.
    eexists _, _. split; [done|]. replace r' with (set_substate (r_substate r') r') by by destruct r'.
    apply (post_loop_ok self [] ws n w1 s0 b kept); try done.
    by eapply (run_post_mono _ _ _ _ _ (r_substate r) b b).
  - wp_bind. destruct (suspended_unconfirmed _ _ _ _ _ _ _ _ Hst) as [un Hun].
    eapply wp_expect; [exact Hun|]. wp_bind. cbn. wp_bind. apply wp_modify. wp_bind.
    eapply wp_mono; [exact (Hm un)| |done]. intros [res|] r' Hpost; [|done].
    wp_bind. cbn. eexists _, _. split; [done|].
    eapply (post_loop_ok self ((a, set_unconfirmed_substate (r_substate r') second) :: st)); try done.
    by apply suspended_substate.
Qed.

(** ** The loop *)

(** What [consume] owes. *)
Definition consumed (v : FinalizationResult + vm_error) (r' : Rn) : Prop :=
  result_ok G v /\ exists w, shows ws0 n0 w r' /\ extends s0 (r_substate r') /\
    (failed v -> w = w0 /\ same_effects s0 (r_substate r')).

Definition step_ok_post (m : Z) (out : option ((FinalizationResult + vm_error) + option (bool * Z * executive_result X F) * Stack))
    (r' : Rn) : Prop :=
  match out with
  | Some (inl v) => consumed v r'
  | Some (inr (l, st)) => loop_ok l st r' (m - 1)
  | None => False
  end.

Context (Hws0 : Forall world_ok ws0) (fuel : nat) (Hfuel : G + 2 <= Z.of_nat fuel).

(** Results of [continue_with] as results of an iteration. *)
Lemma next_ok (next : option (option (bool * Z * executive_result X F) * Stack)) r' m b :
  (exists l st', next = Some (l, st') /\ loop_ok l st' r' b) -> b <= m - 1 ->
  wp (ret (inr <$> next)) (step_ok_post m) (fun _ : Empty_set => fun _ => False) r'.
Proof. intros (l & st' & -> & Hl) Hb. apply wp_ret. by eapply loop_ok_mono. Qed.

Lemma step_fresh_ok st (r : Rn) m : loop_ok None st r m ->
  wp (consume_step fuel None st) (step_ok_post m) (fun _ _ => False) r.
Proof.
  intros (a & self & rest & ws & n & w & kept & -> & Hne & Hst & Hwf & HG & Hfr & Hsh & Hs & Hm).
  cbn [consume_step]. wp_bind. pose proof (ew_gas _ Hwf).
  eapply wp_mono; [apply (continue_with_ok self rest ws n w (ce_gas self) kept); try done; [apply Hsh|]| |done].
  - intros s. apply (exec_executive_ok fuel self ws n w); try done; [by eapply suspended_worlds|lia].
  - intros next r' Hnext. eapply next_ok; [exact Hnext|]. lia.
Qed.

Lemma step_trapped_ok c g t self st (r : Rn) m : loop_ok (Some (c, g, Trapped t self)) st r m ->
  wp (consume_step fuel (Some (c, g, Trapped t self)) st) (step_ok_post m) (fun _ _ => False) r.
Proof.
  intros (ws & n & w & w1 & k & kept & Hst & Hwf & HG & Hsh & Htp & Hp & Hw1 & Hw0 & Hs & Hk & Hg & Hlt & Hm).
  pose proof (ew_depth _ Hwf). pose proof (ew_bound _ Hwf).
  assert (Hdepth : usize_add (ce_depth self) 1 = Some (ce_depth self + 1)).
  { unfold usize_add. by rewrite (proj2 (Z.ltb_lt _ _)) by lia. }
  assert (Hsus : opt_ok is_address (trap_address t) ->
    suspended ((trap_address t, self) :: st) (w1 :: ws) (S n) (trap_is_create t) (ap_gas (trap_params t)) (k + kept))
    by (intros; by apply suspended_cons).
  assert (Hnext : forall sub r', shows (w1 :: ws) (S n) w r' -> r_substate r' = r_substate r ->
    opt_ok is_address (trap_address t) -> fresh w sub ->
    ce_info sub = ce_info self -> ce_machine sub = ce_machine self -> ce_schedule sub = ce_schedule self ->
    ce_factory sub = ce_factory self -> ce_depth sub = ce_depth self + 1 -> ce_is_create sub = trap_is_create t ->
    ce_gas sub = ap_gas (trap_params t) -> loop_ok None ((None, sub) :: (trap_address t, self) :: st) r' (m - 1)).
  { intros sub r' Hsh' Hs' Ha Hfr Ei Em Esch Ef Ed Ec Eg.
    exists None, sub, ((trap_address t, self) :: st), (w1 :: ws), (S n), w, (k + kept).
    split; [done|]. split; [done|]. rewrite Ec, Eg. split; [by apply Hsus|].
    split; [destruct Hwf; split; rewrite ?Ei, ?Em, ?Esch, ?Ef, ?Ed, ?Eg; try done; lia|].
    split; [lia|]. split; [done|]. split; [done|]. rewrite Hs'. split; [done|]. unfold zlen in *. cbn. lia. }
  destruct t as [p|p a]; cbn [consume_step trap_params trap_address trap_is_create] in *; wp_bind.
  - eapply wp_expect; [exact Hdepth|]. wp_bind.
    eapply wp_mono; [by apply trace_call_begins_ok| |done]. intros [] r' [Hsh' Hs']. wp_bind.
    destruct Htp as [Hpw Hf].
    destruct (new_call_raw_ok w p (ce_info self) (ce_machine self) (ce_schedule self) (ce_factory self)
      (ce_depth self + 1) (ce_stack_depth self) (ce_static_flag self) Hpw Hf)
      as (sub & Hsub & Hfr & Ei & Em & Esch & Ef & Ed & Ec & Eg).
    eapply wp_expect; [exact Hsub|]. apply wp_ret. by apply Hnext.
  - eapply wp_mono; [by apply trace_create_begins_ok| |done]. intros [] r' [Hsh' Hs']. wp_bind.
    eapply wp_expect; [exact Hdepth|]. apply wp_ret. destruct Htp as (Hpw & Hf & Ha & Hc).
    apply Hnext; try done. rewrite <- Ha. cbn. apply (po_address _ (pw_params _ Hpw)).
Qed.

(** The result of a sub-execution resumes the executive below it. *)
Lemma step_finished_ok c g v st (r : Rn) m : loop_ok (Some (c, g, Finished v)) st r m ->
  wp (consume_step fuel (Some (c, g, Finished v)) st) (step_ok_post m) (fun _ _ => False) r.
Proof.
  intros (ws & n & w & kept & Hst & HG & Hv & Hsh & He & Hs & Hw & Hm). cbn [consume_step].
  destruct st as [|[a self] st].
  { apply wp_ret. inversion Hst; subst. split; [by eapply result_ok_mono|]. exists w. split; [done|]. split; [done|].
    intros Hf. split; [by apply Hw|]. apply Hs. by right. }
  pose proof (suspended_unconfirmed _ _ _ _ _ _ _ _ Hst) as [un Hun].
  inversion Hst as [|? t ? ws' n' w1 k kept' Hst' Hw0 Hwf HG' Hp Hw1 Hk Hg Hlt Ha]; subst.
  pose proof (suspended_worlds _ _ _ _ _ _ Hws0 Hst') as Hws'.
  assert (Hgas : 0 <= gas_of v <= ap_gas (trap_params t)) by (destruct v; cbn in *; lia).
  assert (Hs' : same_effects s0 (r_substate r)) by (apply Hs; by left).
  assert (Hlen : 3 * (k + gas_of v + kept') + zlen st + 1 <= m - 1) by (unfold zlen in *; cbn in Hm; lia).
  destruct t as [p|p a]; cbn [trap_is_create trap_address trap_params opt_ok] in *.
  - wp_bind. eapply wp_mono; [apply (trace_ends_ok (ap_gas p) v done_trace_call (w1 :: ws') n' w); [done|done|intros ? ?; apply tl_done_call]| |done].
    intros [] r1 [Hsh1 Hs1]. wp_bind.
    eapply wp_mono; [apply (continue_with_ok self st ws' n' w1 (k + gas_of v) kept'); try done; [lia|by rewrite Hs1|]| |done].
    + intros s. apply (resume_call_executive_ok fuel self p ws' n' w1 k v (set_substate s r1)); try done;
        [by constructor|exists w; by apply shows_substate|lia|lia].
    + intros next r' Hnext. eapply next_ok; [exact Hnext|lia].
  - wp_bind. cbn [expect]. wp_bind.
    eapply wp_mono; [apply (trace_ends_ok (ap_gas p) v _ (w1 :: ws') n' w); [done|done|intros ? ?; apply tl_done_create]| |done].
    intros [] r1 [Hsh1 Hs1]. wp_bind. eapply wp_expect; [exact Hun|].
    destruct (into_contract_create_result v a un) as [res un'] eqn:Hres. wp_bind.
    destruct (set_unconfirmed_consts un' self) as (Ec & Eg & Ewf).
    eapply wp_mono; [apply (continue_with_ok (set_unconfirmed_substate un' self) st ws' n' w1 (k + gas_of v) kept');
      try done; [auto|rewrite Eg; lia|by rewrite Hs1|]| |done].
    + intros s. replace res with (fst (into_contract_create_result v a un)) by by rewrite Hres.
      apply (resume_create_executive_ok fuel _ p a ws' n' w1 k v un (set_substate s r1)); rewrite ?Eg; try done;
        [auto|by apply paused_substate|by constructor|exists w; by apply shows_substate|lia|lia].
    + intros next r' Hnext. eapply next_ok; [exact Hnext|lia].
Qed.

Lemma consume_loop_ok i l st (r : Rn) m : loop_ok l st r m -> m <= Z.of_nat i ->
  wp (consume_loop i fuel l st) (fun out r' => exists v, out = Some v /\ consumed v r') (fun _ _ => False) r.
Proof.
  revert l st r m. induction i as [|i IH]; intros l st r m Hl Hi.
  { pose proof (loop_ok_pos _ _ _ _ Hl). lia. }
  cbn [consume_loop]. wp_bind.
  assert (Hstep : wp (consume_step fuel l st) (step_ok_post m) (fun _ _ => False) r).
  { destruct l as [[[c g] [v|t self]]|]; [by apply step_finished_ok|by apply step_trapped_ok|by apply step_fresh_ok]. }
  eapply wp_mono; [exact Hstep| |done]. intros [[v|[l' st']]|] r' Hpost; cbn in Hpost; [| |done].
  - apply wp_ret. by exists v.
  - apply (IH l' st' r' (m - 1)); [done|lia].
Qed.

(** The flag of [last_res] is not read before a sub-execution has run. *)
Lemma loop_ok_first c c' g res (r : Rn) m : loop_ok (Some (c, g, res)) [] r m -> loop_ok (Some (c', g, res)) [] r m.
Proof.
  destruct res as [v|t self]; [|done]. intros (ws & n & w & kept & Hst & H). exists ws, n, w, kept.
  split; [|done]. inversion Hst; subst. constructor.
Qed.

Lemma consume_ok self (r : Rn) : executive_wf self -> fresh w0 self -> shows ws0 n0 w0 r -> r_substate r = s0 ->
  ce_gas self = G -> 3 * G + 1 <= Z.of_nat fuel ->
  wp (consume fuel self) (fun out r' => exists v, out = Some v /\ consumed v r') (fun _ _ => False) r.
Proof.
  intros Hwf Hfr Hsh Hs HG Hf. unfold consume. wp_bind. pose proof (ew_gas _ Hwf).
  eapply wp_mono; [apply (exec_executive_ok fuel self ws0 n0 w0 r Hwf Hfr Hws0 Hsh ltac:(lia))| |done].
  intros [res|] r' Hpost; [|done]. eapply (consume_loop_ok _ _ _ _ (3 * (ce_gas self + 0) + zlen ([] : Stack) + 1)).
  - apply (loop_ok_first (ce_is_create self)).
    replace r' with (set_substate (r_substate r') r') by by destruct r'.
    apply (post_loop_ok self [] ws0 n0 w0 s0 (ce_gas self) 0); try done.
    + apply suspended_nil.
    + lia.
    + apply Hsh.
    + by rewrite <- Hs.
  - change (zlen ([] : Stack)) with 0. lia.
Qed.

End Loop.

(** ** Calls and creates *)

(** What a call owes: its gas, its traces closed, and no effect of a failure. *)
Definition call_post (ws : list world) (n : nat) (w : world) (s : Substate) (gas : Z)
    (out : option (FinalizationResult + vm_error)) (r' : Rn) : Prop :=
  exists v, out = Some v /\ consumed w ws n gas s v r'.

(** What an [Executive] is created with, for an action with [gas]. *)
Record executive_ok (self : Executive F) (gas : Z) : Prop := {
  eo_schedule : schedule_wf (ev_schedule self) = true;
  eo_progress : schedule_progress (ev_schedule self) = true;
  eo_suits : suits (ev_schedule self);
  eo_info : env_info_ok (ev_info self);
  eo_hashes : hashes_ok (ev_machine self) (ev_info self);
  eo_machine : machine_ok (ev_machine self);
  eo_factory : factory_ok (ev_vm_factory self);
  eo_depth : 0 <= ev_depth self;
  eo_gas : 0 <= gas;
  eo_bound : ev_depth self + gas < U64_MOD;
}.

Lemma consumed_ends gas ws n w s v (r : Rn) f : consumed w ws (S n) gas s v r ->
  (forall g o t, tlevel (S n) t -> exists t', f g o t = Some t' /\ tlevel n t') ->
  wp (trace_ends gas v f) (fun _ r' => consumed w ws n gas s v r') (fun _ _ => False) r.
Proof.
  intros (Hv & w' & Hsh & He & Hf) Hd. eapply wp_mono; [by apply (trace_ends_ok gas v f ws n w')| |done].
  intros _ r' [Hsh' Hs']. split; [done|]. exists w'. by rewrite Hs'.
Qed.

Lemma call_with_stack_depth_ok fuel self p sd ws n w (r : Rn) : executive_ok self (ap_gas p) -> params_wf p ->
  funded w p -> Forall world_ok ws -> shows ws n w r -> 3 * ap_gas p + 2 <= Z.of_nat fuel ->
  wp (call_with_stack_depth fuel self p sd) (call_post ws n w (r_substate r) (ap_gas p)) (fun _ _ => False) r.
Proof.
  intros Hok Hp Hf Hws Hsh Hfuel. pose proof (eo_gas _ _ Hok). unfold call_with_stack_depth. wp_bind.
  eapply wp_mono; [by apply trace_call_begins_ok| |done]. intros [] r1 [Hsh1 Hs1]. wp_bind.
  destruct (new_call_raw_ok w p (ev_info self) (ev_machine self) (ev_schedule self) (ev_vm_factory self)
    (ev_depth self) sd (ev_static_flag self) Hp Hf) as (sub & Hsub & Hfr & Ei & Em & Esch & Ef & Ed & Ec & Eg).
  eapply wp_expect; [exact Hsub|]. wp_bind.
  eapply wp_mono; [apply (consume_ok w ws (S n) (ap_gas p) (r_substate r1) Hws fuel); try done; [lia| |lia]| |done].
  - destruct Hok. split; rewrite ?Ei, ?Em, ?Esch, ?Ef, ?Ed, ?Eg; done.
  - intros out r2 (v & -> & Hv). wp_bind.
    eapply wp_mono; [apply (consumed_ends (ap_gas p) ws n w _ v r2 done_trace_call Hv); intros ? ?; apply tl_done_call| |done].
    intros u r3 Hv3. apply wp_ret. exists v. by rewrite <- Hs1.
Qed.

Lemma create_with_stack_depth_ok fuel self p sd ws n w (r : Rn) : executive_ok self (ap_gas p) -> params_wf p ->
  is_Some (ap_code p) -> funded w p -> Forall world_ok ws -> shows ws n w r -> 3 * ap_gas p + 2 <= Z.of_nat fuel ->
  wp (create_with_stack_depth fuel self p sd) (call_post ws n w (r_substate r) (ap_gas p)) (fun _ _ => False) r.
Proof.
  intros Hok Hp Hc Hf Hws Hsh Hfuel. pose proof (eo_gas _ _ Hok). unfold create_with_stack_depth. wp_bind.
  eapply wp_mono; [by apply trace_create_begins_ok| |done]. intros [] r1 [Hsh1 Hs1]. wp_bind.
  eapply wp_mono; [apply (consume_ok w ws (S n) (ap_gas p) (r_substate r1) Hws fuel); try done; [lia| |lia]| |done].
  - destruct Hok. by split.
  - intros out r2 (v & -> & Hv). wp_bind.
    eapply wp_mono; [apply (consumed_ends (ap_gas p) ws n w _ v r2 _ Hv); intros ? ?; apply tl_done_create| |done].
    intros u r3 Hv3. apply wp_ret. exists v. by rewrite <- Hs1.
Qed.

End Safety.
