(* ===== verification/Transact.v ===== *)
(** * Execution of transactions

    [Executive::transact], [transact_virtual] and [finalize] of [ethcore/src/executive.rs],
    with [gas_required] of [ethcore/src/transaction_ext.rs] and the receipt [Executed] and
    [ExecutionError] of [ethcore/src/executed.rs].

    As in [Executive.v], [None] is the exhaustion of the fuel of a machine. *)

From S2P Require Import Prelude Schedule Vm CostType MemoryCache Account State Transaction Substate VmFactory Tracer Externalities Executive.
From stdpp Require Import base numbers option strings gmap list.

Open Scope Z_scope.
Open Scope origo_scope.

(** ** Gas paid up front *)

(** [gas_required_for]; the sum of the prices may overflow. *)
Definition gas_required_for (is_create : bool) (data : bytes) (schedule : Schedule) : option Z :=
  foldl (fun g b => g ← g; usize_add g (if b =? 0 then tx_data_zero_gas schedule else tx_data_non_zero_gas schedule))
    (Some (if is_create then tx_create_gas schedule else tx_gas schedule)) data.

Definition gas_required (t : Transaction) (schedule : Schedule) : option Z :=
  gas_required_for match t_action t with
                   | ActionCreate => true
                   | ActionCall _ | ActionPrivateToPrivate | ActionPublicToPrivate | ActionPrivateCall _ => false
                   end (t_data t) schedule.

(** ** Receipts and errors *)

(** [Executed]; the state difference is not traced here. *)
Record Executed (T V : Type) : Type := mkExecuted {
  ex_exception : option vm_error;
  ex_gas : Z;
  ex_gas_used : Z;
  ex_refunded : Z;
  ex_cumulative_gas_used : Z;
  ex_logs : list LogEntry;
  ex_contracts_created : list Z;
  ex_output : bytes;
  ex_trace : list T;
  ex_vm_trace : option V;
}.
Arguments mkExecuted {T V} _ _ _ _ _ _ _ _ _ _.
Arguments ex_exception {T V} _.
Arguments ex_gas {T V} _.
Arguments ex_gas_used {T V} _.
Arguments ex_refunded {T V} _.
Arguments ex_cumulative_gas_used {T V} _.
Arguments ex_logs {T V} _.
Arguments ex_contracts_created {T V} _.
Arguments ex_output {T V} _.
Arguments ex_trace {T V} _.
Arguments ex_vm_trace {T V} _.

(** [ExecutionError] *)
Inductive execution_error : Type :=
| NotEnoughBaseGas (required got : Z)
| BlockGasLimitReached (gas_limit gas_used gas : Z)
| ExecInvalidNonce (expected got : Z)
| NotEnoughCash (required got : Z)
| ExecMutableCallInStaticContext
| SenderMustExist
| ExecInternal (msg : string)
| TransactionMalformed (msg : string).

(** [Debug] of [TrieError]. *)
Class DebugTrieError : Type := debug_trie_error : trie_error -> string.

(** [U256::from] of a [U512]: a larger number panics. *)
Definition u256_from_u512 (x : Z) : option Z := if x <? U256_MOD then Some x else None.

Definition is_dust_off (m : CleanDustMode) : bool := match m with DustOff => true | _ => false end.

Section Transact.
Context {L : Type} {LC : LruCache L Z Z} {K : Keccak} {R : RlpPair} {SH : ShowTrieError} {DT : DebugTrieError}.
Context {D B : Type} {DB : HashDb D} {BE : Backend B D (Account L)}.
Context {T V : Type} {TR : Tracer T} {VR : VMTracer V}.
Local Abbreviation St := (State L B).
Local Abbreviation Rn := (Run St T V).
Context {EX : Executor St T V}.
Context {X F : Type} {EV : Exec (Externalities L B T V) X} {FA : Factory F X}.
Local Abbreviation Receipt := (Executed tracer_output vm_tracer_output).

(** The operator [?] on a result of the state. *)
Definition try_trie {A} (m : M St trie_error A) : M Rn execution_error A :=
  do v <- attempt (on_state m) in
  match v with inl a => ret a | inr e => throw (ExecInternal (debug_trie_error e)) end.

(** The same with the clean-up mode of the substate. *)
Definition try_cleanup (schedule : Schedule) (m : CleanupMode -> M St trie_error CleanupMode)
    : M Rn execution_error unit :=
  do r <- get in
  do mode <- try_trie (m (to_cleanup_mode (r_substate r) schedule)) in
  modify (fun r => set_substate (from_cleanup_mode mode (r_substate r)) r).

(** A computation that does not fail. *)
Definition infallible {A} (m : M Rn Empty_set A) : M Rn execution_error A :=
  fun r => match m r with
           | Ret a r' => Ret a r'
           | Throw e _ => match e : Empty_set with end
           | Panic => Panic
           end.

(** [finalize]: refunds, fees, suicides and garbage. The substate is that of the run. *)
Definition executive_finalize (self : Executive F) (st : SignedTransaction)
    (result : FinalizationResult + vm_error) (output : bytes)
    (trace : list tracer_output) (vm_trace : option vm_tracer_output) : M Rn execution_error Receipt :=
  let t := ut_unsigned (sg_transaction st) in
  let schedule := ev_schedule self in
  do r <- get in
  let substate := r_substate r in
  assert_ (0 <=? ss_sstore_clears_refund substate) ;;;
  let sstore_refunds := ss_sstore_clears_refund substate mod U64_MOD in
  do suicide_refunds <- expect (u256_mul (suicide_refund_gas schedule) (Z.of_nat (size (ss_suicides substate)))) in
  do refunds_bound <- expect (u256_add sstore_refunds suicide_refunds) in
  let gas_left_prerefund := match result with inl fr => fr_gas_left fr | inr _ => 0 end in
  do spent <- expect (u256_sub (t_gas t) gas_left_prerefund) in
  let refunded := Z.min refunds_bound (u256_shr spent 1) in
  do gas_left <- expect (u256_add gas_left_prerefund refunded) in
  let gas_used := u256_saturating_sub (t_gas t) gas_left in
  let '(refund_value, overflow_1) := u256_overflowing_mul gas_left (t_gas_price t) in
  let '(fees_value, overflow_2) := u256_overflowing_mul gas_used (t_gas_price t) in
  if overflow_1 || overflow_2 then throw (TransactionMalformed "U256 Overflow")
  else
    let sender := sg_sender st in
    (if is_input_private (t_action t)
     then try_trie (state_add_balance PRIVATE_EXECUTIVE_ADDRESS refund_value NoEmpty)
     else try_trie (state_add_balance sender refund_value NoEmpty)) ;;;
    try_cleanup schedule (state_add_balance (ei_author (ev_info self)) fees_value) ;;;
    do r <- get in
    modify_state (fun s => foldl (fun s address => kill_account address s) s
                             (elements (ss_suicides (r_substate r)))) ;;;
    let min_balance :=
      if negb (is_dust_off (kill_dust schedule))
      then Some (fst (u256_overflowing_mul (tx_gas schedule) (t_gas_price t))) else None in
    let kill_contracts := match kill_dust schedule with WithCodeAndStorage => true | _ => false end in
    modify_state (kill_garbage (ss_touched (r_substate r)) (kill_empty schedule) min_balance kill_contracts) ;;;
    do r <- get in
    match result with
    | inr (Internal msg) => throw (ExecInternal msg)
    | inr exception =>
        do cumulative <- expect (u256_add (ei_gas_used (ev_info self)) (t_gas t)) in
        ret (mkExecuted (Some exception) (t_gas t) (t_gas t) 0 cumulative [] [] output trace vm_trace)
    | inl fr =>
        do cumulative <- expect (u256_add (ei_gas_used (ev_info self)) gas_used) in
        ret (mkExecuted (if fr_apply_state fr then None else Some Reverted) (t_gas t) gas_used refunded
               cumulative (ss_logs (r_substate r)) (ss_contracts_created (r_substate r)) output trace vm_trace)
    end.

(** The parameters of the top-level call of a transaction. *)
Definition call_params (t : Transaction) (init_gas sender address : Z) (code : option bytes)
    (code_hash : option Z) (input_private output_private : bool) : ActionParams := {|
  ap_code_address := address;
  ap_address := address;
  ap_sender := sender;
  ap_origin := sender;
  ap_gas := init_gas;
  ap_gas_price := t_gas_price t;
  ap_value := Transfer (t_value t);
  ap_code := code;
  ap_code_hash := code_hash;
  ap_data := Some (t_data t);
  ap_call_type := CallCall;
  ap_params_type := Separate;
  ap_is_input_private := input_private;
  ap_is_output_private := output_private;
|}.

Definition create_params (t : Transaction) (init_gas sender address : Z) (code_hash : option Z)
    : ActionParams := {|
  ap_code_address := address;
  ap_code_hash := code_hash;
  ap_address := address;
  ap_sender := sender;
  ap_origin := sender;
  ap_gas := init_gas;
  ap_gas_price := t_gas_price t;
  ap_value := Transfer (t_value t);
  ap_code := Some (t_data t);
  ap_data := None;
  ap_call_type := CallNone;
  ap_params_type := Embedded;
  ap_is_input_private := false;
  ap_is_output_private := false;
|}.

(** The execution of the action and its output. *)
Local Abbreviation Outcome := (option ((FinalizationResult + vm_error) * bytes)).

Definition execute_action (keep_output : bool) (m : M Rn Empty_set (option (FinalizationResult + vm_error)))
    : M Rn execution_error Outcome :=
  do res <- infallible m in
  match res with
  | None => ret None
  | Some res =>
      do out <- match res with
                | inl fr => if keep_output then rd_deref (fr_return_data fr) else ret []
                | inr _ => ret []
                end in
      ret (Some (res, out))
  end.

(** A message call of the transaction to [address], by [sender]. *)
Definition transact_call (fuel : nat) (self : Executive F) (t : Transaction) (init_gas sender address : Z)
    (input_private output_private : bool) : M Rn execution_error Outcome :=
  do code <- try_trie (state_code address) in
  do code_hash <- try_trie (state_code_hash address) in
  execute_action true
    (executive_call fuel self
       (call_params t init_gas sender address code code_hash input_private output_private)).

(** The part of [transact_with_tracer] after which the transaction is valid: the gas for its
    execution, the sender's nonce and the price of its gas. *)
Definition transact_checks (self : Executive F) (st : SignedTransaction) (check_nonce : bool)
    : M Rn execution_error (Z * Z * Z) :=
  let t := ut_unsigned (sg_transaction st) in
  let schedule := ev_schedule self in
  let sender := sg_sender st in
  do nonce_ <- try_trie (nonce sender) in
  do base_gas_required <- expect (gas_required t schedule) in
  if t_gas t <? base_gas_required then throw (NotEnoughBaseGas base_gas_required (t_gas t))
  else
    do missing <-
      (if negb (is_unsigned (sg_transaction st)) && check_nonce && negb (is_dust_off (kill_dust schedule))
       then do e <- try_trie (exists_ sender) in ret (negb e) else ret false) in
    if missing : bool then throw SenderMustExist
    else
      let init_gas := t_gas t - base_gas_required in
      if check_nonce && negb (t_nonce t =? nonce_) then throw (ExecInvalidNonce nonce_ (t_nonce t))
      else
        do block_gas <- expect (u256_add (ei_gas_used (ev_info self)) (t_gas t)) in
        if ei_gas_limit (ev_info self) <? block_gas then
          throw (BlockGasLimitReached (ei_gas_limit (ev_info self)) (ei_gas_used (ev_info self)) (t_gas t))
        else
          do bal <- try_trie (balance sender) in
          let gas_cost := t_gas t * t_gas_price t in
          let total_cost := t_value t + gas_cost in
          if (bal <? total_cost) && negb (is_input_private (t_action t))
          then throw (NotEnoughCash total_cost bal)
          else ret (init_gas, nonce_, gas_cost).

(** The nonce of the sender, unless the sender is private. *)
Definition transact_nonce (self : Executive F) (st : SignedTransaction) : M Rn execution_error unit :=
  if negb (keep_unsigned_nonce (ev_schedule self)) || negb (is_unsigned (sg_transaction st)) then
    if negb (is_input_private (t_action (ut_unsigned (sg_transaction st))))
    then try_trie (state_inc_nonce (sg_sender st)) else ret tt
  else ret tt.

(** The price of the gas of a transaction with a public sender. *)
Definition transact_pay (self : Executive F) (sender gas_cost : Z) : M Rn execution_error unit :=
  do cost <- expect (u256_from_u512 gas_cost) in
  try_cleanup (ev_schedule self) (state_sub_balance sender cost).

(** [transact_with_tracer] up to the finalisation, which all branches of its [match] end
    with. *)
Definition transact_execute (fuel : nat) (self : Executive F) (st : SignedTransaction)
    (check_nonce output_from_create : bool) : M Rn execution_error Outcome :=
  let t := ut_unsigned (sg_transaction st) in
  let sender := sg_sender st in
  do '(init_gas, nonce_, gas_cost) <- transact_checks self st check_nonce in
  modify (set_substate substate_new) ;;;
  transact_nonce self st ;;;
  match t_action t with
  | ActionPrivateToPrivate =>
      transact_call fuel self t init_gas PRIVATE_EXECUTIVE_ADDRESS PRIVATE_EXECUTIVE_ADDRESS true true
  | ActionPublicToPrivate =>
      transact_pay self sender gas_cost ;;;
      transact_call fuel self t init_gas sender PRIVATE_EXECUTIVE_ADDRESS false true
  | ActionPrivateCall address =>
      transact_call fuel self t init_gas PRIVATE_EXECUTIVE_ADDRESS address true false
  | ActionCreate =>
      transact_pay self sender gas_cost ;;;
      let '(new_address, code_hash) :=
        contract_address (create_address_scheme (ev_machine self) (ei_number (ev_info self)))
          sender nonce_ (t_data t) in
      execute_action output_from_create
        (executive_create fuel self (create_params t init_gas sender new_address code_hash))
  | ActionCall address =>
      transact_pay self sender gas_cost ;;;
      transact_call fuel self t init_gas sender address false false
  end.

Definition transact_with_tracer (fuel : nat) (self : Executive F) (st : SignedTransaction)
    (check_nonce output_from_create : bool) : M Rn execution_error (option Receipt) :=
  do executed <- transact_execute fuel self st check_nonce output_from_create in
  match executed with
  | None => ret None
  | Some (res, out) =>
      do r <- get in
      do receipt <- executive_finalize self st res out (tracer_drain (r_tracer r))
                      (vm_tracer_drain (r_vm_tracer r)) in
      ret (Some receipt)
  end.

(** [TransactOptions]; the tracers are those of the run. *)
Record TransactOptions : Type := mkTransactOptions {
  to_check_nonce : bool;
  to_output_from_init_contract : bool;
}.

Definition transact (fuel : nat) (self : Executive F) (st : SignedTransaction) (options : TransactOptions)
    : M Rn execution_error (option Receipt) :=
  transact_with_tracer fuel self st (to_check_nonce options) (to_output_from_init_contract options).

Definition transact_virtual (fuel : nat) (self : Executive F) (st : SignedTransaction) (options : TransactOptions)
    : M Rn execution_error (option Receipt) :=
  let t := ut_unsigned (sg_transaction st) in
  let sender := sg_sender st in
  do bal <- try_trie (balance sender) in
  let needed_balance := u256_saturating_add (t_value t) (u256_saturating_mul (t_gas t) (t_gas_price t)) in
  (if bal <? needed_balance then
     do missing <- expect (u256_sub needed_balance bal) in
     try_trie (state_add_balance sender missing NoEmpty) ;;; ret tt
   else ret tt) ;;;
  transact fuel self st options.

End Transact.
