(* ===== verification/ExecutionTwins.v ===== *)
(** * Executions do not depend on the caches

    Two executions of a message call, a contract creation or a transaction from alike states
    ([StateTwins.v]) end in the same way: with equal results, errors, receipts and traces,
    and in alike states. The host, the executive and the transaction only use the state
    through its methods; [MethodTwins] is what they rely on. *)

From S2P Require Import Prelude Schedule Vm CostType MemoryCache Account State StateSpec StateRefine Transaction Substate JumpTable Interpreter VmFactory Tracer Externalities Executive Transact Twins StateTwins.
From stdpp Require Import base numbers option strings gmap list.

Open Scope Z_scope.
Open Scope origo_scope.

(** ** What is relied on *)

(** The methods of the state respect [R]. *)
Class MethodTwins {L B D : Type} {LC : LruCache L Z Z} {K : Keccak} {DB : HashDb D} {BE : Backend B D (Account L)}
    (R : State L B -> State L B -> Prop) : Prop := {
  tw_exists a : respects R (exists_ a);
  tw_exists_and_not_null a : respects R (exists_and_not_null a);
  tw_has_code_or_nonce a : respects R (exists_and_has_code_or_nonce a);
  tw_balance a : respects R (balance a);
  tw_nonce a : respects R (nonce a);
  tw_code_hash a : respects R (state_code_hash a);
  tw_code a : respects R (state_code a);
  tw_code_size a : twin R (fun r r' => default 0 r = default 0 r') (state_code_size a) (state_code_size a);
  tw_base_root a : respects R (state_is_base_storage_root_unchanged a);
  tw_storage_at a k : respects R (state_storage_at a k);
  tw_checkpoint_storage_at i a k : 0 <= i -> respects R (checkpoint_storage_at i a k);
  tw_add_balance a x mode : respects R (state_add_balance a x mode);
  tw_sub_balance a x mode : respects R (state_sub_balance a x mode);
  tw_transfer from to x mode : respects R (transfer_balance from to x mode);
  tw_inc_nonce a : respects R (state_inc_nonce a);
  tw_set_storage a k x : respects R (state_set_storage a k x);
  tw_init_code a code : respects R (state_init_code a code);
  tw_new_contract a b off : respects R (state_new_contract a b off);
  tw_take_checkpoint s s' : R s s' -> R (snd (checkpoint s)) (snd (checkpoint s'));
  tw_discard_checkpoint s s' : R s s' -> R (discard_checkpoint s) (discard_checkpoint s');
  tw_revert_to_checkpoint s s' : R s s' -> R (revert_to_checkpoint s) (revert_to_checkpoint s');
}.
#[export] Hint Resolve tw_exists tw_exists_and_not_null tw_has_code_or_nonce tw_balance tw_nonce tw_code_hash tw_code
  tw_base_root tw_storage_at tw_add_balance tw_sub_balance tw_transfer tw_inc_nonce
  tw_set_storage tw_init_code tw_new_contract : twins.

(** A virtual machine respects a relation between its hosts. *)
Class ExecTwins {E X : Type} {EV : Exec E X} (RE : E -> E -> Prop) : Prop :=
  exec_respects : forall fuel x, respects RE (vm_exec fuel x).

Lemma twin_attempt {S S' Er Er' A} (R : S -> S' -> Prop) (m : M S Er A) (m' : M S' Er A) :
  twin R eq m m' -> twin R eq (attempt (Er' := Er') m) (attempt m').
Proof.
  intros Hm s s' Hs. specialize (Hm s s' Hs). unfold attempt. destruct (m s), (m' s'); cbn in *; try done; by destruct Hm as [<- ?].
Qed.

(** ** Runs and hosts *)

Section Runs.
Context {L : Type} {LC : LruCache L Z Z} {K : Keccak} {RP : RlpPair} {SH : ShowTrieError}.
Context {D B : Type} {DB : HashDb D} {BE : Backend B D (Account L)}.
Context {T V : Type} {TR : Tracer T} {VR : VMTracer V}.
Local Abbreviation St := (State L B).
Local Abbreviation Rn := (Run St T V).
Local Abbreviation Xt := (Externalities L B T V).

Inductive same_run (R : St -> St -> Prop) : Rn -> Rn -> Prop :=
| same_run_intro s s' ss t v : R s s' -> same_run R (mkRun s ss t v) (mkRun s' ss t v).

Inductive same_host (R : St -> St -> Prop) : Xt -> Xt -> Prop :=
| same_host_intro r r' env d sd oi m sch out st : same_run R r r' ->
    same_host R (mkExternalities r env d sd oi m sch out st) (mkExternalities r' env d sd oi m sch out st).

(** Nested executions. *)
Class ExecutorTwins (EX : Executor St T V) (R : St -> St -> Prop) : Prop := {
  xt_call info machine sch d st p sd : respects (same_run R) (executor_call info machine sch d st p sd);
  xt_create info machine sch d st p sd : respects (same_run R) (executor_create info machine sch d st p sd);
}.

Context (R : St -> St -> Prop).

Lemma on_run_twin {Er A} (Q : A -> A -> Prop) (m m' : M Rn Er A) : twin (same_run R) Q m m' -> twin (same_host R) Q (on_run m) (on_run m').
Proof.
  intros Hm x x' Hx. destruct Hx as [r r' env d sd oi ma sch out st Hr]. specialize (Hm r r' Hr). unfold on_run. cbn.
  destruct (m r), (m' r'); cbn in *; try done; destruct Hm; by split.
Qed.

Lemma on_state_twin {A} (Q : A -> A -> Prop) (m m' : M St trie_error A) : twin R Q m m' -> twin (same_run R) Q (on_state m) (on_state m').
Proof.
  intros Hm x x' Hx. destruct Hx as [s s' ss t v Hs]. specialize (Hm s s' Hs). unfold on_state. cbn.
  destruct (m s), (m' s'); cbn in *; try done; destruct Hm; by split.
Qed.

Lemma try_state_twin {A} (Q : A -> A -> Prop) (m m' : M St trie_error A) : twin R Q m m' -> twin (same_run R) Q (try_state m) (try_state m').
Proof.
  intros Hm x x' Hx. specialize (on_state_twin Q m m' Hm x x' Hx). unfold try_state, bind, attempt.
  destruct (on_state m x), (on_state m' x'); cbn; try done. by intros [<- ?].
Qed.

(** Functions of what is equal on both sides. *)
Lemma getx_twin {Er A} (f : Xt -> A) : (forall x x', same_host R x x' -> f x = f x') -> twin (Er := Er) (same_host R) eq (getx f) (getx f).
Proof. apply twin_gets. Qed.

Lemma set_substate_twin {Er} ss : twin (Er := Er) (same_run R) eq (modify (set_substate ss)) (modify (set_substate ss)).
Proof. apply twin_modify. by intros r r' []. Qed.

Lemma set_tracer_twin {Er} t : twin (Er := Er) (same_run R) eq (modify (set_tracer t)) (modify (set_tracer t)).
Proof. apply twin_modify. by intros r r' []. Qed.

Lemma set_vm_tracer_twin {Er} t : twin (Er := Er) (same_run R) eq (modify (set_vm_tracer t)) (modify (set_vm_tracer t)).
Proof. apply twin_modify. by intros r r' []. Qed.

End Runs.

#[export] Hint Resolve xt_call xt_create set_substate_twin set_tracer_twin set_vm_tracer_twin : twins.
Ltac twin_enter ::= first [apply twin_infallible|apply lift_ext_twin|apply on_run_twin|apply try_state_twin|apply on_state_twin
  |apply twin_attempt|solve [apply twin_modify; intros ? ? []; constructor; assumption]].

(** A program that reads the run or the host goes on with equal parts of it. *)
Ltac twin_reads :=
  match goal with
  | |- twin _ _ (bind get _) (bind get _) => apply twin_at; let H := fresh in intros ? ? H;
      lazymatch type of H with
      | same_host _ _ _ => destruct H as [? ? ? ? ? ? ? ? ? ? H]; destruct H as [? ? ? ? ? H]
      | same_run _ _ _ => destruct H as [? ? ? ? ? H]
      end;
      cbv zeta; unfold my_address; cbn [x_run x_env_info x_depth x_stack_depth x_origin_info x_machine x_schedule x_output x_static_flag
           r_state r_substate r_tracer r_vm_tracer]
  | |- twin _ _ (getx _) (getx _) => apply getx_twin; by intros ? ? [? ? ? ? ? ? ? ? ? ? []]
  end.
Ltac run_twins := cbv zeta; repeat ((twin_reads || twin_step); cbv zeta).

(** ** The host *)

Section Host.
Context {L : Type} {LC : LruCache L Z Z} {K : Keccak} {RP : RlpPair} {SH : ShowTrieError}.
Context {D B : Type} {DB : HashDb D} {BE : Backend B D (Account L)}.
Context {T V : Type} {TR : Tracer T} {VR : VMTracer V}.
Local Abbreviation St := (State L B).
Local Abbreviation Rn := (Run St T V).
Context {EX : Executor St T V} (R : St -> St -> Prop) {ST : MethodTwins R} {XT : ExecutorTwins EX R}.
Local Abbreviation RR := (same_run (T := T) (V := V) R).
Local Abbreviation RX := (same_host (T := T) (V := V) R).

Lemma with_cleanup_twin sch (m : CleanupMode -> M St trie_error CleanupMode) : (forall mode, respects R (m mode)) ->
  respects RR (with_cleanup sch m).
Proof. intros Hm. unfold with_cleanup. run_twins. Qed.

Lemma rd_deref_twin {S Er} (RS : S -> S -> Prop) d : twin (Er := Er) RS eq (rd_deref d) (rd_deref d).
Proof. unfold rd_deref. twins. Qed.
Hint Resolve with_cleanup_twin rd_deref_twin : twins.

Lemma first_checkpoint_twin a k : respects R (checkpoint_storage_at 0 a k).
Proof. by apply tw_checkpoint_storage_at. Qed.
Hint Resolve first_checkpoint_twin : twins.

Lemma suicide_twin a : respects RX (x_suicide a).
Proof. unfold x_suicide, lift_state, modify_substate. run_twins. Qed.

Lemma blockhash_contract_twin n : respects RX (blockhash_contract n).
Proof. unfold blockhash_contract. run_twins. Qed.
Hint Resolve blockhash_contract_twin : twins.

Lemma create_twin g v c s t : respects RX (x_create g v c s t).
Proof. unfold x_create. run_twins. Qed.

#[export] Instance host_twins : ExtTwins RX.
Proof.
  split; intros; cbn [Externalities_Ext ext_initial_storage_at ext_storage_at ext_set_storage ext_exists ext_exists_and_not_null
    ext_origin_balance ext_balance ext_blockhash ext_create ext_call ext_extcode ext_extcodehash ext_extcodesize ext_log ext_ret ext_suicide
    ext_schedule ext_env_info ext_depth ext_add_sstore_refund ext_sub_sstore_refund ext_trace_next_instruction ext_trace_prepare_execute
    ext_trace_executed ext_is_static]; try by destruct H.
  all: try solve [run_twins].
  apply on_run_twin, try_state_twin, tw_code_size.
Qed.

End Host.
#[export] Hint Resolve with_cleanup_twin rd_deref_twin host_twins : twins.

(** ** The executive *)

Section Executive.
Context {L : Type} {LC : LruCache L Z Z} {K : Keccak} {RP : RlpPair} {SH : ShowTrieError}.
Context {D B : Type} {DB : HashDb D} {BE : Backend B D (Account L)}.
Context {T V : Type} {TR : Tracer T} {VR : VMTracer V}.
Local Abbreviation St := (State L B).
Local Abbreviation Rn := (Run St T V).
Context {EX : Executor St T V} (R : St -> St -> Prop) {ST : MethodTwins R} {XT : ExecutorTwins EX R}.
Context {X F : Type} {EV : Exec (Externalities L B T V) X} {FA : Factory F X}.
Local Abbreviation RR := (same_run (T := T) (V := V) R).
Local Abbreviation RX := (same_host (T := T) (V := V) R).
Context {VT : ExecTwins RX}.

Lemma modify_state_twin {Er} (f : St -> St) : (forall s s', R s s' -> R (f s) (f s')) -> twin (Er := Er) RR eq (modify_state f) (modify_state f).
Proof. intros Hf. apply twin_modify. intros r r' [s s' ss t v Hs]. constructor. by apply Hf. Qed.

Lemma take_checkpoint_twin {Er} : twin (Er := Er) RR eq take_checkpoint take_checkpoint.
Proof. apply modify_state_twin, tw_take_checkpoint. Qed.

Lemma discard_checkpoint_twin {Er} : twin (Er := Er) RR eq (modify_state discard_checkpoint) (modify_state discard_checkpoint).
Proof. apply modify_state_twin, tw_discard_checkpoint. Qed.

Lemma revert_to_checkpoint_twin {Er} : twin (Er := Er) RR eq (modify_state revert_to_checkpoint) (modify_state revert_to_checkpoint).
Proof. apply modify_state_twin, tw_revert_to_checkpoint. Qed.
Hint Resolve take_checkpoint_twin discard_checkpoint_twin revert_to_checkpoint_twin : twins.

Lemma private_to_public_twin from to x mode : respects R (transfer_balance_from_private_to_public from to x mode).
Proof. twins. Qed.

Lemma public_to_private_twin from to x mode : respects R (transfer_balance_from_public_to_private from to x mode).
Proof. twins. Qed.
Hint Resolve private_to_public_twin public_to_private_twin : twins.

Lemma transfer_exec_balance_twin p sch : respects RR (transfer_exec_balance p sch).
Proof. run_twins. Qed.

Lemma enact_result_twin res un : respects RR (enact_result res un).
Proof. run_twins. Qed.
Hint Resolve transfer_exec_balance_twin enact_result_twin : twins.

Lemma finalize_twin val : respects RX (finalize val).
Proof. run_twins. Qed.
Hint Resolve finalize_twin : twins.

Lemma run_machine_twin fuel (self : CallCreateExecutive X F) oi x un out : respects RR (run_machine fuel self oi x un out).
Proof.
  intros r r' [s s' ss t v Hs]. unfold run_machine. cbv zeta. unfold as_externalities, set_substate. cbn [r_state r_tracer r_vm_tracer r_substate].
  match goal with |- ends _ _ (match ?m ?e with _ => _ end) (match _ ?e' with _ => _ end) =>
    assert (Hm : ends RX eq (m e) (m e')) end.
  - match goal with |- ends _ _ (?m _) _ => assert (Hm : respects RX m) end; [|by apply Hm].
    twin_step; [apply exec_respects|]. run_twins.
  - destruct (bind _ _ _) as [[o res] x1|[]|], (bind _ _ _) as [[o' res'] x1'|[]|]; try done.
    destruct Hm as [[= <- <-] Hx]. by destruct Hx as [? ? ? ? ? ? ? ? ? ? []].
Qed.
Hint Resolve run_machine_twin : twins.

Lemma exec_executive_twin fuel (self : CallCreateExecutive X F) : respects RR (exec_executive fuel self).
Proof. run_twins. Qed.

Lemma resume_call_twin fuel (self : CallCreateExecutive X F) res : respects RR (executive_resume_call fuel self res).
Proof. run_twins. Qed.

Lemma resume_create_twin fuel (self : CallCreateExecutive X F) res : respects RR (executive_resume_create fuel self res).
Proof. run_twins. Qed.
Hint Resolve exec_executive_twin resume_call_twin resume_create_twin : twins.

Lemma with_parent_substate_twin {A} callstack (m : M Rn Empty_set A) : respects RR m ->
  respects RR (with_parent_substate (X := X) (F := F) callstack m).
Proof. intros Hm. unfold with_parent_substate. run_twins. Qed.

Lemma trace_ends_twin gas val f : respects RR (trace_ends gas val f).
Proof. run_twins. Qed.
Hint Resolve with_parent_substate_twin trace_ends_twin : twins.

Lemma consume_step_twin fuel last callstack : respects RR (consume_step (X := X) (F := F) fuel last callstack).
Proof. run_twins. Qed.
Hint Resolve consume_step_twin : twins.

Lemma consume_loop_twin n fuel last callstack : respects RR (consume_loop (X := X) (F := F) n fuel last callstack).
Proof. revert last callstack. induction n as [|n IH]; intros last callstack; cbn [consume_loop]; run_twins. Qed.
Hint Resolve consume_loop_twin : twins.

Lemma call_twin fuel (self : Executive F) p sd : respects RR (call_with_stack_depth fuel self p sd).
Proof. run_twins. Qed.

Lemma create_with_stack_depth_twin fuel (self : Executive F) p sd : respects RR (create_with_stack_depth fuel self p sd).
Proof. run_twins. Qed.
Hint Resolve call_twin create_with_stack_depth_twin : twins.

Lemma as_result_twin (m : M Rn Empty_set (option (FinalizationResult + vm_error))) : respects RR m -> respects RR (as_result m).
Proof.
  intros Hm r r' Hr. specialize (Hm r r' Hr). unfold as_result. destruct (m r) as [[[]|]|[]|], (m r') as [[[]|]|[]|]; cbn in *; try done;
    destruct Hm as [Hm ?]; by simplify_eq.
Qed.

Lemma executor_twins fuel factory : ExecutorTwins (executive_executor fuel factory) R.
Proof. split; intros; apply as_result_twin; eauto with twins. Qed.

End Executive.
#[export] Hint Resolve modify_state_twin call_twin create_with_stack_depth_twin : twins.

(** Executions are nested. *)
Section Nesting.
Context {L : Type} {LC : LruCache L Z Z} {K : Keccak} {RP : RlpPair} {SH : ShowTrieError}.
Context {D B : Type} {DB : HashDb D} {BE : Backend B D (Account L)}.
Context {T V : Type} {TR : Tracer T} {VR : VMTracer V}.
Context (R : State L B -> State L B -> Prop) {ST : MethodTwins R}.
Context {X F : Type} (EV : Executor (State L B) T V -> Exec (Externalities L B T V) X) {FA : Factory F X}.
Context (HX : forall EX, ExecutorTwins EX R -> ExecTwins (EV := EV EX) (same_host (T := T) (V := V) R)).

Lemma nested_twins n fuel factory : ExecutorTwins (nested_executor EV n fuel factory) R.
Proof.
  induction n as [|n IH]; cbn [nested_executor].
  - split; intros; apply twin_panic.
  - specialize (HX _ IH). by apply executor_twins.
Qed.

End Nesting.

(** The interpreter respects every relation that its host respects; the wasm engine by
    assumption. *)
Section Machines.
Context {C : Type} {DC : DestCache C} {K : Keccak} {E : Type} {XE : Ext E}.
Context {W : Type} {WE : Exec E W} (RE : E -> E -> Prop) {XT : ExtTwins RE} {WT : ExecTwins (X := W) RE}.

Lemma evm_exec_twin fuel (x : Evm C) : respects RE (evm_exec fuel x).
Proof.
  intros e e' He. unfold evm_exec.
  pose proof (exec_twin (Cost := evm_cost x) RE fuel (evm_interp x, e) (evm_interp x, e') (conj eq_refl He)) as Hx.
  destruct (exec fuel (evm_interp x, e)) as [r [i e1]|[]|], (exec fuel (evm_interp x, e')) as [r' [i' e1']|[]|]; try done.
  destruct Hx as [<- [Hi He1]]. cbn in Hi, He1. subst i'. by destruct r as [[]|].
Qed.

#[export] Instance box_twins : ExecTwins (X := ExecBox C W) RE.
Proof.
  intros fuel [x|x]; cbn [vm_exec ExecBox_Exec].
  - twin_step; [apply evm_exec_twin|twins].
  - twin_step; [apply exec_respects|twins].
Qed.

End Machines.

(** ** Transactions *)

(** From states that [R] relates to states that [F] relates. *)
Definition leads {S S' Er A A'} (R F : S -> S' -> Prop) (Q : A -> A' -> Prop) (m : M S Er A) (m' : M S' Er A') : Prop :=
  forall s s', R s s' -> ends F Q (m s) (m' s').

Section Leads.
Context {S S' Er : Type} (R F : S -> S' -> Prop) (HRF : forall s s', R s s' -> F s s').

Lemma leads_bind {A A' C C'} (Q : A -> A' -> Prop) (Q' : C -> C' -> Prop) (m : M S Er A) m' (k : A -> M S Er C) k' :
  twin R Q m m' -> (forall a a', Q a a' -> leads R F Q' (k a) (k' a')) -> leads R F Q' (bind m k) (bind m' k').
Proof.
  intros Hm Hk s s' Hs. specialize (Hm s s' Hs). unfold bind. destruct (m s), (m' s'); cbn in *; try done.
  - destruct Hm. by apply Hk.
  - destruct Hm. split; [done|]. by apply HRF.
Qed.

Lemma leads_at {A A'} (Q : A -> A' -> Prop) (k : S -> M S Er A) (k' : S' -> M S' Er A') :
  (forall s s', R s s' -> leads R F Q (k s) (k' s')) -> leads R F Q (bind get k) (bind get k').
Proof. intros Hk s s' Hs. by apply Hk. Qed.

Lemma leads_twin {A A'} (Q : A -> A' -> Prop) (m : M S Er A) (m' : M S' Er A') : twin F Q m m' -> leads R F Q m m'.
Proof. intros Hm s s' Hs. by apply Hm, HRF. Qed.

End Leads.

(** Accounts are removed: states related by [R] become related by [F] only. *)
Class GarbageTwins {L B : Type} {LC : LruCache L Z Z} {K : Keccak} (R F : State L B -> State L B -> Prop) : Prop := {
  gt_weaken s s' : R s s' -> F s s';
  gt_kill l s s' : F s s' -> F (foldl (fun s a => kill_account a s) s l) (foldl (fun s a => kill_account a s) s' l);
  gt_garbage touched ke kc s s' : F s s' -> F (kill_garbage touched ke None kc s) (kill_garbage touched ke None kc s');
}.

Section Transact.
Context {L : Type} {LC : LruCache L Z Z} {K : Keccak} {RP : RlpPair} {SH : ShowTrieError} {DT : DebugTrieError}.
Context {D B : Type} {DB : HashDb D} {BE : Backend B D (Account L)}.
Context {T V : Type} {TR : Tracer T} {VR : VMTracer V}.
Local Abbreviation St := (State L B).
Local Abbreviation Rn := (Run St T V).
Context {EX : Executor St T V} (R G : St -> St -> Prop) {ST : MethodTwins R} {GT : GarbageTwins R G} {XT : ExecutorTwins EX R}.
Context {X F : Type} {EV : Exec (Externalities L B T V) X} {FA : Factory F X}.
Local Abbreviation RR := (same_run (T := T) (V := V) R).
Local Abbreviation RG := (same_run (T := T) (V := V) G).
Local Abbreviation RX := (same_host (T := T) (V := V) R).
Context {VT : ExecTwins RX}.

Lemma try_trie_twin {A} (m m' : M St trie_error A) : twin R eq m m' -> twin RR eq (try_trie m) (try_trie m').
Proof. intros Hm. unfold try_trie. eapply (twin_bind _ eq); [apply twin_attempt, on_state_twin, Hm|]. intros v ? <-. twins. Qed.

Lemma no_error_twin {A} (m m' : M Rn Empty_set A) : twin RR eq m m' -> twin RR eq (Transact.infallible m) (Transact.infallible m').
Proof.
  intros Hm r r' Hr. specialize (Hm r r' Hr). unfold Transact.infallible.
  destruct (m r) as [|[]|], (m' r') as [|[]|]; done.
Qed.

Ltac twin_enter ::= first [apply try_trie_twin|apply no_error_twin|apply on_state_twin
  |apply twin_attempt|solve [apply twin_modify; intros ? ? []; constructor; assumption]].

Lemma try_cleanup_twin sch (m : CleanupMode -> M St trie_error CleanupMode) : (forall mode, respects R (m mode)) ->
  respects RR (try_cleanup sch m).
Proof. intros Hm. unfold try_cleanup. run_twins. Qed.
Hint Resolve try_cleanup_twin : twins.

Lemma transact_execute_twin fuel (self : Executive F) st cn oc : respects RR (transact_execute fuel self st cn oc).
Proof. run_twins. Qed.
Hint Resolve transact_execute_twin : twins.

Lemma run_weaken r r' : RR r r' -> RG r r'.
Proof. intros [s s' ss t v Hs]. constructor. by apply gt_weaken. Qed.

Lemma kill_twin {Er} l : twin (Er := Er) RG eq (modify_state (fun s => foldl (fun s a => kill_account a s) s l)) (modify_state (fun s => foldl (fun s a => kill_account a s) s l)).
Proof. apply modify_state_twin. apply gt_kill. Qed.

Lemma garbage_twin {Er} touched ke kc : twin (Er := Er) RG eq (modify_state (kill_garbage touched ke None kc)) (modify_state (kill_garbage touched ke None kc)).
Proof. apply modify_state_twin. apply gt_garbage. Qed.
Hint Resolve kill_twin garbage_twin : twins.

Ltac leads_step :=
  lazymatch goal with
  | |- leads _ _ _ (bind get _) (bind get _) => apply leads_at; let H := fresh in intros ? ? H; destruct H as [? ? ? ? ? H];
      cbn [r_state r_substate r_tracer r_vm_tracer]
  | |- leads _ _ _ (bind (modify_state _) _) _ => apply leads_twin; [exact run_weaken|]
  | |- leads _ _ _ (bind _ _) (bind _ _) => eapply (leads_bind _ _ run_weaken eq); [run_twins|intros ? ? <-; cbv beta]
  | |- leads _ _ _ (throw _) (throw _) => apply leads_twin; [exact run_weaken|]
  | |- leads _ _ _ (let '_ := ?x in _) (let '_ := ?x in _) => destruct x
  | |- leads _ _ _ (if ?x then _ else _) (if ?x then _ else _) => destruct x
  end.

Lemma finalize_leads (self : Executive F) st res out trace vm_trace : kill_dust (ev_schedule self) = DustOff ->
  leads RR RG eq (executive_finalize self st res out trace vm_trace) (executive_finalize self st res out trace vm_trace).
Proof. intros Hd. unfold executive_finalize. rewrite Hd. cbn [is_dust_off negb]. repeat (cbv zeta; leads_step). all: run_twins. Qed.

(** Transactions from alike states: the same receipt or error. *)
Lemma transact_leads fuel (self : Executive F) st options : kill_dust (ev_schedule self) = DustOff ->
  leads RR RG eq (transact fuel self st options) (transact fuel self st options).
Proof.
  intros Hd. unfold transact, transact_with_tracer. leads_step. destruct a as [[res out]|].
  - leads_step. intros r r' Hr. pose proof (finalize_leads self st res out (tracer_drain t) (vm_tracer_drain v) Hd r r' Hr) as Hf.
    unfold bind. destruct (executive_finalize _ _ _ _ _ _ r), (executive_finalize _ _ _ _ _ _ r'); cbn in *; try done.
    by destruct Hf as [<- ?].
  - apply leads_twin; [exact run_weaken|]. by apply twin_ret.
Qed.

End Transact.

(** ** Alike states

    What the executions rely on is what [StateTwins.v] shows. *)

Section Alike.
Context {L : Type} {LC : LruCache L Z Z} {K : Keccak} (entries : L -> list (Z * Z)) {laws : LruCacheLaws entries}.
Context {D B : Type} {DB : HashDb D} {BE : Backend B D (Account L)}.
Context (codes : Z -> bytes) (root : Z) (disk : Z -> option BasicAccount) (start : Z) (Hempty : keccak [] = KECCAK_EMPTY).
Context (db db' : D) (Hdb : db_complete codes db root disk) (Hdb' : db_complete codes db' root disk).
Context (Hvalues : forall a b k, disk a = Some b -> trie_value db a (ba_storage_root b) k = trie_value db' a (ba_storage_root b) k).
Context (BInv BInv' : B -> Prop) {BL : BackendLaws entries codes db disk BInv} {BL' : BackendLaws entries codes db' disk BInv'}.
Local Abbreviation alike := (alike entries codes root disk start db db' BInv BInv').
Local Abbreviation like := (like entries codes root disk start db db' BInv BInv').

Lemma alike_methods : MethodTwins alike.
Proof.
  split; intros.
  - by apply exists_twin.
  - by apply exists_and_not_null_twin.
  - by apply has_code_or_nonce_twin.
  - by apply balance_twin.
  - by apply nonce_twin.
  - by apply code_hash_twin.
  - by apply code_twin.
  - by apply code_size_twin.
  - by apply base_root_twin.
  - by apply storage_at_twin.
  - by apply checkpoint_storage_at_twin.
  - by apply add_balance_twin.
  - by apply sub_balance_twin.
  - by apply transfer_twin.
  - by apply inc_nonce_twin.
  - by apply set_storage_twin.
  - by apply init_code_twin.
  - by apply new_contract_twin.
  - by apply checkpoint_alike.
  - by apply discard_alike.
  - by apply revert_alike.
Qed.

Lemma alike_garbage : (forall a b, disk a = Some b -> is_null (Account_from (L := L) b) = false) -> GarbageTwins alike like.
Proof.
  intros Hfull. split.
  - by intros s s' [].
  - intros l s s'. by apply kill_accounts_like.
  - intros touched ke kc s s'. by apply kill_garbage_like.
Qed.

(** States that were opened on the two databases. *)
Lemma opened_alike b b' : BInv b -> BInv' b' -> exists s s', from_existing b root start = inl s /\
  from_existing b' root start = inl s' /\ alike s s'.
Proof.
  intros Hb Hb'. destruct (from_existing_sim entries codes db root disk start Hdb BInv b Hb) as (s & Hs & Hi & _).
  destruct (from_existing_sim entries codes db' root disk start Hdb' BInv' b' Hb') as (s' & Hs' & Hi' & _).
  exists s, s'. split; [done|]. split; [done|]. unfold from_existing in Hs, Hs'.
  destruct (db_contains (as_hash_db b) root), (db_contains (as_hash_db b') root); simplify_eq.
  split; [|constructor]. by split_and!.
Qed.

End Alike.
