(* ===== verification/TransactSafety.v ===== *)
(** * Transactions are executed or rejected

    [transact_execute] and [executive_finalize] over a state that shows worlds: a
    transaction that does not pass the checks leaves the world as it was; one that passes
    counts its nonce, pays its gas and is executed within it ([charged], [transact_action]);
    then the price is split between the sender and the author of the block ([settled]) and
    accounts are removed ([swept]). Each world is given exactly. *)

From S2P Require Import Prelude Schedule Instructions Vm CostType Gasometer Memory MemoryCache Account State StateSpec Worlds WorldLogic Transaction Substate JumpTable Interpreter InterpreterSafety VmFactory Tracer Externalities ExternalitiesLaws Executive ExecutiveSafety Transact.
From stdpp Require Import base numbers option strings gmap list.

Open Scope Z_scope.
Open Scope origo_scope.

(** What a transaction is decoded to. *)
Record signed_wf (st : SignedTransaction) : Prop := {
  sw_nonce : is_u256 (t_nonce (ut_unsigned (sg_transaction st)));
  sw_gas_price : is_u256 (t_gas_price (ut_unsigned (sg_transaction st)));
  sw_value : is_u256 (t_value (ut_unsigned (sg_transaction st)));
  sw_data : vec_ok (t_data (ut_unsigned (sg_transaction st)));
  sw_sender : is_address (sg_sender st);
  sw_action : match t_action (ut_unsigned (sg_transaction st)) with
              | ActionCall a | ActionPrivateCall a => is_address a
              | _ => True
              end;
}.

Section Safety.
Context {L : Type} {LC : LruCache L Z Z} {K : Keccak} {R : RlpPair} {SH : ShowTrieError} {DT : DebugTrieError}.
Context {D B : Type} {DB : HashDb D} {BE : Backend B D (Account L)}.
Context {T V : Type} {TR : Tracer T} {VR : VMTracer V} {EX : Executor (State L B) T V}.
Local Abbreviation St := (State L B).
Local Abbreviation Rn := (Run St T V).
Local Abbreviation Ex := (Externalities L B T V).
Context {X F : Type} {EV : Exec Ex X} {FA : Factory F X}.

Context (HK : forall b, is_u256 (keccak b)) (start : Z) (Hstart : 0 <= start < U256_MOD - 1).
Context (sim : St -> world * list world -> Prop) {SL : StateLaws start sim}.
Context (tlevel : nat -> T -> Prop) {TL : TracerLaws tlevel}.
Context (vlevel : nat -> V -> Prop) {VL : VMTracerLaws vlevel}.
Context (vm_ready : Z -> (Ex -> Prop) -> X -> Ex -> Z -> Prop).
Context (vm_waiting : Z -> (Ex -> Prop) -> X -> TrapKind -> Ex -> Z -> Prop).
Context {XL : ExecLaws vm_ready vm_waiting}.
Context (factory_ok : F -> Prop) (suits : Schedule -> Prop) {FL : FactoryLaws vm_ready factory_ok suits}.

Local Abbreviation shows := (shows sim tlevel vlevel).
Local Abbreviation executive_ok := (executive_ok factory_ok suits).

(** ** Rules *)

Lemma wp_try_trie {A} ws n (m : M St trie_error A) (r : Rn) w (Q : A -> world -> Prop)
    (Q' : A -> Rn -> Prop) (P : execution_error -> Rn -> Prop) :
  shows ws n w r -> does sim m w ws Q ->
  (forall a w' r', Q a w' -> shows ws n w' r' -> r_substate r' = r_substate r -> Q' a r') ->
  wp (try_trie m) Q' P r.
Proof.
  intros Hsh Hm HQ. unfold try_trie. wp_bind. eapply (wp_attempt_state sim tlevel vlevel); [done..|].
  intros a w' r' HQa Hsh' Hss. apply wp_ret. eauto.
Qed.

Lemma wp_try_cleanup ws n sch m (r : Rn) w (Q : CleanupMode -> world -> Prop) (Q' : unit -> Rn -> Prop)
    (P : execution_error -> Rn -> Prop) :
  shows ws n w r -> does sim (m (to_cleanup_mode (r_substate r) sch)) w ws Q ->
  (forall mode w' r', Q mode w' -> shows ws n w' r' -> r_substate r' = from_cleanup_mode mode (r_substate r) -> Q' tt r') ->
  wp (try_cleanup sch m) Q' P r.
Proof.
  intros Hsh Hm HQ. unfold try_cleanup. wp_bind. cbn. wp_bind.
  eapply wp_try_trie; [done|apply Hm|]. intros mode w' r' Hw' Hsh' Hss.
  apply wp_modify. apply (HQ mode w'); [done|done|]. cbn. by rewrite Hss.
Qed.

Lemma wp_infallible_run {A} (m : M Rn Empty_set A) (Q : A -> Rn -> Prop) (P : execution_error -> Rn -> Prop) r :
  wp m Q (fun _ _ => False) r -> wp (infallible m) Q P r.
Proof. unfold wp, infallible. destruct (m r) as [a r'|[]|]; done. Qed.

(** The run that a rule speaks about. *)
Lemma wp_returns {Er A} (m : M Rn Er A) (Q : A -> Rn -> Prop) (P : Er -> Rn -> Prop) r :
  wp m Q P r -> wp m (fun a r' => Q a r' /\ m r = Ret a r') P r.
Proof. unfold wp. by destruct (m r). Qed.

Lemma bind_runs {Er A A'} (m : M Rn Er A) (k : A -> M Rn Er A') a r r1 :
  m r = Ret a r1 -> k a r1 = Panic -> bind m k r = Panic.
Proof. unfold bind. by intros ->. Qed.

Lemma bind_panics {Er A A'} (m : M Rn Er A) (k : A -> M Rn Er A') r : m r = Panic -> bind m k r = Panic.
Proof. unfold bind. by intros ->. Qed.

(** ** Checks *)

Context (self : Executive F) (st : SignedTransaction) (Hst : signed_wf st).
Let t : Transaction := ut_unsigned (sg_transaction st).
Context (base : Z) (Hbase : gas_required t (ev_schedule self) = Some base) (Hbase0 : 0 <= base).
Context (Hok : executive_ok self (t_gas t)).
Context (Hused : 0 <= ei_gas_used (ev_info self)) (Hblock : ei_gas_used (ev_info self) + t_gas t < U256_MOD).

Definition gas_cost : Z := t_gas t * t_gas_price t.

(** Whether the sender has to exist. *)
Definition needs_sender (check_nonce : bool) : bool :=
  negb (is_unsigned (sg_transaction st)) && check_nonce && negb (is_dust_off (kill_dust (ev_schedule self))).

(** The errors with which a transaction is rejected in the world [w], and their reasons. *)
Definition rejection (w : world) (check_nonce : bool) (e : execution_error) : Prop :=
  match e with
  | NotEnoughBaseGas required got => required = base /\ got = t_gas t /\ got < required
  | SenderMustExist => needs_sender check_nonce = true /\ w (sg_sender st) = None
  | ExecInvalidNonce expected got =>
      check_nonce = true /\ expected = nonce_of start w (sg_sender st) /\ got = t_nonce t /\ got <> expected
  | BlockGasLimitReached limit used gas =>
      limit = ei_gas_limit (ev_info self) /\ used = ei_gas_used (ev_info self) /\ gas = t_gas t /\ limit < used + gas
  | NotEnoughCash required got =>
      is_input_private (t_action t) = false /\ required = t_value t + gas_cost /\
      got = balance_of w (sg_sender st) /\ got < required
  | ExecMutableCallInStaticContext | ExecInternal _ | TransactionMalformed _ => False
  end.

Record checks_passed (w : world) (check_nonce : bool) (res : Z * Z * Z) : Prop := {
  cp_result : res = (t_gas t - base, nonce_of start w (sg_sender st), gas_cost);
  cp_base : base <= t_gas t;
  cp_sender : needs_sender check_nonce = true -> is_Some (w (sg_sender st));
  cp_nonce : check_nonce = true -> t_nonce t = nonce_of start w (sg_sender st);
  cp_block : ei_gas_used (ev_info self) + t_gas t <= ei_gas_limit (ev_info self);
  cp_funds : is_input_private (t_action t) = false -> t_value t + gas_cost <= balance_of w (sg_sender st);
}.

Lemma transact_checks_ok check_nonce ws n w (r : Rn) : shows ws n w r ->
  wp (transact_checks self st check_nonce)
    (fun res r' => checks_passed w check_nonce res /\ shows ws n w r')
    (fun e r' => rejection w check_nonce e /\ shows ws n w r' /\ r_substate r' = r_substate r) r.
Proof.
  intros Hsh. pose proof (proj1 (proj2 Hsh)) as Hw. unfold transact_checks. fold t. wp_bind.
  eapply (wp_try_trie ws n) with (Q := fun v w' => w' = w /\ v = nonce_of start w (sg_sender st));
    [exact Hsh|by eapply (does_nonce HK start (start_u256 start Hstart) sim)|].
  intros nc w1 r1 [-> ->] Hsh1 Hs1. wp_bind. eapply wp_expect; [exact Hbase|].
  destruct (Z.ltb_spec (t_gas t) base); [by apply wp_throw|]. wp_bind.
  apply wp_mono with (Q := fun b r' => (shows ws n w r' /\ r_substate r' = r_substate r) /\
    b = needs_sender check_nonce && negb (view_exists w (sg_sender st))) (R := fun _ _ => False); [| |done].
  { fold (needs_sender check_nonce). case_bool; [|by apply wp_ret]. wp_bind.
    eapply (wp_try_trie ws n) with (Q := fun b w' => w' = w /\ b = view_exists w (sg_sender st));
      [exact Hsh1|by eapply (does_exists HK start (start_u256 start Hstart) sim)|].
    intros b w2 r2 [-> ->] Hsh2 Hs2. apply wp_ret. by rewrite Hs2. }
  intros missing r2 [[Hsh2 Hs2] ->]. destruct (needs_sender check_nonce && _) eqn:Hm.
  { apply wp_throw. apply andb_true_iff in Hm as [Hn Hm]. unfold view_exists in Hm.
    split; [|done]. by destruct (w (sg_sender st)) eqn:Hs. }
  destruct (check_nonce && negb (t_nonce t =? nonce_of start w (sg_sender st))) eqn:Hn.
  { apply wp_throw. apply andb_true_iff in Hn as [-> Hn%negb_true_iff%Z.eqb_neq]. by split_and!. }
  wp_bind. eapply wp_expect; [unfold u256_add; by rewrite (proj2 (Z.ltb_lt _ _)) by lia|].
  destruct (Z.ltb_spec (ei_gas_limit (ev_info self)) (ei_gas_used (ev_info self) + t_gas t)); [by apply wp_throw|].
  wp_bind. eapply (wp_try_trie ws n) with (Q := fun b w' => w' = w /\ b = balance_of w (sg_sender st));
    [exact Hsh2|by eapply (does_balance HK start (start_u256 start Hstart) sim)|].
  intros b w3 r3 [-> ->] Hsh3 Hs3. fold gas_cost.
  destruct ((balance_of w (sg_sender st) <? t_value t + gas_cost) && _) eqn:Hf.
  { apply wp_throw. rewrite Hs3. apply andb_true_iff in Hf as [Hf%Z.ltb_lt Hp%negb_true_iff]. by split_and!. }
  apply wp_ret. split; [|done]. split; try done.
  - intros Hneeds. rewrite Hneeds in Hm. unfold view_exists in Hm. by destruct (w (sg_sender st)).
  - intros ->. cbn in Hn. destruct (Z.eqb_spec (t_nonce t) (nonce_of start w (sg_sender st))); done.
  - intros Hp. rewrite Hp in Hf. cbn in Hf. rewrite andb_true_r in Hf. by apply Z.ltb_ge in Hf.
Qed.

(** ** Payment *)

Lemma gas_cost_nonneg : 0 <= gas_cost.
Proof. pose proof (eo_gas _ _ _ _ Hok). destruct (sw_gas_price st Hst). by apply Z.mul_nonneg_nonneg. Qed.

(** The world after the nonce of the sender has been counted: not for private senders, nor
    for unsigned transactions where the schedule keeps their nonce. *)
Definition counted (w : world) : world :=
  if (negb (keep_unsigned_nonce (ev_schedule self)) || negb (is_unsigned (sg_transaction st))) &&
     negb (is_input_private (t_action t))
  then next_nonce start w (sg_sender st) else w.

(** The world after the sender has paid for the gas. *)
Definition paid (w : world) : world :=
  match spec_sub_balance start (sg_sender st) gas_cost NoEmpty w with Some (_, w') => w' | None => w end.

(** The world in which the action starts: a private sender pays nothing. *)
Definition charged (w : world) : world :=
  if is_input_private (t_action t) then counted w else paid (counted w).

Lemma balance_of_counted w a : balance_of (counted w) a = balance_of w a.
Proof. unfold counted. case_match; [apply balance_of_next_nonce|done]. Qed.

(** Payments leave the same world whatever the clean-up mode. *)
Lemma sub_balance_paid mode m w w' :
  spec_sub_balance start (sg_sender st) gas_cost mode w = Some (m, w') -> w' = paid w.
Proof.
  unfold paid, spec_sub_balance. destruct (_ || _); [|by intros [= _ <-]].
  destruct (_ <=? _); [|done]. by intros [= _ <-].
Qed.

Lemma balance_of_paid w a : gas_cost <= balance_of w (sg_sender st) ->
  balance_of (paid w) a = balance_of w a - (if a =? sg_sender st then gas_cost else 0).
Proof.
  intros Hle. destruct (sub_balance_funded start w (sg_sender st) gas_cost NoEmpty Hle) as (m & w' & Hsub).
  rewrite <- (sub_balance_paid _ _ _ _ Hsub). by rewrite (balance_of_sub _ _ _ _ _ _ _ _ Hsub).
Qed.

Lemma balance_of_charged w a :
  (is_input_private (t_action t) = false -> gas_cost <= balance_of w (sg_sender st)) ->
  balance_of (charged w) a =
    balance_of w a - (if negb (is_input_private (t_action t)) && (a =? sg_sender st) then gas_cost else 0).
Proof.
  intros Hle. unfold charged. destruct (is_input_private (t_action t)); cbn [negb andb].
  - rewrite balance_of_counted. lia.
  - rewrite balance_of_paid; rewrite !balance_of_counted; [done|by apply Hle].
Qed.

Lemma transact_nonce_ok ws n w (r : Rn) (P : execution_error -> Rn -> Prop) : shows ws n w r ->
  wp (transact_nonce self st) (fun _ r' => r_substate r' = r_substate r /\ shows ws n (counted w) r') P r.
Proof.
  intros Hsh. pose proof (proj1 (proj2 Hsh)) as Hw. unfold transact_nonce, counted. fold t.
  destruct (_ || _); cbn [andb]; [|by apply wp_ret]. destruct (negb _); [|by apply wp_ret].
  eapply (wp_try_trie ws n) with (Q := fun _ w' => w' = next_nonce start w (sg_sender st));
    [exact Hsh|by eapply (does_next_nonce HK start (start_u256 start Hstart) sim); [..|apply Hst|]|].
  by intros [] w' r' -> Hsh' Hs'.
Qed.

Lemma transact_pay_ok ws n w (r : Rn) (P : execution_error -> Rn -> Prop) : shows ws n w r ->
  gas_cost <= balance_of w (sg_sender st) ->
  wp (transact_pay self (sg_sender st) gas_cost)
    (fun _ r' => same_effects (r_substate r) (r_substate r') /\ shows ws n (paid w) r') P r.
Proof.
  intros Hsh Hle. pose proof (proj1 (proj2 Hsh)) as Hw. pose proof (balance_ok w (sg_sender st) Hw) as Hb.
  unfold transact_pay. wp_bind.
  eapply wp_expect; [unfold u256_from_u512; by rewrite (proj2 (Z.ltb_lt _ _)) by range_lia|].
  eapply (wp_try_cleanup ws n _ _ _ w (fun _ w' => w' = paid w)); [done| |].
  - destruct (sub_balance_funded start w (sg_sender st) gas_cost (to_cleanup_mode (r_substate r) (ev_schedule self)))
      as (m & w1 & Hsub); [done|].
    eapply (does_sub_balance HK start (start_u256 start Hstart) sim);
      [done|apply Hst|apply gas_cost_nonneg|exact Hsub|by eapply sub_balance_paid].
  - intros mode w' r' -> Hsh' ->. split; [apply from_cleanup_mode_effects|done].
Qed.

(** ** Execution *)

(** The outcome of an execution that started in [w2], with the substate [s]. *)
Definition executed_post (ws : list world) (n : nat) (w2 : world) (s : Substate)
    (o : option ((FinalizationResult + vm_error) * bytes)) (r' : Rn) : Prop :=
  exists v out, o = Some (v, out) /\ result_ok (t_gas t - base) v /\ exists w3, shows ws n w3 r' /\
    (failed v -> w3 = w2 /\ same_effects s (r_substate r')).

Lemma execute_action_ok ws n w2 s keep m (r : Rn) (P : execution_error -> Rn -> Prop) :
  wp m (call_post sim tlevel vlevel ws n w2 s (t_gas t - base)) (fun _ _ => False) r ->
  wp (execute_action keep m) (executed_post ws n w2 s) P r.
Proof.
  intros Hm. unfold execute_action. wp_bind. apply wp_infallible_run.
  eapply wp_mono; [exact Hm| |done]. intros o r' (v & -> & Hv & w3 & Hsh & _ & Hf). wp_bind.
  assert (Hpost : forall out, executed_post ws n w2 s (Some (v, out)) r').
  { intros out. exists v, out. split; [done|]. split; [done|]. by exists w3. }
  destruct v as [fr|er]; [|by apply wp_ret, wp_ret]. destruct keep; [|by apply wp_ret, wp_ret].
  apply wp_rd_deref; [apply Hv|]. intros _ _ _. by apply wp_ret.
Qed.

Context (fuel : nat) (Hfuel : 3 * t_gas t + 2 <= Z.of_nat fuel).

Section Paid.
Context (Hgas : base <= t_gas t).

Lemma executive_ok_less g : 0 <= g <= t_gas t -> executive_ok self g.
Proof. intros Hg. destruct Hok. split; try done; lia. Qed.

Lemma transact_call_ok ws n w2 s sender address ip op (r : Rn) (P : execution_error -> Rn -> Prop) :
  Forall world_ok ws -> shows ws n w2 r -> same_effects s (r_substate r) -> is_address sender -> is_address address ->
  (ip = false -> t_value t <= balance_of w2 sender) ->
  wp (transact_call fuel self t (t_gas t - base) sender address ip op) (executed_post ws n w2 s) P r.
Proof.
  intros Hws Hsh Hs Hsend Haddr Hf. pose proof (proj1 (proj2 Hsh)) as Hw. unfold transact_call. wp_bind.
  eapply (wp_try_trie ws n) with (Q := fun c w' => w' = w2 /\ opt_ok vec_ok c); [exact Hsh| |].
  { eapply (does_some_code HK start (start_u256 start Hstart) sim); [done|]. intros [c|] Hc; split; try done. by apply Hc. }
  intros code w3 r1 [-> Hcode] Hsh1 Hs1. wp_bind.
  eapply (wp_try_trie ws n) with (Q := fun _ w' => w' = w2);
    [exact Hsh1|by eapply (does_code_hash HK start (start_u256 start Hstart) sim)|].
  intros hash w4 r2 -> Hsh2 Hs2. apply execute_action_ok.
  pose proof (eo_gas _ _ _ _ Hok).
  eapply wp_mono; [apply (call_with_stack_depth_ok HK start Hstart sim tlevel vlevel vm_ready vm_waiting
    factory_ok suits fuel self _ 0 ws n w2 r2)| |done]; cbn [ap_gas call_params]; try done.
  - apply executive_ok_less. lia.
  - destruct Hst. by split.
  - intros Hip v [= <-]. by apply Hf.
  - lia.
  - intros o r' (v & -> & Hv & w' & Hsh' & He & Hfv). exists v. split; [done|]. split; [done|]. exists w'.
    rewrite Hs2, Hs1 in *. split; [done|]. split; [etrans; [by apply same_effects_extends|done]|].
    intros Hfail. destruct (Hfv Hfail). split; [done|]. by etrans.
Qed.

Lemma transact_create_ok ws n w2 s keep address hash (r : Rn) (P : execution_error -> Rn -> Prop) :
  Forall world_ok ws -> shows ws n w2 r -> same_effects s (r_substate r) -> is_address address ->
  t_value t <= balance_of w2 (sg_sender st) ->
  wp (execute_action keep (executive_create fuel self (create_params t (t_gas t - base) (sg_sender st) address hash)))
    (executed_post ws n w2 s) P r.
Proof.
  intros Hws Hsh Hs Haddr Hf. apply execute_action_ok. pose proof (eo_gas _ _ _ _ Hok).
  eapply wp_mono; [apply (create_with_stack_depth_ok HK start Hstart sim tlevel vlevel vm_ready vm_waiting
    factory_ok suits fuel self _ 0 ws n w2 r)| |done]; cbn [ap_gas ap_code create_params]; try done.
  - apply executive_ok_less. lia.
  - destruct Hst. by split.
  - intros _ v [= <-]. by apply Hf.
  - lia.
  - intros o r' (v & -> & Hv & w' & Hsh' & He & Hfv). exists v. split; [done|]. split; [done|]. exists w'.
    split; [done|]. split; [etrans; [by apply same_effects_extends|done]|].
    intros Hfail. destruct (Hfv Hfail). split; [done|]. by etrans.
Qed.

End Paid.

(** The action of the transaction, when its sender has the nonce [nc]. *)
Definition transact_action (output_from_create : bool) (nc : Z)
    : M Rn execution_error (option ((FinalizationResult + vm_error) * bytes)) :=
  let g := t_gas t - base in
  let sender := if is_input_private (t_action t) then PRIVATE_EXECUTIVE_ADDRESS else sg_sender st in
  match t_action t with
  | ActionPrivateToPrivate => transact_call fuel self t g sender PRIVATE_EXECUTIVE_ADDRESS true true
  | ActionPublicToPrivate => transact_call fuel self t g sender PRIVATE_EXECUTIVE_ADDRESS false true
  | ActionPrivateCall a => transact_call fuel self t g sender a true false
  | ActionCall a => transact_call fuel self t g sender a false false
  | ActionCreate =>
      let '(a, h) := contract_address (create_address_scheme (ev_machine self) (ei_number (ev_info self)))
                       sender nc (t_data t) in
      execute_action output_from_create (executive_create fuel self (create_params t g sender a h))
  end.

(** The outcome of a transaction that was in [w] and could pay its price: its action has run
    from the charged world with no effects yet. *)
Definition transacted (check_nonce output_from_create : bool) (ws : list world) (n : nat) (w : world)
    (o : option ((FinalizationResult + vm_error) * bytes)) (r' : Rn) : Prop :=
  checks_passed w check_nonce (t_gas t - base, nonce_of start w (sg_sender st), gas_cost) /\
  executed_post ws n (charged w) substate_new o r' /\
  exists r2, shows ws n (charged w) r2 /\ same_effects substate_new (r_substate r2) /\
    transact_action output_from_create (nonce_of start w (sg_sender st)) r2 = Ret o r'.

Lemma contract_address_ok scheme sender nc code : is_address (fst (contract_address scheme sender nc code)).
Proof. destruct scheme; cbn; unfold address_from_hash; by apply Z.mod_pos_bound. Qed.

Lemma transact_action_ok output_from_create nc ws n w2 (r : Rn) (P : execution_error -> Rn -> Prop) :
  Forall world_ok ws -> base <= t_gas t -> shows ws n w2 r -> same_effects substate_new (r_substate r) ->
  (is_input_private (t_action t) = false -> t_value t <= balance_of w2 (sg_sender st)) ->
  wp (transact_action output_from_create nc)
    (fun o r' => executed_post ws n w2 substate_new o r' /\ transact_action output_from_create nc r = Ret o r') P r.
Proof.
  intros Hws Hbg Hsh Hs Hv. apply wp_returns. unfold transact_action.
  pose proof (sw_action st Hst) as Hact. fold t in Hact. pose proof (sw_sender st Hst) as Hsend.
  assert (Hpa : is_address PRIVATE_EXECUTIVE_ADDRESS) by (unfold PRIVATE_EXECUTIVE_ADDRESS; range_lia).
  destruct (t_action t) as [|a| | |a] eqn:Ha; cbn [is_input_private] in Hv |- *; try by apply transact_call_ok.
  pose proof (contract_address_ok (create_address_scheme (ev_machine self) (ei_number (ev_info self)))
    (sg_sender st) nc (t_data t)) as Haddr.
  destruct (contract_address _ _ _ _) as [addr h]. apply transact_create_ok; try done. by apply Hv.
Qed.

Lemma transact_execute_ok check_nonce output_from_create ws n w (r : Rn) : Forall world_ok ws -> shows ws n w r ->
  wp (transact_execute fuel self st check_nonce output_from_create)
    (transacted check_nonce output_from_create ws n w)
    (fun e r' => rejection w check_nonce e /\ shows ws n w r') r.
Proof.
  intros Hws Hsh. unfold transact_execute. fold t. wp_bind.
  eapply wp_mono; [by apply (transact_checks_ok check_nonce ws n w)| |by intros e r' (? & ? & _)].
  intros res r1 [Hpass Hsh1]. pose proof (cp_result _ _ _ Hpass) as ->. pose proof Hpass as [_ Hbg Hse Hnc Hblk Hfunds].
  wp_bind. apply wp_modify. wp_bind.
  eapply wp_mono; [by apply (transact_nonce_ok ws n w _ (fun _ _ => False))| |done].
  intros [] r2 [Hs2 Hsh2]. cbn in Hs2. pose proof gas_cost_nonneg as Hc0.
  pose proof (sw_value st Hst) as Hv. fold t in Hv.
  set (nc := nonce_of start w (sg_sender st)) in *.
  assert (Hact : forall m r3, m = transact_action output_from_create nc -> shows ws n (charged w) r3 ->
    same_effects substate_new (r_substate r3) ->
    wp m (transacted check_nonce output_from_create ws n w) (fun e r' => rejection w check_nonce e /\ shows ws n w r') r3).
  { intros m r3 -> Hsh3 Hs3. eapply wp_mono; [apply (transact_action_ok _ nc ws n (charged w) r3 (fun _ _ => False))| |done];
      [done|done|done|done| |].
    - intros Hp. specialize (Hfunds Hp). rewrite balance_of_charged by (intros _; range_lia). rewrite Hp, Z.eqb_refl. cbn. lia.
    - intros o r' [Ho Hr]. split_and!; [done|done|]. by exists r3. }
  assert (Hpriv : forall m, m = transact_action output_from_create nc -> is_input_private (t_action t) = true ->
    wp m (transacted check_nonce output_from_create ws n w) (fun e r' => rejection w check_nonce e /\ shows ws n w r') r2).
  { intros m Hm Hp. apply Hact; [done| |by rewrite Hs2]. unfold charged. by rewrite Hp. }
  assert (Hpub : forall m, m = transact_action output_from_create nc -> is_input_private (t_action t) = false ->
    wp (transact_pay self (sg_sender st) gas_cost ;;; m) (transacted check_nonce output_from_create ws n w)
      (fun e r' => rejection w check_nonce e /\ shows ws n w r') r2).
  { intros m Hm Hp. specialize (Hfunds Hp). wp_bind.
    eapply wp_mono; [apply (transact_pay_ok ws n (counted w) _ (fun _ _ => False)); [done|]| |done].
    { rewrite balance_of_counted. range_lia. }
    intros [] r3 [Hs3 Hsh3]. rewrite Hs2 in Hs3. apply Hact; [done| |done]. unfold charged. by rewrite Hp. }
  unfold transact_action in Hpub, Hpriv.
  destruct (t_action t) as [|a| | |a] eqn:Ha; first [apply Hpub; done | apply Hpriv; done].
Qed.

(** ** Finalisation *)

(** Refunds for cleared storage and suicides that the receipt can hold. *)
Definition refunds_bound (s : Substate) : Z :=
  ss_sstore_clears_refund s mod U64_MOD + suicide_refund_gas (ev_schedule self) * Z.of_nat (size (ss_suicides s)).

(** What [finalize] asserts of the substate, and that the sum of the refunds is a word. *)
Definition refunds_ok (s : Substate) : Prop := 0 <= ss_sstore_clears_refund s /\ refunds_bound s < U256_MOD.

#[local] Instance refunds_ok_dec s : Decision (refunds_ok s).
Proof. unfold refunds_ok. apply _. Defined.

(** At most half of the gas that was spent is refunded. *)
Definition refund_gas (s : Substate) (v : FinalizationResult + vm_error) : Z :=
  Z.min (refunds_bound s) ((t_gas t - gas_of v) / 2).

Definition gas_paid (s : Substate) (v : FinalizationResult + vm_error) : Z :=
  t_gas t - gas_of v - refund_gas s v.

(** The account that gets the gas that is left. *)
Definition refund_account : Z :=
  if is_input_private (t_action t) then PRIVATE_EXECUTIVE_ADDRESS else sg_sender st.

(** The price of the gas is returned for what is left, and goes to the author for the rest:
    the world after both payments and what the second did to the touched addresses. *)
Definition settled (used : Z) (s : Substate) (w : world) : CleanupMode * world :=
  spec_add_balance start (ei_author (ev_info self)) (used * t_gas_price t) (to_cleanup_mode s (ev_schedule self))
    (snd (spec_add_balance start refund_account (gas_cost - used * t_gas_price t) NoEmpty w)).

(** The addresses that are touched at the end. *)
Definition touched_after (used : Z) (s : Substate) (w : world) : gset Z :=
  ss_touched (from_cleanup_mode (fst (settled used s w)) s).

(** The balance below which accounts are dust. *)
Definition dust_balance : option Z :=
  if is_dust_off (kill_dust (ev_schedule self)) then None
  else Some ((tx_gas (ev_schedule self) * t_gas_price t) mod U256_MOD).

(** Whether dust contracts are removed, too. *)
Definition dust_contracts : bool := match kill_dust (ev_schedule self) with WithCodeAndStorage => true | _ => false end.

(** The accounts of [w] that disappear at the end of a transaction, which leaves [w'] and the
    state [s]. Suicides do, and no account does that was not touched. *)
Record swept (suicides touched : gset Z) (w w' : world) (s : St) : Prop := {
  sw_suicides : forall a, a ∈ suicides -> w' a = None;
  sw_others : forall a, a ∉ suicides -> w' a = w a \/
    (w' a = None /\ a ∈ touched /\ exists x, w a = Some x /\
      ((kill_empty (ev_schedule self) = true /\ view_null x = true) \/
       (exists m, dust_balance = Some m /\ v_balance x < m /\ (v_code_hash x = KECCAK_EMPTY \/ dust_contracts = true))));
  (** No touched account of the cache is empty or dust afterwards. *)
  sw_empty : forall a e acc, kill_empty (ev_schedule self) = true -> a ∈ touched ->
    st_cache s !! a = Some e -> e_account e = Some acc ->
    ~ (a_balance acc = 0 /\ a_nonce acc = 0 /\ a_code_hash acc = KECCAK_EMPTY);
  sw_dust : forall a e acc m b, dust_balance = Some m -> a ∈ touched ->
    st_cache s !! a = Some e -> e_account e = Some acc -> e_old_balance e = Some b ->
    a_code_hash acc = KECCAK_EMPTY \/ dust_contracts = true -> a_balance acc < b -> m <= a_balance acc;
}.

(** The receipt of an execution with the result [v], the substate [s] and the tracers of [r]. *)
Definition receipt_of (r : Rn) (v : FinalizationResult + vm_error) (out : bytes)
    : Executed tracer_output vm_tracer_output :=
  let s := r_substate r in
  let '(exception, used, refunded, logs, created) :=
    match v with
    | inl fr => (if fr_apply_state fr then None else Some Reverted, gas_paid s v, refund_gas s v, ss_logs s,
                 ss_contracts_created s)
    | inr er => (Some er, t_gas t, 0, [], [])
    end in
  mkExecuted exception (t_gas t) used refunded (ei_gas_used (ev_info self) + used) logs created out
    (tracer_drain (r_tracer r)) (vm_tracer_drain (r_vm_tracer r)).

Lemma refund_price : 0 <= suicide_refund_gas (ev_schedule self).
Proof. apply (ok_suicide_refund_gas _ (schedule_wf_ok _ (eo_schedule _ _ _ _ Hok))). Qed.

Lemma refunds_bound_nonneg s : 0 <= refunds_bound s.
Proof.
  pose proof refund_price. pose proof (Z.mod_pos_bound (ss_sstore_clears_refund s) U64_MOD U64_MOD_pos).
  unfold refunds_bound. nia.
Qed.

Lemma refund_gas_bounds s v : 0 <= gas_of v <= t_gas t -> 0 <= refund_gas s v <= (t_gas t - gas_of v) / 2.
Proof.
  intros Hv. pose proof (refunds_bound_nonneg s). unfold refund_gas in *.
  assert (0 <= (t_gas t - gas_of v) / 2) by (apply Z.div_pos; lia). lia.
Qed.

Lemma gas_paid_bounds s v : 0 <= gas_of v <= t_gas t ->
  0 <= gas_paid s v <= t_gas t /\ t_gas t - gas_of v <= 2 * gas_paid s v.
Proof.
  intros Hv. pose proof (refund_gas_bounds s v Hv) as Hr. unfold gas_paid in *.
  pose proof (Z.mul_div_le (t_gas t - gas_of v) 2). lia.
Qed.

Lemma refund_account_ok : is_address refund_account.
Proof. unfold refund_account, PRIVATE_EXECUTIVE_ADDRESS. destruct (is_input_private _); [range_lia|apply Hst]. Qed.

(** The balances after the two payments. *)
Lemma balance_of_settled used s w a : world_ok w -> 0 <= used <= t_gas t ->
  balance_of (snd (settled used s w)) a =
    let b := if a =? refund_account then u256_saturating_add (balance_of w a) (gas_cost - used * t_gas_price t)
             else balance_of w a in
    if a =? ei_author (ev_info self) then u256_saturating_add b (used * t_gas_price t) else b.
Proof.
  intros Hw Hu. destruct (sw_gas_price st Hst) as [Hp _]. fold t in Hp. unfold settled.
  rewrite balance_of_add by (apply add_balance_world_ok;
    [apply (start_u256 start Hstart)|done|apply refund_account_ok|unfold gas_cost; nia]).
  rewrite !balance_of_add by done. cbn. destruct (Z.eqb_spec a (ei_author (ev_info self))) as [->|].
  - by destruct (Z.eqb_spec (ei_author (ev_info self)) refund_account) as [->|].
  - by destruct (Z.eqb_spec a refund_account) as [->|].
Qed.

Lemma settle_ok n w used (r : Rn) (P : execution_error -> Rn -> Prop) : shows [] n w r -> 0 <= used <= t_gas t ->
  wp ((if is_input_private (t_action t)
       then try_trie (state_add_balance PRIVATE_EXECUTIVE_ADDRESS (gas_cost - used * t_gas_price t) NoEmpty)
       else try_trie (state_add_balance (sg_sender st) (gas_cost - used * t_gas_price t) NoEmpty)) ;;;
      try_cleanup (ev_schedule self) (state_add_balance (ei_author (ev_info self)) (used * t_gas_price t)))
    (fun _ r' => r_substate r' = from_cleanup_mode (fst (settled used (r_substate r) w)) (r_substate r) /\
       shows [] n (snd (settled used (r_substate r) w)) r') P r.
Proof.
  intros Hsh Hu. pose proof (proj1 (proj2 Hsh)) as Hw. destruct (sw_gas_price st Hst) as [Hp _]. fold t in Hp.
  assert (Hfee : 0 <= used * t_gas_price t) by (apply Z.mul_nonneg_nonneg; lia).
  assert (Hrefund : 0 <= gas_cost - used * t_gas_price t) by (unfold gas_cost; nia).
  replace (if is_input_private (t_action t) then _ else _)
    with (try_trie (T := T) (V := V) (state_add_balance refund_account (gas_cost - used * t_gas_price t) NoEmpty))
    by (unfold refund_account; by destruct (is_input_private (t_action t))).
  wp_bind. eapply (wp_try_trie [] n) with (Q := fun _ w' =>
    w' = snd (spec_add_balance start refund_account (gas_cost - used * t_gas_price t) NoEmpty w)).
  - exact Hsh.
  - eapply (does_add_balance HK start (start_u256 start Hstart) sim); [done|apply refund_account_ok|done|done].
  - intros m w1 r1 -> Hsh1 Hs1. pose proof (proj1 (proj2 Hsh1)) as Hw1. rewrite <- Hs1.
    eapply (wp_try_cleanup [] n _ _ _ _ (fun m w' => (m, w') = settled used (r_substate r1) w)); [done| |].
    + eapply (does_add_balance HK start (start_u256 start Hstart) sim); [done|apply (eo_info _ _ _ _ Hok)|done|].
      symmetry. apply surjective_pairing.
    + intros mode w2 r2 <- Hsh2 Hs2. done.
Qed.

Lemma swept_kill su touched (s : St) w : sim s (w, []) ->
  let s' := kill_garbage touched (kill_empty (ev_schedule self)) dust_balance dust_contracts
              (foldl (fun s a => kill_account a s) s (elements su)) in
  exists w', sim s' (w', []) /\ swept su touched w w' s' /\ (world_ok w -> world_ok w').
Proof.
  intros Hs s'. pose proof (kill_accounts_sim start sim (elements su) s w Hs) as Hs1.
  destruct (kill_garbage_sim start sim touched (kill_empty (ev_schedule self)) dust_balance dust_contracts _ _ Hs1)
    as (l & Hs2 & Hl).
  assert (Hclear : forall a e, st_cache s' !! a = Some e ->
    is_garbage touched (kill_empty (ev_schedule self)) dust_balance dust_contracts a e = false)
    by (intros; by eapply kill_garbage_clears). unfold is_garbage, exists_and_is_null in Hclear.
  eexists. split; [exact Hs2|]. split; [|intros; by apply kill_all_ok, kill_all_ok]. split.
  - intros a Ha%elem_of_elements. unfold kill_all. case_bool; [done|]. by rewrite bool_decide_eq_true_2.
  - intros a Ha. rewrite <- elem_of_elements in Ha. destruct (decide (a ∈ l)) as [Hin|Hin].
    + right. split; [unfold kill_all; by rewrite bool_decide_eq_true_2|].
      specialize (Hl a Hin). unfold kill_all in Hl. by rewrite bool_decide_eq_false_2 in Hl by done.
    + left. unfold kill_all. by rewrite !bool_decide_eq_false_2.
  - intros a e acc Hke Ha He Hacc (Hb & Hn & Hc). specialize (Hclear a e He).
    rewrite Hacc, Hke, bool_decide_eq_true_2 in Hclear by done. unfold is_null in Hclear.
    by rewrite Hb, Hn, Hc in Hclear.
  - intros a e acc m b Hm Ha He Hacc Hold Hk Hlt. specialize (Hclear a e He).
    rewrite Hacc, Hm, Hold, bool_decide_eq_true_2, (proj2 (Z.ltb_lt _ _) Hlt) in Hclear by done.
    apply orb_false_iff in Hclear as [_ Hd]. rewrite andb_true_r in Hd.
    destruct (Z.ltb_spec (a_balance acc) m); [|done]. unfold is_basic in Hd. rewrite andb_true_r in Hd.
    destruct Hk as [Hk|Hk]; rewrite Hk in Hd; [done|by rewrite orb_true_r in Hd].
Qed.

Lemma gas_of_bounds g v : 0 <= g -> result_ok g v -> 0 <= gas_of v <= g.
Proof. destruct v; cbn; lia. Qed.

(** The assertion of [finalize] and its sums of refunds are where it panics. *)
Lemma executive_finalize_panics v out tr vtr (r : Rn) : ~ refunds_ok (r_substate r) ->
  executive_finalize self st v out tr vtr r = Panic.
Proof.
  intros Hrf. unfold executive_finalize. unfold refunds_ok, refunds_bound in Hrf.
  eapply bind_runs; [reflexivity|]. cbv zeta beta. set (s := r_substate r) in *.
  destruct (decide (0 <= ss_sstore_clears_refund s)) as [Hr0|Hr0].
  2: { apply bind_panics. unfold assert_. by rewrite (proj2 (Z.leb_gt _ _)) by lia. }
  eapply bind_runs; [unfold assert_; by rewrite (proj2 (Z.leb_le _ _) Hr0)|]. cbv beta. unfold u256_mul.
  destruct (_ <? U256_MOD) eqn:Hm; [|by apply bind_panics].
  eapply bind_runs; [reflexivity|]. cbv beta. apply bind_panics. unfold u256_add.
  by rewrite (proj2 (Z.ltb_ge _ _)) by lia.
Qed.

(** The two products of [finalize]. *)
Lemma price_overflow a : 0 <= a <= t_gas t ->
  u256_overflowing_mul a (t_gas_price t) = (a * t_gas_price t, false) \/
  (snd (u256_overflowing_mul a (t_gas_price t)) = true /\ U256_MOD <= gas_cost).
Proof.
  intros Ha. destruct (sw_gas_price st Hst) as [Hp _]. fold t in Hp.
  assert (0 <= a * t_gas_price t <= gas_cost) by (unfold gas_cost; nia). unfold u256_overflowing_mul.
  destruct (Z.leb_spec U256_MOD (a * t_gas_price t)); [right; split; [done|lia]|]. left. by rewrite Z.mod_small by lia.
Qed.

(** The rest of [finalize]: payments, removals and the receipt. *)
Definition finalize_rest (s : Substate) (v : FinalizationResult + vm_error) (out : bytes) (trace : list tracer_output)
    (vm_trace : option vm_tracer_output) : M Rn execution_error (Executed tracer_output vm_tracer_output) :=
  (if is_input_private (t_action t)
   then try_trie (state_add_balance PRIVATE_EXECUTIVE_ADDRESS (gas_cost - gas_paid s v * t_gas_price t) NoEmpty)
   else try_trie (state_add_balance (sg_sender st) (gas_cost - gas_paid s v * t_gas_price t) NoEmpty)) ;;;
  try_cleanup (ev_schedule self) (state_add_balance (ei_author (ev_info self)) (gas_paid s v * t_gas_price t)) ;;;
  do r <- get in
  modify_state (fun s => foldl (fun s address => kill_account address s) s (elements (ss_suicides (r_substate r)))) ;;;
  modify_state (kill_garbage (ss_touched (r_substate r)) (kill_empty (ev_schedule self)) dust_balance dust_contracts) ;;;
  do r <- get in
  match v with
  | inr (Internal msg) => throw (ExecInternal msg)
  | inr exception =>
      do cumulative <- expect (u256_add (ei_gas_used (ev_info self)) (t_gas t)) in
      ret (mkExecuted (Some exception) (t_gas t) (t_gas t) 0 cumulative [] [] out trace vm_trace)
  | inl fr =>
      do cumulative <- expect (u256_add (ei_gas_used (ev_info self)) (gas_paid s v)) in
      ret (mkExecuted (if fr_apply_state fr then None else Some Reverted) (t_gas t) (gas_paid s v) (refund_gas s v)
             cumulative (ss_logs (r_substate r)) (ss_contracts_created (r_substate r)) out trace vm_trace)
  end.

Lemma finalize_rest_ok n w v out (r : Rn) (P : execution_error -> Rn -> Prop) : shows [] n w r ->
  0 <= gas_paid (r_substate r) v <= t_gas t -> result_ok (t_gas t - base) v ->
  let s := r_substate r in
  wp (finalize_rest s v out (tracer_drain (r_tracer r)) (vm_tracer_drain (r_vm_tracer r)))
    (fun rc r' => rc = receipt_of r v out /\ exists w5, shows [] n w5 r' /\
       swept (ss_suicides s) (touched_after (gas_paid s v) s w) (snd (settled (gas_paid s v) s w)) w5 (r_state r')) P r.
Proof.
  intros Hsh Hgp Hv s. fold s in Hgp. unfold finalize_rest.
  pose proof (settle_ok n w (gas_paid s v) r P Hsh Hgp) as Hsettle. apply wp_bind_inv in Hsettle.
  wp_bind. eapply wp_mono; [exact Hsettle| |done]. intros mode r1 Hr1. wp_bind.
  eapply wp_mono; [exact Hr1| |done]. intros u r2 [Hs2 Hsh2]. fold s in Hs2, Hsh2. wp_bind. cbn [get wp].
  wp_bind. apply wp_modify. wp_bind. apply wp_modify.
  assert (Heff : same_effects s (r_substate r2)) by (rewrite Hs2; apply from_cleanup_mode_effects).
  destruct Heff as (Esu & Elogs & _ & Ecr).
  destruct (swept_kill (ss_suicides (r_substate r2)) (ss_touched (r_substate r2)) (r_state r2) _ (proj1 Hsh2))
    as (w5 & Hs5 & Hswept & Hw5).
  wp_bind. cbn [get wp].
  set (r5 := set_state _ _). assert (Hsh5 : shows [] n w5 r5).
  { destruct Hsh2 as (_ & Hw4 & Ht & Hvm). split_and!; [exact Hs5|by apply Hw5|done|done]. }
  assert (Hend : exists w5, shows [] n w5 r5 /\ swept (ss_suicides s) (touched_after (gas_paid s v) s w)
    (snd (settled (gas_paid s v) s w)) w5 (r_state r5)).
  { exists w5. split; [done|]. unfold touched_after. rewrite <- Hs2. rewrite <- Esu. exact Hswept. }
  unfold receipt_of. fold s. destruct v as [fr|er].
  - wp_bind. eapply wp_expect; [unfold u256_add; by rewrite (proj2 (Z.ltb_lt _ _)) by lia|]. apply wp_ret.
    split; [|done]. cbn. by rewrite Elogs, Ecr.
  - destruct er; try by destruct Hv.
    all: wp_bind; eapply wp_expect; [unfold u256_add; by rewrite (proj2 (Z.ltb_lt _ _)) by lia|]; by apply wp_ret.
Qed.

Lemma executive_finalize_ok n w v out (r : Rn) : shows [] n w r -> refunds_ok (r_substate r) ->
  base <= t_gas t -> result_ok (t_gas t - base) v ->
  let s := r_substate r in
  wp (executive_finalize self st v out (tracer_drain (r_tracer r)) (vm_tracer_drain (r_vm_tracer r)))
    (fun rc r' => rc = receipt_of r v out /\ exists w5, shows [] n w5 r' /\
       swept (ss_suicides s) (touched_after (gas_paid s v) s w) (snd (settled (gas_paid s v) s w)) w5 (r_state r'))
    (fun e r' => e = TransactionMalformed "U256 Overflow" /\ r' = r /\ U256_MOD <= gas_cost) r.
Proof.
  intros Hsh Hrf Hbg Hv s.
  assert (Hg : 0 <= gas_of v <= t_gas t) by (pose proof (gas_of_bounds (t_gas t - base) v ltac:(lia) Hv); lia).
  pose proof (refund_gas_bounds s v Hg) as Hrg. pose proof (gas_paid_bounds s v Hg) as [Hgp _].
  pose proof (eo_bound _ _ _ _ Hok) as Hbound. pose proof (eo_depth _ _ _ _ Hok).
  assert (Hsum : gas_of v + refund_gas s v < U256_MOD).
  { pose proof (Z.mul_div_le (t_gas t - gas_of v) 2). range_lia. }
  unfold executive_finalize. fold t. wp_bind. cbn [get wp]. fold s. wp_bind.
  pose proof Hrf as [Hr0 Hrb]. fold s in Hr0, Hrb. unfold refunds_bound in Hrb.
  pose proof (Z.mod_pos_bound (ss_sstore_clears_refund s) U64_MOD U64_MOD_pos). pose proof refund_price.
  assert (0 <= suicide_refund_gas (ev_schedule self) * Z.of_nat (size (ss_suicides s))) by (apply Z.mul_nonneg_nonneg; lia).
  apply wp_assert; [by apply Z.leb_le|]. wp_bind.
  eapply wp_expect; [unfold u256_mul; by rewrite (proj2 (Z.ltb_lt _ _)) by lia|]. wp_bind.
  eapply wp_expect; [unfold u256_add; by rewrite (proj2 (Z.ltb_lt _ _)) by lia|]. wp_bind.
  change (match v with inl fr => fr_gas_left fr | inr _ => 0 end) with (gas_of v).
  eapply wp_expect; [unfold u256_sub; by rewrite (proj2 (Z.leb_le _ _)) by lia|]. wp_bind.
  fold (refunds_bound s). unfold u256_shr. rewrite Z.shiftr_div_pow2 by lia. change (2 ^ 1) with 2. fold (refund_gas s v).
  eapply wp_expect; [unfold u256_add; by rewrite (proj2 (Z.ltb_lt _ _) Hsum)|].
  replace (u256_saturating_sub (t_gas t) (gas_of v + refund_gas s v)) with (gas_paid s v)
    by (unfold u256_saturating_sub, gas_paid in *; lia).
  destruct (price_overflow (gas_of v + refund_gas s v)) as [->|[Ho1 Hbig]]; [unfold gas_paid in Hgp; lia| |].
  2: { destruct (u256_overflowing_mul (_ + _) _) as [x o1]. cbn in Ho1. rewrite Ho1.
       destruct (u256_overflowing_mul (gas_paid s v) _). by apply wp_throw. }
  destruct (price_overflow (gas_paid s v) Hgp) as [->|[Ho2 Hbig]].
  2: { destruct (u256_overflowing_mul (gas_paid s v) _) as [x o2]. cbn in Ho2. rewrite Ho2. by apply wp_throw. }
  cbn [orb]. replace ((gas_of v + refund_gas s v) * t_gas_price t) with (gas_cost - gas_paid s v * t_gas_price t)
    by (unfold gas_cost, gas_paid; lia).
  replace (if negb (is_dust_off _) then _ else None) with dust_balance
    by (unfold dust_balance; by destruct (is_dust_off _)).
  by apply finalize_rest_ok.
Qed.

(** ** Whole transactions *)

(** A failed execution refunds nothing. *)
Lemma no_refund s v : same_effects substate_new s -> 0 <= gas_of v <= t_gas t -> refund_gas s v = 0.
Proof.
  intros (Hsu & _ & Hr & _) Hv. unfold refund_gas, refunds_bound. rewrite Hsu, Hr. cbn. rewrite size_empty.
  rewrite Z.mul_0_r. apply Z.min_l. by apply Z.div_pos; lia.
Qed.

Lemma no_refunds_ok s : same_effects substate_new s -> refunds_ok s.
Proof.
  intros (Hsu & _ & Hr & _). unfold refunds_ok, refunds_bound. rewrite Hsu, Hr. cbn. by rewrite size_empty, Z.mul_0_r.
Qed.

(** How a transaction went that started in [w] and ended in [w'] with the run [r'] and the
    receipt [rc]. Its action ran from the charged world, which [r2] shows, with an empty
    substate, to the result [v] and the run [r1], which shows [w3]. A failed action left the
    charged world and no effects. The receipt is that of [r1], the price of the gas has been
    settled, and the suicides and empty accounts of [r1] are gone. *)
Record went (output_from_create : bool) (n : nat) (w w' : world) (rc : Executed tracer_output vm_tracer_output)
    (r' : Rn) (v : FinalizationResult + vm_error) (out : bytes) (r2 r1 : Rn) (w3 : world) : Prop := {
  wt_start : shows [] n (charged w) r2 /\ same_effects substate_new (r_substate r2);
  wt_action : transact_action output_from_create (nonce_of start w (sg_sender st)) r2 = Ret (Some (v, out)) r1;
  wt_shows : shows [] n w3 r1;
  wt_failed : failed v -> w3 = charged w /\ same_effects substate_new (r_substate r1);
  wt_refunds : refunds_ok (r_substate r1);
  wt_receipt : rc = receipt_of r1 v out;
  wt_end : let s := r_substate r1 in let used := gas_paid s v in
    swept (ss_suicides s) (touched_after used s w3) (snd (settled used s w3)) w' (r_state r');
}.

(** What a transaction that was not rejected does: it started in [w] and ends in [w']. *)
Record transaction_done (check_nonce output_from_create : bool) (n : nat) (w w' : world)
    (rc : Executed tracer_output vm_tracer_output) (r' : Rn) : Prop := {
  td_base : base <= t_gas t;
  td_sender : needs_sender check_nonce = true -> is_Some (w (sg_sender st));
  td_nonce : check_nonce = true -> t_nonce t = nonce_of start w (sg_sender st);
  td_funds : is_input_private (t_action t) = false -> t_value t + gas_cost <= balance_of w (sg_sender st);
  td_used : 0 <= ex_gas_used rc <= t_gas t /\ base <= 2 * ex_gas_used rc;
  td_block : ex_cumulative_gas_used rc <= ei_gas_limit (ev_info self);
  td_failed : ex_exception rc <> None -> ex_refunded rc = 0 /\ ex_logs rc = [] /\ ex_contracts_created rc = [];
  td_proper : forall er, ex_exception rc = Some er -> proper er;
  td_went : exists v out r2 r1 w3, went output_from_create n w w' rc r' v out r2 r1 w3;
}.

(** The result of an action and its receipt. *)
Lemma receipt_used n w w' rc r' oc v out r2 r1 w3 : base <= t_gas t -> result_ok (t_gas t - base) v ->
  went oc n w w' rc r' v out r2 r1 w3 ->
  ex_gas_used rc = gas_paid (r_substate r1) v /\
  (ex_exception rc <> None <-> failed v) /\
  (failed v -> refund_gas (r_substate r1) v = 0 /\ ss_suicides (r_substate r1) = ∅ /\ ss_logs (r_substate r1) = [] /\
     ss_contracts_created (r_substate r1) = []).
Proof.
  intros Hbg Hv [_ _ _ Hf _ -> _]. pose proof (gas_of_bounds (t_gas t - base) v ltac:(lia) Hv) as Hgv.
  assert (Hfv : failed v -> refund_gas (r_substate r1) v = 0 /\ ss_suicides (r_substate r1) = ∅ /\
    ss_logs (r_substate r1) = [] /\ ss_contracts_created (r_substate r1) = []).
  { intros Hfv. destruct (Hf Hfv) as [_ Hs]. split; [apply no_refund; [done|lia]|]. by destruct Hs as (? & ? & _ & ?). }
  split_and!; [| |done].
  - destruct v as [fr|er]; [done|]. cbn. unfold gas_paid. rewrite (proj1 (Hfv I)). cbn. lia.
  - destruct v as [fr|er]; cbn; [|done]. by destruct (fr_apply_state fr).
Qed.

Lemma went_done check_nonce oc n w w' rc r' v out r2 r1 w3 :
  checks_passed w check_nonce (t_gas t - base, nonce_of start w (sg_sender st), gas_cost) ->
  result_ok (t_gas t - base) v -> went oc n w w' rc r' v out r2 r1 w3 -> transaction_done check_nonce oc n w w' rc r'.
Proof.
  intros [_ Hbg Hse Hnc Hblk Hfunds] Hv Hw.
  destruct (receipt_used n w w' rc r' oc v out r2 r1 w3 Hbg Hv Hw) as (Hug & Hex & Hfv).
  pose proof (gas_of_bounds (t_gas t - base) v ltac:(lia) Hv) as Hgv.
  pose proof (gas_paid_bounds (r_substate r1) v ltac:(lia)) as [Hgp Hhalf].
  pose proof (wt_receipt _ _ _ _ _ _ _ _ _ _ _ Hw) as Hrc.
  split; rewrite ?Hug; try done; try lia.
  - replace (ex_cumulative_gas_used rc) with (ei_gas_used (ev_info self) + ex_gas_used rc)
      by (rewrite Hrc; by destruct v). lia.
  - intros Hne. destruct (Hfv (proj1 Hex Hne)) as (H0 & _ & Hl & Hc). rewrite Hrc. destruct v; cbn; [|done].
    by rewrite H0, Hl, Hc.
  - intros er. rewrite Hrc. destruct v as [fr|er']; cbn; [|by intros [= <-]]. destruct (fr_apply_state fr); [done|].
    by intros [= <-].
  - by exists v, out, r2, r1, w3.
Qed.

(** What can come of a transaction. It is rejected; or it is executed and settled; or its
    input is private and the price of its gas is not a word, which [finalize] reports after
    the execution; or [finalize] panics, after an execution that did not fail, on a negative
    refund or on refunds that are no word. *)
Definition transact_post (check_nonce output_from_create : bool) (n : nat) (w : world) (r : Rn)
    (res : outcome Rn execution_error (option (Executed tracer_output vm_tracer_output))) : Prop :=
  let executed := transact_execute fuel self st check_nonce output_from_create r in
  match res with
  | Ret (Some rc) r' => exists w', shows [] n w' r' /\ transaction_done check_nonce output_from_create n w w' rc r'
  | Ret None _ => False
  | Throw e r' =>
      (rejection w check_nonce e /\ shows [] n w r') \/
      (e = TransactionMalformed "U256 Overflow" /\ is_input_private (t_action t) = true /\ U256_MOD <= gas_cost /\
       exists v out, executed = Ret (Some (v, out)) r')
  | Panic => exists v out r1, executed = Ret (Some (v, out)) r1 /\ ~ failed v /\ ~ refunds_ok (r_substate r1)
  end.

Lemma transact_with_tracer_ok check_nonce oc n w (r : Rn) : shows [] n w r ->
  transact_post check_nonce oc n w r (transact_with_tracer fuel self st check_nonce oc r).
Proof.
  intros Hsh. pose proof (transact_execute_ok check_nonce oc [] n w r (Forall_nil_2 _) Hsh) as Hex.
  unfold transact_post, transact_with_tracer, wp in *. unfold bind at 1.
  destruct (transact_execute _ _ _ _ _ r) as [o r1|e r1|]; [|by left|done].
  destruct Hex as (Hpass & (v & out & -> & Hv & w3 & Hsh3 & Hf) & r2 & Hsh2 & Hs2 & Hact).
  unfold bind at 1, get. unfold bind at 1. destruct (decide (refunds_ok (r_substate r1))) as [Hrf|Hrf].
  - pose proof (executive_finalize_ok n w3 v out r1 Hsh3 Hrf (cp_base _ _ _ Hpass) Hv) as Hfin. unfold wp in Hfin.
    destruct (executive_finalize self st v out _ _ r1) as [rc r'|e r'|]; [|right|done].
    + destruct Hfin as (Hrc & w5 & Hsh5 & Hsw). exists w5. split; [exact Hsh5|].
      eapply went_done; [exact Hpass|exact Hv|]. split; done.
    + destruct Hfin as (-> & -> & Hbig). split_and!; [done| |done|by exists v, out].
      destruct (is_input_private (t_action t)) eqn:Hp; [done|]. pose proof (cp_funds _ _ _ Hpass Hp) as Hfunds.
      pose proof (balance_ok w (sg_sender st) (proj1 (proj2 Hsh))). pose proof (sw_value st Hst) as Hval. fold t in Hval.
      range_lia.
  - rewrite (executive_finalize_panics v out _ _ r1 Hrf). exists v, out, r1. split_and!; [done| |done].
    intros Hfv. destruct Hrf. apply no_refunds_ok. by apply Hf.
Qed.

(** The balances after a transaction that failed, in the accounts that are left. *)
Lemma failed_balance check_nonce oc n w w' rc r' a : world_ok w -> 0 <= t_gas t ->
  transaction_done check_nonce oc n w w' rc r' -> ex_exception rc <> None ->
  is_input_private (t_action t) = false -> sg_sender st <> ei_author (ev_info self) -> is_Some (w' a) ->
  balance_of w' a =
    if a =? sg_sender st then balance_of w a - ex_gas_used rc * t_gas_price t
    else if a =? ei_author (ev_info self) then u256_saturating_add (balance_of w a) (ex_gas_used rc * t_gas_price t)
    else balance_of w a.
Proof.
  intros Hw Hg Hdone Hex Hpub Hne [x Hx].
  destruct Hdone as [_ _ _ Hfunds Hused' _ _ _ (v & out & r2 & r1 & w3 & [_ _ Hsh3 Hf _ Hrc Hend])].
  specialize (Hfunds Hpub). destruct Hused' as [Hu _]. cbv zeta in Hend.
  assert (Hfv : failed v).
  { rewrite Hrc in Hex. destruct v as [fr|er]; [|done]. cbn in Hex |- *. by destruct (fr_apply_state fr). }
  destruct (Hf Hfv) as [-> Hs]. assert (Hug : ex_gas_used rc = gas_paid (r_substate r1) v).
  { rewrite Hrc. destruct v as [fr|er]; [done|]. cbn. unfold gas_paid. rewrite no_refund; cbn; [lia|done|lia]. }
  rewrite <- Hug in Hend. assert (Hnin : a ∉ ss_suicides (r_substate r1)).
  { destruct Hs as (-> & _). set_solver. }
  destruct (sw_others _ _ _ _ _ Hend a Hnin) as [Heq|[Heq _]]; [|by rewrite Heq in Hx].
  unfold balance_of at 1. rewrite Heq. fold (balance_of (snd (settled (ex_gas_used rc) (r_substate r1) (charged w))) a).
  destruct (sw_gas_price st Hst) as [Hp _]. destruct (sw_value st Hst) as [Hv _]. fold t in Hp, Hv.
  rewrite balance_of_settled by (apply Hsh3 || done). cbn. unfold refund_account. rewrite Hpub.
  rewrite balance_of_charged by (intros _; range_lia). rewrite Hpub. cbn [negb andb].
  pose proof (balance_ok w a Hw) as Hba. assert (0 <= ex_gas_used rc * t_gas_price t <= gas_cost) by (unfold gas_cost; nia).
  destruct (Z.eqb_spec a (sg_sender st)) as [->|].
  - rewrite (proj2 (Z.eqb_neq _ _) Hne). unfold u256_saturating_add. range_lia.
  - by rewrite !Z.sub_0_r.
Qed.

End Safety.
