(* ===== verification/TestExecution.v ===== *)
(** * A chain to run the executive on

    A database with a rich account and two contracts, a block and an executive on the
    interpreter, without builtins and without a Wasm machine. The theorems about executions
    are applied to it. *)

From S2P Require Import Prelude Schedule Vm CostType MemoryCache Account State StateSpec StateRefine StateTheorems Worlds Transaction Substate JumpTable Interpreter TestHost EvmTheorems VmFactory Tracer Externalities ExternalitiesLaws Executive ExecutiveSafety.
From stdpp Require Import base numbers option strings gmap list.

Open Scope Z_scope.
Open Scope origo_scope.

#[export] Existing Instance test_keccak.

Lemma test_keccak_ok b : is_u256 (keccak b).
Proof.
  unfold keccak, test_keccak. destruct b; [unfold KECCAK_EMPTY; range_lia|]. apply is_u256_mod.
Qed.

(** [PUSH1 1; PUSH1 0; SSTORE; PUSH1 0; PUSH1 0; REVERT] *)
Definition reverting_code : bytes := [0x60; 1; 0x60; 0; 0x55; 0x60; 0; 0x60; 0; 0xfd].

(** [PUSH1 7; PUSH1 0; SSTORE], then a [CALL] of the account 2 with 30000 units of gas and
    without value. *)
Definition calling_code : bytes :=
  [0x60; 7; 0x60; 0; 0x55; 0x60; 0; 0x60; 0; 0x60; 0; 0x60; 0; 0x60; 0; 0x60; 2; 0x61; 0x75; 0x30; 0xf1].

(** Account 1 is rich, 2 and 3 hold the two programs. *)
Definition chain_accounts : gmap Z BasicAccount :=
  {[ 1 := mkBasicAccount 0 1000000 KECCAK_NULL_RLP KECCAK_EMPTY;
     2 := mkBasicAccount 1 0 KECCAK_NULL_RLP (test_keccak reverting_code);
     3 := mkBasicAccount 1 7 KECCAK_NULL_RLP (test_keccak calling_code) ]}.

Definition chain_disk (a : Z) : option BasicAccount := chain_accounts !! a.

Definition chain_db : MemDb :=
  mkMemDb {[ 9 := chain_accounts ]} ∅
    {[ (2, test_keccak reverting_code) := reverting_code; (3, test_keccak calling_code) := calling_code ]} 10.

Definition chain_codes (h : Z) : bytes :=
  if h =? test_keccak reverting_code then reverting_code
  else if h =? test_keccak calling_code then calling_code else [].

Lemma chain_disk_cases a b : chain_disk a = Some b ->
  a = 1 /\ b = mkBasicAccount 0 1000000 KECCAK_NULL_RLP KECCAK_EMPTY \/
  a = 2 /\ b = mkBasicAccount 1 0 KECCAK_NULL_RLP (test_keccak reverting_code) \/
  a = 3 /\ b = mkBasicAccount 1 7 KECCAK_NULL_RLP (test_keccak calling_code).
Proof.
  unfold chain_disk, chain_accounts. rewrite !lookup_insert_Some, lookup_singleton_Some. naive_solver.
Qed.

Lemma code_ok c : forallb (fun b => (0 <=? b) && (b <? 256)) c = true -> zlen c < 1000 -> vec_ok c.
Proof.
  intros Hc Hl. rewrite forallb_forall in Hc. split; [|range_lia].
  apply Forall_forall. intros b Hb%list_elem_of_In%Hc. apply andb_prop in Hb. range_lia.
Qed.

Lemma chain_db_complete : db_complete chain_codes chain_db 9 chain_disk.
Proof.
  split; [done|done| |]; intros a b.
  - intros k [[-> ->]|[[-> ->]|[-> ->]]]%chain_disk_cases; by eexists.
  - intros [[-> ->]|[[-> ->]|[-> ->]]]%chain_disk_cases; by vm_compute.
Qed.

Local Abbreviation L := (ListLru.t Z Z).
Local Abbreviation B := (Basic MemDb).
Definition chain_backend (b : B) : Prop := basic_db b = chain_db.

#[export] Instance chain_backend_laws : BackendLaws (L := L) ListLru.pairs chain_codes chain_db chain_disk chain_backend.
Proof. apply basic_laws. Qed.

Definition chain_state : State L B := mkState (mkBasic chain_db) 9 ∅ [] 0.
Definition chain_world : world := disk_world chain_codes chain_db chain_disk.
Definition chain_run : Run (State L B) NoopTracer NoopVMTracer :=
  mkRun chain_state substate_new mkNoopTracer mkNoopVMTracer.

Definition chain_shows := shows (sim ListLru.pairs chain_codes chain_db 9 chain_disk 0 chain_backend)
  (T := NoopTracer) (V := NoopVMTracer) (fun _ _ => True) (fun _ _ => True).

Lemma chain_world_ok : world_ok chain_world.
Proof.
  intros a v. unfold chain_world, disk_world. destruct (chain_disk a) as [b|] eqn:Hb; [|done].
  intros [= <-]. apply chain_disk_cases in Hb.
  destruct Hb as [[-> ->]|[[-> ->]|[-> ->]]]; (split; [range_lia|split]); try (intros k); try (unfold is_u256; vm_compute; done); by apply code_ok.
Qed.

Lemma chain_run_shows n : chain_shows [] n chain_world chain_run.
Proof.
  destruct (from_existing_sim ListLru.pairs _ chain_db 9 chain_disk 0 chain_db_complete chain_backend
    (mkBasic chain_db) eq_refl) as (s & [= <-] & Hsim).
  split_and!; [exact Hsim|apply chain_world_ok|done|done].
Qed.

(** No schedule in use runs Wasm: a machine that is never called. *)
#[export] Instance chain_rlp_pair : RlpPair := fun a n => be_bytes 20 a ++ be_bytes 32 n.
#[export] Instance chain_show : ShowTrieError := fun _ => "trie error"%string.
#[export] Instance chain_executor : Executor (State L B) NoopTracer NoopVMTracer := no_executor.
#[export] Instance chain_wasm : Exec (Externalities L B NoopTracer NoopVMTracer) unit := {
  vm_exec _ _ := panic;
  vm_resume_call _ _ := None;
  vm_resume_create _ _ := None;
}.
Definition chain_wasm_new (_ : ActionParams) : unit := tt.

Local Abbreviation C := (MemoryLruCache (ListLru.t Z (list Z))).

Definition chain_env : EnvInfo := mkEnvInfo 0 77 3 4 8000000 [] 0.
Definition chain_machine : Machine := mkMachine ∅ (2 ^ 40) 0 0.
Definition chain_executive : Executive C :=
  executive_new chain_env chain_machine new_constantinople (memory_cache_new 1000).

Definition chain_params (sender to gas value : Z) (code : option bytes) : ActionParams :=
  mkActionParams to None to sender sender gas 1 (Transfer value) code None CallNone Separate false false.

Lemma chain_executive_ok gas : 0 <= gas < U64_MOD ->
  executive_ok th_cache_ok (fun sch => wasm sch = None) chain_executive gas.
Proof.
  intros Hg. split; cbn; try done; try range_lia. apply th_cache_new.
Qed.

Lemma chain_params_ok sender to gas value code : is_address sender -> is_address to -> 0 <= gas < U64_MOD -> is_u256 value ->
  opt_ok vec_ok code -> params_wf (chain_params sender to gas value code).
Proof. intros ? ? ? ? ?. split; [|done]. split; cbn; try done; try range_lia. Qed.
