(* ===== verification/ExecutionTheorems.v ===== *)
(** * Theorems about executions and transactions

    The executive with the state, the externalities and the interpreter of this
    development: their contracts are discharged, and what is left are the database, the hash,
    the tracers and the cache of jump destinations. *)

From S2P Require Import Prelude Schedule Instructions Vm CostType Gasometer Memory MemoryCache Account State StateSpec StateRefine Worlds WorldLogic Transaction Substate JumpTable Interpreter InterpreterSafety InterpreterStep VmFactory Tracer Externalities ExternalitiesLaws Executive ExecutiveSafety Transact TransactSafety Twins StateTwins ExecutionTwins StateTheorems TestHost EvmTheorems TestExecution.
From stdpp Require Import base numbers option strings gmap list.

Open Scope Z_scope.
Open Scope origo_scope.

Section Execution.
Context {L : Type} {LC : LruCache L Z Z} {K : Keccak} {R : RlpPair} {SH : ShowTrieError} {DT : DebugTrieError}.
Context {D B : Type} {DB : HashDb D} {BE : Backend B D (Account L)}.
Context {T V : Type} {TR : Tracer T} {VR : VMTracer V} {EX : Executor (State L B) T V}.
Context {C : Type} {DC : DestCache C} {W : Type} {WE : Exec (Externalities L B T V) W} (wasm_new : ActionParams -> W).
Local Abbreviation Rn := (Run (State L B) T V).

(** The hash, and the complete database the state was opened on. *)
Context (HK : forall b, is_u256 (keccak b)) (Hempty : keccak [] = KECCAK_EMPTY).
Context (entries : L -> list (Z * Z)) {laws : LruCacheLaws entries}.
Context (codes : Z -> bytes) (db : D) (root : Z) (disk : Z -> option BasicAccount) (start : Z) (Hstart : 0 <= start < U256_MOD - 1).
Context (Hdb : db_complete codes db root disk).
Context (BInv : B -> Prop) {BL : BackendLaws entries codes db disk BInv}.

(** Tracers that accept balanced calls, and a faithful cache of jump destinations. *)
Context (tlevel : nat -> T -> Prop) {TL : TracerLaws tlevel}.
Context (vlevel : nat -> V -> Prop) {VL : VMTracerLaws vlevel}.
Context (cache_ok : C -> Prop) (stored : C -> Z -> list Z -> Prop) {CDL : DestCacheLaws C cache_ok stored}.

Local Abbreviation sim := (sim entries codes db root disk start BInv).
Local Abbreviation shows := (shows sim tlevel vlevel).
Local Abbreviation no_wasm := (fun sch => wasm sch = None).

#[local] Instance exec_state_laws : StateLaws start sim.
Proof. by apply state_laws. Qed.

#[local] Instance exec_factory : Factory C (ExecBox C W) := factory_create wasm_new.

#[local] Instance exec_box_laws : ExecLaws (E := Externalities L B T V) (X := ExecBox C W)
  (box_ready cache_ok) (box_waiting cache_ok).
Proof. by apply (box_laws HK cache_ok stored). Qed.

#[local] Instance exec_factory_laws :
  FactoryLaws (E := Externalities L B T V) (X := ExecBox C W) (box_ready cache_ok) cache_ok no_wasm.
Proof. apply (box_factory_laws wasm_new cache_ok). Qed.

(** A top-level call or create. *)
Definition run_action (create : bool) (fuel : nat) (self : Executive C) (p : ActionParams) (stack_depth : Z)
    : M Rn Empty_set (option (FinalizationResult + vm_error)) :=
  if create then create_with_stack_depth (X := ExecBox C W) fuel self p stack_depth
  else call_with_stack_depth (X := ExecBox C W) fuel self p stack_depth.

Lemma run_action_ok create fuel self p sd ws n w (r : Rn) :
  executive_ok cache_ok no_wasm self (ap_gas p) -> params_wf p -> (create = true -> is_Some (ap_code p)) ->
  funded w p -> Forall world_ok ws -> shows ws n w r -> 3 * ap_gas p + 2 <= Z.of_nat fuel ->
  exists v r', run_action create fuel self p sd r = Ret (Some v) r' /\
    consumed sim tlevel vlevel w ws n (ap_gas p) (r_substate r) v r'.
Proof.
  intros Hok Hp Hc Hf Hws Hsh Hfuel.
  assert (Hw : wp (run_action create fuel self p sd) (call_post sim tlevel vlevel ws n w (r_substate r) (ap_gas p))
    (fun _ _ => False) r).
  { destruct create.
    - eapply (create_with_stack_depth_ok HK start Hstart sim tlevel vlevel (box_ready cache_ok) (box_waiting cache_ok)
        cache_ok no_wasm); try done. by apply Hc.
    - by eapply (call_with_stack_depth_ok HK start Hstart sim tlevel vlevel (box_ready cache_ok) (box_waiting cache_ok)
        cache_ok no_wasm). }
  unfold wp in Hw. destruct (run_action _ _ _ _ _ r) as [o r'|[]|]; [|done]. destruct Hw as (v & -> & Hv). by exists v, r'.
Qed.

(** C10: a message call or contract creation ends, whatever code runs and however deep its
    calls and creates nest: with fuel for three times its gas it has a result, without a
    panic in the interpreter, the host, the state or the tracers. The result has no more
    gas than was given, well-formed return data, and is never an internal error; every trace
    that was opened is closed and every checkpoint that was taken is gone. *)
Theorem executions_terminate create fuel self p sd ws n w (r : Rn) :
  executive_ok cache_ok no_wasm self (ap_gas p) -> params_wf p -> (create = true -> is_Some (ap_code p)) ->
  funded w p -> Forall world_ok ws -> shows ws n w r -> 3 * ap_gas p + 2 <= Z.of_nat fuel ->
  exists v r', run_action create fuel self p sd r = Ret (Some v) r' /\ result_ok (ap_gas p) v /\
    exists w', shows ws n w' r'.
Proof.
  intros Hok Hp Hc Hf Hws Hsh Hfuel.
  destruct (run_action_ok create fuel self p sd ws n w r Hok Hp Hc Hf Hws Hsh Hfuel) as (v & r' & Hr & Hv & w' & Hsh' & _).
  exists v, r'. split; [done|]. split; [done|]. by exists w'.
Qed.

(** C9: executions are atomic. A call or create that fails, with an error or by reverting,
    at any depth of nested calls, leaves the world exactly as it found it, with the
    snapshots below it, and adds no logs, suicides, refunds or contracts to the substate.
    One that succeeds only adds to them. *)
Theorem executions_atomic create fuel self p sd ws n w (r : Rn) v r' :
  executive_ok cache_ok no_wasm self (ap_gas p) -> params_wf p -> (create = true -> is_Some (ap_code p)) ->
  funded w p -> Forall world_ok ws -> shows ws n w r -> 3 * ap_gas p + 2 <= Z.of_nat fuel ->
  run_action create fuel self p sd r = Ret (Some v) r' ->
  extends (r_substate r) (r_substate r') /\
  (failed v -> sim (r_state r') (w, ws) /\ same_effects (r_substate r) (r_substate r')).
Proof.
  intros Hok Hp Hc Hf Hws Hsh Hfuel Hr.
  destruct (run_action_ok create fuel self p sd ws n w r Hok Hp Hc Hf Hws Hsh Hfuel)
    as (v' & r2 & Hr2 & Hv & w' & Hsh' & He & Hfail).
  rewrite Hr in Hr2. injection Hr2 as <- <-. split; [done|].
  intros Hfv. destruct (Hfail Hfv) as [-> ?]. split; [apply Hsh'|done].
Qed.

(** A call to an account without code moves exactly the value. It takes no gas; the
    sender's balance is debited and the receiver's credited, for a private input no account
    is debited, for a private output none is credited. *)
Theorem transfers_move_value fuel (self : CallCreateExecutive (ExecBox C W) C) p ws n w (r : Rn) :
  ce_kind self = KindTransfer p -> ce_is_create self = false -> executive_wf cache_ok no_wasm self ->
  action_ready w self p -> check_static_flag p (ce_static_flag self) false = inl tt -> shows ws n w r ->
  exists r' w', exec_executive fuel self r =
      Ret (Some (Finished (inl (mkFinalizationResult (ap_gas p) true ReturnData_empty)))) r' /\
    shows ws n w' r' /\ moved p w w'.
Proof.
  intros Hk Hc Hwf (Hp & Hf & Hg) Hst Hsh. unfold exec_executive. rewrite Hk, Hc. cbn [assert_ negb].
  unfold exec_transfer. rewrite Hc, Hst.
  pose proof (transfer_exec_balance_ok HK start Hstart sim tlevel vlevel ws n w p (ce_schedule self) r
    (fun _ _ => False) Hp Hf Hsh) as Hw.
  unfold wp in Hw. unfold bind, attempt, lift_result, ret. cbn beta iota.
  destruct (transfer_exec_balance p (ce_schedule self) r) as [[] r'|er r'|]; [|done|done].
  destruct Hw as (w' & Hsh' & Hm & _). by exists r', w'.
Qed.

Section Transactions.
Context (fuel : nat) (self : Executive C) (st : SignedTransaction) (base : Z) (check_nonce output_from_create : bool).
Context (n : nat) (w : world) (r : Rn).
Local Abbreviation t := (ut_unsigned (sg_transaction st)).

(** What a transaction needs to be run: a well-formed transaction and environment, and
    numbers that stay within their words. *)
Record transaction_ready : Prop := {
  tr_signed : signed_wf st;
  tr_base : gas_required t (ev_schedule self) = Some base /\ 0 <= base;
  tr_executive : executive_ok cache_ok no_wasm self (t_gas t);
  tr_block : 0 <= ei_gas_used (ev_info self) /\ ei_gas_used (ev_info self) + t_gas t < U256_MOD;
  tr_fuel : 3 * t_gas t + 2 <= Z.of_nat fuel;
  tr_shows : shows [] n w r;
}.

Lemma transact_outcome : transaction_ready ->
  transact_post start sim tlevel vlevel self st base fuel check_nonce output_from_create n w r
    (transact_with_tracer fuel self st check_nonce output_from_create r).
Proof.
  intros [Hst [Hbase Hb0] Hok [Hu Hblk] Hfuel Hsh].
  by eapply (transact_with_tracer_ok HK start Hstart sim tlevel vlevel (box_ready cache_ok) (box_waiting cache_ok)
    cache_ok no_wasm).
Qed.

(** C11: a transaction is rejected, for the reason its error gives, before any change of the
    world; or it is executed. Then the gas covers its base cost, its nonce was the sender's
    and the sender could pay (unless its input is private), and it fits the block. Its action
    starts in exactly the world in which the sender's nonce is one more and the price of all
    its gas is paid, of which a private sender does neither. A failed action leaves that
    world, with no refund, logs, contracts or suicides. The receipt reports the gas used, the
    refund of at most half of it, the logs and the contracts of the substate of the action.
    The price of the gas that is left goes back and the rest to the author, and no account
    changes otherwise, except that the suicides are gone and so are, as the schedule says,
    the touched accounts that are empty or dust, of which the cache has none left.
    Two cases remain, both after the action was executed: the price of the gas of a private
    input is no word, which is reported as an error; and the assertion that the refund is
    not negative, or the sum of the refunds, fails, which panics, only if the action
    succeeded. *)
Theorem transactions_settle : transaction_ready ->
  match transact_with_tracer fuel self st check_nonce output_from_create r with
  | Ret (Some rc) r' => exists w', shows [] n w' r' /\
      transaction_done start sim tlevel vlevel self st base fuel check_nonce output_from_create n w w' rc r'
  | Ret None _ => False
  | Throw e r' =>
      (rejection start self st base w check_nonce e /\ shows [] n w r') \/
      (e = TransactionMalformed "U256 Overflow" /\ is_input_private (t_action t) = true /\ U256_MOD <= gas_cost st /\
       exists v out, transact_execute fuel self st check_nonce output_from_create r = Ret (Some (v, out)) r')
  | Panic => exists v out r1, transact_execute fuel self st check_nonce output_from_create r = Ret (Some (v, out)) r1 /\
      ~ failed v /\ ~ refunds_ok self (r_substate r1)
  end.
Proof. apply transact_outcome. Qed.

(** C25: a transaction of a public sender that fails costs exactly the gas it reports: the
    sender's balance goes down and the author's up by that gas at its price, and no other
    balance changes, except of accounts that are swept. *)
Theorem failed_transactions_cost_their_gas rc r' :
  transaction_ready -> transact_with_tracer fuel self st check_nonce output_from_create r = Ret (Some rc) r' ->
  ex_exception rc <> None -> is_input_private (t_action t) = false -> sg_sender st <> ei_author (ev_info self) ->
  exists w', shows [] n w' r' /\ forall a, is_Some (w' a) ->
    balance_of w' a =
      if a =? sg_sender st then balance_of w a - ex_gas_used rc * t_gas_price t
      else if a =? ei_author (ev_info self) then u256_saturating_add (balance_of w a) (ex_gas_used rc * t_gas_price t)
      else balance_of w a.
Proof.
  intros Hready Hrun Hex Hpub Hne. pose proof (transact_outcome Hready) as Hw. unfold transact_post in Hw.
  rewrite Hrun in Hw. destruct Hw as (w' & Hsh & Hdone). exists w'. split; [exact Hsh|]. intros a Ha.
  destruct Hready as [Hst [Hbase Hb] Hok [Hu Hblk] Hfuel (_ & Hwok & _)].
  eapply (failed_balance HK start Hstart sim tlevel vlevel (box_ready cache_ok) (box_waiting cache_ok) cache_ok no_wasm);
    try done. apply Hok.
Qed.

End Transactions.

(** C24: the externalities meet the contract that the interpreter relies on: over a state
    that shows a world, no method of the host panics, each keeps the environment and the
    snapshots, answers with words, fails with proper errors only, and a call or create traps
    only with parameters the executive can start from, covered by the caller's balance. *)
Theorem externalities_meet_contract (x0 : Externalities L B T V) ws n :
  externalities_wf x0 -> Forall world_ok ws ->
  ExtLaws (my_address x0) (x_inv sim tlevel vlevel x0 ws n) (x_affords sim tlevel vlevel x0 ws n)
    (x_trap_ready sim tlevel vlevel x0 ws n).
Proof.
  intros Hx0 Hws. apply (externalities_laws HK start (start_u256 start Hstart) sim tlevel vlevel x0 Hx0 ws Hws n).
Qed.

End Execution.

(** ** Two nodes *)

Section Caches.
Context {L : Type} {LC : LruCache L Z Z} {K : Keccak} {R : RlpPair} {SH : ShowTrieError} {DT : DebugTrieError}.
Context {D B : Type} {DB : HashDb D} {BE : Backend B D (Account L)}.
Context {T V : Type} {TR : Tracer T} {VR : VMTracer V}.
Context {C : Type} {DC : DestCache C} {W : Type} (wasm_new : ActionParams -> W).
Context (WE : Executor (State L B) T V -> Exec (Externalities L B T V) W).

(** The virtual machines over the host that nested executions give. *)
Definition stack_machine (EX : Executor (State L B) T V) : Exec (Externalities L B T V) (ExecBox C W) :=
  ExecBox_Exec (X := Externalities_Ext (EX := EX)) (WE := WE EX).

(** A transaction with the whole stack: executions that do not trap are nested up to [n]. *)
Definition transact_stack (n fuel : nat) (self : Executive C) (st : SignedTransaction) (options : TransactOptions)
    : M (Run (State L B) T V) execution_error (option (Executed tracer_output vm_tracer_output)) :=
  let EX := nested_executor (FA := factory_create wasm_new) stack_machine n fuel (ev_vm_factory self) in
  transact (EX := EX) (EV := stack_machine EX) (FA := factory_create wasm_new) fuel self st options.

(** The wasm engine reaches its host through the methods of [Ext] only. *)
Context (Hwasm : forall EX RE, ExtTwins (X := Externalities_Ext (EX := EX)) RE -> ExecTwins (EV := WE EX) RE).

(** Two complete databases with the same accounts, codes and storage, and any backends over
    them. No account of theirs is empty, as EIP-161 leaves them. *)
Context (entries : L -> list (Z * Z)) {laws : LruCacheLaws entries} (Hempty : keccak [] = KECCAK_EMPTY).
Context (codes : Z -> bytes) (root : Z) (disk : Z -> option BasicAccount) (start : Z).
Context (db db' : D) (Hdb : db_complete codes db root disk) (Hdb' : db_complete codes db' root disk).
Context (Hvalues : forall a b k, disk a = Some b -> trie_value db a (ba_storage_root b) k = trie_value db' a (ba_storage_root b) k).
Context (Hfull : forall a b, disk a = Some b -> is_null (Account_from (L := L) b) = false).
Context (BInv BInv' : B -> Prop) {BL : BackendLaws entries codes db disk BInv} {BL' : BackendLaws entries codes db' disk BInv'}.
Local Abbreviation alike := (alike entries codes root disk start db db' BInv BInv').
Local Abbreviation like := (like entries codes root disk start db db' BInv BInv').

(** C12: two nodes agree on a transaction, whatever their caches hold. Their databases have
    the same accounts, and their states show the same accounts now and at each checkpoint;
    local caches, storage caches, loaded codes and backends may differ. Then both execute the
    transaction to the same receipt, with the same gas, logs and traces, or reject it
    with the same error, or neither returns, and their states show the same accounts again.
    The schedule does not remove dust. *)
Theorem transactions_ignore_caches n fuel (self : Executive C) st options (r r' : Run (State L B) T V) :
  kill_dust (ev_schedule self) = DustOff -> same_run alike r r' ->
  ends (same_run like) eq (transact_stack n fuel self st options r) (transact_stack n fuel self st options r').
Proof.
  intros Hd Hr. pose proof (alike_methods entries codes root disk start Hempty db db' Hdb Hdb' Hvalues BInv BInv') as HM.
  pose proof (alike_garbage entries codes root disk start db db' BInv BInv' Hfull) as HG.
  assert (HX : forall EX, ExecutorTwins EX alike -> ExecTwins (EV := stack_machine EX) (same_host (T := T) (V := V) alike)).
  { intros EX HE. pose proof (host_twins (EX := EX) alike (ST := HM) (XT := HE)) as HH.
    exact (box_twins (XE := Externalities_Ext (EX := EX)) (WE := WE EX) _ (XT := HH) (WT := Hwasm EX _ HH)). }
  pose proof (nested_twins alike stack_machine (FA := factory_create wasm_new) HX n fuel (ev_vm_factory self)) as HN.
  unfold transact_stack. cbv zeta. exact (transact_leads alike like (ST := HM) (GT := HG) (XT := HN) (VT := HX _ HN) fuel self st options Hd r r' Hr).
Qed.

End Caches.

(** ** Concrete executions *)

Local Abbreviation run_chain := (run_action (L := ListLru.t Z Z) (B := Basic MemDb) chain_wasm_new).
Local Abbreviation chain_sim := (sim ListLru.pairs chain_codes chain_db 9 chain_disk 0 chain_backend).

(** Account 1 calls the contract at 3, which writes its storage and calls the one at 2. *)
Definition nested_call : ActionParams := chain_params 1 3 100000 5 (Some calling_code).

(** Account 1 calls the contract at 2, which writes its storage and reverts. *)
Definition reverting_call : ActionParams := chain_params 1 2 100000 5 (Some reverting_code).

Lemma calling_code_ok : opt_ok vec_ok (Some calling_code).
Proof. by apply code_ok. Qed.

Lemma reverting_code_ok : opt_ok vec_ok (Some reverting_code).
Proof. by apply code_ok. Qed.

Lemma nested_call_ok : params_wf nested_call.
Proof. apply chain_params_ok; [range_lia..|apply calling_code_ok]. Qed.

Lemma reverting_call_ok : params_wf reverting_call.
Proof. apply chain_params_ok; [range_lia..|apply reverting_code_ok]. Qed.

Lemma chain_funded sender to gas value code : value <= balance_of chain_world sender ->
  funded chain_world (chain_params sender to gas value code).
Proof. by intros Hv _ v [= <-]. Qed.

Lemma executions_terminate_witness :
  exists v r', run_chain false (Z.to_nat 300002) chain_executive nested_call 0 chain_run = Ret (Some v) r' /\
    result_ok 100000 v /\ exists w', chain_shows [] 0 w' r'.
Proof.
  apply (executions_terminate chain_wasm_new test_keccak_ok eq_refl ListLru.pairs chain_codes chain_db 9 chain_disk 0
    ltac:(range_lia) chain_db_complete chain_backend (fun _ _ => True) (fun _ _ => True) th_cache_ok
    (memory_stored ListLru.pairs) (CDL := th_cache_laws) (T := NoopTracer) (V := NoopVMTracer)
    false (Z.to_nat 300002) chain_executive nested_call 0 [] 0 chain_world chain_run).
  - by apply chain_executive_ok.
  - apply nested_call_ok.
  - done.
  - by apply chain_funded.
  - constructor.
  - apply chain_run_shows.
  - vm_compute. done.
Defined.

Lemma executions_atomic_witness :
  exists v r', run_chain false (Z.to_nat 300002) chain_executive reverting_call 0 chain_run = Ret (Some v) r' /\
    failed v /\ chain_sim (r_state r') (chain_world, []) /\ same_effects substate_new (r_substate r').
Proof.
  assert (Hok := chain_executive_ok 100000 ltac:(range_lia)). assert (Hsh := chain_run_shows 0).
  assert (Hf : funded chain_world reverting_call) by by apply chain_funded.
  assert (Hfuel : 3 * 100000 + 2 <= Z.of_nat (Z.to_nat 300002)) by by vm_compute.
  destruct (run_action_ok chain_wasm_new test_keccak_ok eq_refl ListLru.pairs chain_codes chain_db 9 chain_disk 0
    ltac:(range_lia) chain_db_complete chain_backend (fun _ _ => True) (fun _ _ => True) th_cache_ok
    (memory_stored ListLru.pairs) (CDL := th_cache_laws) (T := NoopTracer) (V := NoopVMTracer)
    false (Z.to_nat 300002) chain_executive reverting_call 0 [] 0 chain_world chain_run Hok reverting_call_ok
    (fun H => match Bool.diff_false_true H with end) Hf (Forall_nil_2 _) Hsh Hfuel) as (v & r' & Hr & _).
  assert (Hv : failed v).
  { assert (Hc : match run_chain false (Z.to_nat 300002) chain_executive reverting_call 0 chain_run with
                 | Ret (Some (inl fr)) _ => fr_apply_state fr
                 | _ => false
                 end = false) by by vm_compute.
    rewrite Hr in Hc. by destruct v. }
  exists v, r'. split; [exact Hr|]. split; [exact Hv|].
  apply (executions_atomic chain_wasm_new test_keccak_ok eq_refl ListLru.pairs chain_codes chain_db 9 chain_disk 0
    ltac:(range_lia) chain_db_complete chain_backend (fun _ _ => True) (fun _ _ => True) th_cache_ok
    (memory_stored ListLru.pairs) (CDL := th_cache_laws) (T := NoopTracer) (V := NoopVMTracer)
    false (Z.to_nat 300002) chain_executive reverting_call 0 [] 0 chain_world chain_run v r' Hok reverting_call_ok
    (fun H => match Bool.diff_false_true H with end) Hf (Forall_nil_2 _) Hsh Hfuel Hr).
  exact Hv.
Defined.

(** The contract at 3 keeps its write and its value; the one at 2, which reverted, has written nothing. *)
Example nested_call_result :
  match run_chain false (Z.to_nat 300002) chain_executive nested_call 0 chain_run with
  | Ret (Some (inl fr)) r' =>
      fr_apply_state fr = true /\
      (exists s, state_storage_at 3 0 (r_state r') = Ret 7 s) /\
      (exists s, state_storage_at 2 0 (r_state r') = Ret 0 s) /\
      (exists s, balance 3 (r_state r') = Ret 12 s)
  | _ => False
  end.
Proof. vm_compute. split_and!; [done|by eexists..]. Qed.

(** The executive of a transfer of 30 units from the account 1 to a new account. *)
Definition transfer_params : ActionParams := chain_params 1 5 50000 30 None.
Definition transfer_executive :
    CallCreateExecutive (ExecBox (MemoryLruCache (ListLru.t Z (list Z))) unit) (MemoryLruCache (ListLru.t Z (list Z))) :=
  mkCallCreateExecutive chain_env chain_machine new_constantinople (memory_cache_new 1000) 0 0 false false 50000
    (KindTransfer transfer_params).

Lemma transfers_move_value_witness :
  new_call_raw transfer_params chain_env chain_machine new_constantinople (memory_cache_new 1000) 0 0 false
    = Some transfer_executive /\
  exists r' w', exec_executive (FA := exec_factory chain_wasm_new) 10 transfer_executive chain_run =
      Ret (Some (Finished (inl (mkFinalizationResult 50000 true ReturnData_empty)))) r' /\
    chain_shows [] 0 w' r' /\ balance_of w' 1 = 999970 /\ balance_of w' 5 = 30.
Proof.
  split; [reflexivity|].
  edestruct (transfers_move_value (T := NoopTracer) (V := NoopVMTracer) chain_wasm_new test_keccak_ok eq_refl ListLru.pairs
    chain_codes chain_db 9 chain_disk 0 ltac:(range_lia) chain_db_complete chain_backend (fun _ _ => True) (fun _ _ => True) th_cache_ok
    10 transfer_executive transfer_params [] 0 chain_world chain_run) as (r' & w' & Hr & Hsh & Hm).
  - done.
  - done.
  - split; try done; apply th_cache_new.
  - split_and!; [by apply chain_params_ok; first [range_lia|done]|by apply chain_funded|done].
  - done.
  - apply chain_run_shows.
  - exists r', w'. split; [exact Hr|]. split; [exact Hsh|]. split; rewrite (Hm _); by vm_compute.
Defined.

(** A transaction of the account 1 that calls the contract at 2 with 5 units, which reverts. *)
Definition reverting_transaction : SignedTransaction :=
  mkSignedTransaction
    (mkUnverifiedTransaction (mkTransaction 0 2 50000 (ActionCall 2) 5 [] None) 27 1 1 0) 1.

#[local] Instance chain_debug : DebugTrieError := fun _ => "trie error"%string.

Local Abbreviation transact_chain := (transact_with_tracer (L := ListLru.t Z Z) (B := Basic MemDb)
  (FA := exec_factory chain_wasm_new) (Z.to_nat 150002) chain_executive reverting_transaction true false).

Lemma reverting_transaction_ready :
  transaction_ready ListLru.pairs chain_codes chain_db 9 chain_disk 0 chain_backend (fun _ _ => True) (fun _ _ => True)
    th_cache_ok (Z.to_nat 150002) chain_executive reverting_transaction 21000 0 chain_world chain_run.
Proof.
  split.
  - split; cbn; try done; try range_lia.
  - split; [reflexivity|done].
  - by apply chain_executive_ok.
  - cbn. range_lia.
  - by vm_compute.
  - apply chain_run_shows.
Qed.

(** The receipt of the transaction: it reverted and used 41012 units of gas. *)
Lemma reverting_transaction_receipt :
  exists rc r', transact_chain chain_run = Ret (Some rc) r' /\ ex_exception rc = Some Reverted /\ ex_gas_used rc = 41012.
Proof.
  assert (Hc : match transact_chain chain_run with
               | Ret (Some rc) _ => ex_exception rc = Some Reverted /\ ex_gas_used rc = 41012
               | _ => False
               end) by (vm_compute; by split).
  revert Hc. destruct (transact_chain chain_run) as [[rc|] r'| |]; [|done..]. intros Hc. by exists rc, r'.
Qed.

Lemma transactions_settle_witness :
  exists rc r' w', transact_chain chain_run = Ret (Some rc) r' /\ chain_shows [] 0 w' r' /\
    transaction_done (EX := chain_executor) (FA := exec_factory chain_wasm_new) 0 chain_sim (fun _ _ => True) (fun _ _ => True)
      chain_executive reverting_transaction 21000 (Z.to_nat 150002) true false 0 chain_world w' rc r'.
Proof.
  destruct reverting_transaction_receipt as (rc & r' & Hrun & _).
  pose proof (transactions_settle chain_wasm_new test_keccak_ok eq_refl ListLru.pairs chain_codes chain_db 9 chain_disk 0
    ltac:(range_lia) chain_db_complete chain_backend (fun _ _ => True) (fun _ _ => True) th_cache_ok
    (memory_stored ListLru.pairs) (CDL := th_cache_laws) (T := NoopTracer) (V := NoopVMTracer) (EX := chain_executor)
    (Z.to_nat 150002) chain_executive reverting_transaction 21000 true false 0 chain_world chain_run
    reverting_transaction_ready) as Hw.
  rewrite Hrun in Hw. destruct Hw as (w' & Hsh & Hdone). exists rc, r', w'.
  split; [exact Hrun|]. split; [exact Hsh|exact Hdone].
Defined.

Lemma failed_transactions_cost_their_gas_witness :
  exists r' w', chain_shows [] 0 w' r' /\
    (is_Some (w' 1) -> balance_of w' 1 = 1000000 - 41012 * 2) /\
    (is_Some (w' 77) -> balance_of w' 77 = 41012 * 2).
Proof.
  destruct reverting_transaction_receipt as (rc & r' & Hrun & Hex & Hgas).
  destruct (failed_transactions_cost_their_gas chain_wasm_new test_keccak_ok eq_refl ListLru.pairs chain_codes chain_db 9 chain_disk 0
    ltac:(range_lia) chain_db_complete chain_backend (fun _ _ => True) (fun _ _ => True) th_cache_ok
    (memory_stored ListLru.pairs) (CDL := th_cache_laws) (T := NoopTracer) (V := NoopVMTracer) (EX := chain_executor)
    (Z.to_nat 150002) chain_executive reverting_transaction 21000 true false 0 chain_world chain_run rc r')
    as (w' & Hsh & Hbal).
  - apply reverting_transaction_ready.
  - exact Hrun.
  - rewrite Hex. discriminate.
  - reflexivity.
  - discriminate.
  - exists r', w'. rewrite Hgas in Hbal. clear Hrun. split; [exact Hsh|].
    split; intros Ha; rewrite (Hbal _ Ha); vm_compute; reflexivity.
Defined.

(** The host of a contract at 2 that was called by the account 1. *)
Definition chain_externalities : Externalities (ListLru.t Z Z) (Basic MemDb) NoopTracer NoopVMTracer :=
  mkExternalities chain_run chain_env 0 0 (mkOriginInfo 2 1 2 5) chain_machine new_constantinople OutputReturn false.

Lemma externalities_meet_contract_witness :
  ExtLaws 2 (x_inv chain_sim (fun _ _ => True) (fun _ _ => True) chain_externalities [] 0)
    (x_affords chain_sim (fun _ _ => True) (fun _ _ => True) chain_externalities [] 0)
    (x_trap_ready chain_sim (fun _ _ => True) (fun _ _ => True) chain_externalities [] 0) /\
  x_inv chain_sim (fun _ _ => True) (fun _ _ => True) chain_externalities [] 0 chain_externalities.
Proof.
  split.
  - apply (externalities_meet_contract test_keccak_ok eq_refl ListLru.pairs chain_codes chain_db 9 chain_disk 0
      ltac:(range_lia) chain_db_complete chain_backend (fun _ _ => True) (fun _ _ => True) chain_externalities [] 0).
    + split; try done; cbn; range_lia.
    + constructor.
  - split; [reflexivity|]. exists chain_world. apply chain_run_shows.
Defined.

(** The account 1 calls the contract at 3, which writes its storage and calls the one at 2. *)
Definition calling_transaction : SignedTransaction :=
  mkSignedTransaction
    (mkUnverifiedTransaction (mkTransaction 0 2 90000 (ActionCall 3) 5 [] None) 27 1 1 0) 1.

(** Another node: its database also holds a later trie, and it has read the code of 3. *)
Definition other_db : MemDb :=
  mkMemDb (<[ 40 := ∅ ]> (md_tries chain_db)) (md_storage chain_db) (md_codes chain_db) 41.
Definition other_backend (b : Basic MemDb) : Prop := basic_db b = other_db.
Definition other_opened : State (ListLru.t Z Z) (Basic MemDb) := mkState (mkBasic other_db) 9 ∅ [] 0.
Definition other_state : State (ListLru.t Z Z) (Basic MemDb) :=
  match state_code 3 other_opened with Ret _ s | Throw _ s => s | Panic => other_opened end.

Lemma other_db_complete : db_complete chain_codes other_db 9 chain_disk.
Proof.
  split; [done|done| |]; intros a b.
  - intros k [[-> ->]|[[-> ->]|[-> ->]]]%chain_disk_cases; by eexists.
  - intros [[-> ->]|[[-> ->]|[-> ->]]]%chain_disk_cases; by vm_compute.
Qed.

#[local] Instance other_backend_laws :
  BackendLaws (L := ListLru.t Z Z) ListLru.pairs chain_codes other_db chain_disk other_backend.
Proof. apply basic_laws. Qed.

Lemma other_alike : alike ListLru.pairs chain_codes 9 chain_disk 0 chain_db other_db chain_backend other_backend
  chain_state other_state.
Proof.
  destruct (opened_alike ListLru.pairs chain_codes 9 chain_disk 0 chain_db other_db chain_db_complete other_db_complete
    chain_backend other_backend (mkBasic chain_db) (mkBasic other_db) eq_refl eq_refl) as (s & s' & [= <-] & [= <-] & Hal).
  pose proof Hal as [(Hi & Hi' & _) _].
  destruct (ensure_cached_ok ListLru.pairs chain_codes other_db 9 chain_disk 0 other_db_complete other_backend other_opened 3
    RequireCode true (fun a => match a with Some a => code a | None => None end) Hi') as (o & s1 & Hr & Hq & _).
  unfold other_state, state_code. rewrite Hr. eapply alike_quiet; [exact Hal|by apply quiet_refl|exact Hq].
Qed.

Local Abbreviation transact_node := (transact_stack (T := NoopTracer) (V := NoopVMTracer) chain_wasm_new (fun _ => chain_wasm)
  2 (Z.to_nat 270002) chain_executive calling_transaction (mkTransactOptions true false)).

Lemma transactions_ignore_caches_witness :
  is_Some (st_cache other_state !! 3) /\ st_cache chain_state = ∅ /\
  ends (same_run (like ListLru.pairs chain_codes 9 chain_disk 0 chain_db other_db chain_backend other_backend)) eq
    (transact_node chain_run) (transact_node (set_state other_state chain_run)).
Proof.
  split; [vm_compute; by eexists|]. split; [reflexivity|].
  apply (transactions_ignore_caches chain_wasm_new (fun _ => chain_wasm)
    (fun _ _ _ _ _ => twin_panic _ _) ListLru.pairs eq_refl chain_codes 9 chain_disk 0 chain_db other_db chain_db_complete
    other_db_complete (fun a b k H => eq_refl)).
  - intros a b [[-> ->]|[[-> ->]|[-> ->]]]%chain_disk_cases; by vm_compute.
  - apply chain_backend_laws.
  - apply other_backend_laws.
  - reflexivity.
  - constructor. apply other_alike.
Defined.

(** The first node executes the transaction: it succeeds. *)
Example calling_transaction_succeeds :
  match transact_node chain_run with
  | Ret (Some rc) _ => ex_exception rc = None
  | _ => False
  end.
Proof. vm_compute. reflexivity. Qed.
