(* ===== verification/Serialize.v ===== *)
(** * Serialisation of the shielded pool's structures

    [CompactSize], [Vector] and [Optional] of [ct-lib/zcash_primitives/src/serialize.rs]. A
    reader is a byte slice that the reading consumes; a writer is the [Vec<u8>] it appends
    to, so that writing never fails. *)

From S2P Require Import Prelude.
From stdpp Require Import base numbers option strings list.

Open Scope Z_scope.
Open Scope origo_scope.

(** The kinds of [io::Error] that occur. *)
Inductive io_error : Type :=
| UnexpectedEof
| InvalidInput (msg : string).

Abbreviation Reader := (M bytes io_error).

(** ** Little-endian integers *)

Definition le_value (l : bytes) : Z := be_value (rev l).
Definition le_bytes (n : nat) (v : Z) : bytes := rev (be_bytes n v).

(** [read_exact] *)
Definition read_exact (n : nat) : Reader bytes :=
  fun s => if bool_decide (n <= length s)%nat then Ret (take n s) (drop n s) else Throw UnexpectedEof s.

(** [read_u8], and [read_u16], [read_u32], [read_u64] of [LittleEndian] by their size. *)
Definition read_uint (n : nat) : Reader Z := do l <- read_exact n in ret (le_value l).

(** ** [CompactSize] *)

Definition MAX_SIZE : Z := 0x02000000.

Definition non_canonical : io_error := InvalidInput "non-canonical CompactSize".

Definition compact_size_read : Reader Z :=
  do flag <- read_uint 1 in
  do s <- (if flag <? 253 then ret flag
           else if flag =? 253 then
             do n <- read_uint 2 in if n <? 253 then throw non_canonical else ret n
           else if flag =? 254 then
             do n <- read_uint 4 in if n <? 0x10000 then throw non_canonical else ret n
           else
             do n <- read_uint 8 in if n <? 0x100000000 then throw non_canonical else ret n) in
  if MAX_SIZE <? s then throw (InvalidInput "CompactSize too large") else ret s.

Definition compact_size_write (size : Z) : bytes :=
  if size <? 253 then le_bytes 1 size
  else if size <=? 0xFFFF then le_bytes 1 253 ++ le_bytes 2 size
  else if size <=? 0xFFFFFFFF then le_bytes 1 254 ++ le_bytes 4 size
  else le_bytes 1 255 ++ le_bytes 8 size.

(** ** [Vector] and [Optional] *)

(** [(0..count).map(..).collect()] of results: the first error ends it. *)
Fixpoint read_times {E} (count : nat) (func : Reader E) : Reader (list E) :=
  match count with
  | O => ret []
  | S count => do e <- func in do l <- read_times count func in ret (e :: l)
  end.

Definition vector_read {E} (func : Reader E) : Reader (list E) :=
  do count <- compact_size_read in read_times (Z.to_nat count) func.

Definition vector_write {E} (vec : list E) (func : E -> bytes) : bytes :=
  compact_size_write (zlen vec) ++ mjoin (func <$> vec).

Definition optional_read {T} (func : Reader T) : Reader (option T) :=
  do b <- read_uint 1 in
  if b =? 0 then ret None
  else if b =? 1 then do e <- func in ret (Some e)
  else throw (InvalidInput "non-canonical Option<T>").

Definition optional_write {T} (val : option T) (func : T -> bytes) : bytes :=
  match val with
  | None => le_bytes 1 0
  | Some e => le_bytes 1 1 ++ func e
  end.

(** ** Round trips *)

(** The reader takes exactly what the writer has written. *)
Definition inverts {A} (read : Reader A) (write : A -> bytes) (ok : A -> Prop) : Prop :=
  forall a rest, ok a -> read (write a ++ rest) = Ret a rest.

Lemma length_le_bytes n v : length (le_bytes n v) = n.
Proof. unfold le_bytes. by rewrite length_rev, length_be_bytes. Qed.

Lemma le_value_le_bytes n v : 0 <= v < 256 ^ Z.of_nat n -> le_value (le_bytes n v) = v.
Proof.
  intros Hv. unfold le_value, le_bytes. rewrite rev_involutive, be_value_be_bytes. by apply Z.mod_small.
Qed.

Lemma read_exact_app l rest n : length l = n -> read_exact n (l ++ rest) = Ret l rest.
Proof.
  intros <-. unfold read_exact. rewrite bool_decide_eq_true_2 by (rewrite length_app; lia).
  by rewrite take_app_length, drop_app_length.
Qed.

Lemma read_uint_inverts n : inverts (read_uint n) (le_bytes n) (fun v => 0 <= v < 256 ^ Z.of_nat n).
Proof.
  intros v rest Hv. unfold read_uint, bind. rewrite (read_exact_app _ _ n) by apply length_le_bytes.
  unfold ret. by rewrite le_value_le_bytes.
Qed.

Lemma inverts_bind {A B} (read : Reader A) write ok (k : A -> Reader B) a rest :
  inverts read write ok -> ok a -> bind read k (write a ++ rest) = k a rest.
Proof. intros Hi Ha. unfold bind. by rewrite Hi. Qed.

Lemma compact_size_inverts : inverts compact_size_read compact_size_write (fun n => 0 <= n <= MAX_SIZE).
Proof.
  unfold MAX_SIZE. intros n rest Hn.
  assert (Hmax : (0x02000000 <? n) = false) by lia.
  unfold compact_size_read, compact_size_write.
  destruct (Z.ltb_spec n 253) as [H1|H1].
  { rewrite (inverts_bind _ _ _ _ _ _ (read_uint_inverts 1)) by lia.
    rewrite (proj2 (Z.ltb_lt n 253)) by lia. unfold bind, ret, MAX_SIZE. by rewrite Hmax. }
  destruct (Z.leb_spec n 0xFFFF) as [H2|H2].
  { rewrite <- app_assoc, (inverts_bind _ _ _ _ _ _ (read_uint_inverts 1)) by lia.
    cbn [Z.ltb Z.eqb Z.compare Pos.compare Pos.compare_cont Pos.eqb]. unfold bind at 1.
    rewrite (inverts_bind _ _ _ _ _ _ (read_uint_inverts 2)) by lia.
    rewrite (proj2 (Z.ltb_ge n 253)) by lia. unfold ret, MAX_SIZE. by rewrite Hmax. }
  rewrite (proj2 (Z.leb_le n 0xFFFFFFFF)) by lia.
  rewrite <- app_assoc, (inverts_bind _ _ _ _ _ _ (read_uint_inverts 1)) by lia.
  cbn [Z.ltb Z.eqb Z.compare Pos.compare Pos.compare_cont Pos.eqb]. unfold bind at 1.
  rewrite (inverts_bind _ _ _ _ _ _ (read_uint_inverts 4)) by lia.
  rewrite (proj2 (Z.ltb_ge n 0x10000)) by lia. unfold ret, MAX_SIZE. by rewrite Hmax.
Qed.

Lemma read_times_inverts {E} (func : Reader E) write ok : inverts func write ok ->
  forall vec rest, Forall ok vec -> read_times (length vec) func (mjoin (write <$> vec) ++ rest) = Ret vec rest.
Proof.
  intros Hi vec rest Hok. induction Hok as [|e vec He Hok IH]; [done|].
  cbn [length read_times]. change (mjoin (write <$> e :: vec)) with (write e ++ mjoin (write <$> vec)).
  rewrite <- app_assoc, (inverts_bind _ _ _ _ _ _ Hi) by done. unfold bind. by rewrite IH.
Qed.

Lemma vector_inverts {E} (func : Reader E) write ok : inverts func write ok ->
  inverts (vector_read func) (fun vec => vector_write vec write) (fun vec => Forall ok vec /\ zlen vec <= MAX_SIZE).
Proof.
  intros Hi vec rest [Hok Hlen]. unfold vector_read, vector_write. rewrite <- app_assoc.
  rewrite (inverts_bind _ _ _ _ _ _ compact_size_inverts) by (unfold zlen in *; lia).
  unfold zlen. rewrite Nat2Z.id. by apply (read_times_inverts _ _ ok).
Qed.

Lemma optional_inverts {T} (func : Reader T) write ok : inverts func write ok ->
  inverts (optional_read func) (fun o => optional_write o write) (fun o => forall a, o = Some a -> ok a).
Proof.
  intros Hi [a|] rest Hok; unfold optional_read, optional_write.
  - rewrite <- app_assoc, (inverts_bind _ _ _ _ _ _ (read_uint_inverts 1)) by lia. cbn [Z.eqb Pos.eqb].
    rewrite (inverts_bind _ _ _ _ _ _ Hi) by auto. done.
  - by rewrite (inverts_bind _ _ _ _ _ _ (read_uint_inverts 1)) by lia.
Qed.
