(* ===== verification/MerkleTree.v ===== *)
(** * The tree of note commitments

    [ct-lib/zcash_primitives/src/merkle_tree.rs]: the append-only Merkle tree that keeps its
    right frontier only, the incremental witness of a note, and authentication paths; with
    the empty roots of [sapling.rs]. Depths and indices, which are at most 64, are [nat]s;
    panics are [None] in pure functions. *)

From S2P Require Import Prelude Serialize.
From stdpp Require Import base numbers option strings list.

Open Scope Z_scope.
Open Scope origo_scope.

(** [Hashable]; [empty_root] follows. *)
Class Hashable (Node : Type) : Type := {
  node_read : Reader Node;
  node_write : Node -> bytes;
  combine : nat -> Node -> Node -> Node;
  blank : Node;
}.

Definition SAPLING_COMMITMENT_TREE_DEPTH : nat := 32.

Section Tree.
Context {Node : Type} {H : Hashable Node}.

(** The loop that fills [EMPTY_ROOTS]: [last] is [v[d]]. *)
Fixpoint empty_roots (n d : nat) (last : Node) : list Node :=
  last :: match n with O => [] | S n => empty_roots n (S d) (combine d last last) end.

Definition EMPTY_ROOTS : list Node := empty_roots SAPLING_COMMITMENT_TREE_DEPTH 0 blank.

Definition empty_root (depth : nat) : option Node := EMPTY_ROOTS !! depth.

(** ** [PathFiller] *)

(** The queue, from its front. *)
Abbreviation PathFiller := (list Node).

Definition filler_next (depth : nat) (filler : PathFiller) : option (Node * PathFiller) :=
  match filler with
  | node :: filler => Some (node, filler)
  | [] => node ← empty_root depth; Some (node, [])
  end.

(** A node of the tree, or the next of the filler. *)
Definition or_next (o : option Node) (depth : nat) (filler : PathFiller) : option (Node * PathFiller) :=
  match o with Some node => Some (node, filler) | None => filler_next depth filler end.

(** ** [CommitmentTree] *)

Record CommitmentTree : Type := mkTree {
  ct_left : option Node;
  ct_right : option Node;
  ct_parents : list (option Node);
}.

Definition tree_new : CommitmentTree := mkTree None None [].

Definition tree_read : Reader CommitmentTree :=
  do left <- optional_read node_read in
  do right <- optional_read node_read in
  do parents <- vector_read (optional_read node_read) in
  ret (mkTree left right parents).

Definition tree_write (t : CommitmentTree) : bytes :=
  optional_write (ct_left t) node_write ++ optional_write (ct_right t) node_write ++
  vector_write (ct_parents t) (fun e => optional_write e node_write).

Definition is_some {A} (o : option A) : bool := match o with Some _ => true | None => false end.

(** [1 << (i + 1)] of [usize]: shifting by the width is a panic. *)
Fixpoint size_parents (i : nat) (parents : list (option Node)) (acc : Z) : option Z :=
  match parents with
  | [] => Some acc
  | p :: parents =>
      n ← (if is_some p then if bool_decide (i + 1 < 64)%nat then Some (2 ^ Z.of_nat (i + 1)) else None else Some 0);
      acc ← usize_add acc n;
      size_parents (S i) parents acc
  end.

Definition tree_size (t : CommitmentTree) : option Z :=
  size_parents 0 (ct_parents t)
    match is_some (ct_left t), is_some (ct_right t) with
    | false, false => 0
    | true, false | false, true => 1
    | true, true => 2
    end.

Definition is_complete (t : CommitmentTree) (depth : nat) : option bool :=
  if is_some (ct_left t) && is_some (ct_right t) then
    match depth with
    | O => None
    | S d => Some (bool_decide (length (ct_parents t) = d) && forallb is_some (ct_parents t))
    end
  else Some false.

(** The loop of [append_inner] over the parents from [i], with [n] iterations left. *)
Fixpoint carry (n i : nat) (parents : list (option Node)) (combined : Node) : list (option Node) :=
  match n with
  | O => parents
  | S n =>
      match parents with
      | Some p :: parents => None :: carry n (S i) parents (combine (i + 1) p combined)
      | None :: parents => Some combined :: parents
      | [] => [Some combined]
      end
  end.

Definition tree_append_inner (node : Node) (depth : nat) : M CommitmentTree unit unit :=
  do self <- get in
  do full <- expect (is_complete self depth) in
  if full : bool then throw tt
  else
    match ct_left self, ct_right self with
    | None, _ => modify (fun t => mkTree (Some node) (ct_right t) (ct_parents t))
    | Some _, None => modify (fun t => mkTree (ct_left t) (Some node) (ct_parents t))
    | Some l, Some r =>
        let combined := combine 0 l r in
        modify (fun t => mkTree (Some node) None (carry depth 0 (ct_parents t) combined))
    end.

Definition tree_append (node : Node) : M CommitmentTree unit unit :=
  tree_append_inner node SAPLING_COMMITMENT_TREE_DEPTH.

(** The folds of [root_inner]. *)
Fixpoint root_parents (i : nat) (parents : list (option Node)) (root : Node) (filler : PathFiller)
    : option (Node * PathFiller) :=
  match parents with
  | [] => Some (root, filler)
  | Some node :: parents => root_parents (S i) parents (combine (i + 1) node root) filler
  | None :: parents =>
      '(node, filler) ← filler_next (i + 1) filler;
      root_parents (S i) parents (combine (i + 1) root node) filler
  end.

Fixpoint root_above (n d : nat) (root : Node) (filler : PathFiller) : option Node :=
  match n with
  | O => Some root
  | S n =>
      '(node, filler) ← filler_next d filler;
      root_above n (S d) (combine d root node) filler
  end.

Definition root_inner (t : CommitmentTree) (depth : nat) (filler : PathFiller) : option Node :=
  if bool_decide (0 < depth)%nat then
    '(l, filler) ← or_next (ct_left t) 0 filler;
    '(r, filler) ← or_next (ct_right t) 0 filler;
    let leaf_root := combine 0 l r in
    '(mid_root, filler) ← root_parents 0 (ct_parents t) leaf_root filler;
    root_above (depth - (length (ct_parents t) + 1)) (length (ct_parents t) + 1) mid_root filler
  else None.

Definition tree_root (t : CommitmentTree) : option Node := root_inner t SAPLING_COMMITMENT_TREE_DEPTH [].

(** ** [IncrementalWitness] *)

Record IncrementalWitness : Type := mkWitness {
  iw_tree : CommitmentTree;
  iw_filled : list Node;
  iw_cursor_depth : nat;
  iw_cursor : option CommitmentTree;
}.

Definition from_tree (tree : CommitmentTree) : IncrementalWitness := mkWitness tree [] 0 None.

(** [position] *)
Definition witness_position (w : IncrementalWitness) : option Z :=
  n ← tree_size (iw_tree w); usize_sub n 1.

Definition witness_filler (w : IncrementalWitness) : option PathFiller :=
  match iw_cursor w with
  | Some c => node ← root_inner c (iw_cursor_depth w) []; Some (iw_filled w ++ [node])
  | None => Some (iw_filled w)
  end.

(** Whether a place of the tree is passed with [skip] nodes to be placed. *)
Definition skip_place (o : option Node) (skip : nat) : option nat :=
  match o with
  | Some _ => Some skip
  | None => match skip with S skip => Some skip | O => None end
  end.

Fixpoint next_parents (d : nat) (parents : list (option Node)) (skip : nat) : nat :=
  match parents with
  | [] => d + skip
  | p :: parents => match skip_place p skip with Some skip => next_parents (S d) parents skip | None => d end
  end.

Definition next_depth (w : IncrementalWitness) : nat :=
  match skip_place (ct_left (iw_tree w)) (length (iw_filled w)) with
  | None => 0
  | Some skip =>
      match skip_place (ct_right (iw_tree w)) skip with
      | None => 0
      | Some skip => next_parents 1 (ct_parents (iw_tree w)) skip
      end
  end.

Definition witness_read : Reader IncrementalWitness :=
  do tree <- tree_read in
  do filled <- vector_read node_read in
  do cursor <- optional_read tree_read in
  let witness := mkWitness tree filled 0 cursor in
  ret (mkWitness tree filled (next_depth witness) cursor).

Definition witness_write (w : IncrementalWitness) : bytes :=
  tree_write (iw_tree w) ++ vector_write (iw_filled w) node_write ++ optional_write (iw_cursor w) tree_write.

(** [cursor.append_inner(node, depth).expect("cursor should not be full")] *)
Definition cursor_append (cursor : CommitmentTree) (node : Node) (depth : nat) : option CommitmentTree :=
  match tree_append_inner node depth cursor with
  | Ret _ cursor => Some cursor
  | Throw _ _ | Panic => None
  end.

Definition witness_append_inner (node : Node) (depth : nat) : M IncrementalWitness unit unit :=
  do self <- get in
  match iw_cursor self with
  | Some cursor =>
      do cursor <- expect (cursor_append cursor node depth) in
      do full <- expect (is_complete cursor (iw_cursor_depth self)) in
      if full : bool then
        do root <- expect (root_inner cursor (iw_cursor_depth self) []) in
        modify (fun w => mkWitness (iw_tree w) (iw_filled w ++ [root]) (iw_cursor_depth w) None)
      else modify (fun w => mkWitness (iw_tree w) (iw_filled w) (iw_cursor_depth w) (Some cursor))
  | None =>
      let cursor_depth := next_depth self in
      modify (fun w => mkWitness (iw_tree w) (iw_filled w) cursor_depth None) ;;;
      if bool_decide (depth <= cursor_depth)%nat then throw tt
      else if bool_decide (cursor_depth = 0%nat)
      then modify (fun w => mkWitness (iw_tree w) (iw_filled w ++ [node]) (iw_cursor_depth w) None)
      else
        do cursor <- expect (cursor_append tree_new node depth) in
        modify (fun w => mkWitness (iw_tree w) (iw_filled w) (iw_cursor_depth w) (Some cursor))
  end.

Definition witness_append (node : Node) : M IncrementalWitness unit unit :=
  witness_append_inner node SAPLING_COMMITMENT_TREE_DEPTH.

Definition witness_root_inner (w : IncrementalWitness) (depth : nat) : option Node :=
  filler ← witness_filler w; root_inner (iw_tree w) depth filler.

Definition witness_root (w : IncrementalWitness) : option Node :=
  witness_root_inner w SAPLING_COMMITMENT_TREE_DEPTH.

(** ** [CommitmentTreeWitness] *)

Record CommitmentTreeWitness : Type := mkPath {
  auth_path : list (option (Node * bool));
  position : Z;
}.

(** The loops of [path_inner], over the parents and above them. *)
Fixpoint path_parents (i : nat) (parents : list (option Node)) (filler : PathFiller)
    : option (list (option (Node * bool)) * PathFiller) :=
  match parents with
  | [] => Some ([], filler)
  | Some node :: parents =>
      '(path, filler) ← path_parents (S i) parents filler; Some (Some (node, true) :: path, filler)
  | None :: parents =>
      '(node, filler) ← filler_next (i + 1) filler;
      '(path, filler) ← path_parents (S i) parents filler; Some (Some (node, false) :: path, filler)
  end.

Fixpoint path_above (n i : nat) (filler : PathFiller) : option (list (option (Node * bool))) :=
  match n with
  | O => Some []
  | S n =>
      '(node, filler) ← filler_next (i + 1) filler;
      path ← path_above n (S i) filler; Some (Some (node, false) :: path)
  end.

(** [path_inner]: the outer option is the panic. *)
Definition path_inner (w : IncrementalWitness) (depth : nat) : option (option CommitmentTreeWitness) :=
  filler ← witness_filler w;
  match ct_left (iw_tree w) with
  | None => Some None
  | Some node =>
      '(leaf, filler) ← (if is_some (ct_right (iw_tree w)) then Some (Some (node, true), filler)
                         else '(node, filler) ← filler_next 0 filler; Some (Some (node, false), filler));
      let parents := ct_parents (iw_tree w) in
      '(mid, filler) ← path_parents 0 parents filler;
      n ← match depth with O => None | S d => Some (d - length parents)%nat end;
      above ← path_above n (length parents) filler;
      let path := leaf :: mid ++ above in
      if bool_decide (length path = depth) then
        pos ← witness_position w; Some (Some (mkPath path (pos mod U64_MOD)))
      else None
  end.

Definition witness_path (w : IncrementalWitness) : option (option CommitmentTreeWitness) :=
  path_inner w SAPLING_COMMITMENT_TREE_DEPTH.

(** ** [from_slice] *)

(** The siblings, from the top of the tree; [None] in the sum's place is the index panic. *)
Fixpoint slice_siblings (n : nat) (witness : bytes) (path : list Node) : option ((list Node * bytes) + unit) :=
  match n with
  | O => Some (inl (path, witness))
  | S n =>
      b ← vec_get witness 0;
      if negb (b =? 32) then Some (inr tt)
      else
        witness ← vec_slice witness 1 (zlen witness);
        sibling ← vec_slice witness 0 32;
        witness ← vec_slice witness 32 (zlen witness);
        match node_read sibling with
        | Ret node _ => slice_siblings n witness (node :: path)
        | Throw _ _ => Some (inr tt)
        | Panic => None
        end
  end.

(** The position bits, from the leaf. *)
Fixpoint slice_bits (path : list Node) (tmp : Z) : list (option (Node * bool)) :=
  match path with
  | [] => []
  | node :: path => Some (node, Z.land tmp 1 =? 1) :: slice_bits path (Z.shiftr tmp 1)
  end.

Definition from_slice_with_depth (witness : bytes) (depth : nat) : option (CommitmentTreeWitness + unit) :=
  b ← vec_get witness 0;
  if negb (b =? Z.of_nat depth mod 256) then Some (inr tt)
  else
    witness ← vec_slice witness 1 (zlen witness);
    r ← slice_siblings depth witness [];
    match r with
    | inr e => Some (inr e)
    | inl (path, witness) =>
        match read_uint 8 witness with
        | Ret pos rest =>
            match rest with
            | [] => Some (inl (mkPath (slice_bits path pos) pos))
            | _ => Some (inr tt)
            end
        | Throw _ _ => Some (inr tt)
        | Panic => None
        end
    end.

Definition from_slice (witness : bytes) : option (CommitmentTreeWitness + unit) :=
  from_slice_with_depth witness SAPLING_COMMITMENT_TREE_DEPTH.

End Tree.
Arguments CommitmentTree : clear implicits.
Arguments IncrementalWitness : clear implicits.
Arguments CommitmentTreeWitness : clear implicits.
