(* ===== verification/MerkleProofs.v ===== *)
(** * The frontier, witnesses and paths against the whole tree

    [merkle_root] hashes all leaves, level by level, as the specification. A tree in the form
    of [CommitmentTree] represents the leaves that were appended to it; a witness represents
    those and the leaves that came later. *)

From stdpp Require Import base numbers option list.
From S2P Require Import Prelude Serialize MerkleTree.

Open Scope Z_scope.
Open Scope origo_scope.

Section Proofs.
Context {Node : Type} {H : Hashable Node}.
Local Open Scope nat_scope.

(** ** The specification *)

(** The root of an empty tree. *)
Fixpoint empty_at (d : nat) : Node :=
  match d with O => blank | S d => let r := empty_at d in combine d r r end.

(** The nodes one level up; an odd last node is paired with an empty tree. *)
Fixpoint layer (d : nat) (l : list Node) : list Node :=
  match l with
  | [] => []
  | [a] => [combine d a (empty_at d)]
  | a :: b :: l => combine d a b :: layer d l
  end.

Fixpoint merkle_from (d n : nat) (l : list Node) : Node :=
  match n with
  | O => match l with [] => empty_at d | a :: _ => a end
  | S n => merkle_from (S d) n (layer d l)
  end.

(** The root of the tree of depth [n] over the leaves [l], which has room for [2 ^ n]. *)
Definition merkle_root (n : nat) (l : list Node) : Node := merkle_from 0 n l.

Lemma empty_roots_lookup n d k : k <= n -> empty_roots n d (empty_at d) !! k = Some (empty_at (d + k)).
Proof.
  revert d k. induction n as [|n IH]; intros d [|k] Hk; cbn [empty_roots lookup list_lookup]; try lia.
  - by rewrite Nat.add_0_r.
  - by rewrite Nat.add_0_r.
  - change (combine d (empty_at d) (empty_at d)) with (empty_at (S d)).
    replace (d + S k) with (S d + k) by lia. apply IH. lia.
Qed.

Lemma empty_root_at d : d <= 32 -> empty_root d = Some (empty_at d).
Proof. intros Hd. by apply (empty_roots_lookup 32 0). Qed.

Lemma pairs_ind (P : list Node -> Prop) :
  P [] -> (forall a, P [a]) -> (forall a b l, P l -> P (a :: b :: l)) -> forall l, P l.
Proof.
  intros H0 H1 H2. fix IH 1. intros [|a [|b l]]; [done|apply H1|apply H2, IH].
Qed.

Lemma layer_app d a b k : length a = 2 * k -> layer d (a ++ b) = layer d a ++ layer d b.
Proof.
  revert k. induction a as [|x|x y a IH] using pairs_ind; intros k Hk; cbn in Hk; [done|lia|].
  cbn. f_equal. apply (IH (k - 1)). lia.
Qed.

Lemma length_layer_le d l k : length l <= 2 * k -> length (layer d l) <= k.
Proof.
  revert k. induction l as [|x|x y l IH] using pairs_ind; intros k Hk; cbn in *; [lia..|].
  specialize (IH (k - 1)). lia.
Qed.

Lemma length_layer d l k : length l = 2 * k -> length (layer d l) = k.
Proof.
  revert k. induction l as [|x|x y l IH] using pairs_ind; intros k Hk; cbn in *; [lia..|].
  specialize (IH (k - 1)). lia.
Qed.

Lemma merkle_from_nil d n : merkle_from d n [] = empty_at (d + n).
Proof.
  revert d. induction n as [|n IH]; intros d; cbn; [by rewrite Nat.add_0_r|].
  rewrite IH. f_equal. lia.
Qed.

Lemma merkle_from_join d n a b : length a = 2 ^ n -> length b <= 2 ^ n ->
  merkle_from d (S n) (a ++ b) = combine (d + n) (merkle_from d n a) (merkle_from d n b).
Proof.
  revert d a b. induction n as [|n IH]; intros d a b Ha Hb.
  - destruct a as [|x [|]]; cbn in Ha; try lia. rewrite Nat.add_0_r.
    destruct b as [|y [|]]; cbn in Hb; [done..|lia].
  - rewrite Nat.pow_succ_r' in *. cbn [merkle_from].
    rewrite (layer_app d a b (2 ^ n)) by done.
    change (merkle_from (S (S d)) n (layer (S d) (layer d a ++ layer d b)))
      with (merkle_from (S d) (S n) (layer d a ++ layer d b)).
    rewrite IH; [f_equal; lia|by apply length_layer|by apply length_layer_le].
Qed.

Lemma merkle_from_pad d n a : length a <= 2 ^ n ->
  merkle_from d (S n) a = combine (d + n) (merkle_from d n a) (empty_at (d + n)).
Proof.
  revert d a. induction n as [|n IH]; intros d a Ha.
  - rewrite Nat.add_0_r. destruct a as [|x [|]]; cbn in Ha; [done..|lia].
  - rewrite Nat.pow_succ_r' in Ha. change (merkle_from d (S (S n)) a) with (merkle_from (S d) (S n) (layer d a)).
    rewrite IH by by apply length_layer_le. cbn [merkle_from]. by rewrite Nat.add_succ_comm.
Qed.

Lemma merkle_root_nil n : merkle_root n [] = empty_at n.
Proof. apply (merkle_from_nil 0). Qed.

(** A segment of at most [2 ^ d] leaves, which has to be full if leaves [R] follow it. *)
Definition good (d : nat) (seg R : list Node) : Prop := length seg <= 2 ^ d /\ (length seg = 2 ^ d \/ R = []).

Lemma merkle_join d a b : good d a b -> length b <= 2 ^ d ->
  merkle_root (S d) (a ++ b) = combine d (merkle_root d a) (merkle_root d b).
Proof.
  intros [Ha [Heq| ->]] Hb; [by apply (merkle_from_join 0)|].
  rewrite app_nil_r, merkle_root_nil. by apply (merkle_from_pad 0).
Qed.

Lemma good_left d c seg R : length c = 2 ^ d -> good d seg R -> good (S d) (c ++ seg) R.
Proof. unfold good. rewrite length_app, Nat.pow_succ_r'. intros Hc [Hle [Heq| ->]]; split; [lia|lia|lia|by right]. Qed.

Lemma good_right d seg c R : good d seg (c ++ R) -> good d c R -> good (S d) (seg ++ c) R.
Proof.
  unfold good. rewrite length_app, Nat.pow_succ_r'. intros [H1 H2] [H3 H4]. split; [lia|].
  destruct H4 as [H4|H4]; [|by right]. destruct H2 as [H2|H2%app_eq_nil]; [lia|].
  destruct H2 as [-> ->]. by right.
Qed.

Lemma good_prefix d seg c R : good d seg (c ++ R) -> good d seg c.
Proof. intros [H1 [H2|H2]]; split; auto. apply app_eq_nil in H2. naive_solver. Qed.

Lemma good_full d c R : length c = 2 ^ d -> good d c R.
Proof. split; [lia|by left]. Qed.

(** ** Trees *)

(** [parents_rep d ps l]: the parents from level [d] on hold the leaves [l]. *)
Inductive parents_rep : nat -> list (option Node) -> list Node -> Prop :=
| parents_nil d : parents_rep d [] []
| parents_none d ps l : ps <> [] -> parents_rep (S d) ps l -> parents_rep d (None :: ps) l
| parents_some d ps l c : length c = 2 ^ d -> parents_rep (S d) ps l ->
    parents_rep d (Some (merkle_root d c) :: ps) (l ++ c).

Definition tree_rep (t : CommitmentTree Node) (l : list Node) : Prop :=
  exists rest, parents_rep 1 (ct_parents t) rest /\
    match ct_left t, ct_right t with
    | None, None => ct_parents t = [] /\ l = []
    | Some a, None => l = rest ++ [a]
    | Some a, Some b => l = rest ++ [a; b]
    | None, Some _ => False
    end.

Lemma tree_new_rep : tree_rep tree_new [].
Proof. exists []. split; [constructor|done]. Qed.

Lemma pow_pos d : 0 < 2 ^ d.
Proof. apply Nat.neq_0_lt_0, Nat.pow_nonzero. lia. Qed.

Lemma parents_max d ps l : parents_rep d ps l ->
  length l + 2 ^ d <= 2 ^ (d + length ps) /\
  (forallb is_some ps = true <-> length l + 2 ^ d = 2 ^ (d + length ps)).
Proof.
  induction 1 as [d|d ps l Hne Hps [IH1 IH2]|d ps l c Hc Hps [IH1 IH2]];
    cbn [length forallb is_some andb]; rewrite ?Nat.add_0_r.
  - cbn. lia.
  - rewrite <- Nat.add_succ_comm. rewrite Nat.pow_succ_r' in *. pose proof (pow_pos d).
    split; [lia|]. split; [done|lia].
  - rewrite <- Nat.add_succ_comm. rewrite Nat.pow_succ_r' in *. rewrite length_app.
    split; [lia|]. rewrite IH2. lia.
Qed.

Lemma parents_min d ps l : parents_rep d ps l -> ps <> [] -> 2 ^ (d + length ps) <= 2 * length l.
Proof.
  induction 1 as [d|d ps l Hne Hps IH|d ps l c Hc Hps IH]; intros Hps'; [done|..];
    cbn [length]; rewrite <- Nat.add_succ_comm; [by apply IH|].
  rewrite length_app. destruct ps as [|p ps]; [|specialize (IH ltac:(done)); lia].
  rewrite Nat.add_0_r, Nat.pow_succ_r'. lia.
Qed.

(** A tree within a depth has few parents. *)
Lemma tree_parents_le t l depth : tree_rep t l -> 0 < depth -> length l <= 2 ^ depth ->
  length (ct_parents t) + 1 <= depth.
Proof.
  intros (rest & Hps & Hl) Hd Hle. destruct (decide (ct_parents t = [])) as [->|Hne]; [cbn; lia|].
  pose proof (parents_min _ _ _ Hps Hne) as Hmin. cbn [Nat.add] in Hmin. rewrite Nat.pow_succ_r' in Hmin.
  assert (Hlt : 2 ^ length (ct_parents t) < 2 ^ depth).
  { destruct (ct_left t), (ct_right t); [..|naive_solver|naive_solver]; subst; rewrite length_app in Hle; cbn in Hle; lia. }
  apply Nat.pow_lt_mono_r_iff in Hlt; lia.
Qed.

Lemma is_complete_ok t l depth : tree_rep t l -> 0 < depth -> length l <= 2 ^ depth ->
  is_complete t depth = Some (bool_decide (length l = 2 ^ depth)).
Proof.
  intros Ht Hd Hle. pose proof (tree_parents_le t l depth Ht Hd Hle) as Hlen.
  destruct Ht as (rest & Hps & Hl). destruct (parents_max _ _ _ Hps) as [Hmax Hall].
  unfold is_complete. destruct depth as [|d]; [lia|].
  assert (Hpow : 2 ^ (1 + length (ct_parents t)) <= 2 ^ S d) by (apply Nat.pow_le_mono_r; lia).
  destruct (ct_left t) as [a|], (ct_right t) as [b|]; cbn [is_some andb]; try done.
  - f_equal. subst l. rewrite length_app in *. cbn [length] in *. change (2 ^ 1) with 2 in *.
    destruct (bool_decide_reflect (length (ct_parents t) = d)) as [<-|Hne]; cbn [andb].
    + symmetry. destruct (forallb is_some (ct_parents t)); [apply bool_decide_eq_true_2|apply bool_decide_eq_false_2].
      * pose proof (proj1 Hall eq_refl). cbn [Nat.add] in *. lia.
      * intros Heq. assert (false = true); [apply Hall; cbn [Nat.add]; lia|done].
    + symmetry. apply bool_decide_eq_false_2. intros Heq.
      assert (2 ^ (1 + length (ct_parents t)) < 2 ^ S d) by (apply Nat.pow_lt_mono_r; lia). lia.
  - f_equal. symmetry. apply bool_decide_eq_false_2. subst l. rewrite length_app in *. cbn [length] in *.
    change (2 ^ 1) with 2 in *. lia.
  - f_equal. symmetry. apply bool_decide_eq_false_2. destruct Hl as [_ ->]. cbn [length]. pose proof (pow_pos (S d)). lia.
Qed.

Lemma carry_ok d ps l : parents_rep (S d) ps l -> forall n c, length c = 2 ^ S d -> length ps < n ->
  parents_rep (S d) (carry n d ps (merkle_root (S d) c)) (l ++ c).
Proof.
  intros Hps. remember (S d) as d' eqn:Hd. revert d Hd.
  induction Hps as [d'|d' ps l Hne Hps IH|d' ps l c0 Hc0 Hps IH]; intros d -> n c Hc Hn;
    destruct n as [|n]; cbn [length] in Hn; try lia; cbn [carry].
  - apply (parents_some _ [] []); [done|constructor].
  - by apply parents_some.
  - rewrite <- app_assoc. replace (d + 1) with (S d) by lia.
    rewrite <- merkle_join by (first [by apply good_full|lia]).
    apply parents_none; [by destruct n, ps as [|[]]; cbn in *; try lia|].
    apply IH; [done| |lia]. rewrite length_app, (Nat.pow_succ_r' 2 (S d)). lia.
Qed.

Lemma tree_append_ok t l node depth : tree_rep t l -> 0 < depth -> length l < 2 ^ depth ->
  exists t', tree_append_inner node depth t = Ret tt t' /\ tree_rep t' (l ++ [node]).
Proof.
  intros Ht Hd Hlt. unfold tree_append_inner, bind, get, expect.
  rewrite (is_complete_ok t l depth) by (done || lia). rewrite bool_decide_eq_false_2 by lia. unfold ret.
  pose proof (tree_parents_le t l depth Ht Hd ltac:(lia)) as Hlen. destruct Ht as (rest & Hps & Hl).
  destruct (ct_left t) as [a|] eqn:Ha, (ct_right t) as [b|] eqn:Hb; [..|done|]; eexists; (split; [done|]).
  - exists (rest ++ [a; b]). cbn [ct_left ct_right ct_parents]. split; [|by rewrite Hl].
    change (combine 0 a b) with (merkle_root 1 [a; b]). apply carry_ok; [done|done|lia].
  - exists rest. cbn [ct_left ct_right ct_parents]. rewrite Ha. split; [done|]. by rewrite Hl, <- app_assoc.
  - exists rest. cbn [ct_left ct_right ct_parents]. rewrite Hb. split; [done|]. destruct Hl as [Hnil ->].
    rewrite Hnil in Hps. by inversion Hps.
Qed.

Lemma tree_append_full t l node depth : tree_rep t l -> 0 < depth -> length l = 2 ^ depth ->
  tree_append_inner node depth t = Throw tt t.
Proof.
  intros Ht Hd Hl. unfold tree_append_inner, bind, get, expect.
  rewrite (is_complete_ok t l depth) by (done || lia). by rewrite bool_decide_eq_true_2.
Qed.

(** ** Sizes *)

Lemma zlen_pow {A} (c : list A) d : length c = 2 ^ d -> zlen c = (2 ^ Z.of_nat d)%Z.
Proof. intros Hc. unfold zlen. rewrite Hc, Nat2Z.inj_pow. done. Qed.

Lemma size_parents_ok i ps l : parents_rep (S i) ps l -> forall acc,
  (0 <= acc)%Z -> (acc + zlen l < U64_MOD)%Z -> size_parents i ps acc = Some (acc + zlen l)%Z.
Proof.
  intros Hps. remember (S i) as d eqn:Hd. revert i Hd.
  induction Hps as [d|d ps l Hne Hps IH|d ps l c Hc Hps IH]; intros i -> acc H0 Hlt; cbn [size_parents is_some].
  - by rewrite Z.add_0_r.
  - pose proof (zlen_nonneg l). cbn [mbind option_bind]. rewrite usize_add_some by lia. cbn [mbind option_bind].
    rewrite Z.add_0_r. by apply IH.
  - rewrite zlen_app in *. pose proof (zlen_nonneg l). pose proof (zlen_pow c (S i) Hc) as Hz.
    rewrite bool_decide_eq_true_2.
    2: { apply Nat2Z.inj_lt. apply (Z.pow_lt_mono_r_iff 2); [lia..|]. replace (i + 1) with (S i) by lia.
         change (2 ^ Z.of_nat 64)%Z with U64_MOD. lia. }
    replace (i + 1) with (S i) by lia. rewrite <- Hz. cbn [mbind option_bind].
    rewrite usize_add_some by lia. cbn [mbind option_bind]. rewrite (IH (S i)); [f_equal; lia|done|lia..].
Qed.

Lemma tree_size_ok t l : tree_rep t l -> (zlen l < U64_MOD)%Z -> tree_size t = Some (zlen l).
Proof.
  intros (rest & Hps & Hl) Hlt. unfold tree_size.
  destruct (ct_left t) as [a|], (ct_right t) as [b|]; cbn [is_some]; try done.
  - rewrite Hl, zlen_app in *. change (zlen [a; b]) with 2%Z in *. rewrite (size_parents_ok 0 _ rest) by (done || lia). f_equal. lia.
  - rewrite Hl, zlen_app in *. change (zlen [a]) with 1%Z in *. rewrite (size_parents_ok 0 _ rest) by (done || lia). f_equal. lia.
  - destruct Hl as [-> ->]. done.
Qed.

(** ** Roots *)

(** The depths at which the root of a tree needs nodes that the tree does not have. *)
Fixpoint nones (d : nat) (ps : list (option Node)) : list nat :=
  match ps with
  | [] => []
  | Some _ :: ps => nones (S d) ps
  | None :: ps => d :: nones (S d) ps
  end.

Definition place (o : option Node) : list nat := match o with Some _ => [] | None => [0] end.

Definition needs (t : CommitmentTree Node) (depth : nat) : list nat :=
  place (ct_left t) ++ place (ct_right t) ++ nones 1 (ct_parents t) ++
  seq (length (ct_parents t) + 1) (depth - (length (ct_parents t) + 1)).

(** [fills ds q R]: the queue [q] has the roots of the subtrees of the depths [ds] over the
    leaves [R]; only its last one may be partly filled. *)
Inductive fills : list nat -> list Node -> list Node -> Prop :=
| fills_stop ds : fills ds [] []
| fills_full d ds c q R : length c = 2 ^ d -> fills ds q R -> fills (d :: ds) (merkle_root d c :: q) (c ++ R)
| fills_part d ds c : 0 < length c < 2 ^ d -> fills (d :: ds) [merkle_root d c] c.

Lemma filler_next_ok d ds q R : fills (d :: ds) q R -> d <= 32 ->
  exists c q' R', filler_next d q = Some (merkle_root d c, q') /\ R = c ++ R' /\ good d c R' /\ fills ds q' R'.
Proof.
  intros Hf Hd. remember (d :: ds) as ds0 eqn:Hds.
  destruct Hf as [ds'|d' ds' c q R Hc Hf|d' ds' c Hc].
  - exists [], [], []. split_and!; [|done| |constructor].
    + unfold filler_next. by rewrite empty_root_at, merkle_root_nil.
    + split; [cbn; lia|by right].
  - injection Hds as -> ->. exists c, q, R. split_and!; try done. by apply good_full.
  - injection Hds as -> ->. exists c, [], []. split_and!; [done|by rewrite app_nil_r| |constructor].
    split; [lia|by right].
Qed.

Lemma root_parents_ok i ps L : parents_rep (S i) ps L -> forall seg q R ds,
  good (S i) seg R -> fills (nones (S i) ps ++ ds) q R -> i + length ps <= 31 ->
  exists seg' q' R', root_parents i ps (merkle_root (S i) seg) q = Some (merkle_root (S i + length ps) seg', q') /\
    L ++ seg ++ R = seg' ++ R' /\ good (S i + length ps) seg' R' /\ fills ds q' R'.
Proof.
  intros Hps. remember (S i) as d eqn:Hd. revert i Hd.
  induction Hps as [d|d ps l Hne Hps IH|d ps l c Hc Hps IH]; intros i -> seg q R ds Hg Hf Hi;
    cbn [root_parents nones length] in *.
  - exists seg, q, R. by rewrite Nat.add_0_r.
  - destruct (filler_next_ok _ _ _ _ Hf ltac:(lia)) as (c & q' & R' & Hn & -> & Hgc & Hf').
    replace (i + 1) with (S i) by lia. rewrite Hn. cbn [mbind option_bind].
    rewrite <- merkle_join; [|by eapply good_prefix|by apply Hgc].
    destruct (IH (S i) eq_refl (seg ++ c) q' R' ds) as (seg' & q2 & R2 & Hr & Heq & Hg' & Hf2);
      [by apply good_right|done|lia|].
    exists seg', q2, R2. rewrite Hr. replace (S (S i) + length ps) with (S i + S (length ps)) in * by lia.
    split_and!; try done. rewrite <- Heq, <- !app_assoc. done.
  - replace (i + 1) with (S i) by lia. rewrite <- merkle_join; [|by apply good_full|by apply Hg].
    destruct (IH (S i) eq_refl (c ++ seg) q R ds) as (seg' & q2 & R2 & Hr & Heq & Hg' & Hf2);
      [by apply good_left|done|lia|].
    exists seg', q2, R2. rewrite Hr. replace (S (S i) + length ps) with (S i + S (length ps)) in * by lia.
    split_and!; try done. rewrite <- Heq, <- !app_assoc. done.
Qed.

Lemma root_above_ok n d seg q R : good d seg R -> fills (seq d n) q R -> d + n <= 33 ->
  root_above n d (merkle_root d seg) q = Some (merkle_root (d + n) (seg ++ R)).
Proof.
  revert d seg q R. induction n as [|n IH]; intros d seg q R Hg Hf Hle; cbn [root_above seq] in *.
  - inversion Hf. by rewrite app_nil_r, Nat.add_0_r.
  - destruct (filler_next_ok _ _ _ _ Hf ltac:(lia)) as (c & q' & R' & Hn & -> & Hgc & Hf').
    rewrite Hn. cbn [mbind option_bind]. rewrite <- merkle_join; [|by eapply good_prefix|by apply Hgc].
    rewrite (IH _ _ _ R'); [|by apply good_right|done|lia]. by rewrite <- app_assoc, Nat.add_succ_r.
Qed.

(** The two leaves at the frontier. *)
Lemma leaf_root_ok t l rest q R ds : parents_rep 1 (ct_parents t) rest ->
  match ct_left t, ct_right t with
  | None, None => ct_parents t = [] /\ l = []
  | Some a, None => l = rest ++ [a]
  | Some a, Some b => l = rest ++ [a; b]
  | None, Some _ => False
  end -> fills (place (ct_left t) ++ place (ct_right t) ++ ds) q R ->
  exists a q1 b q2 seg R', or_next (ct_left t) 0 q = Some (a, q1) /\ or_next (ct_right t) 0 q1 = Some (b, q2) /\
    combine 0 a b = merkle_root 1 seg /\ l ++ R = rest ++ seg ++ R' /\ good 1 seg R' /\ fills ds q2 R'.
Proof.
  intros Hps Hl Hf. destruct (ct_left t) as [a|], (ct_right t) as [b|]; cbn [place app] in Hf.
  - exists a, q, b, q, [a; b], R. subst l. rewrite <- app_assoc. split_and!; try done. by apply good_full.
  - destruct (filler_next_ok _ _ _ _ Hf ltac:(lia)) as (c & q' & R' & Hn & -> & Hgc & Hf').
    exists a, q, (merkle_root 0 c), q', ([a] ++ c), R'. subst l. rewrite <- !app_assoc.
    split_and!; try done.
    + change a with (merkle_root 0 [a]) at 1. rewrite merkle_join; [done|by apply good_full|apply Hgc].
    + apply good_right; [by apply good_full|done].
  - done.
  - destruct Hl as [Hnil ->]. rewrite Hnil in Hps. inversion Hps; subst.
    destruct (filler_next_ok _ _ _ _ Hf ltac:(lia)) as (c & q' & R' & Hn & -> & Hgc & Hf').
    destruct (filler_next_ok _ _ _ _ Hf' ltac:(lia)) as (c2 & q2 & R2 & Hn2 & -> & Hgc2 & Hf2).
    exists (merkle_root 0 c), q', (merkle_root 0 c2), q2, (c ++ c2), R2. rewrite <- !app_assoc.
    split_and!; try done.
    + rewrite merkle_join; [done|by eapply good_prefix|apply Hgc2].
    + by apply good_right.
Qed.

Lemma root_inner_ok t l depth q R : tree_rep t l -> 0 < depth <= 32 -> length l <= 2 ^ depth ->
  fills (needs t depth) q R -> root_inner t depth q = Some (merkle_root depth (l ++ R)).
Proof.
  intros Ht Hd Hle Hf. pose proof (tree_parents_le t l depth Ht ltac:(lia) Hle) as Hlen.
  destruct Ht as (rest & Hps & Hl). unfold needs in Hf.
  destruct (leaf_root_ok t l rest q R _ Hps Hl Hf) as (a & q1 & b & q2 & seg & R1 & H1 & H2 & Hc & Heq & Hg & Hf1).
  destruct (root_parents_ok 0 _ _ Hps seg q2 R1 _ Hg Hf1 ltac:(lia)) as (seg' & q3 & R2 & Hr & Heq2 & Hg2 & Hf2).
  unfold root_inner. rewrite bool_decide_eq_true_2 by lia. rewrite H1. cbn [mbind option_bind].
  rewrite H2. cbn [mbind option_bind]. rewrite Hc, Hr. cbn [mbind option_bind].
  rewrite Heq, Heq2. replace (1 + length (ct_parents t)) with (length (ct_parents t) + 1) in * by lia.
  rewrite (root_above_ok _ _ _ _ R2); [|done|done|lia].
  do 2 f_equal. lia.
Qed.

(** ** Witnesses *)

(** The capacity of the depths that a tree needs. *)
Definition capacity (ds : list nat) : nat := sum_list_with (fun d => 2 ^ d) ds.

Lemma capacity_app a b : capacity (a ++ b) = capacity a + capacity b.
Proof. apply sum_list_with_app. Qed.

Lemma capacity_seq d n : capacity (seq d n) + 2 ^ d = 2 ^ (d + n).
Proof.
  revert d. induction n as [|n IH]; intros d; cbn; [by rewrite Nat.add_0_r|].
  specialize (IH (S d)). rewrite <- Nat.add_succ_comm. rewrite Nat.pow_succ_r' in IH. unfold capacity in *. lia.
Qed.

Lemma capacity_nones d ps l : parents_rep d ps l ->
  length l + capacity (nones d ps) + 2 ^ d = 2 ^ (d + length ps).
Proof.
  induction 1 as [d|d ps l Hne Hps IH|d ps l c Hc Hps IH]; cbn [nones length]; rewrite ?Nat.add_0_r.
  - done.
  - rewrite <- Nat.add_succ_comm, <- IH, Nat.pow_succ_r'. cbn. unfold capacity in *. lia.
  - rewrite <- Nat.add_succ_comm, <- IH, Nat.pow_succ_r', length_app. lia.
Qed.

Lemma capacity_needs t l depth : tree_rep t l -> 0 < depth -> length l <= 2 ^ depth ->
  length l + capacity (needs t depth) = 2 ^ depth.
Proof.
  intros Ht Hd Hle. pose proof (tree_parents_le t l depth Ht Hd Hle) as Hlen.
  destruct Ht as (rest & Hps & Hl). unfold needs. rewrite !capacity_app.
  pose proof (capacity_nones _ _ _ Hps) as Hn.
  pose proof (capacity_seq (length (ct_parents t) + 1) (depth - (length (ct_parents t) + 1))) as Hs.
  replace (length (ct_parents t) + 1 + (depth - (length (ct_parents t) + 1))) with depth in Hs by lia.
  replace (1 + length (ct_parents t)) with (length (ct_parents t) + 1) in Hn by lia. change (2 ^ 1) with 2 in Hn.
  assert (length l + capacity (place (ct_left t)) + capacity (place (ct_right t)) = length rest + 2); [|lia].
  destruct (ct_left t), (ct_right t); [..|done|]; subst; rewrite ?length_app; cbn; [lia..|].
  destruct Hl as [Hnil ->]. rewrite Hnil in Hps. by inversion Hps.
Qed.

(** [chunks ds filled R rest]: the nodes [filled] are the roots of the first depths of [ds]
    over the leaves [R]; [rest] are the other depths. *)
Inductive chunks : list nat -> list Node -> list Node -> list nat -> Prop :=
| chunks_nil ds : chunks ds [] [] ds
| chunks_cons d ds c q R rest : length c = 2 ^ d -> chunks ds q R rest ->
    chunks (d :: ds) (merkle_root d c :: q) (c ++ R) rest.

Lemma chunks_snoc ds q R d rest c : chunks ds q R (d :: rest) -> length c = 2 ^ d ->
  chunks ds (q ++ [merkle_root d c]) (R ++ c) rest.
Proof.
  intros Hch Hc. remember (d :: rest) as ds' eqn:Hds. induction Hch as [ds|d' ds c' q R rest' Hc' Hch IH]; subst.
  - pose proof (chunks_cons d rest c [] [] rest Hc (chunks_nil rest)) as Hx. by rewrite app_nil_r in Hx.
  - cbn. rewrite <- app_assoc. constructor; auto.
Qed.

Lemma chunks_capacity ds q R rest : chunks ds q R rest -> length R + capacity rest = capacity ds.
Proof. induction 1; cbn; [done|]. rewrite length_app. unfold capacity in *. cbn. lia. Qed.

Lemma chunks_rest ds q R rest : chunks ds q R rest -> rest = drop (length q) ds /\ length q <= length ds.
Proof. induction 1 as [ds|d ds c q R rest Hc Hch [-> IH]]; cbn; split; try done; lia. Qed.

Lemma chunks_fills ds q R rest : chunks ds q R rest -> fills ds q R.
Proof. induction 1; constructor; auto. Qed.

Lemma chunks_fills_part ds q R d rest c : chunks ds q R (d :: rest) -> 0 < length c < 2 ^ d ->
  fills ds (q ++ [merkle_root d c]) (R ++ c).
Proof.
  intros Hch Hc. remember (d :: rest) as ds' eqn:Hds. induction Hch as [ds|d' ds c' q R rest' Hc' Hch IH]; subst.
  - by constructor.
  - cbn. rewrite <- app_assoc. constructor; auto.
Qed.

(** The witness of the last of the leaves [l], with the later leaves [R]. *)
Definition witness_rep (w : IncrementalWitness Node) (depth : nat) (l R : list Node) : Prop :=
  tree_rep (iw_tree w) l /\ length l <= 2 ^ depth /\
  exists R1 R2 rest, chunks (needs (iw_tree w) depth) (iw_filled w) R1 rest /\ R = R1 ++ R2 /\
    match iw_cursor w with
    | None => R2 = []
    | Some c => tree_rep c R2 /\ 0 < length R2 < 2 ^ iw_cursor_depth w /\ head rest = Some (iw_cursor_depth w)
    end.

Lemma from_tree_rep t l depth : tree_rep t l -> length l <= 2 ^ depth -> witness_rep (from_tree t) depth l [].
Proof. intros Ht Hl. split_and!; [done..|]. exists [], [], (needs t depth). split_and!; [constructor|done|done]. Qed.

Lemma next_parents_ok d ps n skip : skip <= length (nones d ps ++ seq (d + length ps) n) ->
  next_parents d ps skip = default (d + length ps + n) (head (drop skip (nones d ps ++ seq (d + length ps) n))).
Proof.
  revert d skip. induction ps as [|[p|] ps IH]; intros d skip Hle; cbn [nones next_parents skip_place app length] in *.
  - rewrite Nat.add_0_r in *. rewrite length_seq in Hle. rewrite drop_seq.
    destruct (n - skip) eqn:E; cbn; lia.
  - rewrite <- Nat.add_succ_comm in *. by apply IH.
  - rewrite <- Nat.add_succ_comm in *. destruct skip as [|skip]; [done|]. cbn. apply IH. lia.
Qed.

Lemma next_depth_ok w depth : length (ct_parents (iw_tree w)) + 1 <= depth ->
  length (iw_filled w) <= length (needs (iw_tree w) depth) ->
  next_depth w = default depth (head (drop (length (iw_filled w)) (needs (iw_tree w) depth))).
Proof.
  intros Hd. unfold next_depth, needs. generalize (length (iw_filled w)) as skip. intros skip.
  set (ps := ct_parents (iw_tree w)) in *. replace (length ps + 1) with (1 + length ps) by lia.
  assert (Hp : forall skip, skip <= length (nones 1 ps ++ seq (1 + length ps) (depth - (1 + length ps))) ->
    next_parents 1 ps skip = default depth (head (drop skip (nones 1 ps ++ seq (1 + length ps) (depth - (1 + length ps)))))).
  { intros k Hk. rewrite (next_parents_ok 1 ps (depth - (1 + length ps))) by done. f_equal. lia. }
  destruct (ct_left (iw_tree w)), (ct_right (iw_tree w)); cbn [place app skip_place]; intros Hle;
    [|destruct skip as [|skip]|destruct skip as [|skip]|destruct skip as [|[|skip]]];
    cbn [skip_place drop head default length] in *; try done; apply Hp; lia.
Qed.

Lemma needs_lt t depth : length (ct_parents t) + 1 <= depth -> Forall (fun d => d < depth) (needs t depth).
Proof.
  intros Hd. unfold needs. rewrite !Forall_app. split_and!.
  - destruct (ct_left t); repeat constructor. lia.
  - destruct (ct_right t); repeat constructor. lia.
  - assert (Hn : forall ps d, d + length ps <= depth -> Forall (fun d => d < depth) (nones d ps)).
    { induction ps as [|[p|] ps IH]; intros d Hle; cbn in *; [constructor|apply IH; lia|constructor; [lia|apply IH; lia]]. }
    apply Hn. lia.
  - apply Forall_forall. intros d Hin%elem_of_seq. lia.
Qed.

Lemma chunks_head_lt t depth q R d rest : length (ct_parents t) + 1 <= depth ->
  chunks (needs t depth) q R rest -> head rest = Some d -> d < depth.
Proof.
  intros Hd Hch Hh. destruct (chunks_rest _ _ _ _ Hch) as [-> _]. pose proof (needs_lt t depth Hd) as Hall.
  apply (Forall_drop _ (length q)) in Hall. destruct (drop _ _) as [|d' ds]; [done|].
  injection Hh as ->. by inversion Hall.
Qed.

Lemma witness_filler_ok w depth l R : witness_rep w depth l R -> 0 < depth <= 32 ->
  exists q, witness_filler w = Some q /\ fills (needs (iw_tree w) depth) q R.
Proof.
  intros (Ht & Hle & R1 & R2 & rest & Hch & -> & Hc) Hd.
  pose proof (tree_parents_le _ _ depth Ht ltac:(lia) Hle) as Hlen. unfold witness_filler.
  destruct (iw_cursor w) as [c|].
  - destruct Hc as (Hcr & Hlt & Hh). pose proof (chunks_head_lt _ _ _ _ _ _ Hlen Hch Hh) as Hcd.
    rewrite (root_inner_ok c R2 (iw_cursor_depth w) [] []); [|done| |lia|constructor].
    2: { destruct (iw_cursor_depth w); [cbn in Hlt; lia|lia]. }
    rewrite app_nil_r. eexists. split; [done|].
    destruct rest as [|d rest]; [done|]. injection Hh as ->. by eapply chunks_fills_part.
  - rewrite Hc, app_nil_r. eexists. split; [done|]. by eapply chunks_fills.
Qed.

Lemma witness_root_ok w depth l R : witness_rep w depth l R -> 0 < depth <= 32 ->
  witness_root_inner w depth = Some (merkle_root depth (l ++ R)).
Proof.
  intros Hw Hd. destruct (witness_filler_ok w depth l R Hw Hd) as (q & Hq & Hf). destruct Hw as (Ht & Hle & _).
  unfold witness_root_inner. rewrite Hq. cbn [mbind option_bind]. by apply root_inner_ok.
Qed.

Lemma witness_append_cursor w depth c l R node : witness_rep w depth l R -> 0 < depth <= 32 -> iw_cursor w = Some c ->
  exists w', witness_append_inner node depth w = Ret tt w' /\ witness_rep w' depth l (R ++ [node]).
Proof.
  intros (Ht & Hle & R1 & R2 & rest & Hch & -> & Hc) Hd Hcur. rewrite Hcur in Hc. destruct Hc as (Hcr & Hlt & Hh).
  pose proof (tree_parents_le _ _ depth Ht ltac:(lia) Hle) as Hlen.
  pose proof (chunks_head_lt _ _ _ _ _ _ Hlen Hch Hh) as Hcd.
  assert (Hpos : 0 < iw_cursor_depth w) by (destruct (iw_cursor_depth w); [cbn in Hlt; lia|lia]).
  assert (Hpow : 2 ^ iw_cursor_depth w <= 2 ^ depth) by (apply Nat.pow_le_mono_r; lia).
  destruct (tree_append_ok c R2 node depth Hcr ltac:(lia) ltac:(lia)) as (c' & Ha & Hcr').
  unfold witness_append_inner, bind, get. rewrite Hcur. unfold cursor_append. rewrite Ha. cbn [expect].
  unfold ret at 1. assert (Hlen2 : length (R2 ++ [node]) = length R2 + 1) by by rewrite length_app.
  rewrite (is_complete_ok c' (R2 ++ [node])) by (done || lia). cbn [expect]. unfold ret at 1.
  case_bool_decide as Hfull.
  - rewrite (root_inner_ok c' (R2 ++ [node]) _ [] []); [|done|lia|lia|constructor]. cbn [expect]. unfold ret, modify.
    rewrite app_nil_r. eexists. split; [done|]. split_and!; [done|done|].
    destruct rest as [|d rest]; [done|]. injection Hh as ->.
    exists (R1 ++ R2 ++ [node]), [], rest. cbn. split_and!; [by apply chunks_snoc|by rewrite app_nil_r, app_assoc|done].
  - unfold modify. eexists. split; [done|]. split_and!; [done|done|].
    exists R1, (R2 ++ [node]), rest. cbn. split_and!; [done|by rewrite app_assoc|done|lia|lia|done].
Qed.

Lemma witness_append_start w depth l R node : witness_rep w depth l R -> 0 < depth <= 32 -> iw_cursor w = None ->
  length (l ++ R) < 2 ^ depth ->
  exists w', witness_append_inner node depth w = Ret tt w' /\ witness_rep w' depth l (R ++ [node]).
Proof.
  intros (Ht & Hle & R1 & R2 & rest & Hch & -> & Hc) Hd Hcur Hlt. rewrite Hcur in Hc. subst R2. rewrite app_nil_r in *.
  pose proof (tree_parents_le _ _ depth Ht ltac:(lia) Hle) as Hlen.
  pose proof (capacity_needs _ _ depth Ht ltac:(lia) Hle) as Hcap. pose proof (chunks_capacity _ _ _ _ Hch) as Hcap'.
  destruct (chunks_rest _ _ _ _ Hch) as [Hrest Hlf]. rewrite length_app in Hlt.
  destruct rest as [|d rest]; [change (capacity []) with 0 in Hcap'; lia|].
  pose proof (chunks_head_lt _ _ _ _ _ _ Hlen Hch eq_refl) as Hdd.
  unfold witness_append_inner, bind, get. rewrite Hcur, (next_depth_ok w depth Hlen Hlf), <- Hrest. unfold modify at 1. cbn [head default id].
  rewrite bool_decide_eq_false_2 by lia. case_bool_decide as H0.
  - subst d. unfold modify. eexists. split; [done|]. split_and!; [done..|]. exists (R1 ++ [node]), [], rest. cbn.
    split_and!; [|by rewrite app_nil_r|done]. by apply (chunks_snoc _ _ _ 0 _ [node]).
  - pose proof (pow_pos depth) as Hp. assert (Hd1 : 2 ^ 1 <= 2 ^ d) by (apply Nat.pow_le_mono_r; lia). change (2 ^ 1) with 2 in Hd1.
    destruct (tree_append_ok tree_new [] node depth tree_new_rep ltac:(lia) ltac:(cbn; lia)) as (c' & Ha & Hcr').
    unfold cursor_append. rewrite Ha. cbn [expect]. unfold ret, modify. eexists. split; [done|]. split_and!; [done..|].
    exists R1, [node], (d :: rest). cbn. split_and!; [done|done|done|lia|lia|done].
Qed.

Lemma witness_append_ok w depth l R node : witness_rep w depth l R -> 0 < depth <= 32 -> length (l ++ R) < 2 ^ depth ->
  exists w', witness_append_inner node depth w = Ret tt w' /\ witness_rep w' depth l (R ++ [node]).
Proof.
  intros Hw Hd Hlt. destruct (iw_cursor w) as [c|] eqn:Hc; [by eapply witness_append_cursor|by eapply witness_append_start].
Qed.

(** A witness of a full tree takes no more leaves, and is kept. *)
Lemma witness_append_full w depth l R node : witness_rep w depth l R -> 0 < depth <= 32 -> length (l ++ R) = 2 ^ depth ->
  exists w', witness_append_inner node depth w = Throw tt w' /\ witness_rep w' depth l R.
Proof.
  intros (Ht & Hle & R1 & R2 & rest & Hch & -> & Hc) Hd Hfull. rewrite !length_app in Hfull.
  pose proof (tree_parents_le _ _ depth Ht ltac:(lia) Hle) as Hlen.
  pose proof (capacity_needs _ _ depth Ht ltac:(lia) Hle) as Hcap. pose proof (chunks_capacity _ _ _ _ Hch) as Hcap'.
  destruct (chunks_rest _ _ _ _ Hch) as [Hrest Hlf].
  assert (rest = [] /\ iw_cursor w = None /\ R2 = []) as (-> & Hcur & ->).
  { destruct (iw_cursor w) as [c|].
    - destruct Hc as (Hcr & Hlt & Hh). destruct rest as [|d rest]; [done|]. injection Hh as ->. cbn in *.
      unfold capacity in *. lia.
    - subst R2. destruct rest as [|d rest]; [done|]. cbn in *. pose proof (pow_pos d). unfold capacity in *. lia. }
  unfold witness_append_inner, bind, get. rewrite Hcur, (next_depth_ok w depth Hlen Hlf), <- Hrest. unfold modify at 1. cbn [head default id].
  rewrite bool_decide_eq_true_2 by lia. eexists. split; [done|]. split_and!; [done..|]. by exists R1, [], [].
Qed.

(** ** Paths *)

(** The root that an authentication path gives for a node at depth [d]. *)
Fixpoint path_root (d : nat) (acc : Node) (path : list (option (Node * bool))) : Node :=
  match path with
  | [] => acc
  | Some (s, true) :: path => path_root (S d) (combine d s acc) path
  | Some (s, false) :: path => path_root (S d) (combine d acc s) path
  | None :: path => path_root (S d) acc path
  end.

Lemma path_root_app d acc p p' : path_root d acc (p ++ p') = path_root (d + length p) (path_root d acc p) p'.
Proof.
  revert d acc. induction p as [|[[s []]|] p IH]; intros d acc; cbn; rewrite ?Nat.add_0_r; [done|..];
    by rewrite IH, Nat.add_succ_r.
Qed.

Lemma root_parents_path i ps acc q :
  root_parents i ps acc q = '(p, q') ← path_parents i ps q; Some (path_root (S i) acc p, q').
Proof.
  revert i acc q. induction ps as [|[x|] ps IH]; intros i acc q; cbn [root_parents path_parents]; [done|..].
  - rewrite IH. replace (i + 1) with (S i) by lia. by destruct (path_parents (S i) ps q) as [[p q']|].
  - replace (i + 1) with (S i) by lia. destruct (filler_next (S i) q) as [[s q1]|]; [|done]. cbn [mbind option_bind].
    rewrite IH. by destruct (path_parents (S i) ps q1) as [[p q']|].
Qed.

Lemma root_above_path n i acc q :
  root_above n (S i) acc q = p ← path_above n i q; Some (path_root (S i) acc p).
Proof.
  revert i acc q. induction n as [|n IH]; intros i acc q; cbn [root_above path_above]; [done|].
  replace (i + 1) with (S i) by lia. destruct (filler_next (S i) q) as [[s q1]|]; [|done]. cbn [mbind option_bind].
  rewrite IH. by destruct (path_above n (S i) q1).
Qed.

(** [matching k ps]: the parents that are present are the bits of [k]. *)
Fixpoint matching (k : Z) (ps : list (option Node)) : Prop :=
  match ps with [] => k = 0%Z | p :: ps => Z.odd k = is_some p /\ matching (k / 2) ps end.

Lemma parents_div d ps l : parents_rep d ps l -> exists k, zlen l = (k * 2 ^ Z.of_nat d)%Z.
Proof.
  induction 1 as [d|d ps l Hne Hps [k IH]|d ps l c Hc Hps [k IH]]; [by exists 0%Z|..];
    rewrite Nat2Z.inj_succ, Z.pow_succ_r in IH by lia.
  - exists (2 * k)%Z. lia.
  - exists (2 * k + 1)%Z. rewrite zlen_app, (zlen_pow c d Hc). lia.
Qed.

Lemma parents_matching d ps l : parents_rep d ps l -> forall k, zlen l = (k * 2 ^ Z.of_nat d)%Z -> matching k ps.
Proof.
  induction 1 as [d|d ps l Hne Hps IH|d ps l c Hc Hps IH]; intros k Hk; cbn [matching is_some].
  - change (zlen []) with 0%Z in Hk. pose proof (Z.pow_pos_nonneg 2 (Z.of_nat d) ltac:(lia) ltac:(lia)). nia.
  - destruct (parents_div _ _ _ Hps) as [k' Hk']. rewrite Nat2Z.inj_succ, Z.pow_succ_r in Hk' by lia.
    assert (k = 2 * k')%Z as -> by (pose proof (Z.pow_pos_nonneg 2 (Z.of_nat d) ltac:(lia) ltac:(lia)); nia).
    rewrite Z.odd_mul. split; [done|].
    replace (2 * k' / 2)%Z with k' by (apply Z.div_unique with 0%Z; lia). apply IH.
    rewrite Nat2Z.inj_succ, Z.pow_succ_r by lia. lia.
  - destruct (parents_div _ _ _ Hps) as [k' Hk']. rewrite zlen_app, (zlen_pow c d Hc), Hk' in Hk.
    rewrite Nat2Z.inj_succ, Z.pow_succ_r in Hk by lia.
    assert (k = 2 * k' + 1)%Z as -> by (pose proof (Z.pow_pos_nonneg 2 (Z.of_nat d) ltac:(lia) ltac:(lia)); nia).
    rewrite Z.odd_add, Z.odd_mul. split; [done|].
    replace ((2 * k' + 1) / 2)%Z with k' by (apply Z.div_unique with 1%Z; lia). by apply IH.
Qed.

Lemma slice_bit k : (Z.land k 1 =? 1)%Z = Z.odd k.
Proof.
  pose proof (Z.land_ones k 1 ltac:(lia)) as E. change (Z.ones 1) with 1%Z in E. change (2 ^ 1)%Z with 2%Z in E.
  rewrite E, Zmod_odd. by destruct (Z.odd k).
Qed.

Lemma slice_bits_cons (x : Node) nodes k :
  slice_bits (x :: nodes) k = Some (x, Z.odd k) :: slice_bits nodes (k / 2).
Proof. cbn [slice_bits]. rewrite slice_bit. by rewrite Z.shiftr_div_pow2. Qed.

Lemma length_slice_bits (nodes : list Node) k : length (slice_bits nodes k) = length nodes.
Proof. revert k. induction nodes as [|x nodes IH]; intros k; cbn [slice_bits length]; [done|]. by rewrite IH. Qed.

Lemma path_parents_bits i ps q p q' k : path_parents i ps q = Some (p, q') -> matching k ps ->
  exists nodes, length nodes = length ps /\
    forall above, p ++ slice_bits above 0 = slice_bits (nodes ++ above) k.
Proof.
  revert i q p k. induction ps as [|[x|] ps IH]; intros i q p k; cbn [path_parents matching is_some].
  - intros [= <- <-] ->. by exists [].
  - destruct (path_parents (S i) ps q) as [[p1 q1]|] eqn:E; [|done]. intros [= <- <-] [Hodd Hm].
    destruct (IH _ _ _ _ E Hm) as (nodes & Hn & Hbits). exists (x :: nodes). split; [cbn; lia|]. intros above.
    cbn [app]. by rewrite slice_bits_cons, Hodd, <- Hbits.
  - destruct (filler_next (i + 1) q) as [[x q0]|]; [|done]. cbn [mbind option_bind].
    destruct (path_parents (S i) ps q0) as [[p1 q1]|] eqn:E; [|done]. intros [= <- <-] [Hodd Hm].
    destruct (IH _ _ _ _ E Hm) as (nodes & Hn & Hbits). exists (x :: nodes). split; [cbn; lia|]. intros above.
    cbn [app]. by rewrite slice_bits_cons, Hodd, <- Hbits.
Qed.

Lemma path_above_bits n i q p : path_above n i q = Some p ->
  exists nodes, length nodes = n /\ p = slice_bits nodes 0.
Proof.
  revert i q p. induction n as [|n IH]; intros i q p; cbn [path_above]; [intros [= <-]; by exists []|].
  destruct (filler_next (i + 1) q) as [[x q0]|]; [|done]. cbn [mbind option_bind].
  destruct (path_above n (S i) q0) as [p1|] eqn:E; [|done]. intros [= <-].
  destruct (IH _ _ _ E) as (nodes & Hn & ->). exists (x :: nodes). split; [cbn; lia|]. by rewrite slice_bits_cons.
Qed.

Lemma path_tail_ok ps rest depth acc q root k : parents_rep 1 ps rest -> length ps + 1 <= depth -> zlen rest = (k * 2)%Z ->
  ('(mid, q') ← root_parents 0 ps acc q; root_above (depth - (length ps + 1)) (length ps + 1) mid q') = Some root ->
  exists nodes p q1 p2, length nodes = depth - 1 /\ path_parents 0 ps q = Some (p, q1) /\
    path_above (depth - 1 - length ps) (length ps) q1 = Some p2 /\ p ++ p2 = slice_bits nodes k /\
    root = path_root 1 acc (slice_bits nodes k).
Proof.
  intros Hps Hd Hk. rewrite root_parents_path. destruct (path_parents 0 ps q) as [[p q1]|] eqn:E; [|done].
  cbn [mbind option_bind]. replace (length ps + 1) with (S (length ps)) by lia. rewrite root_above_path.
  replace (depth - S (length ps)) with (depth - 1 - length ps) by lia.
  destruct (path_above _ _ q1) as [p2|] eqn:E2; [|done]. intros [= <-].
  destruct (path_parents_bits _ _ _ _ _ _ E (parents_matching _ _ _ Hps k Hk)) as (n1 & Hn1 & Hbits).
  destruct (path_above_bits _ _ _ _ E2) as (n2 & Hn2 & ->).
  exists (n1 ++ n2), p, q1, (slice_bits n2 0). rewrite length_app. split_and!; [lia|done..|].
  rewrite <- Hbits, path_root_app. do 2 f_equal.
  assert (length p + length n2 = length n1 + length n2); [|lia].
  rewrite <- (length_slice_bits n2 0) at 1. rewrite <- length_app, Hbits, length_slice_bits, length_app. done.
Qed.

Lemma witness_position_ok w depth l leaf : tree_rep (iw_tree w) (l ++ [leaf]) -> length (l ++ [leaf]) <= 2 ^ depth ->
  depth <= 32 -> witness_position w = Some (zlen l) /\ (zlen l mod U64_MOD = zlen l)%Z.
Proof.
  intros Ht Hle Hd. assert (Hz : (zlen (l ++ [leaf]) <= 2 ^ 32)%Z).
  { unfold zlen. assert (2 ^ depth <= 2 ^ 32) by (apply Nat.pow_le_mono_r; lia).
    change (2 ^ 32)%Z with (Z.of_nat 2 ^ Z.of_nat 32)%Z. rewrite <- Nat2Z.inj_pow. lia. }
  pose proof (zlen_nonneg l) as H0. unfold witness_position.
  rewrite (tree_size_ok _ _ Ht) by (unfold U64_MOD; lia). cbn [mbind option_bind].
  rewrite zlen_app in *. change (zlen [leaf]) with 1%Z in *. unfold usize_sub.
  rewrite (proj2 (Z.leb_le _ _)) by lia. split; [f_equal; lia|]. apply Z.mod_small. unfold U64_MOD. lia.
Qed.

Lemma witness_path_ok w depth l leaf R : witness_rep w depth (l ++ [leaf]) R -> 0 < depth <= 32 ->
  exists nodes, length nodes = depth /\
    path_inner w depth = Some (Some (mkPath (slice_bits nodes (zlen l)) (zlen l))) /\
    path_root 0 leaf (slice_bits nodes (zlen l)) = merkle_root depth ((l ++ [leaf]) ++ R).
Proof.
  intros Hw Hd. destruct (witness_filler_ok _ _ _ _ Hw Hd) as (q & Hq & Hf). destruct Hw as (Ht & Hle & _).
  pose proof (root_inner_ok _ _ _ _ _ Ht Hd Hle Hf) as Hroot.
  pose proof (tree_parents_le _ _ depth Ht ltac:(lia) Hle) as Hlen.
  destruct (witness_position_ok _ _ _ _ Ht Hle ltac:(lia)) as [Hpos Hmod].
  destruct Ht as (rest & Hps & Hl). destruct (parents_div _ _ _ Hps) as [k Hk]. change (2 ^ Z.of_nat 1)%Z with 2%Z in Hk.
  unfold path_inner. rewrite Hq, Hpos. cbn [mbind option_bind]. unfold root_inner in Hroot.
  rewrite bool_decide_eq_true_2 in Hroot by lia. destruct depth as [|d]; [lia|].
  assert (Hd1 : S d - 1 = d) by lia.
  destruct (ct_left (iw_tree w)) as [a|], (ct_right (iw_tree w)) as [b|]; cbn [or_next is_some mbind option_bind] in *; [..|done|].
  - change (rest ++ [a; b]) with (rest ++ [a] ++ [b]) in Hl. rewrite app_assoc in Hl.
    apply app_inj_tail in Hl. destruct Hl as [-> ->].
    destruct (path_tail_ok _ _ _ _ _ _ k Hps Hlen Hk Hroot) as (nodes & p & q1 & p2 & Hn & Hp & Hp2 & Hbits & Hr).
    exists (a :: nodes). rewrite zlen_app. change (zlen [a]) with 1%Z in *. rewrite slice_bits_cons, Hk.
    replace (Z.odd (k * 2 + 1)) with true by (rewrite Z.odd_add, Z.odd_mul; by destruct (Z.odd k)).
    replace ((k * 2 + 1) / 2)%Z with k by (apply Z.div_unique with 1%Z; lia).
    split_and!; [cbn; lia| |by rewrite Hr].
    rewrite Hp. cbn [mbind option_bind]. rewrite Hd1 in Hp2. rewrite Hp2. cbn [mbind option_bind]. rewrite Hbits.
    rewrite bool_decide_eq_true_2 by (cbn [length]; rewrite length_slice_bits; lia).
    rewrite zlen_app, Hk in Hmod. change (zlen [a]) with 1%Z in Hmod. by rewrite Hmod.
  - apply app_inj_tail in Hl. destruct Hl as [-> ->].
    destruct (filler_next 0 q) as [[s q0]|]; [|done]. cbn [mbind option_bind] in *.
    destruct (path_tail_ok _ _ _ _ _ _ k Hps Hlen Hk Hroot) as (nodes & p & q1 & p2 & Hn & Hp & Hp2 & Hbits & Hr).
    exists (s :: nodes). rewrite slice_bits_cons, Hk.
    replace (Z.odd (k * 2)) with false by (rewrite Z.odd_mul; by destruct (Z.odd k)).
    rewrite Z.div_mul by lia. split_and!; [cbn; lia| |by rewrite Hr].
    rewrite Hp. cbn [mbind option_bind]. rewrite Hd1 in Hp2. rewrite Hp2. cbn [mbind option_bind]. rewrite Hbits.
    rewrite bool_decide_eq_true_2 by (cbn [length]; rewrite length_slice_bits; lia).
    rewrite Hk in Hmod. by rewrite Hmod.
  - destruct Hl as [_ Hl]. by destruct l.
Qed.

(** ** Serialisation *)

Section Serialization.
Context (node_ok : Node -> Prop) (Hnode : inverts node_read node_write node_ok).

Definition place_ok (o : option Node) : Prop := forall a, o = Some a -> node_ok a.

Record tree_ok (t : CommitmentTree Node) : Prop := {
  to_left : place_ok (ct_left t);
  to_right : place_ok (ct_right t);
  to_parents : Forall place_ok (ct_parents t) /\ (zlen (ct_parents t) <= MAX_SIZE)%Z;
}.

Lemma tree_inverts : inverts tree_read tree_write tree_ok.
Proof.
  intros [l r ps] rest [Hl Hr Hps]. cbn in *. unfold tree_read, tree_write. cbn [ct_left ct_right ct_parents].
  rewrite <- !app_assoc. rewrite (inverts_bind _ _ _ _ _ _ (optional_inverts _ _ _ Hnode)) by done.
  rewrite (inverts_bind _ _ _ _ _ _ (optional_inverts _ _ _ Hnode)) by done.
  by rewrite (inverts_bind _ _ _ _ _ _ (vector_inverts _ _ _ (optional_inverts _ _ _ Hnode))).
Qed.

Record witness_ok (w : IncrementalWitness Node) : Prop := {
  wo_tree : tree_ok (iw_tree w);
  wo_filled : Forall node_ok (iw_filled w) /\ (zlen (iw_filled w) <= MAX_SIZE)%Z;
  wo_cursor : forall c, iw_cursor w = Some c -> tree_ok c;
}.

(** The depth of the cursor is not written but found again. *)
Definition refreshed (w : IncrementalWitness Node) : IncrementalWitness Node :=
  mkWitness (iw_tree w) (iw_filled w) (next_depth w) (iw_cursor w).

Lemma witness_read_ok w rest : witness_ok w -> witness_read (witness_write w ++ rest) = Ret (refreshed w) rest.
Proof.
  intros [Ht Hf Hc]. unfold witness_read, witness_write. rewrite <- !app_assoc.
  rewrite (inverts_bind _ _ _ _ _ _ tree_inverts) by done.
  rewrite (inverts_bind _ _ _ _ _ _ (vector_inverts _ _ _ Hnode)) by done.
  by rewrite (inverts_bind _ _ _ _ _ _ (optional_inverts _ _ _ tree_inverts)).
Qed.

Lemma refreshed_rep w depth l R : witness_rep w depth l R -> 0 < depth ->
  witness_rep (refreshed w) depth l R /\ (iw_cursor w <> None -> refreshed w = w).
Proof.
  intros (Ht & Hle & R1 & R2 & rest & Hch & -> & Hc) Hd.
  pose proof (tree_parents_le _ _ depth Ht Hd Hle) as Hlen. destruct (chunks_rest _ _ _ _ Hch) as [Hrest Hlf].
  assert (Hcd : forall c, iw_cursor w = Some c -> next_depth w = iw_cursor_depth w).
  { intros c Hcur. rewrite Hcur in Hc. destruct Hc as (_ & _ & Hh).
    rewrite (next_depth_ok w depth Hlen Hlf), <- Hrest, Hh. done. }
  destruct (iw_cursor w) as [c|] eqn:Hcur.
  - assert (Heq : refreshed w = w) by (unfold refreshed; rewrite (Hcd c eq_refl); by destruct w).
    rewrite Heq. split; [|done]. split_and!; [done..|]. exists R1, R2, rest. by rewrite Hcur.
  - split; [|done]. split_and!; [done..|]. exists R1, R2, rest. cbn. by rewrite Hcur.
Qed.

(** The form of a path that [from_slice] reads: its depth, the siblings from the top, each
    with its length, and the position. *)
Definition path_slice (nodes : list Node) (pos : Z) : bytes :=
  [Z.of_nat (length nodes)] ++ mjoin ((fun n => [32%Z] ++ node_write n) <$> rev nodes) ++ le_bytes 8 pos.

Lemma slice_siblings_ok nodes rest acc : Forall (fun n => node_ok n /\ length (node_write n) = 32) nodes ->
  slice_siblings (length nodes) (mjoin ((fun n => [32%Z] ++ node_write n) <$> nodes) ++ rest) acc
  = Some (inl (rev nodes ++ acc, rest)).
Proof.
  intros Hok. revert acc. induction Hok as [|n nodes [Hn Hlen] Hok IH]; intros acc; [done|].
  cbn [length slice_siblings].
  change (mjoin ((fun n => [32%Z] ++ node_write n) <$> n :: nodes))
    with (([32%Z] ++ node_write n) ++ mjoin ((fun n => [32%Z] ++ node_write n) <$> nodes)).
  rewrite <- !app_assoc. set (tail := mjoin _ ++ rest).
  change (vec_get ([32%Z] ++ node_write n ++ tail) 0) with (Some 32%Z). cbn [mbind option_bind Z.eqb Pos.eqb negb].
  assert (Hz : zlen (node_write n) = 32%Z) by (unfold zlen; by rewrite Hlen).
  rewrite vec_slice_tail by done. cbn [mbind option_bind]. rewrite vec_slice_head by done. cbn [mbind option_bind].
  rewrite vec_slice_tail by done. cbn [mbind option_bind].
  rewrite <- (app_nil_r (node_write n)), Hnode by done. rewrite IH. cbn [rev]. by rewrite <- app_assoc.
Qed.

Lemma from_slice_ok nodes pos : Forall (fun n => node_ok n /\ length (node_write n) = 32) nodes -> length nodes < 256 ->
  (0 <= pos < U64_MOD)%Z -> from_slice_with_depth (path_slice nodes pos) (length nodes) = Some (inl (mkPath (slice_bits nodes pos) pos)).
Proof.
  intros Hok Hlen Hpos. unfold from_slice_with_depth, path_slice.
  set (tail := mjoin _ ++ le_bytes 8 pos).
  change (vec_get ([Z.of_nat (length nodes)] ++ tail) 0) with (Some (Z.of_nat (length nodes))). cbn [mbind option_bind].
  rewrite Z.mod_small, Z.eqb_refl by lia. cbn [negb]. rewrite vec_slice_tail by done. cbn [mbind option_bind].
  unfold tail. rewrite <- length_rev, slice_siblings_ok by by apply Forall_rev. cbn [mbind option_bind].
  rewrite <- (app_nil_r (le_bytes 8 pos)), read_uint_inverts by (unfold U64_MOD in Hpos; cbn; lia).
  by rewrite rev_involutive, app_nil_r.
Qed.
End Serialization.
End Proofs.

(** ** Trees and witnesses over many notes *)

(** Appends the nodes in their order. *)
Fixpoint append_all {Node S} (append : Node -> M S unit unit) (l : list Node) : M S unit unit :=
  match l with [] => ret tt | node :: l => append node ;;; append_all append l end.

Section AppendAll.
Context {Node : Type} {H : Hashable Node}.
Local Open Scope Z_scope.

Lemma room (l : list Node) : zlen l <= 2 ^ 32 <-> (length l <= 2 ^ 32)%nat.
Proof.
  unfold zlen. change (2 ^ 32) with (Z.of_nat 2 ^ Z.of_nat 32). rewrite <- Nat2Z.inj_pow. lia.
Qed.

Lemma room_left (l k : list Node) : zlen (l ++ k) <= 2 ^ 32 -> zlen l <= 2 ^ 32.
Proof. rewrite zlen_app. pose proof (zlen_nonneg k). lia. Qed.

Lemma tree_append_all t l k : tree_rep t l -> zlen (l ++ k) <= 2 ^ 32 ->
  exists t', append_all tree_append k t = Ret tt t' /\ tree_rep t' (l ++ k).
Proof.
  revert t l. induction k as [|n k IH]; intros t l Ht Hle.
  { exists t. by rewrite app_nil_r. }
  rewrite cons_middle, app_assoc in *.
  destruct (tree_append_ok t l n 32 Ht ltac:(lia)) as (t1 & Ha & Ht1).
  { apply room_left in Hle. rewrite room, length_app in Hle. cbn [length] in Hle. lia. }
  destruct (IH t1 (l ++ [n]) Ht1 Hle) as (t2 & Ha2 & Ht2). exists t2. split; [|done].
  cbn [append_all]. unfold bind, tree_append, SAPLING_COMMITMENT_TREE_DEPTH. by rewrite Ha.
Qed.

Lemma witness_append_all w l R k : witness_rep w 32 l R -> zlen (l ++ R ++ k) <= 2 ^ 32 ->
  exists w', append_all witness_append k w = Ret tt w' /\ witness_rep w' 32 l (R ++ k).
Proof.
  revert w R. induction k as [|n k IH]; intros w R Hw Hle.
  { exists w. by rewrite app_nil_r. }
  rewrite cons_middle, (app_assoc R) in *.
  destruct (witness_append_ok w 32 l R n Hw ltac:(lia)) as (w1 & Ha & Hw1).
  { rewrite app_assoc in Hle. apply room_left in Hle. rewrite app_assoc, room, length_app in Hle. cbn [length] in Hle. lia. }
  destruct (IH w1 (R ++ [n]) Hw1 Hle) as (w2 & Ha2 & Hw2). exists w2. split; [|done].
  cbn [append_all]. unfold bind, witness_append, SAPLING_COMMITMENT_TREE_DEPTH. by rewrite Ha.
Qed.

Lemma tree_root_rep t l : tree_rep t l -> zlen l <= 2 ^ 32 -> tree_root t = Some (merkle_root 32 l).
Proof.
  intros Ht Hle. rewrite room in Hle. unfold tree_root, SAPLING_COMMITMENT_TREE_DEPTH.
  rewrite (root_inner_ok t l 32 [] []); [by rewrite app_nil_r|done|lia|done|constructor].
Qed.

End AppendAll.
