(* ===== verification/MerkleTheorems.v ===== *)
(** * Theorems about the tree of note commitments *)

From stdpp Require Import base numbers option list.
From S2P Require Import Prelude Serialize MerkleTree MerkleProofs.

Open Scope Z_scope.
Open Scope origo_scope.

Section Theorems.
Context {Node : Type} {H : Hashable Node}.

(** C26: the tree of note commitments, which keeps only its right frontier, computes the
    root of the complete Merkle tree of depth 32 over all notes appended so far, with empty
    subtrees where there are none yet; up to 2^32 notes can be appended, it counts them, and
    then refuses more without a change. *)
Theorem commitment_tree_root l : zlen l <= 2 ^ 32 ->
  exists t, append_all tree_append l tree_new = Ret tt t /\ tree_root t = Some (merkle_root 32 l) /\
    tree_size t = Some (zlen l) /\ forall node, zlen l = 2 ^ 32 -> tree_append node t = Throw tt t.
Proof.
  intros Hle. destruct (tree_append_all tree_new [] l tree_new_rep Hle) as (t & Ha & Ht). exists t.
  split_and!; [done|by apply tree_root_rep|apply tree_size_ok; [done|unfold U64_MOD; lia]|].
  intros node Hfull. apply (tree_append_full t l node 32); [done|lia|].
  apply Nat2Z.inj. unfold zlen in Hfull. rewrite Hfull, Nat2Z.inj_pow. done.
Qed.

(** C27: an incremental witness follows its tree. The witness of the note [leaf], taken when
    it was the last note of the tree, accepts every later note that the tree accepts; it
    then has the root of the tree, and gives an authentication path of 32 nodes at the
    position of the note, with the bits of the position as its directions, that leads from
    the note to this root. *)
Theorem witnesses_authenticate l leaf k : zlen ((l ++ [leaf]) ++ k) <= 2 ^ 32 ->
  exists t w t' nodes,
    append_all tree_append (l ++ [leaf]) tree_new = Ret tt t /\
    append_all witness_append k (from_tree t) = Ret tt w /\ append_all tree_append k t = Ret tt t' /\
    witness_root w = tree_root t' /\
    witness_path w = Some (Some (mkPath (slice_bits nodes (zlen l)) (zlen l))) /\ length nodes = 32%nat /\
    tree_root t' = Some (path_root 0 leaf (slice_bits nodes (zlen l))).
Proof.
  intros Hle. pose proof (room_left _ _ Hle) as Hle1.
  destruct (tree_append_all tree_new [] (l ++ [leaf]) tree_new_rep Hle1) as (t & Ha & Ht).
  destruct (tree_append_all t (l ++ [leaf]) k Ht Hle) as (t' & Ha' & Ht').
  destruct (witness_append_all (from_tree t) (l ++ [leaf]) [] k) as (w & Hw & Hrep);
    [by apply from_tree_rep; [done|apply room]|done|].
  destruct (witness_path_ok w 32 l leaf k Hrep ltac:(lia)) as (nodes & Hn & Hp & Hr).
  exists t, w, t', nodes. rewrite (tree_root_rep t' _ Ht' Hle). split_and!; try done.
  - apply (witness_root_ok w 32 _ _ Hrep). lia.
  - by rewrite Hr.
Qed.

(** C28: trees and witnesses survive serialisation, and paths are read as they are meant. A
    tree is read back as it was written, with nothing left; a witness of a tree is read back
    with the same root and path, and keeps following its tree; [from_slice] reads the nodes,
    directions and position of a path. *)
Theorem commitments_roundtrip (node_ok : Node -> Prop) t w l R nodes pos : inverts node_read node_write node_ok ->
  tree_ok node_ok t -> witness_ok node_ok w -> witness_rep w 32 l R ->
  Forall (fun n => node_ok n /\ length (node_write n) = 32%nat) nodes -> length nodes = 32%nat -> 0 <= pos < U64_MOD ->
  tree_read (tree_write t) = Ret t [] /\
  (exists w', witness_read (witness_write w) = Ret w' [] /\ witness_rep w' 32 l R /\
    witness_root w' = witness_root w /\ witness_path w' = witness_path w) /\
  from_slice (path_slice nodes pos) = Some (inl (mkPath (slice_bits nodes pos) pos)).
Proof.
  intros Hnode Ht Hw Hrep Hnodes Hlen Hpos. destruct (refreshed_rep w 32 l R Hrep ltac:(lia)) as [Hrep' Hsame].
  split_and!.
  - pose proof (tree_inverts node_ok Hnode t [] Ht) as Hr. by rewrite app_nil_r in Hr.
  - exists (refreshed w). pose proof (witness_read_ok node_ok Hnode w [] Hw) as Hr. rewrite app_nil_r in Hr.
    assert (Hfill : witness_filler (refreshed w) = witness_filler w).
    { destruct (iw_cursor w) eqn:Hc; [by rewrite Hsame|]. unfold witness_filler. cbn. by rewrite Hc. }
    split_and!; [done|done| |]; unfold witness_root, witness_root_inner, witness_path, path_inner; by rewrite Hfill.
  - pose proof (from_slice_ok node_ok Hnode nodes pos Hnodes ltac:(lia) Hpos) as Hs. by rewrite Hlen in Hs.
Qed.
End Theorems.

(** ** A concrete tree *)

(** Words with an arithmetic stand-in for the Pedersen hash, written as Sapling nodes are. *)
#[local] Instance word_hashable : Hashable Z := {
  node_read := read_uint 32;
  node_write := le_bytes 32;
  combine d a b := (Z.of_nat d + 1 + 31 * a + 17 * b) mod U256_MOD;
  blank := 1;
}.

Lemma word_inverts : inverts (A := Z) node_read node_write (fun v => 0 <= v < 256 ^ 32).
Proof. apply (read_uint_inverts 32). Qed.

Definition word_tree : CommitmentTree Z := mkTree (Some 3) None [Some (combine 0 1 2)].
Definition word_witness : IncrementalWitness Z := mkWitness word_tree [4] 2 (Some (mkTree (Some 5) None [])).

Lemma word_tree_ok : tree_ok (fun v => 0 <= v < 256 ^ 32) word_tree.
Proof.
  split; [intros a [= <-]; vm_compute; done|done|]. split; [|by vm_compute].
  constructor; [intros a [= <-]; vm_compute; done|constructor].
Qed.

Lemma commitment_tree_root_witness :
  exists t : CommitmentTree Z, append_all tree_append [1; 2; 3] tree_new = Ret tt t /\ t = word_tree /\
    tree_root t = Some (merkle_root 32 [1; 2; 3]) /\ tree_size t = Some 3.
Proof.
  destruct (commitment_tree_root [1; 2; 3] ltac:(by vm_compute)) as (t & Ha & Hr & Hs & _).
  exists t. split; [exact Ha|]. vm_compute in Ha. injection Ha as <-. split; [reflexivity|]. by split.
Defined.

Lemma witnesses_authenticate_witness :
  exists (t : CommitmentTree Z) w t' nodes,
    append_all tree_append ([1; 2] ++ [3]) tree_new = Ret tt t /\
    append_all witness_append [4; 5] (from_tree t) = Ret tt w /\ append_all tree_append [4; 5] t = Ret tt t' /\
    witness_root w = tree_root t' /\ witness_path w = Some (Some (mkPath (slice_bits nodes 2) 2)) /\
    tree_root t' = Some (path_root 0 3 (slice_bits nodes 2)).
Proof.
  destruct (witnesses_authenticate [1; 2] 3 [4; 5] ltac:(by vm_compute)) as (t & w & t' & nodes & H1 & H2 & H3 & H4 & H5 & _ & H6).
  by exists t, w, t', nodes.
Defined.

Lemma word_witness_rep : witness_rep word_witness 32 [1; 2; 3] [4; 5].
Proof.
  assert (Ht : tree_rep word_tree [1; 2; 3]).
  { exists [1; 2]. split; [|done]. apply (parents_some 1 [] [] [1; 2]); [done|constructor]. }
  destruct (witness_append_all (from_tree word_tree) [1; 2; 3] [] [4; 5]) as (w & Ha & Hw);
    [by apply from_tree_rep; [exact Ht|apply room; vm_compute]|by vm_compute|].
  vm_compute in Ha. injection Ha as <-. exact Hw.
Qed.

Lemma commitments_roundtrip_witness :
  tree_read (tree_write word_tree) = Ret word_tree [] /\
  (exists w', witness_read (witness_write word_witness) = Ret w' [] /\ witness_rep w' 32 [1; 2; 3] [4; 5] /\
    witness_root w' = witness_root word_witness /\ witness_path w' = witness_path word_witness) /\
  from_slice (path_slice (replicate 32 7) 2) = Some (inl (mkPath (slice_bits (replicate 32 7) 2) 2)).
Proof.
  apply (commitments_roundtrip (fun v => 0 <= v < 256 ^ 32)).
  - exact word_inverts.
  - exact word_tree_ok.
  - split.
    + exact word_tree_ok.
    + split; [repeat constructor; vm_compute; done|by vm_compute].
    + intros c [= <-]. split; [intros a [= <-]; vm_compute; done|done|]. split; [constructor|by vm_compute].
  - exact word_witness_rep.
  - apply Forall_replicate. split; [by vm_compute|reflexivity].
  - reflexivity.
  - by vm_compute.
Defined.
