(* ===== verification/Rewards.v ===== *)
(** * Mining rewards by era

    [types/src/rewards.rs], [types/src/reward_config.rs] and the reward functions of
    [blockchain/src/blockchain.rs]: the total reward mined so far, the base reward of every
    era, and the updates of both when a block joins or leaves the canonical chain. [U256]
    and [u64] operations that overflow panic, which is [None]. The last part bounds the sum
    of all rewards by the total of the configuration. *)

From S2P Require Import Prelude Blocks.
From stdpp Require Import base numbers option list.

Open Scope Z_scope.

Definition MAX_ERA : Z := 50.

Record EraRewardInfo : Type := mkEra { era_number : Z; era_total : Z; era_base : Z }.

Record Rewards : Type := mkRewards { rw_total : Z; rw_eras : list EraRewardInfo }.

Definition rewards_new : Rewards := mkRewards 0 [].

Definition update_total_reward (total : Z) (r : Rewards) : Rewards := mkRewards total (rw_eras r).

Definition add_new_era_reward (info : EraRewardInfo) (r : Rewards) : option Rewards :=
  if negb (zlen (rw_eras r) =? era_number info) then None
  else if MAX_ERA <=? era_number info then Some r
  else Some (mkRewards (rw_total r) (rw_eras r ++ [info])).

(** [Vec::pop] *)
Definition pop {A} (l : list A) : list A := take (length l - 1) l.
Arguments pop : simpl never.

Definition delete_last_era (era : Z) (r : Rewards) : option Rewards :=
  if zlen (rw_eras r) =? 0 then None
  else if zlen (rw_eras r) =? 1 then None
  else if MAX_ERA <=? era then Some r
  else if negb (zlen (rw_eras r) =? era + 1) then None
  else Some (mkRewards (rw_total r) (pop (rw_eras r))).

Definition get_era_base_reward (era : Z) (r : Rewards) : option Z :=
  if zlen (rw_eras r) <=? era then None else era_base <$> vec_get (rw_eras r) era.

Definition cur_era (r : Rewards) : option Z :=
  if zlen (rw_eras r) =? 0 then None else Some (zlen (rw_eras r) - 1).

(** ** [RewardConfig] *)

Record RewardConfig : Type := mkRewardConfig {
  rc_total_reward : Z;
  rc_block_count_each_era : Z;
  rc_production_rate : Z;
  rc_maximum_uncle_count : Z;
}.

Definition default_reward_config : RewardConfig := mkRewardConfig 0xc7272221823c0be1400000 2000000 50 2.

Definition GWEI : Z := 1000000000.

(** Products and quotients of [U256], which panic on overflow and on a zero divisor. *)
Definition mul (a b : Z) : option Z := if a * b <? U256_MOD then Some (a * b) else None.
Definition div (a b : Z) : option Z := if b =? 0 then None else Some (a / b).

(** [reward / gwei * gwei] *)
Definition whole_gwei (x : Z) : Z := x / GWEI * GWEI.

Definition calc_era_base_reward (c : RewardConfig) (mined : Z) : option Z :=
  rest ← u256_sub (rc_total_reward c) mined;
  planned ← mul rest (rc_production_rate c);
  let era_total_reward := planned / 100 in
  block_reward ← div era_total_reward (rc_block_count_each_era c);
  share ← mul (u256_shr GWEI 5) (rc_maximum_uncle_count c);
  miner_reward ← u256_add GWEI share;
  uncles_reward ← mul (u256_shr (GWEI * 7) 3) (rc_maximum_uncle_count c);
  scaled ← mul block_reward GWEI;
  shares ← u256_add miner_reward uncles_reward;
  base ← div scaled shares;
  Some (whole_gwei base).

Definition calc_author_miner_reward (base n_uncles : Z) : option Z :=
  p ← mul base n_uncles;
  reward ← u256_add base (u256_shr p 5);
  Some (whole_gwei reward).

Definition calc_uncle_miner_reward (base miner uncle : Z) : option Z :=
  s ← usize_add 8 uncle;
  d ← usize_sub s miner;
  p ← mul base d;
  Some (whole_gwei (u256_shr p 3)).

Definition calc_era_by_block_number (c : RewardConfig) (number : Z) : option Z :=
  div number (rc_block_count_each_era c).

Definition is_era_last_block (c : RewardConfig) (number : Z) : option bool :=
  if 0 <? number then
    n ← usize_add number 1;
    if rc_block_count_each_era c =? 0 then None else Some (n mod rc_block_count_each_era c =? 0)
  else Some false.

Definition is_big_than_min_base_reward (base : Z) : bool := GWEI <? base.

(** ** Blocks joining and leaving the canonical chain *)

(** The loop over the uncles. *)
Fixpoint add_uncle_rewards (base number : Z) (uncles : list Header) (acc : Z) : option Z :=
  match uncles with
  | [] => Some acc
  | uncle :: uncles =>
      r ← calc_uncle_miner_reward base number (h_number uncle);
      acc ← u256_add acc r;
      add_uncle_rewards base number uncles acc
  end.

Definition calculate_block_total_reward (base : Z) (block : Block) : option Z :=
  let uncles := b_uncles (b_body block) in
  reward ← calc_author_miner_reward base (zlen uncles);
  add_uncle_rewards base (b_number block) uncles reward.

(** The era that follows the last block of [era]. *)
Definition begin_next_era (c : RewardConfig) (era total : Z) (r : Rewards) : option Rewards :=
  new_base ← calc_era_base_reward c total;
  if is_big_than_min_base_reward new_base then add_new_era_reward (mkEra (era + 1) total new_base) r
  else Some r.

Definition prepare_block_rewards (c : RewardConfig) (r : Rewards) (block : Block) (is_remove : bool)
    : option (Rewards * bool) :=
  let total := rw_total r in
  era ← calc_era_by_block_number c (b_number block);
  match get_era_base_reward era r with
  | None => Some (r, false)
  | Some base_reward =>
      block_reward ← calculate_block_total_reward base_reward block;
      if is_remove then
        total ← u256_sub total block_reward;
        let r := update_total_reward total r in
        is_last ← is_era_last_block c (b_number block);
        r ← (if is_last : bool then delete_last_era (era + 1) r else Some r);
        Some (r, true)
      else
        total ← u256_add total block_reward;
        let r := update_total_reward total r in
        is_last ← is_era_last_block c (b_number block);
        r ← (if is_last : bool then begin_next_era c era total r else Some r);
        Some (r, true)
  end.

(** [do_rewards_of_batch_blocks], on the blocks that the hashes name. *)
Fixpoint do_rewards_of_blocks (c : RewardConfig) (r : Rewards) (blocks : list Block) (is_remove update : bool)
    : option (Rewards * bool) :=
  match blocks with
  | [] => Some (r, update)
  | block :: blocks =>
      '(r, u) ← prepare_block_rewards c r block is_remove;
      do_rewards_of_blocks c r blocks is_remove (update || u)
  end.

(** The rewards that [BlockChain::new] writes for a new chain. *)
Definition genesis_rewards (c : RewardConfig) : option Rewards :=
  base ← calc_era_base_reward c 0;
  add_new_era_reward (mkEra 0 0 base) rewards_new.

(** The check of [BlockChain::new] on the rewards it loads: they belong to the era of the
    best block. *)
Definition rewards_loadable (c : RewardConfig) (r : Rewards) (best_number : Z) : option bool :=
  era ← calc_era_by_block_number c best_number;
  db_era ← cur_era r;
  Some (db_era =? era).

(** ** Retracting undoes enacting *)

(** Configurations with eras of at least one block. *)
Record config_ok (c : RewardConfig) : Prop := {
  count_pos : 0 < rc_block_count_each_era c;
  rate_nonneg : 0 <= rc_production_rate c;
  uncles_nonneg : 0 <= rc_maximum_uncle_count c;
}.

Section Retract.
Context (c : RewardConfig) (Hc : config_ok c).

(** The rewards fit a chain whose next block has number [n]: no era has begun early. *)
Definition rewards_fit (r : Rewards) (n : Z) : Prop :=
  0 <= rw_total r /\ Forall (fun e => 0 <= era_base e) (rw_eras r) /\
  0 <= n /\ zlen (rw_eras r) <= n / rc_block_count_each_era c + 1.

(** The block was the last of its era and the next one did not begin, since there was not
    enough left to mine: [r] are the rewards after the block. *)
Definition mining_ends (r : Rewards) (block : Block) : bool :=
  match is_era_last_block c (b_number block), calc_era_base_reward c (rw_total r) with
  | Some true, Some base =>
      negb (is_big_than_min_base_reward base) && (b_number block / rc_block_count_each_era c + 1 <? MAX_ERA)
  | _, _ => false
  end.

Lemma era_of number : calc_era_by_block_number c number = Some (number / rc_block_count_each_era c).
Proof. pose proof (count_pos c Hc). unfold calc_era_by_block_number, div. case_bool; [lia|done]. Qed.

Lemma next_era_last number : 0 <= number -> is_era_last_block c number = Some true ->
  (number + 1) / rc_block_count_each_era c = number / rc_block_count_each_era c + 1.
Proof.
  pose proof (count_pos c Hc). unfold is_era_last_block, usize_add. intros Hn Hl. repeat case_match; simplify_option_eq.
  match goal with H : (_ =? 0) = true |- _ => apply Z.eqb_eq in H end. set (k := rc_block_count_each_era c) in *.
  pose proof (Z.div_mod (number + 1) k ltac:(lia)). pose proof (Z.div_mod number k ltac:(lia)).
  pose proof (Z.mod_pos_bound number k ltac:(lia)). nia.
Qed.

Lemma next_era_le number : 0 <= number ->
  number / rc_block_count_each_era c <= (number + 1) / rc_block_count_each_era c.
Proof. pose proof (count_pos c Hc). intros. apply Z.div_le_mono; lia. Qed.

Lemma base_reward_bound era r base : 0 <= era -> get_era_base_reward era r = Some base -> era < zlen (rw_eras r).
Proof. unfold get_era_base_reward. intros ? Hb. by case_bool_in Hb; [|lia]. Qed.

Lemma whole_gwei_nonneg x : 0 <= x -> 0 <= whole_gwei x.
Proof. unfold whole_gwei, GWEI. intros. pose proof (Z.div_pos x 1000000000 ltac:(lia) ltac:(lia)). lia. Qed.

Lemma shr_nonneg x k : 0 <= x -> 0 <= u256_shr x k.
Proof. apply Z.shiftr_nonneg. Qed.

Lemma mul_nonneg a b p : 0 <= a -> 0 <= b -> mul a b = Some p -> 0 <= p.
Proof. unfold mul. intros. case_match; simplify_eq. nia. Qed.

Lemma era_base_nonneg mined base : calc_era_base_reward c mined = Some base -> 0 <= base.
Proof.
  destruct Hc as [Hc1 Hc2 Hc3]. unfold calc_era_base_reward, u256_sub, u256_add, div. intros Hb.
  simplify_option_eq; repeat case_match; simplify_eq.
  repeat match goal with H : mul _ _ = Some _ |- _ =>
    apply mul_nonneg in H; [|first [by vm_compute|lia|apply Z.div_pos; [apply Z.div_pos|]; lia]|first [by vm_compute|lia]] end.
  apply whole_gwei_nonneg, Z.div_pos; [done|]. unfold GWEI in *. lia.
Qed.

Lemma author_reward_nonneg base n reward : 0 <= base -> 0 <= n -> calc_author_miner_reward base n = Some reward -> 0 <= reward.
Proof.
  unfold calc_author_miner_reward, u256_add. intros Hb Hn Hr. simplify_option_eq. repeat case_match; simplify_eq.
  match goal with H : mul _ _ = Some _ |- _ => apply mul_nonneg in H; [|done..] end.
  apply whole_gwei_nonneg, Z.add_nonneg_nonneg; [done|]. by apply shr_nonneg.
Qed.

Lemma uncle_rewards_nonneg base number uncles acc reward : 0 <= base -> 0 <= acc ->
  add_uncle_rewards base number uncles acc = Some reward -> 0 <= reward.
Proof.
  intros Hb. revert acc. induction uncles as [|u us IH]; intros acc Ha Hr; cbn in Hr; [by simplify_eq|].
  unfold calc_uncle_miner_reward, u256_add, usize_sub in Hr. simplify_option_eq. repeat case_match; simplify_eq.
  apply (IH _) in Hr; [done|]. apply Z.add_nonneg_nonneg; [done|].
  match goal with H : mul _ _ = Some _ |- _ => apply mul_nonneg in H; [|done|lia] end.
  by apply whole_gwei_nonneg, shr_nonneg.
Qed.

Lemma base_nonneg era r base : Forall (fun e => 0 <= era_base e) (rw_eras r) -> get_era_base_reward era r = Some base -> 0 <= base.
Proof.
  unfold get_era_base_reward. intros Hf Hb. case_match; [done|].
  apply fmap_Some in Hb as (e & He & ->). exact (vec_get_Forall _ _ _ _ Hf He).
Qed.

Lemma block_reward_nonneg base block reward : 0 <= base -> calculate_block_total_reward base block = Some reward -> 0 <= reward.
Proof.
  unfold calculate_block_total_reward. intros Hb Hr. destruct (calc_author_miner_reward _ _) as [a|] eqn:Ha; [|done].
  apply (uncle_rewards_nonneg _ _ _ a) in Hr; [done|done|]. by eapply author_reward_nonneg in Ha; [|done|apply zlen_nonneg].
Qed.

Lemma base_reward_app era r base total eras : get_era_base_reward era r = Some base ->
  get_era_base_reward era (mkRewards total (rw_eras r ++ eras)) = Some base.
Proof.
  unfold get_era_base_reward. intros Hb. cbn. rewrite zlen_app. pose proof (zlen_nonneg eras).
  case_bool_in Hb; [done|]. case_bool; [lia|]. unfold vec_get in *.
  case_bool; [|done]. rewrite lookup_app_l; [done|]. unfold zlen in *. lia.
Qed.

Lemma pop_snoc {A} (l : list A) x : pop (l ++ [x]) = l.
Proof. unfold pop. rewrite length_app. cbn. rewrite Nat.add_sub. by rewrite take_app_length. Qed.

(** What a successful update did. *)
Lemma enact_inv r block r' u : prepare_block_rewards c r block false = Some (r', u) ->
  let era := b_number block / rc_block_count_each_era c in
  match get_era_base_reward era r with
  | None => r' = r /\ u = false
  | Some base => exists reward is_last, u = true /\
      calculate_block_total_reward base block = Some reward /\ rw_total r + reward < U256_MOD /\
      is_era_last_block c (b_number block) = Some is_last /\
      (if is_last : bool
       then begin_next_era c era (rw_total r + reward) (mkRewards (rw_total r + reward) (rw_eras r)) = Some r'
       else r' = mkRewards (rw_total r + reward) (rw_eras r))
  end.
Proof.
  unfold prepare_block_rewards. rewrite era_of. cbn [mbind option_bind]. intros Hp.
  destruct (get_era_base_reward _ r) as [base|]; [|by simplify_eq].
  destruct (calculate_block_total_reward base block) as [reward|]; [|done]. cbn in Hp.
  unfold u256_add in Hp. destruct (rw_total r + reward <? U256_MOD) eqn:Hlt; [|done]. cbn in Hp.
  destruct (is_era_last_block c (b_number block)) as [is_last|] eqn:Hl; [|done]. cbn in Hp.
  exists reward, is_last. apply Z.ltb_lt in Hlt.
  destruct is_last; [destruct (begin_next_era _ _ _ _) eqn:Hb; [|done]|]; cbn in Hp; simplify_eq; auto 7.
Qed.

Lemma begin_next_inv era total r r' : begin_next_era c era total r = Some r' -> exists base,
  calc_era_base_reward c total = Some base /\
  (is_big_than_min_base_reward base = false /\ r' = r \/
   is_big_than_min_base_reward base = true /\ zlen (rw_eras r) = era + 1 /\
     (MAX_ERA <= era + 1 /\ r' = r \/
      era + 1 < MAX_ERA /\ r' = mkRewards (rw_total r) (rw_eras r ++ [mkEra (era + 1) total base]))).
Proof.
  unfold begin_next_era, add_new_era_reward. destruct (calc_era_base_reward c total) as [base|]; [|done]. cbn. intros Hb.
  exists base. split; [done|]. destruct (is_big_than_min_base_reward base); [right|left; by simplify_eq].
  destruct (_ =? _) eqn:He; [|done]. apply Z.eqb_eq in He. cbn in Hb. do 2 (split; [done|]).
  destruct (MAX_ERA <=? era + 1) eqn:Hm; simplify_eq; [left|right]; split; try done; lia.
Qed.

(** Updates keep the rewards fitting the chain. *)
Lemma enact_fit r block r' u : rewards_fit r (b_number block) -> prepare_block_rewards c r block false = Some (r', u) ->
  rewards_fit r' (b_number block + 1).
Proof.
  intros (Ht & Hbs & Hn & Hf) Hp. pose proof (next_era_le _ Hn) as Hle. pose proof (enact_inv _ _ _ _ Hp) as Hi. cbn in Hi.
  destruct (get_era_base_reward _ r) as [base|] eqn:Hbase; [|destruct Hi as [-> _]; repeat split; [done|done|lia..]].
  destruct Hi as (reward & is_last & _ & Hrew & _ & Hl & Hr).
  apply block_reward_nonneg in Hrew; [|by eapply base_nonneg].
  destruct is_last; [|subst r'; repeat split; cbn; [lia|done|lia..]].
  apply begin_next_inv in Hr as (b & Hb & Hr). pose proof (next_era_last _ Hn Hl).
  destruct Hr as [[_ ->]|(_ & _ & [[_ ->]|[_ ->]])]; repeat split; cbn in *; try done; try lia.
  - apply Forall_app. split; [done|]. constructor; [|done]. by eapply era_base_nonneg.
  - rewrite zlen_app, zlen_cons, zlen_nil. lia.
Qed.

(** A block that leaves the chain takes back exactly what it brought, unless mining ended
    with it; then the retraction panics. *)
Lemma retract_block r block r' u : rewards_fit r (b_number block) -> prepare_block_rewards c r block false = Some (r', u) ->
  prepare_block_rewards c r' block true = if u && mining_ends r' block then None else Some (r, u).
Proof.
  intros (Ht & _ & Hn & Hf) Hp. pose proof (enact_inv _ _ _ _ Hp) as Hi. cbn in Hi. unfold prepare_block_rewards.
  rewrite era_of. cbn [mbind option_bind]. set (era := b_number block / _) in *.
  pose proof (count_pos c Hc). assert (Hera : 0 <= era) by (apply Z.div_pos; lia).
  destruct (get_era_base_reward era r) as [base|] eqn:Hbase; [|destruct Hi as [-> ->]; by rewrite Hbase].
  destruct Hi as (reward & is_last & -> & Hrew & Hlt & Hl & Hr). pose proof (base_reward_bound _ _ _ Hera Hbase).
  assert (Hlen : zlen (rw_eras r) = era + 1) by lia.
  assert (Hnew : forall eras, get_era_base_reward era (mkRewards (rw_total r + reward) (rw_eras r ++ eras)) = Some base)
    by (intros; by apply base_reward_app).
  assert (Hold := Hnew []). rewrite app_nil_r in Hold.
  assert (Hsub : u256_sub (rw_total r + reward) reward = Some (rw_total r))
    by (rewrite u256_sub_some by lia; f_equal; lia).
  unfold mining_ends. rewrite Hl. destruct is_last; cbn [andb].
  2:{ subst r'. rewrite Hold. cbn. rewrite Hrew. cbn. rewrite Hsub. by destruct r. }
  apply begin_next_inv in Hr as (b & Hb & [[Hs ->]|(Hs & _ & [[Hm ->]|[Hm ->]])]); cbn [rw_total rw_eras].
  - rewrite Hb, Hs, Hold. cbn [negb andb]. cbn. rewrite Hrew. cbn. rewrite Hsub. cbn. unfold delete_last_era. cbn.
    rewrite Hlen. fold era. unfold MAX_ERA in *. repeat case_bool; cbn; try lia; try done; by destruct r.
  - rewrite Hb, Hs, Hold. cbn. rewrite Hrew. cbn. rewrite Hsub. cbn. unfold delete_last_era. cbn.
    rewrite Hlen. unfold MAX_ERA in *. repeat case_bool; cbn; try lia. by destruct r.
  - rewrite Hb, Hs, Hnew. cbn. rewrite Hrew. cbn. rewrite Hsub. cbn. unfold delete_last_era. cbn.
    rewrite zlen_app, Hlen, zlen_cons, zlen_nil. repeat case_bool; cbn; try lia; rewrite ?pop_snoc; by destruct r.
Qed.

(** Blocks numbered from [n] on. *)
Fixpoint consecutive (n : Z) (l : list Block) : Prop :=
  match l with [] => True | b :: l => b_number b = n /\ consecutive (n + 1) l end.

(** The rewards after the blocks of [l] in their order; [None] if an update panics. *)
Fixpoint enact_rewards (r : Rewards) (l : list Block) : option Rewards :=
  match l with [] => Some r | b :: l => '(r, _) ← prepare_block_rewards c r b false; enact_rewards r l end.

(** No block of [l] ends mining. *)
Fixpoint mining_goes_on (r : Rewards) (l : list Block) : Prop :=
  match l with
  | [] => True
  | b :: l =>
      match prepare_block_rewards c r b false with
      | Some (r', _) => mining_ends r' b = false /\ mining_goes_on r' l
      | None => True
      end
  end.

Lemma do_rewards_app r l k is_remove u :
  do_rewards_of_blocks c r (l ++ k) is_remove u =
  '(r, u) ← do_rewards_of_blocks c r l is_remove u; do_rewards_of_blocks c r k is_remove u.
Proof.
  revert r u. induction l as [|b l IH]; intros r u; [done|]. cbn.
  destruct (prepare_block_rewards c r b is_remove) as [[r' v]|]; [apply IH|done].
Qed.

Lemma do_rewards_enact r l u r' : enact_rewards r l = Some r' ->
  exists v, do_rewards_of_blocks c r l false u = Some (r', v).
Proof.
  revert r u. induction l as [|b l IH]; intros r u He; cbn in *; [simplify_eq; eauto|].
  destruct (prepare_block_rewards c r b false) as [[r1 v]|]; [|done]. cbn in *. eauto.
Qed.

(** An update that reports no change makes none. *)
Lemma prepare_unchanged r b is_remove r' : prepare_block_rewards c r b is_remove = Some (r', false) -> r' = r.
Proof.
  unfold prepare_block_rewards. rewrite era_of. cbn. intros Hp.
  destruct (get_era_base_reward _ r); [|by simplify_eq]. destruct is_remove; simplify_option_eq.
Qed.

Lemma do_rewards_unchanged r l is_remove u r' : do_rewards_of_blocks c r l is_remove u = Some (r', false) -> r' = r.
Proof.
  revert r u. induction l as [|b l IH]; intros r u Hd; cbn in Hd; [by simplify_eq|].
  destruct (prepare_block_rewards c r b is_remove) as [[r1 v]|] eqn:Hp; [|done]. cbn in Hd.
  assert (Hu : u || v = false -> r1 = r).
  { intros [_ ->]%orb_false_elim. by apply prepare_unchanged in Hp. }
  destruct (u || v) eqn:Huv; [|by rewrite (IH _ _ Hd), Hu].
  exfalso. clear -Hd. revert r1 Hd. induction l as [|b l IH]; intros r1 Hd; cbn in Hd; [done|].
  destruct (prepare_block_rewards c r1 b is_remove) as [[r2 w]|]; [|done]. cbn in Hd. eauto.
Qed.

Lemma retract_blocks r l n r' u : rewards_fit r n -> consecutive n l -> mining_goes_on r l -> enact_rewards r l = Some r' ->
  exists v, do_rewards_of_blocks c r' (rev l) true u = Some (r, v).
Proof.
  revert r n u. induction l as [|b l IH]; intros r n u Hf Hn Hm He; cbn in *; [simplify_eq; eauto|].
  destruct Hn as [<- Hn]. destruct (prepare_block_rewards c r b false) as [[r1 w]|] eqn:Hp; [|done]. destruct Hm as [He1 Hm].
  destruct (IH r1 _ u (enact_fit _ _ _ _ Hf Hp) Hn Hm He) as (v & Hd).
  rewrite do_rewards_app, Hd. cbn. rewrite (retract_block _ _ _ _ Hf Hp), He1, andb_false_r. cbn. eauto.
Qed.

Lemma enact_rewards_app r l k : enact_rewards r (l ++ k) = r ← enact_rewards r l; enact_rewards r k.
Proof.
  revert r. induction l as [|b l IH]; intros r; [done|]. cbn.
  destruct (prepare_block_rewards c r b false) as [[r1 u]|]; [apply IH|done].
Qed.

Lemma mining_goes_on_app r l k r' : mining_goes_on r (l ++ k) -> enact_rewards r l = Some r' -> mining_goes_on r' k.
Proof.
  revert r. induction l as [|b l IH]; intros r Hm He; cbn in *; [by simplify_eq|].
  destruct (prepare_block_rewards c r b false) as [[r1 u]|]; [|done]. cbn in He. apply (IH r1); [apply Hm|done].
Qed.

Lemma enact_rewards_fit r l n r' : rewards_fit r n -> consecutive n l -> enact_rewards r l = Some r' ->
  rewards_fit r' (n + zlen l).
Proof.
  revert r n. induction l as [|b l IH]; intros r n Hf Hn He; cbn in *.
  { injection He as <-. by rewrite zlen_nil, Z.add_0_r. }
  destruct Hn as [<- Hn]. destruct (prepare_block_rewards c r b false) as [[r1 u]|] eqn:Hp; [|done]. cbn in He.
  rewrite zlen_cons, Z.add_assoc. apply (IH r1); [by eapply enact_fit|done|done].
Qed.

Lemma genesis_rewards_fit r n : genesis_rewards c = Some r -> 0 <= n -> rewards_fit r n.
Proof.
  pose proof (count_pos c Hc) as Hpos. unfold genesis_rewards. intros Hg Hn.
  destruct (calc_era_base_reward c 0) as [base|] eqn:Hb; [|done]. cbn in Hg. injection Hg as <-.
  repeat split; cbn; [lia|repeat constructor; by eapply era_base_nonneg|done|].
  pose proof (Z.div_pos n (rc_block_count_each_era c) Hn Hpos). rewrite zlen_cons, zlen_nil. lia.
Qed.

Lemma consecutive_app n l k : consecutive n (l ++ k) <-> consecutive n l /\ consecutive (n + zlen l) k.
Proof.
  revert n. induction l as [|b l IH]; intros n; cbn; [rewrite zlen_nil, Z.add_0_r; tauto|].
  rewrite IH, zlen_cons, Z.add_assoc. tauto.
Qed.

(** After the last block of an era the rewards are those of the next era already, or of an
    earlier one, so that they would not be loaded. *)
Lemma era_end_not_loadable r block r' u : prepare_block_rewards c r block false = Some (r', u) ->
  is_era_last_block c (b_number block) = Some true -> mining_ends r' block = false ->
  b_number block / rc_block_count_each_era c + 1 < MAX_ERA -> rewards_loadable c r' (b_number block) <> Some true.
Proof.
  intros Hp Hlast Hends Hmax. apply enact_inv in Hp. unfold rewards_loadable, cur_era. rewrite era_of. cbn [mbind option_bind].
  set (era := b_number block / rc_block_count_each_era c) in *.
  destruct (get_era_base_reward era r) as [base|] eqn:Hbase.
  - destruct Hp as (reward & is_last & _ & _ & _ & Hl & Hn). assert (is_last = true) as -> by congruence.
    apply begin_next_inv in Hn as (new & Hnew & [[Hbig ->]|(_ & Hlen & [[? _]|[_ ->]])]); [|lia|].
    + exfalso. unfold mining_ends in Hends. rewrite Hlast in Hends. cbn in Hends. rewrite Hnew, Hbig in Hends. cbn in Hends.
      fold era in Hends. by rewrite (proj2 (Z.ltb_lt _ _)) in Hends.
    + cbn in Hlen |- *. rewrite zlen_app, Hlen, zlen_cons, zlen_nil. case_bool; [done|]. cbn. intros [= He]. lia.
  - destruct Hp as [-> _]. case_bool; [done|]. cbn. intros [= He%Z.eqb_eq].
    unfold get_era_base_reward in Hbase. rewrite (proj2 (Z.leb_gt _ _)) in Hbase by lia.
    destruct (vec_get_is_Some (rw_eras r) era) as [x Hx]; [|by rewrite Hx in Hbase].
    pose proof (zlen_nonneg (rw_eras r)). lia.
Qed.

End Retract.

(** ** The total reward is not exceeded *)

Section Supply.
Context (c : RewardConfig).

(** Configurations whose sums fit their words. *)
Record config_bounded : Prop := {
  bd_config : config_ok c;
  bd_total : 0 <= rc_total_reward c < 2 ^ 192;
  bd_rate : rc_production_rate c <= 100;
  bd_uncles : rc_maximum_uncle_count c < 2 ^ 32;
  bd_count : rc_block_count_each_era c < 2 ^ 62;
}.

(** The uncles of a block as the verification lets them through. *)
Definition uncles_allowed (b : Block) : Prop :=
  zlen (b_uncles (b_body b)) <= rc_maximum_uncle_count c /\ Forall (fun u => 1 <= b_number b - h_number u <= 6) (b_uncles (b_body b)).

Context (Hb : config_bounded).

Abbreviation T := (rc_total_reward c).
Abbreviation C := (rc_block_count_each_era c).

(** What a block of an era may pay, if [rest] was left at its beginning. *)
Definition block_budget (rest : Z) : Z := rest * rc_production_rate c / 100 / C.

(** The shares of an author with all uncles and of the authors of these, in [10^9] parts. *)
Definition shares : Z := GWEI + 906250000 * rc_maximum_uncle_count c.

Lemma mul_fits a b : a * b < U256_MOD -> mul a b = Some (a * b).
Proof. intros H. unfold mul. by rewrite (proj2 (Z.ltb_lt _ _)). Qed.

Lemma div_fits a b : b <> 0 -> div a b = Some (a / b).
Proof. intros H. unfold div. by rewrite (proj2 (Z.eqb_neq _ _)). Qed.

Lemma budget_bound rest : 0 <= rest -> 0 <= block_budget rest /\ C * block_budget rest <= rest * rc_production_rate c / 100 <= rest.
Proof.
  intros Hr. destruct Hb as [[HC Hrate _] _ Hr100 _ _]. unfold block_budget. set (p := rest * rc_production_rate c / 100).
  assert (0 <= p <= rest) by (split; [apply Z.div_pos; nia|apply Z.div_le_upper_bound; nia]).
  split; [apply Z.div_pos; lia|]. split; [apply Z.mul_div_le; lia|lia].
Qed.

Lemma budget_mono rest rest' : 0 <= rest <= rest' -> block_budget rest <= block_budget rest'.
Proof.
  intros Hr. destruct Hb as [[HC Hrate _] _ _ _ _]. unfold block_budget. apply Z.div_le_mono; [lia|]. apply Z.div_le_mono; [lia|]. nia.
Qed.

Lemma whole_gwei_le x : 0 <= x -> 0 <= whole_gwei x <= x.
Proof.
  intros Hx. unfold whole_gwei, GWEI. pose proof (Z.mul_div_le x 1000000000). pose proof (Z.div_pos x 1000000000). lia.
Qed.

(** The base reward of an era. *)
Lemma base_defined mined : 0 <= mined <= T ->
  calc_era_base_reward c mined = Some (whole_gwei (block_budget (T - mined) * GWEI / shares)).
Proof.
  intros Hm. destruct Hb as [[HC Hrate Hu] HT Hr100 HU _]. unfold calc_era_base_reward. rewrite u256_sub_some by lia. cbn [mbind option_bind].
  assert (0 <= (T - mined) * rc_production_rate c < 2 ^ 200) by nia. rewrite (mul_fits (T - mined)) by range_lia. cbn [mbind option_bind].
  rewrite div_fits by lia. cbn [mbind option_bind]. fold (block_budget (T - mined)).
  destruct (budget_bound (T - mined)) as [Hb0 Hb1]; [lia|]. assert (block_budget (T - mined) < 2 ^ 192) by nia.
  change (u256_shr GWEI 5) with 31250000. change (u256_shr (GWEI * 7) 3) with 875000000. set (u := rc_maximum_uncle_count c) in *.
  rewrite (mul_fits 31250000) by range_lia. cbn [mbind option_bind]. rewrite u256_add_some by (unfold GWEI; range_lia). cbn [mbind option_bind].
  rewrite (mul_fits 875000000) by range_lia. cbn [mbind option_bind]. rewrite (mul_fits (block_budget _)) by (unfold GWEI; range_lia). cbn [mbind option_bind].
  rewrite u256_add_some by (unfold GWEI; range_lia). cbn [mbind option_bind]. rewrite div_fits by (unfold GWEI; lia). cbn [mbind option_bind].
  do 3 f_equal. unfold shares. fold u. lia.
Qed.

Lemma uncles_pay base number uncles acc : 0 <= base < 2 ^ 192 -> 0 <= acc < 2 ^ 240 -> zlen uncles < 2 ^ 32 -> 0 <= number < 2 ^ 63 ->
  Forall (fun u => 1 <= number - h_number u <= 6) uncles -> exists reward, add_uncle_rewards base number uncles acc = Some reward /\
    acc <= reward /\ 8 * reward <= 8 * acc + 7 * base * zlen uncles.
Proof.
  intros Hbase Hacc Hlen Hn Hu. assert (acc + base * zlen uncles < 2 ^ 241) as Hsum by (pose proof (zlen_nonneg uncles); nia).
  clear Hlen. destruct Hacc as [Hacc _]. revert acc Hacc Hsum. induction Hu as [|u us Hu _ IH]; intros acc Hacc Hsum.
  { exists acc. rewrite zlen_nil. split_and!; [done|lia|lia]. }
  rewrite zlen_cons in Hsum |- *. pose proof (zlen_nonneg us) as Hz. cbn [add_uncle_rewards]. unfold calc_uncle_miner_reward, usize_add, usize_sub.
  rewrite (proj2 (Z.ltb_lt _ _)) by range_lia. cbn [mbind option_bind]. rewrite (proj2 (Z.leb_le _ _)) by lia. cbn [mbind option_bind].
  set (d := 8 + h_number u - number). assert (2 <= d <= 7) by lia. rewrite mul_fits by (unfold_widths; nia). cbn [mbind option_bind].
  unfold u256_shr. rewrite Z.shiftr_div_pow2 by lia. change (2 ^ 3) with 8.
  pose proof (Z.mul_div_le (base * d) 8 ltac:(lia)) as H8. pose proof (Z.div_pos (base * d) 8 ltac:(nia) ltac:(lia)) as H0.
  pose proof (whole_gwei_le (base * d / 8) H0) as Hw. set (x := whole_gwei (base * d / 8)) in *. assert (8 * x <= 7 * base) by nia.
  rewrite u256_add_some by (unfold_widths; nia). cbn [mbind option_bind].
  destruct (IH (acc + x)) as (reward & -> & Hle & Hup); [lia|nia|]. exists reward. split_and!; [done|lia|lia].
Qed.

(** A block pays at most its budget. *)
Lemma reward_defined base rest block : 0 <= rest <= T -> 0 <= base -> base * shares <= block_budget rest * GWEI -> uncles_allowed block ->
  0 <= b_number block < 2 ^ 63 -> exists reward, calculate_block_total_reward base block = Some reward /\ 0 <= reward <= block_budget rest.
Proof.
  intros Hrest H0 Hbase [Hlen Hu] Hn. destruct (budget_bound rest) as [Hb0 Hb1]; [lia|]. destruct Hb as [[HC _ Huc] HT _ HU _].
  assert (block_budget rest < 2 ^ 192) by nia. unfold shares, GWEI in Hbase. set (uc := rc_maximum_uncle_count c) in *.
  assert (base * (32 + 29 * uc) <= 32 * block_budget rest) by lia. assert (base <= block_budget rest) by nia.
  unfold calculate_block_total_reward, calc_author_miner_reward. set (us := b_uncles (b_body block)) in *. pose proof (zlen_nonneg us) as Hz.
  assert (0 <= base * zlen us < 2 ^ 224) by nia. rewrite mul_fits by range_lia. cbn [mbind option_bind].
  unfold u256_shr. rewrite Z.shiftr_div_pow2 by lia. change (2 ^ 5) with 32. pose proof (Z.mul_div_le (base * zlen us) 32 ltac:(lia)).
  pose proof (Z.div_pos (base * zlen us) 32 ltac:(lia) ltac:(lia)). rewrite u256_add_some by range_lia. cbn [mbind option_bind].
  pose proof (whole_gwei_le (base + base * zlen us / 32) ltac:(lia)) as Hw. set (a := whole_gwei _) in *.
  destruct (uncles_pay base (b_number block) us a) as (reward & -> & Hle & Hup); [lia|lia|lia|lia|done|].
  exists reward. split; [done|]. split; [lia|]. nia.
Qed.

(** *** Eras *)

(** The least that can be left after a number of eras. *)
Definition left_over (rest : Z) : Z := rest - rest * rc_production_rate c / 100.
Fixpoint least (eras : nat) : Z := match eras with O => T | S eras => left_over (least eras) end.

(** The base reward of an era at whose beginning [rest] is left. *)
Definition base_of (rest : Z) : Z := whole_gwei (block_budget rest * GWEI / shares).

(** The eras up to the [E]-th begin, whatever was mined before. *)
Definition lasting (E : nat) : bool := forallb (fun era => is_big_than_min_base_reward (base_of (least era))) (seq 0 (S E)).

(** The last era began with [total] mined, and its blocks pay at most their budget. *)
Record era_open (r : Rewards) (n total base : Z) : Prop := {
  eo_last : last (rw_eras r) = Some (mkEra (zlen (rw_eras r) - 1) total base);
  eo_era : n / C = zlen (rw_eras r) - 1;
  eo_total : 0 <= total <= T;
  eo_spent : rw_total r <= total + n mod C * block_budget (T - total);
  eo_base : 0 <= base /\ base * shares <= block_budget (T - total) * GWEI;
  eo_rest : least (Z.to_nat (n / C)) <= T - total;
}.

(** The rewards before the block [n]: in an era, or after the last. *)
Definition supply_ok (r : Rewards) (n : Z) : Prop :=
  0 <= rw_total r <= T /\ (zlen (rw_eras r) <= n / C \/ exists total base, era_open r n total base).

(** No era was left out. *)
Definition going (r : Rewards) (n : Z) : Prop := zlen (rw_eras r) <= n / C -> MAX_ERA <= n / C.

Lemma left_over_mono x y : 0 <= x <= y -> 0 <= left_over x <= left_over y.
Proof.
  destruct Hb as [[_ Hrate _] _ Hr100 _ _]. intros Hx. unfold left_over. set (q := rc_production_rate c) in *.
  pose proof (Z.div_mod (x * q) 100). pose proof (Z.mod_pos_bound (x * q) 100). pose proof (Z.div_mod (y * q) 100).
  pose proof (Z.mod_pos_bound (y * q) 100). assert ((y - x) * q <= (y - x) * 100) by nia. assert (x * q <= x * 100) by nia. nia.
Qed.

Lemma least_nonneg k : 0 <= least k.
Proof. induction k as [|k IH]; cbn [least]; [apply (bd_total Hb)|]. apply (left_over_mono (least k) (least k)). lia. Qed.

Lemma base_of_mono x y : 0 <= x <= y -> base_of x <= base_of y.
Proof.
  intros Hx. unfold base_of, whole_gwei. pose proof (budget_mono x y Hx). destruct Hb as [[_ _ Hu] _ _ _ _].
  apply Z.mul_le_mono_nonneg_r; [done|]. apply Z.div_le_mono; [done|]. apply Z.div_le_mono; unfold shares, GWEI; lia.
Qed.

Lemma base_of_bound rest : 0 <= rest -> 0 <= base_of rest /\ base_of rest * shares <= block_budget rest * GWEI.
Proof.
  intros Hr. destruct (budget_bound rest Hr) as [Hb0 _]. destruct Hb as [[_ _ Hu] _ _ _ _]. assert (0 < shares) by (unfold shares, GWEI; lia).
  unfold base_of. set (x := block_budget rest * GWEI). assert (0 <= x) by (unfold x, GWEI; lia).
  pose proof (Z.div_pos x shares ltac:(lia) ltac:(lia)). pose proof (whole_gwei_le (x / shares) ltac:(lia)).
  pose proof (Z.mul_div_le x shares ltac:(lia)). split; [lia|]. nia.
Qed.

(** The block that begins the next era, and the others. *)
Lemma next_block n : 0 < n < 2 ^ 63 -> exists is_last, is_era_last_block c n = Some is_last /\
  if is_last : bool then (n + 1) mod C = 0 /\ n mod C = C - 1 /\ (n + 1) / C = n / C + 1
  else (n + 1) mod C = n mod C + 1 /\ (n + 1) / C = n / C.
Proof.
  intros Hn. pose proof (count_pos _ (bd_config Hb)) as HC. unfold is_era_last_block, usize_add.
  rewrite (proj2 (Z.ltb_lt 0 n)) by lia. rewrite (proj2 (Z.ltb_lt _ _)) by range_lia. cbn [mbind option_bind].
  rewrite (proj2 (Z.eqb_neq C 0)) by lia. eexists. split; [done|].
  pose proof (Z.div_mod (n + 1) C ltac:(lia)). pose proof (Z.mod_pos_bound (n + 1) C HC). pose proof (Z.div_mod n C ltac:(lia)).
  pose proof (Z.mod_pos_bound n C HC). set (q := n / C) in *. set (q' := (n + 1) / C) in *.
  destruct (Z.eqb_spec ((n + 1) mod C) 0) as [E|E].
  - assert (q' = q + 1) by nia. split_and!; [lia|nia|lia].
  - assert (q' = q) by nia. split; [nia|lia].
Qed.

(** What is mined at the end of an era. *)
Lemma era_end_total r n total base reward : era_open r n total base -> n mod C = C - 1 -> 0 <= rw_total r -> 0 <= n ->
  0 <= reward <= block_budget (T - total) ->
  0 <= rw_total r + reward <= T /\ least (Z.to_nat (n / C + 1)) <= T - (rw_total r + reward).
Proof.
  intros [_ _ Ht Hs _ Hl] Hn H0 Hn0 Hr. rewrite Hn in Hs. destruct (budget_bound (T - total)) as [Hb0 Hb1]; [lia|].
  pose proof (count_pos _ (bd_config Hb)) as HC. pose proof (Z.div_pos n C Hn0 HC) as Hera.
  assert (rw_total r + reward <= total + (T - total) * rc_production_rate c / 100) by nia. split; [lia|].
  replace (Z.to_nat (n / C + 1)) with (S (Z.to_nat (n / C))) by lia. cbn [least].
  pose proof (left_over_mono (least (Z.to_nat (n / C))) (T - total) ltac:(pose proof (least_nonneg (Z.to_nat (n / C))); lia)) as Hm.
  change (left_over (T - total)) with (T - total - (T - total) * rc_production_rate c / 100) in Hm. lia.
Qed.

Lemma open_base r n total base : era_open r n total base -> 0 <= n -> get_era_base_reward (n / C) r = Some base.
Proof.
  intros [Hl He _ _ _ _] Hn. pose proof (count_pos _ (bd_config Hb)) as HC. pose proof (Z.div_pos n C Hn HC).
  unfold get_era_base_reward. rewrite (proj2 (Z.leb_gt _ _)) by lia. unfold vec_get. rewrite (proj2 (Z.leb_le _ _)) by lia.
  rewrite last_lookup in Hl. replace (Z.to_nat (n / C)) with (pred (length (rw_eras r))) by (unfold zlen in He; lia). by rewrite Hl.
Qed.

(** A block is counted without overflow. *)
Lemma supply_step r block : let n := b_number block in supply_ok r n -> 0 < n < 2 ^ 62 -> uncles_allowed block ->
  exists r' u, prepare_block_rewards c r block false = Some (r', u) /\ supply_ok r' (n + 1) /\
    (going r n -> is_big_than_min_base_reward (base_of (least (Z.to_nat ((n + 1) / C)))) = true ->
     mining_ends c r' block = false /\ going r' (n + 1)).
Proof.
  intros n [Ht Hera] Hn Hu. pose proof (bd_config Hb) as Hc. pose proof (count_pos _ Hc) as HC. pose proof (Z.div_pos n C ltac:(lia) HC) as Hq.
  pose proof (bd_total Hb) as HT. destruct (next_block n ltac:(lia)) as (is_last & El & Hnext). unfold prepare_block_rewards.
  rewrite era_of by done. fold n. cbn [mbind option_bind]. destruct Hera as [Hclosed|(total & base & Hopen)].
  - assert (get_era_base_reward (n / C) r = None) as -> by (unfold get_era_base_reward; by rewrite (proj2 (Z.leb_le _ _))).
    assert (n / C <= (n + 1) / C) as Hle by (by apply Z.div_le_mono; lia).
    exists r, false. split_and!; [done|split; [done|left; lia]|]. intros Hg _. specialize (Hg Hclosed). split; [|intros _; lia].
    unfold mining_ends. fold n. rewrite El. destruct is_last; [|done]. destruct (calc_era_base_reward c _); [|done].
    rewrite (proj2 (Z.ltb_ge _ _)) by lia. apply andb_false_r.
  - rewrite (open_base _ _ _ _ Hopen) by lia. pose proof Hopen as [Hl He Htot Hs [Hb0 Hbase] Hrest].
    destruct (reward_defined base (T - total) block) as (reward & Er & Hr); [lia|done|done|done|fold n; lia|].
    rewrite Er. cbn [mbind option_bind]. destruct (budget_bound (T - total)) as [Hbu0 Hbu1]; [lia|].
    pose proof (Z.mod_pos_bound n C HC) as Hmod. assert (rw_total r + reward <= T) as Hcap by nia.
    rewrite u256_add_some by range_lia. cbn [mbind option_bind]. rewrite El. cbn [mbind option_bind].
    destruct is_last.
    + destruct Hnext as (Hm & Hmod' & Hdiv). destruct (era_end_total _ _ _ _ _ Hopen Hmod' (proj1 Ht) ltac:(lia) Hr) as [Hcap' Hleast].
      unfold begin_next_era. rewrite base_defined by lia. fold (base_of (T - (rw_total r + reward))). cbn [mbind option_bind].
      set (new := base_of (T - (rw_total r + reward))). destruct (is_big_than_min_base_reward new) eqn:Hbig.
      * unfold add_new_era_reward. cbn [era_number update_total_reward rw_eras rw_total].
        rewrite (proj2 (Z.eqb_eq (zlen (rw_eras r)) _)) by lia. cbn [negb].
        assert (forall eras, mining_ends c (mkRewards (rw_total r + reward) eras) block = false) as Hme.
        { intros eras. unfold mining_ends. fold n. rewrite El. cbn [rw_total]. rewrite base_defined by lia.
          fold (base_of (T - (rw_total r + reward))). fold new. by rewrite Hbig. }
        case_bool; cbn [mbind option_bind]; (eexists _, true; split; [done|]).
        -- split; [split; cbn; [lia|left; lia]|]. intros _ _. split; [apply Hme|]. intros _. lia.
        -- split; [split; [cbn; lia|right]|].
           ++ exists (rw_total r + reward), new. destruct (base_of_bound (T - (rw_total r + reward))) as [Hn0 Hn1]; [lia|].
              split; cbn [rw_eras rw_total]; [|rewrite zlen_app; change (zlen [_]) with 1; lia|lia|rewrite Hm; lia|done|rewrite Hdiv; lia].
              rewrite last_snoc, zlen_app. do 2 f_equal. change (zlen [_]) with 1. lia.
           ++ intros _ _. split; [apply Hme|]. unfold going. cbn [rw_eras]. rewrite zlen_app. change (zlen [_]) with 1. lia.
      * cbn [mbind option_bind]. eexists _, true. split; [done|]. split; [split; cbn; [lia|left; lia]|].
        intros _ Hlast. exfalso. rewrite Hdiv in Hlast.
        assert (base_of (least (Z.to_nat (n / C + 1))) <= new)
          by (apply base_of_mono; pose proof (least_nonneg (Z.to_nat (n / C + 1))); lia).
        unfold is_big_than_min_base_reward in *. lia.
    + destruct Hnext as [Hm Hdiv]. cbn [mbind option_bind]. eexists _, true. split; [done|]. split; [split; [cbn; lia|right]|].
      * exists total, base. split; cbn [update_total_reward rw_eras rw_total]; [done|lia|lia|rewrite Hm; lia|done|by rewrite Hdiv].
      * intros _ _. split; [unfold mining_ends; fold n; by rewrite El|]. unfold going. cbn [update_total_reward rw_eras]. lia.
Qed.

Lemma supply_genesis : exists r, genesis_rewards c = Some r /\ supply_ok r 1 /\ (1 < C -> going r 1).
Proof.
  pose proof (count_pos _ (bd_config Hb)) as HC. pose proof (bd_total Hb) as HT. unfold genesis_rewards. rewrite base_defined by lia.
  cbn [mbind option_bind]. eexists. split; [done|]. destruct (base_of_bound (T - 0)) as [Hb0 Hb1]; [lia|].
  destruct (budget_bound (T - 0)) as [Hbu _]; [lia|]. cbn [rw_eras rewards_new app].
  destruct (decide (C = 1)) as [E|E].
  - split; [split; cbn; [lia|left; rewrite E; done]|]. lia.
  - assert (1 / C = 0) as Hq by (apply Z.div_small; lia). split; [split; [cbn; lia|right]|].
    + exists 0, (base_of (T - 0)). split; cbn [rw_eras rw_total]; [done|by rewrite Hq|lia| |done|rewrite Hq; change (least (Z.to_nat 0)) with T; lia].
      rewrite (Z.mod_small 1 C) by lia. change (rw_total rewards_new) with 0. lia.
    + intros _ Hz. rewrite Hq in Hz. cbn [rw_eras] in Hz. rewrite zlen_cons, zlen_nil in Hz. lia.
Qed.

Lemma supply_all r n l : supply_ok r n -> 0 < n -> n + zlen l < 2 ^ 62 -> consecutive n l -> Forall uncles_allowed l ->
  exists r', enact_rewards c r l = Some r' /\ supply_ok r' (n + zlen l) /\
    (going r n -> (forall k, 0 <= k <= (n + zlen l) / C -> is_big_than_min_base_reward (base_of (least (Z.to_nat k))) = true) ->
     mining_goes_on c r l).
Proof.
  revert r n. induction l as [|b l IH]; intros r n Hs Hn Hlen Hcon Hu.
  { rewrite zlen_nil, Z.add_0_r. exists r. split_and!; [done|done|]. intros _ _. exact I. }
  rewrite zlen_cons in *. pose proof (zlen_nonneg l) as Hz. destruct Hcon as [<- Hcon]. apply Forall_cons in Hu as [Hub Hu].
  destruct (supply_step r b Hs ltac:(lia) Hub) as (r1 & u & E1 & Hs1 & Hm1). cbn [enact_rewards mining_goes_on]. rewrite E1. cbn [mbind option_bind].
  destruct (IH r1 (b_number b + 1) Hs1) as (r' & E & Hs' & Hm); [lia|lia|done|done|]. exists r'. rewrite Z.add_assoc.
  replace (b_number b + zlen l + 1) with (b_number b + 1 + zlen l) by lia. split_and!; [done|done|]. intros Hg Hbig.
  pose proof (count_pos _ (bd_config Hb)) as HC. destruct Hm1 as [Hme Hg1]; [done|apply Hbig|].
  - split; [apply Z.div_pos; lia|]. apply Z.div_le_mono; lia.
  - split; [done|]. by apply Hm.
Qed.
End Supply.

(** C37: the chain does not mine more than the total reward of its configuration. For blocks
    numbered from one on, whose uncles are as the verification allows them, every update of
    the rewards succeeds, the sum stays between zero and the total reward, and mining goes on
    as long as the worst case leaves enough for the next era. *)
Theorem rewards_within_total (c : RewardConfig) l : config_bounded c -> consecutive 1 l -> Forall (uncles_allowed c) l -> zlen l < 2 ^ 61 ->
  exists r0 r, genesis_rewards c = Some r0 /\ enact_rewards c r0 l = Some r /\ 0 <= rw_total r <= rc_total_reward c /\
    forall E, lasting c E = true -> 1 < rc_block_count_each_era c -> (1 + zlen l) / rc_block_count_each_era c <= Z.of_nat E ->
    mining_goes_on c r0 l.
Proof.
  intros Hb Hl Hu Hlen. destruct (supply_genesis c Hb) as (r0 & E0 & Hs0 & Hg0).
  destruct (supply_all c Hb r0 1 l Hs0 ltac:(lia) ltac:(lia) Hl Hu) as (r & E & [Ht _] & Hm).
  exists r0, r. split_and!; [done|done|apply Ht|apply Ht|]. intros eras Hlast HC Heras. apply Hm; [by apply Hg0|].
  intros k Hk. unfold lasting in Hlast. rewrite forallb_forall in Hlast. apply Hlast, in_seq. lia.
Qed.

(** The first 66 million blocks of the default configuration. *)
Lemma default_lasting : lasting default_reward_config 33 = true.
Proof. vm_compute. reflexivity. Qed.

(** A block without uncles after the genesis block. *)
Definition plain_block : Block := mkBlock (mkHeader 0 0 1 0 0 0 [] 0 0 0 0 0 0 [] 0) (mkBody [] []).

Lemma rewards_within_total_witness : exists r0 r, genesis_rewards default_reward_config = Some r0 /\
  enact_rewards default_reward_config r0 [plain_block] = Some r /\ rw_total r <= rc_total_reward default_reward_config /\
  mining_goes_on default_reward_config r0 [plain_block].
Proof.
  destruct (rewards_within_total default_reward_config [plain_block]) as (r0 & r & E0 & E & [_ Ht] & Hm).
  - by split; [split| | | |].
  - done.
  - apply Forall_singleton. split; [done|constructor].
  - done.
  - exists r0, r. split_and!; [exact E0|exact E|exact Ht|]. apply (Hm 33%nat default_lasting); done.
Defined.
