(* ===== verification/Finality.v ===== *)
(** * Rolling finality

    [ethcore/src/engines/authority_round/finality.rs] and the list of validators of
    [engines/validator_set/simple_list.rs]. Blocks that are not final yet are kept in a
    queue with the validators that signed for them, next to the number of signatures of
    every validator in the queue; a block is final when more than half of the validators
    have signed it or a block after it. Counters of the table are [usize]. *)

From S2P Require Import Prelude.
From stdpp Require Import base numbers option list gmap.

Open Scope Z_scope.

(** [SimpleList]: the validators, of which [Deref] gives the slice. *)
Record SimpleList : Type := mkSimpleList { sl_validators : list Z }.

Definition contains (l : SimpleList) (a : Z) : bool := bool_decide (a ∈ sl_validators l).

(** [get_with_caller]; an empty list is a panic. *)
Definition simple_list_get (l : SimpleList) (nonce : Z) : option Z :=
  let validator_n := zlen (sl_validators l) in
  if validator_n =? 0 then None else vec_get (sl_validators l) (nonce mod validator_n).

Inductive UnknownValidator : Type := Unknown.

Abbreviation Signed := (Z * list Z)%type.

Record RollingFinality : Type := mkFinality {
  rf_headers : list Signed;
  rf_signers : SimpleList;
  rf_sign_count : gmap Z Z;
  rf_last_pushed : option Z;
}.

Definition blank (signers : list Z) : RollingFinality := mkFinality [] (mkSimpleList signers) ∅ None.

Definition clear (rf : RollingFinality) : RollingFinality := mkFinality [] (rf_signers rf) ∅ None.

Definition subchain_head (rf : RollingFinality) : option Z := rf_last_pushed rf.

(** [sign_count.len()] *)
Definition signed_by (count : gmap Z Z) : Z := Z.of_nat (size count).

(** [*self.sign_count.entry(signer).or_insert(0) += 1] *)
Definition count_signer (count : gmap Z Z) (signer : Z) : gmap Z Z :=
  <[signer := default 0 (count !! signer) + 1]> count.

Definition count_signers (count : gmap Z Z) (signers : list Z) : gmap Z Z := foldl count_signer count signers.

(** The entry of one signer is decremented and purged on zero; a vacant one is a panic, as
    is the decrement of zero. *)
Definition uncount_signer (count : gmap Z Z) (signer : Z) : option (gmap Z Z) :=
  n ← count !! signer;
  n ← usize_sub n 1;
  Some (if n =? 0 then delete signer count else <[signer := n]> count).

Fixpoint uncount_signers (count : gmap Z Z) (signers : list Z) : option (gmap Z Z) :=
  match signers with
  | [] => Some count
  | signer :: signers => count ← uncount_signer count signer; uncount_signers count signers
  end.

Definition any_unknown (l : SimpleList) (signers : list Z) : bool := existsb (fun s => negb (contains l s)) signers.

(** The loop of [push_hash]: headers are popped while too many validators have signed; no
    header left is a panic. *)
Fixpoint pop_finalized (validator_n : Z) (headers : list Signed) (count : gmap Z Z) (newly_finalized : list Z)
    : option (list Signed * gmap Z Z * list Z) :=
  if validator_n <? signed_by count * 2 then
    match headers with
    | [] => None
    | (hash, signers) :: headers =>
        count ← uncount_signers count signers;
        pop_finalized validator_n headers count (newly_finalized ++ [hash])
    end
  else Some (headers, count, newly_finalized).

Definition push_hash (head : Z) (signers : list Z) : M RollingFinality UnknownValidator (list Z) :=
  do rf <- get in
  if any_unknown (rf_signers rf) signers then throw Unknown
  else
    let count := count_signers (rf_sign_count rf) signers in
    let headers := rf_headers rf ++ [(head, signers)] in
    do '(headers, count, newly_finalized) <-
      expect (pop_finalized (zlen (sl_validators (rf_signers rf))) headers count []) in
    modify (fun rf => mkFinality headers (rf_signers rf) count (Some head)) ;;;
    ret newly_finalized.

(** [build_ancestry_subchain]: the ancestry is given from the last block on. *)
Fixpoint take_ancestry (ancestry : list Signed) : M RollingFinality UnknownValidator unit :=
  match ancestry with
  | [] => ret tt
  | (hash, signers) :: ancestry =>
      do rf <- get in
      if any_unknown (rf_signers rf) signers then throw Unknown
      else
        let last_pushed := match rf_last_pushed rf with None => Some hash | p => p end in
        modify (fun rf => mkFinality (rf_headers rf) (rf_signers rf) (rf_sign_count rf) last_pushed) ;;;
        let current_signed := signed_by (rf_sign_count rf) in
        let new_signers := zlen (filter (fun s => rf_sign_count rf !! s = None) signers) in
        let would_be_finalized := zlen (sl_validators (rf_signers rf)) <? (current_signed + new_signers) * 2 in
        if would_be_finalized then ret tt
        else
          modify (fun rf => mkFinality ((hash, signers) :: rf_headers rf) (rf_signers rf)
                              (count_signers (rf_sign_count rf) signers) (rf_last_pushed rf)) ;;;
          take_ancestry ancestry
  end.

Definition build_ancestry_subchain (ancestry : list Signed) : M RollingFinality UnknownValidator unit :=
  modify clear ;;; take_ancestry ancestry.

(** Blocks pushed one after the other, with all that became final. *)
Fixpoint push_all (bs : list Signed) : M RollingFinality UnknownValidator (list Z) :=
  match bs with
  | [] => ret []
  | (head, signers) :: bs =>
      do fin <- push_hash head signers in
      do fins <- push_all bs in
      ret (fin ++ fins)
  end.

(** ** The specification: who has signed a chain of blocks *)

Definition signatures (bs : list Signed) : list Z := mjoin (snd <$> bs).

(** The number of distinct validators that have signed. *)
Definition weight (bs : list Signed) : Z := Z.of_nat (size (list_to_set (signatures bs) : gset Z)).

(** More than half of [n] validators have signed the blocks. *)
Definition majority (n : Z) (bs : list Signed) : Prop := n < weight bs * 2.

#[export] Instance majority_decision n bs : Decision (majority n bs) := Z_lt_dec n (weight bs * 2).

(** The number of times a validator has signed. *)
Definition times (a : Z) (l : list Z) : nat := length (filter (fun b => b = a) l).
