(* ===== verification/FinalityProofs.v ===== *)
(** * Rolling finality: proofs

    The table of signatures counts the signatures of the blocks in the queue ([counts]), and
    the queue is the longest end of the chain without a majority ([cut]). Both ways of
    filling the queue, block by block and from the ancestry of a block, establish it. *)

From Stdlib Require Import ZifyBool.
From S2P Require Import Prelude Finality.
From stdpp Require Import base numbers option list gmap fin_sets.

Open Scope Z_scope.

(** ** Counting signatures *)

Definition counts (count : gmap Z Z) (l : list Z) : Prop :=
  forall a, count !! a = if decide (times a l = 0%nat) then None else Some (Z.of_nat (times a l)).

Lemma times_app a l k : times a (l ++ k) = (times a l + times a k)%nat.
Proof. unfold times. by rewrite filter_app, length_app. Qed.

Lemma times_cons a b l : times a (b :: l) = ((if decide (b = a) then 1 else 0) + times a l)%nat.
Proof. unfold times. rewrite filter_cons. by destruct (decide (b = a)). Qed.

Lemma times_elem a l : times a l = 0%nat <-> a ∉ l.
Proof.
  induction l as [|b l IH]; [split; [set_solver|done]|]. rewrite times_cons, not_elem_of_cons, <- IH.
  destruct (decide (b = a)); split; intros; try lia; naive_solver lia.
Qed.

Lemma counts_ext count l k : (forall a, times a l = times a k) -> counts count l -> counts count k.
Proof. intros H Hc a. by rewrite Hc, H. Qed.

Lemma counts_unique c1 c2 l : counts c1 l -> counts c2 l -> c1 = c2.
Proof. intros H1 H2. apply map_eq. intros a. by rewrite H1, H2. Qed.

Lemma counts_none count l a : counts count l -> count !! a = None <-> a ∉ l.
Proof. intros H. rewrite H, <- times_elem. by case_decide. Qed.

Lemma counts_size count l : counts count l -> signed_by count = Z.of_nat (size (list_to_set l : gset Z)).
Proof.
  intros H. unfold signed_by. rewrite <- size_dom. do 2 f_equal. apply set_eq. intros a.
  rewrite elem_of_list_to_set, elem_of_dom, <- not_eq_None_Some, (counts_none _ _ _ H).
  destruct (decide (a ∈ l)); tauto.
Qed.

Lemma counts_signer count l a : counts count l -> counts (count_signer count a) (a :: l).
Proof.
  intros H b. unfold count_signer. rewrite times_cons. destruct (decide (a = b)) as [->|Hn].
  - rewrite lookup_insert_eq, H. do 2 case_decide; cbn; try lia; f_equal; lia.
  - by rewrite lookup_insert_ne, H.
Qed.

Lemma counts_signers count l signers : counts count l -> counts (count_signers count signers) (l ++ signers).
Proof.
  revert count l. induction signers as [|a signers IH]; intros count l H; [by rewrite app_nil_r|].
  eapply counts_ext; [|apply IH, counts_signer, H]. intros b. rewrite !times_app, !times_cons. lia.
Qed.

Lemma uncount_ok count l a : counts count (a :: l) -> exists count', uncount_signer count a = Some count' /\ counts count' l.
Proof.
  intros H. unfold uncount_signer, usize_sub. assert (Ha := H a). rewrite times_cons, (decide_True (P:=a = a)), decide_False in Ha by (done || lia).
  rewrite Ha. cbn [mbind option_bind]. rewrite (proj2 (Z.leb_le _ _)) by lia. cbn [mbind option_bind]. eexists. split; [reflexivity|]. intros b. specialize (H b).
  destruct (decide (a = b)) as [<-|Hn].
  - case_bool.
    + rewrite lookup_delete_eq, decide_True by lia. done.
    + rewrite lookup_insert_eq, decide_False by lia. f_equal. lia.
  - rewrite times_cons, (decide_False (P:=a = b)) in H by done.
    destruct (_ =? 0); [rewrite lookup_delete_ne by done|rewrite lookup_insert_ne by done]; exact H.
Qed.

Lemma uncounts_ok count l signers : counts count (signers ++ l) ->
  exists count', uncount_signers count signers = Some count' /\ counts count' l.
Proof.
  revert count. induction signers as [|a signers IH]; intros count H; [by eexists|].
  destruct (uncount_ok _ _ _ H) as (count' & E & H'). cbn. rewrite E. cbn. by apply IH.
Qed.

(** ** Where a chain is cut *)

(** [rest] is the longest end of [bs] without a majority. *)
Definition cut (n : Z) (bs fin rest : list Signed) : Prop :=
  bs = fin ++ rest /\ ~ majority n rest /\ forall l1 b l2, fin = l1 ++ b :: l2 -> majority n (b :: l2 ++ rest).

Lemma signatures_app l k : signatures (l ++ k) = signatures l ++ signatures k.
Proof. unfold signatures. by rewrite fmap_app, join_app. Qed.

Lemma weight_mono l k : (forall a, a ∈ signatures l -> a ∈ signatures k) -> weight l <= weight k.
Proof.
  intros H. unfold weight. apply Nat2Z.inj_le, subseteq_size. intros a. rewrite !elem_of_list_to_set. apply H.
Qed.

Lemma majority_mono n l k : (forall a, a ∈ signatures l -> a ∈ signatures k) -> majority n l -> majority n k.
Proof. intros H. unfold majority. pose proof (weight_mono _ _ H). lia. Qed.

Lemma majority_suffix n l k : majority n k -> majority n (l ++ k).
Proof. apply majority_mono. intros a. rewrite signatures_app. set_solver. Qed.

Lemma majority_prefix n l k : majority n l -> majority n (l ++ k).
Proof. apply majority_mono. intros a. rewrite signatures_app. set_solver. Qed.

Lemma majority_nil n : 0 <= n -> ~ majority n [].
Proof. unfold majority, weight. intros Hn. change (list_to_set (signatures []) : gset Z) with (∅ : gset Z). rewrite size_empty. lia. Qed.

Lemma cut_nil n : 0 <= n -> cut n [] [] [].
Proof. intros Hn. split; [done|]. split; [by apply majority_nil|]. intros [|] ? ?; done. Qed.

(** The blocks of the first part are those with a majority from them on. *)
Lemma cut_majority n bs fin rest l1 b l2 : cut n bs fin rest -> bs = l1 ++ b :: l2 ->
  (length l1 < length fin)%nat <-> majority n (b :: l2).
Proof.
  intros (-> & Hr & Hf) E. split.
  - intros Hl. apply app_eq_inv in E as [(k & -> & E)|(k & -> & E)].
    + destruct k as [|x k]; [rewrite app_nil_r in Hl; lia|]. injection E as -> ->. by apply (Hf l1).
    + rewrite length_app in Hl. lia.
  - intros Hm. destruct (decide (length l1 < length fin)%nat) as [|Hl]; [done|]. exfalso. apply Hr.
    apply app_eq_inv in E as [(k & -> & E)|(k & -> & ->)]; [|by apply majority_suffix].
    destruct k as [|x k]; [by cbn in E; rewrite <- E|]. rewrite length_app in Hl. cbn in Hl. lia.
Qed.

Lemma cut_length n bs fin rest fin' rest' : cut n bs fin rest -> cut n bs fin' rest' -> (length fin <= length fin')%nat.
Proof.
  intros H H'. destruct (decide (length fin <= length fin')%nat) as [|Hl]; [done|]. exfalso.
  destruct H as (-> & Hr & Hf). destruct H' as (E & Hr' & _).
  apply app_eq_inv in E as [(k & -> & ->)|(k & -> & ->)]; [|rewrite length_app in Hl; lia].
  destruct k as [|x k]; [rewrite app_nil_r in Hl; lia|]. apply Hr'. apply (Hf fin' x k eq_refl).
Qed.

Lemma cut_unique n bs fin rest fin' rest' : cut n bs fin rest -> cut n bs fin' rest' -> fin = fin' /\ rest = rest'.
Proof.
  intros H H'. assert (length fin = length fin')
    by (apply Nat.le_antisymm; [eapply cut_length; [exact H|exact H']|eapply cut_length; [exact H'|exact H]]).
  destruct H as (-> & _), H' as (E & _). by apply app_inj_1 in E.
Qed.

(** What is cut off before a block is pushed stays cut off. *)
Lemma cut_app n bs fin rest k fin' rest' : cut n bs fin rest -> cut n (rest ++ k) fin' rest' ->
  cut n (bs ++ k) (fin ++ fin') rest'.
Proof.
  intros (-> & _ & Hf) (E & Hr' & Hf'). split; [by rewrite <- !app_assoc, E|]. split; [done|]. intros l1 b l2 El.
  apply app_eq_inv in El as [(j & -> & El)|(j & -> & ->)]; [|by apply (Hf' j)].
  destruct j as [|x j]; [exact (Hf' [] b l2 (eq_sym El))|]. injection El as -> ->.
  rewrite <- app_assoc, <- E, app_comm_cons, app_assoc, <- app_comm_cons. by apply majority_prefix, (Hf l1).
Qed.

(** ** Pushing blocks *)

Lemma majority_counts n count hs : counts count (signatures hs) ->
  (n <? signed_by count * 2) = bool_decide (majority n hs).
Proof.
  intros Hc. rewrite (counts_size _ _ Hc). fold (weight hs). unfold majority in *. case_bool_decide; lia.
Qed.

Lemma pop_finalized_ok n hs count acc : 0 <= n -> counts count (signatures hs) -> exists fin rest count',
  pop_finalized n hs count acc = Some (rest, count', acc ++ fin.*1) /\ cut n hs fin rest /\ counts count' (signatures rest).
Proof.
  intros Hn. revert count acc. induction hs as [|[hash signers] hs IH]; intros count acc Hc.
  - cbn. rewrite (majority_counts _ _ [] Hc), bool_decide_false by (by apply majority_nil).
    exists [], [], count. cbn. rewrite app_nil_r. split_and!; [done|by apply cut_nil|done].
  - cbn [pop_finalized]. rewrite (majority_counts _ _ _ Hc). case_bool_decide as Hm.
    + destruct (uncounts_ok count (signatures hs) signers Hc) as (count1 & -> & Hc1).
      destruct (IH count1 (acc ++ [hash]) Hc1) as (fin & rest & count' & E & (-> & Hr & Hf) & Hc').
      exists ((hash, signers) :: fin), rest, count'. cbn [mbind option_bind]. rewrite E. cbn [fmap list_fmap fst].
      split_and!; [by rewrite <- app_assoc| |done]. split; [done|]. split; [done|].
      intros [|x l1] b l2 El; injection El as <- ->; [done|]. by apply (Hf l1).
    + exists [], ((hash, signers) :: hs), count. cbn. rewrite app_nil_r. split_and!; [done| |done].
      split; [done|]. split; [done|]. intros [|] ? ?; done.
Qed.

(** The queue after the blocks [bs], of which [fin] are final. *)
Record rolled (vs : list Z) (bs fin : list Signed) (rf : RollingFinality) : Prop := {
  ro_signers : rf_signers rf = mkSimpleList vs;
  ro_cut : cut (zlen vs) bs fin (rf_headers rf);
  ro_counts : counts (rf_sign_count rf) (signatures (rf_headers rf));
  ro_last : rf_last_pushed rf = fst <$> last bs;
}.

Definition signed_by_validators (vs : list Z) (bs : list Signed) : Prop :=
  Forall (fun b => forall a, a ∈ snd b -> a ∈ vs) bs.

Lemma any_unknown_false vs signers : (forall a, a ∈ signers -> a ∈ vs) -> any_unknown (mkSimpleList vs) signers = false.
Proof.
  intros H. unfold any_unknown. apply not_true_iff_false. rewrite existsb_exists. intros (a & Ha & Hn).
  unfold contains in Hn. rewrite bool_decide_true in Hn; [done|]. apply H. by apply list_elem_of_In.
Qed.

Lemma counts_nil : counts ∅ [].
Proof. intros a. by rewrite lookup_empty. Qed.

Lemma blank_rolled vs : rolled vs [] [] (blank vs).
Proof. split; [done|apply cut_nil; unfold zlen; lia|apply counts_nil|done]. Qed.

Lemma push_ok vs bs fin rf head signers : rolled vs bs fin rf -> (forall a, a ∈ signers -> a ∈ vs) ->
  exists fin' rf', push_hash head signers rf = Ret fin'.*1 rf' /\ rolled vs (bs ++ [(head, signers)]) (fin ++ fin') rf'.
Proof.
  intros [Es Hcut Hc Hl] Hk. unfold push_hash, bind, get. rewrite Es, (any_unknown_false _ _ Hk). cbn [sl_validators].
  destruct (pop_finalized_ok (zlen vs) (rf_headers rf ++ [(head, signers)]) (count_signers (rf_sign_count rf) signers) [])
    as (fin' & rest & count' & -> & Hcut' & Hc').
  { unfold zlen. lia. }
  { rewrite signatures_app. unfold signatures at 2. cbn. rewrite app_nil_r. by apply counts_signers. }
  cbn. exists fin'. eexists. split; [reflexivity|]. split; cbn; [done| |done|].
  - by apply cut_app with (rf_headers rf).
  - by rewrite last_snoc.
Qed.

Lemma push_all_ok vs bs fin rf bs' : rolled vs bs fin rf -> signed_by_validators vs bs' ->
  exists fin' rf', push_all bs' rf = Ret fin'.*1 rf' /\ rolled vs (bs ++ bs') (fin ++ fin') rf'.
Proof.
  revert bs fin rf. induction bs' as [|[head signers] bs' IH]; intros bs fin rf H Hv.
  - exists [], rf. by rewrite !app_nil_r.
  - apply Forall_cons in Hv as [Hk Hv]. destruct (push_ok _ _ _ _ head signers H Hk) as (fin1 & rf1 & E1 & H1).
    destruct (IH _ _ _ H1 Hv) as (fin2 & rf2 & E2 & H2). exists (fin1 ++ fin2), rf2. cbn. unfold bind.
    rewrite E1, E2. unfold ret. by rewrite fmap_app, app_assoc, cons_middle, app_assoc.
Qed.

Lemma rolled_unique vs bs fin rf fin' rf' : rolled vs bs fin rf -> rolled vs bs fin' rf' -> fin = fin' /\ rf = rf'.
Proof.
  intros [Es Hcut Hc Hl] [Es' Hcut' Hc' Hl']. destruct (cut_unique _ _ _ _ _ _ Hcut Hcut') as [-> Eh]. split; [done|].
  destruct rf, rf'. cbn in *. subst. f_equal. by eapply counts_unique.
Qed.

(** ** The ancestry of a block *)

Lemma new_signers_size count l signers : counts count l -> NoDup signers ->
  signed_by count + zlen (filter (fun s => count !! s = None) signers) =
  Z.of_nat (size (list_to_set (signers ++ l) : gset Z)).
Proof.
  intros Hc Hd. rewrite (counts_size _ _ Hc), list_to_set_app_L. unfold zlen. rewrite <- Nat2Z.inj_add. f_equal.
  rewrite union_comm_L, size_union_alt. f_equal. rewrite <- (size_list_to_set (C:=gset Z) (filter _ signers)) by by apply NoDup_filter.
  apply set_size_proper. intros a. rewrite elem_of_difference, !elem_of_list_to_set, list_elem_of_filter, (counts_none _ _ _ Hc). tauto.
Qed.

(** A part that ends in a block with a majority has one. *)
Lemma majority_ends n x pre hs l1 b l2 : majority n (x :: hs) -> pre ++ [x] = l1 ++ b :: l2 -> majority n (b :: l2 ++ hs).
Proof.
  intros Hm E. destruct l2 as [|y l2 _] using rev_ind.
  - by apply app_inj_tail in E as [_ ->].
  - rewrite app_comm_cons, app_assoc in E. apply app_inj_tail in E as [_ ->].
    rewrite <- app_assoc, app_comm_cons. by apply majority_suffix.
Qed.

Lemma ancestry_ok vs pre hs count last_pushed : signed_by_validators vs pre -> Forall (fun b => NoDup (snd b)) pre ->
  counts count (signatures hs) -> ~ majority (zlen vs) hs -> exists fin rest count',
  take_ancestry (reverse pre) (mkFinality hs (mkSimpleList vs) count last_pushed) =
    Ret tt (mkFinality rest (mkSimpleList vs) count' (match last_pushed with None => fst <$> last pre | p => p end)) /\
  cut (zlen vs) (pre ++ hs) fin rest /\ counts count' (signatures rest).
Proof.
  revert hs count last_pushed. induction pre as [|[hash signers] pre IH] using rev_ind; intros hs count lp Hv Hd Hc Hm.
  - exists [], hs, count. split_and!; [by destruct lp| |done]. split; [done|]. split; [done|]. intros [|] ? ?; done.
  - apply Forall_app in Hv as [Hv [Hk _]%Forall_cons], Hd as [Hd [Hd1 _]%Forall_cons]. cbn in Hk, Hd1.
    rewrite reverse_snoc, last_snoc. cbn [take_ancestry]. unfold bind, get. cbn.
    rewrite (any_unknown_false _ _ Hk). cbn. rewrite (new_signers_size _ _ _ Hc Hd1).
    change (list_to_set (signers ++ signatures hs)) with (list_to_set (signatures ((hash, signers) :: hs)) : gset Z).
    fold (weight ((hash, signers) :: hs)). destruct (_ <? _) eqn:Em.
    + apply Z.ltb_lt in Em. exists (pre ++ [(hash, signers)]), hs, count. split_and!; [by destruct lp| |done].
      split; [by rewrite <- app_assoc|]. split; [done|]. intros l1 b l2 E. by apply (majority_ends _ (hash, signers) pre hs l1).
    + apply Z.ltb_ge in Em.
      destruct (IH ((hash, signers) :: hs) (count_signers count signers) (match lp with None => Some hash | p => p end))
        as (fin & rest & count' & E & Hcut & Hc'); [done|done| |unfold majority; lia|].
      { eapply counts_ext; [|by apply counts_signers]. intros a.
        change (signatures ((hash, signers) :: hs)) with (signers ++ signatures hs). rewrite !times_app. lia. }
      exists fin, rest, count'. split_and!; [destruct lp; exact E|by rewrite <- app_assoc|done].
Qed.

Lemma build_ok vs bs rf : rf_signers rf = mkSimpleList vs -> signed_by_validators vs bs -> Forall (fun b => NoDup (snd b)) bs ->
  exists fin rf', build_ancestry_subchain (reverse bs) rf = Ret tt rf' /\ rolled vs bs fin rf'.
Proof.
  intros Es Hv Hd. destruct (ancestry_ok vs bs [] ∅ None) as (fin & rest & count' & E & Hcut & Hc'); [done|done|apply counts_nil|
    apply majority_nil; unfold zlen; lia|].
  rewrite app_nil_r in Hcut. exists fin, (mkFinality rest (mkSimpleList vs) count' (fst <$> last bs)). split; [|split; [|exact Hcut|exact Hc'|]]; [|done|done].
  unfold build_ancestry_subchain, bind, modify, clear. rewrite Es. exact E.
Qed.

(** ** Theorems *)

(** C17: Blocks signed by validators, pushed one after the other onto a blank checker: no push
    fails or panics; the blocks reported as final are, in order and each once, exactly
    those that more than half of the validators have signed, themselves or in a later block;
    the queue holds the others. *)
Theorem finality_by_majority vs bs : signed_by_validators vs bs -> exists fin rf,
  push_all bs (blank vs) = Ret fin.*1 rf /\ bs = fin ++ rf_headers rf /\
  forall l1 b l2, bs = l1 ++ b :: l2 -> (length l1 < length fin)%nat <-> majority (zlen vs) (b :: l2).
Proof.
  intros Hv. destruct (push_all_ok vs [] [] (blank vs) bs (blank_rolled vs) Hv) as (fin & rf & E & [_ Hcut _ _]).
  exists fin, rf. split_and!; [done|apply Hcut|]. intros l1 b l2. by apply cut_majority with (rf_headers rf).
Qed.

Lemma finality_by_majority_witness : exists (fin : list Signed) rf,
  push_all [(10, [1]); (11, [2]); (12, [1]); (13, [3])] (blank [1; 2; 3]) = Ret fin.*1 rf /\
  fin.*1 = [10; 11; 12] /\ majority 3 [(12, [1]); (13, [3])] /\ ~ majority 3 [(13, [3])].
Proof.
  destruct (finality_by_majority [1; 2; 3] [(10, [1]); (11, [2]); (12, [1]); (13, [3])]) as (fin & rf & E & Hs & Hm).
  { repeat (apply Forall_cons; split; [cbn; set_solver|]). by apply Forall_nil. }
  exists fin, rf. split; [exact E|]. vm_compute in E. split; [by injection E|]. split; vm_compute; done.
Defined.

(** C18: Rebuilding the queue from the ancestry of a block, from the newest block on, gives
    the state that pushing the same blocks gives, whatever the checker held before, if no
    list of signers has a repetition. *)
Theorem rebuilding_agrees vs bs rf : rf_signers rf = mkSimpleList vs -> signed_by_validators vs bs ->
  Forall (fun b => NoDup (snd b)) bs -> exists fin rf',
  push_all bs (blank vs) = Ret fin rf' /\ build_ancestry_subchain (reverse bs) rf = Ret tt rf'.
Proof.
  intros Es Hv Hd. destruct (push_all_ok vs [] [] (blank vs) bs (blank_rolled vs) Hv) as (fin & rf1 & E1 & H1).
  destruct (build_ok vs bs rf Es Hv Hd) as (fin' & rf2 & E2 & H2).
  destruct (rolled_unique _ _ _ _ _ _ H1 H2) as [_ <-]. by exists fin.*1, rf1.
Qed.

Lemma rebuilding_agrees_witness : exists fin rf,
  push_all [(10, [1]); (11, [2]); (12, [3; 1])] (blank [1; 2; 3; 4; 5]) = Ret fin rf /\
  build_ancestry_subchain [(12, [3; 1]); (11, [2]); (10, [1])] (blank [1; 2; 3; 4; 5]) = Ret tt rf /\
  fin = [10; 11] /\ subchain_head rf = Some 12.
Proof.
  destruct (rebuilding_agrees [1; 2; 3; 4; 5] [(10, [1]); (11, [2]); (12, [3; 1])] (blank [1; 2; 3; 4; 5])) as (fin & rf & E1 & E2).
  - done.
  - repeat (apply Forall_cons; split; [cbn; set_solver|]). by apply Forall_nil.
  - by apply (bool_decide_unpack _).
  - exists fin, rf. split; [exact E1|]. split; [exact E2|]. vm_compute in E1. by injection E1 as <- <-.
Defined.

Lemma majority_single n hash v : majority n [(hash, [v])] <-> n < 2.
Proof. unfold majority, weight. cbn. rewrite union_empty_r_L, size_singleton. lia. Qed.

Lemma weight_two hash next v w : v <> w -> weight [(hash, [v; v]); (next, [w])] = 2.
Proof.
  intros Hn. unfold weight. replace (list_to_set _) with ({[v]} ∪ {[w]} : gset Z) by (cbn; set_solver).
  by rewrite size_union, !size_singleton by set_solver.
Qed.

Lemma signed_by_one w : signed_by (count_signers ∅ [w]) = 1.
Proof. unfold signed_by, count_signers, count_signer. cbn [foldl]. by rewrite map_size_insert_None, map_size_empty by apply lookup_empty. Qed.

(** C39: Rebuilding counts a validator that appears twice in a list of signers twice: with
    three validators, a block signed by one of them and nobody else is taken for final when
    the queue is rebuilt. It is dropped from the queue and never reported as final, while
    the checker that was kept up block by block reports it once a second validator signs. *)
Theorem repeated_signer_drops_block v w u hash next : v <> w ->
  (exists rf, push_all [(hash, [v; v]); (next, [w])] (blank [v; w; u]) = Ret [hash] rf) /\
  exists rf rf', build_ancestry_subchain [(hash, [v; v])] (blank [v; w; u]) = Ret tt rf /\ rf_headers rf = [] /\
    push_hash next [w] rf = Ret [] rf'.
Proof.
  intros Hn. split.
  - destruct (push_all_ok [v; w; u] [] [] (blank [v; w; u]) [(hash, [v; v]); (next, [w])] (blank_rolled _)) as (fin & rf & E & [_ Hcut _ _]).
    { repeat (apply Forall_cons; split; [cbn; set_solver|]). by apply Forall_nil. }
    exists rf. rewrite E. cbn [app] in Hcut. destruct (cut_unique _ _ _ _ [(hash, [v; v])] [(next, [w])] Hcut) as [-> _]; [|done].
    split; [done|]. split.
    + rewrite majority_single. unfold zlen. cbn. lia.
    + intros [|? [|]] b l2 El; try done. injection El as <- <-. unfold majority. cbn [app]. rewrite weight_two by done. unfold zlen. cbn. lia.
  - eexists _, _. split; [|split].
    + unfold build_ancestry_subchain, bind, modify. cbn [take_ancestry]. unfold bind, get, clear, blank. cbn [rf_signers].
      rewrite any_unknown_false by set_solver. reflexivity.
    + done.
    + unfold push_hash, bind, get. cbn [rf_signers]. rewrite any_unknown_false by set_solver.
      cbn [rf_sign_count rf_headers app pop_finalized]. rewrite signed_by_one. reflexivity.
Qed.

Lemma repeated_signer_drops_block_witness : 1 <> 2 /\
  exists rf rf', build_ancestry_subchain [(10, [1; 1])] (blank [1; 2; 3]) = Ret tt rf /\ rf_headers rf = [] /\
    push_hash 11 [2] rf = Ret [] rf'.
Proof. split; [done|]. exact (proj2 (repeated_signer_drops_block 1 2 3 10 11 ltac:(done))). Defined.
