(* ===== verification/Equihash.v ===== *)
(** * Equihash

    [equihash/src/equihash.rs]: the verification of a solution, with the compressed form of
    its indices, and the targets of [equihash/src/lib.rs]. Arrays are byte vectors that the
    code slices and writes in place; an index out of range and slices of different lengths
    in [copy_from_slice] are panics, [None]. Blake2b is a parameter. *)

From Stdlib Require Import ZifyBool.
From S2P Require Import Prelude.
From stdpp Require Import base numbers option list.

Open Scope Z_scope.

(** ** Parameters *)

Record Equihash : Type := mkEquihash {
  N : Z;
  K : Z;
  BLAKE2B_PERSONALIZATION : bytes;
  SOLUTION_PREFIX : bytes;
}.

Definition BSTRS_PER_HASH (alg : Equihash) : Z := 512 / N alg.
Definition HASH_SIZE (alg : Equihash) : Z := BSTRS_PER_HASH alg * N alg / 8.
Definition BSTR_INDEX_BITS (alg : Equihash) : Z := N alg / (K alg + 1).
Definition BSTR_INDEX_BYTES (alg : Equihash) : Z := (BSTR_INDEX_BITS alg + 7) / 8.
Definition BSTR_INDICES_IN_SOLUTION (alg : Equihash) : Z := Z.shiftl 1 (K alg).
Definition SOLUTION_COMPRESSED_SIZE (alg : Equihash) : Z := BSTR_INDICES_IN_SOLUTION alg * (BSTR_INDEX_BITS alg + 1) / 8.
Definition SOLUTION_PAD_BYTES (alg : Equihash) : Z := 4 - (BSTR_INDEX_BITS alg + 8) / 8.
Definition ROW_SIZE (alg : Equihash) : Z := 2 * BSTR_INDEX_BYTES alg + 4 * BSTR_INDICES_IN_SOLUTION alg.
Definition ROW_HASH_LENGTH (alg : Equihash) : Z := (K alg + 1) * BSTR_INDEX_BYTES alg.

Definition OnChainEquihash : Equihash := mkEquihash 192 7
  [0x4f; 0x72; 0x69; 0x67; 0x6f; 0x50; 0x6f; 0x57; 0xc0; 0; 0; 0; 7; 0; 0; 0] [0xfd; 0x90; 0x01].

Definition HSIZE : Z := 48.

(** [Blake2b]: size of the digest, personalization and data. *)
Class Blake2b : Type := blake2b : Z -> bytes -> bytes -> bytes.

Class Blake2bLaws (B : Blake2b) : Prop := {
  blake2b_len size personal data : 0 <= size <= 64 -> zlen (blake2b size personal data) = size;
  blake2b_bytes size personal data : is_bytes (blake2b size personal data);
}.

(** ** Arrays of numbers of any width *)

Section ExpandArray.
Context {St : Type} (expand_single : bytes -> St -> option St).

(** The bytes [x] of [pad..out_width] of the next element, in the buffer. *)
Definition expand_byte (blen out_width acc_bits acc_value x : Z) : Z :=
  let blen_mask := Z.shiftl 1 blen - 1 in
  Z.land (Z.shiftr acc_value (acc_bits + 8 * (out_width - x - 1)) mod 256)
    (Z.land (Z.shiftr blen_mask (8 * (out_width - x - 1))) 0xFF).

Fixpoint expand_bytes (n : nat) (blen out_width acc_bits acc_value x : Z) (acc_buffer : bytes) : option bytes :=
  match n with
  | O => Some acc_buffer
  | S n =>
      acc_buffer ← vec_write acc_buffer x [expand_byte blen out_width acc_bits acc_value x];
      expand_bytes n blen out_width acc_bits acc_value (x + 1) acc_buffer
  end.

(** The loop over the compressed bytes. [acc_value << 8] drops the bits above 32. *)
Fixpoint expand_loop (blen pad : Z) (compressed acc_buffer : bytes) (acc_bits acc_value : Z) (st : St) : option St :=
  match compressed with
  | [] => Some st
  | b :: compressed =>
      let out_width := (blen + 7) / 8 + pad in
      let acc_value := Z.lor (Z.shiftl acc_value 8 mod 2 ^ 32) b in
      let acc_bits := acc_bits + 8 in
      if blen <=? acc_bits then
        let acc_bits := acc_bits - blen in
        acc_buffer ← expand_bytes (Z.to_nat (out_width - pad)) blen out_width acc_bits acc_value pad acc_buffer;
        st ← expand_single acc_buffer st;
        expand_loop blen pad compressed acc_buffer acc_bits acc_value st
      else expand_loop blen pad compressed acc_buffer acc_bits acc_value st
  end.

Definition expand_array (compressed : bytes) (blen pad : Z) (st : St) : option St :=
  expand_loop blen pad compressed [0; 0; 0; 0] 0 0 st.

End ExpandArray.

(** [u32::from_be_bytes] of every element; the length is asserted in debug builds only. *)
Definition for_each_solution_index {St} (alg : Equihash) (solution : bytes) (for_each : Z -> St -> option St) (st : St) : option St :=
  expand_array (fun buffer => for_each (be_value buffer)) solution (BSTR_INDEX_BITS alg + 1) (SOLUTION_PAD_BYTES alg) st.

(** The bytes of the next element, [data[j + x]] for [x] in [byte_pad..in_width]. *)
Fixpoint compress_element (n : nat) (data : bytes) (bit_len in_width j x acc_value : Z) : option Z :=
  match n with
  | O => Some acc_value
  | S n =>
      d ← vec_get data (j + x);
      let mask := Z.land (Z.shiftr (Z.shiftl 1 bit_len - 1) (8 * (in_width - x - 1))) 0xFF in
      let acc_value := Z.lor acc_value (Z.shiftl (Z.land d mask) (8 * (in_width - x - 1)) mod 2 ^ 32) in
      compress_element n data bit_len in_width j (x + 1) acc_value
  end.

(** [compress_array]: [n] is the number of bytes of the array that are still to be written. *)
Fixpoint compress_loop (n : nat) (data : bytes) (bit_len byte_pad acc_bits acc_value j : Z) : option bytes :=
  match n with
  | O => Some []
  | S n =>
      let in_width := (bit_len + 7) / 8 + byte_pad in
      '(acc_bits, acc_value, j) ←
        (if acc_bits <? 8 then
           acc_value ← compress_element (Z.to_nat (in_width - byte_pad)) data bit_len in_width j byte_pad
                         (Z.shiftl acc_value bit_len mod 2 ^ 32);
           Some (acc_bits + bit_len, acc_value, j + in_width)
         else Some (acc_bits, acc_value, j));
      let acc_bits := acc_bits - 8 in
      rest ← compress_loop n data bit_len byte_pad acc_bits acc_value j;
      Some (Z.land (Z.shiftr acc_value acc_bits) 0xFF :: rest)
  end.

Definition compress_array (data : bytes) (len bit_len byte_pad : Z) : option bytes :=
  compress_loop (Z.to_nat len) data bit_len byte_pad 0 0 0.

Definition copy_from_u32 (alg : Equihash) (indices : list Z) : option bytes :=
  let collision_bit_length := BSTR_INDEX_BITS alg in
  let indices_len := zlen indices * 4 in
  let min_len := (collision_bit_length + 1) * indices_len / (8 * 4) in
  let byte_pad := 4 - ((collision_bit_length + 1) + 7) / 8 in
  compress_array (mjoin (be_bytes 4 <$> indices)) min_len (collision_bit_length + 1) byte_pad.

(** ** Rows *)

Fixpoint has_collision_from (n : nat) (row1 row2 : bytes) (i : Z) : option bool :=
  match n with
  | O => Some true
  | S n =>
      a ← vec_get row1 i; b ← vec_get row2 i;
      if negb (a =? b) then Some false else has_collision_from n row1 row2 (i + 1)
  end.

Definition has_collision (row1 row2 : bytes) (collision_byte_length : Z) : option bool :=
  has_collision_from (Z.to_nat collision_byte_length) row1 row2 0.

Fixpoint indices_before_from (n : nat) (row1 row2 : bytes) (len i : Z) : option bool :=
  match n with
  | O => Some false
  | S n =>
      a ← vec_get row1 (len + i); b ← vec_get row2 (len + i);
      if a <? b then Some true
      else if b <? a then Some false
      else indices_before_from n row1 row2 len (i + 1)
  end.

Definition indices_before (row1 row2 : bytes) (len indices_len : Z) : option bool :=
  indices_before_from (Z.to_nat indices_len) row1 row2 len 0.

(** The inner loop of [distinct_indices], which leaves [j] where it stopped; [None] in the
    pair is an early [return false]. *)
Fixpoint distinct_inner (fuel : nat) (row1 row2 : bytes) (len indices_len i j : Z) : option (option Z) :=
  if j <? indices_len then
    match fuel with
    | O => None
    | S fuel =>
        a ← vec_slice row1 (len + i) (len + i + 4); b ← vec_slice row2 (len + j) (len + j + 4);
        if bool_decide (a = b) then Some None else distinct_inner fuel row1 row2 len indices_len i (j + 4)
    end
  else Some (Some j).

Fixpoint distinct_outer (fuel : nat) (row1 row2 : bytes) (len indices_len i j : Z) : option bool :=
  if i <? indices_len then
    match fuel with
    | O => None
    | S fuel =>
        r ← distinct_inner (Z.to_nat indices_len) row1 row2 len indices_len i j;
        match r with
        | None => Some false
        | Some j => distinct_outer fuel row1 row2 len indices_len (i + 4) j
        end
    end
  else Some true.

Definition distinct_indices (row1 row2 : bytes) (len indices_len : Z) : option bool :=
  distinct_outer (Z.to_nat indices_len) row1 row2 len indices_len 0 0.

Fixpoint merge_hashes (n : nat) (row1 row2 merged_row : bytes) (i merged_row_pos : Z) : option bytes :=
  match n with
  | O => Some merged_row
  | S n =>
      a ← vec_get row1 i; b ← vec_get row2 i;
      merged_row ← vec_write merged_row merged_row_pos [Z.lxor a b];
      merge_hashes n row1 row2 merged_row (i + 1) (merged_row_pos + 1)
  end.

(** The part of [merge_rows] that writes the indices of two rows one after the other. *)
Definition write_indices (first second merged_row : bytes) (len indices_len trim : Z) : option bytes :=
  a ← vec_slice first len (len + indices_len);
  merged_row ← vec_write merged_row (len - trim) a;
  b ← vec_slice second len (len + indices_len);
  vec_write merged_row (len - trim + indices_len) b.

Definition merge_rows (row1 row2 merged_row : bytes) (len indices_len trim : Z) : option bytes :=
  merged_row ← merge_hashes (Z.to_nat (len - trim)) row1 row2 merged_row trim 0;
  before ← indices_before row1 row2 len indices_len;
  if (before : bool) then write_indices row1 row2 merged_row len indices_len trim
  else write_indices row2 row1 merged_row len indices_len trim.

(** ** Verification *)

Section Verify.
Context {B : Blake2b} (alg : Equihash).

(** [generate_hash] with the context of the input: little-endian index, digest into a
    buffer of [HSIZE] bytes. *)
Definition generate_hash (input : bytes) (index : Z) : option bytes :=
  let digest := blake2b (HASH_SIZE alg) (BLAKE2B_PERSONALIZATION alg) (input ++ reverse (be_bytes 4 index)) in
  if zlen digest =? HSIZE then Some digest else None.

(** The closure that fills the row of the next index. *)
Definition fill_row (input : bytes) (index : Z) (st : bytes * Z) : option (bytes * Z) :=
  let '(current_rows, current_rows_pos) := st in
  let hash_half_index := index / BSTRS_PER_HASH alg in
  hash ← generate_hash input hash_half_index;
  let hash_begin := index mod BSTRS_PER_HASH alg * N alg / 8 in
  let hash_end := hash_begin + N alg / 8 in
  sub_hash ← vec_slice hash hash_begin hash_end;
  '(current_rows, _) ← expand_array (fun buffer '(current_rows, current_rows_sub_pos) =>
      element ← vec_slice buffer 0 (BSTR_INDEX_BYTES alg);
      current_rows ← vec_write current_rows current_rows_sub_pos element;
      Some (current_rows, current_rows_sub_pos + BSTR_INDEX_BYTES alg))
    sub_hash (BSTR_INDEX_BITS alg) 0 (current_rows, current_rows_pos);
  current_rows ← vec_write current_rows (current_rows_pos + ROW_HASH_LENGTH alg) (be_bytes 4 index);
  Some (current_rows, current_rows_pos + ROW_SIZE alg).

(** The pairs of one level, from the rows that begin at the given positions on, merged into
    the backup rows; [Some None] is [return false]. *)
Fixpoint merge_pairs (n : nat) (current_rows backup_rows : bytes)
    (current_row_begin next_row_begin merged_row_begin hash_len indices_len : Z) : option (option bytes) :=
  match n with
  | O => Some (Some backup_rows)
  | S n =>
      row1 ← vec_slice current_rows current_row_begin (current_row_begin + ROW_SIZE alg);
      row2 ← vec_slice current_rows next_row_begin (next_row_begin + ROW_SIZE alg);
      collision ← has_collision row1 row2 (BSTR_INDEX_BYTES alg);
      if negb collision then Some None
      else
        before ← indices_before row2 row1 hash_len indices_len;
        if (before : bool) then Some None
        else
          distinct ← distinct_indices row1 row2 hash_len indices_len;
          if negb distinct then Some None
          else
            merged_row ← vec_slice backup_rows merged_row_begin (merged_row_begin + ROW_SIZE alg);
            merged_row ← merge_rows row1 row2 merged_row hash_len indices_len (BSTR_INDEX_BYTES alg);
            backup_rows ← vec_write backup_rows merged_row_begin merged_row;
            merge_pairs n current_rows backup_rows (current_row_begin + ROW_SIZE alg + ROW_SIZE alg)
              (next_row_begin + ROW_SIZE alg + ROW_SIZE alg) (merged_row_begin + ROW_SIZE alg) hash_len indices_len
  end.

(** The levels; the two vectors are swapped after each. *)
Fixpoint merge_levels (fuel : nat) (current_rows backup_rows : bytes) (hash_len indices_len current_rows_count : Z)
    : option (option (bytes * Z)) :=
  if current_rows_count <=? 1 then Some (Some (current_rows, hash_len))
  else
    match fuel with
    | O => None
    | S fuel =>
        merged ← merge_pairs (Z.to_nat (current_rows_count / 2)) current_rows backup_rows 0 (ROW_SIZE alg) 0 hash_len indices_len;
        match merged with
        | None => Some None
        | Some backup_rows =>
            hash_len ← usize_sub hash_len (BSTR_INDEX_BYTES alg);
            merge_levels fuel backup_rows current_rows hash_len (indices_len * 2) (current_rows_count / 2)
        end
    end.

Definition verify_equihash_solution (input solution : bytes) : option bool :=
  let rows1 := replicate (Z.to_nat (BSTR_INDICES_IN_SOLUTION alg * ROW_SIZE alg)) 0 in
  let rows2 := replicate (Z.to_nat (BSTR_INDICES_IN_SOLUTION alg * ROW_SIZE alg / 2)) 0 in
  '(current_rows, _) ← for_each_solution_index alg solution (fill_row input) (rows1, 0);
  let current_rows_count := zlen current_rows / ROW_SIZE alg in
  merged ← merge_levels (Z.to_nat current_rows_count) current_rows rows2 (ROW_HASH_LENGTH alg) 4 current_rows_count;
  match merged with
  | None => Some false
  | Some (current_rows, hash_len) =>
      row ← vec_slice current_rows 0 (ROW_SIZE alg);
      Some (forallb (fun x => x =? 0) (take (Z.to_nat hash_len) row))
  end.

End Verify.

(** ** Targets *)

(** [difficulty_to_boundary_aux]: zero fails the assertion. *)
Definition difficulty_to_boundary_aux (difficulty : Z) : option Z :=
  if difficulty =? 0 then None
  else Some (if difficulty =? 1 then U256_MOD - 1 else U256_MOD / difficulty).

Definition difficulty_to_boundary (difficulty : Z) : option Z := difficulty_to_boundary_aux difficulty.
Definition boundary_to_difficulty (boundary : Z) : option Z := difficulty_to_boundary_aux boundary.
