(* ===== verification/EquihashBits.v ===== *)
(** * Compressed arrays

    [expand_array] and [compress_array] convert between bytes and numbers of [blen] bits.
    Both keep the value: the bytes are the digits in base 256 of the number whose digits in
    base [2 ^ blen] are the elements. *)

From Stdlib Require Import ZifyBool.
From S2P Require Import Prelude Equihash.
From stdpp Require Import base numbers option list.

Open Scope Z_scope.

(** ** Digits *)

Definition digits_value (base : Z) (l : list Z) : Z := foldl (fun acc d => acc * base + d) 0 l.

Definition are_digits (base : Z) (l : list Z) : Prop := Forall (fun d => 0 <= d < base) l.

Lemma digits_snoc base l d : digits_value base (l ++ [d]) = digits_value base l * base + d.
Proof. unfold digits_value. by rewrite foldl_app. Qed.

Lemma digits_cons base d l : digits_value base (d :: l) = d * base ^ zlen l + digits_value base l.
Proof.
  induction l as [|e l IH] using rev_ind; [unfold digits_value, zlen; cbn; lia|].
  rewrite app_comm_cons, !digits_snoc, IH. unfold zlen. rewrite length_app, Nat2Z.inj_add, Z.pow_add_r by lia.
  cbn [length]. change (Z.of_nat 1) with 1. rewrite Z.pow_1_r. ring.
Qed.

Lemma digits_unique base l k : 0 < base -> are_digits base l -> are_digits base k -> length l = length k ->
  digits_value base l = digits_value base k -> l = k.
Proof.
  intros Hb. revert k. induction l as [|d l IH] using rev_ind; intros k Hl Hk Hn Hv.
  - by destruct k.
  - destruct k as [|e k _] using rev_ind; [rewrite length_app in Hn; cbn in Hn; lia|].
    apply Forall_app in Hl as [Hl [Hd _]%Forall_cons], Hk as [Hk [He _]%Forall_cons].
    rewrite !length_app in Hn. rewrite !digits_snoc in Hv. cbn in Hn.
    destruct (Z.div_mod_unique base (digits_value base l) (digits_value base k) d e) as [Hq ->]; [lia|lia|lia|].
    f_equal. apply IH; [done|done|lia|done].
Qed.

Lemma be_value_cons b l : be_value (b :: l) = b * 256 ^ zlen l + be_value l.
Proof. change (b :: l) with ([b] ++ l). rewrite be_value_app. unfold be_value at 1. cbn. lia. Qed.

Lemma pow_succ_len {A} b (l : list A) : b ^ (1 + zlen l) = b * b ^ zlen l.
Proof. unfold zlen. rewrite Z.pow_add_r by lia. lia. Qed.

Lemma lor_add m a b : 0 <= m -> 0 <= b < 2 ^ m -> Z.lor (a * 2 ^ m) b = a * 2 ^ m + b.
Proof.
  intros Hm Hb. assert (Z.land (a * 2 ^ m) b = 0) as E.
  { rewrite <- Z.shiftl_mul_pow2 by done. apply Z.bits_inj'. intros n Hn. rewrite Z.land_spec, Z.bits_0.
    destruct (decide (n < m)); [by rewrite Z.shiftl_spec_low|].
    rewrite <- (Z.mod_small b (2 ^ m)), Z.mod_pow2_bits_high by lia. apply andb_false_r. }
  by rewrite <- Z.lxor_lor, <- Z.add_nocarry_lxor.
Qed.

Lemma vec_write_app_one {A} (l k : list A) a b x : x = zlen l -> vec_write (l ++ a :: k) x [b] = Some (l ++ b :: k).
Proof.
  intros ->. unfold vec_write. rewrite zlen_app, !zlen_cons. unfold zlen. cbn [length].
  rewrite (proj2 (andb_true_iff _ _)) by lia. f_equal.
  rewrite take_app_length' by lia. f_equal. cbn. f_equal.
  replace (Z.to_nat _) with (S (length l)) by lia. by rewrite cons_middle, app_assoc, drop_app_length' by (rewrite length_app; cbn; lia).
Qed.

Lemma be_bytes_cons n v : be_bytes (S n) v = v / 256 ^ Z.of_nat n mod 256 :: be_bytes n v.
Proof.
  revert v. induction n as [|n IH]; intros v; [by cbn; rewrite Z.div_1_r|].
  change (be_bytes (S (S n)) v) with (be_bytes (S n) (v / 256) ++ [v mod 256]).
  rewrite IH, Z.div_div by lia. rewrite Nat2Z.inj_succ, Z.pow_succ_r by lia. reflexivity.
Qed.

(** The low bits of a number that agrees with [r] on [a + b] bits. *)
Lemma high_bits v r a b : 0 <= a -> 0 <= b -> v mod 2 ^ (a + b) = r -> v / 2 ^ a mod 2 ^ b = r / 2 ^ a.
Proof.
  intros Ha Hb <-. rewrite Z.pow_add_r by lia.
  assert (0 < 2 ^ a) by (apply Z.pow_pos_nonneg; lia). assert (0 < 2 ^ b) by (apply Z.pow_pos_nonneg; lia).
  rewrite Z.rem_mul_r, (Z.mul_comm (2 ^ a)), Z.div_add by lia. rewrite (Z.div_small (v mod 2 ^ a)) by (apply Z.mod_pos_bound; lia). lia.
Qed.

(** ** [expand_array] *)

Section Expand.
Context (blen : Z) (Hblen : 8 <= blen <= 25).

(** The elements, from [bits] bits of value [r] and the bytes that follow. *)
Fixpoint elements (compressed : bytes) (bits r : Z) : list Z :=
  match compressed with
  | [] => []
  | b :: compressed =>
      let r := r * 256 + b in
      let bits := bits + 8 in
      if blen <=? bits then r / 2 ^ (bits - blen) :: elements compressed (bits - blen) (r mod 2 ^ (bits - blen))
      else elements compressed bits r
  end.

Lemma elements_value compressed bits r : is_bytes compressed -> 0 <= bits < blen -> 0 <= r < 2 ^ bits ->
  exists rest_bits rest, 0 <= rest_bits < blen /\ 0 <= rest < 2 ^ rest_bits /\
  bits + 8 * zlen compressed = blen * zlen (elements compressed bits r) + rest_bits /\
  digits_value (2 ^ blen) (elements compressed bits r) * 2 ^ rest_bits + rest =
    r * 256 ^ zlen compressed + be_value compressed /\
  are_digits (2 ^ blen) (elements compressed bits r).
Proof.
  revert bits r. induction compressed as [|b compressed IH]; intros bits r Hc Hb Hr.
  - exists bits, r. cbn. unfold zlen, be_value, digits_value. cbn. split_and!; try lia. by apply Forall_nil.
  - apply Forall_cons in Hc as [Hb8 Hc]. unfold is_u8 in Hb8. cbn [elements]. rewrite be_value_cons, zlen_cons.
    assert (0 <= r * 256 + b < 2 ^ (bits + 8)) by (rewrite Z.pow_add_r by lia; change (2 ^ 8) with 256; lia).
    case_bool.
    + set (nb := bits + 8 - blen) in *. set (r' := r * 256 + b) in *.
      assert (0 < 2 ^ nb) by (apply Z.pow_pos_nonneg; lia).
      destruct (IH nb (r' mod 2 ^ nb)) as (rb & rest & Hrb & Hrest & Hlen & Hval & Hd);
        [done|lia|by apply Z.mod_pos_bound|].
      set (ds := elements compressed nb (r' mod 2 ^ nb)) in *. exists rb, rest. rewrite zlen_cons.
      split_and!; [lia|lia|lia|lia|lia| |].
      * rewrite digits_cons, Z.mul_add_distr_r, <- Z.add_assoc, Hval, <- Z.mul_assoc, <- Z.pow_mul_r, <- Z.pow_add_r by (unfold zlen; lia).
        rewrite <- Hlen, Z.pow_add_r, Z.pow_mul_r, pow_succ_len by (unfold zlen; lia). change (2 ^ 8) with 256.
        transitivity (r' * 256 ^ zlen compressed + be_value compressed); [|unfold r'; ring].
        rewrite (Z.div_mod r' (2 ^ nb)) at 3 by lia. ring.
      * apply Forall_cons. split; [|done]. split; [apply Z.div_pos; lia|]. apply Z.div_lt_upper_bound; [lia|].
        rewrite <- Z.pow_add_r by lia. replace (nb + blen) with (bits + 8) by lia. lia.
    + destruct (IH (bits + 8) (r * 256 + b)) as (rb & rest & Hrb & Hrest & Hlen & Hval & Hd); [done|lia|done|].
      exists rb, rest. split_and!; try lia; [|done]. rewrite Hval, pow_succ_len. ring.
Qed.

(** Four bytes with an element after [pad] bytes. *)
Definition buffer_of (pad d : Z) : bytes :=
  let w := (blen + 7) / 8 in
  replicate (Z.to_nat pad) 0 ++ be_bytes (Z.to_nat w) d ++ replicate (Z.to_nat (4 - w - pad)) 0.

Lemma expand_byte_spec out_width acc_bits acc_value x : 0 <= acc_bits -> 0 <= acc_value -> x < out_width ->
  expand_byte blen out_width acc_bits acc_value x =
  acc_value / 2 ^ acc_bits mod 2 ^ blen / 256 ^ (out_width - x - 1) mod 256.
Proof.
  intros Ha Hv Hx. unfold expand_byte. set (k := out_width - x - 1). replace (Z.shiftl 1 blen - 1) with (Z.ones blen) by done.
  change 0xFF with (Z.ones 8). rewrite (Z.land_ones _ 8) by lia. change 256 with (2 ^ 8).
  rewrite <- Z.pow_mul_r, <- (Z.shiftr_div_pow2 (_ mod _)), <- (Z.shiftr_div_pow2 acc_value) by lia.
  apply Z.bits_inj'. intros n Hn. rewrite Z.land_spec. destruct (decide (n < 8)).
  - rewrite !(Z.mod_pow2_bits_low _ 8), !Z.shiftr_spec by lia. destruct (decide (n + 8 * k < blen)).
    + rewrite Z.ones_spec_low, andb_true_r, Z.mod_pow2_bits_low, Z.shiftr_spec by lia. f_equal. lia.
    + rewrite Z.ones_spec_high, andb_false_r, Z.mod_pow2_bits_high by lia. done.
  - by rewrite !(Z.mod_pow2_bits_high _ 8) by lia.
Qed.

Lemma expand_bytes_spec n out_width acc_bits acc_value x before old rest :
  0 <= acc_bits -> 0 <= acc_value -> x = zlen before -> out_width = x + Z.of_nat n -> length old = n ->
  expand_bytes n blen out_width acc_bits acc_value x (before ++ old ++ rest) =
  Some (before ++ be_bytes n (acc_value / 2 ^ acc_bits mod 2 ^ blen) ++ rest).
Proof.
  revert x before old. induction n as [|n IH]; intros x before old Ha Hv Hx Ho Hl.
  - by destruct old.
  - destruct old as [|o old]; [done|]. cbn [expand_bytes]. rewrite <- (app_comm_cons old), vec_write_app_one by done. cbn [mbind option_bind].
    rewrite be_bytes_cons, expand_byte_spec by lia. replace (out_width - x - 1) with (Z.of_nat n) by lia.
    rewrite (cons_middle _ before), app_assoc. rewrite IH; [by rewrite <- !app_assoc|done|done|by rewrite Hx, zlen_app|lia|].
    by injection Hl.
Qed.

Section Loop.
Context {St : Type} (f : bytes -> St -> option St) (pad : Z) (Hpad : 0 <= pad /\ (blen + 7) / 8 + pad <= 4).

(** One call for each element. *)
Fixpoint for_all (l : list bytes) (st : St) : option St :=
  match l with
  | [] => Some st
  | b :: l => st ← f b st; for_all l st
  end.

Lemma buffer_split d : exists old, length old = Z.to_nat ((blen + 7) / 8) /\
  buffer_of pad d = replicate (Z.to_nat pad) 0 ++ old ++ replicate (Z.to_nat (4 - (blen + 7) / 8 - pad)) 0.
Proof. eexists. split; [|reflexivity]. apply length_be_bytes. Qed.

Lemma acc_step acc bits r b : is_u8 b -> 0 <= bits <= 24 -> acc mod 2 ^ bits = r ->
  Z.lor (Z.shiftl acc 8 mod 2 ^ 32) b mod 2 ^ (bits + 8) = r * 256 + b.
Proof.
  intros Hb Hbits <-. unfold is_u8 in Hb. rewrite Z.shiftl_mul_pow2 by lia.
  change (2 ^ 32) with (2 ^ 24 * 2 ^ 8). rewrite Z.mul_mod_distr_r by lia. rewrite (lor_add 8) by lia.
  rewrite Z.pow_add_r by lia. assert (0 < 2 ^ bits) by (apply Z.pow_pos_nonneg; lia). change (2 ^ 8) with 256.
  replace (2 ^ 24) with (2 ^ bits * 2 ^ (24 - bits)) by (rewrite <- Z.pow_add_r by lia; f_equal; lia).
  set (a := acc mod (2 ^ bits * 2 ^ (24 - bits))). assert (a mod 2 ^ bits = acc mod 2 ^ bits) as <-.
  { unfold a. rewrite Z.rem_mul_r by (try apply Z.pow_nonzero; lia).
    by rewrite Z.mul_comm, Z.mod_add, Z.mod_mod by lia. }
  rewrite (Z.mul_comm (2 ^ bits) 256), Z.rem_mul_r by lia.
  rewrite Z.div_add_l, (Z.div_small b), Z.add_0_r by lia. rewrite (Z.add_comm (a * 256)), Z.mod_add, Z.mod_small by lia. lia.
Qed.

Lemma expand_loop_spec compressed d acc bits r st : is_bytes compressed -> 0 <= bits < blen -> 0 <= acc ->
  acc mod 2 ^ bits = r ->
  expand_loop f blen pad compressed (buffer_of pad d) bits acc st = for_all (buffer_of pad <$> elements compressed bits r) st.
Proof.
  revert d acc bits r st. induction compressed as [|b compressed IH]; intros d acc bits r st Hc Hb Ha Hr; [done|].
  apply Forall_cons in Hc as [Hb8 Hc]. pose proof (acc_step acc bits r b Hb8 ltac:(lia) Hr) as Hacc.
  assert (0 <= Z.lor (Z.shiftl acc 8 mod 2 ^ 32) b)
    by (unfold is_u8 in Hb8; apply Z.lor_nonneg; split; [apply Z.mod_pos_bound|]; lia).
  cbn [expand_loop elements]. set (acc' := Z.lor _ b) in *. case_bool; [|by apply IH; [done|lia| |]].
  destruct (buffer_split d) as (old & Hold & ->). set (w := (blen + 7) / 8) in *. set (nb := bits + 8 - blen) in *.
  assert (0 <= w) by (unfold w; apply Z.div_pos; lia).
  replace (Z.to_nat (w + pad - pad)) with (Z.to_nat w) by lia.
  rewrite expand_bytes_spec by (try rewrite zlen_replicate; lia). cbn [mbind option_bind].
  rewrite (high_bits _ (r * 256 + b)) by (lia || by replace (nb + blen) with (bits + 8) by lia).
  fold w. fold (buffer_of pad ((r * 256 + b) / 2 ^ nb)). cbn [fmap list_fmap for_all].
  destruct (f _ st) as [st'|]; [|done]. cbn [mbind option_bind]. apply IH; [done|lia|done|].
  rewrite <- Hacc. replace (bits + 8) with (nb + blen) by lia. rewrite Z.pow_add_r by lia.
  assert (0 < 2 ^ nb) by (apply Z.pow_pos_nonneg; lia). assert (0 < 2 ^ blen) by (apply Z.pow_pos_nonneg; lia).
  rewrite Z.rem_mul_r by lia. by rewrite Z.mul_comm, Z.mod_add, Z.mod_mod by lia.
Qed.

(** [expand_array] calls its function with the elements, in order: the digits of the value of
    the bytes in base [2 ^ blen]. *)
Lemma expand_array_spec compressed n st : is_bytes compressed -> 8 * zlen compressed = blen * Z.of_nat n -> exists ds,
  expand_array f compressed blen pad st = for_all (buffer_of pad <$> ds) st /\ length ds = n /\
  are_digits (2 ^ blen) ds /\ digits_value (2 ^ blen) ds = be_value compressed.
Proof.
  intros Hc Hn. exists (elements compressed 0 0).
  destruct (elements_value compressed 0 0) as (rb & rest & Hrb & Hrest & Hlen & Hval & Hd); [done|lia|lia|].
  destruct (Z.div_mod_unique blen (zlen (elements compressed 0 0)) (Z.of_nat n) rb 0) as [Hl ->]; [lia|lia|lia|].
  split_and!; [|unfold zlen in Hl; lia|done|change (2 ^ 0) with 1 in *; lia].
  unfold expand_array. rewrite <- (expand_loop_spec compressed 0 0 0 0) by (done || lia). f_equal.
  unfold buffer_of. assert (Hz : forall k, be_bytes k 0 = replicate k 0).
  { intros k. induction k as [|k IH]; [done|]. cbn. change (0 / 256) with 0. rewrite IH. by rewrite <- replicate_S_end. }
  rewrite Hz, <- !replicate_add. assert (0 <= (blen + 7) / 8) by (apply Z.div_pos; lia).
  by replace (_ + _)%nat with 4%nat by lia.
Qed.

End Loop.
End Expand.

(** ** [compress_array] *)

Lemma be_bytes_split m n v : be_bytes (m + n) v = be_bytes m (v / 256 ^ Z.of_nat n) ++ be_bytes n v.
Proof.
  revert v. induction n as [|n IH]; intros v; [by rewrite Nat.add_0_r, Z.div_1_r, app_nil_r|].
  rewrite Nat.add_succ_r. cbn [be_bytes]. rewrite IH, <- app_assoc, Z.div_div by (try apply Z.pow_pos_nonneg; lia).
  by rewrite <- Z.pow_succ_r, <- Nat2Z.inj_succ by lia.
Qed.

Lemma vec_get_middle {A} (l k : list A) x i : i = zlen l -> vec_get (l ++ x :: k) i = Some x.
Proof.
  intros ->. unfold vec_get, zlen. rewrite (proj2 (Z.leb_le _ _)) by lia. rewrite Nat2Z.id. by apply list_lookup_middle.
Qed.

Section Compress.
Context (blen : Z) (Hblen : 8 <= blen <= 25).
Abbreviation w := ((blen + 7) / 8).

Lemma width_bounds : 1 <= w <= 4 /\ blen <= 8 * w.
Proof. pose proof (Z.mod_pos_bound (blen + 7) 8). pose proof (Z.div_mod (blen + 7) 8). lia. Qed.

(** The bytes of an element, below those that were read already. *)
Lemma compress_element_spec n pre post d a j x : 0 <= d < 2 ^ blen -> j + x = zlen pre -> x = 4 - Z.of_nat n ->
  0 <= x -> compress_element n (pre ++ be_bytes n d ++ post) blen 4 j x (a * 2 ^ blen + d / 256 ^ Z.of_nat n * 256 ^ Z.of_nat n) =
  Some (a * 2 ^ blen + d).
Proof.
  intros Hd. revert pre x. induction n as [|n IH]; intros pre x Hj Hx H0.
  - cbn. rewrite Z.div_1_r. by rewrite Z.mul_1_r.
  - cbn [compress_element]. rewrite be_bytes_cons, <- app_comm_cons, vec_get_middle by done. cbn [mbind option_bind].
    set (byte := d / 256 ^ Z.of_nat n mod 256).
    assert (0 < 256 ^ Z.of_nat n) by (apply Z.pow_pos_nonneg; lia).
    assert (0 <= byte < 256) by (by apply Z.mod_pos_bound).
    assert (Z.land byte (Z.land (Z.shiftr (Z.shiftl 1 blen - 1) (8 * (4 - x - 1))) 255) = byte) as ->.
    { pose proof (expand_byte_spec blen Hblen 4 0 d x ltac:(lia) ltac:(lia) ltac:(lia)) as E. unfold expand_byte in E.
      rewrite Z.div_1_r, (Z.mod_small d), Z.add_0_l in E by lia. rewrite Z.shiftr_div_pow2, Z.pow_mul_r in E by lia.
      change (2 ^ 8) with 256 in E. by replace (4 - x - 1) with (Z.of_nat n) in E |- * by lia. }
    replace (8 * (4 - x - 1)) with (8 * Z.of_nat n) by lia.
    assert (2 ^ (8 * Z.of_nat n) = 256 ^ Z.of_nat n) as E8 by (by rewrite Z.pow_mul_r by lia).
    assert (256 ^ Z.of_nat n <= 256 ^ 3) by (apply Z.pow_le_mono_r; lia).
    rewrite Z.shiftl_mul_pow2, E8, (Z.mod_small (byte * _)) by (change (2 ^ 32) with (256 * 256 ^ 3); nia).
    assert (d / 256 ^ Z.of_nat (S n) * 256 ^ Z.of_nat (S n) + byte * 256 ^ Z.of_nat n = d / 256 ^ Z.of_nat n * 256 ^ Z.of_nat n) as Es.
    { rewrite Nat2Z.inj_succ, Z.pow_succ_r, (Z.mul_comm 256), <- Z.div_div by lia. unfold byte.
      rewrite (Z.div_mod (d / 256 ^ Z.of_nat n) 256) at 3 by lia. ring. }
    assert (d / 256 ^ Z.of_nat n * 256 ^ Z.of_nat n <= d) by (rewrite Z.mul_comm; by apply Z.mul_div_le).
    assert (0 <= d / 256 ^ Z.of_nat (S n) * 256 ^ Z.of_nat (S n)) by (apply Z.mul_nonneg_nonneg; [apply Z.div_pos|]; lia).
    assert (0 <= byte * 256 ^ Z.of_nat n < 256 ^ Z.of_nat (S n)) as Hy by (rewrite Nat2Z.inj_succ, Z.pow_succ_r by lia; nia).
    pose proof (lor_add (8 * Z.of_nat (S n)) (d / 256 ^ Z.of_nat (S n)) (byte * 256 ^ Z.of_nat n) ltac:(lia)) as Hl.
    rewrite (Z.pow_mul_r 2 8) in Hl by lia. change (2 ^ 8) with 256 in Hl. specialize (Hl Hy). rewrite Es in Hl.
    rewrite <- (lor_add blen a (_ * 256 ^ Z.of_nat (S n))), <- Z.lor_assoc, Hl, lor_add by lia.
    rewrite (cons_middle byte), app_assoc. apply IH; [rewrite zlen_app; unfold zlen at 2; cbn; lia|lia|lia].
Qed.

Abbreviation pack ds := (mjoin (be_bytes 4 <$> ds)).

(** Reading the next element. *)
Lemma compress_read pre d ds acc r bits : 0 <= d < 2 ^ blen -> 0 <= acc -> 0 <= bits < 8 -> acc mod 2 ^ bits = r ->
  exists acc', compress_element (Z.to_nat (4 - (4 - w))) (pre ++ pack (d :: ds)) blen 4 (zlen pre) (4 - w)
    (Z.shiftl acc blen mod 2 ^ 32) = Some acc' /\ 0 <= acc' /\ acc' mod 2 ^ (bits + blen) = r * 2 ^ blen + d.
Proof.
  intros Hd Ha Hb Hr. pose proof width_bounds as Hw.
  assert (0 < 2 ^ blen) by (apply Z.pow_pos_nonneg; lia). assert (0 < 2 ^ (32 - blen)) by (apply Z.pow_pos_nonneg; lia).
  assert (0 < 2 ^ bits) by (apply Z.pow_pos_nonneg; lia).
  replace (4 - (4 - w)) with w by lia. set (n := Z.to_nat w).
  assert (be_bytes 4 d = be_bytes (4 - n) (d / 256 ^ Z.of_nat n) ++ be_bytes n d) as E
    by (rewrite <- be_bytes_split; f_equal; lia).
  change (pack (d :: ds)) with (be_bytes 4 d ++ pack ds). rewrite E, <- app_assoc, app_assoc.
  assert (d / 256 ^ Z.of_nat n = 0) as Ez.
  { apply Z.div_small. split; [lia|]. eapply Z.lt_le_trans; [apply Hd|]. change 256 with (2 ^ 8). rewrite <- Z.pow_mul_r by lia.
    apply Z.pow_le_mono_r; lia. }
  set (a := acc mod 2 ^ (32 - blen)). exists (a * 2 ^ blen + d).
  assert (0 <= a < 2 ^ (32 - blen)) by (by apply Z.mod_pos_bound).
  split_and!; [|nia|].
  - rewrite Z.shiftl_mul_pow2 by lia. replace (2 ^ 32) with (2 ^ (32 - blen) * 2 ^ blen) by (rewrite <- Z.pow_add_r by lia; f_equal; lia).
    rewrite Z.mul_mod_distr_r by lia. fold a. rewrite <- (compress_element_spec n (pre ++ be_bytes (4 - n) (d / 256 ^ Z.of_nat n)) (pack ds) d a (zlen pre) (4 - w));
      [by rewrite Ez, Z.mul_0_l, Z.add_0_r|done| |lia|lia]. rewrite zlen_app, zlen_be_bytes. lia.
  - assert (a mod 2 ^ bits = r) as Har.
    { rewrite <- Hr. unfold a. replace (32 - blen) with (bits + (32 - blen - bits)) by lia. rewrite Z.pow_add_r by lia.
      assert (0 < 2 ^ (32 - blen - bits)) by (apply Z.pow_pos_nonneg; lia).
      rewrite Z.rem_mul_r by lia. by rewrite Z.mul_comm, Z.mod_add, Z.mod_mod by lia. }
    rewrite Z.pow_add_r, (Z.mul_comm (2 ^ bits)), Z.rem_mul_r by lia.
    rewrite Z.div_add_l, (Z.div_small d), Z.add_0_r, Har by lia. rewrite (Z.add_comm (a * _)), Z.mod_add, Z.mod_small by lia. lia.
Qed.

(** The pending bits [r] with the elements that follow. *)
Definition pending (r : Z) (ds : list Z) : Z := r * 2 ^ (blen * zlen ds) + digits_value (2 ^ blen) ds.

Lemma pending_cons r d ds : pending r (d :: ds) = pending (r * 2 ^ blen + d) ds.
Proof.
  unfold pending. rewrite digits_cons, zlen_cons, <- Z.pow_mul_r by (unfold zlen; lia).
  replace (blen * (1 + zlen ds)) with (blen + blen * zlen ds) by lia. rewrite Z.pow_add_r by (unfold zlen; nia). ring.
Qed.

Lemma compress_next pre ds acc bits r : are_digits (2 ^ blen) ds -> 0 <= acc -> 0 <= bits <= 32 ->
  acc mod 2 ^ bits = r -> 8 <= bits + blen * zlen ds -> exists pre' ds' acc' bits' r',
  (if bits <? 8 then
     acc_value ← compress_element (Z.to_nat (4 - (4 - w))) (pre ++ pack ds) blen 4 (zlen pre) (4 - w) (Z.shiftl acc blen mod 2 ^ 32);
     Some (bits + blen, acc_value, zlen pre + 4)
   else Some (bits, acc, zlen pre)) = Some (bits', acc', zlen pre') /\ pre ++ pack ds = pre' ++ pack ds' /\
  are_digits (2 ^ blen) ds' /\ 0 <= acc' /\ 8 <= bits' <= 32 /\ acc' mod 2 ^ bits' = r' /\
  bits' + blen * zlen ds' = bits + blen * zlen ds /\ pending r' ds' = pending r ds.
Proof.
  intros Hds Ha Hb Hr Hn. case_bool; [|exists pre, ds, acc, bits, r; split_and!; done || lia].
  destruct ds as [|d ds]; [unfold zlen in Hn; cbn in Hn; lia|]. apply Forall_cons in Hds as [Hd Hds].
  destruct (compress_read pre d ds acc r bits Hd Ha ltac:(lia) Hr) as (acc' & -> & Ha' & Hr').
  exists (pre ++ be_bytes 4 d), ds, acc', (bits + blen), (r * 2 ^ blen + d). rewrite zlen_cons.
  split_and!; [by rewrite zlen_app|by rewrite <- app_assoc|done|done|lia|lia|done|lia|by rewrite pending_cons].
Qed.

(** Of [bits] bits, the highest eight and the rest. *)
Lemma take_byte acc bits r ds : 0 <= acc -> 8 <= bits -> acc mod 2 ^ bits = r -> exists b r',
  Z.land (Z.shiftr acc (bits - 8)) 0xFF = b /\ is_u8 b /\ acc mod 2 ^ (bits - 8) = r' /\
  pending r ds = b * 2 ^ (bits - 8 + blen * zlen ds) + pending r' ds.
Proof.
  intros Ha Hb Hr. assert (0 < 2 ^ (bits - 8)) by (apply Z.pow_pos_nonneg; lia).
  change 0xFF with (Z.ones 8). rewrite Z.land_ones, Z.shiftr_div_pow2 by lia.
  rewrite (high_bits acc r) by (lia || by replace (bits - 8 + 8) with bits by lia).
  exists (r / 2 ^ (bits - 8)), (r mod 2 ^ (bits - 8)). split_and!; [done| | |].
  - assert (2 ^ bits = 2 ^ (bits - 8) * 256) as E by (change 256 with (2 ^ 8); rewrite <- Z.pow_add_r by lia; f_equal; lia).
    assert (0 <= r < 2 ^ bits) by (rewrite <- Hr; apply Z.mod_pos_bound; lia).
    split; [apply Z.div_pos|apply Z.div_lt_upper_bound]; lia.
  - rewrite <- Hr. replace bits with (bits - 8 + 8) at 2 by lia. rewrite Z.pow_add_r, Z.rem_mul_r by lia.
    by rewrite Z.mul_comm, Z.mod_add, Z.mod_mod by lia.
  - unfold pending. rewrite Z.pow_add_r by (unfold zlen; nia). rewrite (Z.div_mod r (2 ^ (bits - 8))) at 1 by lia. ring.
Qed.

(** What is written is the value of the pending bits and of the elements that follow. *)
Lemma compress_loop_spec n pre ds acc bits r : are_digits (2 ^ blen) ds -> 0 <= acc -> 0 <= bits <= 32 ->
  acc mod 2 ^ bits = r -> bits + blen * zlen ds = 8 * Z.of_nat n -> exists out,
  compress_loop n (pre ++ pack ds) blen (4 - w) bits acc (zlen pre) = Some out /\ length out = n /\ is_bytes out /\
  be_value out = pending r ds.
Proof.
  revert pre ds acc bits r. induction n as [|n IH]; intros pre ds acc bits r Hds Ha Hb Hr Hn.
  - destruct ds; [|rewrite zlen_cons in Hn; unfold zlen in Hn; nia]. change (zlen []) with 0 in Hn.
    assert (bits = 0) as -> by lia. exists []. rewrite Z.mod_1_r in Hr. subst r. split_and!; [done|done|by apply Forall_nil|done].
  - cbn [compress_loop]. replace (w + (4 - w)) with 4 by lia.
    destruct (compress_next pre ds acc bits r) as (pre' & ds' & acc' & bits' & r' & -> & -> & Hds' & Ha' & Hb' & Hr' & Hn' & <-); [done..|lia|].
    cbn [mbind option_bind]. destruct (take_byte acc' bits' r' ds') as (b & r2 & -> & Hb8 & Hr2 & ->); [done|lia|done|].
    destruct (IH pre' ds' acc' (bits' - 8) r2) as (out & -> & Hlen & Hout & Hval); [done|done|lia|done|lia|].
    cbn [mbind option_bind]. eexists. split; [reflexivity|]. split_and!; [cbn; lia|by apply Forall_cons|].
    rewrite be_value_cons, Hval. do 2 f_equal. change 256 with (2 ^ 8). rewrite <- Z.pow_mul_r by (unfold zlen; lia).
    f_equal. unfold zlen at 1. lia.
Qed.

(** [compress_array] writes the digits in base 256 of the number that the elements stand for. *)
Lemma compress_array_spec ds len : are_digits (2 ^ blen) ds -> 8 * len = blen * zlen ds -> exists out,
  compress_array (pack ds) len blen (4 - w) = Some out /\ zlen out = len /\ is_bytes out /\
  be_value out = digits_value (2 ^ blen) ds.
Proof.
  intros Hds Hl. assert (0 <= len) by (unfold zlen in Hl; nia).
  destruct (compress_loop_spec (Z.to_nat len) [] ds 0 0 0) as (out & E & Hlen & Hout & Hval);
    [done|lia|lia|done|lia|].
  exists out. split_and!; [done|unfold zlen; lia|done|done].
Qed.

End Compress.
