(* ===== verification/EquihashRows.v ===== *)
(** * Rows of the Equihash verifier

    A row of the verifier is a hash, the indices it belongs to and bytes that mean nothing;
    the functions on rows, and the loops over them, are related to functions on pairs of a
    hash and a list of indices ([Row]). *)

From Stdlib Require Import ZifyBool.
From S2P Require Import Prelude Equihash EquihashBits.
From stdpp Require Import base numbers option list.

Open Scope Z_scope.

Abbreviation Row := (bytes * list Z)%type.

Abbreviation pack ds := (mjoin (be_bytes 4 <$> ds)).

Definition is_u32 (x : Z) : Prop := 0 <= x < 2 ^ 32.

(** The first index of a row. *)
Definition leader (ix : list Z) : Z := hd 0 ix.

(** What the verifier asks of two neighbours, and the row they are merged into. *)
Definition pair_ok (r1 r2 : Row) : bool :=
  bool_decide (take 3 r1.1 = take 3 r2.1) && (leader r1.2 <? leader r2.2) && bool_decide (leader r1.2 ∉ r2.2).

Definition merge_row (r1 r2 : Row) : Row := (zip_with Z.lxor (drop 3 r1.1) (drop 3 r2.1), r1.2 ++ r2.2).

Fixpoint merge_all (rows : list Row) : option (list Row) :=
  match rows with
  | r1 :: r2 :: rows => if pair_ok r1 r2 then (merge_row r1 r2 ::.) <$> merge_all rows else None
  | _ => Some []
  end.

Fixpoint merge_depth (d : nat) (rows : list Row) : option (list Row) :=
  match d with
  | O => Some rows
  | S d => rows ← merge_all rows; merge_depth d rows
  end.

(** ** Comparing *)

Fixpoint lex_before (l k : bytes) : bool :=
  match l, k with
  | a :: l, b :: k => if a <? b then true else if b <? a then false else lex_before l k
  | _, _ => false
  end.

Lemma pack_cons i ix : pack (i :: ix) = be_bytes 4 i ++ pack ix.
Proof. done. Qed.

Lemma length_pack ix : zlen (pack ix) = 4 * zlen ix.
Proof. induction ix as [|i ix IH]; [done|]. rewrite pack_cons, zlen_app, zlen_cons, IH, zlen_be_bytes. lia. Qed.

Lemma collision_from n pre1 pre2 l1 l2 s1 s2 i : i = zlen pre1 -> zlen pre1 = zlen pre2 -> length l1 = n -> length l2 = n ->
  has_collision_from n (pre1 ++ l1 ++ s1) (pre2 ++ l2 ++ s2) i = Some (bool_decide (l1 = l2)).
Proof.
  revert pre1 pre2 l1 l2 i. induction n as [|n IH]; intros pre1 pre2 l1 l2 i Hi Hp H1 H2.
  - destruct l1, l2; done.
  - destruct l1 as [|a l1], l2 as [|b l2]; try done. cbn [has_collision_from app].
    rewrite !vec_get_middle by congruence. cbn [mbind option_bind]. destruct (negb (a =? b)) eqn:E.
    + rewrite bool_decide_false; [done|]. intros [= -> ->]. lia.
    + assert (a = b) as <- by lia. rewrite (cons_middle a pre1), (cons_middle a pre2), !app_assoc, <- !(app_assoc (_ ++ [a])).
      rewrite IH by (rewrite ?zlen_app; unfold zlen in *; cbn in *; lia). f_equal. apply bool_decide_ext. naive_solver.
Qed.

Lemma before_from n pre1 pre2 l1 l2 s1 s2 len i : len + i = zlen pre1 -> zlen pre1 = zlen pre2 -> length l1 = n -> length l2 = n ->
  indices_before_from n (pre1 ++ l1 ++ s1) (pre2 ++ l2 ++ s2) len i = Some (lex_before l1 l2).
Proof.
  revert pre1 pre2 l1 l2 i. induction n as [|n IH]; intros pre1 pre2 l1 l2 i Hi Hp H1 H2.
  - destruct l1, l2; done.
  - destruct l1 as [|a l1], l2 as [|b l2]; try done. cbn [indices_before_from app lex_before].
    rewrite !vec_get_middle by congruence. cbn [mbind option_bind]. do 2 (case_bool; [done|]).
    rewrite (cons_middle a pre1), (cons_middle b pre2), !app_assoc, <- !(app_assoc (_ ++ [_])).
    rewrite IH by (rewrite ?zlen_app; unfold zlen in *; cbn in *; lia). done.
Qed.

Lemma lex_be n i j l k : i mod 256 ^ Z.of_nat n <> j mod 256 ^ Z.of_nat n ->
  lex_before (be_bytes n i ++ l) (be_bytes n j ++ k) = (i mod 256 ^ Z.of_nat n <? j mod 256 ^ Z.of_nat n).
Proof.
  induction n as [|n IH]; intros Hn; [by rewrite !Z.mod_1_r in Hn|]. rewrite !be_bytes_cons. cbn [app lex_before].
  rewrite Nat2Z.inj_succ, Z.pow_succ_r, (Z.mul_comm 256), !Z.rem_mul_r in Hn |- * by (try apply Z.pow_nonzero; lia).
  assert (0 < 256 ^ Z.of_nat n) by (apply Z.pow_pos_nonneg; lia).
  pose proof (Z.mod_pos_bound i (256 ^ Z.of_nat n)). pose proof (Z.mod_pos_bound j (256 ^ Z.of_nat n)).
  do 2 (case_bool; [nia|]). assert (i / 256 ^ Z.of_nat n mod 256 = j / 256 ^ Z.of_nat n mod 256) as E by lia.
  rewrite E in *. rewrite IH by lia. lia.
Qed.

Lemma lex_pack i j ix jx : is_u32 i -> is_u32 j -> i <> j -> lex_before (pack (i :: ix)) (pack (j :: jx)) = (i <? j).
Proof.
  intros Hi Hj Hn. unfold is_u32 in *. change (2 ^ 32) with (256 ^ Z.of_nat 4) in *.
  rewrite !pack_cons, lex_be; rewrite !Z.mod_small by done; done.
Qed.

Lemma be_inj i j : is_u32 i -> is_u32 j -> be_bytes 4 i = be_bytes 4 j -> i = j.
Proof.
  unfold is_u32. intros Hi Hj E. assert (be_value (be_bytes 4 i) = be_value (be_bytes 4 j)) as E' by congruence.
  rewrite !be_value_be_bytes in E'. by rewrite !Z.mod_small in E' by done.
Qed.

(** ** A row *)

(** The bytes of a row, of [hl] bytes of hash and [n] indices. *)
Definition holds (hl n : nat) (row : bytes) (r : Row) : Prop :=
  length r.1 = hl /\ length r.2 = n /\ Forall is_u32 r.2 /\ zlen row = 518 /\ exists junk, row = r.1 ++ pack r.2 ++ junk.

Lemma slice_index pre i post a b : a = zlen pre -> b = a + 4 -> vec_slice (pre ++ be_bytes 4 i ++ post) a b = Some (be_bytes 4 i).
Proof. intros -> ->. apply vec_slice_app; rewrite ?zlen_be_bytes; lia. Qed.

(** The inner loop compares one index of the first row with those of the second from [j] on. *)
Lemma distinct_inner_spec fuel pre1 i post1 pre2 jx post2 len indices_len x j : is_u32 i -> Forall is_u32 jx ->
  len + x = zlen pre1 -> len + j = zlen pre2 -> indices_len = j + 4 * zlen jx -> (length jx <= fuel)%nat ->
  distinct_inner fuel (pre1 ++ be_bytes 4 i ++ post1) (pre2 ++ pack jx ++ post2) len indices_len x j =
  Some (if bool_decide (i ∈ jx) then None else Some indices_len).
Proof.
  intros Hi. revert fuel pre2 j. induction jx as [|k jx IH]; intros fuel pre2 j Hj Hx Hp Hl Hf.
  - change (zlen []) with 0 in Hl. destruct fuel; cbn; rewrite (proj2 (Z.ltb_ge _ _)) by lia; do 2 f_equal; lia.
  - apply Forall_cons in Hj as [Hk Hj]. rewrite zlen_cons in Hl. unfold zlen in Hl. destruct fuel as [|fuel]; [cbn in Hf; lia|].
    cbn [distinct_inner]. rewrite (proj2 (Z.ltb_lt _ _)) by lia. rewrite pack_cons, <- (app_assoc (be_bytes 4 k)).
    rewrite !slice_index by lia. cbn [mbind option_bind]. destruct (decide (be_bytes 4 i = be_bytes 4 k)) as [E|E].
    + rewrite (bool_decide_true (be_bytes 4 i = _)) by done. apply be_inj in E; [|done|done]. subst k. by rewrite bool_decide_true by left.
    + rewrite (bool_decide_false (be_bytes 4 i = _)) by done. rewrite (app_assoc pre2), IH; [|done|done|rewrite zlen_app, zlen_be_bytes; lia|unfold zlen; lia|cbn in Hf; lia].
      f_equal. rewrite (bool_decide_ext (i ∈ k :: jx) (i ∈ jx)); [done|]. rewrite elem_of_cons.
      split; [|by right]. intros [->|?]; [by destruct E|done].
Qed.

(** The outer loop has nothing left to compare once [j] has reached the end. *)
Lemma distinct_outer_end fuel row1 row2 len indices_len x : indices_len - x <= 4 * Z.of_nat fuel ->
  distinct_outer fuel row1 row2 len indices_len x indices_len = Some true.
Proof.
  revert x. induction fuel as [|fuel IH]; intros x Hf; cbn [distinct_outer].
  - by rewrite (proj2 (Z.ltb_ge _ _)) by lia.
  - case_bool; [|done]. assert (distinct_inner (Z.to_nat indices_len) row1 row2 len indices_len x indices_len = Some (Some indices_len)) as ->
      by (destruct (Z.to_nat indices_len); cbn [distinct_inner]; by rewrite Z.ltb_irrefl).
    cbn [mbind option_bind]. apply IH. lia.
Qed.

(** So only the first index of the first row is compared. *)
Lemma distinct_rows hash1 i ix junk1 hash2 jx junk2 : is_u32 i -> Forall is_u32 jx -> length hash1 = length hash2 -> jx <> [] ->
  distinct_indices (hash1 ++ pack (i :: ix) ++ junk1) (hash2 ++ pack jx ++ junk2) (zlen hash1) (4 * zlen jx) = Some (bool_decide (i ∉ jx)).
Proof.
  intros Hi Hj Hh Hn. assert (0 < zlen jx) by (destruct jx; [done|rewrite zlen_cons; pose proof (zlen_nonneg jx); lia]).
  unfold distinct_indices. destruct (Z.to_nat (4 * zlen jx)) as [|fuel] eqn:Ef; [lia|]. cbn [distinct_outer].
  rewrite (proj2 (Z.ltb_lt _ _)), pack_cons, <- (app_assoc (be_bytes 4 i)), Ef by lia.
  rewrite distinct_inner_spec by (done || unfold zlen in *; lia). cbn [mbind option_bind]. case_bool_decide.
  - by rewrite bool_decide_false by tauto.
  - rewrite bool_decide_true by done. apply distinct_outer_end. lia.
Qed.

Lemma distinct_spec hl n row1 row2 r1 r2 : holds hl n row1 r1 -> holds hl n row2 r2 -> (0 < n)%nat ->
  distinct_indices row1 row2 (Z.of_nat hl) (4 * Z.of_nat n) = Some (bool_decide (leader r1.2 ∉ r2.2)).
Proof.
  intros (Hh1 & Hn1 & Hu1 & _ & junk1 & ->) (Hh2 & Hn2 & Hu2 & _ & junk2 & ->) Hn. destruct r1 as [h1 ix], r2 as [h2 jx]. cbn in *.
  destruct ix as [|i ix]; [cbn in Hn1; lia|]. apply Forall_cons in Hu1 as [Hi _].
  replace (Z.of_nat hl) with (zlen h1) by (unfold zlen; lia). replace (Z.of_nat n) with (zlen jx) by (unfold zlen; lia).
  apply distinct_rows; [done|done|lia|]. intros ->. cbn in Hn2. lia.
Qed.

Lemma collision_spec hl n row1 row2 r1 r2 : holds hl n row1 r1 -> holds hl n row2 r2 -> (3 <= hl)%nat ->
  has_collision row1 row2 3 = Some (bool_decide (take 3 r1.1 = take 3 r2.1)).
Proof.
  intros (Hh1 & _ & _ & _ & junk1 & ->) (Hh2 & _ & _ & _ & junk2 & ->) Hl. unfold has_collision.
  rewrite <- (take_drop 3 r1.1) at 1. rewrite <- (take_drop 3 r2.1) at 1. rewrite <- !(app_assoc (take 3 _)).
  apply (collision_from 3 [] []); [done|done|rewrite length_take; lia|rewrite length_take; lia].
Qed.

Lemma before_spec hl n row1 row2 r1 r2 : holds hl n row1 r1 -> holds hl n row2 r2 -> (0 < n)%nat -> leader r1.2 <> leader r2.2 ->
  indices_before row1 row2 (Z.of_nat hl) (4 * Z.of_nat n) = Some (leader r1.2 <? leader r2.2).
Proof.
  intros (Hh1 & Hn1 & Hu1 & _ & junk1 & ->) (Hh2 & Hn2 & Hu2 & _ & junk2 & ->) Hn Hne. destruct r1 as [h1 ix], r2 as [h2 jx]. cbn [fst snd] in *.
  pose proof (length_pack ix). pose proof (length_pack jx). unfold zlen in *. unfold indices_before.
  rewrite before_from by (unfold zlen; lia). f_equal. destruct ix as [|i ix], jx as [|j jx]; cbn in Hn1, Hn2; try lia.
  apply Forall_cons in Hu1 as [Hi _], Hu2 as [Hj _]. by apply lex_pack.
Qed.

(** ** Merging *)

Lemma vec_write_middle {A} (l old xs k : list A) a : a = zlen l -> length old = length xs ->
  vec_write (l ++ old ++ k) a xs = Some (l ++ xs ++ k).
Proof.
  intros -> Hl. unfold vec_write. rewrite !zlen_app. unfold zlen. rewrite Hl.
  rewrite (proj2 (andb_true_iff _ _)) by lia. f_equal. rewrite take_app_length' by lia. do 2 f_equal.
  by rewrite app_assoc, drop_app_length' by (rewrite length_app; lia).
Qed.

Lemma merge_hashes_spec n pre1 pre2 l1 l2 s1 s2 done_ old rest i pos : i = zlen pre1 -> zlen pre1 = zlen pre2 ->
  length l1 = n -> length l2 = n -> length old = n -> pos = zlen done_ ->
  merge_hashes n (pre1 ++ l1 ++ s1) (pre2 ++ l2 ++ s2) (done_ ++ old ++ rest) i pos =
  Some (done_ ++ zip_with Z.lxor l1 l2 ++ rest).
Proof.
  revert pre1 pre2 l1 l2 done_ old i pos. induction n as [|n IH]; intros pre1 pre2 l1 l2 done_ old i pos Hi Hp H1 H2 Ho Hpos.
  - by destruct l1, l2, old.
  - destruct l1 as [|a l1], l2 as [|b l2], old as [|o old]; try done. cbn [merge_hashes zip_with].
    rewrite <- !(app_comm_cons _ _), !vec_get_middle by congruence. cbn [mbind option_bind].
    rewrite vec_write_app_one by done. cbn [mbind option_bind].
    rewrite (cons_middle a pre1), (cons_middle b pre2), (cons_middle _ done_), !app_assoc, <- !(app_assoc (_ ++ [_])).
    rewrite IH by (rewrite ?zlen_app; unfold zlen in *; cbn in *; lia). by rewrite <- app_assoc.
Qed.

Lemma write_indices_spec hl n row1 row2 r1 r2 front old rest : holds hl n row1 r1 -> holds hl n row2 r2 ->
  (3 <= hl)%nat -> length front = (hl - 3)%nat -> length old = (8 * n)%nat ->
  write_indices row1 row2 (front ++ old ++ rest) (Z.of_nat hl) (4 * Z.of_nat n) 3 = Some (front ++ pack (r1.2 ++ r2.2) ++ rest).
Proof.
  intros (Hh1 & Hn1 & _ & _ & junk1 & ->) (Hh2 & Hn2 & _ & _ & junk2 & ->) Hl Hf Ho. unfold write_indices.
  pose proof (length_pack r1.2) as Hp1. pose proof (length_pack r2.2) as Hp2. unfold zlen in Hp1, Hp2.
  rewrite (vec_slice_app r1.1 (pack r1.2)) by (unfold zlen; lia). cbn [mbind option_bind].
  rewrite <- (take_drop (4 * n) old), <- app_assoc.
  rewrite vec_write_middle by (rewrite ?length_take; unfold zlen; lia). cbn [mbind option_bind].
  rewrite (vec_slice_app r2.1 (pack r2.2)) by (unfold zlen; lia). cbn [mbind option_bind].
  rewrite app_assoc, vec_write_middle by (rewrite ?length_drop, ?zlen_app; unfold zlen; lia).
  by rewrite fmap_app, join_app, <- !app_assoc.
Qed.

Lemma merge_rows_spec hl n row1 row2 merged r1 r2 : holds hl n row1 r1 -> holds hl n row2 r2 -> (3 <= hl)%nat -> (0 < n)%nat ->
  leader r1.2 < leader r2.2 -> (hl - 3 + 8 * n <= 518)%nat -> zlen merged = 518 -> exists merged',
  merge_rows row1 row2 merged (Z.of_nat hl) (4 * Z.of_nat n) 3 = Some merged' /\
  holds (hl - 3) (2 * n) merged' (merge_row r1 r2).
Proof.
  intros H1 H2 Hl Hn Hlt Hs Hm. pose proof H1 as (Hh1 & Hn1 & Hu1 & _ & junk1 & E1). pose proof H2 as (Hh2 & Hn2 & Hu2 & _ & junk2 & E2).
  unfold zlen in Hm. pose proof (take_drop (hl - 3) merged) as Em. set (rest := drop (hl - 3) merged) in *.
  pose proof (take_drop (8 * n) rest) as Er.
  assert (length rest = 518 - (hl - 3))%nat as Hrest by (unfold rest; rewrite length_drop; lia).
  unfold merge_rows. replace (Z.to_nat (Z.of_nat hl - 3)) with (hl - 3)%nat by lia.
  assert (merge_hashes (hl - 3) row1 row2 merged 3 0 = Some (zip_with Z.lxor (drop 3 r1.1) (drop 3 r2.1) ++ rest)) as ->.
  { rewrite E1, E2, <- Em, <- (take_drop 3 r1.1) at 1. rewrite <- (take_drop 3 r2.1) at 1. rewrite <- !(app_assoc (take 3 _)).
    apply (merge_hashes_spec _ _ _ _ _ _ _ []); unfold zlen; rewrite ?length_take, ?length_drop; done || lia. }
  cbn [mbind option_bind]. rewrite (before_spec hl n _ _ r1 r2) by (done || lia). rewrite (proj2 (Z.ltb_lt _ _)) by done.
  cbn [mbind option_bind]. rewrite <- Er.
  rewrite (write_indices_spec hl n _ _ r1 r2); [|done|done|done|rewrite length_zip_with, !length_drop; lia|rewrite length_take; lia].
  eexists. split; [reflexivity|]. pose proof (length_pack (r1.2 ++ r2.2)) as Hp. unfold zlen in Hp. rewrite length_app in Hp.
  split_and!; cbn [merge_row fst snd].
  - rewrite length_zip_with, !length_drop. lia.
  - rewrite length_app. lia.
  - by apply Forall_app.
  - unfold zlen. rewrite !length_app, length_zip_with, !length_drop. lia.
  - by eexists.
Qed.

(** ** The loops *)

Abbreviation alg := OnChainEquihash.

Lemma slice_row (pre row post : bytes) a b : zlen row = 518 -> a = zlen pre -> b = a + 518 -> vec_slice (pre ++ row ++ post) a b = Some row.
Proof. intros Hr -> ->. apply vec_slice_app; lia. Qed.

(** The checks on one pair. *)
Lemma pair_checks {A} hl n row1 row2 r1 r2 (accept : option (option A)) : holds hl n row1 r1 -> holds hl n row2 r2 ->
  (3 <= hl)%nat -> (0 < n)%nat ->
  (collision ← has_collision row1 row2 3;
   if negb collision then Some None
   else
     before ← indices_before row2 row1 (Z.of_nat hl) (4 * Z.of_nat n);
     if (before : bool) then Some None
     else
       distinct ← distinct_indices row1 row2 (Z.of_nat hl) (4 * Z.of_nat n);
       if negb distinct then Some None else accept) = if pair_ok r1 r2 then accept else Some None.
Proof.
  intros H1 H2 Hl Hn. unfold pair_ok. rewrite (collision_spec hl n _ _ r1 r2) by done. cbn [mbind option_bind].
  case_bool_decide; [|done]. cbn [negb andb]. destruct (decide (leader r1.2 = leader r2.2)) as [E|E].
  - rewrite (proj2 (Z.ltb_ge _ _)) by lia. cbn [andb].
    assert (exists b, indices_before row2 row1 (Z.of_nat hl) (4 * Z.of_nat n) = Some b) as ([] & ->); [|done|].
    { destruct H1 as (Hh1 & Hn1 & _ & _ & junk1 & ->), H2 as (Hh2 & Hn2 & _ & _ & junk2 & ->).
      pose proof (length_pack r1.2). pose proof (length_pack r2.2). unfold zlen in *. unfold indices_before.
      eexists. apply before_from; unfold zlen; lia. }
    cbn [mbind option_bind]. rewrite (distinct_spec hl n _ _ r1 r2) by done. cbn [mbind option_bind].
    rewrite bool_decide_false; [done|]. intros Hne. apply Hne. rewrite E. destruct H2 as (_ & Hn2 & _).
    destruct r2 as [? [|j jx]]; cbn in Hn2 |- *; [lia|by left].
  - rewrite (before_spec hl n _ _ r2 r1) by (done || congruence). cbn [mbind option_bind]. case_bool.
    + by rewrite (proj2 (Z.ltb_ge _ _)) by lia.
    + rewrite (proj2 (Z.ltb_lt _ _)) by lia. rewrite (distinct_spec hl n _ _ r1 r2) by done. cbn [mbind option_bind].
      by case_bool_decide.
Qed.

(** One round of the loop over the pairs. *)
Lemma merge_pairs_step hl n k pre row1 row2 post r1 r2 bpre brest : holds hl n row1 r1 -> holds hl n row2 r2 ->
  (3 <= hl)%nat -> (0 < n)%nat -> (hl - 3 + 8 * n <= 518)%nat -> (518 <= length brest)%nat ->
  if pair_ok r1 r2 then exists merged, holds (hl - 3) (2 * n) merged (merge_row r1 r2) /\
    merge_pairs alg (S k) (pre ++ row1 ++ row2 ++ post) (bpre ++ brest) (zlen pre) (zlen pre + 518) (zlen bpre) (Z.of_nat hl) (4 * Z.of_nat n) =
    merge_pairs alg k ((pre ++ row1 ++ row2) ++ post) ((bpre ++ merged) ++ drop 518 brest) (zlen (pre ++ row1 ++ row2))
      (zlen (pre ++ row1 ++ row2) + 518) (zlen (bpre ++ merged)) (Z.of_nat hl) (4 * Z.of_nat n)
  else merge_pairs alg (S k) (pre ++ row1 ++ row2 ++ post) (bpre ++ brest) (zlen pre) (zlen pre + 518) (zlen bpre)
    (Z.of_nat hl) (4 * Z.of_nat n) = Some None.
Proof.
  intros H1 H2 Hl Hn Hs Hb. pose proof H1 as (_ & _ & _ & Hz1 & _). pose proof H2 as (_ & _ & _ & Hz2 & _).
  cbn [merge_pairs]. change (ROW_SIZE alg) with 518. change (BSTR_INDEX_BYTES alg) with 3.
  rewrite (slice_row pre row1 _ _ _ Hz1 eq_refl eq_refl). cbn [mbind option_bind].
  assert (vec_slice (pre ++ row1 ++ row2 ++ post) (zlen pre + 518) (zlen pre + 518 + 518) = Some row2) as ->
    by (rewrite (app_assoc pre); apply slice_row; rewrite ?zlen_app; lia).
  cbn [mbind option_bind]. rewrite !(pair_checks hl n _ _ r1 r2) by done. destruct (pair_ok r1 r2) eqn:Hok; [|done].
  destruct (merge_rows_spec hl n row1 row2 (take 518 brest) r1 r2) as (merged & E & Hm);
    [done|done|done|done|unfold pair_ok in Hok; lia|done|unfold zlen; rewrite length_take; lia|].
  exists merged. split; [done|]. pose proof Hm as (_ & _ & _ & Hzm & _).
  rewrite <- (take_drop 518 brest) at 1. rewrite slice_row; [|unfold zlen; rewrite length_take; lia|done|done]. cbn [mbind option_bind].
  rewrite E. cbn [mbind option_bind]. rewrite <- (take_drop 518 brest) at 1.
  rewrite vec_write_middle; [|done|unfold zlen in Hzm; rewrite length_take; lia]. cbn [mbind option_bind].
  rewrite <- !app_assoc, !zlen_app. f_equal; lia.
Qed.

Lemma merge_pairs_spec hl n k pre rows post rs bpre brest : Forall2 (holds hl n) rows rs -> length rs = (2 * k)%nat ->
  (3 <= hl)%nat -> (0 < n)%nat -> (hl - 3 + 8 * n <= 518)%nat -> (k * 518 <= length brest)%nat ->
  match merge_all rs with
  | None => merge_pairs alg k (pre ++ mjoin rows ++ post) (bpre ++ brest) (zlen pre) (zlen pre + 518) (zlen bpre)
              (Z.of_nat hl) (4 * Z.of_nat n) = Some None
  | Some rs' => exists rows', merge_pairs alg k (pre ++ mjoin rows ++ post) (bpre ++ brest) (zlen pre) (zlen pre + 518) (zlen bpre)
              (Z.of_nat hl) (4 * Z.of_nat n) = Some (Some (bpre ++ mjoin rows' ++ drop (k * 518) brest)) /\
              Forall2 (holds (hl - 3) (2 * n)) rows' rs'
  end.
Proof.
  intros H Hk Hl Hn Hs. revert pre rows rs bpre brest H Hk. induction k as [|k IH]; intros pre rows rs bpre brest H Hk Hb.
  - destruct rs; [|cbn in Hk; lia]. exists []. cbn. by rewrite drop_0.
  - destruct rs as [|r1 [|r2 rs]]; [cbn in Hk; lia|cbn in Hk; lia|].
    apply Forall2_cons_inv_r in H as (row1 & rows1 & H1 & H & ->). apply Forall2_cons_inv_r in H as (row2 & rows2 & H2 & H & ->).
    change (mjoin (row1 :: row2 :: rows2)) with (row1 ++ row2 ++ mjoin rows2). rewrite <- !app_assoc.
    pose proof (merge_pairs_step hl n k pre row1 row2 (mjoin rows2 ++ post) r1 r2 bpre brest H1 H2 Hl Hn Hs ltac:(lia)) as Hstep.
    cbn [merge_all]. destruct (pair_ok r1 r2); [|done]. destruct Hstep as (merged & Hm & ->).
    specialize (IH (pre ++ row1 ++ row2) rows2 rs (bpre ++ merged) (drop 518 brest) H ltac:(cbn in Hk; lia)
      ltac:(rewrite length_drop; lia)).
    destruct (merge_all rs) as [rs'|]; [|done]. destruct IH as (rows' & -> & Hr). cbn [fmap option_fmap option_map].
    exists (merged :: rows'). split; [|by constructor]. cbn [mjoin list_join]. rewrite <- !app_assoc, drop_drop.
    by replace (518 + k * 518)%nat with (S k * 518)%nat by lia.
Qed.

Lemma merge_all_length rs rs' k : merge_all rs = Some rs' -> length rs = (2 * k)%nat -> length rs' = k.
Proof.
  revert rs rs'. induction k as [|k IH]; intros rs rs' E Hl; [destruct rs; [by injection E as <-|cbn in Hl; lia]|].
  destruct rs as [|r1 [|r2 rs]]; [cbn in Hl; lia|cbn in Hl; lia|]. cbn in E. destruct (pair_ok r1 r2); [|done].
  destruct (merge_all rs) as [rs1|] eqn:E1; [|done]. injection E as <-. cbn. f_equal. apply (IH rs); [done|cbn in Hl; lia].
Qed.

Lemma level_fits d : (d < 7)%nat -> (3 * (S d + 1) - 3 + 8 * 2 ^ (7 - S d) <= 518)%nat.
Proof. intros Hd. do 7 (destruct d as [|d]; [vm_compute; lia|]). lia. Qed.

Lemma mjoin_length rows rs hl n : Forall2 (holds hl n) rows rs -> length (mjoin rows) = (length rs * 518)%nat.
Proof.
  induction 1 as [|row r rows rs (_ & _ & _ & Hz & _) _ IH]; [done|].
  change (mjoin (row :: rows)) with (row ++ mjoin rows). rewrite length_app, IH.
  unfold zlen in Hz. cbn. lia.
Qed.

(** The levels from one with [2 ^ d] rows on. *)
Lemma merge_levels_spec d fuel rows rs post backup : Forall2 (holds (3 * (d + 1)) (2 ^ (7 - d))) rows rs ->
  length rs = (2 ^ d)%nat -> (d <= 7)%nat -> (d <= fuel)%nat -> (2 ^ d * 518 <= 2 * length backup)%nat ->
  match merge_depth d rs with
  | None => merge_levels alg fuel (mjoin rows ++ post) backup (Z.of_nat (3 * (d + 1))) (4 * Z.of_nat (2 ^ (7 - d))) (Z.of_nat (2 ^ d)) = Some None
  | Some rs' => exists rows' post',
      merge_levels alg fuel (mjoin rows ++ post) backup (Z.of_nat (3 * (d + 1))) (4 * Z.of_nat (2 ^ (7 - d))) (Z.of_nat (2 ^ d)) =
        Some (Some (mjoin rows' ++ post', 3)) /\ Forall2 (holds 3 128) rows' rs'
  end.
Proof.
  revert fuel rows rs post backup. induction d as [|d IH]; intros fuel rows rs post backup H Hl Hd Hf Hb.
  - exists rows, post. split; [|done]. by destruct fuel.
  - destruct fuel as [|fuel]; [lia|]. pose proof (Nat.pow_nonzero 2 d) as Hp. rewrite Nat.pow_succ_r' in Hl, Hb.
    cbn [merge_levels merge_depth]. rewrite Nat.pow_succ_r'. rewrite (proj2 (Z.leb_gt _ _)) by lia.
    replace (Z.of_nat (2 * 2 ^ d) / 2) with (Z.of_nat (2 ^ d)) by (rewrite Nat2Z.inj_mul, Z.mul_comm, Z.div_mul; lia).
    rewrite Nat2Z.id. change (ROW_SIZE alg) with 518. change (BSTR_INDEX_BYTES alg) with 3.
    pose proof (merge_pairs_spec _ _ (2 ^ d) [] rows post rs [] backup H Hl ltac:(lia)
      ltac:(apply Nat.neq_0_lt_0, Nat.pow_nonzero; lia) (level_fits d ltac:(lia)) ltac:(lia)) as Hpairs.
    cbn [app] in Hpairs. change (zlen []) with 0 in Hpairs. change (0 + 518) with 518 in Hpairs.
    destruct (merge_all rs) as [rs1|] eqn:E1; [|by rewrite Hpairs]. destruct Hpairs as (rows1 & -> & H1).
    cbn [mbind option_bind]. unfold usize_sub. rewrite (proj2 (Z.leb_le _ _)) by lia. cbn [mbind option_bind].
    replace (3 * (S d + 1) - 3)%nat with (3 * (d + 1))%nat in H1 by lia.
    assert (2 * 2 ^ (7 - S d) = 2 ^ (7 - d))%nat as E2 by (rewrite <- Nat.pow_succ_r'; f_equal; lia). rewrite E2 in H1.
    replace (Z.of_nat (3 * (S d + 1)) - 3) with (Z.of_nat (3 * (d + 1))) by lia.
    replace (4 * Z.of_nat (2 ^ (7 - S d)) * 2) with (4 * Z.of_nat (2 ^ (7 - d))) by lia.
    apply IH; [done|by eapply merge_all_length|lia|lia|]. rewrite length_app, (mjoin_length _ _ _ _ H). lia.
Qed.
