(* ===== verification/EquihashTheorems.v ===== *)
(** * What the Equihash verifier accepts

    The rows are filled with the strings of the indices of the solution; merging them level
    by level succeeds if and only if the indices form a tree in which the strings below each
    node cancel out ([solves]). What is checked of the indices of two rows is less than the
    code says: only the first index of the first row is compared. *)

From Stdlib Require Import ZifyBool.
From S2P Require Import Prelude Equihash EquihashBits EquihashRows.
From stdpp Require Import base numbers option list.

Open Scope Z_scope.

(** ** The specification *)

Section Spec.
Context {B : Blake2b}.

(** The string of an index: half of a digest of the input and half of the index. *)
Definition bstr (input : bytes) (index : Z) : bytes :=
  take 24 (drop (24 * Z.to_nat (index mod 2)) (blake2b 48 (BLAKE2B_PERSONALIZATION alg) (input ++ reverse (be_bytes 4 (index / 2))))).

(** The strings of some indices, combined. *)
Definition xor_all (input : bytes) (ix : list Z) : bytes :=
  foldr (zip_with Z.lxor) (replicate 24 0) (bstr input <$> ix).

(** The strings of the indices cancel out on the first [n] bytes. *)
Definition cancel (input : bytes) (n : nat) (ix : list Z) : Prop := take n (xor_all input ix) = replicate n 0.

(** A tree of height [h] over its leaves: the strings below a node at height [k] cancel out on
    [k] pieces of three bytes, and the first index of its left half is smaller than that of
    its right half. *)
Fixpoint tree_ok (input : bytes) (h : nat) (ix : list Z) : Prop :=
  match h with
  | O => True
  | S k =>
      let l := take (2 ^ k) ix in let r := drop (2 ^ k) ix in
      tree_ok input k l /\ tree_ok input k r /\ cancel input (3 * h) ix /\ leader l < leader r
  end.

#[export] Instance cancel_decision input n ix : Decision (cancel input n ix).
Proof. unfold cancel. apply _. Defined.

#[export] Instance tree_ok_decision input h ix : Decision (tree_ok input h ix).
Proof. revert ix. induction h as [|k IH]; intros ix; cbn; apply _. Defined.

(** The indices solve the puzzle of the input. *)
Definition solves (input : bytes) (ix : list Z) : Prop := tree_ok input 7 ix /\ cancel input 24 ix.

End Spec.

(** ** Filling the rows *)

Section Fill.
Context {B : Blake2b} {BL : Blake2bLaws B}.

Lemma be_value_digits l : be_value l = digits_value 256 l.
Proof. done. Qed.

Lemma bytes_unique l k : is_bytes l -> is_bytes k -> length l = length k -> be_value l = be_value k -> l = k.
Proof. rewrite !be_value_digits. by apply digits_unique. Qed.

Lemma join_be_value n ds : are_digits (256 ^ Z.of_nat n) ds ->
  be_value (mjoin (be_bytes n <$> ds)) = digits_value (256 ^ Z.of_nat n) ds.
Proof.
  induction ds as [|d ds IH] using rev_ind; [done|]. intros [Hd [H1 _]%Forall_cons]%Forall_app.
  rewrite fmap_app, join_app, be_value_app, digits_snoc, IH by done. cbn [fmap list_fmap]. cbn [mjoin list_join]. rewrite app_nil_r.
  by rewrite be_value_be_bytes, zlen_be_bytes, Z.mod_small.
Qed.

Lemma join_length {A} n (f : A -> bytes) l : (forall x, length (f x) = n) -> length (mjoin (f <$> l)) = (length l * n)%nat.
Proof.
  intros Hf. induction l as [|x l IH]; [done|]. change (mjoin (f <$> x :: l)) with (f x ++ mjoin (f <$> l)).
  rewrite length_app, Hf, IH. cbn. lia.
Qed.

Lemma join_bytes n ds : is_bytes (mjoin (be_bytes n <$> ds)).
Proof.
  induction ds as [|d ds IH]; [by apply Forall_nil|].
  change (mjoin (be_bytes n <$> d :: ds)) with (be_bytes n d ++ mjoin (be_bytes n <$> ds)).
  apply Forall_app. split; [apply is_bytes_be_bytes|done].
Qed.

Lemma bstr_length input index : 0 <= index -> length (bstr input index) = 24%nat.
Proof.
  intros Hi. unfold bstr. pose proof (blake2b_len 48 (BLAKE2B_PERSONALIZATION alg) (input ++ reverse (be_bytes 4 (index / 2)))) as Hl.
  unfold zlen in Hl. pose proof (Z.mod_pos_bound index 2). rewrite length_take, length_drop. lia.
Qed.

Lemma bstr_bytes input index : is_bytes (bstr input index).
Proof. unfold bstr. apply Forall_take, Forall_drop, blake2b_bytes. Qed.

(** The elements of a string are written one after the other. *)
Lemma write_elements ds pre old post : length old = (length ds * 3)%nat ->
  for_all (fun buffer '(rows, pos) =>
      element ← vec_slice buffer 0 3; rows ← vec_write rows pos element; Some (rows, pos + 3))
    (buffer_of 24 0 <$> ds) (pre ++ old ++ post, zlen pre) =
  Some (pre ++ mjoin (be_bytes 3 <$> ds) ++ post, zlen pre + zlen old).
Proof.
  revert pre old. induction ds as [|d ds IH]; intros pre old Hl.
  - destruct old; [|done]. cbn. by rewrite Z.add_0_r.
  - cbn [fmap list_fmap for_all]. change (buffer_of 24 0 d) with (be_bytes 3 d ++ [0]).
    rewrite vec_slice_head by done. cbn [mbind option_bind].
    rewrite <- (take_drop 3 old), <- app_assoc, vec_write_middle by (done || (rewrite length_take, length_be_bytes; cbn in Hl; lia)).
    cbn [mbind option_bind]. replace (zlen pre + 3) with (zlen (pre ++ be_bytes 3 d)) by (rewrite zlen_app, zlen_be_bytes; lia).
    rewrite app_assoc, IH by (rewrite length_drop; cbn in Hl; lia).
    change (mjoin (be_bytes 3 d :: list_fmap _ _ (be_bytes 3) ds)) with (be_bytes 3 d ++ mjoin (be_bytes 3 <$> ds)).
    rewrite <- !app_assoc. do 2 f_equal. rewrite !zlen_app, zlen_be_bytes. unfold zlen. rewrite length_take. cbn in Hl. lia.
Qed.

(** The row of an index. *)
Definition leaf (input : bytes) (index : Z) : Row := (bstr input index, [index]).

Lemma fill_row_spec input index pre old post : 0 <= index < 2 ^ 25 -> zlen old = 518 -> exists row,
  fill_row alg input index (pre ++ old ++ post, zlen pre) = Some (pre ++ row ++ post, zlen (pre ++ row)) /\
  holds 24 1 row (leaf input index).
Proof.
  intros Hi Ho. pose proof (bstr_length input index ltac:(lia)) as Hlen. pose proof (bstr_bytes input index) as Hbytes.
  unfold zlen in Ho.
  pose proof (Z.mod_pos_bound index 2 ltac:(lia)) as Hm. unfold fill_row.
  change (BSTRS_PER_HASH alg) with 2. change (Equihash.N alg) with 192. change (BSTR_INDEX_BYTES alg) with 3.
  change (BSTR_INDEX_BITS alg) with 24. change (ROW_HASH_LENGTH alg) with 24. change (ROW_SIZE alg) with 518.
  unfold generate_hash. change (HASH_SIZE alg) with 48. change HSIZE with 48. set (digest := blake2b 48 _ _).
  assert (zlen digest = 48) as Hd by (by apply blake2b_len). rewrite Hd. cbn [Z.eqb mbind option_bind Pos.eqb].
  assert (index mod 2 * 192 / 8 = 24 * (index mod 2)) as -> by (replace (index mod 2 * 192) with (24 * (index mod 2) * 8) by lia; by apply Z.div_mul).
  change (192 / 8) with 24. rewrite vec_slice_some by lia. cbn [mbind option_bind].
  replace (Z.to_nat (24 * (index mod 2) + 24 - 24 * (index mod 2))) with 24%nat by lia.
  replace (Z.to_nat (24 * (index mod 2))) with (24 * Z.to_nat (index mod 2))%nat by lia. fold digest in Hlen, Hbytes.
  change (take 24 (drop (24 * Z.to_nat (index mod 2)) digest)) with (bstr input index).
  destruct (expand_array_spec 24 ltac:(lia) (fun buffer '(rows, pos) =>
      element ← vec_slice buffer 0 3; rows ← vec_write rows pos element; Some (rows, pos + 3)) 0 ltac:(by vm_compute)
      (bstr input index) 8 (pre ++ old ++ post, zlen pre)) as (ds & -> & Hds & Hdd & Hv); [done|unfold zlen; lia|].
  rewrite <- (take_drop 24 old), <- (app_assoc (take 24 old)), write_elements by (rewrite length_take; lia).
  cbn [mbind option_bind]. assert (mjoin (be_bytes 3 <$> ds) = bstr input index) as ->.
  { apply bytes_unique; [apply join_bytes|done|by rewrite (join_length 3), Hds by (apply length_be_bytes)|].
    by rewrite <- Hv, join_be_value. }
  rewrite <- (take_drop 4 (drop 24 old)), <- (app_assoc (take 4 _)), (app_assoc pre).
  rewrite vec_write_middle by (rewrite ?zlen_app, ?length_take, ?length_drop, ?length_be_bytes; unfold zlen; lia).
  exists (bstr input index ++ be_bytes 4 index ++ drop 4 (drop 24 old)). cbn [mbind option_bind].
  split.
  - rewrite <- !app_assoc. do 2 f_equal. rewrite !zlen_app, zlen_be_bytes. unfold zlen. rewrite !length_drop. lia.
  - split_and!; cbn [leaf fst snd]; [done|done|repeat constructor; cbn; lia| |].
    + rewrite !zlen_app, zlen_be_bytes. unfold zlen. rewrite !length_drop. lia.
    + by exists (drop 4 (drop 24 old)).
Qed.

Lemma fill_rows input ds pre old : are_digits (2 ^ 25) ds -> length old = (length ds * 518)%nat -> exists rows,
  for_all (fun buffer => fill_row alg input (be_value buffer)) (buffer_of 25 0 <$> ds) (pre ++ old, zlen pre) =
    Some (pre ++ mjoin rows, zlen pre + zlen old) /\ Forall2 (holds 24 1) rows (leaf input <$> ds).
Proof.
  revert pre old. induction ds as [|d ds IH]; intros pre old Hd Ho.
  - exists []. destruct old; [|done]. cbn. rewrite Z.add_0_r. split; [done|constructor].
  - apply Forall_cons in Hd as [Hd Hds]. cbn [fmap list_fmap for_all]. change (buffer_of 25 0 d) with (be_bytes 4 d ++ []).
    rewrite app_nil_r, be_value_be_bytes, Z.mod_small by (change (256 ^ Z.of_nat 4) with (2 ^ 32); lia).
    rewrite <- (take_drop 518 old). cbn in Ho.
    destruct (fill_row_spec input d pre (take 518 old) (drop 518 old)) as (row & -> & Hrow);
      [done|unfold zlen; rewrite length_take; lia|].
    cbn [mbind option_bind]. rewrite app_assoc.
    destruct (IH (pre ++ row) (drop 518 old)) as (rows & -> & Hrows); [done|rewrite length_drop; lia|].
    exists (row :: rows). split; [|by constructor]. change (mjoin (row :: rows)) with (row ++ mjoin rows).
    rewrite <- app_assoc. do 2 f_equal. pose proof Hrow as (_ & _ & _ & Hz & _). rewrite !zlen_app, Hz. unfold zlen.
    rewrite length_take, length_drop. lia.
Qed.

End Fill.

(** ** Trees *)

Section Trees.
Context {B : Blake2b} {BL : Blake2bLaws B} (input : bytes).

Abbreviation xor := (zip_with Z.lxor).
Abbreviation positive := (Forall (fun i => 0 <= i)).

Lemma xor_assoc l1 l2 l3 : xor l1 (xor l2 l3) = xor (xor l1 l2) l3.
Proof.
  revert l2 l3. induction l1 as [|a l1 IH]; intros [|b l2] [|c l3]; cbn; try done. by rewrite Z.lxor_assoc, IH.
Qed.

Lemma xor_zero n l : length l = n -> xor (replicate n 0) l = l.
Proof. revert l. induction n as [|n IH]; intros [|a l] Hl; try done. cbn. rewrite IH; [done|]. by injection Hl. Qed.

Lemma xor_zero_r n l : length l = n -> xor l (replicate n 0) = l.
Proof. revert l. induction n as [|n IH]; intros [|a l] Hl; try done. cbn. rewrite IH, Z.lxor_0_r; [done|]. by injection Hl. Qed.

Lemma xor_all_length ix : positive ix -> length (xor_all input ix) = 24%nat.
Proof.
  induction 1 as [|i ix Hi _ IH]; [done|]. change (xor_all input (i :: ix)) with (xor (bstr input i) (xor_all input ix)).
  rewrite length_zip_with, IH, bstr_length by done. done.
Qed.

Lemma xor_all_app ix jx : positive ix -> positive jx -> xor_all input (ix ++ jx) = xor (xor_all input ix) (xor_all input jx).
Proof.
  intros Hi Hj. induction Hi as [|i ix Hi _ IH]; [by symmetry; apply xor_zero, xor_all_length|].
  change (xor_all input ((i :: ix) ++ jx)) with (xor (bstr input i) (xor_all input (ix ++ jx))).
  by rewrite IH, xor_assoc.
Qed.

Lemma xor_cancel l k : length l = length k -> xor l k = replicate (length l) 0 <-> l = k.
Proof.
  revert k. induction l as [|a l IH]; intros [|b k] Hl; try done. injection Hl as Hl. cbn. split.
  - intros [= E1 E2]. apply Z.lxor_eq in E1. apply IH in E2; [|done]. by subst.
  - intros [= -> ->]. rewrite Z.lxor_nilpotent. f_equal. by apply IH.
Qed.

(** The node over some indices, at height [h]. *)
Definition node (h : nat) (ix : list Z) : Row := (drop (3 * h) (xor_all input ix), ix).

Lemma cancel_app n ix jx : positive ix -> positive jx -> (n <= 24)%nat ->
  cancel input n (ix ++ jx) <-> take n (xor_all input ix) = take n (xor_all input jx).
Proof.
  intros Hi Hj Hn. unfold cancel. rewrite xor_all_app, zip_with_take by done.
  pose proof (xor_all_length ix Hi). pose proof (xor_all_length jx Hj).
  rewrite <- (xor_cancel (take n (xor_all input ix)) (take n (xor_all input jx))) by (rewrite !length_take; lia). rewrite length_take. by replace (n `min` _)%nat with n by lia.
Qed.

Lemma tree_cancel h ix : tree_ok input h ix -> cancel input (3 * h) ix.
Proof. destruct h; [done|]. cbn [tree_ok]. tauto. Qed.

(** The first index of a tree is its smallest. *)
Lemma tree_leader h ix : tree_ok input h ix -> length ix = (2 ^ h)%nat -> Forall (fun i => leader ix <= i) ix.
Proof.
  revert ix. induction h as [|h IH]; intros ix Ht Hl.
  - destruct ix as [|i [|]]; [done| |done]. repeat constructor. cbn. lia.
  - cbn [tree_ok] in Ht. destruct Ht as (H1 & H2 & _ & Hlt). rewrite Nat.pow_succ_r' in Hl.
    apply IH in H1; [|rewrite length_take; lia]. apply IH in H2; [|rewrite length_drop; lia].
    assert (leader ix = leader (take (2 ^ h) ix)) as E.
    { destruct ix; [by rewrite take_nil|]. pose proof (Nat.pow_nonzero 2 h). by destruct (2 ^ h)%nat. }
    assert (Forall (fun i => leader (take (2 ^ h) ix) <= i) (take (2 ^ h) ix ++ drop (2 ^ h) ix)) as HF.
    { apply Forall_app. split; [done|]. eapply Forall_impl; [done|]. cbn. lia. }
    rewrite take_drop in HF. by rewrite E.
Qed.

(** Neighbours pass the checks if and only if they make up a tree. *)
Lemma node_pair h ix jx : (3 * S h <= 24)%nat -> positive ix -> positive jx -> length ix = (2 ^ h)%nat -> length jx = (2 ^ h)%nat ->
  tree_ok input h ix -> tree_ok input h jx ->
  pair_ok (node h ix) (node h jx) = bool_decide (tree_ok input (S h) (ix ++ jx)).
Proof.
  intros Hh Hi Hj Li Lj Hti Htj. unfold pair_ok. cbn [node fst snd].
  pose proof (tree_cancel _ _ Hti) as Ci. pose proof (tree_cancel _ _ Htj) as Cj. unfold cancel in Ci, Cj.
  assert (take 3 (drop (3 * h) (xor_all input ix)) = take 3 (drop (3 * h) (xor_all input jx)) <-> cancel input (3 * S h) (ix ++ jx)) as E.
  { rewrite cancel_app by done. replace (3 * S h)%nat with (3 * h + 3)%nat by lia. rewrite <- !take_take_drop, Ci, Cj.
    split; [by intros ->|]. intros E. by apply app_inv_head in E. }
  apply Bool.eq_iff_eq_true. rewrite bool_decide_eq_true, !andb_true_iff, !bool_decide_eq_true, E, Z.ltb_lt.
  cbn [tree_ok]. rewrite (take_app_length' ix), (drop_app_length' ix) by done. split; [tauto|].
  intros (_ & _ & Hc & Hlt). split_and!; [done|done|]. pose proof (tree_leader _ _ Htj Lj) as Hmin.
  intros Hin. eapply Forall_forall in Hmin; [|done]. lia.
Qed.

Lemma node_merge h ix jx : positive ix -> positive jx -> merge_row (node h ix) (node h jx) = node (S h) (ix ++ jx).
Proof.
  intros Hi Hj. unfold merge_row, node. cbn [fst snd]. f_equal. rewrite !drop_drop, xor_all_app, zip_with_drop by done.
  by replace (3 * S h)%nat with (3 * h + 3)%nat by lia.
Qed.

(** A block of leaves of height [h]. *)
Definition block (h : nat) (ix : list Z) : Prop := positive ix /\ length ix = (2 ^ h)%nat.

Fixpoint join_pairs (bs : list (list Z)) : list (list Z) :=
  match bs with
  | a :: b :: bs => (a ++ b) :: join_pairs bs
  | _ => []
  end.

Lemma join_pairs_spec h k bs : Forall (block h) bs -> length bs = (2 * k)%nat ->
  Forall (block (S h)) (join_pairs bs) /\ length (join_pairs bs) = k /\ mjoin (join_pairs bs) = mjoin bs.
Proof.
  revert bs. induction k as [|k IH]; intros bs Hb Hl; [by destruct bs; [|cbn in Hl; lia]|].
  destruct bs as [|a [|b bs]]; [cbn in Hl; lia|cbn in Hl; lia|].
  apply Forall_cons in Hb as [[Ha La] [[Hb Lb] Hbs]%Forall_cons]. destruct (IH bs Hbs ltac:(cbn in Hl; lia)) as (H1 & H2 & H3).
  cbn [join_pairs]. split_and!; [|cbn; lia|].
  - apply Forall_cons. split; [|done]. split; [by apply Forall_app|]. rewrite length_app, Nat.pow_succ_r'. lia.
  - change (mjoin ((a ++ b) :: join_pairs bs)) with ((a ++ b) ++ mjoin (join_pairs bs)). rewrite H3. by rewrite <- app_assoc.
Qed.

Lemma merge_all_nodes h k bs : (3 * S h <= 24)%nat -> Forall (block h) bs -> Forall (tree_ok input h) bs -> length bs = (2 * k)%nat ->
  merge_all (node h <$> bs) =
  if decide (Forall (tree_ok input (S h)) (join_pairs bs)) then Some (node (S h) <$> join_pairs bs) else None.
Proof.
  intros Hh. revert bs. induction k as [|k IH]; intros bs Hb Ht Hl.
  - destruct bs; [|cbn in Hl; lia]. cbn. by rewrite decide_True by by apply Forall_nil.
  - destruct bs as [|a [|b bs]]; [cbn in Hl; lia|cbn in Hl; lia|].
    apply Forall_cons in Hb as [[Ha La] [[Hb Lb] Hbs]%Forall_cons]. apply Forall_cons in Ht as [Ta [Tb Tbs]%Forall_cons].
    cbn [fmap list_fmap merge_all join_pairs]. rewrite node_pair, node_merge by done.
    change (list_fmap _ _ (node h) bs) with (node h <$> bs). rewrite IH by (done || cbn in Hl; lia).
    case_bool_decide as Hab.
    + destruct (decide (Forall _ (join_pairs bs))); cbn; [rewrite decide_True by by apply Forall_cons|rewrite decide_False by by intros []%Forall_cons]; done.
    + by rewrite decide_False by by intros []%Forall_cons.
Qed.

(** The blocks of a tree are trees. *)
Lemma tree_blocks h d bs : tree_ok input (h + d) (mjoin bs) -> Forall (block h) bs -> length bs = (2 ^ d)%nat -> Forall (tree_ok input h) bs.
Proof.
  revert bs. induction d as [|d IH]; intros bs Ht Hb Hl.
  - destruct bs as [|b [|]]; [done| |done]. rewrite Nat.add_0_r in Ht. cbn in Ht. rewrite app_nil_r in Ht. by repeat constructor.
  - rewrite Nat.add_succ_r in Ht. cbn [tree_ok] in Ht. destruct Ht as (H1 & H2 & _). rewrite Nat.pow_succ_r' in Hl.
    rewrite <- (take_drop (2 ^ d) bs) in Hb, H1, H2 |- *. rewrite join_app in H1, H2.
    apply Forall_app in Hb as [Hb1 Hb2].
    assert (length (mjoin (take (2 ^ d) bs)) = 2 ^ (h + d))%nat as Hlen.
    { rewrite Nat.pow_add_r, Nat.mul_comm. transitivity (length (take (2 ^ d) bs) * 2 ^ h)%nat; [|rewrite length_take; f_equal; lia].
      clear H1 H2 Hb2. induction Hb1 as [|b l [_ Hb] _ IHl]; [done|]. change (mjoin (b :: l)) with (b ++ mjoin l).
      rewrite length_app, Hb, IHl. cbn. lia. }
    rewrite take_app_length' in H1 by done. rewrite drop_app_length' in H2 by done.
    apply Forall_app. split; apply IH; try done; rewrite ?length_take, ?length_drop; lia.
Qed.

Lemma merge_depth_nodes d h bs : (3 * (h + d) <= 24)%nat -> Forall (block h) bs -> Forall (tree_ok input h) bs ->
  length bs = (2 ^ d)%nat ->
  merge_depth d (node h <$> bs) = if decide (tree_ok input (h + d) (mjoin bs)) then Some [node (h + d) (mjoin bs)] else None.
Proof.
  revert h bs. induction d as [|d IH]; intros h bs Hh Hb Ht Hl.
  - destruct bs as [|b [|]]; [done| |done]. apply Forall_cons in Ht as [Ht _]. rewrite Nat.add_0_r.
    change (mjoin [b]) with (b ++ []). rewrite app_nil_r. by rewrite decide_True.
  - rewrite Nat.pow_succ_r' in Hl. cbn [merge_depth]. rewrite (merge_all_nodes h (2 ^ d)) by (done || lia).
    destruct (join_pairs_spec h (2 ^ d) bs Hb Hl) as (Hb' & Hl' & Ej). rewrite Nat.add_succ_r, <- Ej.
    destruct (decide (Forall _ _)) as [Ht'|Ht'].
    + cbn [mbind option_bind]. rewrite IH by (done || lia). done.
    + cbn [mbind option_bind]. rewrite decide_False; [done|]. intros Htree. apply Ht'.
      by apply (tree_blocks (S h) d).
Qed.

End Trees.

(** ** The verifier *)

Section Verifier.
Context {B : Blake2b} {BL : Blake2bLaws B}.

Lemma digits_positive b ds : are_digits b ds -> Forall (fun i => 0 <= i) ds.
Proof. intros H. eapply Forall_impl; [exact H|]. cbn. lia. Qed.

Lemma leaves_blocks ds : Forall (fun i => 0 <= i) ds -> Forall (block 0) ((fun i => [i]) <$> ds).
Proof. induction 1; constructor; [|done]. split; [by repeat constructor|done]. Qed.

Lemma join_singles (ds : list Z) : mjoin ((fun i => [i]) <$> ds) = ds.
Proof. induction ds as [|d ds IH]; [done|]. by change (d :: mjoin ((fun i => [i]) <$> ds) = d :: ds); rewrite IH. Qed.

Lemma leaf_node input ds : Forall (fun i => 0 <= i) ds -> leaf input <$> ds = node input 0 <$> ((fun i => [i]) <$> ds).
Proof.
  induction 1 as [|d ds Hd _ IH]; [done|]. cbn [fmap list_fmap]. f_equal; [|exact IH]. unfold leaf, node. f_equal.
  change (xor_all input [d]) with (zip_with Z.lxor (bstr input d) (replicate 24 0)). rewrite xor_zero_r; [done|].
  by apply bstr_length.
Qed.

Lemma forallb_zero l : forallb (fun x => x =? 0) l = true <-> l = replicate (length l) 0.
Proof.
  induction l as [|a l IH]; [done|]. cbn. rewrite andb_true_iff, IH, Z.eqb_eq. split; [by intros [-> <-]|by intros [= -> <-]].
Qed.

(** The verifier with the indices of a solution. *)
Lemma merge_leaves input ds post : are_digits (2 ^ 25) ds -> length ds = 128%nat -> forall rows backup,
  Forall2 (holds 24 1) rows (leaf input <$> ds) -> zlen backup = 64 * 518 ->
  match merge_levels alg 128 (mjoin rows ++ post) backup 24 4 128 with
  | Some None => ~ tree_ok input 7 ds
  | Some (Some (current_rows, hash_len)) => tree_ok input 7 ds /\ hash_len = 3 /\
      exists row post', current_rows = row ++ post' /\ holds 3 128 row (node input 7 ds)
  | None => False
  end.
Proof.
  intros Hd Hl rows backup Hr Hb. pose proof (digits_positive _ _ Hd) as Hpos.
  pose proof (merge_levels_spec 7 128 rows (leaf input <$> ds) post backup Hr ltac:(by rewrite length_fmap) ltac:(lia) ltac:(lia)
    ltac:(change (2 ^ 7)%nat with 128%nat; unfold zlen in Hb; lia)) as H.
  rewrite (leaf_node input ds Hpos) in H. rewrite (merge_depth_nodes input 7 0) in H;
    [|lia|by apply leaves_blocks|by apply Forall_fmap, Forall_true|by rewrite length_fmap].
  rewrite join_singles in H. change (0 + 7)%nat with 7%nat in H. change (Z.of_nat (3 * (7 + 1))) with 24 in H.
  change (4 * Z.of_nat (2 ^ (7 - 7))) with 4 in H. change (Z.of_nat (2 ^ 7)) with 128 in H.
  destruct (decide (tree_ok input 7 ds)); [|by rewrite H]. destruct H as (rows' & post' & -> & H'). split_and!; [done|done|].
  apply Forall2_cons_inv_r in H' as (row & rows1 & Hrow & H1 & ->). apply Forall2_nil_inv_r in H1 as ->.
  exists row, post'. split; [|done]. by change (mjoin [row]) with (row ++ []); rewrite app_nil_r.
Qed.

Lemma verify_spec input solution : is_bytes solution -> zlen solution = SOLUTION_COMPRESSED_SIZE alg -> exists ix,
  length ix = 128%nat /\ are_digits (2 ^ 25) ix /\ digits_value (2 ^ 25) ix = be_value solution /\
  verify_equihash_solution alg input solution = Some (bool_decide (solves input ix)).
Proof.
  intros Hs Hl. change (SOLUTION_COMPRESSED_SIZE alg) with 400 in Hl. unfold verify_equihash_solution, for_each_solution_index.
  change (BSTR_INDEX_BITS alg + 1) with 25. change (SOLUTION_PAD_BYTES alg) with 0. change (ROW_SIZE alg) with 518.
  change (BSTR_INDICES_IN_SOLUTION alg) with 128. change (ROW_HASH_LENGTH alg) with 24.
  set (rows1 := replicate (Z.to_nat (128 * 518)) 0). set (rows2 := replicate (Z.to_nat (128 * 518 / 2)) 0).
  destruct (expand_array_spec 25 ltac:(lia) (fun buffer => fill_row alg input (be_value buffer)) 0 ltac:(by vm_compute) solution 128
    (rows1, 0)) as (ds & -> & Hn & Hd & Hv); [done|rewrite Hl; lia|].
  exists ds. split_and!; [done|done|done|].
  assert (zlen rows1 = 128 * 518) as H1 by (unfold zlen, rows1; rewrite length_replicate; by apply Z2Nat.id).
  assert (zlen rows2 = 64 * 518) as H2 by (unfold zlen, rows2; rewrite length_replicate; by apply Z2Nat.id).
  clearbody rows1 rows2.
  destruct (fill_rows input ds [] rows1) as (rows & E & Hr); [done|unfold zlen in H1; lia|].
  cbn [app] in E. change (zlen []) with 0 in E. rewrite E. cbn [mbind option_bind].
  pose proof (mjoin_length _ _ _ _ Hr) as Hj. rewrite length_fmap, Hn in Hj.
  assert (zlen (mjoin rows) / 518 = 128) as -> by (replace (zlen (mjoin rows)) with (128 * 518) by (unfold zlen; lia); by apply Z.div_mul).
  change (Z.to_nat 128) with 128%nat. pose proof (merge_leaves input ds [] Hd Hn rows rows2 Hr H2) as Hm. rewrite app_nil_r in Hm.
  destruct (merge_levels alg 128 (mjoin rows) rows2 24 4 128) as [[[current hl]|]|]; [| |done].
  - destruct Hm as (Ht & -> & row & post' & -> & (Hh & _ & _ & Hz & junk & ->)). cbn [mbind option_bind].
    rewrite vec_slice_head by done. cbn [mbind option_bind]. f_equal. rewrite (take_app_length' _ _ (Z.to_nat 3)) by done.
    apply Bool.eq_iff_eq_true. rewrite bool_decide_eq_true. cbn [node fst] in *. rewrite forallb_zero, Hh.
    change (3 * 7)%nat with 21%nat in *. unfold solves, cancel. change 24%nat with (21 + 3)%nat.
    rewrite <- take_take_drop, (tree_cancel input 7 ds Ht : take 21 _ = _), (take_ge (drop 21 _)) by lia. split.
    + intros ->. done.
    + intros [_ E']. change (replicate (21 + 3) 0) with (replicate 21 0 ++ replicate 3 0) in E'. exact (app_inv_head _ _ _ E').
  - cbn [mbind option_bind]. rewrite bool_decide_false; [done|]. by intros [].
Qed.

(** C16: On a solution of the right size the verifier does not fail, and accepts it if and
    only if its 128 indices, the digits of the solution in base [2 ^ 25], form a tree in which
    the strings below a node at height [k] cancel out on their first [k] pieces, those of all
    indices cancel out, and left halves start with smaller indices than right halves. *)
Theorem equihash_accepts_trees input solution : is_bytes solution -> zlen solution = SOLUTION_COMPRESSED_SIZE alg -> exists ix,
  length ix = 128%nat /\ are_digits (2 ^ 25) ix /\ digits_value (2 ^ 25) ix = be_value solution /\
  verify_equihash_solution alg input solution = Some (bool_decide (solves input ix)).
Proof. apply verify_spec. Qed.

End Verifier.

(** ** Solutions and their indices *)

Lemma for_all_snoc ds acc : are_digits (2 ^ 25) ds ->
  for_all (fun buffer l => Some (l ++ [be_value buffer])) (buffer_of 25 0 <$> ds) acc = Some (acc ++ ds).
Proof.
  revert acc. induction ds as [|d ds IH]; intros acc Hd; [by rewrite app_nil_r|]. apply Forall_cons in Hd as [Hd Hds].
  cbn [fmap list_fmap for_all mbind option_bind]. change (buffer_of 25 0 d) with (be_bytes 4 d ++ []).
  rewrite app_nil_r, be_value_be_bytes, Z.mod_small by (change (256 ^ Z.of_nat 4) with (2 ^ 32); lia).
  change (list_fmap _ _ (buffer_of 25 0) ds) with (buffer_of 25 0 <$> ds). rewrite IH, <- app_assoc by done. done.
Qed.

Lemma compress_spec ix : are_digits (2 ^ 25) ix -> length ix = 128%nat -> exists solution,
  copy_from_u32 alg ix = Some solution /\ zlen solution = SOLUTION_COMPRESSED_SIZE alg /\ is_bytes solution /\
  be_value solution = digits_value (2 ^ 25) ix.
Proof.
  intros Hd Hl. unfold copy_from_u32. change (BSTR_INDEX_BITS alg + 1) with 25. change (4 - (25 + 7) / 8) with (4 - (25 + 7) / 8).
  assert (25 * (zlen ix * 4) / (8 * 4) = 400) as -> by (unfold zlen; rewrite Hl; reflexivity).
  apply compress_array_spec; [lia|done|unfold zlen; rewrite Hl; reflexivity].
Qed.

(** C20: The indices that a solution was compressed from are the ones the verifier reads, in
    order, and the solution has the size that blocks require. *)
Theorem solution_roundtrip ix : are_digits (2 ^ 25) ix -> length ix = 128%nat -> exists solution,
  copy_from_u32 alg ix = Some solution /\ zlen solution = SOLUTION_COMPRESSED_SIZE alg /\
  for_each_solution_index alg solution (fun i l => Some (l ++ [i])) [] = Some ix.
Proof.
  intros Hd Hl. destruct (compress_spec ix Hd Hl) as (solution & E & Hz & Hb & Hv). exists solution. split_and!; [done|done|].
  unfold for_each_solution_index. change (BSTR_INDEX_BITS alg + 1) with 25. change (SOLUTION_PAD_BYTES alg) with 0.
  destruct (expand_array_spec 25 ltac:(lia) (fun buffer l => Some (l ++ [be_value buffer])) 0 ltac:(by vm_compute) solution 128 [])
    as (ds & -> & Hn & Hd' & Hv'); [done|rewrite Hz; reflexivity|].
  rewrite for_all_snoc by done. cbn [app]. f_equal. apply (digits_unique (2 ^ 25)); [lia|done|done|congruence|congruence].
Qed.

Definition counting : list Z := Z.of_nat <$> seq 0 128.

Lemma solution_roundtrip_witness : exists solution, copy_from_u32 alg counting = Some solution /\ zlen solution = 400 /\
  for_each_solution_index alg solution (fun i l => Some (l ++ [i])) [] = Some counting.
Proof. apply (solution_roundtrip counting); [by apply (bool_decide_unpack _)|done]. Defined.

(** ** A digest for evaluation *)

Definition zero_digest : Blake2b := fun size _ _ => replicate (Z.to_nat size) 0.

Lemma zero_digest_laws : Blake2bLaws zero_digest.
Proof.
  split; unfold blake2b, zero_digest; intros.
  - unfold zlen. rewrite length_replicate. lia.
  - by apply Forall_replicate.
Qed.

Lemma equihash_accepts_trees_witness : exists solution, copy_from_u32 alg counting = Some solution /\
  @verify_equihash_solution zero_digest alg [1; 2; 3] solution = Some true.
Proof.
  destruct (compress_spec counting) as (solution & E & Hz & Hb & Hv); [by apply (bool_decide_unpack _)|done|].
  exists solution. split; [done|].
  destruct (@equihash_accepts_trees zero_digest zero_digest_laws [1; 2; 3] solution Hb Hz) as (ix & Hl & Hd & Hx & ->).
  assert (ix = counting) as -> by (apply (digits_unique (2 ^ 25)); [lia|done|by apply (bool_decide_unpack _)|done|congruence]).
  by vm_compute.
Defined.

(** C40: The check that the indices of two rows are distinct compares only the first index of
    the first row with those of the second: the inner index is not reset, so that the loop over
    the other indices of the first row has nothing left to compare. Rows with the same further
    indices pass. *)
Theorem distinct_indices_compare_first hash1 i ix junk1 hash2 jx junk2 : is_u32 i -> Forall is_u32 jx ->
  length hash1 = length hash2 -> jx <> [] ->
  distinct_indices (hash1 ++ pack (i :: ix) ++ junk1) (hash2 ++ pack jx ++ junk2) (zlen hash1) (4 * zlen jx) = Some (bool_decide (i ∉ jx)).
Proof. apply distinct_rows. Qed.

(** The rows share the index 9. *)
Lemma distinct_indices_compare_first_witness :
  distinct_indices ([0; 1; 2] ++ pack [5; 9] ++ []) ([3; 4; 5] ++ pack [7; 9] ++ []) 3 8 = Some true.
Proof.
  refine (distinct_indices_compare_first [0; 1; 2] 5 [9] [] [3; 4; 5] [7; 9] [] _ _ eq_refl _).
  - by vm_compute.
  - by repeat constructor; vm_compute.
  - discriminate.
Defined.
