(* ===== verification/Engine.v ===== *)
(** * Errors of blocks and the machine under the engines

    [ethcore/src/error.rs] (the errors of blocks), the parameters of [spec/spec.rs] that the
    verification of blocks reads, the part of [machine/impls.rs] that fills in a header from its
    parent, and the header of a block that is opened ([OpenBlock::new] of [block.rs]).
    Checks run in the monad [Check]: they have no state, and panics are apart from errors. *)

From Stdlib Require Import ZifyBool.
From S2P Require Import Prelude Transaction Blocks Rewards.
From stdpp Require Import base numbers option list strings.

Open Scope Z_scope.

(** ** Errors *)

Record OutOfBounds : Type := mkOob { oob_min : option Z; oob_max : option Z; oob_found : Z }.
Record Mismatch : Type := mkMismatch { mis_expected : Z; mis_found : Z }.

Inductive BlockError : Type :=
| TooManyUncles (o : OutOfBounds)
| ExtraDataOutOfBounds (o : OutOfBounds)
| InvalidSealArity (m : Mismatch)
| TooMuchGasUsed (o : OutOfBounds)
| InvalidUnclesHash (m : Mismatch)
| UncleTooOld (o : OutOfBounds)
| UncleIsBrother (o : OutOfBounds)
| UncleInChain (hash : Z)
| DuplicateUncle (hash : Z)
| UncleParentNotInChain (hash : Z)
| InvalidStateRoot (m : Mismatch)
| InvalidGasUsed (m : Mismatch)
| InvalidTransactionsRoot (m : Mismatch)
| DifficultyOutOfBounds (o : OutOfBounds)
| InvalidDifficulty (m : Mismatch)
| MismatchedH256SealElement (m : Mismatch)
| InvalidProofOfWork (o : OutOfBounds)
| InvalidSeal
| InvalidGasLimit (o : OutOfBounds)
| InvalidReceiptsRoot (m : Mismatch)
| InvalidTimestamp (o : OutOfBounds)
| TemporarilyInvalid (o : OutOfBounds)
| InvalidLogBloom (m : Mismatch)
| InvalidNumber (m : Mismatch)
| RidiculousNumber (o : OutOfBounds)
| TimestampOverflow
| TooManyTransactions (sender : Z)
| UnknownParent (hash : Z)
| UnknownUncleParent (hash : Z)
| UnknownEpochTransition (number : Z)
| InvalidSolution.

(** [ErrorKind], with what checks of blocks give. *)
Inductive Error : Type :=
| EBlock (e : BlockError)
| ETransaction (e : transaction_error)
| EDecoder.

Abbreviation Check := (M unit Error).

Definition fail {A} (e : BlockError) : Check A := throw (EBlock e).

(** [if cond { return Err(e) }] *)
Definition reject_if (cond : bool) (e : BlockError) : Check unit := if cond then fail e else ret tt.

(** A check passes. *)
Definition passes {A} (m : Check A) : Prop := exists a, m tt = Ret a tt.

(** ** Parameters *)

Record EthashExtensions : Type := mkExtensions {
  ext_homestead_transition : Z;
  ext_dao_hardfork_transition : Z;
}.

(** [EthereumMachine], with the fields of its [CommonParams] that are read here. *)
Record EthereumMachine : Type := mkMachine {
  m_min_gas_limit : Z;
  m_gas_limit_bound_divisor : Z;
  m_maximum_extra_data_size : Z;
  m_dust_protection_transition : Z;
  m_nonce_cap_increment : Z;
  m_validate_chain_id_transition : Z;
  m_eip155_transition : Z;
  m_chain_id : Z;
  m_reward_config : RewardConfig;
  m_ethash_extensions : option EthashExtensions;
}.

(** What [verify_transaction_basic] reads of the machine. *)
Definition tx_params (m : EthereumMachine) : TxParams :=
  mkTxParams (ext_homestead_transition <$> m_ethash_extensions m) (m_validate_chain_id_transition m) (m_eip155_transition m) (m_chain_id m).

(** ** The engine, as the verification of blocks uses it *)

Class EthEngine (E : Type) : Type := {
  eng_machine : E -> EthereumMachine;
  eng_seal_fields : E -> Header -> Z;
  eng_maximum_uncle_count : E -> Z -> Z;
  eng_maximum_gas_limit : E -> option Z;
  eng_is_timestamp_valid : E -> Z -> Z -> bool;
  eng_verify_block_basic : E -> Header -> Check unit;
  eng_verify_block_unordered : E -> Header -> Check unit;
  eng_verify_block_family : E -> Header -> Header -> Check unit;
}.

(** ** Headers: encoding, hashes, setters *)

(** [RlpStream::append] for the types of the fields of a header, and lists of items. *)
Class RlpStream : Type := {
  rlp_h256 : Z -> bytes;
  rlp_address : Z -> bytes;
  rlp_bloom : Z -> bytes;
  rlp_u256 : Z -> bytes;
  rlp_u64 : Z -> bytes;
  rlp_bytes : bytes -> bytes;
  rlp_list : list bytes -> bytes;
}.

(** [keccak_512] *)
Class Keccak512 : Type := keccak_512 : bytes -> bytes.

Section Headers.
Context {K : Keccak} {K5 : Keccak512} {RS : RlpStream}.

Definition stream_rlp (with_seal : bool) (h : Header) : bytes :=
  rlp_list ([rlp_h256 (h_parent_hash h); rlp_h256 (h_uncles_hash h); rlp_address (h_author h); rlp_h256 (h_state_root h);
             rlp_h256 (h_transactions_root h); rlp_h256 (h_receipts_root h); rlp_bloom (h_log_bloom h);
             rlp_u256 (h_difficulty h); rlp_u64 (h_number h); rlp_u256 (h_gas_limit h); rlp_u256 (h_gas_used h);
             rlp_u64 (h_timestamp h); rlp_bytes (h_extra_data h)] ++ if with_seal then h_seal h else []).

Definition header_hash (h : Header) : Z := keccak (stream_rlp true h).
Definition bare_hash (h : Header) : Z := keccak (stream_rlp false h).
Definition pow_hash (h : Header) : bytes := keccak_512 (stream_rlp false h).

(** A setter that changes a field resets the memoised hash; the hash is then that of the new
    fields. *)
Definition rehash (h : Header) : Header :=
  mkHeader (h_parent_hash h) (h_timestamp h) (h_number h) (h_author h) (h_transactions_root h) (h_uncles_hash h)
    (h_extra_data h) (h_state_root h) (h_receipts_root h) (h_log_bloom h) (h_gas_used h) (h_gas_limit h)
    (h_difficulty h) (h_seal h) (header_hash h).

Definition set_difficulty (d : Z) (h : Header) : Header :=
  rehash (mkHeader (h_parent_hash h) (h_timestamp h) (h_number h) (h_author h) (h_transactions_root h) (h_uncles_hash h)
    (h_extra_data h) (h_state_root h) (h_receipts_root h) (h_log_bloom h) (h_gas_used h) (h_gas_limit h)
    d (h_seal h) (h_hash h)).

Definition set_gas_limit (g : Z) (h : Header) : Header :=
  rehash (mkHeader (h_parent_hash h) (h_timestamp h) (h_number h) (h_author h) (h_transactions_root h) (h_uncles_hash h)
    (h_extra_data h) (h_state_root h) (h_receipts_root h) (h_log_bloom h) (h_gas_used h) g
    (h_difficulty h) (h_seal h) (h_hash h)).

Definition set_extra_data (x : bytes) (h : Header) : Header :=
  rehash (mkHeader (h_parent_hash h) (h_timestamp h) (h_number h) (h_author h) (h_transactions_root h) (h_uncles_hash h)
    x (h_state_root h) (h_receipts_root h) (h_log_bloom h) (h_gas_used h) (h_gas_limit h)
    (h_difficulty h) (h_seal h) (h_hash h)).

Definition set_seal (seal : list bytes) (h : Header) : Header :=
  rehash (mkHeader (h_parent_hash h) (h_timestamp h) (h_number h) (h_author h) (h_transactions_root h) (h_uncles_hash h)
    (h_extra_data h) (h_state_root h) (h_receipts_root h) (h_log_bloom h) (h_gas_used h) (h_gas_limit h)
    (h_difficulty h) seal (h_hash h)).

(** ** The header of a new block *)

Definition PARITY_GAS_LIMIT_DETERMINANT : Z := 37.

(** The arithmetic of [U256], of which overflow is a panic. *)
Definition round_block_gas_limit (gas_limit lower_limit upper_limit : Z) : option Z :=
  increased_gas_limit ← u256_add gas_limit (PARITY_GAS_LIMIT_DETERMINANT - gas_limit mod PARITY_GAS_LIMIT_DETERMINANT);
  if upper_limit <? increased_gas_limit then
    decreased_gas_limit ← u256_sub increased_gas_limit PARITY_GAS_LIMIT_DETERMINANT;
    Some (if decreased_gas_limit <? lower_limit then gas_limit else decreased_gas_limit)
  else Some increased_gas_limit.

Definition DAO_HARD_FORK : bytes := [100; 97; 111; 45; 104; 97; 114; 100; 45; 102; 111; 114; 107].

(** [lower_limit..=upper_limit], the gas limits that the parent's allows. *)
Definition gas_limit_range (m : EthereumMachine) (gas_limit : Z) : option (Z * Z) :=
  step ← div gas_limit (m_gas_limit_bound_divisor m);
  lower ← u256_sub gas_limit step;
  lower ← u256_add lower 1;
  upper ← u256_add gas_limit step;
  upper ← u256_sub upper 1;
  Some (lower, upper).

(** The gas limit of [populate_from_parent] with ethash extensions. *)
Definition extended_gas_limit (m : EthereumMachine) (gas_limit gas_used gas_floor_target gas_ceil_target : Z) : option Z :=
  '(lower_limit, upper_limit) ← gas_limit_range m gas_limit;
  gas_limit ←
    (if gas_limit <? gas_floor_target then
       round_block_gas_limit (Z.min gas_floor_target upper_limit) lower_limit upper_limit
     else if gas_ceil_target <? gas_limit then
       round_block_gas_limit (Z.max gas_ceil_target lower_limit) lower_limit upper_limit
     else
       let total_lower_limit := Z.max lower_limit gas_floor_target in
       let total_upper_limit := Z.min upper_limit gas_ceil_target in
       used ← mul gas_used 6;
       wanted ← div (used / 5) (m_gas_limit_bound_divisor m);
       wanted ← u256_add lower_limit wanted;
       round_block_gas_limit (Z.max gas_floor_target (Z.min total_upper_limit wanted)) total_lower_limit total_upper_limit);
  if (gas_limit <? lower_limit) || (upper_limit <? gas_limit) then None else Some gas_limit.

(** Without extensions; each limit is computed where it is used. *)
Definition plain_gas_limit (m : EthereumMachine) (gas_limit gas_floor_target : Z) : option Z :=
  step ← div gas_limit (m_gas_limit_bound_divisor m);
  if gas_limit <? gas_floor_target then
    upper ← u256_add gas_limit step;
    upper ← u256_sub upper 1;
    Some (Z.min gas_floor_target upper)
  else
    lower ← u256_sub gas_limit step;
    lower ← u256_add lower 1;
    Some (Z.max gas_floor_target lower).

(** [EthereumMachine::populate_from_parent] *)
Definition populate_from_parent (m : EthereumMachine) (header parent : Header) (gas_floor_target gas_ceil_target : Z)
    : option Header :=
  let header := set_difficulty (h_difficulty parent) header in
  let gas_limit := h_gas_limit parent in
  if gas_limit =? 0 then None
  else match m_ethash_extensions m with
       | Some ext =>
           gas_limit ← extended_gas_limit m gas_limit (h_gas_used header) gas_floor_target gas_ceil_target;
           let header := set_gas_limit gas_limit header in
           if h_number header <? ext_dao_hardfork_transition ext then Some header
           else
             last ← usize_add (ext_dao_hardfork_transition ext) 9;
             Some (if h_number header <=? last then set_extra_data DAO_HARD_FORK header else header)
       | None =>
           gas_limit ← plain_gas_limit m gas_limit gas_floor_target;
           Some (set_gas_limit gas_limit header)
       end.

End Headers.
