(* ===== verification/Ethash.v ===== *)
(** * The proof-of-work engine

    [ethcore/src/ethereum/ethash.rs] with [verification/equihash_verifier.rs] and
    [types/src/solution.rs]: seals, the difficulty of a block, the checks of the engine, and
    the rewards it pays when a block is closed. Sha-256 and the decoding of RLP items are
    parameters. *)

From Stdlib Require Import ZifyBool.
From S2P Require Import Prelude Transaction Blocks Rewards Equihash Engine.
From stdpp Require Import base numbers option list.

Open Scope Z_scope.

(** ** Seals *)

Class Sha256 : Type := sha256 : bytes -> bytes.

(** [Rlp::as_val::<H256>] (32 bytes) and the payload of an item. *)
Class RlpItem : Type := {
  rlp_decode_h256 : bytes -> option bytes;
  rlp_payload : bytes -> option bytes;
}.

Definition SOLUTION_SIZE : Z := 400.

(** [EquihashSolution] is an array of [SOLUTION_SIZE] bytes. *)
Definition solution_decode {RI : RlpItem} (item : bytes) : option bytes :=
  value ← rlp_payload item;
  if zlen value =? SOLUTION_SIZE then Some value else None.

Definition solution_try_from (s : bytes) : option bytes := if zlen s =? SOLUTION_SIZE then Some s else None.

Record EthashParams : Type := mkEthashParams {
  ep_minimum_difficulty : Z;
  ep_difficulty_bound_divisor : Z;
  ep_difficulty_increment_divisor : Z;
  ep_metropolis_difficulty_increment_divisor : Z;
  ep_duration_limit : Z;
  ep_homestead_transition : Z;
  ep_difficulty_hardfork_transition : Z;
  ep_difficulty_hardfork_bound_divisor : Z;
  ep_eip100b_transition : Z;
  ep_ecip1017_era_rounds : Z;
  ep_block_reward : list (Z * Z);
  ep_expip2_transition : Z;
  ep_expip2_duration_limit : Z;
}.

(** [Ethash]. [block_reward] is a map that is ordered by block number. *)
Record Ethash : Type := mkEthash {
  et_params : EthashParams;
  et_machine : EthereumMachine;
  et_rewards : Rewards;
}.

Definition update_rewards (eras : Rewards) (e : Ethash) : Ethash := mkEthash (et_params e) (et_machine e) eras.

Section Seals.
Context {K : Keccak} {K5 : Keccak512} {RS : RlpStream} {B : Blake2b} {SH : Sha256} {RI : RlpItem}.

(** Two rounds of sha-256, the bytes reversed. *)
Definition calc_proof (input : bytes) : Z := be_value (reverse (sha256 (sha256 input))).

Definition check_block_seal (header : Header) : Check (bytes * bytes) :=
  match h_seal header with
  | [s0; s1] =>
      match rlp_decode_h256 s0 with
      | None => fail InvalidSeal
      | Some nonce =>
          match solution_decode s1 with
          | None => fail InvalidSeal
          | Some solution => ret (nonce, solution)
          end
      end
  | _ => fail InvalidSeal
  end.

Definition verify_block_pow (header : Header) : Check unit :=
  do '(nonce, solution) <- check_block_seal header in
  do target <- expect (difficulty_to_boundary (h_difficulty header)) in
  let input := pow_hash header ++ nonce ++ SOLUTION_PREFIX OnChainEquihash ++ solution in
  let proof := calc_proof input in
  reject_if (target <? proof) (InvalidProofOfWork (mkOob None (Some target) proof)).

Definition verify_block_solution (header : Header) : Check unit :=
  do '(nonce, solution) <- check_block_seal header in
  let input := pow_hash header ++ nonce in
  do ok <- expect (verify_equihash_solution OnChainEquihash input solution) in
  reject_if (negb ok) InvalidSolution.

(** ** The difficulty *)

Definition KECCAK_EMPTY_LIST_RLP : Z := 0x1dcc4de8dec75d7aab85b567b6ccd41ad312451b948a7413f0a142fd40d49347.

Definition calculate_difficulty (e : Ethash) (header parent : Header) : option Z :=
  let p := et_params e in
  if h_number header =? 0 then None
  else
    let parent_has_uncles := negb (h_uncles_hash parent =? KECCAK_EMPTY_LIST_RLP) in
    let min_difficulty := ep_minimum_difficulty p in
    let difficulty_hardfork := ep_difficulty_hardfork_transition p <=? h_number header in
    let difficulty_bound_divisor :=
      if difficulty_hardfork then ep_difficulty_hardfork_bound_divisor p else ep_difficulty_bound_divisor p in
    let expip2_hardfork := ep_expip2_transition p <=? h_number header in
    let duration_limit := if expip2_hardfork then ep_expip2_duration_limit p else ep_duration_limit p in
    let frontier_limit := ep_homestead_transition p in
    target ←
      (if h_number header <? frontier_limit then
         limit ← usize_add (h_timestamp parent) duration_limit;
         step ← div (h_difficulty parent) difficulty_bound_divisor;
         if limit <=? h_timestamp header then u256_sub (h_difficulty parent) step
         else u256_add (h_difficulty parent) step
       else
         let '(increment_divisor, threshold) :=
           if h_number header <? ep_eip100b_transition p then (ep_difficulty_increment_divisor p, 1)
           else if parent_has_uncles then (ep_metropolis_difficulty_increment_divisor p, 2)
           else (ep_metropolis_difficulty_increment_divisor p, 1) in
         elapsed ← usize_sub (h_timestamp header) (h_timestamp parent);
         diff_inc ← div elapsed increment_divisor;
         step ← div (h_difficulty parent) difficulty_bound_divisor;
         if diff_inc <=? threshold then
           up ← mul step (threshold - diff_inc);
           u256_add (h_difficulty parent) up
         else
           let multiplier := Z.min (diff_inc - threshold) 99 in
           down ← mul step multiplier;
           Some (u256_saturating_sub (h_difficulty parent) down));
    Some (Z.max min_difficulty target).

(** [Engine::populate_from_parent] *)
Definition ethash_populate_from_parent (e : Ethash) (header parent : Header) : option Header :=
  difficulty ← calculate_difficulty e header parent;
  Some (set_difficulty difficulty header).

(** ** The header of a new block *)

(** [open_block_header_timestamp], at [now] in seconds. *)
Definition open_block_header_timestamp (now parent_timestamp : Z) : option Z :=
  next ← usize_add parent_timestamp 1;
  Some (Z.max now next).

(** The header of [OpenBlock::new], before the state of the block is touched. *)
Definition open_header (e : Ethash) (now : Z) (parent : Header) (author : Z) (gas_range_target : Z * Z) (extra_data : bytes)
    : option Header :=
  number ← usize_add (h_number parent) 1;
  timestamp ← open_block_header_timestamp now (h_timestamp parent);
  let header := rehash (mkHeader (h_hash parent) timestamp number author KECCAK_NULL_RLP KECCAK_EMPTY_LIST_RLP extra_data
                          KECCAK_NULL_RLP KECCAK_NULL_RLP 0 0 0 0 [] 0) in
  let gas_floor_target := Z.max gas_range_target.1 (m_min_gas_limit (et_machine e)) in
  let gas_ceil_target := Z.max gas_range_target.2 gas_floor_target in
  header ← populate_from_parent (et_machine e) header parent gas_floor_target gas_ceil_target;
  ethash_populate_from_parent e header parent.

(** ** The checks of the engine *)

Definition seal_fields : Z := 2.

Definition maximum_uncle_count (e : Ethash) : Z := rc_maximum_uncle_count (m_reward_config (et_machine e)).

Definition maximum_gas_limit : option Z := Some 0x7fffffffffffffff.

Definition is_timestamp_valid (header_timestamp parent_timestamp : Z) : bool := parent_timestamp <? header_timestamp.

Definition ethash_verify_block_basic (e : Ethash) (header : Header) : Check unit :=
  let min_difficulty := ep_minimum_difficulty (et_params e) in
  reject_if (h_difficulty header <? min_difficulty)
    (DifficultyOutOfBounds (mkOob (Some min_difficulty) None (h_difficulty header))) ;;;
  verify_block_pow header.

Definition ethash_verify_block_unordered (e : Ethash) (header : Header) : Check unit := verify_block_solution header.

Definition ethash_verify_local_seal (e : Ethash) (header : Header) : Check unit :=
  ethash_verify_block_basic e header ;;;
  ethash_verify_block_unordered e header.

Definition ethash_verify_block_family (e : Ethash) (header parent : Header) : Check unit :=
  reject_if (h_number header =? 0) (RidiculousNumber (mkOob (Some 1) None (h_number header))) ;;;
  do expected_difficulty <- expect (calculate_difficulty e header parent) in
  reject_if (negb (h_difficulty header =? expected_difficulty)) (InvalidDifficulty (mkMismatch expected_difficulty (h_difficulty header))).

#[export] Instance Ethash_engine : EthEngine Ethash := {
  eng_machine := et_machine;
  eng_seal_fields _ _ := seal_fields;
  eng_maximum_uncle_count e _ := maximum_uncle_count e;
  eng_maximum_gas_limit _ := maximum_gas_limit;
  eng_is_timestamp_valid _ := is_timestamp_valid;
  eng_verify_block_basic := ethash_verify_block_basic;
  eng_verify_block_unordered := ethash_verify_block_unordered;
  eng_verify_block_family := ethash_verify_block_family;
}.

End Seals.

(** ** Rewards *)

(** [RewardKind] of [engines/block_reward.rs]. *)
Inductive RewardKind : Type := Author | EmptyStep | External | Uncle (depth : Z).

Definition reward_kind_uncle (number uncle : Z) : RewardKind :=
  Uncle (if (uncle <? number) && (number - uncle <=? 255) then number - uncle else 0).

(** The multiplications of [ecip1017_eras_block_reward], one pair for each era. *)
Fixpoint era_loop (n : nat) (reward divi : Z) : option (Z * Z) :=
  match n with
  | O => Some (reward, divi)
  | S n => reward ← mul reward 4; divi ← mul divi 5; era_loop n reward divi
  end.

Definition ecip1017_eras_block_reward (era_rounds reward block_number : Z) : option (Z * Z) :=
  whole ← div block_number era_rounds;
  let eras := if negb (block_number =? 0) && (block_number mod era_rounds =? 0) then whole - 1 else whole in
  '(reward, divi) ← era_loop (Z.to_nat eras) reward 1;
  reward ← div reward divi;
  Some (eras, reward).

Fixpoint uncle_rewards (eras reward number : Z) (uncles : list Header) : option (list (Z * RewardKind * Z)) :=
  match uncles with
  | [] => Some []
  | u :: uncles =>
      uncle_reward ← (if eras =? 0 then calc_uncle_miner_reward reward number (h_number u) else Some (u256_shr reward 5));
      rest ← uncle_rewards eras reward number uncles;
      Some ((h_author u, reward_kind_uncle number (h_number u), uncle_reward) :: rest)
  end.

(** The last entry for a block that is not above [number]. *)
Definition block_reward_at (rewards : list (Z * Z)) (number : Z) : option Z :=
  snd <$> List.find (fun entry => entry.1 <=? number) (reverse rewards).

(** The reward of a block before uncles: a configured one, or that of the era. *)
Definition base_reward_at (e : Ethash) (number : Z) : option Z :=
  match block_reward_at (ep_block_reward (et_params e)) number with
  | Some r => Some r
  | None =>
      era ← calc_era_by_block_number (m_reward_config (et_machine e)) number;
      Some (default 0 (get_era_base_reward era (et_rewards e)))
  end.

(** The rewards of [on_close_block] without a reward contract. *)
Definition era_rewards (e : Ethash) (author number : Z) (uncles : list Header) : option (list (Z * RewardKind * Z)) :=
  base_reward ← base_reward_at e number;
  '(eras, reward) ← ecip1017_eras_block_reward (ep_ecip1017_era_rounds (et_params e)) base_reward number;
  author_reward ← calc_author_miner_reward reward (zlen uncles);
  rest ← uncle_rewards eras reward number uncles;
  Some ((author, Author, author_reward) :: rest).

Definition beneficiaries (author number : Z) (uncles : list Header) : list (Z * RewardKind) :=
  (author, Author) :: ((fun u => (h_author u, reward_kind_uncle number (h_number u))) <$> uncles).

(** ** Closing a block *)

Section Close.
Context {S Er : Type} (add_balance : Z -> Z -> M S Er unit).

(** The reward contract, from which block on it is asked, and its call. *)
Context (contract : option (Z * (list (Z * RewardKind) -> M S Er (list (Z * Z))))).

Fixpoint apply_block_rewards (rewards : list (Z * RewardKind * Z)) : M S Er unit :=
  match rewards with
  | [] => ret tt
  | (author, _, block_reward) :: rewards => add_balance author block_reward ;;; apply_block_rewards rewards
  end.

Definition close_rewards (e : Ethash) (author number : Z) (uncles : list Header) : M S Er (list (Z * RewardKind * Z)) :=
  match contract with
  | Some (transition, call) =>
      if transition <=? number then
        do rewards <- call (beneficiaries author number uncles) in
        ret ((fun '(author, amount) => (author, External, amount)) <$> rewards)
      else expect (era_rewards e author number uncles)
  | None => expect (era_rewards e author number uncles)
  end.

Definition on_close_block (e : Ethash) (author number : Z) (uncles : list Header) : M S Er unit :=
  do rewards <- close_rewards e author number uncles in
  apply_block_rewards rewards.

End Close.
