(* ===== verification/Verification.v ===== *)
(** * Verification of blocks

    [ethcore/src/verification/verification.rs]: the checks of a block on its own, of its
    transactions and seals, against its parent and uncles, and of the header that enacting
    it gives. Engine and chain are interfaces ([EthEngine], [BlockProvider]); times are
    nanoseconds since the epoch. *)

From Stdlib Require Import ZifyBool.
From S2P Require Import Prelude Transaction Blocks Rewards Engine.
From stdpp Require Import base numbers option list gmap strings.

Open Scope Z_scope.

Definition MAX_UNCLE_AGE : nat := 6.

Definition NANOS : Z := 1000000000.

(** ** Interfaces *)

(** [SystemTime::checked_add] of a time and a number of seconds. *)
Class SystemTime : Type := checked_add : Z -> Z -> option Z.

Class SystemTimeLaws (T : SystemTime) : Prop :=
  checked_add_sum t secs t' : checked_add t secs = Some t' -> t' = t + secs * NANOS.

(** [BlockProvider]: the parent in the details of a block, the uncles of a stored block, and
    its header. *)
Class BlockProvider (P : Type) : Type := {
  bp_parent : P -> Z -> option Z;
  bp_uncle_hashes : P -> Z -> option (list Z);
  bp_block_header_data : P -> Z -> option Header;
}.

(** The items of an encoded block: its transactions, raw, and its list of uncles, raw. *)
Class BlockRlp : Type := {
  rlp_transactions : bytes -> option (list bytes);
  rlp_uncles : bytes -> option bytes;
}.

(** [ordered_trie_root] *)
Class TrieRoot : Type := ordered_trie_root : list bytes -> Z.

(** ** Blocks *)

(** [Unverified] *)
Record Unverified : Type := mkUnverified {
  un_header : Header;
  un_transactions : list UnverifiedTransaction;
  un_uncles : list Header;
  un_bytes : bytes;
}.

Record PreverifiedBlock : Type := mkPreverified {
  pv_header : Header;
  pv_transactions : list SignedTransaction;
  pv_uncles : list Header;
  pv_bytes : bytes;
}.

(** ** Loops *)

(** [for x in l { f(x)?; }] *)
Fixpoint check_all {A} (f : A -> Check unit) (l : list A) : Check unit :=
  match l with
  | [] => ret tt
  | x :: l => f x ;;; check_all f l
  end.

(** [.map(f).collect::<Result<Vec<_>, _>>()] *)
Fixpoint collect {A B} (f : A -> Check B) (l : list A) : Check (list B) :=
  match l with
  | [] => ret []
  | x :: l => do y <- f x in do ys <- collect f l in ret (y :: ys)
  end.

(** [option.ok_or(e)?] *)
Definition ok_or {A} (o : option A) (e : Error) : Check A := match o with Some a => ret a | None => throw e end.

(** The outcome of a check of transactions, of which a panic is [None]. *)
Definition lift_transaction {A} (r : option (A + transaction_error)) : Check A :=
  match r with
  | None => panic
  | Some (inl a) => ret a
  | Some (inr e) => throw (ETransaction e)
  end.

Section Verification.
Context {E : Type} {EE : EthEngine E} {P : Type} {BP : BlockProvider P}.
Context {K : Keccak} {ST : SystemTime} {BR : BlockRlp} {TR : TrieRoot} {TC : TransactionCrypto}.

(** ** A header and its block *)

Definition ACCEPTABLE_DRIFT : Z := 15 * NANOS.

(** The checks of the timestamp of a full block. *)
Definition verify_timestamp (now : Z) (header : Header) : Check unit :=
  let max_time := now + ACCEPTABLE_DRIFT in
  let invalid_threshold := max_time + ACCEPTABLE_DRIFT * 9 in
  do timestamp <- ok_or (checked_add 0 (h_timestamp header)) (EBlock TimestampOverflow) in
  reject_if (invalid_threshold <? timestamp) (InvalidTimestamp (mkOob None (Some max_time) timestamp)) ;;;
  reject_if (max_time <? timestamp) (TemporarilyInvalid (mkOob None (Some max_time) timestamp)).

(** The extra data of the blocks after the DAO hard fork. *)
Definition verify_dao_extra_data (m : EthereumMachine) (header : Header) : Check unit :=
  match m_ethash_extensions m with
  | None => ret tt
  | Some ext =>
      if h_number header <? ext_dao_hardfork_transition ext then ret tt
      else
        do last <- expect (usize_add (ext_dao_hardfork_transition ext) 9) in
        reject_if ((h_number header <=? last) && negb (bool_decide (h_extra_data header = DAO_HARD_FORK)))
          (ExtraDataOutOfBounds (mkOob None None 0))
  end.

Definition verify_header_params (now : Z) (header : Header) (engine : E) (is_full check_seal : bool) : Check unit :=
  (if check_seal then
     let expected_seal_fields := eng_seal_fields engine header in
     reject_if (negb (zlen (h_seal header) =? expected_seal_fields))
       (InvalidSealArity (mkMismatch expected_seal_fields (zlen (h_seal header))))
   else ret tt) ;;;
  reject_if (U64_MOD - 1 <=? h_number header) (RidiculousNumber (mkOob None (Some (U64_MOD - 1)) (h_number header))) ;;;
  reject_if (h_gas_limit header <? h_gas_used header)
    (TooMuchGasUsed (mkOob None (Some (h_gas_limit header)) (h_gas_used header))) ;;;
  let min_gas_limit := m_min_gas_limit (eng_machine engine) in
  reject_if (h_gas_limit header <? min_gas_limit)
    (InvalidGasLimit (mkOob (Some min_gas_limit) None (h_gas_limit header))) ;;;
  match eng_maximum_gas_limit engine with
  | Some limit => reject_if (limit <? h_gas_limit header) (InvalidGasLimit (mkOob None (Some limit) (h_gas_limit header)))
  | None => ret tt
  end ;;;
  let maximum_extra_data_size := m_maximum_extra_data_size (eng_machine engine) in
  reject_if (negb (h_number header =? 0) && (maximum_extra_data_size <? zlen (h_extra_data header)))
    (ExtraDataOutOfBounds (mkOob None (Some maximum_extra_data_size) (zlen (h_extra_data header)))) ;;;
  verify_dao_extra_data (eng_machine engine) header ;;;
  (if is_full then verify_timestamp now header else ret tt).

Definition verify_block_integrity (block : Unverified) : Check unit :=
  do tx <- ok_or (rlp_transactions (un_bytes block)) EDecoder in
  let expected_root := ordered_trie_root tx in
  let root := h_transactions_root (un_header block) in
  reject_if (negb (expected_root =? root)) (InvalidTransactionsRoot (mkMismatch expected_root root)) ;;;
  do uncles <- ok_or (rlp_uncles (un_bytes block)) EDecoder in
  let expected_uncles := keccak uncles in
  let hash := h_uncles_hash (un_header block) in
  reject_if (negb (expected_uncles =? hash)) (InvalidUnclesHash (mkMismatch expected_uncles hash)).

Definition verify_block_basic (now : Z) (block : Unverified) (engine : E) (check_seal : bool) : Check unit :=
  verify_header_params now (un_header block) engine true check_seal ;;;
  verify_block_integrity block ;;;
  (if check_seal then eng_verify_block_basic engine (un_header block) else ret tt) ;;;
  check_all (fun uncle =>
    verify_header_params now uncle engine false check_seal ;;;
    (if check_seal then eng_verify_block_basic engine uncle else ret tt)) (un_uncles block) ;;;
  check_all (fun t => lift_transaction (verify_transaction_basic (tx_params (eng_machine engine)) t (h_number (un_header block))))
    (un_transactions block).

(** ** Signatures *)

(** [verify_transaction_unordered] of the machine, with the cap on nonces. *)
Definition verify_signature (nonce_cap : option Z) (t : UnverifiedTransaction) : Check SignedTransaction :=
  do t <- match signed_new t with inl t => ret t | inr msg => throw (ETransaction (InvalidSignature msg)) end in
  match nonce_cap with
  | Some max_nonce =>
      reject_if (max_nonce <=? t_nonce (ut_unsigned (sg_transaction t))) (TooManyTransactions (sg_sender t)) ;;; ret t
  | None => ret t
  end.

Definition verify_block_unordered (block : Unverified) (engine : E) (check_seal : bool) : Check PreverifiedBlock :=
  let header := un_header block in
  (if check_seal then
     eng_verify_block_unordered engine header ;;;
     check_all (eng_verify_block_unordered engine) (un_uncles block)
   else ret tt) ;;;
  let m := eng_machine engine in
  do nonce_cap <-
    (if m_dust_protection_transition m <=? h_number header then
       do cap <- expect (usize_mul (m_nonce_cap_increment m) (h_number header)) in ret (Some cap)
     else ret None) in
  do transactions <- collect (verify_signature nonce_cap) (un_transactions block) in
  ret (mkPreverified header transactions (un_uncles block) (un_bytes block)).

(** ** Parents *)

(** The assertion states what the callers have looked up. *)
Definition verify_parent (now : Z) (header parent : Header) (engine : E) : Check unit :=
  assert_ ((h_parent_hash header =? 0) || (h_hash parent =? h_parent_hash header)) ;;;
  let gas_limit_divisor := m_gas_limit_bound_divisor (eng_machine engine) in
  (if negb (eng_is_timestamp_valid engine (h_timestamp header) (h_timestamp parent)) then
     do min <- ok_or (checked_add now (Z.min (h_timestamp parent + 1) (U64_MOD - 1))) (EBlock TimestampOverflow) in
     do found <- ok_or (checked_add now (h_timestamp header)) (EBlock TimestampOverflow) in
     fail (InvalidTimestamp (mkOob (Some min) None found))
   else ret tt) ;;;
  do next <- expect (usize_add (h_number parent) 1) in
  reject_if (negb (h_number header =? next)) (InvalidNumber (mkMismatch next (h_number header))) ;;;
  reject_if (h_number header =? 0) (RidiculousNumber (mkOob (Some 1) None (h_number header))) ;;;
  let parent_gas_limit := h_gas_limit parent in
  do step <- expect (div parent_gas_limit gas_limit_divisor) in
  do min_gas <- expect (u256_sub parent_gas_limit step) in
  do max_gas <- expect (u256_add parent_gas_limit step) in
  reject_if ((h_gas_limit header <=? min_gas) || (max_gas <=? h_gas_limit header))
    (InvalidGasLimit (mkOob (Some min_gas) (Some max_gas) (h_gas_limit header))).

(** ** Uncles *)

(** The ancestors of a block and their uncles, with what is excluded already. *)
Fixpoint excluded_blocks (n : nat) (bc : P) (hash : Z) (excluded : list Z) : Check (list Z) :=
  match n with
  | O => ret excluded
  | S n =>
      match bp_parent bc hash with
      | Some parent =>
          do uncles <- expect (bp_uncle_hashes bc hash) in
          excluded_blocks n bc parent (excluded ++ [parent] ++ uncles)
      | None => ret excluded
      end
  end.

(** The ancestor [depth] generations up. *)
Fixpoint ancestor_at (depth : nat) (bc : P) (hash : Z) : Z :=
  match depth with
  | O => hash
  | S depth => match bp_parent bc hash with Some parent => ancestor_at depth bc parent | None => hash end
  end.

Definition uncle_depth (header uncle : Header) : Z :=
  if h_number uncle <? h_number header then h_number header - h_number uncle else 0.

(** One round of the loop over the uncles. *)
Definition verify_uncle (now : Z) (header uncle : Header) (bc : P) (engine : E) (excluded verified : list Z) : Check unit :=
  reject_if (bool_decide (h_hash uncle ∈ excluded)) (UncleInChain (h_hash uncle)) ;;;
  reject_if (bool_decide (h_hash uncle ∈ verified)) (DuplicateUncle (h_hash uncle)) ;;;
  let depth := uncle_depth header uncle in
  (if Z.of_nat MAX_UNCLE_AGE <? depth then
     fail (UncleTooOld (mkOob (Some (h_number header - depth)) (Some (h_number header - 1)) (h_number uncle)))
   else if depth <? 1 then
     do last <- expect (usize_sub (h_number header) 1) in
     fail (UncleIsBrother (mkOob (Some (h_number header - depth)) (Some last) (h_number uncle)))
   else ret tt) ;;;
  do uncle_parent <- ok_or (bp_block_header_data bc (h_parent_hash uncle)) (EBlock (UnknownUncleParent (h_parent_hash uncle))) in
  let expected_uncle_parent := ancestor_at (Z.to_nat depth) bc (h_parent_hash header) in
  reject_if (negb (expected_uncle_parent =? h_hash uncle_parent)) (UncleParentNotInChain (h_hash uncle_parent)) ;;;
  verify_parent now uncle uncle_parent engine ;;;
  eng_verify_block_family engine uncle uncle_parent.

Fixpoint verify_uncle_list (now : Z) (header : Header) (uncles : list Header) (bc : P) (engine : E)
    (excluded verified : list Z) : Check unit :=
  match uncles with
  | [] => ret tt
  | uncle :: uncles =>
      verify_uncle now header uncle bc engine excluded verified ;;;
      verify_uncle_list now header uncles bc engine excluded (h_hash uncle :: verified)
  end.

Definition verify_uncles (now : Z) (block : PreverifiedBlock) (bc : P) (engine : E) : Check unit :=
  let header := pv_header block in
  let num_uncles := zlen (pv_uncles block) in
  let max_uncles := eng_maximum_uncle_count engine (h_number header) in
  if num_uncles =? 0 then ret tt
  else
    reject_if (max_uncles <? num_uncles) (TooManyUncles (mkOob None (Some max_uncles) num_uncles)) ;;;
    do excluded <- excluded_blocks MAX_UNCLE_AGE bc (h_parent_hash header) [h_hash header; h_parent_hash header] in
    verify_uncle_list now header (pv_uncles block) bc engine excluded [].

(** ** The family of a block *)

(** [verify_transaction] of the machine: the filter of transactions, if any. *)
Definition verify_transaction (allowed : option (Z -> Z -> SignedTransaction -> bool)) (t : SignedTransaction) (parent : Header)
    : Check unit :=
  match allowed with
  | None => ret tt
  | Some filter =>
      do number <- expect (usize_add (h_number parent) 1) in
      if negb (filter (h_hash parent) number t) then throw (ETransaction NotAllowed) else ret tt
  end.

Definition verify_block_family (now : Z) (header parent : Header) (engine : E)
    (allowed : option (Z -> Z -> SignedTransaction -> bool)) (do_full : option (PreverifiedBlock * P)) : Check unit :=
  verify_parent now header parent engine ;;;
  eng_verify_block_family engine header parent ;;;
  match do_full with
  | None => ret tt
  | Some (block, bc) =>
      verify_uncles now block bc engine ;;;
      check_all (fun tx => verify_transaction allowed tx parent) (pv_transactions block)
  end.

End Verification.

(** ** The enacted block *)

Definition verify_block_final (expected got : Header) : Check unit :=
  reject_if (negb (h_state_root expected =? h_state_root got)) (InvalidStateRoot (mkMismatch (h_state_root expected) (h_state_root got))) ;;;
  reject_if (negb (h_gas_used expected =? h_gas_used got)) (InvalidGasUsed (mkMismatch (h_gas_used expected) (h_gas_used got))) ;;;
  reject_if (negb (h_log_bloom expected =? h_log_bloom got)) (InvalidLogBloom (mkMismatch (h_log_bloom expected) (h_log_bloom got))) ;;;
  reject_if (negb (h_receipts_root expected =? h_receipts_root got))
    (InvalidReceiptsRoot (mkMismatch (h_receipts_root expected) (h_receipts_root got))).
