(* ===== verification/UncleProofs.v ===== *)
(** * Uncles

    What [verify_uncles] accepts on a chain that stores a tree of blocks ([provides]), and the
    rewards of the uncles it accepts. *)

From Stdlib Require Import ZifyBool.
From S2P Require Import Prelude Transaction Blocks Rewards Equihash Engine Ethash Verification VerificationProofs.
From stdpp Require Import base numbers option list gmap.

Open Scope Z_scope.

Section Uncles.
Context {K : Keccak} {K5 : Keccak512} {RS : RlpStream} {BL : Blake2b} {SH : Sha256} {RI : RlpItem} {ST : SystemTime}.
Context {P : Type} {BP : BlockProvider P}.
Context (e : Ethash) (Hok : ethash_ok e).

(** The chain answers for the blocks of [B]. *)
Record provides (bc : P) (B : gmap Z Block) : Prop := {
  pr_known h b : B !! h = Some b -> b_hash b = h /\ bp_parent bc h = Some (b_parent_hash b) /\
    bp_uncle_hashes bc h = Some (body_uncle_hashes (b_body b)) /\ bp_block_header_data bc h = Some (b_header b);
  pr_unknown h : B !! h = None -> bp_parent bc h = None;
}.

(** The block with a hash and its ancestors, [n] of them. *)
Fixpoint lineage (B : gmap Z Block) (n : nat) (h : Z) : list Block :=
  match n with
  | O => []
  | S n => match B !! h with Some b => b :: lineage B n (b_parent_hash b) | None => [] end
  end.

Context (bc : P) (B : gmap Z Block) (Hpr : provides bc B).

(** What the ancestors of a block exclude as uncles. *)
Definition taken (n : nat) (h : Z) : list Z :=
  mjoin ((fun b => b_parent_hash b :: body_uncle_hashes (b_body b)) <$> lineage B n h).

Lemma excluded_spec n h ex : excluded_blocks n bc h ex tt = Ret (ex ++ taken n h) tt.
Proof.
  revert h ex. induction n as [|n IH]; intros h ex; [by rewrite app_nil_r|]. cbn [excluded_blocks]. unfold taken. cbn [lineage].
  destruct (B !! h) as [b|] eqn:Eb.
  - destruct (pr_known _ _ Hpr h b Eb) as (_ & -> & Eu & _). unfold bind, expect. rewrite Eu. unfold ret. rewrite IH.
    f_equal. unfold taken. cbn [fmap list_fmap]. by rewrite <- !app_assoc.
  - rewrite (pr_unknown _ _ Hpr h Eb). cbn. by rewrite app_nil_r.
Qed.

Lemma lineage_lookup n h k b : lineage B n h !! k = Some b -> ancestor_at k bc h = b_hash b /\ B !! b_hash b = Some b.
Proof.
  revert h k. induction n as [|n IH]; intros h k Hk; [done|]. cbn [lineage] in Hk. destruct (B !! h) as [b'|] eqn:Eb; [|done].
  destruct (pr_known _ _ Hpr h b' Eb) as (Eh & Ep & _). destruct k as [|k].
  - injection Hk as <-. by rewrite Eh.
  - apply IH in Hk as [H1 H2]. split; [|done]. cbn [ancestor_at]. by rewrite Ep.
Qed.

(** The rules for one uncle. *)
Record uncle_ok (header uncle : Header) : Prop := {
  uo_new : h_hash uncle ∉ [h_hash header; h_parent_hash header] ++ taken MAX_UNCLE_AGE (h_parent_hash header);
  uo_depth : 1 <= h_number header - h_number uncle <= Z.of_nat MAX_UNCLE_AGE;
  uo_parent : exists up, bp_block_header_data bc (h_parent_hash uncle) = Some up /\
    ancestor_at (Z.to_nat (h_number header - h_number uncle)) bc (h_parent_hash header) = h_hash up /\
    passes (verify_parent (ST:=ST) 0 uncle up e) /\ passes (ethash_verify_block_family e uncle up);
}.

(** Whether a header passes against its parent does not depend on the time. *)
Lemma verify_parent_now now header parent : passes (verify_parent now header parent e) <-> passes (verify_parent 0 header parent e).
Proof.
  unfold verify_parent. rewrite !passes_seq. destruct (negb (eng_is_timestamp_valid _ _ _)); [|done].
  split; intros (_ & H & _); exfalso; apply passes_ok_or in H as (a & _ & H); apply passes_ok_or in H as (b & _ & (? & H)); done.
Qed.

Lemma verify_uncle_spec now header uncle verified : passes (verify_uncle now header uncle bc e
    ([h_hash header; h_parent_hash header] ++ taken MAX_UNCLE_AGE (h_parent_hash header)) verified) <->
  uncle_ok header uncle /\ h_hash uncle ∉ verified.
Proof.
  unfold verify_uncle. rewrite !passes_seq, !passes_reject, !bool_decide_eq_false, passes_ok_or.
  assert (passes (if Z.of_nat MAX_UNCLE_AGE <? uncle_depth header uncle then
      fail (UncleTooOld (mkOob (Some (h_number header - uncle_depth header uncle)) (Some (h_number header - 1)) (h_number uncle)))
    else if uncle_depth header uncle <? 1 then
      do last <- expect (usize_sub (h_number header) 1) in
      fail (UncleIsBrother (mkOob (Some (h_number header - uncle_depth header uncle)) (Some last) (h_number uncle)))
    else ret tt) <-> 1 <= h_number header - h_number uncle <= Z.of_nat MAX_UNCLE_AGE) as ->.
  { unfold uncle_depth, MAX_UNCLE_AGE. destruct (Z.ltb_spec (h_number uncle) (h_number header)); repeat case_bool; rewrite ?passes_ret; split; try lia; try done;
      intros (u & Hu); try done; unfold bind, expect in Hu; by destruct (usize_sub _ _). }
  split.
  - intros (Hnew & Hver & Hd & up & Hup & Hrest). rewrite !passes_seq, passes_reject, verify_parent_now in Hrest. destruct Hrest as (Ea & Hp & Hf).
    unfold uncle_depth in Ea. rewrite (proj2 (Z.ltb_lt _ _)) in Ea by lia.
    split; [|done]. split; [done|done|]. exists up. split_and!; try done. lia.
  - intros [[Hnew Hd (up & Hup & Ea & Hp & Hf)] Hver]. do 3 (split; [done|]). exists up. split; [done|].
    rewrite !passes_seq, passes_reject, verify_parent_now. split_and!; try done.
    unfold uncle_depth. rewrite (proj2 (Z.ltb_lt _ _)) by lia. lia.
Qed.

Lemma verify_uncle_list_spec now header uncles verified : passes (verify_uncle_list now header uncles bc e
    ([h_hash header; h_parent_hash header] ++ taken MAX_UNCLE_AGE (h_parent_hash header)) verified) <->
  Forall (uncle_ok header) uncles /\ NoDup (h_hash <$> uncles) /\ Forall (fun u => h_hash u ∉ verified) uncles.
Proof.
  revert verified. induction uncles as [|u uncles IH]; intros verified; cbn [verify_uncle_list].
  - rewrite passes_ret. split; [|done]. intros _. split_and!; constructor.
  - rewrite passes_seq, verify_uncle_spec, IH, !Forall_cons. cbn [fmap list_fmap]. rewrite NoDup_cons. split.
    + intros ([Hu Hv] & Hus & Hd & Hn). split_and!; try done.
      * intros (x & Ex & Hx)%list_elem_of_fmap. eapply Forall_forall in Hn; [|done]. set_solver.
      * eapply Forall_impl; [done|]. cbn. set_solver.
    + intros ([Hu Hus] & [Hni Hd] & Hv & Hvs). split_and!; try done. apply Forall_forall. intros x Hx Hin.
      apply elem_of_cons in Hin as [E|Hin]; [|by eapply Forall_forall in Hvs]. apply Hni. rewrite <- E. by apply list_elem_of_fmap_2.
Qed.

(** Uncles are accepted if they are few, distinct, and each follows the rules. *)
Lemma verify_uncles_spec now header txs uncles bytes : passes (verify_uncles now (mkPreverified header txs uncles bytes) bc e) <->
  uncles = [] \/ zlen uncles <= maximum_uncle_count e /\ Forall (uncle_ok header) uncles /\ NoDup (h_hash <$> uncles).
Proof.
  unfold verify_uncles. cbn [pv_header pv_uncles eng_maximum_uncle_count Ethash_engine]. destruct uncles as [|u uncles].
  - split; [by left|]. intros _. by exists tt.
  - rewrite (proj2 (Z.eqb_neq _ _)) by (rewrite zlen_cons; unfold zlen; lia). rewrite passes_seq, passes_reject, passes_bind.
    rewrite excluded_spec. split.
    + intros (Hm & ex & [= <-] & Hl). apply verify_uncle_list_spec in Hl as (H1 & H2 & _). right. split_and!; [lia|done|done].
    + intros [?|(Hm & H1 & H2)]; [done|]. split; [lia|]. eexists. split; [reflexivity|]. apply verify_uncle_list_spec.
      split_and!; [done|done|]. apply Forall_forall. set_solver.
Qed.

(** ** Checking uncles does not panic *)

(** The headers that the chain gives were accepted, and have the hash that was asked for. *)
Definition headers_ok : Prop := forall h parent, bp_block_header_data bc h = Some parent -> header_ok parent /\ h_hash parent = h.

Lemma engine_family_no_panic header parent : header_ok header -> header_ok parent -> h_number header = h_number parent + 1 ->
  h_timestamp parent < h_timestamp header -> no_panic (ethash_verify_block_family e header parent).
Proof.
  intros Hh Hp Hn Ht. unfold ethash_verify_block_family. apply no_panic_seq; [apply no_panic_reject|intros _ _].
  pose proof (ho_number _ Hp). eapply no_panic_expect; [apply calculate_difficulty_at; done || lia|]. apply no_panic_reject.
Qed.

Lemma verify_uncle_no_panic now header uncle excluded verified : headers_ok -> header_ok uncle -> 1 <= h_number header ->
  no_panic (verify_uncle now header uncle bc e excluded verified).
Proof.
  intros Hd Hu Hn. unfold verify_uncle. apply no_panic_seq; [apply no_panic_reject|intros _ _].
  apply no_panic_seq; [apply no_panic_reject|intros _ _]. apply no_panic_seq.
  { case_bool; [done|]. case_bool; [|done]. unfold usize_sub. by rewrite (proj2 (Z.leb_le _ _)) by lia. }
  intros _ _. apply no_panic_seq; [apply no_panic_ok_or|]. intros up Hup. apply no_panic_seq; [apply no_panic_reject|intros _ _].
  assert (bp_block_header_data bc (h_parent_hash uncle) = Some up) as Eup.
  { revert Hup. unfold ok_or. destruct (bp_block_header_data bc (h_parent_hash uncle)); [by intros [= <-]|done]. }
  destruct (Hd _ _ Eup) as [Hok' Eh]. destruct (verify_parent_spec e Hok now uncle up Hu Hok' (or_intror Eh)) as [Hnp Hs].
  apply no_panic_seq; [done|]. intros [] E. destruct (proj1 Hs) as (Ht & Hnum & _); [by exists tt|]. by apply engine_family_no_panic.
Qed.

Lemma verify_uncles_no_panic now header txs uncles bytes : headers_ok -> Forall header_ok uncles -> 1 <= h_number header ->
  no_panic (verify_uncles now (mkPreverified header txs uncles bytes) bc e).
Proof.
  intros Hd Hu Hn. unfold verify_uncles. cbn [pv_header pv_uncles]. case_bool; [done|].
  apply no_panic_seq; [apply no_panic_reject|intros _ _]. apply no_panic_seq; [unfold no_panic; by rewrite excluded_spec|].
  intros ex _. generalize (@nil Z) as verified. clear Hb. induction Hu as [|u us Hu Hus IH]; intros verified; [done|]. cbn [verify_uncle_list].
  apply no_panic_seq; [by apply verify_uncle_no_panic|]. intros _ _. apply IH.
Qed.

End Uncles.
