(* ===== verification/BlockTheorems.v ===== *)
(** * The theorems about the verification of blocks

    What the checks of a block against its parent accept, that headers which are opened on a
    parent pass them, how the difficulty follows the timestamps, and which seals are valid. *)

From Stdlib Require Import ZifyBool.
From S2P Require Import Prelude Transaction Blocks Rewards Equihash EquihashBits EquihashRows EquihashTheorems Engine Ethash Verification VerificationProofs UncleProofs StateTheorems.
From stdpp Require Import base numbers option list gmap.

Open Scope Z_scope.

Section Blocks.
Context {K : Keccak} {K5 : Keccak512} {RS : RlpStream} {BL : Blake2b} {SH : Sha256} {RI : RlpItem} {ST : SystemTime}.
Context {P : Type} {BP : BlockProvider P}.
Context (e : Ethash) (Hok : ethash_ok e).

(** ** The family of a block *)

Lemma passes_check_all {A} (f : A -> Check unit) l : passes (check_all f l) <-> Forall (fun x => passes (f x)) l.
Proof.
  induction l as [|x l IH]; cbn [check_all]; [rewrite passes_ret, Forall_nil; done|]. by rewrite passes_seq, IH, Forall_cons.
Qed.

Lemma no_panic_check_all {A} (f : A -> Check unit) l : (forall x, no_panic (f x)) -> no_panic (check_all f l).
Proof. intros Hf. induction l as [|x l IH]; [done|]. cbn [check_all]. by apply no_panic_seq. Qed.

(** The transactions that the filter of the machine lets through. *)
Definition allows (allowed : option (Z -> Z -> SignedTransaction -> bool)) (parent : Header) (tx : SignedTransaction) : Prop :=
  match allowed with None => True | Some filter => filter (h_hash parent) (h_number parent + 1) tx = true end.

Lemma verify_transaction_spec allowed tx parent : header_ok parent ->
  no_panic (verify_transaction allowed tx parent) /\ (passes (verify_transaction allowed tx parent) <-> allows allowed parent tx).
Proof.
  intros []. unfold verify_transaction, allows. destruct allowed as [filter|]; [|by rewrite passes_ret].
  assert (usize_add (h_number parent) 1 = Some (h_number parent + 1)) as E
    by (unfold usize_add; by rewrite (proj2 (Z.ltb_lt _ _)) by range_lia).
  rewrite E, (passes_expect _ _ _ eq_refl). split; [eapply no_panic_expect; [done|]; by case_bool|].
  destruct (filter _ _ _); cbn [negb]; [by rewrite passes_ret|]. split; [by intros (? & ?)|done].
Qed.

(** The uncles of a block follow the rules. *)
Definition uncles_ok (bc : P) (B : gmap Z Block) (header : Header) (uncles : list Header) : Prop :=
  uncles = [] \/ zlen uncles <= maximum_uncle_count e /\ Forall (uncle_ok e bc B header) uncles /\ NoDup (h_hash <$> uncles).

(** C13: The checks of a block against its parent, with its uncles and the filter of its
    transactions, never panic, and accept it if and only if its header is a good child of the
    parent (later, the next number, a gas limit within a fraction of that of the parent, and
    the difficulty that the engine computes), its uncles are few, distinct, neither ancestors nor
    included before, and good children of ancestors at most six generations up, and each
    transaction passes the filter. *)
Theorem family_accepts_good_children now header parent allowed bc B txs uncles bytes : header_ok header -> header_ok parent ->
  follows header parent -> provides bc B -> headers_ok bc -> Forall header_ok uncles ->
  let check := verify_block_family now header parent e allowed (Some (mkPreverified header txs uncles bytes, bc)) in
  no_panic check /\
  (passes check <-> good_child e header parent /\ uncles_ok bc B header uncles /\ Forall (allows allowed parent) txs).
Proof.
  intros Hh Hp Hf Hpr Hd Hu check. destruct (family_spec e Hok (P:=P) now header parent allowed Hh Hp Hf) as [Hn Hs].
  unfold verify_block_family in Hn, Hs. unfold check, verify_block_family. cbn [pv_transactions].
  rewrite !passes_seq, passes_ret in Hs. split.
  - unfold no_panic, bind in Hn |- *. destruct (verify_parent now header parent e tt) as [[] []|er []|] eqn:E1; [|done|done].
    destruct (eng_verify_block_family e header parent tt) as [[] []|er []|] eqn:E2; [|done|done].
    assert (good_child e header parent) as Hg by (apply Hs; split_and!; [by exists tt|by exists tt|done]).
    pose proof (gc_number _ _ _ Hg). pose proof (ho_number _ Hp).
    pose proof (verify_uncles_no_panic e Hok bc B Hpr now header txs uncles bytes Hd Hu ltac:(lia)) as H1. unfold no_panic in H1.
    destruct (verify_uncles _ _ _ _ tt) as [? []|? ?|]; [|done|done].
    apply no_panic_check_all. intros tx. by apply verify_transaction_spec.
  - rewrite !passes_seq, (verify_uncles_spec e Hok bc B Hpr), passes_check_all. fold (uncles_ok bc B header uncles).
    assert (Forall (fun tx => passes (verify_transaction allowed tx parent)) txs <-> Forall (allows allowed parent) txs) as ->
      by (apply Forall_proper; [intros tx; by apply verify_transaction_spec|done]).
    tauto.
Qed.

(** ** New headers *)

(** Parents with room for the fields of a child. *)
Record roomy (parent : Header) : Prop := {
  ro_ok : header_ok parent;
  ro_number : h_number parent < U64_MOD - 10;
  ro_timestamp : h_timestamp parent < 2 ^ 63 - 1;
  ro_gas_limit : m_gas_limit_bound_divisor (et_machine e) <= h_gas_limit parent < 2 ^ 62;
  ro_difficulty : h_difficulty parent < 2 ^ 254;
}.

(** An opened header is a good child of the parent, with fields in range. *)
Lemma opened_ok now parent author range extra : roomy parent -> 0 <= now < 2 ^ 63 -> exists header,
  open_header e now parent author range extra = Some header /\ header_ok header /\ good_child e header parent /\
  h_parent_hash header = h_hash parent /\ h_timestamp header = Z.max now (h_timestamp parent + 1).
Proof.
  intros [Hp Hn Ht [Hm Hg] Hdiff] Hnow. pose proof (eo_gas_divisor _ Hok).
  destruct (open_header_spec e Hok now parent author range extra Hp Hn ltac:(lia) Hm) as (header & E & Hgc & Ep & Et).
  exists header. split; [done|]. split; [|done].
  destruct (ho_number _ Hp), (ho_timestamp _ Hp), (ho_gas_limit _ Hp), (ho_difficulty _ Hp). destruct Hgc as [G1 G2 G3 G4].
  rewrite (calculate_difficulty_at e Hok) in G4 by (done || lia). injection G4 as G4.
  pose proof (difficulty_at_bounds e Hok (h_number header) parent (h_timestamp header) Hp G1) as Hb.
  destruct (step_spec e Hok (h_number header) parent Hp). pose proof (eo_minimum _ Hok).
  assert (h_gas_limit parent / m_gas_limit_bound_divisor (et_machine e) <= h_gas_limit parent)
    by (apply Z.div_le_upper_bound; nia).
  split; [range_lia|lia| |]; [|rewrite <- G4; lia]. split; [|lia]. destruct (parent_gas e Hok parent Hp) as (_ & E2 & _).
  unfold u256_sub in E2. lia.
Qed.

(** A miner that opens a block on an accepted parent gets a header that passes the checks
    against this parent at every node: opening does not panic for any time, author, range of
    gas limits and extra data, and the gas limit and difficulty it fills in are accepted. *)
Theorem opened_headers_verify now now' parent author range extra allowed : roomy parent -> 0 <= now < 2 ^ 63 ->
  exists header, open_header e now parent author range extra = Some header /\
    passes (verify_block_family (P:=P) now' header parent e allowed None) /\ h_timestamp header = Z.max now (h_timestamp parent + 1).
Proof.
  intros Hr Hnow. destruct (opened_ok now parent author range extra Hr Hnow) as (header & E & Hh & Hgc & Ep & Et).
  exists header. split; [done|]. split; [|done]. apply family_spec; [done|done|apply Hr|by right|done].
Qed.

(** ** The difficulty *)

(** C19: The difficulty of a child is defined, never below the minimum, at most 99 steps below
    that of the parent and at most two above it, where a step is the parent's difficulty over
    the divisor in force; and a later timestamp never makes it higher. *)
Theorem difficulty_follows_time header1 header2 parent : header_ok parent -> h_number header1 <> 0 ->
  h_number header1 = h_number header2 -> h_timestamp parent < h_timestamp header1 -> h_timestamp header1 <= h_timestamp header2 ->
  let minimum := ep_minimum_difficulty (et_params e) in
  let step := h_difficulty parent / difficulty_divisor e (h_number header1) in
  exists d1 d2, calculate_difficulty e header1 parent = Some d1 /\ calculate_difficulty e header2 parent = Some d2 /\ d2 <= d1 /\
    Z.max minimum (h_difficulty parent - 99 * step) <= d2 /\ d1 <= Z.max minimum (h_difficulty parent + 2 * step).
Proof.
  intros Hp Hn En H1 H2 minimum step. do 2 eexists. split_and!.
  - by apply calculate_difficulty_at.
  - apply calculate_difficulty_at; congruence || lia.
  - rewrite <- En. by apply difficulty_at_mono.
  - rewrite <- En. apply difficulty_at_bounds; [done|done|lia].
  - by apply difficulty_at_bounds.
Qed.

End Blocks.

(** ** Seals *)

Section Seals.
Context {K : Keccak} {K5 : Keccak512} {RS : RlpStream} {BL : Blake2b} {BLL : Blake2bLaws BL} {SH : Sha256} {RI : RlpItem}.
Context (Hpayload : forall item payload, rlp_payload item = Some payload -> is_bytes payload).
Context (e : Ethash) (Hok : ethash_ok e).

(** A seal of two items, a nonce and a solution of 400 bytes. *)
Definition sealed_with (header : Header) (nonce solution : bytes) : Prop := exists s0 s1, h_seal header = [s0; s1] /\
  rlp_decode_h256 s0 = Some nonce /\ rlp_payload s1 = Some solution /\ zlen solution = SOLUTION_SIZE.

Lemma check_block_seal_spec header : no_panic (check_block_seal header) /\
  forall nonce solution, check_block_seal header tt = Ret (nonce, solution) tt <-> sealed_with header nonce solution.
Proof.
  unfold check_block_seal, sealed_with, no_panic. destruct (h_seal header) as [|s0 [|s1 [|]]];
    try (split; [done|]; intros; split; [done|by intros (? & ? & ? & ?)]).
  split.
  - destruct (rlp_decode_h256 s0); [|done]. by destruct (solution_decode s1).
  - intros nonce solution. unfold solution_decode. destruct (rlp_decode_h256 s0) as [n|] eqn:E0.
    2: { split; [done|]. intros (? & ? & [= <- <-] & ? & _). congruence. }
    destruct (rlp_payload s1) as [v|] eqn:E1; cbn [mbind option_bind].
    2: { split; [done|]. intros (? & ? & [= <- <-] & _ & ? & _). congruence. }
    destruct (Z.eqb_spec (zlen v) SOLUTION_SIZE) as [Ev|Ev]; split.
    + intros [= <- <-]. by exists s0, s1.
    + intros (? & ? & [= <- <-] & ? & ? & _). unfold ret. congruence.
    + done.
    + intros (? & ? & [= <- <-] & _ & ? & ?). congruence.
Qed.

(** The nonce and the solution are good for the header: the proof is below the target of the
    difficulty, and the indices of the solution solve the puzzle of header and nonce. *)
Definition good_seal (header : Header) (nonce solution : bytes) : Prop :=
  (exists target, difficulty_to_boundary (h_difficulty header) = Some target /\
    calc_proof (pow_hash header ++ nonce ++ SOLUTION_PREFIX alg ++ solution) <= target) /\
  exists ix, length ix = 128%nat /\ are_digits (2 ^ 25) ix /\ digits_value (2 ^ 25) ix = be_value solution /\
    solves (pow_hash header ++ nonce) ix.

Lemma verify_solution_spec input solution : is_bytes solution -> zlen solution = SOLUTION_SIZE -> exists ok,
  verify_equihash_solution alg input solution = Some ok /\
  (ok = true <-> exists ix, length ix = 128%nat /\ are_digits (2 ^ 25) ix /\ digits_value (2 ^ 25) ix = be_value solution /\ solves input ix).
Proof.
  intros Hb Hz. destruct (verify_spec input solution Hb Hz) as (ix & H1 & H2 & H3 & ->). eexists. split; [done|].
  rewrite bool_decide_eq_true. split; [by exists ix|]. intros (ix' & H1' & H2' & H3' & Hs).
  assert (ix' = ix) as -> by (apply (digits_unique (2 ^ 25)); [lia|done|done|congruence|congruence]). done.
Qed.

(** C14: The engine accepts the seal of a header if and only if it consists of a nonce and a
    solution, the difficulty is not below the minimum, the double sha-256 of the sealed header
    is at most the target of the difficulty, and the solution solves the Equihash puzzle of
    header and nonce; it does not panic on any seal. *)
Theorem seals_accepted header : 0 <= h_difficulty header ->
  no_panic (ethash_verify_local_seal e header) /\
  (passes (ethash_verify_local_seal e header) <->
    ep_minimum_difficulty (et_params e) <= h_difficulty header /\ exists nonce solution, sealed_with header nonce solution /\ good_seal header nonce solution).
Proof.
  intros Hd. pose proof (eo_minimum _ Hok). destruct (check_block_seal_spec header) as [Hnp Hseal].
  unfold ethash_verify_local_seal, ethash_verify_block_basic, ethash_verify_block_unordered, verify_block_pow, verify_block_solution.
  unfold no_panic in Hnp. destruct (Z.ltb_spec (h_difficulty header) (ep_minimum_difficulty (et_params e))) as [Hlt|Hge].
  { split; [done|]. split; [by intros (? & ?)|lia]. }
  cbn [reject_if]. unfold no_panic. rewrite passes_unit. unfold bind, ret.
  destruct (check_block_seal header tt) as [[nonce solution] []|er []|] eqn:Ecs; [| |done].
  - destruct (proj1 (Hseal nonce solution) eq_refl) as (s0 & s1 & E & E0 & E1 & Ez).
    destruct (verify_solution_spec (pow_hash header ++ nonce) solution (Hpayload _ _ E1) Ez) as (ok & Eok & Hiff).
    assert (exists target, difficulty_to_boundary (h_difficulty header) = Some target) as (target & Et).
    { unfold difficulty_to_boundary, difficulty_to_boundary_aux. rewrite (proj2 (Z.eqb_neq _ _)) by lia. eauto. }
    rewrite Et. cbn [expect]. unfold reject_if, ret. cbv zeta beta.
    assert ((exists n s, sealed_with header n s /\ good_seal header n s) <-> good_seal header nonce solution) as ->.
    { split; [|intros Hg; exists nonce, solution; split; [by exists s0, s1|done]].
      intros (n & s & Hs & Hg). apply Hseal in Hs. by injection Hs as <- <-. }
    unfold good_seal. rewrite <- Hiff, Et.
    destruct (Z.ltb_spec target (calc_proof (pow_hash header ++ nonce ++ SOLUTION_PREFIX OnChainEquihash ++ solution))).
    + split; [done|]. split; [done|]. intros (_ & (t & [= <-] & Hle) & _). lia.
    + cbv beta iota. rewrite Ecs, Eok. cbn [expect]. unfold ret. destruct ok; cbn [negb]; (split; [done|]); split; try done; [|by intros (_ & _ & ?)].
      intros _. split; [lia|]. split; [|done]. by exists target.
  - split; [done|]. split; [done|]. intros (_ & n & s & Hs & _). apply Hseal in Hs. done.
Qed.

End Seals.

(** ** A small configuration *)

Module TestEngine.

#[export] Existing Instance test_keccak.
#[export] Instance test_keccak_512 : Keccak512 := fun b => be_bytes 64 (be_value b).
#[export] Instance test_stream : RlpStream := {
  rlp_h256 := be_bytes 32; rlp_address := be_bytes 20; rlp_bloom := be_bytes 256; rlp_u256 := be_bytes 32; rlp_u64 := be_bytes 8;
  rlp_bytes b := b; rlp_list l := mjoin l;
}.
#[export] Instance test_sha256 : Sha256 := fun b => reverse (be_bytes 32 (zlen b)).
#[export] Instance test_item : RlpItem := {
  rlp_decode_h256 b := if zlen b =? 32 then Some b else None;
  rlp_payload b := if forallb (fun x => (0 <=? x) && (x <? 256)) b then Some b else None;
}.
#[export] Instance test_time : SystemTime := fun t secs => Some (t + secs * NANOS).

Lemma test_payload item payload : rlp_payload item = Some payload -> is_bytes payload.
Proof.
  cbn. destruct (forallb _ item) eqn:E; [|done]. intros [= <-]. apply Forall_forall. intros x Hx. rewrite forallb_forall in E.
  apply list_elem_of_In, E in Hx. unfold is_u8. lia.
Qed.

Definition test_params (rewards : list (Z * Z)) : EthashParams := mkEthashParams 1000 2048 10 9 13 0 1000000 2048 1000000 (2 ^ 63) rewards 1000000 30.
Definition test_machine (config : RewardConfig) : EthereumMachine := mkMachine 5000 1024 32 1000000 1 0 0 1 config None.
Definition test_ethash (config : RewardConfig) (r : Rewards) : Ethash := mkEthash (test_params []) (test_machine config) r.

Lemma test_ethash_ok config r : ethash_ok (test_ethash config r).
Proof. split; cbn; lia. Qed.

Definition engine : Ethash := test_ethash default_reward_config rewards_new.

(** Headers ten seconds after each other have the same difficulty. *)
Definition header_at (hash parent number : Z) (seal : list bytes) : Header :=
  mkHeader parent (10 * number) number 77 0 KECCAK_EMPTY_LIST_RLP [] 0 0 0 0 100000 200000 seal hash.
Definition block_at (hash parent number : Z) : Block := mkBlock (header_at hash parent number []) (mkBody [] []).

(** A block 1 with the children 2 and 3. *)
Definition blocks : gmap Z Block := <[1 := block_at 1 100 10]> (<[2 := block_at 2 1 11]> {[3 := block_at 3 1 11]}).

#[export] Instance map_provider : BlockProvider (gmap Z Block) := {
  bp_parent m h := b_parent_hash <$> m !! h;
  bp_uncle_hashes m h := (fun b => body_uncle_hashes (b_body b)) <$> m !! h;
  bp_block_header_data m h := b_header <$> m !! h;
}.

Lemma blocks_spec h b : blocks !! h = Some b -> b_hash b = h /\ header_ok (b_header b).
Proof.
  unfold blocks. rewrite !lookup_insert_Some, lookup_singleton_Some.
  intros [[<- <-]|[_ [[<- <-]|[_ [<- <-]]]]]; (split; [done|split; cbn; range_lia]).
Qed.

Lemma blocks_provide : provides blocks blocks.
Proof.
  split.
  - intros h b Hb. destruct (blocks_spec h b Hb) as [Eh _]. cbn. by rewrite Hb.
  - intros h Hh. cbn. by rewrite Hh.
Qed.

Lemma blocks_headers : headers_ok blocks.
Proof. intros h parent (b & Hb & ->)%fmap_Some. destruct (blocks_spec h b Hb). by split. Qed.

Lemma header_at_ok hash parent number seal : 0 <= number < 2 ^ 32 -> header_ok (header_at hash parent number seal).
Proof. intros. split; cbn; range_lia. Qed.

End TestEngine.

Section Witnesses.
Import TestEngine.
#[local] Existing Instance zero_digest.

Lemma family_accepts_good_children_witness :
  let header := header_at 4 2 12 [] in let uncle := header_at 3 1 11 [] in let parent := header_at 2 1 11 [] in
  let check := verify_block_family 0 header parent engine None (Some (mkPreverified header [] [uncle] [], blocks)) in
  no_panic check /\ good_child engine header parent /\ uncles_ok engine blocks blocks header [uncle].
Proof.
  intros header uncle parent.
  destruct (family_accepts_good_children engine (test_ethash_ok _ _) 0 header parent None blocks blocks [] [uncle] []) as [Hn Hs].
  - by apply header_at_ok.
  - by apply header_at_ok.
  - by right.
  - apply blocks_provide.
  - apply blocks_headers.
  - apply Forall_singleton. by apply header_at_ok.
  - split; [exact Hn|]. destruct (proj1 Hs) as (H1 & H2 & _); [|by split]. exists tt. vm_compute. reflexivity.
Defined.

Lemma opened_headers_verify_witness : exists header,
  open_header engine 500 (header_at 2 1 11 []) 77 (3000000, 5000000) [] = Some header /\
  passes (verify_block_family (P := gmap Z Block) 0 header (header_at 2 1 11 []) engine None None) /\ h_timestamp header = 500.
Proof.
  apply (opened_headers_verify engine (test_ethash_ok _ _) 500 0 (header_at 2 1 11 []) 77 (3000000, 5000000) [] None); [|lia].
  split; [by apply header_at_ok|cbn; range_lia..].
Defined.

Lemma difficulty_follows_time_witness : exists d1 d2,
  calculate_difficulty engine (header_at 4 2 12 []) (header_at 2 1 11 []) = Some d1 /\
  calculate_difficulty engine (set_difficulty 0 (header_at 5 2 12 [])) (header_at 2 1 11 []) = Some d2 /\
  d2 <= d1 /\ 190397 <= d2 /\ d1 <= 200194.
Proof.
  apply (difficulty_follows_time engine (test_ethash_ok _ _) (header_at 4 2 12 []) (set_difficulty 0 (header_at 5 2 12 [])) (header_at 2 1 11 []));
    try (cbn; lia). by apply header_at_ok.
Defined.

Lemma seals_accepted_witness : exists solution, copy_from_u32 alg counting = Some solution /\
  passes (ethash_verify_local_seal engine (header_at 4 2 12 [replicate 32 7; solution])).
Proof.
  destruct (compress_spec counting) as (solution & E & Hz & Hb & Hv); [by apply (bool_decide_unpack _)|done|].
  exists solution. split; [done|].
  apply (seals_accepted (BLL := zero_digest_laws) test_payload engine (test_ethash_ok _ _)); [by cbn|].
  split; [by cbn|]. exists (replicate 32 7), solution. split.
  - exists (replicate 32 7), solution. split_and!; [done|done| |done]. cbn. replace (forallb _ solution) with true; [done|]. symmetry. apply forallb_forall.
    intros x Hx%list_elem_of_In. eapply Forall_forall in Hx; [|exact Hb]. unfold is_u8 in Hx. lia.
  - split.
    + eexists. split; [reflexivity|]. unfold calc_proof, sha256, test_sha256. unfold zlen at 1. rewrite length_reverse, length_be_bytes. by vm_compute.
    + exists counting. split_and!; [done|by apply (bool_decide_unpack _)|done|]. apply (bool_decide_unpack _). by vm_compute.
Defined.
End Witnesses.
