(* ===== verification/Closing.v ===== *)
(** * Closing blocks

    The rewards that the engine pays when a block is closed ([on_close_block] over the state)
    are those that the chain counts when it imports the block ([prepare_block_rewards]). *)

From Stdlib Require Import ZifyBool.
From S2P Require Import Prelude MemoryCache Account State StateSpec StateRefine Worlds WorldLogic Transaction Blocks Rewards Equihash EquihashTheorems Engine Ethash Verification VerificationProofs UncleProofs BlockTheorems StateTheorems Vm TestExecution.
From stdpp Require Import base numbers option list gmap.

Open Scope Z_scope.

(** ** Amounts *)

Fixpoint amount (l : list (Z * Z)) : Z := match l with [] => 0 | (_, x) :: l => x + amount l end.

(** What an account is paid. *)
Fixpoint paid_to (a : Z) (l : list (Z * Z)) : Z :=
  match l with [] => 0 | (b, x) :: l => (if b =? a then x else 0) + paid_to a l end.

(** Payments without their kinds. *)
Definition pays (l : list (Z * RewardKind * Z)) : list (Z * Z) := (fun '(a, _, x) => (a, x)) <$> l.

Lemma shr_bound x k : 0 <= x -> 0 <= k -> 0 <= u256_shr x k <= x.
Proof.
  intros Hx Hk. unfold u256_shr. rewrite Z.shiftr_div_pow2 by lia.
  pose proof (Z.pow_pos_nonneg 2 k). split; [apply Z.div_pos; lia|]. apply Z.div_le_upper_bound; [lia|]. nia.
Qed.

Lemma whole_gwei_bound x : 0 <= x -> 0 <= whole_gwei x <= x.
Proof.
  intros Hx. unfold whole_gwei, GWEI. pose proof (Z.mul_div_le x 1000000000). pose proof (Z.div_pos x 1000000000). lia.
Qed.

Lemma author_defined base n : 0 <= base < 2 ^ 128 -> 0 <= n < 2 ^ 64 -> exists x, calc_author_miner_reward base n = Some x /\ 0 <= x.
Proof.
  intros Hb Hn. unfold calc_author_miner_reward, mul, u256_add. assert (0 <= base * n < 2 ^ 192) by nia.
  rewrite (proj2 (Z.ltb_lt (base * n) _)) by range_lia. cbn [mbind option_bind].
  pose proof (shr_bound (base * n) 5 ltac:(lia) ltac:(lia)). rewrite (proj2 (Z.ltb_lt _ _)) by range_lia. cbn [mbind option_bind].
  eexists. split; [done|]. apply whole_gwei_bound. lia.
Qed.

Lemma uncle_defined base number uncle : 0 <= base < 2 ^ 128 -> number < U64_MOD - 8 -> 1 <= number - uncle <= 6 ->
  exists x, calc_uncle_miner_reward base number uncle = Some x /\ 0 <= x.
Proof.
  intros Hb Hn Hu. unfold calc_uncle_miner_reward, usize_add, usize_sub, mul. rewrite (proj2 (Z.ltb_lt _ _)) by range_lia.
  cbn [mbind option_bind]. rewrite (proj2 (Z.leb_le _ _)) by lia. cbn [mbind option_bind].
  assert (0 <= base * (8 + uncle - number) < 2 ^ 192) by nia. rewrite (proj2 (Z.ltb_lt _ _)) by range_lia. cbn [mbind option_bind].
  eexists. split; [done|]. apply whole_gwei_bound, shr_bound; lia.
Qed.

(** The rewards of uncles of the first era are the ones that the chain adds up. *)
Lemma uncle_rewards_spec base number uncles : 0 <= base < 2 ^ 128 -> number < U64_MOD - 8 ->
  Forall (fun u => 1 <= number - h_number u <= 6) uncles -> exists l, uncle_rewards 0 base number uncles = Some l /\
    (pays l).*1 = h_author <$> uncles /\ Forall (fun p => 0 <= p.2) (pays l) /\
    forall acc t, add_uncle_rewards base number uncles acc = Some t -> t = acc + amount (pays l).
Proof.
  intros Hb Hn Hu. induction Hu as [|u us Hu _ (l & El & Ea & Hp & Hs)].
  - exists []. split_and!; [done|done|constructor|]. intros acc t [= <-]. cbn. lia.
  - destruct (uncle_defined base number (h_number u) Hb Hn Hu) as (x & Ex & Hx).
    cbn [uncle_rewards]. change (0 =? 0) with true. cbv iota. rewrite Ex, El. cbn [mbind option_bind]. eexists. split; [reflexivity|].
    split_and!.
    + unfold pays in *. cbn [fmap list_fmap fst]. f_equal. exact Ea.
    + unfold pays. cbn [fmap list_fmap]. apply Forall_cons. by split.
    + intros acc t. cbn [add_uncle_rewards]. rewrite Ex. cbn [mbind option_bind]. intros (acc' & Hacc & Ht)%bind_Some.
      apply Hs in Ht. unfold u256_add in Hacc. case_bool_in Hacc; [|done]. injection Hacc as <-. subst t.
      change (amount (pays ((h_author u, reward_kind_uncle number (h_number u), x) :: l))) with (x + amount (pays l)). lia.
Qed.

Lemma ecip_first rounds base number : 0 <= number < rounds -> ecip1017_eras_block_reward rounds base number = Some (0, base).
Proof.
  intros Hn. unfold ecip1017_eras_block_reward. rewrite div_some by lia. cbn [mbind option_bind]. rewrite (Z.div_small number) by lia.
  rewrite (Z.mod_small number) by lia. assert (negb (number =? 0) && (number =? 0) = false) as -> by lia.
  change (Z.to_nat 0) with 0%nat. cbn [era_loop mbind option_bind]. by rewrite div_some, Z.div_1_r by lia.
Qed.

(** ** The rewards of a block *)

Section Close.
Context (e : Ethash) (Hconfig : config_ok (m_reward_config (et_machine e))) (Hplain : ep_block_reward (et_params e) = []).
Context (Hbases : Forall (fun era => 0 <= era_base era < 2 ^ 128) (rw_eras (et_rewards e))).

Abbreviation config := (m_reward_config (et_machine e)).

(** The base reward of a block: that of its era, nothing after the last era. *)
Lemma base_spec number : 0 <= number -> exists base, base_reward_at e number = Some base /\ 0 <= base < 2 ^ 128 /\
  base = default 0 (get_era_base_reward (number / rc_block_count_each_era config) (et_rewards e)).
Proof.
  intros Hn. unfold base_reward_at. rewrite Hplain. cbn [block_reward_at]. change (block_reward_at [] number) with (@None Z).
  rewrite era_of by done. cbn [mbind option_bind]. eexists. split; [done|]. split; [|done].
  destruct (get_era_base_reward _ _) as [base|] eqn:E; cbn [default]; [|lia]. unfold get_era_base_reward in E. case_bool_in E; [done|].
  apply fmap_Some in E as (era & He & ->). exact (vec_get_Forall _ _ _ _ Hbases He).
Qed.

Lemma uncles_of_nothing number uncles acc : number < U64_MOD - 8 -> Forall (fun u => 1 <= number - h_number u <= 6) uncles ->
  0 <= acc < U256_MOD -> add_uncle_rewards 0 number uncles acc = Some acc.
Proof.
  intros Hn Hu Ha. induction Hu as [|u us Hu _ IH]; [done|]. cbn [add_uncle_rewards].
  assert (calc_uncle_miner_reward 0 number (h_number u) = Some 0) as ->.
  { unfold calc_uncle_miner_reward, usize_add, usize_sub. rewrite (proj2 (Z.ltb_lt _ _)) by range_lia. cbn [mbind option_bind].
    rewrite (proj2 (Z.leb_le _ _)) by lia. done. }
  cbn [mbind option_bind]. unfold u256_add. rewrite (proj2 (Z.ltb_lt _ _)) by lia. cbn [mbind option_bind]. by rewrite Z.add_0_r.
Qed.

(** The rewards are defined, and their sum is what the chain adds to the total. *)
Lemma era_rewards_spec author number uncles : 0 <= number < ep_ecip1017_era_rounds (et_params e) -> number < U64_MOD - 8 ->
  zlen uncles < 2 ^ 64 -> Forall (fun u => 1 <= number - h_number u <= 6) uncles ->
  exists l, era_rewards e author number uncles = Some l /\ (pays l).*1 = author :: (h_author <$> uncles) /\ Forall (fun p => 0 <= p.2) (pays l) /\
    forall block r' u, b_number block = number -> b_uncles (b_body block) = uncles ->
      prepare_block_rewards config (et_rewards e) block false = Some (r', u) -> rw_total r' = rw_total (et_rewards e) + amount (pays l).
Proof.
  intros Hn Hn64 Hlen Hu. destruct (base_spec number ltac:(lia)) as (base & Eb & Hb & Hbase).
  pose proof (zlen_nonneg uncles). destruct (author_defined base (zlen uncles) Hb ltac:(lia)) as (x & Ex & Hx).
  destruct (uncle_rewards_spec base number uncles Hb Hn64 Hu) as (l & El & Ea & Hp & Hs).
  unfold era_rewards. rewrite Eb. cbn [mbind option_bind]. rewrite ecip_first by lia. cbn [mbind option_bind]. rewrite Ex, El.
  cbn [mbind option_bind]. eexists. split; [done|]. split_and!.
  - unfold pays in *. cbn [fmap list_fmap fst]. f_equal. exact Ea.
  - unfold pays. cbn [fmap list_fmap]. apply Forall_cons. by split.
  - intros block r' u En Eu Hprep. apply (enact_inv config Hconfig) in Hprep. cbv zeta in Hprep. rewrite En in Hprep.
    change (amount (pays ((author, Author, x) :: l))) with (x + amount (pays l)).
    destruct (get_era_base_reward _ _) as [base'|] eqn:Eg; cbn [default id] in Hbase; subst base.
    + destruct Hprep as (reward & is_last & _ & Hr & _ & _ & Hr'). unfold calculate_block_total_reward in Hr.
      rewrite Eu, Ex, En in Hr. cbn [mbind option_bind] in Hr. apply Hs in Hr as ->.
      destruct is_last; [|by subst r']. apply begin_next_inv in Hr' as (b' & _ & [[_ ->]|(_ & _ & [[_ ->]|[_ ->]])]); done.
    + destruct Hprep as [-> _]. pose proof (uncles_of_nothing number uncles 0 Hn64 Hu ltac:(done)) as Hz. apply Hs in Hz.
      assert (x = 0); [|lia]. revert Ex. unfold calc_author_miner_reward, mul. rewrite Z.mul_0_l. by intros [= <-].
Qed.

End Close.

(** ** Paying *)

Section Pay.
Context {L : Type} {LC : LruCache L Z Z} {K : Keccak} (HK : forall b, is_u256 (keccak b)).
Context {D B : Type} {DB : HashDb D} {BE : Backend B D (Account L)}.
Context (start : Z) (Hstart : is_u256 start).
Context (sim : State L B -> world * list world -> Prop) {SL : StateLaws start sim}.

(** [EthereumMachine::add_balance] *)
Definition machine_add_balance (address amount : Z) : M (State L B) trie_error unit :=
  do _ <- state_add_balance address amount NoEmpty in ret tt.

Lemma paid_nonneg a l : Forall (fun p => 0 <= p.2) l -> 0 <= paid_to a l.
Proof. induction 1 as [|[b x] l Hx _ IH]; cbn in *; [lia|]. case_bool; lia. Qed.

(** The balances after payments: what was paid is added, up to the largest balance. *)
Definition pays_out (l : list (Z * Z)) (w w' : world) : Prop :=
  forall a, balance_of w' a = Z.min (U256_MOD - 1) (balance_of w a + paid_to a l).

Lemma apply_rewards_does l w ws : world_ok w -> Forall is_address (pays l).*1 -> Forall (fun p => 0 <= p.2) (pays l) ->
  does sim (apply_block_rewards machine_add_balance l) w ws (fun _ => pays_out (pays l) w).
Proof.
  revert w. induction l as [|[[a k] x] l IH]; intros w Hw Ha Hl.
  - apply does_ret; [done|]. intros a. cbn. pose proof (balance_ok w a Hw). range_lia.
  - unfold pays in Hl. cbn [fmap list_fmap] in Hl. apply Forall_cons in Hl as [Hx Hl]. cbn [apply_block_rewards snd] in Hx |- *.
    unfold pays in Ha. cbn [fmap list_fmap fst] in Ha. apply Forall_cons in Ha as [Ha Has].
    apply does_bind. unfold machine_add_balance at 1. apply does_bind. apply (does_add_balance HK start Hstart sim w ws Hw); [exact Ha|exact Hx|].
    set (w1 := snd (spec_add_balance start a x NoEmpty w)).
    assert (world_ok w1) as Hw1.
    { destruct (spec_op_world_ok HK start Hstart (OpAddBalance a x NoEmpty) w [] (AnsMode (fst (spec_add_balance start a x NoEmpty w))) w1 [] Hw (Forall_nil_2 _) (conj Ha Hx)); [|done].
      cbn. unfold w1. by destruct (spec_add_balance start a x NoEmpty w). }
    apply does_ret; [exact Hw1|]. eapply does_mono; [apply IH; [exact Hw1|exact Has|exact Hl]|].
    intros [] w' ? Hp b. rewrite (Hp b). unfold w1. rewrite balance_of_add by done. unfold u256_saturating_add.
    change (paid_to b (pays ((a, k, x) :: l))) with ((if a =? b then x else 0) + paid_to b (pays l)).
    pose proof (paid_nonneg b _ Hl). pose proof (balance_ok w b Hw). unfold pays.
    destruct (Z.eqb_spec b a) as [->|Hne]; [rewrite Z.eqb_refl|rewrite (proj2 (Z.eqb_neq a b)) by done]; range_lia.
Qed.

(** ** Closing a verified block *)

Context {K5 : Keccak512} {RS : RlpStream} {BL : Blake2b} {SH : Sha256} {RI : RlpItem} {ST : SystemTime}.
Context {P : Type} {BP : BlockProvider P}.

(** The block [number] has the reward of its era of the chain: the specification has no
    table of block rewards ([blockReward]), which would take the place of the eras, the block
    comes before the first reduction of ECIP-1017, and the base rewards of the eras are
    below [2 ^ 128]. *)
Record era_rewarded (e : Ethash) (number : Z) : Prop := {
  er_config : config_ok (m_reward_config (et_machine e));
  er_no_table : ep_block_reward (et_params e) = [];
  er_first_round : 0 <= number < ep_ecip1017_era_rounds (et_params e);
  er_bases : Forall (fun era => 0 <= era_base era < 2 ^ 128) (rw_eras (et_rewards e));
  er_number : number < U64_MOD - 8;
}.

(** C15: Closing a block whose uncles passed the verification does not fail and pays what
    the chain counts, for an engine that rewards by the eras of the chain: without a reward
    contract (the [None]), without a table of block rewards, and before the first ECIP-1017
    reduction ([era_rewarded]). It pays the author and the authors of the uncles (160-bit
    addresses), no other account, and what it pays in sum is what the chain adds to the total
    reward when it imports the block, if the engine has the rewards of the chain. With a table
    of block rewards the engine pays by the table and the chain still counts by eras. *)
Theorem closing_pays_what_chain_counts (e : Ethash) now header txs uncles bytes (bc : P) blocks w ws :
  ethash_ok e -> era_rewarded e (h_number header) -> provides bc blocks ->
  passes (verify_uncles now (mkPreverified header txs uncles bytes) bc e) -> maximum_uncle_count e < 2 ^ 64 -> world_ok w ->
  Forall is_address (h_author header :: (h_author <$> uncles)) ->
  does sim (on_close_block machine_add_balance None e (h_author header) (h_number header) uncles) w ws (fun _ w' =>
    exists l, l.*1 = h_author header :: (h_author <$> uncles) /\ pays_out l w w' /\
      forall body r' u, b_uncles body = uncles ->
        prepare_block_rewards (m_reward_config (et_machine e)) (et_rewards e) (mkBlock header body) false = Some (r', u) ->
        rw_total r' = rw_total (et_rewards e) + amount l).
Proof.
  intros Hok [Hconfig Hplain Hn Hbases Hn64] Hpr Hv Hmax Hw Haddr. apply (verify_uncles_spec e Hok bc blocks Hpr) in Hv.
  assert (zlen uncles < 2 ^ 64 /\ Forall (fun u => 1 <= h_number header - h_number u <= 6) uncles) as [Hlen Hu].
  { destruct Hv as [->|(Hc & Hu & _)]; [split; [done|constructor]|]. split; [lia|]. eapply Forall_impl; [exact Hu|].
    intros u Hou. exact (uo_depth _ _ _ _ _ Hou). }
  destruct (era_rewards_spec e Hconfig Hplain Hbases (h_author header) (h_number header) uncles Hn Hn64 Hlen Hu) as (l & El & Ea & Hp & Hs).
  unfold on_close_block, close_rewards. rewrite El. cbn [expect]. apply does_bind, does_ret; [done|].
  eapply does_mono; [by apply apply_rewards_does; [..|rewrite Ea|]|]. intros [] w' _ Hout. exists (pays l). split_and!; [done|done|].
  intros body r' u Eu. by apply Hs.
Qed.

End Pay.

Section Witness.
Import TestEngine.
#[local] Existing Instance zero_digest.

(** The rewards of the first era. *)
Definition first_rewards : Rewards := default rewards_new (genesis_rewards default_reward_config).
Definition first_engine : Ethash := test_ethash default_reward_config first_rewards.

(** A block with one uncle, both of the account 77, is closed. *)
Lemma closing_pays_what_chain_counts_witness : exists u s' w',
  on_close_block (machine_add_balance (K := StateTheorems.test_keccak)) None first_engine 77 12 [header_at 3 1 11 []] chain_state = Ret u s' /\
  sim ListLru.pairs chain_codes chain_db 9 chain_disk 0 chain_backend s' (w', []) /\ balance_of w' 77 = 40795620665000000000.
Proof.
  destruct (closing_pays_what_chain_counts test_keccak_ok 0 ltac:(range_lia)
    (sim ListLru.pairs chain_codes chain_db 9 chain_disk 0 chain_backend)
    (SL := state_laws ListLru.pairs chain_codes chain_db 9 chain_disk 0 chain_db_complete eq_refl chain_backend)
    first_engine 0 (header_at 4 2 12 []) [] [header_at 3 1 11 []] [] blocks blocks chain_world []
    (test_ethash_ok _ _)) with (s := chain_state) as (u & s' & w' & Hr & Hs & Hw & l & Ha & Hp & Hl).
  - by split; [by split; vm_compute|reflexivity|vm_compute|by repeat constructor; vm_compute|vm_compute].
  - exact blocks_provide.
  - exists tt. vm_compute. reflexivity.
  - by vm_compute.
  - apply chain_world_ok.
  - repeat constructor; by vm_compute.
  - destruct (chain_run_shows 0) as (Hsim & _). exact Hsim.
  - exists u, s', w'. split; [exact Hr|]. split; [exact Hs|]. rewrite (Hp 77).
    destruct l as [|[a x] [|[b y] [|]]]; [discriminate Ha|discriminate Ha| |discriminate Ha]. injection Ha as -> ->.
    specialize (Hl (mkBody [] [header_at 3 1 11 []]) _ _ eq_refl ltac:(vm_compute; reflexivity)).
    change (rw_total (et_rewards first_engine)) with 0 in Hl. cbn [rw_total amount] in Hl. cbn [paid_to Z.eqb Pos.eqb].
    change (balance_of chain_world 77) with 0. unfold U256_MOD. lia.
Defined.
End Witness.
