(* ===== verification/Sapling.v ===== *)
(** * Nodes of the commitment tree and stored trees

    [ct-lib/zcash_primitives/src/sapling.rs]: a node is the representation of a field
    element, a 256-bit integer; the Pedersen hash is a parameter. With the serialised trees
    that the database keeps for every block ([db/src/keys.rs]), and the updates of a tree
    with the notes of transactions ([blockchain/src/blockchain.rs]). *)

From stdpp Require Import base numbers option list.
From S2P Require Import Prelude Serialize MerkleTree MerkleProofs Transaction Blocks.

Open Scope Z_scope.
Open Scope origo_scope.

(** [merkle_hash] on the representations of the children. *)
Class MerkleHash : Type := merkle_hash : nat -> Z -> Z -> Z.

Abbreviation Node := Z.

Section Sapling.
Context {MH : MerkleHash}.

(** [impl Hashable for Node]; [Note::uncommitted] is the field element one. *)
#[export] Instance Node_Hashable : Hashable Node := {
  node_read := read_uint 32;
  node_write := le_bytes 32;
  combine := merkle_hash;
  blank := 1;
}.

(** ** [CommitmentTreeSerialization] *)

Definition ser_new (t : CommitmentTree Node) : bytes := tree_write t.

(** Reading a broken serialisation panics. *)
Definition get_commitment_tree (value : bytes) : option (CommitmentTree Node) :=
  match tree_read value with Ret t _ => Some t | _ => None end.

(** ** The notes of transactions *)

(** A result that is an error only panics, [.expect(..)]. *)
Definition expect_ok {S E A} (m : M S E A) (s : S) : option S :=
  match m s with Ret _ s => Some s | _ => None end.

(** A result that is not looked at. *)
Definition ignore {S E A} (m : M S E A) (s : S) : option S :=
  match m s with Ret _ s | Throw _ s => Some s | Panic => None end.

Fixpoint append_notes (notes : list Z) (t : CommitmentTree Node) : option (CommitmentTree Node) :=
  match notes with
  | [] => Some t
  | fr :: notes => t ← expect_ok (tree_append fr) t; append_notes notes t
  end.

Fixpoint update_commitment_tree_with_txs (txs : list LocalizedTransaction) (t : CommitmentTree Node)
    : option (CommitmentTree Node) :=
  match txs with
  | [] => Some t
  | tx :: txs => t ← append_notes (get_commitment_notes (lt_unsigned tx)) t; update_commitment_tree_with_txs txs t
  end.

(** ** Facts *)

Lemma node_inverts : inverts node_read node_write is_u256.
Proof. exact (read_uint_inverts 32). Qed.

Lemma append_notes_all notes t t' : append_all tree_append notes t = Ret tt t' -> append_notes notes t = Some t'.
Proof.
  revert t. induction notes as [|n notes IH]; intros t Ha; cbn in *; [by injection Ha as ->|].
  unfold bind, expect_ok in *. destruct (tree_append n t); try done. cbn. by apply IH.
Qed.

Lemma append_notes_app a b t : append_notes (a ++ b) t = t ← append_notes a t; append_notes b t.
Proof. revert t. induction a as [|n a IH]; intros t; cbn; [done|]. destruct (expect_ok _ t); [apply IH|done]. Qed.

Lemma update_tree_notes txs t : update_commitment_tree_with_txs txs t =
  append_notes (mjoin ((fun tx => get_commitment_notes (lt_unsigned tx)) <$> txs)) t.
Proof.
  revert t. induction txs as [|tx txs IH]; intros t; [done|]. cbn [update_commitment_tree_with_txs fmap list_fmap].
  change (mjoin (?a :: ?l)) with (a ++ mjoin l). rewrite append_notes_app.
  destruct (append_notes _ t); [apply IH|done].
Qed.

(** The tree of a block is that of its parent with the notes of the block. *)
Lemma update_tree_rep block t l : tree_rep t l -> zlen (l ++ block_notes block) <= 2 ^ 32 ->
  exists t', update_commitment_tree_with_txs (localized_private_txs block) t = Some t' /\
    tree_rep t' (l ++ block_notes block).
Proof.
  intros Ht Hle. destruct (tree_append_all t l _ Ht Hle) as (t' & Ha & Ht'). exists t'. split; [|done].
  rewrite update_tree_notes. by apply append_notes_all.
Qed.

(** *** Stored trees are read back *)

Context (hash_u256 : forall d a b, is_u256 (merkle_hash d a b)).

Lemma layer_ok d l : Forall is_u256 l -> Forall is_u256 (layer d l).
Proof.
  induction l as [| |a b l IH] using pairs_ind; cbn; intros Hl; [done|constructor; [apply hash_u256|constructor]|].
  rewrite !Forall_cons in Hl. destruct Hl as (_ & _ & Hl). constructor; [apply hash_u256|auto].
Qed.

Lemma empty_at_ok d : is_u256 (empty_at d).
Proof. destruct d; cbn; [range_lia|apply hash_u256]. Qed.

Lemma merkle_from_ok d n l : Forall is_u256 l -> is_u256 (merkle_from d n l).
Proof.
  revert d l. induction n as [|n IH]; intros d l Hl; cbn; [|by apply IH, layer_ok].
  destruct l; [apply empty_at_ok|by inversion Hl].
Qed.

Lemma parents_ok d ps l : parents_rep d ps l -> Forall is_u256 l -> Forall (place_ok is_u256) ps.
Proof.
  induction 1 as [|d ps l Hne Hps IH|d ps l k Hlen Hps IH]; intros Hl; [done|constructor; [done|auto]|].
  apply Forall_app in Hl as [Hl Hk]. constructor; [|auto].
  intros a Ha. injection Ha as <-. by apply merkle_from_ok.
Qed.

Lemma tree_rep_ok t l : tree_rep t l -> zlen l <= 2 ^ 32 -> Forall is_u256 l -> tree_ok is_u256 t.
Proof.
  intros Ht Hle Hl. pose proof (tree_parents_le t l 32 Ht ltac:(lia) (proj1 (room l) Hle)) as Hlen. clear Hle. destruct Ht as (rest & Hps & Hrest).
  destruct t as [[a|] [b|] ps]; cbn in *; try done.
  1: rewrite Hrest, Forall_app, !Forall_cons in Hl; destruct Hl as (Hl & Ha & Hb & _).
  2: rewrite Hrest, Forall_app, !Forall_cons in Hl; destruct Hl as (Hl & Ha & _).
  3: destruct Hrest as [-> ->]; inversion Hps; subst.
  all: split; cbn; unfold place_ok; try (intros; simplify_eq; done); (split; [by eapply parents_ok|]); unfold zlen, MAX_SIZE; lia.
Qed.

Lemma ser_roundtrip t l : tree_rep t l -> zlen l <= 2 ^ 32 -> Forall is_u256 l -> get_commitment_tree (ser_new t) = Some t.
Proof.
  intros Ht Hle Hl. pose proof (tree_inverts is_u256 node_inverts t [] (tree_rep_ok t l Ht Hle Hl)) as Hr.
  rewrite app_nil_r in Hr. unfold get_commitment_tree, ser_new. by rewrite Hr.
Qed.

End Sapling.
