(* ===== verification/Wallet.v ===== *)
(** * The wallet

    [blockchain/src/wallet/wallet.rs], with the note data of [sendmany.rs] and the viewing
    keys of [key_store.rs]: the notes that the wallet can decrypt, with a witness of each in
    the commitment tree, and their updates as blocks join and leave the canonical chain.

    The cryptography ([zcash_primitives::note_encryption], [sapling-crypto]) and the text
    form of addresses are parameters. Hash maps are iterated in the order of [map_to_list].
    A panic is [None]. *)

From stdpp Require Import base numbers option strings gmap list.
From S2P Require Import Prelude Serialize MerkleTree Transaction Blocks Sapling.

Open Scope Z_scope.
Open Scope origo_scope.

(** Keys, addresses and notes, and the decryption of outputs. [nf] is the nullifier of a note
    at a position of the tree. *)
Class NoteCryptography : Type := {
  IncomingViewingKey : Type;
  FullViewingKey : Type;
  PaymentAddress : Type;
  Note : Type;
  Memo : Type;
  EphemeralKey : Type;
  IncomingViewingKey_eq_dec :: EqDecision IncomingViewingKey;
  IncomingViewingKey_countable :: Countable IncomingViewingKey;
  PaymentAddress_eq_dec :: EqDecision PaymentAddress;
  PaymentAddress_countable :: Countable PaymentAddress;
  as_prime_order : bytes -> option EphemeralKey;
  try_sapling_note_decryption :
    IncomingViewingKey -> EphemeralKey -> Z -> bytes -> option (Note * PaymentAddress * Memo);
  nf : Note -> FullViewingKey -> Z -> Z;
  ivk : FullViewingKey -> IncomingViewingKey;
  note_value : Note -> Z;
  encode_payment_address : PaymentAddress -> string;
  decode_payment_address : string -> option PaymentAddress;
}.

Section Wallet.
Context {MH : MerkleHash} {NC : NoteCryptography}.

(** ** [KeyStore] *)

Record KeyStore : Type := mkKeyStore {
  ks_incoming : gmap PaymentAddress IncomingViewingKey;
  ks_full : gmap IncomingViewingKey FullViewingKey;
}.

Definition add_full_viewing_key (fvk : FullViewingKey) (address : PaymentAddress) (k : KeyStore) : KeyStore :=
  mkKeyStore (<[address := ivk fvk]> (ks_incoming k)) (<[ivk fvk := fvk]> (ks_full k)).

Definition get_sapling_payment_addresses (k : KeyStore) : list PaymentAddress := (map_to_list (ks_incoming k)).*1.

(** The keys of the addresses that were handled before. *)
Definition handled_incoming_keys (k : KeyStore) (handled : option (list string)) : list IncomingViewingKey :=
  match handled with
  | Some addresses => omap (fun a => p ← decode_payment_address a; ks_incoming k !! p) addresses
  | None => []
  end.

Definition get_unhandled_viewing_keys (k : KeyStore) (handled : option (list string))
    : list (IncomingViewingKey * FullViewingKey) :=
  filter (fun kf => kf.1 ∉ handled_incoming_keys k handled) (map_to_list (ks_full k)).

(** ** [SaplingNoteData] *)

Record SaplingNoteData : Type := mkNoteData {
  nd_address : PaymentAddress;
  nd_note : Note;
  nd_memo : Memo;
  nd_witnesses : list (IncrementalWitness Node);
  nd_create_height : Z;
  nd_spend_height : option Z;
  nd_confirm_height : option Z;
  nd_ivk : IncomingViewingKey;
  nd_nullifier : option Z;
  nd_hash : Z;
  nd_index : Z;
}.

Definition note_data_new (address : PaymentAddress) (note : Note) (memo : Memo) (block_number : Z)
    (key : IncomingViewingKey) (nullifier hash number : Z) : SaplingNoteData :=
  mkNoteData address note memo [] block_number None None key (Some nullifier) hash number.

Definition push_front (witness : IncrementalWitness Node) (n : SaplingNoteData) : SaplingNoteData :=
  mkNoteData (nd_address n) (nd_note n) (nd_memo n) (witness :: nd_witnesses n) (nd_create_height n)
    (nd_spend_height n) (nd_confirm_height n) (nd_ivk n) (nd_nullifier n) (nd_hash n) (nd_index n).

Definition front (n : SaplingNoteData) : option (IncrementalWitness Node) := head (nd_witnesses n).

Definition set_confirm_height (h : Z) (n : SaplingNoteData) : SaplingNoteData :=
  mkNoteData (nd_address n) (nd_note n) (nd_memo n) (nd_witnesses n) (nd_create_height n)
    (nd_spend_height n) (Some h) (nd_ivk n) (nd_nullifier n) (nd_hash n) (nd_index n).

(** ** [Wallet] *)

Record Wallet : Type := mkWallet {
  w_nullifier_notes : gmap Z SaplingNoteData;
  w_address_nullifiers : gmap PaymentAddress (list Z);
  w_tx_nullifiers : gmap Z (list Z);
  w_key_store : KeyStore;
}.

Definition set_notes (m : gmap Z SaplingNoteData) (w : Wallet) : Wallet :=
  mkWallet m (w_address_nullifiers w) (w_tx_nullifiers w) (w_key_store w).

Definition list_addresses (w : Wallet) : list string :=
  encode_payment_address <$> get_sapling_payment_addresses (w_key_store w).

Definition clear_wallet_data (w : Wallet) : Wallet := mkWallet ∅ ∅ ∅ (w_key_store w).

(** [write_wallet_data]: the transactions and the addresses that are stored. *)
Definition wallet_hashes (w : Wallet) : list Z := (map_to_list (w_tx_nullifiers w)).*1.

(** [match m.get_mut(k)]: a new vector, or a push to the present one. *)
Definition push_nullifier `{Countable K} (k : K) (nullifier : Z) (m : gmap K (list Z)) : gmap K (list Z) :=
  match m !! k with
  | None => <[k := [nullifier]]> m
  | Some v => <[k := v ++ [nullifier]]> m
  end.

(** *** Receiving notes *)

(** The loop over the viewing keys: the first one that decrypts the output. *)
Fixpoint decrypt_output (keys : list (IncomingViewingKey * FullViewingKey)) (output : OutputDescription)
    : option (IncomingViewingKey * FullViewingKey * (Note * PaymentAddress * Memo)) :=
  match keys with
  | [] => None
  | (k, fvk) :: keys =>
      match as_prime_order (od_ephemeral_key output) with
      | None => decrypt_output keys output
      | Some epk =>
          match try_sapling_note_decryption k epk (od_cmu output) (od_enc_ciphertext output) with
          | None => decrypt_output keys output
          | Some plain => Some (k, fvk, plain)
          end
      end
  end.

(** [front_op.append(..)] over the successors. *)
Fixpoint append_successors (nodes : list Node) (w : IncrementalWitness Node) : option (IncrementalWitness Node) :=
  match nodes with
  | [] => Some w
  | node :: nodes => w ← ignore (witness_append node) w; append_successors nodes w
  end.

(** A decrypted output enters the wallet. *)
Definition receive_note (block_height hash i : Z) (tree : CommitmentTree Node) (successors : list Node)
    (k : IncomingViewingKey) (fvk : FullViewingKey) (plain : Note * PaymentAddress * Memo) (w : Wallet) : option Wallet :=
  let '(note, address, memo) := plain in
  front_op ← append_successors successors (from_tree tree);
  position ← witness_position front_op;
  let nullifier := nf note fvk position in
  let note_data := push_front front_op (note_data_new address note memo block_height k nullifier hash i) in
  match w_nullifier_notes w !! nullifier with
  | Some _ => None
  | None =>
      Some (mkWallet (<[nullifier := note_data]> (w_nullifier_notes w))
        (push_nullifier address nullifier (w_address_nullifiers w))
        (push_nullifier hash nullifier (w_tx_nullifiers w)) (w_key_store w))
  end.

(** The wallet, the tree, and the index of the next note of the block. *)
Record Receiver : Type := mkReceiver {
  r_wallet : Wallet;
  r_tree : CommitmentTree Node;
  r_index : nat;
}.

(** The loop over the outputs of a transaction; [true] if the function returned in it. *)
Fixpoint receive_outputs (block_height hash i : Z) (keys : list (IncomingViewingKey * FullViewingKey))
    (filtered : option (list Z)) (note_commitment_list : list Node) (outputs : list OutputDescription) (r : Receiver)
    : option (Receiver * bool) :=
  match outputs with
  | [] => Some (r, false)
  | output :: outputs =>
      node ← note_commitment_list !! r_index r;
      tree ← ignore (tree_append node) (r_tree r);
      let r := mkReceiver (r_wallet r) tree (S (r_index r)) in
      if match filtered with Some hashes => bool_decide (hash ∉ hashes) | None => false end then Some (r, true)
      else
        w ← match decrypt_output keys output with
            | Some (k, fvk, plain) =>
                receive_note block_height hash i (r_tree r) (drop (r_index r) note_commitment_list) k fvk plain (r_wallet r)
            | None => Some (r_wallet r)
            end;
        receive_outputs block_height hash (i + 1) keys filtered note_commitment_list outputs
          (mkReceiver w (r_tree r) (r_index r))
  end.

(** Spent notes are marked. *)
Definition mark_spend (block_height : Z) (spend : SpendDescription) (w : Wallet) : Wallet :=
  let nullifier := be_value (sd_nullifier spend) in
  match w_nullifier_notes w !! nullifier with
  | Some note => set_notes (<[nullifier := set_confirm_height block_height note]> (w_nullifier_notes w)) w
  | None => w
  end.

Definition mark_spends (block_height : Z) (spends : list SpendDescription) (w : Wallet) : Wallet :=
  foldl (fun w spend => mark_spend block_height spend w) w spends.

Definition receive_spling_notes_into_wallet (block_height : Z) (tx : LocalizedTransaction)
    (keys : list (IncomingViewingKey * FullViewingKey)) (filtered : option (list Z)) (note_commitment_list : list Node)
    (r : Receiver) : option Receiver :=
  '(r, returned) ← receive_outputs block_height (lt_hash tx) 0 keys filtered note_commitment_list
                     (v_shielded_output (lt_unsigned tx)) r;
  if returned : bool then Some r
  else Some (mkReceiver (mark_spends block_height (v_shielded_spend (lt_unsigned tx)) (r_wallet r)) (r_tree r) (r_index r)).

Fixpoint receive_txs (block_height : Z) (txs : list LocalizedTransaction)
    (keys : list (IncomingViewingKey * FullViewingKey)) (filtered : option (list Z)) (note_commitment_list : list Node)
    (r : Receiver) : option Receiver :=
  match txs with
  | [] => Some r
  | tx :: txs =>
      r ← receive_spling_notes_into_wallet block_height tx keys filtered note_commitment_list r;
      receive_txs block_height txs keys filtered note_commitment_list r
  end.

Definition process_new_block (parent_commitment_tree : CommitmentTree Node) (pblock : Block)
    (handled_addresses : option (list string)) (filtered_tx_hashes : option (list Z)) (w : Wallet) : option Wallet :=
  let txs := localized_private_txs pblock in
  let keys := get_unhandled_viewing_keys (w_key_store w) handled_addresses in
  let note_commitment_list := mjoin ((fun tx => od_cmu <$> v_shielded_output (lt_unsigned tx)) <$> txs) in
  r ← receive_txs (b_number pblock) txs keys filtered_tx_hashes note_commitment_list
        (mkReceiver w parent_commitment_tree 0);
  Some (r_wallet r).

Definition sync_new_block (tree : CommitmentTree Node) (pblock : Block) (w : Wallet) : option Wallet :=
  process_new_block tree pblock None None w.

Definition reload_new_block (tree : CommitmentTree Node) (pblock : Block) (filtered : option (list Z)) (w : Wallet)
    : option Wallet :=
  process_new_block tree pblock None filtered w.

Definition scan_new_block (tree : CommitmentTree Node) (pblock : Block) (handled : option (list string)) (w : Wallet)
    : option Wallet :=
  process_new_block tree pblock handled None w.

(** *** Retracted transactions *)

Definition remove_tx_notes (w : Wallet) (m : gmap Z SaplingNoteData) (hash : Z) : gmap Z SaplingNoteData :=
  match w_tx_nullifiers w !! hash with
  | Some nullifiers => foldl (fun m nullifier => delete nullifier m) m nullifiers
  | None => m
  end.

(** The two indices over the notes that are left. *)
Definition reconstruct (notes : list (Z * SaplingNoteData)) : gmap PaymentAddress (list Z) * gmap Z (list Z) :=
  foldl (fun '(by_address, by_tx) '(nullifier, note) =>
      (push_nullifier (nd_address note) nullifier by_address, push_nullifier (nd_hash note) nullifier by_tx))
    (∅, ∅) notes.

Definition remove_retracted_txs (retracted_tx_hashes : list Z) (w : Wallet) : Wallet :=
  let notes := foldl (remove_tx_notes w) (w_nullifier_notes w) retracted_tx_hashes in
  let '(by_address, by_tx) := reconstruct (map_to_list notes) in
  mkWallet notes by_address by_tx (w_key_store w).

(** ** Notes to spend *)

Record SaplingNoteEntry : Type := mkNoteEntry {
  ne_hash : Z;
  ne_index : Z;
  ne_address : PaymentAddress;
  ne_witness : IncrementalWitness Node;
  ne_note : Note;
  ne_memo : Memo;
}.

Fixpoint filter_nullifiers (w : Wallet) (ignore_spent : bool) (address : PaymentAddress) (nullifiers : list Z)
    : option (list SaplingNoteEntry) :=
  match nullifiers with
  | [] => Some []
  | nullifier :: nullifiers =>
      match w_nullifier_notes w !! nullifier with
      | Some n =>
          if ignore_spent && is_some (nd_confirm_height n) then filter_nullifiers w ignore_spent address nullifiers
          else
            witness ← front n;
            rest ← filter_nullifiers w ignore_spent address nullifiers;
            Some (mkNoteEntry (nd_hash n) (nd_index n) address witness (nd_note n) (nd_memo n) :: rest)
      | None => filter_nullifiers w ignore_spent address nullifiers
      end
  end.

Fixpoint get_filtered_notes (w : Wallet) (filtered_addresses : list PaymentAddress) (ignore_spent : bool)
    : option (list SaplingNoteEntry) :=
  match filtered_addresses with
  | [] => Some []
  | address :: addresses =>
      here ← match w_address_nullifiers w !! address with
             | Some nullifiers => filter_nullifiers w ignore_spent address nullifiers
             | None => Some []
             end;
      rest ← get_filtered_notes w addresses ignore_spent;
      Some (here ++ rest)
  end.

Definition get_filtered_address_notes (w : Wallet) (address : string) : option (list SaplingNoteEntry) :=
  let filtered_addresses :=
    if bool_decide (address = ""%string) then []
    else match decode_payment_address address with Some a => [a] | None => [] end in
  get_filtered_notes w filtered_addresses true.

(** [SendManyOperation::find_unspent_notes]: the first notes that together are worth the
    target; the error carries the sum. *)
Fixpoint take_notes (entries : list SaplingNoteEntry) (target sum : Z) (acc : list SaplingNoteEntry)
    : option (list SaplingNoteEntry * Z) :=
  match entries with
  | [] => Some (acc, sum)
  | entry :: entries =>
      v ← u256_mul (note_value (ne_note entry)) CONVERSION_FACTOR;
      sum ← u256_add sum v;
      let acc := acc ++ [entry] in
      if target <=? sum then Some (acc, sum) else take_notes entries target sum acc
  end.

Definition find_unspent_notes (w : Wallet) (from_address : string) (target : Z)
    : option (list SaplingNoteEntry + Z) :=
  entries ← get_filtered_address_notes w from_address;
  '(notes, sum) ← take_notes entries target 0 [];
  Some (if sum <? target then inr sum else inl notes).
End Wallet.
