(* ===== verification/WalletProofs.v ===== *)
(** * The wallet follows the canonical chain

    The notes that the keys of the wallet decrypt in a chain of blocks are the specification
    ([received_chain]): each with the notes that precede it in the tree and those that follow
    it in its block. [holds] relates a wallet to them. *)

From stdpp Require Import base numbers option strings gmap list.
From S2P Require Import Prelude Serialize MerkleTree MerkleProofs Transaction Blocks Sapling Wallet.

Open Scope Z_scope.
Open Scope origo_scope.

(** The notes of a chain of blocks, in their order. *)
Definition chain_notes (l : list Block) : list Z := mjoin (block_notes <$> l).

Lemma chain_notes_snoc l b : chain_notes (l ++ [b]) = chain_notes l ++ block_notes b.
Proof. unfold chain_notes. rewrite fmap_app, join_app. cbn. by rewrite app_nil_r. Qed.

Lemma chain_notes_app l k : chain_notes (l ++ k) = chain_notes l ++ chain_notes k.
Proof. unfold chain_notes. by rewrite fmap_app, join_app. Qed.

Section Proofs.
Context {MH : MerkleHash} {NC : NoteCryptography}.

Abbreviation Keys := (list (IncomingViewingKey * FullViewingKey)).

(** ** The specification *)

(** A note that was received: where its output is, the key and what it decrypts to, the
    notes of the tree up to it, and those after it in its block. *)
Record Received : Type := mkReceived {
  rc_height : Z;
  rc_tx : Z;
  rc_index : Z;
  rc_ivk : IncomingViewingKey;
  rc_fvk : FullViewingKey;
  rc_note : Note;
  rc_address : PaymentAddress;
  rc_memo : Memo;
  rc_before : list Z;
  rc_leaf : Z;
  rc_after : list Z;
}.

Definition rc_nullifier (r : Received) : Z := nf (rc_note r) (rc_fvk r) (zlen (rc_before r)).

(** The notes received in outputs of one transaction, from output [i] on; [before] are the
    notes before these outputs, and [after] those after them. *)
Fixpoint received_outputs (keys : Keys) (height hash i : Z) (before : list Z) (outputs : list OutputDescription)
    (after : list Z) : list Received :=
  match outputs with
  | [] => []
  | output :: outputs =>
      let rest := received_outputs keys height hash (i + 1) (before ++ [od_cmu output]) outputs after in
      match decrypt_output keys output with
      | Some (k, fvk, (note, address, memo)) =>
          mkReceived height hash i k fvk note address memo before (od_cmu output) ((od_cmu <$> outputs) ++ after) :: rest
      | None => rest
      end
  end.

Definition tx_notes (tx : LocalizedTransaction) : list Z := od_cmu <$> v_shielded_output (lt_unsigned tx).

Fixpoint received_txs (keys : Keys) (height : Z) (before : list Z) (txs : list LocalizedTransaction) : list Received :=
  match txs with
  | [] => []
  | tx :: txs =>
      received_outputs keys height (lt_hash tx) 0 before (v_shielded_output (lt_unsigned tx)) (mjoin (tx_notes <$> txs)) ++
      received_txs keys height (before ++ tx_notes tx) txs
  end.

Definition received_block (keys : Keys) (before : list Z) (b : Block) : list Received :=
  received_txs keys (b_number b) before (localized_private_txs b).

Fixpoint received_from (keys : Keys) (before : list Z) (l : list Block) : list Received :=
  match l with
  | [] => []
  | b :: l => received_block keys before b ++ received_from keys (before ++ block_notes b) l
  end.

Definition received_chain (keys : Keys) (l : list Block) : list Received := received_from keys [] l.

(** The data that the wallet keeps of a received note, whether it was spent since or not. *)
Definition note_for (r : Received) (n : SaplingNoteData) : Prop :=
  nd_address n = rc_address r /\ nd_note n = rc_note r /\ nd_memo n = rc_memo r /\ nd_create_height n = rc_height r /\
  nd_spend_height n = None /\ nd_ivk n = rc_ivk r /\ nd_nullifier n = Some (rc_nullifier r) /\
  nd_hash n = rc_tx r /\ nd_index n = rc_index r /\
  exists w, nd_witnesses n = [w] /\ witness_rep w 32 (rc_before r ++ [rc_leaf r]) (rc_after r).

(** The wallet holds exactly the notes [rs]. *)
Record holds (w : Wallet) (rs : list Received) : Prop := {
  holds_unique : NoDup (rc_nullifier <$> rs);
  holds_notes : forall r, r ∈ rs -> exists n, w_nullifier_notes w !! rc_nullifier r = Some n /\ note_for r n;
  holds_only : forall x, is_Some (w_nullifier_notes w !! x) -> x ∈ rc_nullifier <$> rs;
  holds_txs : forall h x, x ∈ default [] (w_tx_nullifiers w !! h) <-> exists r, r ∈ rs /\ rc_tx r = h /\ rc_nullifier r = x;
  holds_addresses : forall a x, x ∈ default [] (w_address_nullifiers w !! a) <->
    exists r, r ∈ rs /\ rc_address r = a /\ rc_nullifier r = x;
}.

Lemma block_notes_txs b : block_notes b = mjoin (tx_notes <$> localized_private_txs b).
Proof.
  unfold block_notes, tx_notes. f_equal. apply list_fmap_ext. intros _ tx _.
  unfold get_commitment_notes, v_shielded_output. by destruct (t_private _).
Qed.

Lemma received_from_app keys before l k :
  received_from keys before (l ++ k) = received_from keys before l ++ received_from keys (before ++ chain_notes l) k.
Proof.
  revert before. induction l as [|b l IH]; intros before; cbn [received_from app].
  { change (chain_notes []) with (@nil Z). by rewrite app_nil_r. }
  rewrite IH, app_assoc. change (chain_notes (b :: l)) with (block_notes b ++ chain_notes l). by rewrite !app_assoc.
Qed.

Lemma received_chain_app keys l k : received_chain keys (l ++ k) = received_chain keys l ++ received_from keys (chain_notes l) k.
Proof. unfold received_chain. by rewrite received_from_app. Qed.

Lemma received_chain_snoc keys l b : received_chain keys (l ++ [b]) = received_chain keys l ++ received_block keys (chain_notes l) b.
Proof. rewrite received_chain_app. cbn. by rewrite app_nil_r. Qed.

(** ** Receiving *)

Lemma push_nullifier_elem `{Countable K} (k k' : K) x y m :
  x ∈ default [] (push_nullifier k y m !! k') <-> k' = k /\ x = y \/ x ∈ default [] (m !! k').
Proof.
  unfold push_nullifier. destruct (decide (k = k')) as [<-|Hne].
  - destruct (m !! k) as [v|]; rewrite lookup_insert_eq; cbn; set_solver.
  - destruct (m !! k) as [v|]; rewrite lookup_insert_ne by done; naive_solver.
Qed.

Lemma append_successors_all nodes w w' : append_all witness_append nodes w = Ret tt w' -> append_successors nodes w = Some w'.
Proof.
  revert w. induction nodes as [|n nodes IH]; intros w Ha; cbn in *; [by injection Ha as ->|].
  unfold bind, ignore in *. destruct (witness_append n w); try done. cbn. by apply IH.
Qed.

Lemma holds_insert w rs r n : holds w rs -> rc_nullifier r ∉ rc_nullifier <$> rs -> note_for r n ->
  holds (mkWallet (<[rc_nullifier r := n]> (w_nullifier_notes w))
    (push_nullifier (rc_address r) (rc_nullifier r) (w_address_nullifiers w))
    (push_nullifier (rc_tx r) (rc_nullifier r) (w_tx_nullifiers w)) (w_key_store w)) (rs ++ [r]).
Proof.
  intros [Hu Hn Ho Ht Ha] Hfresh Hnd. split; cbn.
  - rewrite fmap_app. apply NoDup_app. split_and!; [done|set_solver|apply NoDup_singleton].
  - intros r' [Hr'|Hr']%elem_of_app; [|apply list_elem_of_singleton in Hr' as ->; exists n; by rewrite lookup_insert_eq].
    destruct (Hn r' Hr') as (n' & Hl & Hn'). exists n'. rewrite lookup_insert_ne; [done|].
    intros Heq. apply Hfresh. rewrite Heq. by apply list_elem_of_fmap_2.
  - intros x. rewrite fmap_app, elem_of_app. destruct (decide (x = rc_nullifier r)) as [->|]; [set_solver|].
    rewrite lookup_insert_ne by done. eauto.
  - intros h x. rewrite push_nullifier_elem, Ht. set_solver.
  - intros a x. rewrite push_nullifier_elem, Ha. set_solver.
Qed.

Lemma receive_note_ok w rs r tree : holds w rs -> rc_nullifier r ∉ rc_nullifier <$> rs ->
  tree_rep tree (rc_before r ++ [rc_leaf r]) -> zlen ((rc_before r ++ [rc_leaf r]) ++ rc_after r) <= 2 ^ 32 ->
  exists w', receive_note (rc_height r) (rc_tx r) (rc_index r) tree (rc_after r) (rc_ivk r) (rc_fvk r)
      (rc_note r, rc_address r, rc_memo r) w = Some w' /\ holds w' (rs ++ [r]) /\ w_key_store w' = w_key_store w.
Proof.
  intros Hw Hfresh Ht Hle. pose proof (room_left _ _ Hle) as Hle1.
  destruct (witness_append_all (from_tree tree) (rc_before r ++ [rc_leaf r]) [] (rc_after r)) as (wit & Ha & Hrep);
    [by apply from_tree_rep; [|apply room]|done|].
  unfold receive_note. rewrite (append_successors_all _ _ _ Ha). cbn [mbind option_bind].
  pose proof Hrep as (Htree & Hlen & _). rewrite (proj1 (witness_position_ok wit 32 _ _ Htree Hlen ltac:(lia))).
  cbn [mbind option_bind]. fold (rc_nullifier r).
  destruct (w_nullifier_notes w !! rc_nullifier r) eqn:Hl; [destruct Hfresh; by apply (holds_only _ _ Hw)|].
  eexists. split; [done|]. split; [|done]. apply holds_insert; [done..|]. unfold note_for. cbn. split_and!; try done. by exists wit.
Qed.

Lemma mark_spend_holds h spend w rs : holds w rs -> holds (mark_spend h spend w) rs.
Proof.
  intros [Hu Hn Ho Ht Ha]. unfold mark_spend. set (x := be_value _).
  destruct (w_nullifier_notes w !! x) as [n|] eqn:Hx; [|done]. split; cbn; try done.
  - intros r Hr. destruct (Hn r Hr) as (n' & Hl & Hn'). destruct (decide (x = rc_nullifier r)) as [Heq|].
    + exists (set_confirm_height h n). rewrite <- Heq, lookup_insert_eq. split; [done|].
      rewrite <- Heq, Hx in Hl. by simplify_eq.
    + exists n'. by rewrite lookup_insert_ne.
  - intros y. destruct (decide (x = y)) as [<-|]; [intros _; by apply Ho|]. rewrite lookup_insert_ne by done. auto.
Qed.

Lemma mark_spends_holds h spends w rs : holds w rs ->
  holds (mark_spends h spends w) rs /\ w_key_store (mark_spends h spends w) = w_key_store w.
Proof.
  unfold mark_spends. revert w. induction spends as [|s spends IH]; intros w Hw; [done|]. cbn [foldl].
  destruct (IH _ (mark_spend_holds h s w rs Hw)) as [Hh Hk]. split; [done|]. rewrite Hk.
  unfold mark_spend. by case_match.
Qed.

Lemma tree_append_ignored t l node : tree_rep t l -> zlen (l ++ [node]) <= 2 ^ 32 ->
  exists t', ignore (tree_append node) t = Some t' /\ tree_rep t' (l ++ [node]).
Proof.
  intros Ht Hle. destruct (tree_append_all t l [node] Ht Hle) as (t' & Ha & Ht'). exists t'. split; [|done].
  cbn in Ha. unfold bind, ret, ignore in *. by destruct (tree_append node t); simplify_eq.
Qed.

Lemma receive_outputs_ok keys height hash i outputs after ncl before w rs tree idx :
  holds w rs -> NoDup (rc_nullifier <$> rs ++ received_outputs keys height hash i before outputs after) ->
  tree_rep tree before -> zlen (before ++ (od_cmu <$> outputs) ++ after) <= 2 ^ 32 ->
  drop idx ncl = (od_cmu <$> outputs) ++ after ->
  exists w' tree', receive_outputs height hash i keys None ncl outputs (mkReceiver w tree idx) =
      Some (mkReceiver w' tree' (idx + length outputs), false) /\
    holds w' (rs ++ received_outputs keys height hash i before outputs after) /\
    tree_rep tree' (before ++ (od_cmu <$> outputs)) /\ w_key_store w' = w_key_store w.
Proof.
  revert i before w rs tree idx. induction outputs as [|o outputs IH]; intros i before w rs tree idx Hw Hnd Ht Hle Hd.
  { exists w, tree. cbn. rewrite Nat.add_0_r, !app_nil_r. by split_and!. }
  cbn [receive_outputs received_outputs fmap list_fmap app length] in *.
  assert (Hnode : ncl !! idx = Some (od_cmu o)) by (by rewrite <- (Nat.add_0_r idx), <- lookup_drop, Hd).
  assert (Hnext : drop (S idx) ncl = (od_cmu <$> outputs) ++ after)
    by (by rewrite <- Nat.add_1_r, <- drop_drop, Hd).
  rewrite cons_middle, app_assoc in Hle. cbn [r_index r_tree r_wallet]. rewrite Hnode. cbn [mbind option_bind].
  destruct (tree_append_ignored tree before (od_cmu o) Ht (room_left _ _ Hle)) as (t1 & Ha & Ht1).
  rewrite Ha. cbn [mbind option_bind r_index r_tree r_wallet]. rewrite Hnext.
  rewrite (cons_middle (od_cmu o) before (od_cmu <$> outputs)), (app_assoc before [od_cmu o] (od_cmu <$> outputs)). replace (idx + S (length outputs))%nat with (S idx + length outputs)%nat by lia.
  destruct (decrypt_output keys o) as [[[k fvk] [[note address] memo]]|]; cbn [mbind option_bind]; [|by apply IH].
  set (r := mkReceived height hash i k fvk note address memo before (od_cmu o) ((od_cmu <$> outputs) ++ after)) in *.
  rewrite (cons_middle r), (app_assoc rs) in Hnd. rewrite (cons_middle r), (app_assoc rs).
  destruct (receive_note_ok w rs r t1 Hw) as (w1 & Hr & Hw1 & Hk1); [|done|done|].
  { rewrite fmap_app in Hnd. apply NoDup_app in Hnd as [Hnd _]. rewrite fmap_app, NoDup_app in Hnd. set_solver. }
  cbn [r rc_height rc_tx rc_index rc_after rc_ivk rc_fvk rc_note rc_address rc_memo] in Hr. rewrite Hr. cbn [mbind option_bind].
  destruct (IH (i + 1) (before ++ [od_cmu o]) w1 (rs ++ [r]) t1 (S idx)) as (w2 & t2 & ? & ? & ? & Hk2); try done.
  exists w2, t2. by rewrite Hk2.
Qed.

Lemma receive_txs_ok keys height txs ncl before w rs tree idx :
  holds w rs -> NoDup (rc_nullifier <$> rs ++ received_txs keys height before txs) ->
  tree_rep tree before -> zlen (before ++ mjoin (tx_notes <$> txs)) <= 2 ^ 32 -> drop idx ncl = mjoin (tx_notes <$> txs) ->
  exists r', receive_txs height txs keys None ncl (mkReceiver w tree idx) = Some r' /\
    holds (r_wallet r') (rs ++ received_txs keys height before txs) /\ w_key_store (r_wallet r') = w_key_store w.
Proof.
  revert before w rs tree idx. induction txs as [|tx txs IH]; intros before w rs tree idx Hw Hnd Ht Hle Hd.
  { eexists. cbn. rewrite app_nil_r. by split_and!. }
  cbn [receive_txs received_txs fmap list_fmap] in *.
  change (mjoin (tx_notes tx :: (tx_notes <$> txs))) with (tx_notes tx ++ mjoin (tx_notes <$> txs)) in *.
  rewrite (app_assoc rs) in Hnd. pose proof Hnd as Hnd1. rewrite fmap_app, NoDup_app in Hnd1. destruct Hnd1 as [Hnd1 _].
  destruct (receive_outputs_ok keys height (lt_hash tx) 0 _ _ ncl before w rs tree idx Hw Hnd1 Ht Hle Hd)
    as (w1 & t1 & Hr & Hw1 & Ht1 & Hk1).
  unfold receive_spling_notes_into_wallet. rewrite Hr. cbn [mbind option_bind r_wallet r_tree r_index].
  destruct (mark_spends_holds height (v_shielded_spend (lt_unsigned tx)) w1 _ Hw1) as [Hw2 Hk2].
  rewrite app_assoc in Hle. rewrite (app_assoc rs).
  destruct (IH (before ++ tx_notes tx) _ _ t1 (idx + length (v_shielded_output (lt_unsigned tx)))%nat Hw2 Hnd Ht1 Hle)
    as (r' & Hr' & Hw' & Hk').
  { rewrite <- drop_drop, Hd. unfold tx_notes at 1. rewrite <- (length_fmap od_cmu). apply drop_app_length. }
  exists r'. split_and!; [done..|]. by rewrite Hk', Hk2.
Qed.

(** ** The contract of the wallet *)

Definition wallet_keys (w : Wallet) : Keys := map_to_list (ks_full (w_key_store w)).

(** The wallet has the notes of the chain [l]. *)
Definition follows (w : Wallet) (l : list Block) : Prop := holds w (received_chain (wallet_keys w) l).

(** The chain fits the tree, and no two notes that a wallet with these keys receives share
    their nullifier. *)
Definition admissible (keys : Keys) (l : list Block) : Prop :=
  zlen (chain_notes l) <= 2 ^ 32 /\ NoDup (rc_nullifier <$> received_chain keys l).

Lemma unhandled_all k : get_unhandled_viewing_keys k None = map_to_list (ks_full k).
Proof. unfold get_unhandled_viewing_keys. apply filter_all. apply Forall_forall. set_solver. Qed.

Lemma follows_sync w l b tree : follows w l -> tree_rep tree (chain_notes l) -> admissible (wallet_keys w) (l ++ [b]) ->
  exists w', sync_new_block tree b w = Some w' /\ follows w' (l ++ [b]) /\ w_key_store w' = w_key_store w.
Proof.
  intros Hw Ht [Hle Hnd]. unfold follows in *. rewrite chain_notes_snoc, block_notes_txs in Hle. rewrite received_chain_snoc in Hnd.
  unfold sync_new_block, process_new_block. rewrite unhandled_all.
  destruct (receive_txs_ok (wallet_keys w) (b_number b) (localized_private_txs b) (mjoin (tx_notes <$> localized_private_txs b))
    _ _ _ _ 0 Hw Hnd Ht Hle eq_refl) as (r' & Hr & Hw' & Hk).
  unfold tx_notes, wallet_keys in Hr. rewrite Hr. cbn. exists (r_wallet r'). split; [done|]. split; [|done].
  unfold wallet_keys in *. rewrite Hk, received_chain_snoc. done.
Qed.

(** *** Positions *)

(** Notes that are held stay held. *)
Definition kept (w w' : Wallet) : Prop := w_key_store w' = w_key_store w /\
  forall x n, w_nullifier_notes w !! x = Some n -> exists n', w_nullifier_notes w' !! x = Some n' /\
    nd_note n' = nd_note n /\ nd_hash n' = nd_hash n /\ nd_nullifier n' = nd_nullifier n.

Lemma kept_refl w : kept w w.
Proof. split; eauto. Qed.

Lemma kept_trans w w' w'' : kept w w' -> kept w' w'' -> kept w w''.
Proof.
  intros [Hk H1] [Hk' H2]. split; [congruence|]. intros x n Hn. destruct (H1 x n Hn) as (n1 & Hn1 & E1 & E2 & E3).
  destruct (H2 x n1 Hn1) as (n2 & Hn2 & F1 & F2 & F3). exists n2. split; [done|]. by rewrite F1, F2, F3.
Qed.

Lemma mark_spends_kept h spends w : kept w (mark_spends h spends w).
Proof.
  unfold mark_spends. revert w. induction spends as [|s spends IH]; intros w; [apply kept_refl|]. cbn [foldl].
  eapply kept_trans; [|apply IH]. unfold mark_spend. destruct (w_nullifier_notes w !! be_value (sd_nullifier s)) as [n|] eqn:Hn; [|apply kept_refl].
  split; [done|]. intros x m Hm. cbn [w_nullifier_notes set_notes]. destruct (decide (be_value (sd_nullifier s) = x)) as [<-|Hne].
  - rewrite lookup_insert_eq. eexists. split; [done|]. assert (m = n) as -> by congruence. done.
  - rewrite lookup_insert_ne by done. eauto.
Qed.

Lemma receive_note_kept height hash i tree successors k fvk plain w w' :
  receive_note height hash i tree successors k fvk plain w = Some w' -> kept w w'.
Proof.
  unfold receive_note. destruct plain as [[note address] memo]. intros (f & _ & (q & _ & Hr)%bind_Some)%bind_Some.
  destruct (w_nullifier_notes w !! nf note fvk q) eqn:Hn; [done|]. injection Hr as <-. split; [done|].
  intros x n Hx. cbn [w_nullifier_notes]. rewrite lookup_insert_ne by congruence. eauto.
Qed.

(** The nullifier of a received note: that of its position in the tree. *)
Lemma receive_note_position height hash i tree before leaf after k fvk note address memo w w' :
  receive_note height hash i tree after k fvk (note, address, memo) w = Some w' ->
  tree_rep tree (before ++ [leaf]) -> zlen ((before ++ [leaf]) ++ after) <= 2 ^ 32 ->
  exists n, w_nullifier_notes w' !! nf note fvk (zlen before) = Some n /\ nd_note n = note /\ nd_hash n = hash /\
    nd_nullifier n = Some (nf note fvk (zlen before)).
Proof.
  intros Hr Ht Hle. pose proof (room_left _ _ Hle) as Hle1.
  destruct (witness_append_all (from_tree tree) (before ++ [leaf]) [] after) as (wit & Ha & Hrep);
    [by apply from_tree_rep; [|apply room]|done|].
  unfold receive_note in Hr. rewrite (append_successors_all _ _ _ Ha) in Hr. cbn [mbind option_bind] in Hr.
  pose proof Hrep as (Htree & Hlen & _). rewrite (proj1 (witness_position_ok wit 32 _ _ Htree Hlen ltac:(lia))) in Hr.
  cbn [mbind option_bind] in Hr. destruct (w_nullifier_notes w !! _); [done|]. injection Hr as <-.
  eexists. cbn [w_nullifier_notes]. rewrite lookup_insert_eq. done.
Qed.

(** Whether a transaction is left out. *)
Definition left_out (filtered : option (list Z)) (hash : Z) : bool :=
  match filtered with Some hashes => bool_decide (hash ∉ hashes) | None => false end.

(** The outputs of a transaction by which the tree grows: those before it is left out. *)
Definition consumed (filtered : option (list Z)) (tx : LocalizedTransaction) : nat :=
  let n := length (v_shielded_output (lt_unsigned tx)) in if left_out filtered (lt_hash tx) then Nat.min 1 n else n.

Section Filtered.
Context (keys : Keys) (height : Z) (filtered : option (list Z)) (ncl : list Z).

Lemma append_next node idx n : ncl !! idx = Some node -> take (S n) (drop idx ncl) = node :: take n (drop (S idx) ncl).
Proof. intros Hn. by rewrite (drop_S _ _ _ Hn). Qed.

Lemma outputs_consumed hash i outputs w tree before idx r ret : left_out filtered hash = false ->
  receive_outputs height hash i keys filtered ncl outputs (mkReceiver w tree idx) = Some (r, ret) ->
  tree_rep tree before -> zlen before + Z.of_nat (length outputs) <= 2 ^ 32 ->
  ret = false /\ r_index r = (idx + length outputs)%nat /\
  tree_rep (r_tree r) (before ++ take (length outputs) (drop idx ncl)) /\ kept w (r_wallet r).
Proof.
  intros Hlo. revert i w tree before idx. induction outputs as [|o outputs IH]; intros i w tree before idx Hr Ht Hle.
  { cbn in Hr. injection Hr as <- <-. cbn. rewrite Nat.add_0_r, app_nil_r. split_and!; [done|done|done|apply kept_refl]. }
  cbn [receive_outputs r_index r_tree r_wallet] in Hr. apply bind_Some in Hr as (node & Hnode & Hr).
  destruct (tree_append_ignored tree before node Ht) as (t1 & Ha & Ht1); [rewrite zlen_app; change (zlen [node]) with 1; cbn in Hle; lia|].
  rewrite Ha in Hr. cbn [mbind option_bind r_index r_tree r_wallet] in Hr. unfold left_out in Hlo. rewrite Hlo in Hr.
  apply bind_Some in Hr as (w1 & Hw1 & Hr).
  assert (kept w w1) as Hk.
  { destruct (decrypt_output keys o) as [[[k fvk] plain]|]; [by eapply receive_note_kept|injection Hw1 as <-; apply kept_refl]. }
  apply (IH _ _ _ (before ++ [node])) in Hr as (-> & Hi & Hrep & Hk'); [|done|rewrite zlen_app; change (zlen [node]) with 1; cbn in Hle; lia].
  cbn [length]. rewrite (append_next _ _ _ Hnode). split_and!; [done|lia|by rewrite <- app_assoc in Hrep|by eapply kept_trans].
Qed.

Lemma tx_consumed tx w tree before idx r : receive_spling_notes_into_wallet height tx keys filtered ncl (mkReceiver w tree idx) = Some r ->
  tree_rep tree before -> zlen before + Z.of_nat (length (v_shielded_output (lt_unsigned tx))) <= 2 ^ 32 ->
  r_index r = (idx + consumed filtered tx)%nat /\
  tree_rep (r_tree r) (before ++ take (consumed filtered tx) (drop idx ncl)) /\ kept w (r_wallet r).
Proof.
  unfold receive_spling_notes_into_wallet, consumed. intros ([r1 ret] & Hr1 & Hr)%bind_Some Ht Hle.
  destruct (left_out filtered (lt_hash tx)) eqn:Hlo.
  - destruct (v_shielded_output (lt_unsigned tx)) as [|o outputs].
    + cbn in Hr1. injection Hr1 as <- <-. injection Hr as <-. cbn. rewrite Nat.add_0_r, app_nil_r.
      split_and!; [done|done|apply mark_spends_kept].
    + cbn [receive_outputs r_index r_tree r_wallet] in Hr1. apply bind_Some in Hr1 as (node & Hnode & Hr1).
      destruct (tree_append_ignored tree before node Ht) as (t1 & Ha & Ht1); [rewrite zlen_app; change (zlen [node]) with 1; cbn in Hle; lia|].
      rewrite Ha in Hr1. cbn [mbind option_bind r_index r_tree r_wallet] in Hr1. unfold left_out in Hlo. rewrite Hlo in Hr1.
      injection Hr1 as <- <-. injection Hr as <-. cbn [Nat.min length r_index r_tree r_wallet]. rewrite (append_next _ _ 0 Hnode), take_0.
      split_and!; [lia|done|apply kept_refl].
  - apply (outputs_consumed _ _ _ _ _ before) in Hr1 as (-> & Hi & Hrep & Hk); [|done|done|done].
    injection Hr as <-. cbn [r_index r_tree r_wallet]. split_and!; [done|done|]. eapply kept_trans; [done|apply mark_spends_kept].
Qed.

Fixpoint consumed_all (txs : list LocalizedTransaction) : nat :=
  match txs with [] => 0 | tx :: txs => consumed filtered tx + consumed_all txs end.

Lemma consumed_le tx : (consumed filtered tx <= length (tx_notes tx))%nat.
Proof. unfold consumed, tx_notes. rewrite length_fmap. case_match; lia. Qed.

Lemma consumed_all_le txs : (consumed_all txs <= length (mjoin (tx_notes <$> txs)))%nat.
Proof.
  induction txs as [|tx txs IH]; [done|]. cbn [consumed_all fmap list_fmap].
  change (mjoin (tx_notes tx :: (tx_notes <$> txs))) with (tx_notes tx ++ mjoin (tx_notes <$> txs)). rewrite length_app.
  pose proof (consumed_le tx). lia.
Qed.

Lemma txs_consumed txs w tree before idx r : receive_txs height txs keys filtered ncl (mkReceiver w tree idx) = Some r ->
  tree_rep tree before -> zlen before + Z.of_nat (length (mjoin (tx_notes <$> txs))) <= 2 ^ 32 ->
  r_index r = (idx + consumed_all txs)%nat /\
  tree_rep (r_tree r) (before ++ take (consumed_all txs) (drop idx ncl)) /\ kept w (r_wallet r).
Proof.
  revert w tree before idx. induction txs as [|tx txs IH]; intros w tree before idx Hr Ht Hle.
  { injection Hr as <-. cbn. rewrite Nat.add_0_r, app_nil_r. split_and!; [done|done|apply kept_refl]. }
  cbn [receive_txs] in Hr. apply bind_Some in Hr as ([w1 t1 i1] & Hr1 & Hr). cbn [fmap list_fmap] in Hle.
  change (mjoin (tx_notes tx :: (tx_notes <$> txs))) with (tx_notes tx ++ mjoin (tx_notes <$> txs)) in Hle. rewrite length_app in Hle.
  pose proof (consumed_le tx) as Hc. unfold tx_notes at 1 in Hle. rewrite length_fmap in Hle.
  apply (tx_consumed _ _ _ before) in Hr1 as (Hi & Hrep & Hk); [|done|lia]. cbn [r_index r_tree r_wallet] in *. subst i1.
  assert (zlen (take (consumed filtered tx) (drop idx ncl)) <= Z.of_nat (consumed filtered tx)) as Hlen.
  { unfold zlen. rewrite length_take. lia. }
  apply (IH _ _ (before ++ take (consumed filtered tx) (drop idx ncl))) in Hr as (Hi' & Hrep' & Hk'); [|done|].
  - cbn [consumed_all]. split_and!; [lia| |by eapply kept_trans].
    rewrite <- app_assoc, <- drop_drop in Hrep'. by rewrite <- take_take_drop.
  - unfold tx_notes in Hc. rewrite length_fmap in Hc. rewrite zlen_app. lia.
Qed.

Lemma receive_txs_app l k r : receive_txs height (l ++ k) keys filtered ncl r =
  r ← receive_txs height l keys filtered ncl r; receive_txs height k keys filtered ncl r.
Proof.
  revert r. induction l as [|tx l IH]; intros r; [done|]. cbn [app receive_txs].
  destruct (receive_spling_notes_into_wallet _ _ _ _ _ _) as [r1|]; [apply IH|done].
Qed.

(** The first output of a transaction is received where the tree has got to. *)
Lemma first_output tx output outs k fvk note address memo w tree before idx r : left_out filtered (lt_hash tx) = false ->
  v_shielded_output (lt_unsigned tx) = output :: outs -> decrypt_output keys output = Some (k, fvk, (note, address, memo)) ->
  receive_spling_notes_into_wallet height tx keys filtered ncl (mkReceiver w tree idx) = Some r ->
  tree_rep tree before -> zlen before + Z.of_nat (length ncl - idx) <= 2 ^ 32 -> (idx + S (length outs) <= length ncl)%nat ->
  exists n, w_nullifier_notes (r_wallet r) !! nf note fvk (zlen before) = Some n /\ nd_note n = note /\ nd_hash n = lt_hash tx /\
    nd_nullifier n = Some (nf note fvk (zlen before)).
Proof.
  intros Hlo Hout Hdec Hr Ht Hle Hlen. unfold receive_spling_notes_into_wallet in Hr. rewrite Hout in Hr.
  apply bind_Some in Hr as ([r1 ret] & Hr1 & Hr). cbn [receive_outputs r_index r_tree r_wallet] in Hr1.
  apply bind_Some in Hr1 as (node & Hnode & Hr1).
  destruct (tree_append_ignored tree before node Ht) as (t1 & Ha & Ht1); [rewrite zlen_app; change (zlen [node]) with 1; lia|].
  rewrite Ha in Hr1. cbn [mbind option_bind r_index r_tree r_wallet] in Hr1. unfold left_out in Hlo. rewrite Hlo, Hdec in Hr1.
  apply bind_Some in Hr1 as (w1 & Hw1 & Hr1). pose proof Hw1 as Hn. apply (receive_note_position _ _ _ _ before node) in Hn as (n & Hn & E1 & E2 & E3);
    [|done|rewrite !zlen_app; change (zlen [node]) with 1; unfold zlen; rewrite length_drop; unfold zlen in Hle; lia].
  apply (outputs_consumed _ _ _ _ _ (before ++ [node])) in Hr1 as (-> & _ & _ & Hk);
    [|done|done|rewrite zlen_app; change (zlen [node]) with 1; lia].
  injection Hr as <-. cbn [r_wallet]. destruct (kept_trans _ _ _ Hk (mark_spends_kept height (v_shielded_spend (lt_unsigned tx)) _)) as [_ Hk'].
  destruct (Hk' _ _ Hn) as (n' & Hn' & F1 & F2 & F3). exists n'. split; [exact Hn'|]. by rewrite F1, F2, F3.
Qed.
End Filtered.

Lemma consumed_unfiltered txs : consumed_all None txs = length (mjoin (tx_notes <$> txs)).
Proof.
  induction txs as [|tx txs IH]; [done|]. cbn [consumed_all]. rewrite fmap_cons.
  change (mjoin (tx_notes tx :: (tx_notes <$> txs))) with (tx_notes tx ++ mjoin (tx_notes <$> txs)).
  rewrite length_app, <- IH. unfold consumed, tx_notes. by rewrite length_fmap.
Qed.

(** The transactions that have outputs. *)
Definition with_outputs (txs : list LocalizedTransaction) : list LocalizedTransaction := filter (fun t => tx_notes t <> []) txs.

(** Of a transaction that is left out one output is consumed, if it has any. *)
Lemma consumed_left_out hs txs : Forall (fun t => lt_hash t ∉ hs) txs ->
  consumed_all (Some hs) txs = length (with_outputs txs).
Proof.
  induction 1 as [|tx txs Htx _ IH]; [done|]. cbn [consumed_all]. rewrite IH. unfold with_outputs. rewrite filter_cons. unfold consumed, left_out, tx_notes.
  rewrite bool_decide_true by done. destruct (v_shielded_output (lt_unsigned tx)) as [|o outs].
  - by rewrite decide_False by (intros Hn; by apply Hn).
  - rewrite decide_True by done. done.
Qed.

(** Where the first note of a transaction of a block ends up, if transactions of the block
    are left out: at the number of notes in the parent's tree and of outputs consumed. *)
Lemma first_note_position filtered tree notes b pre tx post output outs k fvk note address memo w w' :
  tree_rep tree notes -> zlen (notes ++ block_notes b) <= 2 ^ 32 -> localized_private_txs b = pre ++ tx :: post ->
  left_out filtered (lt_hash tx) = false -> v_shielded_output (lt_unsigned tx) = output :: outs ->
  decrypt_output (map_to_list (ks_full (w_key_store w))) output = Some (k, fvk, (note, address, memo)) ->
  process_new_block tree b None filtered w = Some w' ->
  let nullifier := nf note fvk (zlen notes + Z.of_nat (consumed_all filtered pre)) in
  exists n, w_nullifier_notes w' !! nullifier = Some n /\ nd_note n = note /\ nd_hash n = lt_hash tx /\ nd_nullifier n = Some nullifier.
Proof.
  intros Ht Hle Htxs Hlo Hout Hdec Hp nullifier. unfold process_new_block in Hp. rewrite unhandled_all, Htxs in Hp.
  apply bind_Some in Hp as (r & Hr & [= <-]).
  assert (Hjoin : mjoin (tx_notes <$> pre ++ tx :: post) = mjoin (tx_notes <$> pre) ++ tx_notes tx ++ mjoin (tx_notes <$> post))
    by (by rewrite fmap_app, join_app).
  rewrite block_notes_txs, Htxs, Hjoin in Hle. change (fun tx => od_cmu <$> v_shielded_output (lt_unsigned tx)) with tx_notes in Hr.
  rewrite Hjoin in Hr. set (ncl := mjoin (tx_notes <$> pre) ++ tx_notes tx ++ mjoin (tx_notes <$> post)) in *.
  assert (Hncl : length ncl = (length (mjoin (tx_notes <$> pre)) + (S (length outs) + length (mjoin (tx_notes <$> post))))%nat)
    by (unfold ncl; rewrite !length_app; unfold tx_notes at 2; by rewrite Hout, length_fmap).
  rewrite zlen_app in Hle. unfold zlen at 2 in Hle. rewrite Hncl in Hle. clearbody ncl.
  rewrite receive_txs_app in Hr. apply bind_Some in Hr as ([w1 t1 i1] & Hr1 & Hr).
  apply (txs_consumed _ _ _ _ _ _ _ notes) in Hr1 as (Hi & Hrep & _); [|done|lia].
  cbn [r_index r_tree r_wallet Nat.add] in Hi, Hrep. rewrite drop_0 in Hrep. subst i1.
  pose proof (consumed_all_le filtered pre) as Hc. set (before := notes ++ take (consumed_all filtered pre) ncl) in *.
  assert (Hz : zlen before = zlen notes + Z.of_nat (consumed_all filtered pre))
    by (unfold before, zlen; rewrite length_app, length_take; lia).
  cbn [receive_txs] in Hr. apply bind_Some in Hr as ([w2 t2 i2] & Hr2 & Hr).
  destruct (first_output _ _ _ _ _ output outs k fvk note address memo _ _ before _ _ Hlo Hout Hdec Hr2 Hrep) as (n & Hn & E1 & E2 & E3);
    [lia|lia|].
  apply (tx_consumed _ _ _ _ _ _ _ before) in Hr2 as (_ & Hrep2 & _); [|done|rewrite Hout; cbn [length]; lia].
  destruct (txs_consumed _ _ _ _ _ _ _ _ _ _ Hr Hrep2) as (_ & _ & [_ Hk]); cycle 1.
  - cbn [r_wallet] in Hn. destruct (Hk _ _ Hn) as (n' & Hn' & F1 & F2 & F3). exists n'. unfold nullifier. rewrite <- Hz, F1, F2, F3. done.
  - pose proof (consumed_le filtered tx) as Hct. unfold tx_notes in Hct. rewrite Hout, length_fmap in Hct. cbn [length] in Hct.
    rewrite zlen_app. unfold zlen at 2. rewrite length_take. lia.
Qed.

(** *** Retractions *)

Lemma foldl_delete_lookup {A} (xs : list Z) (m : gmap Z A) x :
  foldl (fun m x => delete x m) m xs !! x = if decide (x ∈ xs) then None else m !! x.
Proof.
  revert m. induction xs as [|y xs IH]; intros m; cbn; [by rewrite decide_False by set_solver|].
  rewrite IH. destruct (decide (x = y)) as [->|Hne].
  - rewrite lookup_delete_eq. repeat case_decide; try done; exfalso; set_solver.
  - rewrite lookup_delete_ne by done. repeat case_decide; try done; exfalso; set_solver.
Qed.

Lemma remove_notes_lookup w hs m x :
  foldl (remove_tx_notes w) m hs !! x =
  if decide (Exists (fun h => x ∈ default [] (w_tx_nullifiers w !! h)) hs) then None else m !! x.
Proof.
  revert m. induction hs as [|h hs IH]; intros m; cbn [foldl]; [case_decide as He; [by apply Exists_nil in He|done]|].
  rewrite IH. assert (Hl : remove_tx_notes w m h !! x = if decide (x ∈ default [] (w_tx_nullifiers w !! h)) then None else m !! x).
  { unfold remove_tx_notes. destruct (w_tx_nullifiers w !! h); cbn; [apply foldl_delete_lookup|by rewrite decide_False by set_solver]. }
  rewrite Hl. repeat case_decide; try done; rewrite Exists_cons in *; tauto.
Qed.

Lemma reconstruct_elem notes by_address by_tx : reconstruct notes = (by_address, by_tx) ->
  (forall a x, x ∈ default [] (by_address !! a) <-> exists n, (x, n) ∈ notes /\ nd_address n = a) /\
  (forall h x, x ∈ default [] (by_tx !! h) <-> exists n, (x, n) ∈ notes /\ nd_hash n = h).
Proof.
  unfold reconstruct. revert by_address by_tx. induction notes as [|[y n] notes IH] using rev_ind; intros ba bt Hr.
  { cbn in Hr. injection Hr as <- <-. split; intros; rewrite lookup_empty; cbn; set_solver. }
  rewrite foldl_app in Hr. destruct (foldl _ _ notes) as [ba' bt']. cbn in Hr. injection Hr as <- <-.
  destruct (IH ba' bt' eq_refl) as [Ha Ht]. split; intros; rewrite push_nullifier_elem, ?Ha, ?Ht; set_solver.
Qed.

Lemma NoDup_fmap_eq {A B} (f : A -> B) l x y : NoDup (f <$> l) -> x ∈ l -> y ∈ l -> f x = f y -> x = y.
Proof.
  intros Hnd [i Hi]%list_elem_of_lookup [j Hj]%list_elem_of_lookup Hf.
  assert (i = j) as <-; [|by simplify_eq].
  apply (NoDup_lookup (f <$> l) i j (f x) Hnd); rewrite list_lookup_fmap, ?Hi, ?Hj; cbn; congruence.
Qed.

Section Retract.
Context (hs : list Z) (w : Wallet) (rs ks : list Received) (Hw : holds w (rs ++ ks)).
Context (Hks : forall r, r ∈ ks -> rc_tx r ∈ hs) (Hrs : forall r, r ∈ rs -> rc_tx r ∉ hs).

Lemma kept_notes x n : foldl (remove_tx_notes w) (w_nullifier_notes w) hs !! x = Some n <->
  exists r, r ∈ rs /\ rc_nullifier r = x /\ w_nullifier_notes w !! x = Some n.
Proof.
  destruct Hw as [Hu Hn Ho Ht Ha]. rewrite remove_notes_lookup. case_decide as He; split; try done.
  - intros (r & Hr & Hx & Hl). apply Exists_exists in He as (h & Hh & (r' & Hr' & <- & Hx')%Ht).
    rewrite (NoDup_fmap_eq rc_nullifier (rs ++ ks) r' r) in Hh; [by apply Hrs in Hh|done|done|set_solver|congruence].
  - intros Hl. pose proof (Ho x ltac:(eauto)) as (r & -> & [Hr|Hr]%elem_of_app)%list_elem_of_fmap_1; [eauto|].
    destruct He. apply Exists_exists. exists (rc_tx r). split; [auto|]. apply Ht. exists r. set_solver.
  - by intros (r & _ & _ & Hl).
Qed.

Lemma remove_retracted_holds : holds (remove_retracted_txs hs w) rs.
Proof.
  pose proof kept_notes as Hkept. unfold remove_retracted_txs.
  set (notes := foldl (remove_tx_notes w) (w_nullifier_notes w) hs) in *.
  destruct (reconstruct (map_to_list notes)) as [ba bt] eqn:Hrec. destruct Hw as [Hu Hn Ho Ht Ha].
  assert (Hrs' : forall r, r ∈ rs -> exists n, notes !! rc_nullifier r = Some n /\ note_for r n).
  { intros r Hr. destruct (Hn r) as (n & Hl & Hfor); [set_solver|]. exists n. rewrite Hkept. eauto 6. }
  assert (Hof : forall x n, notes !! x = Some n -> exists r, r ∈ rs /\ rc_nullifier r = x /\ note_for r n).
  { intros x n Hl. pose proof Hl as (r & Hr & <- & _)%Hkept. destruct (Hrs' r Hr) as (n' & Hl' & Hfor).
    rewrite Hl in Hl'. simplify_eq. eauto. }
  split; cbn.
  - rewrite fmap_app, NoDup_app in Hu. tauto.
  - done.
  - intros x [n (r & Hr & <- & _)%Hof]. set_solver.
  - intros h x. rewrite (proj2 (reconstruct_elem _ _ _ Hrec)). setoid_rewrite elem_of_map_to_list. split.
    + intros (n & (r & Hr & <- & Hf)%Hof & <-). exists r. destruct Hf as (_ & _ & _ & _ & _ & _ & _ & Hh & _). by rewrite Hh.
    + intros (r & Hr & <- & <-). destruct (Hrs' r Hr) as (n & Hl & Hf). exists n. split; [done|]. apply Hf.
  - intros a x. rewrite (proj1 (reconstruct_elem _ _ _ Hrec)). setoid_rewrite elem_of_map_to_list. split.
    + intros (n & (r & Hr & <- & Hf)%Hof & <-). exists r. destruct Hf as (Haddr & _). by rewrite Haddr.
    + intros (r & Hr & <- & <-). destruct (Hrs' r Hr) as (n & Hl & Hf). exists n. split; [done|]. apply Hf.
Qed.
End Retract.

(** The transactions of received notes are private transactions of the chain. *)
Definition private_hashes (l : list Block) : list Z := mjoin ((fun b => lt_hash <$> localized_private_txs b) <$> l).

Lemma received_outputs_tx keys height hash i before outputs after r :
  r ∈ received_outputs keys height hash i before outputs after -> rc_tx r = hash.
Proof.
  revert i before. induction outputs as [|o outputs IH]; intros i before; cbn; [by intros ?%not_elem_of_nil|].
  destruct (decrypt_output keys o) as [[[k fvk] [[note address] memo]]|]; [|apply IH].
  intros [->|Hr]%elem_of_cons; [done|by eapply IH].
Qed.

Lemma received_txs_tx keys height before txs r : r ∈ received_txs keys height before txs -> rc_tx r ∈ lt_hash <$> txs.
Proof.
  revert before. induction txs as [|tx txs IH]; intros before; cbn; [by intros ?%not_elem_of_nil|].
  intros [Hr|Hr]%elem_of_app; [apply received_outputs_tx in Hr; set_solver|apply IH in Hr; set_solver].
Qed.

Lemma received_from_tx keys before l r : r ∈ received_from keys before l -> rc_tx r ∈ private_hashes l.
Proof.
  unfold private_hashes. revert before. induction l as [|b l IH]; intros before; cbn; [by intros ?%not_elem_of_nil|].
  change (mjoin (?x :: ?y)) with (x ++ mjoin y).
  intros [Hr|Hr]%elem_of_app; apply elem_of_app; [left; by eapply received_txs_tx|right; by eapply IH].
Qed.

Lemma follows_retract w l k hs : follows w (l ++ k) -> (forall h, h ∈ hs <-> h ∈ private_hashes k) ->
  (forall h, h ∈ private_hashes l -> h ∉ private_hashes k) -> follows (remove_retracted_txs hs w) l.
Proof.
  unfold follows. intros Hw Hhs Hdisj.
  assert (Hk : wallet_keys (remove_retracted_txs hs w) = wallet_keys w).
  { unfold wallet_keys, remove_retracted_txs. by case_match. }
  rewrite received_chain_app in Hw. rewrite Hk. apply (remove_retracted_holds hs w _ _ Hw); intros r Hr.
  - apply Hhs. by eapply received_from_tx.
  - rewrite Hhs. apply Hdisj. by eapply received_from_tx.
Qed.
End Proofs.
