(* ===== verification/ChainStore.v ===== *)
(** * The database of the block chain

    [db/src/keys.rs] and [db/src/db.rs]: the values that are stored, their keys, and the
    look-up and extension of a table behind a cache. The column of extra data holds several
    tables, told apart by the first byte of the key, so each is a map of its own; a batch of
    writes ([DBTransaction]) is what it writes last to each key. *)

From S2P Require Import Prelude Substate Blocks Rewards.
From stdpp Require Import base numbers option strings gmap list.

Open Scope Z_scope.

(** ** Stored values *)

Record BlockDetails : Type := mkDetails {
  bd_number : Z;
  bd_total_difficulty : Z;
  bd_parent : Z;
  bd_children : list Z;
  bd_is_finalized : bool;
}.

Record TransactionAddress : Type := mkAddress { ta_block_hash : Z; ta_index : Z }.

(** [types/src/receipt.rs] *)
Inductive TransactionOutcome : Type := Unknown | StateRoot (root : Z) | StatusCode (code : Z).

Record Receipt : Type := mkReceipt {
  re_gas_used : Z;
  re_log_bloom : Z;
  re_logs : list LogEntry;
  re_outcome : TransactionOutcome;
}.

(** ** Keys *)

Inductive ExtrasIndex : Type :=
| IdxBlockDetails | IdxBlockHash | IdxTransactionAddress | IdxBlockReceipts | IdxEpochTransitions
| IdxPendingEpochTransition | IdxTransactionNullifier | IdxCommitmentRootBlock | IdxBlockCommitmentSer.

Definition extras_index (i : ExtrasIndex) : Z :=
  match i with
  | IdxBlockDetails => 0
  | IdxBlockHash => 1
  | IdxTransactionAddress => 2
  | IdxBlockReceipts => 4
  | IdxEpochTransitions => 5
  | IdxPendingEpochTransition => 6
  | IdxTransactionNullifier => 7
  | IdxCommitmentRootBlock => 8
  | IdxBlockCommitmentSer => 9
  end.

Definition with_index (hash : Z) (i : ExtrasIndex) : bytes := extras_index i :: be_bytes 32 hash.

(** [impl Key<H256> for BlockNumber]: the low 32 bits of the number. *)
Definition block_number_key (n : Z) : bytes :=
  [extras_index IdxBlockHash; Z.shiftr n 24 mod 256; Z.shiftr n 16 mod 256; Z.shiftr n 8 mod 256; n mod 256].

(** What the key keeps of the number. *)
Definition number_key (n : Z) : Z := n mod 2 ^ 32.

(** ** Tables *)

Record Tables (A N R : Type) : Type := mkTables {
  t_headers : gmap Z Header;
  t_bodies : gmap Z Body;
  t_details : gmap Z BlockDetails;
  t_hashes : gmap Z Z;
  t_sers : gmap Z bytes;
  t_receipts : gmap Z (list Receipt);
  t_txs : gmap Z A;
  t_nullifiers : gmap Z N;
  t_roots : gmap Z R;
}.
Arguments mkTables {A N R}.
Arguments t_headers {A N R}.
Arguments t_bodies {A N R}.
Arguments t_details {A N R}.
Arguments t_hashes {A N R}.
Arguments t_sers {A N R}.
Arguments t_receipts {A N R}.
Arguments t_txs {A N R}.
Arguments t_nullifiers {A N R}.
Arguments t_roots {A N R}.

(** Tables as they are stored and cached, and updates of them, in which [None] deletes. *)
Abbreviation Store := (Tables TransactionAddress Z Z).
Abbreviation Update := (Tables (option TransactionAddress) (option Z) (option Z)).

Definition no_tables {A N R} : Tables A N R := mkTables ∅ ∅ ∅ ∅ ∅ ∅ ∅ ∅ ∅.

Definition overlay `{Countable K} {V} (u : gmap K (option V)) (m : gmap K V) : gmap K V :=
  merge (fun a b => match a with Some o => o | None => b end) u m.

Definition write_tables (u : Update) (s : Store) : Store :=
  mkTables (t_headers u ∪ t_headers s) (t_bodies u ∪ t_bodies s) (t_details u ∪ t_details s) (t_hashes u ∪ t_hashes s)
    (t_sers u ∪ t_sers s) (t_receipts u ∪ t_receipts s) (overlay (t_txs u) (t_txs s))
    (overlay (t_nullifiers u) (t_nullifiers s)) (overlay (t_roots u) (t_roots s)).

(** Everything that is stored; [b"best"], [b"first"] and the like are keys of their own. *)
Record Disk : Type := mkDisk {
  dk_tables : Store;
  dk_best : option Z;
  dk_first : option Z;
  dk_ancient : option Z;
  dk_rewards : option Rewards;
  dk_wallet_txs : option (list Z);
  dk_wallet_addresses : option (list string);
  dk_blooms : gmap Z Z;
}.

Definition empty_disk : Disk := mkDisk no_tables None None None None None None ∅.

Record Batch : Type := mkBatch {
  ba_tables : Update;
  ba_best : option Z;
  ba_ancient : option (option Z);
  ba_rewards : option Rewards;
  ba_wallet_txs : option (list Z);
  ba_wallet_addresses : option (list string);
}.

Definition empty_batch : Batch := mkBatch no_tables None None None None None.

Definition or_keep {A} (u m : option A) : option A := match u with Some a => Some a | None => m end.

(** [KeyValueDB::write] *)
Definition write_batch (b : Batch) (d : Disk) : Disk :=
  mkDisk (write_tables (ba_tables b) (dk_tables d)) (or_keep (ba_best b) (dk_best d)) (dk_first d)
    (match ba_ancient b with Some a => a | None => dk_ancient d end) (or_keep (ba_rewards b) (dk_rewards d))
    (or_keep (ba_wallet_txs b) (dk_wallet_txs d)) (or_keep (ba_wallet_addresses b) (dk_wallet_addresses d)) (dk_blooms d).

(** ** Reading and extending behind a cache *)

Section Cached.
Context `{Countable K} {V : Type}.

(** [read_with_cache] fills the cache; [cached] is what it returns. *)
Definition read_with_cache (db cache : gmap K V) (dbkey key : K) : option V * gmap K V :=
  match cache !! key with
  | Some v => (Some v, cache)
  | None =>
      match db !! dbkey with
      | Some v => (Some v, <[key := v]> cache)
      | None => (None, cache)
      end
  end.

Definition cached (db cache : gmap K V) (dbkey key : K) : option V :=
  match cache !! key with Some v => Some v | None => db !! dbkey end.

Definition exists_with_cache (db cache : gmap K V) (dbkey key : K) : bool :=
  match cache !! key with Some _ => true | None => match db !! dbkey with Some _ => true | None => false end end.

(** The cache has nothing that the database does not have. *)
Definition coherent (dbkey : K -> K) (db cache : gmap K V) : Prop :=
  forall k v, cache !! k = Some v -> db !! dbkey k = Some v.

Lemma read_with_cache_value db cache dbkey key : (read_with_cache db cache dbkey key).1 = cached db cache dbkey key.
Proof. unfold read_with_cache, cached. by repeat case_match. Qed.

(** Reading leaves the cache coherent and is invisible to other reads. *)
Lemma read_with_cache_transparent dbkey db cache key k : coherent dbkey db cache ->
  coherent dbkey db (read_with_cache db cache (dbkey key) key).2 /\
  cached db (read_with_cache db cache (dbkey key) key).2 (dbkey k) k = cached db cache (dbkey k) k.
Proof.
  intros Hc. unfold read_with_cache. destruct (cache !! key) as [v|] eqn:Hk; [done|].
  destruct (db !! dbkey key) as [v|] eqn:Hd; [|done]. cbn. split.
  - intros k' v'. destruct (decide (key = k')) as [<-|]; [rewrite lookup_insert_eq|rewrite lookup_insert_ne by done; auto].
    congruence.
  - unfold cached. destruct (decide (key = k)) as [<-|]; [by rewrite lookup_insert_eq, Hk|by rewrite lookup_insert_ne].
Qed.

Lemma coherent_cached dbkey db cache k : coherent dbkey db cache -> cached db cache (dbkey k) k = db !! dbkey k.
Proof. intros Hc. unfold cached. case_match; [|done]. by rewrite (Hc k _ ltac:(eassumption)). Qed.

Lemma exists_with_cache_spec db cache dbkey k :
  exists_with_cache db cache dbkey k = true <-> is_Some (cached db cache dbkey k).
Proof. unfold exists_with_cache, cached. repeat case_match; split; try done; eauto; by intros [? ?]. Qed.

(** Removing entries from the cache, [collect_garbage]. *)
Lemma coherent_delete dbkey db cache k : coherent dbkey db cache -> coherent dbkey db (delete k cache).
Proof. intros Hc k' v [_ Hv]%lookup_delete_Some. auto. Qed.

End Cached.
