(* ===== verification/BlockChain.v ===== *)
(** * The block chain

    [blockchain/src/blockchain.rs], with [block_info.rs], [import_route.rs], [best_block.rs],
    [update.rs] and [types/src/tree_route.rs]: the tree of known blocks, the canonical chain
    and its indices, and the insertion of blocks with reorganisations.

    The chain has a disk, caches over its tables, and pending updates that become visible
    with [commit] once the batch of an insertion was written. Reads are functions of the disk
    and the caches; that they also fill the caches is invisible by
    [read_with_cache_transparent]. Locks and the cache manager are not modelled. A panic is
    [None]. *)

From stdpp Require Import base numbers option strings gmap list.
From S2P Require Import Prelude MerkleTree Transaction Substate Blocks Rewards Sapling ChainStore.

Open Scope Z_scope.

(** ** Data *)

Record TreeRoute : Type := mkRoute {
  tr_blocks : list Z;
  tr_ancestor : Z;
  tr_index : nat;
  tr_is_from_route_finalized : bool;
}.

Record BranchBecomingCanonChainData : Type := mkBranchData {
  br_ancestor : Z;
  br_enacted : list Z;
  br_retracted : list Z;
}.

Inductive BlockLocation : Type :=
| CanonChain
| Branch
| BranchBecomingCanonChain (data : BranchBecomingCanonChainData).

Record BlockInfo : Type := mkInfo {
  bi_hash : Z;
  bi_number : Z;
  bi_total_difficulty : Z;
  bi_location : BlockLocation;
}.

Record ImportRoute : Type := mkImportRoute {
  ir_retracted : list Z;
  ir_enacted : list Z;
  ir_omitted : list Z;
}.

Definition import_route_none : ImportRoute := mkImportRoute [] [] [].

Definition import_route_from (info : BlockInfo) : ImportRoute :=
  match bi_location info with
  | CanonChain => mkImportRoute [] [bi_hash info] []
  | Branch => mkImportRoute [] [] [bi_hash info]
  | BranchBecomingCanonChain data => mkImportRoute (br_retracted data) (br_enacted data ++ [bi_hash info]) []
  end.

Record BestBlock : Type := mkBest { be_block : Block; be_total_difficulty : Z }.

Record BestAncientBlock : Type := mkAncient { an_hash : Z; an_number : Z }.

Inductive ForkChoice : Type := ForkNew | ForkOld.

Record ExtrasInsert : Type := mkExtras { ei_fork_choice : ForkChoice; ei_is_finalized : bool }.

Record ExtrasUpdate : Type := mkExtrasUpdate {
  eu_info : BlockInfo;
  eu_block : Block;
  eu_block_hashes : gmap Z Z;
  eu_block_details : gmap Z BlockDetails;
  eu_block_receipts : gmap Z (list Receipt);
  eu_blocks_blooms : option (Z * list Z);
  eu_transactions_addresses : gmap Z (option TransactionAddress);
  eu_transactions_nullifiers : gmap Z (option Z);
  eu_commitment_root_blocks : gmap Z (option Z);
  eu_blocks_commitment_sers : gmap Z bytes;
  eu_rewards : option Rewards;
}.

(** What the chain asks of the wallet ([wallet.rs]). *)
Class WalletOps {MH : MerkleHash} (W : Type) : Type := {
  wo_sync_new_block : CommitmentTree Node -> Block -> W -> option W;
  wo_reload_new_block : CommitmentTree Node -> Block -> option (list Z) -> W -> option W;
  wo_scan_new_block : CommitmentTree Node -> Block -> option (list string) -> W -> option W;
  wo_remove_retracted_txs : list Z -> W -> W;
  wo_list_addresses : W -> list string;
  wo_wallet_hashes : W -> list Z;
}.

(** [.collect()] into a hash map: the last value of a key stays. *)
Definition collect `{Countable K} {V} (l : list (K * V)) : gmap K V := foldl (fun m '(k, v) => <[k := v]> m) ∅ l.

Section BlockChain.
Context {MH : MerkleHash} {W : Type} {WO : WalletOps W}.

Record BlockChain : Type := mkChain {
  bc_reward_config : RewardConfig;
  bc_best_block : BestBlock;
  bc_best_ancient_block : option BestAncientBlock;
  bc_first_block : option Z;
  bc_wallet_addresses : list string;
  bc_wallet : W;
  bc_rewards : Rewards;
  bc_disk : Disk;
  bc_caches : Store;
  bc_pending : Update;
  bc_pending_best_ancient_block : option (option BestAncientBlock);
  bc_pending_best_block : option BestBlock;
  bc_pending_wallet_addresses : option (list string);
  bc_pending_rewards : option Rewards;
  bc_pending_routes : ImportRoute;
}.

Definition set_wallet (v : W) (c : BlockChain) : BlockChain :=
  mkChain (bc_reward_config c) (bc_best_block c) (bc_best_ancient_block c) (bc_first_block c)
    (bc_wallet_addresses c) v (bc_rewards c) (bc_disk c) (bc_caches c) (bc_pending c)
    (bc_pending_best_ancient_block c) (bc_pending_best_block c) (bc_pending_wallet_addresses c)
    (bc_pending_rewards c) (bc_pending_routes c).
Definition set_disk (v : Disk) (c : BlockChain) : BlockChain :=
  mkChain (bc_reward_config c) (bc_best_block c) (bc_best_ancient_block c) (bc_first_block c)
    (bc_wallet_addresses c) (bc_wallet c) (bc_rewards c) v (bc_caches c) (bc_pending c)
    (bc_pending_best_ancient_block c) (bc_pending_best_block c) (bc_pending_wallet_addresses c)
    (bc_pending_rewards c) (bc_pending_routes c).
Definition set_caches (v : Store) (c : BlockChain) : BlockChain :=
  mkChain (bc_reward_config c) (bc_best_block c) (bc_best_ancient_block c) (bc_first_block c)
    (bc_wallet_addresses c) (bc_wallet c) (bc_rewards c) (bc_disk c) v (bc_pending c)
    (bc_pending_best_ancient_block c) (bc_pending_best_block c) (bc_pending_wallet_addresses c)
    (bc_pending_rewards c) (bc_pending_routes c).
Definition set_pending (v : Update) (c : BlockChain) : BlockChain :=
  mkChain (bc_reward_config c) (bc_best_block c) (bc_best_ancient_block c) (bc_first_block c)
    (bc_wallet_addresses c) (bc_wallet c) (bc_rewards c) (bc_disk c) (bc_caches c) v
    (bc_pending_best_ancient_block c) (bc_pending_best_block c) (bc_pending_wallet_addresses c)
    (bc_pending_rewards c) (bc_pending_routes c).
Definition set_pending_best_ancient_block (v : option (option BestAncientBlock)) (c : BlockChain) : BlockChain :=
  mkChain (bc_reward_config c) (bc_best_block c) (bc_best_ancient_block c) (bc_first_block c)
    (bc_wallet_addresses c) (bc_wallet c) (bc_rewards c) (bc_disk c) (bc_caches c) (bc_pending c) v
    (bc_pending_best_block c) (bc_pending_wallet_addresses c) (bc_pending_rewards c)
    (bc_pending_routes c).
Definition set_pending_best_block (v : option BestBlock) (c : BlockChain) : BlockChain :=
  mkChain (bc_reward_config c) (bc_best_block c) (bc_best_ancient_block c) (bc_first_block c)
    (bc_wallet_addresses c) (bc_wallet c) (bc_rewards c) (bc_disk c) (bc_caches c) (bc_pending c)
    (bc_pending_best_ancient_block c) v (bc_pending_wallet_addresses c) (bc_pending_rewards c)
    (bc_pending_routes c).
Definition set_pending_wallet_addresses (v : option (list string)) (c : BlockChain) : BlockChain :=
  mkChain (bc_reward_config c) (bc_best_block c) (bc_best_ancient_block c) (bc_first_block c)
    (bc_wallet_addresses c) (bc_wallet c) (bc_rewards c) (bc_disk c) (bc_caches c) (bc_pending c)
    (bc_pending_best_ancient_block c) (bc_pending_best_block c) v (bc_pending_rewards c)
    (bc_pending_routes c).
Definition set_pending_rewards (v : option Rewards) (c : BlockChain) : BlockChain :=
  mkChain (bc_reward_config c) (bc_best_block c) (bc_best_ancient_block c) (bc_first_block c)
    (bc_wallet_addresses c) (bc_wallet c) (bc_rewards c) (bc_disk c) (bc_caches c) (bc_pending c)
    (bc_pending_best_ancient_block c) (bc_pending_best_block c) (bc_pending_wallet_addresses c) v
    (bc_pending_routes c).
Definition set_pending_routes (v : ImportRoute) (c : BlockChain) : BlockChain :=
  mkChain (bc_reward_config c) (bc_best_block c) (bc_best_ancient_block c) (bc_first_block c)
    (bc_wallet_addresses c) (bc_wallet c) (bc_rewards c) (bc_disk c) (bc_caches c) (bc_pending c)
    (bc_pending_best_ancient_block c) (bc_pending_best_block c) (bc_pending_wallet_addresses c)
    (bc_pending_rewards c) v.

Abbreviation db c := (dk_tables (bc_disk c)).

(** ** Queries *)

Definition best_block_hash (c : BlockChain) : Z := b_hash (be_block (bc_best_block c)).
Definition best_block_number (c : BlockChain) : Z := b_number (be_block (bc_best_block c)).
Definition best_block_total_difficulty (c : BlockChain) : Z := be_total_difficulty (bc_best_block c).

Definition is_known (c : BlockChain) (hash : Z) : bool := exists_with_cache (t_details (db c)) (t_details (bc_caches c)) hash hash.

Definition block_details (c : BlockChain) (hash : Z) : option BlockDetails :=
  cached (t_details (db c)) (t_details (bc_caches c)) hash hash.

Definition block_hash (c : BlockChain) (index : Z) : option Z :=
  cached (t_hashes (db c)) (t_hashes (bc_caches c)) (number_key index) index.

Definition commitment_root_block (c : BlockChain) (root : Z) : option Z :=
  cached (t_roots (db c)) (t_roots (bc_caches c)) root root.

Definition block_commitment_ser (c : BlockChain) (hash : Z) : option bytes :=
  cached (t_sers (db c)) (t_sers (bc_caches c)) hash hash.

Definition transaction_address (c : BlockChain) (hash : Z) : option TransactionAddress :=
  cached (t_txs (db c)) (t_txs (bc_caches c)) hash hash.

Definition nullifier_transaction (c : BlockChain) (nullifier : Z) : option Z :=
  cached (t_nullifiers (db c)) (t_nullifiers (bc_caches c)) nullifier nullifier.

Definition block_receipts (c : BlockChain) (hash : Z) : option (list Receipt) :=
  cached (t_receipts (db c)) (t_receipts (bc_caches c)) hash hash.

Definition block_header_data (c : BlockChain) (hash : Z) : option Header :=
  match t_headers (bc_caches c) !! hash with
  | Some h => Some h
  | None =>
      if best_block_hash c =? hash then Some (b_header (be_block (bc_best_block c)))
      else t_headers (db c) !! hash
  end.

Definition block_body (c : BlockChain) (hash : Z) : option Body :=
  match t_bodies (bc_caches c) !! hash with
  | Some b => Some b
  | None =>
      if best_block_hash c =? hash then Some (b_body (be_block (bc_best_block c)))
      else t_bodies (db c) !! hash
  end.

Definition block_of (c : BlockChain) (hash : Z) : option Block :=
  header ← block_header_data c hash;
  body ← block_body c hash;
  Some (mkBlock header body).

Definition block_number (c : BlockChain) (hash : Z) : option Z := h_number <$> block_header_data c hash.

Definition is_canon (c : BlockChain) (hash : Z) : bool :=
  match (n ← block_number c hash; block_hash c n) with Some h => hash =? h | None => false end.

Definition genesis_hash (c : BlockChain) : option Z := block_hash c 0.

Definition uncle_hashes (c : BlockChain) (hash : Z) : option (list Z) := body_uncle_hashes <$> block_body c hash.

(** [transaction] of a transaction address. *)
Definition transaction (c : BlockChain) (address : TransactionAddress) : option LocalizedTransaction :=
  body ← block_body c (ta_block_hash address);
  n ← block_number c (ta_block_hash address);
  localized_transaction_at (ta_block_hash address) n (ta_index address) body.

Definition transactions (c : BlockChain) (hash : Z) : option (list LocalizedTransaction) :=
  body ← block_body c hash;
  n ← block_number c hash;
  Some (localized_transactions hash n body).

Definition is_known_child (c : BlockChain) (parent hash : Z) : bool :=
  match block_details c parent with Some d => bool_decide (hash ∈ bd_children d) | None => false end.

(** ** Walking towards the genesis block *)

(** [AncestryIter]: the blocks that the first [n] calls of [next] give. *)
Fixpoint ancestry (n : nat) (c : BlockChain) (current : Z) : list Z :=
  match n with
  | O => []
  | S n =>
      if current =? 0 then []
      else match block_details c current with
           | Some d => current :: ancestry n c (bd_parent d)
           | None => []
           end
  end.

(** The loop of the excluded blocks of [find_uncle_hashes]. *)
Fixpoint excluded_uncles (c : BlockChain) (l : list Z) (excluded : list Z) : list Z :=
  match l with
  | [] => excluded
  | a :: l =>
      match uncle_hashes c a with
      | Some uncles => excluded_uncles c l (excluded ++ uncles ++ [a])
      | None => excluded
      end
  end.

Fixpoint possible_uncles (c : BlockChain) (l : list Z) (excluded : list Z) (ret : list Z) : list Z :=
  match l with
  | [] => ret
  | a :: l =>
      match block_details c a with
      | Some d => possible_uncles c l excluded (ret ++ filter (fun h => h ∉ excluded) (bd_children d))
      | None => ret
      end
  end.

Definition find_uncle_hashes (c : BlockChain) (parent : Z) (uncle_generations : nat) : option (list Z) :=
  if is_known c parent then
    let excluded := excluded_uncles c (ancestry uncle_generations c parent) [] in
    Some (possible_uncles c (drop 1 (ancestry (S uncle_generations) c parent)) excluded [])
  else None.

Definition find_uncle_headers (c : BlockChain) (parent : Z) (uncle_generations : nat) : option (list Header) :=
  hashes ← find_uncle_hashes c parent uncle_generations;
  Some (omap (M := list) (block_header_data c) hashes).

(** [block_headers_from_best_block] *)
Fixpoint headers_from (n : nat) (c : BlockChain) (hash : Z) : option (list Header * Z) :=
  match n with
  | O => Some ([], hash)
  | S n =>
      current ← block_header_data c hash;
      '(blocks, last) ← headers_from n c (h_parent_hash current);
      Some (current :: blocks, last)
  end.

Definition block_headers_from_best_block (c : BlockChain) (n : nat) : option (list Header * Z) :=
  headers_from n c (best_block_hash c).

(** *** [tree_route]

    Where the code returns [None] the result is [Some None]; an outer [None] is a failed
    assertion or a loop that did not end within the fuel. *)

(** The loops that bring one side to the level of the other. *)
Fixpoint climb (fuel : nat) (c : BlockChain) (current : Z) (details : BlockDetails) (level : Z) (branch : list Z)
    (finalized : bool) : option (option (Z * BlockDetails * list Z * bool)) :=
  if level <? bd_number details then
    match fuel with
    | O => None
    | S fuel =>
        match block_details c (bd_parent details) with
        | None => Some None
        | Some d => climb fuel c (bd_parent details) d level (branch ++ [current]) (finalized || bd_is_finalized d)
        end
    end
  else Some (Some (current, details, branch, finalized)).

(** The loop that moves both sides to the shared parent. *)
Fixpoint meet (fuel : nat) (c : BlockChain) (current_from : Z) (from_details : BlockDetails) (from_branch : list Z)
    (finalized : bool) (current_to : Z) (to_details : BlockDetails) (to_branch : list Z)
    : option (option (Z * list Z * bool * list Z)) :=
  if current_from =? current_to then Some (Some (current_from, from_branch, finalized, to_branch))
  else
    match fuel with
    | O => None
    | S fuel =>
        match block_details c (bd_parent from_details) with
        | None => Some None
        | Some df =>
            match block_details c (bd_parent to_details) with
            | None => Some None
            | Some dt =>
                meet fuel c (bd_parent from_details) df (from_branch ++ [current_from])
                  (finalized || bd_is_finalized df) (bd_parent to_details) dt (to_branch ++ [current_to])
            end
        end
    end.

(** No loop runs longer than the number of a block at which it starts. *)
Definition tree_route (c : BlockChain) (from to : Z) : option (option TreeRoute) :=
  match block_details c from, block_details c to with
  | Some from_details, Some to_details =>
      let fuel := Z.to_nat (Z.max (bd_number from_details) (bd_number to_details)) in
      r ← climb fuel c from from_details (bd_number to_details) [] false;
      match r with
      | None => Some None
      | Some (current_from, from_details, from_branch, finalized) =>
          r ← climb fuel c to to_details (bd_number from_details) [] false;
          match r with
          | None => Some None
          | Some (current_to, to_details, to_branch, _) =>
              if bd_number from_details =? bd_number to_details then
                r ← meet fuel c current_from from_details from_branch finalized current_to to_details to_branch;
                match r with
                | None => Some None
                | Some (ancestor, from_branch, finalized, to_branch) =>
                    Some (Some (mkRoute (from_branch ++ rev to_branch) ancestor (length from_branch) finalized))
                end
              else None
          end
      end
  | _, _ => Some None
  end.

(** ** Preparing an insertion *)

Definition block_info (c : BlockChain) (header : Header) (route : TreeRoute) (extras : ExtrasInsert) : option BlockInfo :=
  parent_details ← block_details c (h_parent_hash header);
  total_difficulty ← u256_add (bd_total_difficulty parent_details) (h_difficulty header);
  let location :=
    match ei_fork_choice extras with
    | ForkNew =>
        match tr_blocks route with
        | [] => CanonChain
        | _ =>
            BranchBecomingCanonChain (mkBranchData (tr_ancestor route) (drop (tr_index route) (tr_blocks route))
              (take (tr_index route) (tr_blocks route)))
        end
    | ForkOld => Branch
    end in
  Some (mkInfo (h_hash header) (h_number header) total_difficulty location).

(** [.iter().enumerate()] over the enacted blocks. *)
Fixpoint number_blocks (start : Z) (hashes : list Z) : list (Z * Z) :=
  match hashes with [] => [] | h :: hashes => (start, h) :: number_blocks (start + 1) hashes end.

Definition prepare_block_hashes_update (c : BlockChain) (info : BlockInfo) : option (gmap Z Z) :=
  match bi_location info with
  | Branch => Some ∅
  | CanonChain => Some {[ bi_number info := bi_hash info ]}
  | BranchBecomingCanonChain data =>
      ancestor_number ← block_number c (br_ancestor data);
      Some (<[ bi_number info := bi_hash info ]> (collect (number_blocks (ancestor_number + 1) (br_enacted data))))
  end.

Definition push_child (child : Z) (d : BlockDetails) : BlockDetails :=
  mkDetails (bd_number d) (bd_total_difficulty d) (bd_parent d) (bd_children d ++ [child]) (bd_is_finalized d).

Definition prepare_block_details_update (c : BlockChain) (parent_hash : Z) (info : BlockInfo) (is_finalized : bool)
    : option (gmap Z BlockDetails) :=
  parent_details ← block_details c parent_hash;
  let details := mkDetails (bi_number info) (bi_total_difficulty info) parent_hash [] is_finalized in
  Some (<[ bi_hash info := details ]> {[ parent_hash := push_child (bi_hash info) parent_details ]}).

Definition prepare_block_receipts_update (receipts : list Receipt) (info : BlockInfo) : gmap Z (list Receipt) :=
  {[ bi_hash info := receipts ]}.

(** The addresses of the transactions of a block, from index [i] on. *)
Fixpoint addresses_from (block_hash i : Z) (hashes : list Z) : list (Z * option TransactionAddress) :=
  match hashes with
  | [] => []
  | h :: hashes => (h, Some (mkAddress block_hash i)) :: addresses_from block_hash (i + 1) hashes
  end.

(** [.flat_map(|hash| ..)] over blocks whose body must be there. *)
Fixpoint flat_map_bodies {A} (c : BlockChain) (f : Z -> Body -> list A) (hashes : list Z) : option (list A) :=
  match hashes with
  | [] => Some []
  | h :: hashes =>
      body ← block_body c h;
      rest ← flat_map_bodies c f hashes;
      Some (f h body ++ rest)
  end.

Definition prepare_transaction_addresses_update (c : BlockChain) (hashes : list Z) (info : BlockInfo)
    : option (gmap Z (option TransactionAddress)) :=
  match bi_location info with
  | CanonChain => Some (collect (addresses_from (bi_hash info) 0 hashes))
  | BranchBecomingCanonChain data =>
      addresses ← flat_map_bodies c (fun hash body => addresses_from hash 0 (transaction_hashes body)) (br_enacted data);
      let current_addresses := addresses_from (bi_hash info) 0 hashes in
      retracted ← flat_map_bodies c (fun _ body => (fun h => (h, None)) <$> transaction_hashes body) (br_retracted data);
      Some (collect (retracted ++ addresses ++ current_addresses))
  | Branch => Some ∅
  end.

(** The nullifiers of transactions with a value for each transaction. *)
Definition tx_nullifiers (f : LocalizedTransaction -> option Z) (txs : list LocalizedTransaction) : list (Z * option Z) :=
  mjoin ((fun tx => (fun nullifier => (nullifier, f tx)) <$> get_nullifier_set (lt_unsigned tx)) <$> txs).

Definition prepare_transaction_nullifiers_update (c : BlockChain) (private_txs : list LocalizedTransaction) (info : BlockInfo)
    : option (gmap Z (option Z)) :=
  let enact txs := tx_nullifiers (fun tx => Some (lt_hash tx)) txs in
  match bi_location info with
  | CanonChain => Some (collect (enact private_txs))
  | BranchBecomingCanonChain data =>
      nullifiers ← flat_map_bodies c (fun hash body => enact (localized_private_transactions hash 0 body)) (br_enacted data);
      let current_nullifiers := enact private_txs in
      retracted ← flat_map_bodies c
        (fun hash body => tx_nullifiers (fun _ => None) (localized_private_transactions hash 0 body)) (br_retracted data);
      Some (collect (retracted ++ nullifiers ++ current_nullifiers))
  | Branch => Some ∅
  end.

(** The tree of a block: that of its parent with the notes of the block. *)
Definition block_tree (parent_ser : bytes) (private_txs : list LocalizedTransaction) : option (CommitmentTree Node) :=
  tree ← get_commitment_tree parent_ser;
  update_commitment_tree_with_txs private_txs tree.

(** The enacted blocks; each only repeats the root of the parent of the new block. *)
Fixpoint enacted_roots (c : BlockChain) (parent_ser : bytes) (hash : Z) (enacted : list Z) : option (list (Z * option Z)) :=
  match enacted with
  | [] => Some []
  | h :: enacted =>
      _ ← block_commitment_ser c h;
      tree ← get_commitment_tree parent_ser;
      root ← tree_root tree;
      rest ← enacted_roots c parent_ser hash enacted;
      Some ((root, Some hash) :: rest)
  end.

Fixpoint retracted_roots (c : BlockChain) (retracted : list Z) : option (list (Z * option Z)) :=
  match retracted with
  | [] => Some []
  | h :: retracted =>
      ser ← block_commitment_ser c h;
      tree ← get_commitment_tree ser;
      root ← tree_root tree;
      rest ← retracted_roots c retracted;
      Some ((root, None) :: rest)
  end.

Definition prepare_commitment_root_blocks_update (c : BlockChain) (parent_ser : option bytes)
    (private_txs : list LocalizedTransaction) (info : BlockInfo) : option (gmap Z (option Z)) :=
  match parent_ser with
  | None => Some ∅
  | Some parent_ser =>
      match bi_location info with
      | CanonChain =>
          tree ← block_tree parent_ser private_txs;
          root ← tree_root tree;
          Some {[ root := Some (bi_hash info) ]}
      | BranchBecomingCanonChain data =>
          enacted ← enacted_roots c parent_ser (bi_hash info) (br_enacted data);
          tree ← block_tree parent_ser private_txs;
          root ← tree_root tree;
          retracted ← retracted_roots c (br_retracted data);
          Some (collect (retracted ++ enacted ++ [(root, Some (bi_hash info))]))
      | Branch => Some ∅
      end
  end.

Definition prepare_block_commitment_sers_update (parent_ser : option bytes) (private_txs : list LocalizedTransaction)
    (info : BlockInfo) : option (gmap Z bytes) :=
  match parent_ser with
  | Some parent_ser =>
      tree ← block_tree parent_ser private_txs;
      Some {[ bi_hash info := ser_new tree ]}
  | None => Some ∅
  end.

(** [map(|hash| ..)] over headers that must be there. *)
Fixpoint header_blooms (c : BlockChain) (hashes : list Z) : option (list Z) :=
  match hashes with
  | [] => Some []
  | h :: hashes =>
      header ← block_header_data c h;
      rest ← header_blooms c hashes;
      Some (h_log_bloom header :: rest)
  end.

Definition prepare_block_blooms_update (c : BlockChain) (log_bloom : Z) (info : BlockInfo) : option (option (Z * list Z)) :=
  match bi_location info with
  | Branch => Some None
  | CanonChain => Some (if log_bloom =? 0 then None else Some (bi_number info, [log_bloom]))
  | BranchBecomingCanonChain data =>
      ancestor_number ← block_number c (br_ancestor data);
      blooms ← header_blooms c (br_enacted data);
      Some (Some (ancestor_number + 1, blooms ++ [log_bloom]))
  end.

(** [do_rewards_of_batch_blocks]: the blocks must be there. *)
Fixpoint blocks_of (c : BlockChain) (hashes : list Z) : option (list Block) :=
  match hashes with
  | [] => Some []
  | h :: hashes => b ← block_of c h; rest ← blocks_of c hashes; Some (b :: rest)
  end.

Definition do_rewards_of_batch_blocks (c : BlockChain) (r : Rewards) (hashes : list Z) (is_remove : bool)
    : option (Rewards * bool) :=
  blocks ← blocks_of c hashes;
  do_rewards_of_blocks (bc_reward_config c) r blocks is_remove false.

Definition prepare_rewards_update (c : BlockChain) (info : BlockInfo) (block : Block) : option (option Rewards) :=
  match bi_location info with
  | Branch => Some None
  | CanonChain =>
      '(r, u) ← prepare_block_rewards (bc_reward_config c) (bc_rewards c) block false;
      Some (if u : bool then Some r else None)
  | BranchBecomingCanonChain data =>
      '(r, remove) ← do_rewards_of_batch_blocks c (bc_rewards c) (br_retracted data) true;
      '(r, insert) ← do_rewards_of_batch_blocks c r (br_enacted data) false;
      '(r, update) ← prepare_block_rewards (bc_reward_config c) r block false;
      Some (if (remove || insert || update) : bool then Some r else None)
  end.
(** ** The wallet *)

(** The hashes of the private transactions of retracted blocks. *)
Definition retracted_tx_hashes (c : BlockChain) (retracted : list Z) : list Z :=
  mjoin ((fun h => match block_of c h with
                   | Some block => lt_hash <$> localized_private_txs block
                   | None => []
                   end) <$> retracted).

Fixpoint sync_enacted (c : BlockChain) (enacted : list Z) (w : W) : option W :=
  match enacted with
  | [] => Some w
  | h :: enacted =>
      match block_of c h with
      | Some block =>
          ser ← block_commitment_ser c (b_parent_hash block);
          tree ← get_commitment_tree ser;
          w ← wo_sync_new_block tree block w;
          sync_enacted c enacted w
      | None => sync_enacted c enacted w
      end
  end.

Definition sync_current (parent_ser : option bytes) (block : Block) (w : W) : option W :=
  match parent_ser with
  | Some ser => tree ← get_commitment_tree ser; wo_sync_new_block tree block w
  | None => Some w
  end.

(** The part of [prepare_wallet_update] that changes the wallet. *)
Definition update_wallet (c : BlockChain) (parent_ser : option bytes) (block : Block) (info : BlockInfo) (w : W) : option W :=
  match bi_location info with
  | CanonChain => sync_current parent_ser block w
  | BranchBecomingCanonChain data =>
      let w := wo_remove_retracted_txs (retracted_tx_hashes c (br_retracted data)) w in
      w ← sync_enacted c (br_enacted data) w;
      sync_current parent_ser block w
  | Branch => Some w
  end.

Definition put_wallet_data (w : W) (b : Batch) : Batch :=
  mkBatch (ba_tables b) (ba_best b) (ba_ancient b) (ba_rewards b) (Some (wo_wallet_hashes w)) (Some (wo_list_addresses w)).

Definition prepare_wallet_update (parent_ser : option bytes) (block : Block) (info : BlockInfo) (cb : BlockChain * Batch)
    : option (BlockChain * Batch) :=
  let '(c, b) := cb in
  w ← update_wallet c parent_ser block info (bc_wallet c);
  Some (set_pending_wallet_addresses (Some (wo_list_addresses w)) (set_wallet w c), put_wallet_data w b).

(** [scan_for_wallet_transactions], on the hashes from the oldest on. *)
Fixpoint scan_blocks (c : BlockChain) (filter_addresses : option (list string)) (hashes : list Z) (w : W) : option W :=
  match hashes with
  | [] => Some w
  | h :: hashes =>
      w ← match block_of c h with
          | Some block =>
              match block_commitment_ser c (b_parent_hash block) with
              | Some ser => tree ← get_commitment_tree ser; wo_scan_new_block tree block filter_addresses w
              | None => Some w
              end
          | None => Some w
          end;
      scan_blocks c filter_addresses hashes w
  end.

(** The ancestry has one block per number. *)
Definition scan_for_wallet_transactions (filter_addresses : option (list string)) (c : BlockChain) : option BlockChain :=
  if is_known c (best_block_hash c) then
    let hash_vec := ancestry (S (Z.to_nat (best_block_number c))) c (best_block_hash c) in
    w ← scan_blocks c filter_addresses (rev hash_vec) (bc_wallet c);
    Some (set_wallet w c)
  else None.

Definition scan_for_new_imported_users_in_wallet (c : BlockChain) : option BlockChain :=
  let handled := bc_wallet_addresses c in
  if forallb (fun a => bool_decide (a ∈ handled)) (wo_list_addresses (bc_wallet c)) then Some c
  else scan_for_wallet_transactions (Some handled) c.

(** ** Inserting blocks *)

Definition put_block (block : Block) (b : Batch) : Batch :=
  let t := ba_tables b in
  mkBatch (mkTables (<[b_hash block := b_header block]> (t_headers t)) (<[b_hash block := b_body block]> (t_bodies t))
      (t_details t) (t_hashes t) (t_sers t) (t_receipts t) (t_txs t) (t_nullifiers t) (t_roots t))
    (ba_best b) (ba_ancient b) (ba_rewards b) (ba_wallet_txs b) (ba_wallet_addresses b).

(** The keys of numbers, for the database. *)
Definition number_keys (m : gmap Z Z) : gmap Z Z := kmap number_key m.

(** [extend_with_cache] and [extend_with_option_cache] of the pending tables. *)
Definition extend_pending (u : ExtrasUpdate) (p : Update) : Update :=
  mkTables (t_headers p) (t_bodies p) (eu_block_details u ∪ t_details p) (eu_block_hashes u ∪ t_hashes p)
    (eu_blocks_commitment_sers u ∪ t_sers p) (t_receipts p) (eu_transactions_addresses u ∪ t_txs p)
    (eu_transactions_nullifiers u ∪ t_nullifiers p) (eu_commitment_root_blocks u ∪ t_roots p).

Definition extend_batch (u : ExtrasUpdate) (t : Update) : Update :=
  mkTables (t_headers t) (t_bodies t) (eu_block_details u ∪ t_details t)
    (number_keys (eu_block_hashes u) ∪ t_hashes t) (eu_blocks_commitment_sers u ∪ t_sers t)
    (eu_block_receipts u ∪ t_receipts t) (eu_transactions_addresses u ∪ t_txs t)
    (eu_transactions_nullifiers u ∪ t_nullifiers t) (eu_commitment_root_blocks u ∪ t_roots t).

(** [CacheUpdatePolicy::Remove] for the receipts. *)
Definition forget_receipts (u : ExtrasUpdate) (s : Store) : Store :=
  mkTables (t_headers s) (t_bodies s) (t_details s) (t_hashes s) (t_sers s) (t_receipts s ∖ eu_block_receipts u)
    (t_txs s) (t_nullifiers s) (t_roots s).

(** [insert_blooms] of the bloom database: consecutive blocks from the given one. *)
Fixpoint insert_blooms (from : Z) (blooms : list Z) (m : gmap Z Z) : gmap Z Z :=
  match blooms with [] => m | b :: blooms => insert_blooms (from + 1) blooms (<[from := b]> m) end.

Definition set_blooms (m : gmap Z Z) (d : Disk) : Disk :=
  mkDisk (dk_tables d) (dk_best d) (dk_first d) (dk_ancient d) (dk_rewards d) (dk_wallet_txs d) (dk_wallet_addresses d) m.

Definition update_blooms (blooms : option (Z * list Z)) (c : BlockChain) : BlockChain :=
  match blooms with
  | Some (block, blooms) => set_disk (set_blooms (insert_blooms block blooms (dk_blooms (bc_disk c))) (bc_disk c)) c
  | None => c
  end.

Definition is_branch (l : BlockLocation) : bool := match l with Branch => true | _ => false end.

Definition prepare_update (u : ExtrasUpdate) (is_best : bool) (cb : BlockChain * Batch) : BlockChain * Batch :=
  let '(c, b) := cb in
  let c := set_caches (forget_receipts u (bc_caches c)) c in
  let c := update_blooms (eu_blocks_blooms u) c in
  let new_best := is_best && negb (is_branch (bi_location (eu_info u))) in
  let c :=
    if new_best then
      let c := match eu_rewards u with Some r => set_pending_rewards (Some r) c | None => c end in
      set_pending_best_block (Some (mkBest (eu_block u) (bi_total_difficulty (eu_info u)))) c
    else c in
  let c := set_pending (extend_pending u (bc_pending c)) c in
  (c, mkBatch (extend_batch u (ba_tables b))
        (if new_best then Some (bi_hash (eu_info u)) else ba_best b) (ba_ancient b)
        (if new_best then or_keep (eu_rewards u) (ba_rewards b) else ba_rewards b)
        (ba_wallet_txs b) (ba_wallet_addresses b)).

(** Everything that an insertion computes for [prepare_update]. *)
Definition extras_update (c : BlockChain) (info : BlockInfo) (details : gmap Z BlockDetails) (block : Block)
    (receipts : list Receipt) (parent_ser : option bytes) (rewards : option Rewards) : option ExtrasUpdate :=
  let private_txs := localized_private_txs block in
  hashes ← prepare_block_hashes_update c info;
  blooms ← prepare_block_blooms_update c (h_log_bloom (b_header block)) info;
  txs ← prepare_transaction_addresses_update c (transaction_hashes (b_body block)) info;
  nullifiers ← prepare_transaction_nullifiers_update c private_txs info;
  roots ← prepare_commitment_root_blocks_update c parent_ser private_txs info;
  sers ← prepare_block_commitment_sers_update parent_ser private_txs info;
  Some (mkExtrasUpdate info block hashes details (prepare_block_receipts_update receipts info) blooms txs nullifiers
          roots sers rewards).

Definition insert_block_with_route (block : Block) (receipts : list Receipt) (route : TreeRoute) (extras : ExtrasInsert)
    (cb : BlockChain * Batch) : option (ImportRoute * (BlockChain * Batch)) :=
  let '(c, b) := cb in
  let hash := b_hash block in
  let parent_hash := b_parent_hash block in
  if is_known_child c parent_hash hash then Some (import_route_none, (c, b))
  else
    match bc_pending_best_block c with
    | Some _ => None
    | None =>
        let b := put_block block b in
        info ← block_info c (b_header block) route extras;
        let parent_ser := block_commitment_ser c parent_hash in
        '(c, b) ← prepare_wallet_update parent_ser block info (c, b);
        details ← prepare_block_details_update c parent_hash info (ei_is_finalized extras);
        rewards ← prepare_rewards_update c info block;
        u ← extras_update c info details block receipts parent_ser rewards;
        let '(c, b) := prepare_update u true (c, b) in
        let routes := import_route_from info in
        Some (routes, (set_pending_routes routes c, b))
    end.

Definition insert_block (block : Block) (receipts : list Receipt) (extras : ExtrasInsert) (cb : BlockChain * Batch)
    : option (ImportRoute * (BlockChain * Batch)) :=
  c ← scan_for_new_imported_users_in_wallet cb.1;
  route ← tree_route c (best_block_hash c) (b_parent_hash block);
  route ← route;
  insert_block_with_route block receipts route extras (c, cb.2).

(** [set_best_ancient_block] *)
Definition put_ancient (v : option Z) (b : Batch) : Batch :=
  mkBatch (ba_tables b) (ba_best b) (Some v) (ba_rewards b) (ba_wallet_txs b) (ba_wallet_addresses b).

Definition set_best_ancient_block (number hash : Z) (cb : BlockChain * Batch) : BlockChain * Batch :=
  let '(c, b) := cb in
  let ancient_number := match bc_best_ancient_block c with Some a => an_number a | None => 0 end in
  match block_hash c (number + 1) with
  | Some _ => (set_pending_best_ancient_block (Some None) c, put_ancient None b)
  | None =>
      if ancient_number <? number then
        (set_pending_best_ancient_block (Some (Some (mkAncient hash number))) c, put_ancient (Some hash) b)
      else (c, b)
  end.

Definition insert_unordered_block (block : Block) (receipts : list Receipt) (parent_td : option Z) (is_best is_ancient : bool)
    (cb : BlockChain * Batch) : option (bool * (BlockChain * Batch)) :=
  let '(c, b) := cb in
  let hash := b_hash block in
  let parent_hash := b_parent_hash block in
  if is_known c hash then Some (false, (c, b))
  else
    match bc_pending_best_block c with
    | Some _ => None
    | None =>
        let b := put_block block b in
        let parent_ser := block_commitment_ser c parent_hash in
        match block_details c parent_hash with
        | Some parent_details =>
            td ← u256_add (bd_total_difficulty parent_details) (h_difficulty (b_header block));
            let info := mkInfo hash (b_number block) td CanonChain in
            '(c, b) ← prepare_wallet_update parent_ser block info (c, b);
            details ← prepare_block_details_update c parent_hash info false;
            u ← extras_update c info details block receipts parent_ser None;
            let cb := prepare_update u is_best (c, b) in
            Some (false, if is_ancient then set_best_ancient_block (b_number block) hash cb else cb)
        | None =>
            d ← parent_td;
            td ← u256_add d (h_difficulty (b_header block));
            let info := mkInfo hash (b_number block) td CanonChain in
            let details := {[ hash := mkDetails (b_number block) td parent_hash [] false ]} in
            '(c, b) ← prepare_wallet_update parent_ser block info (c, b);
            u ← extras_update c info details block receipts parent_ser None;
            Some (true, prepare_update u is_best (c, b))
        end
    end.
(** ** Other updates *)

Definition finalize_details (d : BlockDetails) : BlockDetails :=
  mkDetails (bd_number d) (bd_total_difficulty d) (bd_parent d) (bd_children d) true.

Definition put_details (hash : Z) (d : BlockDetails) (t : Update) : Update :=
  mkTables (t_headers t) (t_bodies t) (<[hash := d]> (t_details t)) (t_hashes t) (t_sers t) (t_receipts t) (t_txs t)
    (t_nullifiers t) (t_roots t).

Definition set_batch_tables (t : Update) (b : Batch) : Batch :=
  mkBatch t (ba_best b) (ba_ancient b) (ba_rewards b) (ba_wallet_txs b) (ba_wallet_addresses b).

Definition update_block_details (hash : Z) (d : BlockDetails) (cb : BlockChain * Batch) : BlockChain * Batch :=
  let '(c, b) := cb in
  (set_pending (put_details hash d (bc_pending c)) c, set_batch_tables (put_details hash d (ba_tables b)) b).

(** [None] if the block is not found. *)
Definition mark_finalized (hash : Z) (cb : BlockChain * Batch) : option (BlockChain * Batch) :=
  details ← block_details cb.1 hash;
  Some (update_block_details hash (finalize_details details) cb).

(** [add_child] writes to the cache, not to the pending updates. *)
Definition cache_details (hash : Z) (d : BlockDetails) (s : Store) : Store :=
  mkTables (t_headers s) (t_bodies s) (<[hash := d]> (t_details s)) (t_hashes s) (t_sers s) (t_receipts s) (t_txs s)
    (t_nullifiers s) (t_roots s).

Definition add_child (hash child : Z) (cb : BlockChain * Batch) : option (BlockChain * Batch) :=
  let '(c, b) := cb in
  details ← block_details c hash;
  let details := push_child child details in
  Some (set_caches (cache_details hash details (bc_caches c)) c, set_batch_tables (put_details hash details (ba_tables b)) b).

(** The loop of [update_best_ancient_block]; there are at most [n] blocks above the target. *)
Fixpoint is_linked (n : nat) (c : BlockChain) (hash target : Z) : option bool :=
  if hash =? target then Some true
  else match block_details c hash with
       | Some d => match n with O => None | S n => is_linked n c (bd_parent d) target end
       | None => Some false
       end.

Definition db_write (b : Batch) (c : BlockChain) : BlockChain := set_disk (write_batch b (bc_disk c)) c.

Definition update_best_ancient_block (hash : Z) (c : BlockChain) : option BlockChain :=
  match block_of c hash, bc_best_ancient_block c with
  | Some block, Some ancient =>
      if b_number block <=? an_number ancient then Some c
      else
        linked ← is_linked (S (Z.to_nat (b_number block))) c hash (an_hash ancient);
        if linked : bool then
          let '(c, b) := set_best_ancient_block (b_number block) hash (c, empty_batch) in
          Some (db_write b c)
        else Some c
  | _, _ => Some c
  end.

(** ** [commit] *)

(** [cache.extend(enacted)] and then [cache.remove(..)] of the retracted keys. *)
Definition commit_option {V} (p : gmap Z (option V)) (cache : gmap Z V) : gmap Z V :=
  let enacted := omap id p in
  let retracted := filter (fun kv => kv.2 = None) (map_to_list p) in
  foldl (fun m kv => delete kv.1 m) (enacted ∪ cache) retracted.

Definition commit_caches (p : Update) (s : Store) : Store :=
  mkTables (t_headers s) (t_bodies s) (t_details p ∪ t_details s) (t_hashes p ∪ t_hashes s) (t_sers p ∪ t_sers s)
    (t_receipts s) (commit_option (t_txs p) (t_txs s)) (commit_option (t_nullifiers p) (t_nullifiers s))
    (commit_option (t_roots p) (t_roots s)).

(** Nothing looks at [pending_routes]. *)
Definition commit (c : BlockChain) : BlockChain :=
  mkChain (bc_reward_config c)
    (match bc_pending_best_block c with Some b => b | None => bc_best_block c end)
    (match bc_pending_best_ancient_block c with Some a => a | None => bc_best_ancient_block c end)
    (bc_first_block c)
    (match bc_pending_wallet_addresses c with Some a => a | None => bc_wallet_addresses c end)
    (bc_wallet c)
    (match bc_pending_rewards c with Some r => r | None => bc_rewards c end)
    (bc_disk c) (commit_caches (bc_pending c) (bc_caches c))
    no_tables None None None None (bc_pending_routes c).

(** The caller of an insertion writes the batch and then commits. *)
Definition write_and_commit (cb : BlockChain * Batch) : BlockChain := commit (db_write cb.2 cb.1).

(** ** Opening the database *)

(** The batch that [BlockChain::new] writes for a new database. *)
Definition genesis_batch (config : RewardConfig) (genesis : Block) : option Batch :=
  let hash := b_hash genesis in
  let header := b_header genesis in
  let details := mkDetails (h_number header) (h_difficulty header) (h_parent_hash header) [] false in
  rewards ← genesis_rewards config;
  let tree := tree_new in
  root ← tree_root tree;
  Some (mkBatch
    (mkTables {[ hash := header ]} {[ hash := b_body genesis ]} {[ hash := details ]}
      {[ number_key (h_number header) := hash ]} {[ hash := ser_new tree ]} ∅ ∅ ∅ {[ root := Some hash ]})
    (Some hash) None (Some rewards) None None).

(** The caches after it. *)
Definition genesis_caches (genesis : Block) : option Store :=
  root ← tree_root tree_new;
  Some (mkTables ∅ ∅ ∅ ∅ {[ b_hash genesis := ser_new tree_new ]} ∅ ∅ ∅ {[ root := b_hash genesis ]}).

(** The binary search for the first block: [l] and [f] close in on it. *)
Fixpoint search_first (fuel : nat) (c : BlockChain) (l f hash : Z) : option Z :=
  if f <=? l then Some hash
  else
    match fuel with
    | O => None
    | S fuel =>
        let m := l + Z.shiftr (f - l) 1 in
        match block_hash c m with
        | Some h => search_first fuel c l m h
        | None => search_first fuel c (m + 1) f hash
        end
    end.

(** [ReloadBlockInfo] with the height, in the order of heights (a [BTreeMap]). *)
Fixpoint add_related (height : Z) (block : Block) (tx : Z) (l : list (Z * (Block * list Z))) : list (Z * (Block * list Z)) :=
  match l with
  | [] => [(height, (block, [tx]))]
  | (h, (b, txs)) :: l' =>
      if height =? h then (h, (b, txs ++ [tx])) :: l'
      else if height <? h then (height, (block, [tx])) :: l
      else (h, (b, txs)) :: add_related height block tx l'
  end.

Definition related_blocks (c : BlockChain) (hashes : list Z) : list (Z * (Block * list Z)) :=
  foldl (fun l tx =>
    match (a ← transaction_address c tx; block_of c (ta_block_hash a)) with
    | Some block => add_related (b_number block) block tx l
    | None => l
    end) [] hashes.

Fixpoint reload_blocks (c : BlockChain) (l : list (Z * (Block * list Z))) (w : W) : option W :=
  match l with
  | [] => Some w
  | (_, (block, txs)) :: l =>
      w ← match block_commitment_ser c (b_parent_hash block) with
          | Some ser => tree ← get_commitment_tree ser; wo_reload_new_block tree block (Some txs) w
          | None => Some w
          end;
      reload_blocks c l w
  end.

Definition set_wallet_addresses (v : list string) (c : BlockChain) : BlockChain :=
  mkChain (bc_reward_config c) (bc_best_block c) (bc_best_ancient_block c) (bc_first_block c) v (bc_wallet c) (bc_rewards c)
    (bc_disk c) (bc_caches c) (bc_pending c) (bc_pending_best_ancient_block c) (bc_pending_best_block c)
    (bc_pending_wallet_addresses c) (bc_pending_rewards c) (bc_pending_routes c).

Definition reload_wallet_info (c : BlockChain) : option BlockChain :=
  w ← match dk_wallet_txs (bc_disk c) with
      | Some hashes => reload_blocks c (related_blocks c hashes) (bc_wallet c)
      | None => Some (bc_wallet c)
      end;
  let c := set_wallet w c in
  Some (match dk_wallet_addresses (bc_disk c) with Some a => set_wallet_addresses a c | None => c end).

Definition put_first (hash : Z) (d : Disk) : Disk :=
  mkDisk (dk_tables d) (dk_best d) (Some hash) (dk_ancient d) (dk_rewards d) (dk_wallet_txs d) (dk_wallet_addresses d) (dk_blooms d).

(** The chain with what is known of it before [first_block] and the ancient block are. *)
Definition opened (config : RewardConfig) (best : BestBlock) (wallet : W) (disk : Disk) (caches : Store) : BlockChain :=
  mkChain config best None None [] wallet rewards_new disk caches no_tables None None None None import_route_none.

(** The best ancient block and its number. *)
Definition load_ancient (c : BlockChain) : option (option Z * option Z) :=
  let ancient := dk_ancient (bc_disk c) in
  match ancient, 1 <? best_block_number c, block_hash c 1 with
  | None, true, None => g ← genesis_hash c; Some (Some g, Some 0)
  | _, _, _ => Some (ancient, h ← ancient; block_number c h)
  end.

(** The first block, which is stored once it was found. *)
Definition load_first (c : BlockChain) (ancient_number : option Z) : option (Disk * option Z) :=
  match dk_first (bc_disk c) with
  | Some first => Some (bc_disk c, Some first)
  | None =>
      let f := best_block_number c in
      hash ← search_first (S (Z.to_nat f)) c (match ancient_number with Some n => n | None => 0 end) f (best_block_hash c);
      g ← genesis_hash c;
      Some (if hash =? g then (bc_disk c, None) else (put_first hash (bc_disk c), Some hash))
  end.

(** The disk, the caches and the best block with which [BlockChain::new] starts. *)
Definition load_or_create (config : RewardConfig) (genesis : Block) (disk : Disk) : option (Disk * Store * Z) :=
  match dk_best disk with
  | Some best => Some (disk, no_tables, best)
  | None =>
      b ← genesis_batch config genesis;
      caches ← genesis_caches genesis;
      Some (write_batch b disk, caches, b_hash genesis)
  end.

Definition open_chain (config : RewardConfig) (wallet : W) (disk : Disk) (caches : Store) (best_hash : Z) : option BlockChain :=
  details ← t_details (dk_tables disk) !! best_hash;
  header ← t_headers (dk_tables disk) !! best_hash;
  body ← t_bodies (dk_tables disk) !! best_hash;
  let c := opened config (mkBest (mkBlock header body) (bd_total_difficulty details)) wallet disk caches in
  '(ancient, ancient_number) ← load_ancient c;
  '(disk, first) ← load_first c ancient_number;
  let best_ancient := h ← ancient; n ← ancient_number; Some (mkAncient h n) in
  rewards ← dk_rewards disk;
  loadable ← rewards_loadable config rewards (best_block_number c);
  if loadable : bool then
    reload_wallet_info
      (mkChain config (bc_best_block c) best_ancient first [] wallet rewards disk caches no_tables None None None None
         import_route_none)
  else None.

(** [BlockChain::new] with a wallet. *)
Definition blockchain_new (config : RewardConfig) (genesis : Block) (wallet : W) (disk : Disk) : option BlockChain :=
  '(disk, caches, best_hash) ← load_or_create config genesis disk;
  open_chain config wallet disk caches best_hash.
End BlockChain.
