(* ===== verification/ChainTree.v ===== *)
(** * The tree of blocks and [tree_route]

    Known blocks form a tree below the genesis block; [branch] is the path to a block. The
    route between two blocks is given by the longest common prefix of their branches. *)

From stdpp Require Import base numbers option strings gmap list.
From S2P Require Import Prelude MerkleTree Transaction Substate Blocks Rewards Sapling ChainStore BlockChain.

Open Scope Z_scope.

(** ** Branches *)

Section Branch.
Context (g : Block) (B : gmap Z Block).

Inductive branch : Z -> list Block -> Prop :=
| branch_genesis : B !! b_hash g = Some g -> branch (b_hash g) [g]
| branch_child h b l : branch (b_parent_hash b) l -> B !! h = Some b -> b_hash b = h -> b_number b = zlen l ->
    h <> b_hash g -> branch h (l ++ [b]).

Lemma branch_nonempty h l : branch h l -> l <> [].
Proof. destruct 1; [done|]. by destruct l. Qed.

(** A block has one branch. *)
Lemma branch_unique h l l' : branch h l -> branch h l' -> l = l'.
Proof.
  intros Hl. revert l'. induction Hl as [Hg|h b l Hp IH Hb Hh Hn Hne]; intros l' Hl'.
  - inversion Hl'; subst; congruence.
  - inversion Hl' as [|h' b' l'' Hp' Hb' Hh' Hn' Hne']; subst; [congruence|].
    rewrite Hb in Hb'. injection Hb' as ->. f_equal. auto.
Qed.

Lemma branch_last h l : branch h l -> exists b l', l = l' ++ [b] /\ b_hash b = h /\ B !! h = Some b.
Proof. destruct 1 as [Hg|h b l Hp Hb Hh]; [exists g, []|exists b, l]; done. Qed.

(** The initial parts of a branch are branches. *)
Lemma branch_prefix h p b k : branch h (p ++ b :: k) -> branch (b_hash b) (p ++ [b]).
Proof.
  intros Hl. remember (p ++ b :: k) as l eqn:Heq. revert p k Heq.
  induction Hl as [Hg|h b' l Hp IH Hb Hh Hn Hne]; intros p k Heq.
  - destruct p as [|x p]; [by injection Heq as <- <-; constructor|by destruct p].
  - destruct k as [|x k _] using rev_ind.
    + apply app_inj_tail in Heq as [-> ->]. subst h. by constructor.
    + rewrite app_comm_cons, app_assoc in Heq. apply app_inj_tail in Heq as [-> ->]. by eapply IH.
Qed.

Lemma branch_lookup h l i b : branch h l -> l !! i = Some b ->
  branch (b_hash b) (take (S i) l) /\ B !! b_hash b = Some b.
Proof.
  intros Hl Hi. rewrite <- (take_drop_middle l i b Hi) in Hl. apply branch_prefix in Hl.
  rewrite <- (take_S_r l i b Hi) in Hl. split; [done|].
  pose proof Hl as (b' & l' & Heq & Hh & Hb)%branch_last. rewrite (take_S_r l i b Hi) in Heq.
  apply app_inj_tail in Heq as [_ <-]. done.
Qed.

Lemma branch_parent h p x b k : branch h ((p ++ [x]) ++ b :: k) -> b_parent_hash b = b_hash x /\ b_number b = zlen (p ++ [x]).
Proof.
  intros Hl. apply branch_prefix in Hl. inversion Hl as [Hg Hb Heq|h' b' l Hp Hb Hh Hn Hne Hb' Heq]; subst.
  - destruct p as [|? [|? ?]]; discriminate.
  - apply app_inj_tail in Heq as [-> ->]. split; [|done].
    pose proof Hp as (y & l' & Heq & Hy & _)%branch_last. apply app_inj_tail in Heq as [_ <-]. done.
Qed.

Lemma branch_number h l i b : b_number g = 0 -> branch h l -> l !! i = Some b -> b_number b = Z.of_nat i.
Proof.
  intros Hg Hl. revert i b. induction Hl as [_|h b' l Hp IH Hb Hh Hn Hne]; intros i b Hi.
  - apply list_lookup_singleton_Some in Hi as [-> <-]. done.
  - apply lookup_app_Some in Hi as [Hi|[Hi [Hj <-]%list_lookup_singleton_Some]]; [auto|].
    rewrite Hn. unfold zlen. lia.
Qed.

Lemma branch_genesis_head h l : branch h l -> exists l', l = g :: l'.
Proof. induction 1 as [_|h b l Hp [l' ->] _ _ _ _]; [by exists []|by exists (l' ++ [b])]. Qed.

(** The common part of two branches, and where they part. *)
Definition parts (k1 k2 : list Block) : Prop := forall b, head k1 = Some b -> head k2 <> Some b.

Lemma common_prefix (l1 l2 : list Block) : (forall x y, x ∈ l1 -> y ∈ l2 -> b_hash x = b_hash y -> x = y) ->
  exists p k1 k2, l1 = p ++ k1 /\ l2 = p ++ k2 /\ parts k1 k2.
Proof.
  revert l2. induction l1 as [|x l1 IH]; intros l2 Hinj; [by exists [], [], l2|].
  destruct l2 as [|y l2]; [by exists [], (x :: l1), []|].
  destruct (decide (b_hash x = b_hash y)) as [Heq|Hne].
  - assert (x = y) as <- by (apply Hinj; set_solver).
    destruct (IH l2) as (p & k1 & k2 & -> & -> & Hp); [set_solver|]. by exists (x :: p), k1, k2.
  - exists [], (x :: l1), (y :: l2). split_and!; [done..|]. intros b. cbn. congruence.
Qed.

Lemma branch_known h l b : branch h l -> b ∈ l -> B !! b_hash b = Some b.
Proof. intros Hl [i Hi]%list_elem_of_lookup. exact (proj2 (branch_lookup _ _ _ _ Hl Hi)). Qed.

Lemma branch_fork h1 l1 h2 l2 : branch h1 l1 -> branch h2 l2 ->
  exists p x k1 k2, l1 = (p ++ [x]) ++ k1 /\ l2 = (p ++ [x]) ++ k2 /\ parts k1 k2.
Proof.
  intros H1 H2. destruct (common_prefix l1 l2) as (p & k1 & k2 & -> & -> & Hp).
  { intros x y Hx Hy Heq. apply (branch_known _ _ _ H1) in Hx. apply (branch_known _ _ _ H2) in Hy. congruence. }
  destruct p as [|x p _] using rev_ind; [|by exists p, x, k1, k2].
  destruct (branch_genesis_head _ _ H1) as [l' E1], (branch_genesis_head _ _ H2) as [l'' E2]. cbn in E1, E2. subst.
  by destruct (Hp g).
Qed.

Lemma branch_hashes h l : b_number g = 0 -> branch h l -> NoDup (b_hash <$> l).
Proof.
  intros Hg Hl. apply NoDup_alt. intros i j x Hi Hj.
  apply list_lookup_fmap_Some in Hi as (b & -> & Hi), Hj as (b' & Heq & Hj).
  pose proof (branch_lookup _ _ _ _ Hl Hi) as [_ Hb]. pose proof (branch_lookup _ _ _ _ Hl Hj) as [_ Hb'].
  rewrite <- Heq, Hb in Hb'. injection Hb' as <-.
  apply (branch_number _ _ _ _ Hg Hl) in Hi, Hj. lia.
Qed.
End Branch.

(** A known block does not lose its branch when another one is added. *)
Lemma branch_insert g B b h l : B !! b_hash b = None -> branch g B h l -> branch g (<[b_hash b := b]> B) h l.
Proof.
  intros Hnew. induction 1 as [Hg|h b' l Hp IH Hb Hh Hn Hne]; constructor; try done; rewrite lookup_insert_ne; congruence.
Qed.

(** ** The route between two blocks *)

(** The parents of the blocks of [k], which follow [x]. *)
Definition parents (x : Block) (k : list Block) : list Block := take (length k) (x :: k).

Lemma parents_snoc x k b : exists q y, x :: k = q ++ [y] /\ parents x k = q /\ parents x (k ++ [b]) = q ++ [y].
Proof.
  destruct (exists_last (l := x :: k) ltac:(done)) as (q & y & Heq). exists q, y. split; [done|]. unfold parents.
  assert (Hlen : length k = length q).
  { apply (f_equal length) in Heq. rewrite length_app in Heq. cbn in Heq. lia. }
  rewrite app_comm_cons, !Heq, length_app. cbn [length]. split; [by rewrite Hlen, take_app_length|].
  rewrite take_app_le by (rewrite length_app; cbn; lia). apply take_ge. rewrite length_app. cbn. lia.
Qed.

Section Route.
Context {W : Type}.
Context (g : Block) (B : gmap Z Block) (c : BlockChain (W := W)).
Context (genesis_number : b_number g = 0).
Context (details_known : forall h b, B !! h = Some b ->
  exists d, block_details c h = Some d /\ bd_number d = b_number b /\ bd_parent d = b_parent_hash b).

Abbreviation branch := (branch g B).

Definition finalized_at (h : Z) : bool := match block_details c h with Some d => bd_is_finalized d | None => false end.

(** A block of a branch, its details, and its parent. *)
Lemma branch_details h l b d : branch h (l ++ [b]) -> block_details c h = Some d ->
  h = b_hash b /\ bd_number d = zlen l /\ bd_parent d = b_parent_hash b.
Proof.
  intros Hl Hd. pose proof Hl as (b' & l' & Heq & Hh & Hb)%branch_last. apply app_inj_tail in Heq as [<- <-].
  destruct (details_known _ _ Hb) as (d' & Hd' & Hn & Hp). rewrite Hd in Hd'. injection Hd' as <-.
  split; [done|]. split; [|done]. rewrite Hn.
  apply (branch_number g B h _ (length l) b genesis_number Hl). by apply list_lookup_middle.
Qed.

Lemma branch_step h l y b d : branch h ((l ++ [y]) ++ [b]) -> block_details c h = Some d ->
  bd_parent d = b_hash y /\ branch (b_hash y) (l ++ [y]) /\ exists d', block_details c (b_hash y) = Some d'.
Proof.
  intros Hl Hd. destruct (branch_details _ _ _ _ Hl Hd) as (_ & _ & Hp).
  pose proof (branch_parent _ _ _ _ _ _ [] Hl) as [Hy _].
  assert (Hb : branch (b_hash y) (l ++ [y])).
  { apply (branch_prefix _ _ h l y [b]). by rewrite <- app_assoc in Hl. }
  split; [congruence|]. split; [done|].
  pose proof Hb as (y' & l' & Heq & Hh & Hy')%branch_last. apply app_inj_tail in Heq as [_ <-].
  destruct (details_known _ _ Hy') as (d' & Hd' & _). eauto.
Qed.

(** The last block of a non-empty tail, seen from its parent. *)
Lemma tail_step h p x k b d : branch h ((p ++ [x]) ++ k ++ [b]) -> block_details c h = Some d ->
  exists y d', h = b_hash b /\ bd_parent d = b_hash y /\ branch (b_hash y) ((p ++ [x]) ++ k) /\
    block_details c (b_hash y) = Some d' /\
    existsb finalized_at (b_hash <$> parents x (k ++ [b])) = bd_is_finalized d' || existsb finalized_at (b_hash <$> parents x k).
Proof.
  intros Hl Hd. destruct (parents_snoc x k b) as (q & y & Hq & Hpk & Hpb).
  assert (Hl' : branch h (((p ++ q) ++ [y]) ++ [b])).
  { rewrite <- (app_assoc p q), <- Hq. by rewrite <- !app_assoc in Hl |- *. }
  destruct (branch_details _ _ _ _ Hl' Hd) as (Hh & _ & _). destruct (branch_step _ _ _ _ _ Hl' Hd) as (Hp & Hy & d' & Hd').
  exists y, d'. split_and!; try done.
  - by rewrite <- app_assoc; cbn; rewrite Hq, app_assoc.
  - rewrite Hpb, Hpk, fmap_app, existsb_app. cbn. unfold finalized_at at 2. by rewrite Hd', orb_false_r, orb_comm.
Qed.

Lemma climb_ok k p x h d level br fin fuel : branch h ((p ++ [x]) ++ k) -> block_details c h = Some d ->
  zlen p <= level -> (k = [] \/ level = zlen p) -> (length k <= fuel)%nat ->
  exists d', block_details c (b_hash x) = Some d' /\
    climb fuel c h d level br fin =
    Some (Some (b_hash x, d', br ++ (b_hash <$> rev k), fin || existsb finalized_at (b_hash <$> parents x k))).
Proof.
  revert h d br fin fuel. induction k as [|b k IH] using rev_ind; intros h d br fin fuel Hl Hd Hle Hlev Hf.
  - rewrite app_nil_r in Hl. destruct (branch_details _ _ _ _ Hl Hd) as (-> & Hn & _). exists d. split; [done|].
    destruct fuel; cbn; rewrite (proj2 (Z.ltb_ge _ _)) by lia; by rewrite app_nil_r, orb_false_r.
  - destruct Hlev as [Hlev| ->]; [by destruct k|].
    assert (Hn : bd_number d = zlen ((p ++ [x]) ++ k)) by (rewrite app_assoc in Hl; by apply (branch_details _ _ _ _ Hl Hd)).
    destruct (tail_step _ _ _ _ _ _ Hl Hd) as (y & d1 & Hh & Hp & Hy & Hd1 & Hfl).
    rewrite length_app in Hf. cbn in Hf. destruct fuel as [|fuel]; [lia|]. cbn [climb].
    rewrite (proj2 (Z.ltb_lt _ _)) by (rewrite Hn, !zlen_app, zlen_cons, zlen_nil; pose proof (zlen_nonneg k); lia).
    rewrite Hp, Hd1.
    destruct (IH _ _ (br ++ [h]) (fin || bd_is_finalized d1) fuel Hy Hd1 Hle ltac:(by right) ltac:(lia)) as (d' & Hd' & ->).
    exists d'. split; [done|]. rewrite Hfl, orb_assoc, rev_unit, Hh. cbn. by rewrite <- app_assoc.
Qed.

Lemma meet_ok k1 k2 p x h1 h2 d1 d2 fb fin tb fuel :
  branch h1 ((p ++ [x]) ++ k1) -> branch h2 ((p ++ [x]) ++ k2) -> length k1 = length k2 -> parts k1 k2 ->
  block_details c h1 = Some d1 -> block_details c h2 = Some d2 -> (length k1 <= fuel)%nat ->
  meet fuel c h1 d1 fb fin h2 d2 tb =
  Some (Some (b_hash x, fb ++ (b_hash <$> rev k1), fin || existsb finalized_at (b_hash <$> parents x k1),
    tb ++ (b_hash <$> rev k2))).
Proof.
  revert k2 h1 h2 d1 d2 fb fin tb fuel.
  induction k1 as [|b1 k1 IH] using rev_ind; intros k2 h1 h2 d1 d2 fb fin tb fuel Hl1 Hl2 Hlen Hpart Hd1 Hd2 Hf.
  - destruct k2; [|done]. rewrite app_nil_r in Hl1, Hl2.
    destruct (branch_details _ _ _ _ Hl1 Hd1) as (-> & _ & _). destruct (branch_details _ _ _ _ Hl2 Hd2) as (-> & _ & _).
    destruct fuel; cbn; rewrite Z.eqb_refl; by rewrite !app_nil_r, orb_false_r.
  - destruct k2 as [|b2 k2 _] using rev_ind; rewrite !length_app in *; cbn in Hlen, Hf; [lia|].
    destruct (h1 =? h2) eqn:Heq.
    { apply Z.eqb_eq in Heq as <-. pose proof (branch_unique _ _ _ _ _ Hl1 Hl2) as Hk%app_inv_head.
      exfalso. rewrite Hk in Hpart. destruct k2 as [|a k2]; [by apply (Hpart b2)|by apply (Hpart a)]. }
    destruct (tail_step _ _ _ _ _ _ Hl1 Hd1) as (y1 & e1 & Hh1 & Hp1 & Hy1 & He1 & Hfl).
    destruct (tail_step _ _ _ _ _ _ Hl2 Hd2) as (y2 & e2 & Hh2 & Hp2 & Hy2 & He2 & _).
    destruct fuel as [|fuel]; [lia|]. cbn [meet]. rewrite Heq, Hp1, Hp2, He1, He2.
    rewrite (IH k2 _ _ _ _ _ _ _ _ Hy1 Hy2); [|lia|..|done|done|lia].
    + rewrite Hfl, orb_assoc, !rev_unit, Hh1, Hh2. cbn. by rewrite <- !app_assoc.
    + destruct k1 as [|a k1], k2 as [|a' k2]; cbn in *; try lia; [done|]. intros b Hb. apply (Hpart b Hb).
Qed.

Lemma parents_app x a t q y : x :: a = q ++ [y] -> parents x (a ++ t) = parents x a ++ parents y t.
Proof.
  intros Hq. assert (Hlen : length a = length q).
  { apply (f_equal length) in Hq. rewrite length_app in Hq. cbn in Hq. lia. }
  unfold parents. rewrite app_comm_cons, Hq, length_app, <- app_assoc, Hlen, take_app_length, take_app_add. done.
Qed.

(** Both sides are brought to the same level first. *)
Lemma climb_level h p x a t d level fuel : branch h ((p ++ [x]) ++ a ++ t) -> block_details c h = Some d ->
  zlen p + zlen a <= level -> (t = [] \/ level = zlen p + zlen a) -> (length t <= fuel)%nat ->
  exists y d', block_details c (b_hash y) = Some d' /\ bd_number d' = zlen p + zlen a /\ branch (b_hash y) ((p ++ [x]) ++ a) /\
    parents x (a ++ t) = parents x a ++ parents y t /\
    climb fuel c h d level [] false =
    Some (Some (b_hash y, d', b_hash <$> rev t, existsb finalized_at (b_hash <$> parents y t))).
Proof.
  intros Hl Hd Hle Hlev Hf. destruct (exists_last (l := x :: a) ltac:(done)) as (q & y & Hq).
  assert (Hpa : (p ++ [x]) ++ a = (p ++ q) ++ [y]) by (by rewrite <- !app_assoc; cbn; rewrite Hq).
  assert (Hz : zlen (p ++ q) = zlen p + zlen a).
  { apply (f_equal zlen) in Hq. rewrite zlen_cons, zlen_app, zlen_cons, zlen_nil in Hq. rewrite zlen_app. lia. }
  rewrite app_assoc, Hpa in Hl.
  destruct (climb_ok t (p ++ q) y h d level [] false fuel Hl Hd) as (d' & Hd' & Hc); [lia|rewrite Hz; tauto|done|].
  assert (Hb : branch (b_hash y) ((p ++ q) ++ [y])).
  { destruct t as [|b t]; [|apply (branch_prefix _ _ h _ y (b :: t)); by rewrite <- app_assoc in Hl].
    rewrite app_nil_r in Hl. by rewrite <- (proj1 (branch_details _ _ _ _ Hl Hd)). }
  exists y, d'. split_and!; [done| |by rewrite Hpa|by eapply parents_app|by rewrite Hc].
  rewrite <- Hz. apply (branch_details _ _ _ _ Hb Hd').
Qed.

(** The route from one block to another: down from the first to where the branches part, and
    up to the second. *)
Lemma tree_route_ok h1 h2 p x k1 k2 : branch h1 ((p ++ [x]) ++ k1) -> branch h2 ((p ++ [x]) ++ k2) -> parts k1 k2 ->
  tree_route c h1 h2 =
  Some (Some (mkRoute ((b_hash <$> rev k1) ++ (b_hash <$> k2)) (b_hash x) (length k1)
    (existsb finalized_at (b_hash <$> parents x k1)))).
Proof.
  intros Hl1 Hl2 Hpart. set (n := Nat.min (length k1) (length k2)).
  assert (Hd : forall h k, branch h ((p ++ [x]) ++ k) -> exists d, block_details c h = Some d /\ bd_number d = zlen p + zlen k).
  { intros h k Hl. pose proof Hl as (b & l & Heq & Hh & Hb)%branch_last. destruct (details_known _ _ Hb) as (d & Hd & _).
    exists d. split; [done|]. rewrite Heq in Hl. destruct (branch_details _ _ _ _ Hl Hd) as (_ & -> & _).
    apply (f_equal zlen) in Heq. rewrite !zlen_app, !zlen_cons, !zlen_nil in Heq. lia. }
  destruct (Hd _ _ Hl1) as (d1 & Hd1 & Hn1), (Hd _ _ Hl2) as (d2 & Hd2 & Hn2).
  set (a1 := take n k1). set (t1 := drop n k1). set (a2 := take n k2). set (t2 := drop n k2).
  assert (Hk1 : k1 = a1 ++ t1) by (symmetry; apply take_drop). assert (Hk2 : k2 = a2 ++ t2) by (symmetry; apply take_drop).
  assert (Ha1 : length a1 = n) by (apply length_take_le; lia). assert (Ha2 : length a2 = n) by (apply length_take_le; lia).
  assert (Ht : (t1 = [] \/ length k2 = n) /\ (t2 = [] \/ length k1 = n)).
  { split; [destruct (decide (length k2 = n)); [by right|left]|destruct (decide (length k1 = n)); [by right|left]];
      apply drop_ge; lia. }
  unfold tree_route. rewrite Hd1, Hd2, Hn1, Hn2. set (fuel := Z.to_nat _).
  assert (Hfuel : (length k1 <= fuel)%nat /\ (length k2 <= fuel)%nat) by (unfold fuel, zlen; lia).
  assert (Hz1 : zlen a1 = Z.of_nat n) by (unfold zlen; lia). assert (Hz2 : zlen a2 = Z.of_nat n) by (unfold zlen; lia).
  rewrite Hk1 in Hl1. rewrite Hk2 in Hl2.
  destruct (climb_level h1 p x a1 t1 d1 (zlen p + zlen k2) fuel) as (y1 & e1 & He1 & Hm1 & Hy1 & Hpar & ->);
    [done|done|unfold zlen in *; lia|destruct Ht as [[?|?] _]; [by left|right; unfold zlen in *; lia]|
     rewrite Hk1, length_app in Hfuel; lia|].
  cbn [mbind option_bind]. rewrite Hm1.
  destruct (climb_level h2 p x a2 t2 d2 (zlen p + zlen a1) fuel) as (y2 & e2 & He2 & Hm2 & Hy2 & _ & ->);
    [done|done|lia|right; lia|rewrite Hk2, length_app in Hfuel; lia|].
  cbn [mbind option_bind]. rewrite Hm2, Hz1, Hz2, Z.eqb_refl.
  rewrite (meet_ok a1 a2 p x _ _ _ _ _ _ _ _ Hy1 Hy2); [|lia| |done|done|lia].
  - cbn [mbind option_bind].
    assert (Hb1 : (b_hash <$> rev t1) ++ (b_hash <$> rev a1) = b_hash <$> rev k1) by (by rewrite Hk1, rev_app_distr, fmap_app).
    assert (Hb2 : rev ((b_hash <$> rev t2) ++ (b_hash <$> rev a2)) = b_hash <$> k2).
    { by rewrite <- fmap_app, <- rev_app_distr, <- Hk2, fmap_rev, rev_involutive. }
    rewrite Hb1, Hb2, length_fmap, length_rev. rewrite <- Hk1 in Hpar. by rewrite Hpar, fmap_app, existsb_app, orb_comm.
  - intros b Hb Hb'. apply (Hpart b); [rewrite Hk1|rewrite Hk2].
    + destruct a1; [done|by cbn in *].
    + destruct a2; [done|by cbn in *].
Qed.
End Route.
