(* ===== verification/ChainTables.v ===== *)
(** * Updates of the tables of the chain

    A batch that is written and the pending updates that are committed change the view of a
    table in the same way, and keep the caches coherent. An index over the blocks of the
    canonical chain follows a reorganisation. *)

From stdpp Require Import base numbers option strings gmap list.
From S2P Require Import Prelude MerkleTree Transaction Substate Blocks Rewards Sapling ChainStore BlockChain.

Open Scope Z_scope.

Section Maps.
Context `{Countable K} {V : Type}.
Implicit Types (m : gmap K V) (u : gmap K (option V)).

Lemma lookup_overlay u m k : overlay u m !! k = match u !! k with Some o => o | None => m !! k end.
Proof. unfold overlay. rewrite lookup_merge. by destruct (u !! k) as [[]|], (m !! k). Qed.

Lemma foldl_delete_pairs {A} (l : list (K * A)) m k :
  foldl (fun m kv => delete kv.1 m) m l !! k = if decide (k ∈ l.*1) then None else m !! k.
Proof.
  revert m. induction l as [|[x a] l IH]; intros m; cbn; [by rewrite decide_False by set_solver|].
  rewrite IH. destruct (decide (k = x)) as [->|Hne].
  - rewrite lookup_delete_eq. repeat case_decide; try done; exfalso; set_solver.
  - rewrite lookup_delete_ne by done. repeat case_decide; try done; exfalso; set_solver.
Qed.

Lemma collect_nil : collect (@nil (K * V)) = ∅.
Proof. done. Qed.

Lemma collect_app (l1 l2 : list (K * V)) k :
  collect (l1 ++ l2) !! k = match collect l2 !! k with Some v => Some v | None => collect l1 !! k end.
Proof.
  unfold collect. rewrite foldl_app. set (m0 := foldl _ ∅ l1). clearbody m0.
  induction l2 as [|[x v] l2 IH] using rev_ind; [by cbn; rewrite lookup_empty|].
  rewrite !foldl_app. cbn. destruct (decide (x = k)) as [->|]; [by rewrite !lookup_insert_eq|].
  by rewrite !lookup_insert_ne.
Qed.

Lemma collect_snoc (l : list (K * V)) k v : collect (l ++ [(k, v)]) = <[k := v]> (collect l).
Proof. unfold collect. by rewrite foldl_app. Qed.

(** Without repeated keys the map has the pairs of the list. *)
Lemma collect_NoDup (l : list (K * V)) k v : NoDup l.*1 -> collect l !! k = Some v <-> (k, v) ∈ l.
Proof.
  induction l as [|[x a] l IH] using rev_ind; intros Hnd; [rewrite collect_nil, lookup_empty; set_solver|].
  rewrite collect_snoc. rewrite fmap_app, NoDup_app in Hnd. destruct Hnd as (Hnd & Hx & _).
  rewrite elem_of_app, list_elem_of_singleton, lookup_insert_Some, (IH Hnd). split; [set_solver|].
  intros [Hkv|Hkv]; [|left; by simplify_eq]. right. split; [|done]. intros <-. apply (Hx x); [|set_solver].
  by apply (list_elem_of_fmap_2 fst l (x, v)).
Qed.

Lemma collect_None (l : list (K * V)) k : collect l !! k = None <-> k ∉ l.*1.
Proof.
  induction l as [|[x a] l IH] using rev_ind; [rewrite collect_nil, lookup_empty; set_solver|].
  rewrite collect_snoc, fmap_app, lookup_insert_None, IH. set_solver.
Qed.

End Maps.

Section Index.
Context `{Countable K} {V : Type}.

(** Retracted keys and enacted pairs. *)
Definition reorg (ks : list K) (l : list (K * V)) : list (K * option V) :=
  ((fun k => (k, None)) <$> ks) ++ ((fun kv => (kv.1, Some kv.2)) <$> l).

Lemma collect_enacted (l : list (K * V)) k :
  collect ((fun kv => (kv.1, Some kv.2)) <$> l) !! k = Some <$> collect l !! k.
Proof.
  induction l as [|[x a] l IH] using rev_ind; [done|]. rewrite fmap_app. cbn. rewrite !collect_snoc.
  destruct (decide (x = k)) as [->|]; [by rewrite !lookup_insert_eq|by rewrite !lookup_insert_ne].
Qed.

Lemma collect_retracted (ks : list K) k :
  collect ((fun k => (k, @None V)) <$> ks) !! k = if decide (k ∈ ks) then Some None else None.
Proof.
  induction ks as [|x ks IH] using rev_ind; [by rewrite decide_False by set_solver|]. rewrite fmap_app. cbn. rewrite collect_snoc.
  destruct (decide (x = k)) as [->|]; [rewrite lookup_insert_eq, decide_True by set_solver; done|].
  rewrite lookup_insert_ne, IH by done. repeat case_decide; try done; exfalso; set_solver.
Qed.

Lemma collect_reorg ks (l : list (K * V)) k : collect (reorg ks l) !! k =
  match collect l !! k with Some v => Some (Some v) | None => if decide (k ∈ ks) then Some None else None end.
Proof. unfold reorg. rewrite collect_app, collect_enacted, collect_retracted. by destruct (collect l !! k). Qed.

(** A table that indexes [p ++ k1] indexes [p ++ k2] after the update. *)
Lemma index_reorg (m : gmap K V) (p k1 k2 : list (K * V)) ks :
  (forall k v, m !! k = Some v <-> (k, v) ∈ p ++ k1) -> NoDup (p ++ k1).*1 -> NoDup (p ++ k2).*1 ->
  (forall k, k ∈ ks <-> k ∈ k1.*1) ->
  forall k v, overlay (collect (reorg ks k2)) m !! k = Some v <-> (k, v) ∈ p ++ k2.
Proof.
  intros Hm Hn1 Hn2 Hks k v. rewrite lookup_overlay, collect_reorg.
  rewrite !fmap_app, !NoDup_app in *. destruct Hn1 as (Hp & Hp1 & Hk1), Hn2 as (_ & Hp2 & Hk2).
  rewrite elem_of_app. destruct (collect k2 !! k) as [v'|] eqn:Hc.
  - apply (collect_NoDup _ _ _ Hk2) in Hc. split.
    + intros Hv. simplify_eq. by right.
    + intros [Hv|Hv].
      * destruct (Hp2 k); [by apply (list_elem_of_fmap_2 fst p (k, v))|by apply (list_elem_of_fmap_2 fst k2 (k, v'))].
      * apply (collect_NoDup _ _ _ Hk2) in Hv, Hc. congruence.
  - apply collect_None in Hc.
    assert (Hno : (k, v) ∉ k2) by (intros Hv; apply Hc; by apply (list_elem_of_fmap_2 fst k2 (k, v))).
    case_decide as Hin; rewrite ?Hks in Hin.
    + split; [done|]. intros [Hv|Hv]; [|done]. destruct (Hp1 k); [by apply (list_elem_of_fmap_2 fst p (k, v))|done].
    + rewrite Hm, elem_of_app. split; [|tauto]. intros [Hv|Hv]; [by left|].
      destruct Hin. by apply (list_elem_of_fmap_2 fst k1 (k, v)).
Qed.
End Index.

Lemma lookup_foldr_delete (ks : list Z) (m : gmap Z Z) k : foldr delete m ks !! k = if decide (k ∈ ks) then None else m !! k.
Proof.
  induction ks as [|x ks IH]; cbn [foldr]; [by rewrite decide_False by set_solver|]. destruct (decide (k = x)) as [->|Hne].
  - by rewrite lookup_delete_eq, decide_True by left.
  - rewrite lookup_delete_ne, IH by done. repeat case_decide; try done; exfalso; set_solver.
Qed.

Lemma collect_repeated n (r v : Z) k : collect (replicate n (r, v)) !! k = if decide (k = r /\ n <> 0%nat) then Some v else None.
Proof.
  induction n as [|n IH]; [rewrite decide_False by tauto; apply lookup_empty|].
  rewrite replicate_S_end, collect_snoc. destruct (decide (r = k)) as [->|Hne].
  - by rewrite lookup_insert_eq, decide_True by lia.
  - rewrite lookup_insert_ne, IH by done. rewrite !decide_False by naive_solver. done.
Qed.

(** ** Committing *)

Lemma cached_id `{Countable K} {V} (db cache : gmap K V) k : coherent id db cache -> cached db cache k k = db !! k.
Proof. exact (coherent_cached id db cache k). Qed.

Lemma lookup_commit_option {V} (p : gmap Z (option V)) (cache : gmap Z V) k :
  commit_option p cache !! k = match p !! k with Some o => o | None => cache !! k end.
Proof.
  unfold commit_option. rewrite foldl_delete_pairs, lookup_union, lookup_omap.
  assert (Hin : k ∈ (filter (fun kv => kv.2 = None) (map_to_list p)).*1 <-> p !! k = Some None).
  { rewrite list_elem_of_fmap. setoid_rewrite list_elem_of_filter. split.
    - intros ([k' o] & -> & Ho & Hkv%elem_of_map_to_list). cbn in *. congruence.
    - intros Hk. exists (k, None). split_and!; [done|done|]. by apply elem_of_map_to_list. }
  case_decide as Hd; rewrite Hin in Hd; [by rewrite Hd|].
  destruct (p !! k) as [[v|]|]; cbn; [by destruct (cache !! k)|done|by destruct (cache !! k)].
Qed.

Lemma coherent_option {V} (u : gmap Z (option V)) (db cache : gmap Z V) :
  coherent id db cache -> coherent id (overlay u db) (commit_option u cache).
Proof. intros Hc k v. change (id k) with k. rewrite lookup_commit_option, lookup_overlay. destruct (u !! k); [done|apply Hc]. Qed.

Lemma coherent_union {V} (u db cache : gmap Z V) : coherent id db cache -> coherent id (u ∪ db) (u ∪ cache).
Proof.
  intros Hc k v. change (id k) with k. rewrite !lookup_union. destruct (u !! k) as [a|]; cbn.
  - by destruct (cache !! k), (db !! k).
  - intros Hv. assert (Hv' : cache !! k = Some v) by (by destruct (cache !! k)). apply Hc in Hv'. change (id k) with k in Hv'.
    by rewrite Hv'.
Qed.

Lemma coherent_empty {V} f (db : gmap Z V) : coherent f db ∅.
Proof. intros k v. by rewrite lookup_empty. Qed.

Lemma coherent_refl {V} (db : gmap Z V) : coherent id db db.
Proof. by intros k v. Qed.

Lemma coherent_insert {V} k v (db cache : gmap Z V) : coherent id db cache -> db !! k = None -> coherent id (<[k := v]> db) cache.
Proof.
  intros Hc Hk k' v' Hv. change (id k') with k'. rewrite lookup_insert_ne; [by apply Hc|]. intros <-.
  apply Hc in Hv. change (id k) with k in Hv. congruence.
Qed.

Lemma coherent_forget {V} (u db cache : gmap Z V) : coherent id db cache -> coherent id (u ∪ db) (cache ∖ u).
Proof.
  intros Hc k v [Hv Hu]%lookup_difference_Some. apply Hc in Hv. change (id k) with k in Hv |- *.
  by rewrite lookup_union, Hu, (left_id_L None _).
Qed.

Lemma lookup_union_or {V} (u m : gmap Z V) k : (u ∪ m) !! k = match u !! k with Some v => Some v | None => m !! k end.
Proof. rewrite lookup_union. by destruct (u !! k), (m !! k). Qed.

(** ** Numbers below 2^32 are their own keys *)

Definition small (n : Z) : Prop := 0 <= n < 2 ^ 32.

Lemma number_key_small n : small n -> number_key n = n.
Proof. intros. by apply Z.mod_small. Qed.

Lemma number_keys_small (m : gmap Z Z) : (forall k, is_Some (m !! k) -> small k) -> number_keys m = m.
Proof.
  intros Hm. unfold number_keys, kmap. rewrite <- (list_to_map_to_list m) at 2. f_equal.
  rewrite <- (list_fmap_id (map_to_list m)) at 2. apply list_fmap_ext. intros i [k v] Hkv. cbn.
  rewrite number_key_small; [done|]. apply Hm. apply list_elem_of_lookup_2, elem_of_map_to_list in Hkv. eauto.
Qed.

Lemma coherent_numbers (u db cache : gmap Z Z) : (forall k, is_Some (u !! k) -> small k) ->
  (forall k, is_Some (cache !! k) -> small k) -> coherent number_key db cache ->
  coherent number_key (number_keys u ∪ db) (u ∪ cache) /\ (forall k, is_Some ((u ∪ cache) !! k) -> small k).
Proof.
  intros Hu Hs Hc. rewrite number_keys_small by done.
  assert (Hs' : forall k, is_Some ((u ∪ cache) !! k) -> small k).
  { intros k. rewrite lookup_union_or. destruct (u !! k) eqn:Hk; [intros _; apply Hu; eauto|apply Hs]. }
  split; [|done]. intros k v Hv. rewrite number_key_small by eauto. rewrite lookup_union_or in Hv |- *.
  destruct (u !! k) eqn:Hk; [done|]. rewrite <- (number_key_small k) by eauto. auto.
Qed.
