(* ===== verification/ChainInvariant.v ===== *)
(** * The invariant of the block chain

    The abstract chain is a set of known blocks that form a tree, with the branch of the best
    block as the canonical chain. [chain_ok] relates the tables, caches and pending updates
    of the implementation to it. *)

From stdpp Require Import base numbers option strings gmap list.
From S2P Require Import Prelude Serialize MerkleTree MerkleProofs Transaction Substate Blocks Rewards Sapling Wallet WalletProofs ChainStore BlockChain ChainTree ChainTables.

Open Scope Z_scope.

(** ** What is indexed of a chain of blocks *)

Fixpoint addresses_at (hash i : Z) (hashes : list Z) : list (Z * TransactionAddress) :=
  match hashes with [] => [] | h :: hashes => (h, mkAddress hash i) :: addresses_at hash (i + 1) hashes end.

Definition block_addresses (b : Block) : list (Z * TransactionAddress) :=
  addresses_at (b_hash b) 0 (transaction_hashes (b_body b)).

Definition chain_addresses (l : list Block) : list (Z * TransactionAddress) := mjoin (block_addresses <$> l).

(** The nullifiers that a block spends, each with its transaction. *)
Definition block_nullifiers (b : Block) : list (Z * Z) :=
  mjoin ((fun tx => (fun n => (n, lt_hash tx)) <$> get_nullifier_set (lt_unsigned tx)) <$> localized_private_txs b).

Definition chain_nullifiers (l : list Block) : list (Z * Z) := mjoin (block_nullifiers <$> l).

Definition total_difficulty (l : list Block) : Z := foldr (fun b s => h_difficulty (b_header b) + s) 0 l.

Lemma chain_addresses_app l k : chain_addresses (l ++ k) = chain_addresses l ++ chain_addresses k.
Proof. unfold chain_addresses. by rewrite fmap_app, join_app. Qed.

Lemma chain_nullifiers_app l k : chain_nullifiers (l ++ k) = chain_nullifiers l ++ chain_nullifiers k.
Proof. unfold chain_nullifiers. by rewrite fmap_app, join_app. Qed.

Lemma total_difficulty_app l k : total_difficulty (l ++ k) = total_difficulty l + total_difficulty k.
Proof. unfold total_difficulty. induction l as [|b l IH]; cbn [app foldr]; lia. Qed.

(** ** The tables of numbers and of roots *)

(** The table of numbers leads to the blocks of [N]. *)
Definition numbered (N : list Block) (m : gmap Z Z) : Prop :=
  forall k, m !! k = if 0 <=? k then b_hash <$> N !! Z.to_nat k else None.

(** The number of blocks that two chains share at their beginning. *)
Fixpoint shared (l k : list Block) : nat :=
  match l, k with
  | x :: l, y :: k => if b_hash x =? b_hash y then S (shared l k) else 0
  | _, _ => 0
  end.

(** The branches of the blocks of [l] from the [n]-th on. *)
Definition branches_from (n : nat) (l : list Block) : list (list Block) := (fun i => take (S i) l) <$> seq n (length l - n).

Section Roots.
Context {MH : MerkleHash}.

(** The root of the commitment tree of the last block of a branch. *)
Definition branch_root (l : list Block) : Z := merkle_root 32 (chain_notes l).

(** The recorded roots after [b], on the branch [lp], took over from the chain [l]: the roots
    of retracted blocks are removed; if known blocks are enacted, the root of the parent of
    [b] is recorded, and so is that of [b], both with the hash of [b]. *)
Definition anchored (b : Block) (l lp : list Block) (A : gmap Z Z) : gmap Z Z :=
  let n := shared l lp in
  let A := foldr delete A (branch_root <$> branches_from n l) in
  let A := if (n <? length lp)%nat then <[branch_root lp := b_hash b]> A else A in
  <[branch_root (lp ++ [b]) := b_hash b]> A.
End Roots.

(** ** The contract of the wallet *)

Class WalletLaws {MH : MerkleHash} (W : Type) {WO : WalletOps W} : Type := {
  wl_follows : W -> list Block -> Prop;
  wl_admissible : W -> list Block -> Prop;
  (* the keys are the same *)
  wl_same : W -> W -> Prop;
  wl_same_spec w w' : wl_same w w' ->
    wo_list_addresses w' = wo_list_addresses w /\ forall l, wl_admissible w' l <-> wl_admissible w l;
  wl_same_trans w w' w'' : wl_same w w' -> wl_same w' w'' -> wl_same w w'';
  wl_same_refl w : wl_same w w;
  wl_sync w l b tree : wl_follows w l -> tree_rep tree (chain_notes l) -> wl_admissible w (l ++ [b]) ->
    exists w', wo_sync_new_block tree b w = Some w' /\ wl_follows w' (l ++ [b]) /\ wl_same w w';
  wl_retract w l k hs : wl_follows w (l ++ k) -> (forall h, h ∈ hs <-> h ∈ private_hashes k) ->
    (forall h, h ∈ private_hashes l -> h ∉ private_hashes k) ->
    wl_follows (wo_remove_retracted_txs hs w) l /\ wl_same w (wo_remove_retracted_txs hs w);
}.

Section Invariant.
Context {MH : MerkleHash} {W : Type} {WO : WalletOps W} {WL : WalletLaws W}.

(** ** Branches that can become the canonical chain *)

Record good_branch (config : RewardConfig) (w : W) (l : list Block) : Prop := {
  gb_small : zlen l <= 2 ^ 32;
  gb_txs : NoDup (chain_addresses l).*1;
  gb_nullifiers : NoDup (chain_nullifiers l).*1;
  gb_difficulty : total_difficulty l < U256_MOD;
  gb_notes : zlen (chain_notes l) <= 2 ^ 32 /\ Forall is_u256 (chain_notes l);
  gb_rewards : exists r0 r, genesis_rewards config = Some r0 /\ enact_rewards config r0 (tail l) = Some r /\
    mining_goes_on config r0 (tail l);
  gb_wallet : wl_admissible w l;
}.

Record genesis_ok (g : Block) (B : gmap Z Block) : Prop := {
  go_number : b_number g = 0;
  go_transactions : b_transactions (b_body g) = [];
  go_bloom : h_log_bloom (b_header g) = 0;
  go_known : B !! b_hash g = Some g;
  go_parent : B !! b_parent_hash g = None;
  go_hash : b_hash g <> 0;
}.

(** ** The disk *)

Record details_for (g : Block) (B : gmap Z Block) (h : Z) (b : Block) (d : BlockDetails) : Prop := {
  df_number : bd_number d = b_number b;
  df_parent : bd_parent d = b_parent_hash b;
  df_difficulty : forall l, branch g B h l -> bd_total_difficulty d = total_difficulty l;
  df_children : forall x, x ∈ bd_children d <-> exists bx, B !! x = Some bx /\ b_parent_hash bx = h /\ x <> b_hash g;
  df_distinct : NoDup (bd_children d);
}.

(** The disk [d] has the blocks [B], their receipts [R], and the canonical chain [l]. *)
Record disk_ok (g : Block) (B : gmap Z Block) (R : gmap Z (list Receipt)) (l : list Block) (d : Disk) : Prop := {
  do_details : forall h, match B !! h with
                         | Some b => exists bd, t_details (dk_tables d) !! h = Some bd /\ details_for g B h b bd
                         | None => t_details (dk_tables d) !! h = None
                         end;
  do_blocks : forall h b, B !! h = Some b ->
    t_headers (dk_tables d) !! h = Some (b_header b) /\ t_bodies (dk_tables d) !! h = Some (b_body b);
  do_blocks_only : forall h, B !! h = None -> t_headers (dk_tables d) !! h = None /\ t_bodies (dk_tables d) !! h = None;
  do_hashes : forall n b, l !! n = Some b -> t_hashes (dk_tables d) !! Z.of_nat n = Some (b_hash b);
  do_txs : forall h a, t_txs (dk_tables d) !! h = Some a <-> (h, a) ∈ chain_addresses l;
  do_nullifiers : forall x h, t_nullifiers (dk_tables d) !! x = Some h <-> (x, h) ∈ chain_nullifiers l;
  do_sers : forall h k, branch g B h k ->
    exists t, t_sers (dk_tables d) !! h = Some (ser_new t) /\ tree_rep t (chain_notes k);
  do_sers_only : forall h, B !! h = None -> t_sers (dk_tables d) !! h = None;
  do_root : forall h, b_hash <$> last l = Some h -> t_roots (dk_tables d) !! merkle_root 32 (chain_notes l) = Some h;
  do_receipts : t_receipts (dk_tables d) = R;
  do_blooms : forall n b, l !! n = Some b -> h_log_bloom (b_header b) <> 0 ->
    dk_blooms d !! Z.of_nat n = Some (h_log_bloom (b_header b));
  do_best : dk_best d = b_hash <$> last l;
  do_ordered : dk_ancient d = None /\ dk_first d = None;
}.

(** ** The whole chain *)

Record caches_ok (s d : Store) : Prop := {
  co_headers : coherent id (t_headers d) (t_headers s);
  co_bodies : coherent id (t_bodies d) (t_bodies s);
  co_details : coherent id (t_details d) (t_details s);
  co_hashes : coherent number_key (t_hashes d) (t_hashes s);
  co_small : forall n, is_Some (t_hashes s !! n) -> small n;
  co_sers : coherent id (t_sers d) (t_sers s);
  co_receipts : coherent id (t_receipts d) (t_receipts s);
  co_txs : coherent id (t_txs d) (t_txs s);
  co_nullifiers : coherent id (t_nullifiers d) (t_nullifiers s);
  co_roots : coherent id (t_roots d) (t_roots s);
}.

Definition no_pending (c : BlockChain (W := W)) : Prop :=
  bc_pending c = no_tables /\ bc_pending_best_ancient_block c = None /\ bc_pending_best_block c = None /\
  bc_pending_wallet_addresses c = None /\ bc_pending_rewards c = None.

Record chain_ok (g : Block) (B : gmap Z Block) (R : gmap Z (list Receipt)) (l : list Block) (c : BlockChain (W := W)) : Prop := {
  ok_config : config_ok (bc_reward_config c);
  ok_genesis : genesis_ok g B;
  ok_tree : forall h b, B !! h = Some b -> exists k, branch g B h k;
  ok_good : forall h k, branch g B h k -> good_branch (bc_reward_config c) (bc_wallet c) k;
  ok_canon : branch g B (best_block_hash c) l;
  ok_best : last l = Some (be_block (bc_best_block c));
  ok_difficulty : be_total_difficulty (bc_best_block c) = total_difficulty l;
  ok_disk : disk_ok g B R l (bc_disk c);
  ok_caches : caches_ok (bc_caches c) (dk_tables (bc_disk c));
  ok_pending : no_pending c;
  ok_rewards : exists r0, genesis_rewards (bc_reward_config c) = Some r0 /\
    enact_rewards (bc_reward_config c) r0 (tail l) = Some (bc_rewards c) /\ dk_rewards (bc_disk c) = Some (bc_rewards c);
  ok_wallet : wl_follows (bc_wallet c) l;
  ok_handled : (forall a, a ∈ wo_list_addresses (bc_wallet c) -> a ∈ bc_wallet_addresses c) \/ l = [g];
}.

(** The table of numbers leads to the known blocks of [N], the first of which are the
    canonical chain [l], and the table of roots is [A]. *)
Record indexed (B : gmap Z Block) (l N : list Block) (A : gmap Z Z) (c : BlockChain (W := W)) : Prop := {
  ix_prefix : l `prefix_of` N;
  ix_blocks : forall n b, N !! n = Some b -> B !! b_hash b = Some b /\ b_number b = Z.of_nat n;
  ix_numbers : numbered N (t_hashes (dk_tables (bc_disk c)));
  ix_roots : t_roots (dk_tables (bc_disk c)) = A;
}.
End Invariant.
