(* ===== verification/ChainUpdates.v ===== *)
(** * The updates of an insertion

    What the functions of [BlockChain] that prepare an insertion compute, in terms of the
    tree of blocks. The lemmas need only the views of the chain ([views_ok]), which the
    changes to the wallet in between do not affect. *)

From stdpp Require Import base numbers option strings gmap list.
From S2P Require Import Prelude Serialize MerkleTree MerkleProofs Transaction Substate Blocks Rewards Sapling Wallet WalletProofs ChainStore BlockChain ChainTree ChainTables ChainInvariant.

Open Scope Z_scope.

Section Updates.
Context {MH : MerkleHash} {W : Type} {WO : WalletOps W} {WL : WalletLaws W}.
Context (hash_u256 : forall d a b, is_u256 (merkle_hash d a b)).

(** What is read of the chain. *)
Record views_ok (g : Block) (B : gmap Z Block) (c : BlockChain (W := W)) : Prop := {
  vo_details : forall h, match B !! h with
                         | Some b => exists d, block_details c h = Some d /\ details_for g B h b d
                         | None => block_details c h = None
                         end;
  vo_blocks : forall h b, B !! h = Some b -> block_header_data c h = Some (b_header b) /\ block_body c h = Some (b_body b);
  vo_sers : forall h k, branch g B h k -> exists t, block_commitment_ser c h = Some (ser_new t) /\ tree_rep t (chain_notes k);
  vo_good : forall h k, branch g B h k -> zlen (chain_notes k) <= 2 ^ 32 /\ Forall is_u256 (chain_notes k);
}.

Lemma chain_views g B R l c : chain_ok g B R l c -> views_ok g B c.
Proof.
  intros Hok. destruct (ok_disk _ _ _ _ _ Hok) as [Hd Hb _ _ _ _ Hs _ _ _ _ _ _]. pose proof (ok_caches _ _ _ _ _ Hok) as Hc.
  split.
  - intros h. specialize (Hd h). unfold block_details. by rewrite cached_id by apply Hc.
  - intros h b Hh. destruct (Hb h b Hh) as [Hh1 Hb1]. unfold block_header_data, block_body.
    assert (Hbest : best_block_hash c = h -> be_block (bc_best_block c) = b).
    { intros <-. destruct (branch_last _ _ _ _ (ok_canon _ _ _ _ _ Hok)) as (b' & l' & -> & Hb' & Hl).
      pose proof (ok_best _ _ _ _ _ Hok) as Hlast. rewrite last_snoc in Hlast. congruence. }
    split.
    + destruct (t_headers (bc_caches c) !! h) as [x|] eqn:Hx; [apply Hc in Hx; cbn in Hx; congruence|].
      destruct (best_block_hash c =? h) eqn:He; [|done]. apply Z.eqb_eq in He. by rewrite Hbest.
    + destruct (t_bodies (bc_caches c) !! h) as [x|] eqn:Hx; [apply Hc in Hx; cbn in Hx; congruence|].
      destruct (best_block_hash c =? h) eqn:He; [|done]. apply Z.eqb_eq in He. by rewrite Hbest.
  - intros h k Hk. destruct (Hs h k Hk) as (t & Ht & Hrep). exists t. unfold block_commitment_ser.
    by rewrite cached_id by apply Hc.
  - intros h k Hk. apply (ok_good _ _ _ _ _ Hok) in Hk. apply Hk.
Qed.

Section Prepare.
Context (g : Block) (B : gmap Z Block) (c : BlockChain (W := W)) (Hv : views_ok g B c).

Lemma view_block h b : B !! h = Some b -> block_of c h = Some b.
Proof. intros Hb. destruct (vo_blocks _ _ _ Hv _ _ Hb) as [Hh Hbd]. unfold block_of. rewrite Hh, Hbd. by destruct b. Qed.

Lemma view_number h b : B !! h = Some b -> block_number c h = Some (b_number b).
Proof. intros Hb. destruct (vo_blocks _ _ _ Hv _ _ Hb) as [Hh _]. unfold block_number. by rewrite Hh. Qed.

(** Blocks that are known by their own hash. *)
Definition known (k : list Block) : Prop := Forall (fun b => B !! b_hash b = Some b) k.

Lemma blocks_of_known k : known k -> blocks_of c (b_hash <$> k) = Some k.
Proof. induction 1 as [|b k Hb Hk IH]; [done|]. cbn. by rewrite (view_block _ _ Hb), IH. Qed.

Lemma flat_map_bodies_known {A} (f : Z -> Body -> list A) k : known k ->
  flat_map_bodies c f (b_hash <$> k) = Some (mjoin ((fun b => f (b_hash b) (b_body b)) <$> k)).
Proof.
  induction 1 as [|b k Hb Hk IH]; [done|]. cbn. destruct (vo_blocks _ _ _ Hv _ _ Hb) as [_ Hbd]. by rewrite Hbd, IH.
Qed.

Lemma header_blooms_known k : known k -> header_blooms c (b_hash <$> k) = Some ((fun b => h_log_bloom (b_header b)) <$> k).
Proof. induction 1 as [|b k Hb Hk IH]; [done|]. cbn. destruct (vo_blocks _ _ _ Hv _ _ Hb) as [Hh _]. by rewrite Hh, IH. Qed.

Lemma retracted_hashes_known k : known k -> retracted_tx_hashes c (b_hash <$> k) = private_hashes k.
Proof.
  unfold retracted_tx_hashes, private_hashes. intros Hk. f_equal.
  induction Hk as [|b k Hb Hk IH]; [done|]. by rewrite !fmap_cons, (view_block _ _ Hb), IH.
Qed.

(** ** Where the new block goes *)

(** The new block [b] has the branch [lp] of its parent below it; [l] is the canonical chain
    before, and the second argument the one after. *)
Inductive located (b : Block) (l lp : list Block) : BlockLocation -> list Block -> Prop :=
| located_branch : located b l lp Branch l
| located_canon : l = lp -> located b l lp CanonChain (lp ++ [b])
| located_fork p x k1 k2 : l = (p ++ [x]) ++ k1 -> lp = (p ++ [x]) ++ k2 -> parts k1 k2 ->
    located b l lp (BranchBecomingCanonChain (mkBranchData (b_hash x) (b_hash <$> k2) (b_hash <$> rev k1))) (lp ++ [b]).

Definition chosen (choice : ForkChoice) (b : Block) (l lp : list Block) : list Block :=
  match choice with ForkNew => lp ++ [b] | ForkOld => l end.

Context (b : Block) (h : Z) (l lp : list Block).
Context (genesis_number : b_number g = 0) (Hl : branch g B h l) (Hlp : branch g B (b_parent_hash b) lp).
Context (Hnumber : b_number b = zlen lp).

Lemma block_info_ok extras : total_difficulty (lp ++ [b]) < U256_MOD ->
  exists route loc, tree_route c h (b_parent_hash b) = Some (Some route) /\
    block_info c (b_header b) route extras = Some (mkInfo (b_hash b) (b_number b) (total_difficulty (lp ++ [b])) loc) /\
    located b l lp loc (chosen (ei_fork_choice extras) b l lp).
Proof.
  intros Htd. destruct (branch_fork _ _ _ _ _ _ Hl Hlp) as (p & x & k1 & k2 & El & Elp & Hp).
  assert (Hr := tree_route_ok g B c genesis_number). rewrite El in Hl. rewrite Elp in Hlp.
  eexists _, _. split.
  { eapply Hr; [|exact Hl|exact Hlp|done]. intros h' b' Hb'. pose proof (vo_details _ _ _ Hv h') as Hd. rewrite Hb' in Hd.
    destruct Hd as (d & Hd & Hf). exists d. split; [done|]. split; apply Hf. }
  pose proof Hlp as (y & q & Eq & Hy & HB)%branch_last. pose proof (vo_details _ _ _ Hv (b_parent_hash b)) as Hd.
  rewrite HB in Hd. destruct Hd as (d & Hd & Hf). unfold block_info. unfold b_parent_hash in Hd. rewrite Hd. cbn [mbind option_bind].
  rewrite (df_difficulty _ _ _ _ _ Hf _ Hlp), <- Elp. rewrite total_difficulty_app in Htd |- *. cbn in Htd |- *.
  rewrite u256_add_some by lia. cbn [mbind option_bind]. rewrite Z.add_0_r. split; [done|]. cbn.
  unfold chosen. destruct (ei_fork_choice extras); [|constructor].
  assert (Hlen : length (b_hash <$> rev k1) = length k1) by (by rewrite length_fmap, length_rev).
  destruct ((b_hash <$> rev k1) ++ (b_hash <$> k2)) as [|z zs] eqn:Hz.
  - apply app_eq_nil in Hz as [Hz1 Hz2]. apply fmap_nil_inv in Hz2 as ->. apply fmap_nil_inv in Hz1.
    apply (f_equal (@rev Block)) in Hz1. rewrite rev_involutive in Hz1. cbn in Hz1. subst k1. constructor. congruence.
  - rewrite <- Hz, <- Hlen, take_app_length, drop_app_length. by eapply located_fork.
Qed.

(** *** The numbers *)

Lemma number_blocks_snoc start hs x : number_blocks start (hs ++ [x]) = number_blocks start hs ++ [(start + zlen hs, x)].
Proof.
  revert start. induction hs as [|y hs IH]; intros start; cbn; [by rewrite zlen_nil, Z.add_0_r|].
  rewrite IH, zlen_cons. do 4 f_equal. lia.
Qed.

Lemma number_blocks_lookup start hs k :
  collect (number_blocks start hs) !! k = if start <=? k then hs !! Z.to_nat (k - start) else None.
Proof.
  induction hs as [|x hs IH] using rev_ind; [cbn; rewrite lookup_empty; by case_bool|].
  rewrite number_blocks_snoc, collect_snoc. unfold zlen. destruct (decide (start + Z.of_nat (length hs) = k)) as [<-|Hne].
  - rewrite lookup_insert_eq, (proj2 (Z.leb_le _ _)) by lia.
    replace (Z.to_nat _) with (length hs) by lia. by rewrite list_lookup_middle.
  - rewrite lookup_insert_ne, IH by done. case_bool; [|done].
    destruct (decide (Z.to_nat (k - start) < length hs)%nat); [by rewrite lookup_app_l|].
    rewrite !lookup_ge_None_2; [done|rewrite length_app; cbn|]; lia.
Qed.

(** The ancestor of a fork. *)
Lemma fork_ancestor p x k1 : l = (p ++ [x]) ++ k1 -> B !! b_hash x = Some x /\ b_number x = zlen p.
Proof.
  intros ->. assert (Hx : ((p ++ [x]) ++ k1) !! length p = Some x) by (rewrite <- app_assoc; by apply list_lookup_middle).
  split; [by apply (branch_lookup _ _ _ _ _ _ Hl Hx)|by rewrite (branch_number _ _ _ _ _ _ genesis_number Hl Hx)].
Qed.

(** What the update has at the number [k]: the blocks of the new chain from some number on. *)
Lemma hashes_update_blocks loc l' td : located b l lp loc l' ->
  exists u, prepare_block_hashes_update c (mkInfo (b_hash b) (b_number b) td loc) = Some u /\
    exists start, 0 <= start /\ (forall k, u !! k = if start <=? k then b_hash <$> l' !! Z.to_nat k else None) /\
      forall n, Z.of_nat n < start -> l' !! n = l !! n.
Proof.
  intros Hloc. unfold prepare_block_hashes_update. cbn [bi_location bi_number bi_hash].
  pose proof (zlen_nonneg lp) as H0. destruct Hloc as [|Heq|p x k1 k2 El Elp].
  - exists ∅. split; [done|]. exists (zlen l). split_and!; [apply zlen_nonneg| |done].
    intros k. rewrite lookup_empty. case_bool; [|done]. unfold zlen in *. by rewrite lookup_ge_None_2 by lia.
  - eexists. split; [done|]. exists (zlen lp). split_and!; [done| |].
    + intros k. rewrite Hnumber. unfold zlen. destruct (decide (Z.of_nat (length lp) = k)) as [<-|Hne].
      * rewrite lookup_singleton_eq, Z.leb_refl, Nat2Z.id, list_lookup_middle; done.
      * rewrite lookup_singleton_ne by done. case_bool; [|done]. by rewrite lookup_ge_None_2 by (rewrite length_app; cbn; lia).
    + intros n Hn. unfold zlen in Hn. rewrite lookup_app_l by lia. by rewrite Heq.
  - destruct (fork_ancestor _ _ _ El) as [Hx Hnx]. cbn [br_ancestor br_enacted]. rewrite (view_number _ _ Hx), Hnx.
    cbn [mbind option_bind]. eexists. split; [done|]. exists (zlen (p ++ [x])). split_and!; [apply zlen_nonneg| |].
    + intros k. rewrite Hnumber, Elp, zlen_app, zlen_app, zlen_cons, zlen_nil, Z.add_0_r.
      replace (zlen k2) with (zlen (b_hash <$> k2)) by (unfold zlen; by rewrite length_fmap).
      rewrite <- collect_snoc, <- number_blocks_snoc, number_blocks_lookup. case_bool; [|done].
      change [b_hash b] with (b_hash <$> [b]). rewrite <- fmap_app, list_lookup_fmap, <- (app_assoc (p ++ [x])). f_equal.
      rewrite (lookup_app_r (p ++ [x])) by (rewrite length_app; unfold zlen in *; cbn; lia). f_equal.
      rewrite length_app. unfold zlen in *. cbn. lia.
    + intros n Hn. unfold zlen in Hn. by rewrite Elp, El, <- (app_assoc (p ++ [x])), !(lookup_app_l (p ++ [x])) by lia.
Qed.

Lemma hashes_update_ok loc l' td (m : gmap Z Z) : located b l lp loc l' -> zlen l' <= 2 ^ 32 ->
  (forall n b', l !! n = Some b' -> m !! Z.of_nat n = Some (b_hash b')) ->
  exists u, prepare_block_hashes_update c (mkInfo (b_hash b) (b_number b) td loc) = Some u /\
    (forall k, is_Some (u !! k) -> small k) /\
    (forall n b', l' !! n = Some b' -> (u ∪ m) !! Z.of_nat n = Some (b_hash b')) /\
    forall N, l `prefix_of` N -> numbered N m -> numbered (l' ++ drop (length l') N) (u ∪ m).
Proof.
  intros Hloc Hs Hm. destruct (hashes_update_blocks _ _ td Hloc) as (u & Hu & start & H0 & Hlook & Hlow).
  exists u. split_and!; [done| | |].
  - intros k. rewrite Hlook. case_bool; [|by intros [? ?]]. intros (b' & Hb')%fmap_is_Some.
    apply lookup_lt_Some in Hb'. unfold small, zlen in *. lia.
  - intros n b' Hb'. rewrite lookup_union_or, Hlook, Nat2Z.id, Hb'. case_bool; [done|]. apply Hm. rewrite <- Hlow; [done|lia].
  - intros N [rest ->] HN k. rewrite lookup_union_or, Hlook, (HN k).
    destruct (Z.leb_spec 0 k) as [Hk|Hk]; [|by rewrite (proj2 (Z.leb_gt _ _)) by lia].
    destruct (l' !! Z.to_nat k) as [y|] eqn:Hy.
    + rewrite (lookup_app_l_Some _ _ _ _ Hy). case_bool; [done|]. rewrite (Hlow (Z.to_nat k)) in Hy by lia.
      by rewrite (lookup_app_l_Some _ _ _ _ Hy).
    + apply lookup_ge_None in Hy. rewrite (lookup_app_r l') by done. rewrite lookup_drop, Nat.add_comm, Nat.sub_add by done. by case_bool.
Qed.

(** *** Indices of what the blocks of the canonical chain have *)

Section Index.
Context {V : Type} (f : Block -> list (Z * V)) (m : gmap Z V).
Context (Hm : forall k v, m !! k = Some v <-> (k, v) ∈ mjoin (f <$> l)).
Context (Hn1 : NoDup (mjoin (f <$> l)).*1) (Hn2 : NoDup (mjoin (f <$> lp ++ [b])).*1).

Definition enact (kvs : list (Z * V)) : list (Z * option V) := (fun kv => (kv.1, Some kv.2)) <$> kvs.

Lemma index_canon : l = lp -> forall k v, overlay (collect (enact (f b))) m !! k = Some v <-> (k, v) ∈ mjoin (f <$> lp ++ [b]).
Proof.
  intros Heq. rewrite Heq in Hm, Hn1. rewrite fmap_app, join_app in Hn2 |- *. change (mjoin (f <$> [b])) with (f b ++ []) in Hn2 |- *.
  rewrite app_nil_r in Hn2 |- *. change (enact (f b)) with (reorg [] (f b)).
  apply (index_reorg m (mjoin (f <$> lp)) [] (f b)); rewrite ?app_nil_r; done.
Qed.

Lemma index_fork p x k1 k2 (retracted enacted : Block -> list (Z * option V)) :
  l = (p ++ [x]) ++ k1 -> lp = (p ++ [x]) ++ k2 ->
  (forall y, retracted y = (fun k => (k, None)) <$> (f y).*1) -> (forall y, enacted y = enact (f y)) ->
  forall k v, overlay (collect (mjoin (retracted <$> rev k1) ++ mjoin (enacted <$> k2) ++ enact (f b))) m !! k = Some v <->
    (k, v) ∈ mjoin (f <$> lp ++ [b]).
Proof.
  intros El Elp Hr He.
  assert (Happ : mjoin (f <$> lp ++ [b]) = mjoin (f <$> p ++ [x]) ++ mjoin (f <$> k2) ++ f b).
  { rewrite Elp, <- (app_assoc (p ++ [x])), (fmap_app f (p ++ [x])), join_app, (fmap_app f k2), join_app.
    change (mjoin (f <$> [b])) with (f b ++ []). by rewrite app_nil_r. }
  rewrite Happ in *. rewrite El, (fmap_app f (p ++ [x])), join_app in Hm, Hn1.
  assert (Hreorg : mjoin (retracted <$> rev k1) ++ mjoin (enacted <$> k2) ++ enact (f b) =
    reorg (mjoin ((fun y => (f y).*1) <$> rev k1)) (mjoin (f <$> k2) ++ f b)).
  { unfold reorg. rewrite fmap_app, !fmap_join, <- !list_fmap_compose.
    f_equal; [|f_equal]; f_equal; apply list_fmap_ext; intros i y _; cbn; auto. }
  rewrite Hreorg. eapply index_reorg; try done. intros k. by rewrite elem_of_join_rev, fmap_join, <- list_fmap_compose.
Qed.
End Index.

Lemma addresses_from_at hash i hs : addresses_from hash i hs = enact (addresses_at hash i hs).
Proof. revert i. induction hs as [|h' hs IH]; intros i; [done|]. cbn. by rewrite IH. Qed.

Lemma addresses_at_keys hash i hs : (addresses_at hash i hs).*1 = hs.
Proof. revert i. induction hs as [|h' hs IH]; intros i; [done|]. cbn. by rewrite IH. Qed.

Lemma known_fork p x k1 k2 : l = (p ++ [x]) ++ k1 -> lp = (p ++ [x]) ++ k2 -> known (rev k1) /\ known k2.
Proof.
  intros El Elp. split; apply Forall_forall; intros y Hy.
  - apply (branch_known _ _ _ _ _ Hl). rewrite El. apply elem_of_app. right. apply list_elem_of_In, in_rev, list_elem_of_In, Hy.
  - apply (branch_known _ _ _ _ _ Hlp). rewrite Elp. apply elem_of_app. by right.
Qed.

Lemma txs_update_ok loc l' td (m : gmap Z TransactionAddress) : located b l lp loc l' ->
  (forall k v, m !! k = Some v <-> (k, v) ∈ chain_addresses l) ->
  NoDup (chain_addresses l).*1 -> NoDup (chain_addresses (lp ++ [b])).*1 ->
  exists u, prepare_transaction_addresses_update c (transaction_hashes (b_body b)) (mkInfo (b_hash b) (b_number b) td loc) = Some u /\
    forall k v, overlay u m !! k = Some v <-> (k, v) ∈ chain_addresses l'.
Proof.
  intros Hloc Hm Hn1 Hn2. unfold prepare_transaction_addresses_update. cbn [bi_location bi_hash].
  destruct Hloc as [|Heq|p x k1 k2 El Elp].
  - exists ∅. split; [done|]. intros k v. by rewrite lookup_overlay, lookup_empty.
  - eexists. split; [done|]. rewrite addresses_from_at. exact (index_canon block_addresses m Hm Hn1 Hn2 Heq).
  - destruct (known_fork _ _ _ _ El Elp) as [Hk1 Hk2]. cbn [br_enacted br_retracted].
    rewrite (flat_map_bodies_known _ _ Hk1), (flat_map_bodies_known _ _ Hk2). cbn [mbind option_bind].
    eexists. split; [done|]. rewrite addresses_from_at. apply (index_fork block_addresses m Hm Hn1 Hn2 p x); try done.
    + intros y. unfold block_addresses. by rewrite addresses_at_keys.
    + intros y. by rewrite addresses_from_at.
Qed.

Lemma nullifiers_enacted txs : tx_nullifiers (fun tx => Some (lt_hash tx)) txs =
  enact (mjoin ((fun tx => (fun n => (n, lt_hash tx)) <$> get_nullifier_set (lt_unsigned tx)) <$> txs)).
Proof.
  unfold tx_nullifiers, enact. rewrite fmap_join, <- list_fmap_compose. f_equal. apply list_fmap_ext. intros i tx _.
  cbn. by rewrite <- list_fmap_compose.
Qed.

Lemma nullifiers_update_ok loc l' td (m : gmap Z Z) : located b l lp loc l' ->
  (forall k v, m !! k = Some v <-> (k, v) ∈ chain_nullifiers l) ->
  NoDup (chain_nullifiers l).*1 -> NoDup (chain_nullifiers (lp ++ [b])).*1 ->
  exists u, prepare_transaction_nullifiers_update c (localized_private_txs b) (mkInfo (b_hash b) (b_number b) td loc) = Some u /\
    forall k v, overlay u m !! k = Some v <-> (k, v) ∈ chain_nullifiers l'.
Proof.
  intros Hloc Hm Hn1 Hn2. unfold prepare_transaction_nullifiers_update. cbn [bi_location bi_hash].
  destruct Hloc as [|Heq|p x k1 k2 El Elp].
  - exists ∅. split; [done|]. intros k v. by rewrite lookup_overlay, lookup_empty.
  - eexists. split; [done|]. rewrite nullifiers_enacted. exact (index_canon block_nullifiers m Hm Hn1 Hn2 Heq).
  - destruct (known_fork _ _ _ _ El Elp) as [Hk1 Hk2]. cbn [br_enacted br_retracted].
    rewrite (flat_map_bodies_known _ _ Hk1), (flat_map_bodies_known _ _ Hk2). cbn [mbind option_bind].
    eexists. split; [done|]. rewrite nullifiers_enacted. apply (index_fork block_nullifiers m Hm Hn1 Hn2 p x); try done.
    + intros y. unfold tx_nullifiers, block_nullifiers, localized_private_txs.
      rewrite !fmap_join, <- !list_fmap_compose. f_equal.
      etransitivity; [apply (private_fmap (fun t => (fun n => (n, None)) <$> get_nullifier_set (ut_unsigned t)))|].
      rewrite <- (private_fmap _ (b_hash y) (b_number y)). apply list_fmap_ext. intros i tx _. cbn.
      by rewrite <- !list_fmap_compose.
    + intros y. rewrite nullifiers_enacted. unfold block_nullifiers, localized_private_txs. do 2 f_equal.
      by rewrite !(private_fmap (fun t => (fun n => (n, ut_hash t)) <$> get_nullifier_set (ut_unsigned t))).
Qed.

(** *** The commitment trees *)

Lemma branch_tree h' k : branch g B h' k -> exists t, block_commitment_ser c h' = Some (ser_new t) /\
  get_commitment_tree (ser_new t) = Some t /\ tree_rep t (chain_notes k) /\ tree_root t = Some (merkle_root 32 (chain_notes k)).
Proof.
  intros Hk. destruct (vo_sers _ _ _ Hv _ _ Hk) as (t & Ht & Hrep). destruct (vo_good _ _ _ Hv _ _ Hk) as [Hz Hu].
  exists t. split_and!; [done| |done|by apply tree_root_rep]. by apply (ser_roundtrip hash_u256 _ (chain_notes k)).
Qed.

Lemma block_tree_ok : zlen (chain_notes (lp ++ [b])) <= 2 ^ 32 ->
  exists ser t, block_commitment_ser c (b_parent_hash b) = Some ser /\
    block_tree ser (localized_private_txs b) = Some t /\ tree_rep t (chain_notes (lp ++ [b])).
Proof.
  intros Hz. destruct (branch_tree _ _ Hlp) as (t & Hser & Hget & Hrep & _). rewrite chain_notes_snoc in Hz |- *.
  destruct (update_tree_rep b t (chain_notes lp) Hrep Hz) as (t' & Ht' & Hrep'). exists (ser_new t), t'.
  unfold block_tree. by rewrite Hget.
Qed.

Lemma branch_member h' k : branch g B h' k -> forall y, y ∈ k -> exists q, branch g B (b_hash y) q.
Proof. intros Hk y (i & Hi)%list_elem_of_lookup_1. destruct (branch_lookup _ _ _ _ _ _ Hk Hi). eauto. Qed.

Lemma enacted_roots_ok ser hash k t r : get_commitment_tree ser = Some t -> tree_root t = Some r ->
  (forall y, y ∈ k -> exists s, block_commitment_ser c (b_hash y) = Some s) ->
  enacted_roots c ser hash (b_hash <$> k) = Some (replicate (length k) (r, Some hash)).
Proof.
  intros Ht Hr Hk. induction k as [|y k IH]; [done|].
  rewrite fmap_cons. cbn [enacted_roots]. destruct (Hk y) as (s & Hs); [left|]. rewrite Hs, Ht. cbn [mbind option_bind]. rewrite Hr.
  cbn [mbind option_bind]. rewrite IH; [done|]. intros z Hz. apply Hk. by right.
Qed.

Lemma retracted_roots_ok k qs : Forall2 (fun y q => branch g B (b_hash y) q) k qs ->
  retracted_roots c (b_hash <$> k) = Some ((fun r => (r, None)) <$> (branch_root <$> qs)).
Proof.
  induction 1 as [|y q k qs Hq _ IH]; [done|]. rewrite fmap_cons. cbn [retracted_roots].
  destruct (branch_tree _ _ Hq) as (t & Hser & Hget & _ & Hroot). rewrite Hser. cbn [mbind option_bind].
  rewrite Hget. cbn [mbind option_bind]. rewrite Hroot. cbn [mbind option_bind]. by rewrite IH.
Qed.

(** The branches of the blocks that a fork retracts. *)
Lemma retracted_branches p k : branch g B h (p ++ k) ->
  Forall2 (fun y q => branch g B (b_hash y) q) k (branches_from (length p) (p ++ k)).
Proof.
  intros Hk. apply Forall2_same_length_lookup_2.
  - unfold branches_from. rewrite length_fmap, length_seq, length_app. lia.
  - intros i y q Hy Hq. unfold branches_from in Hq. apply list_lookup_fmap_Some in Hq as (j & -> & [-> _]%lookup_seq).
    apply (branch_lookup _ _ _ _ _ y Hk). rewrite lookup_app_r by lia. by replace (length p + i - length p)%nat with i by lia.
Qed.

Lemma shared_fork p k1 k2 : branch g B h (p ++ k1) -> branch g B (b_parent_hash b) (p ++ k2) -> parts k1 k2 ->
  shared (p ++ k1) (p ++ k2) = length p.
Proof.
  intros H1 H2 Hp. assert (shared k1 k2 = 0%nat) as H0.
  { destruct k1 as [|y k1], k2 as [|z k2]; [done..|]. cbn [shared]. destruct (Z.eqb_spec (b_hash y) (b_hash z)) as [E|]; [|done].
    pose proof (branch_known _ _ _ _ y H1 ltac:(apply elem_of_app; right; left)) as Hy.
    pose proof (branch_known _ _ _ _ z H2 ltac:(apply elem_of_app; right; left)) as Hz.
    destruct (Hp y); [done|]. cbn. congruence. }
  clear -H0. induction p as [|x p IH]; [done|]. cbn [app shared length]. by rewrite Z.eqb_refl, IH.
Qed.

Lemma roots_update_ok loc l' td (m : gmap Z Z) ser : located b l lp loc l' -> zlen (chain_notes (lp ++ [b])) <= 2 ^ 32 ->
  block_commitment_ser c (b_parent_hash b) = Some ser ->
  exists u, prepare_commitment_root_blocks_update c (Some ser) (localized_private_txs b) (mkInfo (b_hash b) (b_number b) td loc) = Some u /\
    overlay u m = if is_branch loc then m else anchored b l lp m.
Proof.
  clear Hnumber. intros Hloc Hz Hser. destruct (block_tree_ok Hz) as (ser' & t & Hser' & Ht & Hrep). rewrite Hser in Hser'. injection Hser' as <-.
  pose proof (tree_root_rep _ _ Hrep Hz) as Hroot. unfold prepare_commitment_root_blocks_update. cbn [bi_location bi_hash].
  destruct Hloc as [|Heq|p x k1 k2 El Elp Hp].
  - exists ∅. split; [done|]. apply map_eq. intros k. by rewrite lookup_overlay, lookup_empty.
  - rewrite Ht. cbn [mbind option_bind]. rewrite Hroot. cbn [mbind option_bind]. eexists. split; [done|].
    assert (shared l lp = length l) as Hs.
    { rewrite <- Heq. pose proof (shared_fork l [] []) as Hs. rewrite !app_nil_r in Hs. rewrite Hs; [done|done|by rewrite Heq|done]. }
    unfold anchored. rewrite Hs. unfold branches_from. rewrite Nat.sub_diag, (proj2 (Nat.ltb_ge _ _)) by (rewrite Heq; lia). cbn [is_branch].
    apply map_eq. intros k. rewrite lookup_overlay. unfold branch_root. destruct (decide (merkle_root 32 (chain_notes (lp ++ [b])) = k)) as [<-|Hne].
    + by rewrite lookup_singleton_eq, lookup_insert_eq.
    + by rewrite lookup_singleton_ne, lookup_insert_ne.
  - destruct (branch_tree _ _ Hlp) as (t0 & Hser0 & Hget0 & _ & Hroot0). rewrite Hser in Hser0. injection Hser0 as ->.
    rewrite El in Hl. pose proof (shared_fork _ k1 k2 Hl ltac:(by rewrite <- Elp) Hp) as Hs. rewrite <- El, <- Elp in Hs.
    pose proof (Forall2_reverse _ _ _ (retracted_branches _ _ Hl)) as Hrs.
    unfold reverse in Hrs. rewrite <- El, <- !rev_alt in Hrs.
    cbn [br_enacted br_retracted]. rewrite (retracted_roots_ok _ _ Hrs).
    rewrite (enacted_roots_ok (ser_new t0) (b_hash b) k2 t0 _ Hget0 Hroot0).
    2:{ intros y Hy. destruct (branch_member _ _ Hlp y) as (q & Hq); [rewrite Elp; apply elem_of_app; by right|].
        destruct (branch_tree _ _ Hq) as (s & Hs' & _). by eauto. }
    cbn [mbind option_bind]. rewrite Ht. cbn [mbind option_bind]. rewrite Hroot. cbn [mbind option_bind]. eexists. split; [done|].
    cbn [is_branch]. apply map_eq. intros k. fold (branch_root lp) (branch_root (lp ++ [b])) in *.
    set (roots := branch_root <$> rev (branches_from (length (p ++ [x])) l)).
    replace (_ ++ replicate _ _ ++ _) with (reorg roots (replicate (length k2) (branch_root lp, b_hash b) ++ [(branch_root (lp ++ [b]), b_hash b)]))
      by (unfold reorg; rewrite fmap_app, fmap_replicate; done).
    rewrite lookup_overlay, collect_reorg, collect_snoc. unfold anchored. rewrite Hs, lookup_insert, lookup_insert, collect_repeated.
    assert (forall k', k' ∈ roots <-> k' ∈ branch_root <$> branches_from (length (p ++ [x])) l) as Hroots.
    { intros k'. unfold roots. rewrite !list_elem_of_fmap. by setoid_rewrite list_elem_of_In; setoid_rewrite <- in_rev. }
    case_decide; [done|]. rewrite Elp, (length_app (p ++ [x])).
    destruct k2 as [|y k2]; cbn [length].
    + rewrite (proj2 (Nat.ltb_ge _ _)), decide_False, lookup_foldr_delete by lia. 
      repeat case_decide; try done; exfalso; naive_solver.
    + rewrite (proj2 (Nat.ltb_lt _ _)) by lia. rewrite <- Elp, lookup_insert, lookup_foldr_delete. 
      repeat case_decide; try done; exfalso; naive_solver.
Qed.

(** *** The bloom filters *)

Lemma insert_blooms_lookup from blooms m k : insert_blooms from blooms m !! k =
  match (if from <=? k then blooms !! Z.to_nat (k - from) else None) with Some x => Some x | None => m !! k end.
Proof.
  revert from m. induction blooms as [|y blooms IH]; intros from m; cbn [insert_blooms]; [by case_bool|].
  rewrite IH. destruct (decide (from = k)) as [<-|Hne].
  - rewrite lookup_insert_eq, Z.leb_refl, Z.sub_diag. by rewrite (proj2 (Z.leb_gt _ _)) by lia.
  - rewrite lookup_insert_ne by done. destruct (decide (from <= k)) as [Hle|Hgt].
    + rewrite !(proj2 (Z.leb_le _ _)) by lia. by replace (Z.to_nat (k - from)) with (S (Z.to_nat (k - (from + 1)))) by lia.
    + by rewrite !(proj2 (Z.leb_gt _ _)) by lia.
Qed.

Definition write_blooms (u : option (Z * list Z)) (m : gmap Z Z) : gmap Z Z :=
  match u with Some (from, blooms) => insert_blooms from blooms m | None => m end.

Abbreviation bloom y := (h_log_bloom (b_header y)).

Lemma blooms_update_ok loc l' td (m : gmap Z Z) : located b l lp loc l' ->
  (forall n y, l !! n = Some y -> bloom y <> 0 -> m !! Z.of_nat n = Some (bloom y)) ->
  exists u, prepare_block_blooms_update c (bloom b) (mkInfo (b_hash b) (b_number b) td loc) = Some u /\
    forall n y, l' !! n = Some y -> bloom y <> 0 -> write_blooms u m !! Z.of_nat n = Some (bloom y).
Proof.
  intros Hloc Hm. unfold prepare_block_blooms_update. cbn [bi_location bi_number].
  destruct Hloc as [|Heq|p x k1 k2 El Elp].
  - exists None. done.
  - eexists. split; [done|]. intros n y Hy Hne. apply lookup_app_Some in Hy as [Hy|[Hn Hy]].
    + apply lookup_lt_Some in Hy as Hlt. rewrite <- Heq in Hy. specialize (Hm _ _ Hy Hne).
      case_bool; [done|]. cbn [write_blooms]. rewrite insert_blooms_lookup, Hnumber.
      rewrite (proj2 (Z.leb_gt _ _)) by (unfold zlen; lia). done.
    + apply list_lookup_singleton_Some in Hy as [Hn0 <-]. rewrite (proj2 (Z.eqb_neq _ _)) by done. cbn [write_blooms].
      rewrite insert_blooms_lookup, Hnumber. unfold zlen. rewrite (proj2 (Z.leb_le _ _)) by lia.
      by replace (Z.to_nat _) with 0%nat by lia.
  - destruct (known_fork _ _ _ _ El Elp) as [_ Hk2]. destruct (fork_ancestor _ _ _ El) as [Hx Hnx].
    cbn [br_enacted br_ancestor]. rewrite (view_number _ _ Hx), Hnx, (header_blooms_known _ Hk2). cbn [mbind option_bind].
    eexists. split; [done|]. intros n y Hy Hne. cbn [write_blooms]. change [bloom b] with ((fun y => bloom y) <$> [b]).
    rewrite insert_blooms_lookup, <- fmap_app, list_lookup_fmap. rewrite Elp, <- (app_assoc (p ++ [x])) in Hy.
    apply lookup_app_Some in Hy as [Hy|[Hn Hy]].
    + apply lookup_lt_Some in Hy as Hlt. rewrite length_app in Hlt. cbn in Hlt.
      rewrite (proj2 (Z.leb_gt _ _)) by (unfold zlen; lia). apply Hm; [|done]. by rewrite El, lookup_app_l by (rewrite length_app; cbn; lia).
    + rewrite length_app in Hn, Hy. cbn in Hn, Hy. rewrite (proj2 (Z.leb_le _ _)) by (unfold zlen; lia).
      replace (Z.to_nat _) with (n - (length p + 1))%nat by (unfold zlen; lia). by rewrite Hy.
Qed.

(** *** The rewards *)

Lemma branch_consecutive h' k : branch g B h' k -> consecutive 1 (tail k).
Proof.
  intros Hk. assert (H0 : consecutive 0 k).
  { induction Hk as [Hg|h' y k Hp IH Hy Hh Hn Hne]; [done|]. apply consecutive_app. split; [done|]. cbn. split; [lia|done]. }
  destruct k as [|y k]; [done|]. apply H0.
Qed.

Context (Hconfig : config_ok (bc_reward_config c)).

Lemma rewards_update_ok loc l' td r0 r1 : located b l lp loc l' -> genesis_rewards (bc_reward_config c) = Some r0 ->
  enact_rewards (bc_reward_config c) r0 (tail l) = Some (bc_rewards c) -> mining_goes_on (bc_reward_config c) r0 (tail l) ->
  enact_rewards (bc_reward_config c) r0 (tail (lp ++ [b])) = Some r1 ->
  exists u, prepare_rewards_update c (mkInfo (b_hash b) (b_number b) td loc) b = Some u /\
    enact_rewards (bc_reward_config c) r0 (tail l') = Some (match u with Some r => r | None => bc_rewards c end).
Proof.
  intros Hloc Hr0 Hr Hmine Hr1. unfold prepare_rewards_update. cbn [bi_location].
  destruct Hloc as [|Heq|p x k1 k2 El Elp].
  - by exists None.
  - rewrite Heq in Hr.
    assert (Htail : tail (lp ++ [b]) = tail lp ++ [b]) by (destruct lp; [by apply branch_nonempty in Hlp|done]).
    rewrite Htail, enact_rewards_app, Hr in *. cbn in Hr1 |- *.
    destruct (prepare_block_rewards (bc_reward_config c) (bc_rewards c) b false) as [[r u]|] eqn:Hp; [|done]. cbn in Hr1 |- *.
    eexists. split; [done|]. destruct u; [done|]. by apply prepare_unchanged in Hp as ->.
  - destruct (known_fork _ _ _ _ El Elp) as [Hk1 Hk2]. cbn [br_enacted br_retracted]. unfold do_rewards_of_batch_blocks.
    rewrite (blocks_of_known _ Hk1), (blocks_of_known _ Hk2). cbn [mbind option_bind].
    assert (Htail : forall k, tail ((p ++ [x]) ++ k) = tail (p ++ [x]) ++ k) by (by destruct p).
    pose proof (branch_consecutive _ _ Hl) as Hcon. rewrite Elp, <- (app_assoc (p ++ [x])) in Hr1 |- *.
    rewrite El in Hr, Hmine, Hcon. rewrite Htail in Hr, Hmine, Hcon, Hr1 |- *.
    rewrite enact_rewards_app in Hr, Hr1 |- *. apply consecutive_app in Hcon as [Hcon1 Hcon2].
    destruct (enact_rewards (bc_reward_config c) r0 (tail (p ++ [x]))) as [rx|] eqn:Hrx; [|done].
    cbn [mbind option_bind] in Hr, Hr1 |- *. rewrite enact_rewards_app in Hr1 |- *.
    assert (Hfit : rewards_fit (bc_reward_config c) rx (1 + zlen (tail (p ++ [x])))).
    { eapply enact_rewards_fit; [done| |done|done]. by apply genesis_rewards_fit. }
    pose proof (mining_goes_on_app _ _ _ _ _ Hmine Hrx) as Hmine2.
    destruct (retract_blocks _ Hconfig _ _ _ _ false Hfit Hcon2 Hmine2 Hr) as (v & Hv1). rewrite Hv1. cbn [mbind option_bind].
    destruct (enact_rewards (bc_reward_config c) rx k2) as [r2|] eqn:Hr2; [|done]. cbn [mbind option_bind] in Hr1 |- *.
    destruct (do_rewards_enact _ _ _ false _ Hr2) as (v2 & Hv2). rewrite Hv2. cbn [mbind option_bind].
    cbn in Hr1 |- *. destruct (prepare_block_rewards _ r2 b false) as [[r3 v3]|] eqn:Hv3; [|done]. cbn in Hr1 |- *.
    eexists. split; [done|]. destruct (v || v2 || v3) eqn:Hor; [done|].
    apply orb_false_elim in Hor as [[-> ->]%orb_false_elim ->].
    apply prepare_unchanged in Hv3 as ->; [|done]. apply do_rewards_unchanged in Hv2 as ->; [|done].
    by apply do_rewards_unchanged in Hv1 as ->.
Qed.

(** *** The wallet *)

Lemma sync_current_ok w ser : block_commitment_ser c (b_parent_hash b) = Some ser -> wl_follows w lp -> wl_admissible w (lp ++ [b]) ->
  exists w', sync_current (Some ser) b w = Some w' /\ wl_follows w' (lp ++ [b]) /\ wl_same w w'.
Proof.
  intros Hser Hw Ha. destruct (branch_tree _ _ Hlp) as (t & Hser' & Hget & Hrep & _). rewrite Hser in Hser'. injection Hser' as ->.
  unfold sync_current. rewrite Hget. by apply wl_sync.
Qed.

Lemma sync_enacted_ok w p x k h' : branch g B h' ((p ++ [x]) ++ k) -> wl_follows w (p ++ [x]) ->
  (forall h q, branch g B h q -> wl_admissible w q) ->
  exists w', sync_enacted c (b_hash <$> k) w = Some w' /\ wl_follows w' ((p ++ [x]) ++ k) /\ wl_same w w'.
Proof.
  revert w p x. induction k as [|y k IH]; intros w p x Hk Hw Ha.
  { exists w. rewrite app_nil_r. split_and!; [done|done|]. apply wl_same_refl. }
  pose proof (branch_prefix _ _ _ _ _ _ Hk) as Hy. pose proof (branch_parent _ _ _ _ _ _ _ Hk) as [Hpar _].
  pose proof (branch_known _ _ _ _ y Hk ltac:(apply elem_of_app; right; left)) as HB.
  assert (Hx : branch g B (b_parent_hash y) (p ++ [x])).
  { rewrite Hpar. rewrite <- app_assoc in Hk. by apply (branch_prefix _ _ _ _ _ _ Hk). }
  rewrite fmap_cons. cbn [sync_enacted]. rewrite (view_block _ _ HB).
  destruct (branch_tree _ _ Hx) as (t & Hser & Hget & Hrep & _). rewrite Hser. cbn [mbind option_bind]. rewrite Hget.
  cbn [mbind option_bind]. destruct (wl_sync w (p ++ [x]) y t Hw Hrep (Ha _ _ Hy)) as (w1 & Hw1 & Hf1 & Hs1).
  rewrite Hw1. cbn [mbind option_bind]. destruct (IH w1 (p ++ [x]) y) as (w' & Hw' & Hf & Hs).
  - by rewrite <- (app_assoc (p ++ [x])).
  - done.
  - intros h1 q Hq. apply (wl_same_spec _ _ Hs1). by eapply Ha.
  - exists w'. rewrite <- (app_assoc (p ++ [x])) in Hf. split_and!; [done|done|]. by eapply wl_same_trans.
Qed.

Lemma private_hash_indexed k x : x ∈ private_hashes k -> x ∈ (chain_addresses k).*1.
Proof.
  unfold private_hashes, chain_addresses. rewrite fmap_join, <- list_fmap_compose, !list_elem_of_join.
  intros (hs & Hx & (y & -> & Hy)%list_elem_of_fmap). exists (transaction_hashes (b_body y)). split.
  - unfold localized_private_txs in Hx. rewrite (private_fmap ut_hash) in Hx.
    apply list_elem_of_fmap in Hx as (t & -> & [_ Ht]%list_elem_of_filter). by apply list_elem_of_fmap_2.
  - apply list_elem_of_fmap. exists y. split; [|done]. cbn. unfold block_addresses. by rewrite addresses_at_keys.
Qed.

Lemma update_wallet_ok loc l' td w ser : located b l lp loc l' -> block_commitment_ser c (b_parent_hash b) = Some ser ->
  NoDup (chain_addresses l).*1 -> wl_follows w l ->
  (forall h' q, branch g B h' q -> wl_admissible w q) -> wl_admissible w (lp ++ [b]) ->
  exists w', update_wallet c (Some ser) b (mkInfo (b_hash b) (b_number b) td loc) w = Some w' /\ wl_follows w' l' /\ wl_same w w'.
Proof.
  intros Hloc Hser Hnd Hw Ha Hab. unfold update_wallet. cbn [bi_location]. destruct Hloc as [|Heq|p x k1 k2 El Elp].
  - exists w. split_and!; [done|done|]. apply wl_same_refl.
  - rewrite Heq in Hw. by apply sync_current_ok.
  - destruct (known_fork _ _ _ _ El Elp) as [Hk1 Hk2]. cbn [br_enacted br_retracted]. rewrite (retracted_hashes_known _ Hk1).
    destruct (wl_retract w (p ++ [x]) k1 (private_hashes (rev k1))) as [Hf0 Hs0].
    + by rewrite <- El.
    + intros y. apply elem_of_join_rev.
    + intros y Hy Hy'. rewrite El, chain_addresses_app, fmap_app in Hnd. apply NoDup_app in Hnd as (_ & Hnd & _).
      apply (Hnd y); by apply private_hash_indexed.
    + set (w0 := wo_remove_retracted_txs _ _) in *.
      destruct (sync_enacted_ok w0 p x k2 (b_parent_hash b)) as (w1 & Hw1 & Hf1 & Hs1); [by rewrite <- Elp|done| |].
      { intros h1 q Hq. apply (wl_same_spec _ _ Hs0). by eapply Ha. }
      rewrite Hw1. cbn [mbind option_bind]. pose proof (wl_same_trans _ _ _ Hs0 Hs1) as Hs.
      destruct (sync_current_ok w1 ser Hser) as (w2 & Hw2 & Hf2 & Hs2); [by rewrite Elp|by apply (wl_same_spec _ _ Hs)|].
      exists w2. split_and!; [done|done|]. by eapply wl_same_trans.
Qed.

End Prepare.
End Updates.
