(* ===== verification/ChainInsert.v ===== *)
(** * Inserting a block

    Inserting a block that fits below a known block, writing the batch and committing it
    keeps the invariant of the chain, for the tree with the block added and the canonical
    chain that the fork choice asks for; no step of it panics. *)

From stdpp Require Import base numbers option strings gmap list.
From S2P Require Import Prelude Serialize MerkleTree MerkleProofs Transaction Substate Blocks Rewards Sapling Wallet WalletProofs ChainStore BlockChain ChainTree ChainTables ChainInvariant ChainUpdates.

Open Scope Z_scope.

Section Insert.
Context {MH : MerkleHash} {W : Type} {WO : WalletOps W} {WL : WalletLaws W}.
Context (hash_u256 : forall d a b, is_u256 (merkle_hash d a b)).

(** ** The state after an insertion *)

Section State.
Context (c : BlockChain (W := W)) (b : Block) (w : W) (u : ExtrasUpdate).
Context (Hpending : no_pending c).

(** After [prepare_wallet_update]. *)
Definition with_wallet : BlockChain := set_pending_wallet_addresses (Some (wo_list_addresses w)) (set_wallet w c).

Definition inserted : BlockChain :=
  let '(c1, b1) := prepare_update u true (with_wallet, put_wallet_data w (put_block b empty_batch)) in
  write_and_commit (set_pending_routes (import_route_from (eu_info u)) c1, b1).

Definition written_disk : Disk :=
  let d := bc_disk c in
  let t := dk_tables d in
  let best := negb (is_branch (bi_location (eu_info u))) in
  mkDisk (mkTables (<[b_hash b := b_header b]> (t_headers t)) (<[b_hash b := b_body b]> (t_bodies t))
      (eu_block_details u ∪ t_details t) (number_keys (eu_block_hashes u) ∪ t_hashes t)
      (eu_blocks_commitment_sers u ∪ t_sers t) (eu_block_receipts u ∪ t_receipts t)
      (overlay (eu_transactions_addresses u) (t_txs t)) (overlay (eu_transactions_nullifiers u) (t_nullifiers t))
      (overlay (eu_commitment_root_blocks u) (t_roots t)))
    (if best then Some (bi_hash (eu_info u)) else dk_best d) (dk_first d) (dk_ancient d)
    (if best then or_keep (eu_rewards u) (dk_rewards d) else dk_rewards d)
    (Some (wo_wallet_hashes w)) (Some (wo_list_addresses w)) (write_blooms (eu_blocks_blooms u) (dk_blooms d)).

Definition committed_caches : Store :=
  let s := bc_caches c in
  mkTables (t_headers s) (t_bodies s) (eu_block_details u ∪ t_details s) (eu_block_hashes u ∪ t_hashes s)
    (eu_blocks_commitment_sers u ∪ t_sers s) (t_receipts s ∖ eu_block_receipts u)
    (commit_option (eu_transactions_addresses u) (t_txs s)) (commit_option (eu_transactions_nullifiers u) (t_nullifiers s))
    (commit_option (eu_commitment_root_blocks u) (t_roots s)).

Lemma inserted_eq : inserted =
  let best := negb (is_branch (bi_location (eu_info u))) in
  mkChain (bc_reward_config c)
    (if best then mkBest (eu_block u) (bi_total_difficulty (eu_info u)) else bc_best_block c)
    (bc_best_ancient_block c) (bc_first_block c) (wo_list_addresses w) w
    (if best then match eu_rewards u with Some r => r | None => bc_rewards c end else bc_rewards c)
    written_disk committed_caches no_tables None None None None (import_route_from (eu_info u)).
Proof.
  destruct Hpending as (Hp & Ha & Hb & Hw & Hr). unfold inserted, written_disk, committed_caches, prepare_update, with_wallet.
  destruct c as [config best ancient first addresses w0 r [t dbest dfirst dancient dr dw da dbl] s p pa pb pw pr routes].
  cbn in Hp, Ha, Hb, Hw, Hr. subst. destruct u as [info block hashes details receipts blooms txs nulls roots sers rewards].
  assert (Hins : forall (A : Type) (k : Z) (v : A) (m : gmap Z A), <[k := v]> ∅ ∪ m = <[k := v]> m).
  { intros. by rewrite insert_empty, insert_union_singleton_l. }
  unfold write_and_commit, commit, db_write. cbn. destruct blooms as [[? ?]|], (bi_location info), rewards; cbn;
    unfold write_batch, write_tables, commit_caches; cbn; rewrite ?(right_id_L ∅ (∪)), ?Hins; reflexivity.
Qed.
End State.

(** ** The new block *)

(** The block [b] fits below the block whose branch is [lp]. *)
Record fits (g : Block) (B : gmap Z Block) (c : BlockChain (W := W)) (b : Block) (lp : list Block) : Prop := {
  fi_new : B !! b_hash b = None;
  fi_parent : branch g B (b_parent_hash b) lp;
  fi_number : b_number b = zlen lp;
  fi_genesis : b_hash b <> b_parent_hash g;
  fi_good : good_branch (bc_reward_config c) (bc_wallet c) (lp ++ [b]);
}.

Section New.
Context (g : Block) (B : gmap Z Block) (R : gmap Z (list Receipt)) (l : list Block) (c : BlockChain (W := W)).
Context (Hok : chain_ok g B R l c).
Context (b : Block) (lp : list Block) (receipts : list Receipt) (Hfits : fits g B c b lp).

Abbreviation B' := (<[b_hash b := b]> B).

Lemma new_not_genesis : b_hash b <> b_hash g.
Proof. pose proof (go_known _ _ (ok_genesis _ _ _ _ _ Hok)) as Hg. pose proof (fi_new _ _ _ _ _ Hfits). congruence. Qed.

Lemma branch_new : branch g B' (b_hash b) (lp ++ [b]).
Proof.
  constructor; [|by rewrite lookup_insert_eq|done|apply Hfits|apply new_not_genesis].
  apply branch_insert; apply Hfits.
Qed.

Lemma branch_head_known h k : branch g B h k -> is_Some (B !! h).
Proof. intros (y & q & _ & _ & Hy)%branch_last. eauto. Qed.

Lemma parent_not_new : b_parent_hash b <> b_hash b.
Proof.
  intros He. destruct (branch_head_known _ _ (fi_parent _ _ _ _ _ Hfits)) as [y Hy]. pose proof (fi_new _ _ _ _ _ Hfits). congruence.
Qed.

(** The branches of the tree with the new block. *)
Lemma branch_inv h k : branch g B' h k -> branch g B h k /\ h <> b_hash b \/ h = b_hash b /\ k = lp ++ [b].
Proof.
  intros Hk. destruct (decide (h = b_hash b)) as [->|Hne].
  - right. split; [done|]. by eapply branch_unique, branch_new.
  - left. split; [|done]. pose proof Hk as (y & q & _ & _ & Hy)%branch_last. rewrite lookup_insert_ne in Hy by done.
    destruct (ok_tree _ _ _ _ _ Hok _ _ Hy) as (k0 & Hk0).
    rewrite (branch_unique _ _ _ _ _ Hk (branch_insert _ _ _ _ _ (fi_new _ _ _ _ _ Hfits) Hk0)). done.
Qed.

(** No known block has the new one as its parent. *)
Lemma no_child_yet h y : B !! h = Some y -> h <> b_hash g -> b_parent_hash y <> b_hash b.
Proof.
  intros Hy Hne He. destruct (ok_tree _ _ _ _ _ Hok _ _ Hy) as (k & Hk). inversion Hk as [|h' y' q Hp Hy' Hh' Hn]; subst; [done|].
  assert (y' = y) as -> by congruence. destruct (branch_head_known _ _ Hp) as [z Hz]. pose proof (fi_new _ _ _ _ _ Hfits). congruence.
Qed.

Lemma genesis_kept : genesis_ok g B'.
Proof.
  destruct (ok_genesis _ _ _ _ _ Hok) as [Hn Ht Hb Hk Hp Hh]. pose proof new_not_genesis. split; try done.
  - by rewrite lookup_insert_ne.
  - rewrite lookup_insert_ne; [done|apply Hfits].
Qed.

(** *** The details *)

Lemma details_kept h y d : B !! h = Some y -> details_for g B h y d -> h <> b_parent_hash b -> details_for g B' h y d.
Proof.
  intros Hy [Hn Hp Hd Hc Hu] Hne. pose proof (fi_new _ _ _ _ _ Hfits) as Hnew. split; [done|done| | |done].
  - intros k [[Hk _]|[-> ->]]%branch_inv; [auto|congruence].
  - intros x. rewrite Hc. split; intros (bx & Hbx & Hpx & Hx).
    + exists bx. rewrite lookup_insert_ne by congruence. done.
    + destruct (decide (b_hash b = x)) as [<-|Hx']; [rewrite lookup_insert_eq in Hbx; simplify_eq; congruence|].
      rewrite lookup_insert_ne in Hbx by done. by exists bx.
Qed.

Lemma details_parent y d : B !! b_parent_hash b = Some y -> details_for g B (b_parent_hash b) y d ->
  details_for g B' (b_parent_hash b) y (push_child (b_hash b) d).
Proof.
  intros Hy [Hn Hp Hd Hc Hu]. pose proof (fi_new _ _ _ _ _ Hfits) as Hnew. pose proof parent_not_new. split; [done|done| | |].
  - intros k [[Hk _]|[? ->]]%branch_inv; [auto|done].
  - intros x. cbn. rewrite elem_of_app, list_elem_of_singleton, Hc. split.
    + intros [(bx & Hbx & Hpx & Hx)| ->].
      * exists bx. rewrite lookup_insert_ne by congruence. done.
      * exists b. rewrite lookup_insert_eq. pose proof new_not_genesis. done.
    + intros (bx & Hbx & Hpx & Hx). destruct (decide (b_hash b = x)) as [<-|Hx']; [by right|].
      rewrite lookup_insert_ne in Hbx by done. left. by exists bx.
  - cbn. apply NoDup_app. split_and!; [done| |apply NoDup_singleton]. intros x (bx & Hbx & _)%Hc ->%list_elem_of_singleton. congruence.
Qed.

Lemma details_new finalized : details_for g B' (b_hash b) b
  (mkDetails (b_number b) (total_difficulty (lp ++ [b])) (b_parent_hash b) [] finalized).
Proof.
  split; [done|done| | |constructor].
  - intros k [[_ ?]|[_ ->]]%branch_inv; done.
  - intros x. cbn. split; [by intros ?%not_elem_of_nil|]. intros (bx & Hbx & Hpx & Hx). exfalso.
    destruct (decide (b_hash b = x)) as [<-|Hx'].
    + rewrite lookup_insert_eq in Hbx. injection Hbx as <-. by apply parent_not_new.
    + rewrite lookup_insert_ne in Hbx by done. by eapply no_child_yet.
Qed.

(** ** What the insertion prepares *)

Abbreviation tables := (dk_tables (bc_disk c)).

Record prepared (finalized : bool) (loc : BlockLocation) (l' : list Block) (w : W) (u : ExtrasUpdate) : Prop := {
  pr_info : eu_info u = mkInfo (b_hash b) (b_number b) (total_difficulty (lp ++ [b])) loc;
  pr_located : located b l lp loc l';
  pr_block : eu_block u = b;
  pr_small : forall k, is_Some (eu_block_hashes u !! k) -> small k;
  pr_hashes : forall n y, l' !! n = Some y -> (eu_block_hashes u ∪ t_hashes tables) !! Z.of_nat n = Some (b_hash y);
  pr_numbers : forall N, l `prefix_of` N -> numbered N (t_hashes tables) ->
    numbered (l' ++ drop (length l') N) (eu_block_hashes u ∪ t_hashes tables);
  pr_details : exists d, block_details c (b_parent_hash b) = Some d /\
    eu_block_details u = <[b_hash b := mkDetails (b_number b) (total_difficulty (lp ++ [b])) (b_parent_hash b) [] finalized]>
      {[b_parent_hash b := push_child (b_hash b) d]};
  pr_receipts : eu_block_receipts u = {[b_hash b := receipts]};
  pr_blooms : forall n y, l' !! n = Some y -> h_log_bloom (b_header y) <> 0 ->
    write_blooms (eu_blocks_blooms u) (dk_blooms (bc_disk c)) !! Z.of_nat n = Some (h_log_bloom (b_header y));
  pr_txs : forall k v, overlay (eu_transactions_addresses u) (t_txs tables) !! k = Some v <-> (k, v) ∈ chain_addresses l';
  pr_nullifiers : forall k v, overlay (eu_transactions_nullifiers u) (t_nullifiers tables) !! k = Some v <-> (k, v) ∈ chain_nullifiers l';
  pr_roots : overlay (eu_commitment_root_blocks u) (t_roots tables) =
    if is_branch loc then t_roots tables else anchored b l lp (t_roots tables);
  pr_sers : exists t, eu_blocks_commitment_sers u = {[b_hash b := ser_new t]} /\ tree_rep t (chain_notes (lp ++ [b]));
  pr_rewards : forall r0, genesis_rewards (bc_reward_config c) = Some r0 ->
    enact_rewards (bc_reward_config c) r0 (tail l') = Some (match eu_rewards u with Some r => r | None => bc_rewards c end);
  pr_wallet : wl_follows w l' /\ wl_same (bc_wallet c) w;
}.

Lemma scan_ok : scan_for_new_imported_users_in_wallet c = Some c.
Proof.
  pose proof (chain_views _ _ _ _ _ Hok) as Hv.
  assert (Hc : set_wallet (bc_wallet c) c = c) by (by destruct c). unfold scan_for_new_imported_users_in_wallet.
  destruct (ok_handled _ _ _ _ _ Hok) as [Hh|Hg].
  - rewrite (proj2 (forallb_forall _ _)); [done|]. intros a Ha. apply bool_decide_eq_true, Hh. by apply list_elem_of_In.
  - case_match; [done|]. pose proof (ok_canon _ _ _ _ _ Hok) as Hl. rewrite Hg in Hl.
    pose proof (ok_best _ _ _ _ _ Hok) as Hbest. rewrite Hg in Hbest. cbn in Hbest. injection Hbest as Hbest.
    unfold scan_for_wallet_transactions, is_known, best_block_hash, best_block_number. rewrite <- Hbest.
    destruct (ok_genesis _ _ _ _ _ Hok) as [Hn0 _ _ Hk Hp Hh0]. pose proof (vo_details _ _ _ Hv (b_hash g)) as Hd. rewrite Hk in Hd.
    destruct Hd as (d & Hd & Hdf). rewrite (proj2 (exists_with_cache_spec _ _ _ _)) by (unfold block_details in Hd; eauto).
    rewrite Hn0. change (Z.to_nat 0) with 0%nat. cbn [ancestry]. rewrite (proj2 (Z.eqb_neq _ _)), Hd by done. cbn [rev app scan_blocks].
    rewrite (view_block _ _ _ Hv _ _ Hk). cbn [mbind option_bind].
    assert (Hser : block_commitment_ser c (b_parent_hash g) = None).
    { unfold block_commitment_ser. rewrite cached_id by apply (ok_caches _ _ _ _ _ Hok). by apply (ok_disk _ _ _ _ _ Hok). }
    rewrite Hser. cbn [mbind option_bind scan_blocks]. by rewrite Hc.
Qed.

Lemma not_known_child : is_known_child c (b_parent_hash b) (b_hash b) = false.
Proof.
  pose proof (chain_views _ _ _ _ _ Hok) as Hv. unfold is_known_child. pose proof (vo_details _ _ _ Hv (b_parent_hash b)) as Hd.
  destruct (branch_head_known _ _ (fi_parent _ _ _ _ _ Hfits)) as [y Hy]. rewrite Hy in Hd. destruct Hd as (d & -> & Hd).
  apply bool_decide_eq_false. intros (bx & Hbx & _)%(df_children _ _ _ _ _ Hd). pose proof (fi_new _ _ _ _ _ Hfits). congruence.
Qed.

Lemma located_good loc l' : located b l lp loc l' -> good_branch (bc_reward_config c) (bc_wallet c) l'.
Proof.
  pose proof (ok_good _ _ _ _ _ Hok _ _ (ok_canon _ _ _ _ _ Hok)). pose proof (fi_good _ _ _ _ _ Hfits). by destruct 1.
Qed.

(** The updates that [insert_block_with_route] computes once the wallet is updated. *)
Lemma extras_prepared loc l' w ser finalized : let info := mkInfo (b_hash b) (b_number b) (total_difficulty (lp ++ [b])) loc in
  let c1 := with_wallet c w in
  located b l lp loc l' -> block_commitment_ser c (b_parent_hash b) = Some ser ->
  wl_follows w l' -> wl_same (bc_wallet c) w ->
  exists details rewards u, prepare_block_details_update c1 (b_parent_hash b) info finalized = Some details /\
    prepare_rewards_update c1 info b = Some rewards /\
    extras_update c1 info details b receipts (Some ser) rewards = Some u /\ prepared finalized loc l' w u.
Proof.
  intros info c1 Hloc Hser Hfollows Hsame. pose proof (go_number _ _ (ok_genesis _ _ _ _ _ Hok)) as Hg.
  assert (Hv : views_ok g B c1) by (destruct (chain_views _ _ _ _ _ Hok); by split).
  pose proof (ok_canon _ _ _ _ _ Hok) as Hl. pose proof (ok_good _ _ _ _ _ Hok _ _ Hl) as Hgl.
  pose proof (located_good _ _ Hloc) as Hgl'. pose proof (ok_disk _ _ _ _ _ Hok) as Hdisk.
  pose proof (fi_parent _ _ _ _ _ Hfits) as Hlp. pose proof (fi_number _ _ _ _ _ Hfits) as Hnum.
  pose proof (fi_good _ _ _ _ _ Hfits) as Hgood. set (td := total_difficulty (lp ++ [b])) in *.
  destruct (branch_head_known _ _ Hlp) as [y Hy].
  pose proof (vo_details _ _ _ Hv (b_parent_hash b)) as Hd. rewrite Hy in Hd. destruct Hd as (d & Hd & _).
  destruct (block_tree_ok hash_u256 _ _ _ Hv _ _ Hlp (proj1 (gb_notes _ _ _ Hgood))) as (ser' & t & Hser' & Htree & Hrep).
  assert (ser' = ser) as -> by (unfold c1, block_commitment_ser in *; cbn in Hser'; congruence).
  destruct (ok_rewards _ _ _ _ _ Hok) as (r0 & Hr0 & Hr & _). destruct (gb_rewards _ _ _ Hgl) as (r0' & _ & Hr0' & _ & Hmine).
  rewrite Hr0 in Hr0'. injection Hr0' as <-. destruct (gb_rewards _ _ _ Hgood) as (r0' & r1 & Hr0' & Hr1 & _).
  rewrite Hr0 in Hr0'. injection Hr0' as <-.
  destruct (hashes_update_ok _ _ _ Hv _ _ _ _ Hg Hl Hnum loc l' td _ Hloc (gb_small _ _ _ Hgl') (do_hashes _ _ _ _ _ Hdisk))
    as (hs & Hhs & Hsmall & Hhashes & Hnumbers).
  destruct (blooms_update_ok _ _ _ Hv _ _ _ _ Hg Hl Hlp Hnum loc l' td _ Hloc (do_blooms _ _ _ _ _ Hdisk)) as (bl & Hbl & Hblooms).
  destruct (txs_update_ok _ _ _ Hv _ _ _ _ Hl Hlp loc l' td _ Hloc (do_txs _ _ _ _ _ Hdisk) (gb_txs _ _ _ Hgl) (gb_txs _ _ _ Hgood))
    as (txs & Htxs & Htx).
  destruct (nullifiers_update_ok _ _ _ Hv _ _ _ _ Hl Hlp loc l' td _ Hloc (do_nullifiers _ _ _ _ _ Hdisk) (gb_nullifiers _ _ _ Hgl)
    (gb_nullifiers _ _ _ Hgood)) as (ns & Hns & Hnull).
  destruct (roots_update_ok hash_u256 _ _ _ Hv _ _ _ _ Hl Hlp loc l' td (t_roots tables) ser Hloc (proj1 (gb_notes _ _ _ Hgood)) Hser)
    as (rs & Hrs & Hroots).
  destruct (rewards_update_ok _ _ _ Hv _ _ _ _ Hg Hl Hlp Hnum (ok_config _ _ _ _ _ Hok) loc l' td _ _ Hloc Hr0 Hr Hmine Hr1)
    as (rw & Hrw & Hrewards).
  eexists _, rw, _. split_and!.
  - unfold prepare_block_details_update. by rewrite Hd.
  - done.
  - unfold extras_update, info. rewrite Hhs. cbn [mbind option_bind]. rewrite Hbl. cbn [mbind option_bind]. rewrite Htxs.
    cbn [mbind option_bind]. rewrite Hns. cbn [mbind option_bind]. rewrite Hrs. cbn [mbind option_bind].
    unfold prepare_block_commitment_sers_update. rewrite Htree. cbn [mbind option_bind]. done.
  - split; [reflexivity|exact Hloc|reflexivity|exact Hsmall|exact Hhashes|exact Hnumbers|by exists d|reflexivity|exact Hblooms
           |exact Htx|exact Hnull|exact Hroots|by exists t| |by split].
    intros r Hr'. rewrite Hr0 in Hr'. injection Hr' as <-. exact Hrewards.
Qed.

Lemma insert_prepared extras : let l' := chosen (ei_fork_choice extras) b l lp in
  exists loc w u, prepared (ei_is_finalized extras) loc l' w u /\ exists cb,
    insert_block b receipts extras (c, empty_batch) = Some (import_route_from (eu_info u), cb) /\
    write_and_commit cb = inserted c b w u.
Proof.
  intros l'. pose proof (chain_views _ _ _ _ _ Hok) as Hv. pose proof (go_number _ _ (ok_genesis _ _ _ _ _ Hok)) as Hg.
  pose proof (ok_canon _ _ _ _ _ Hok) as Hl. pose proof (ok_good _ _ _ _ _ Hok _ _ Hl) as Hgl.
  pose proof (fi_parent _ _ _ _ _ Hfits) as Hlp. pose proof (fi_good _ _ _ _ _ Hfits) as Hgood.
  destruct (block_info_ok g B c Hv b _ l lp Hg Hl Hlp extras (gb_difficulty _ _ _ Hgood)) as (route & loc & Hroute & Hinfo & Hloc).
  fold l' in Hloc.
  destruct (block_tree_ok hash_u256 g B c Hv b lp Hlp (proj1 (gb_notes _ _ _ Hgood))) as (ser & t & Hser & _ & _).
  destruct (update_wallet_ok hash_u256 g B c Hv b _ l lp Hl Hlp loc l' (total_difficulty (lp ++ [b])) (bc_wallet c) ser Hloc Hser)
    as (w & Hw & Hfollows & Hsame);
    [apply Hgl|apply Hok|intros h' q Hq; apply (ok_good _ _ _ _ _ Hok _ _ Hq)|apply Hgood|].
  destruct (extras_prepared loc l' w ser (ei_is_finalized extras) Hloc Hser Hfollows Hsame) as (details & rewards & u & Hd & Hr & Hu & Hp).
  exists loc, w, u. split; [exact Hp|]. unfold insert_block. cbn [fst snd]. rewrite scan_ok. cbn [mbind option_bind].
  rewrite Hroute. cbn [mbind option_bind]. unfold insert_block_with_route. rewrite not_known_child.
  destruct (ok_pending _ _ _ _ _ Hok) as (_ & _ & -> & _). rewrite Hinfo. cbn [mbind option_bind]. rewrite Hser.
  unfold prepare_wallet_update. rewrite Hw. cbn [mbind option_bind]. fold (with_wallet c w). rewrite Hd. cbn [mbind option_bind].
  rewrite Hr. cbn [mbind option_bind]. rewrite Hu. cbn [mbind option_bind]. unfold inserted. fold (with_wallet c w).
  destruct (prepare_update u true _) as [c2 b2]. rewrite (pr_info _ _ _ _ _ Hp). eauto.
Qed.

(** ** The invariant is kept *)

Section Kept.
Context (loc : BlockLocation) (l' : list Block) (w : W) (u : ExtrasUpdate) (finalized : bool) (Hp : prepared finalized loc l' w u).

Lemma not_branch_new : negb (is_branch loc) = true -> l' = lp ++ [b].
Proof. by destruct (pr_located _ _ _ _ _ Hp). Qed.

Lemma branch_old : negb (is_branch loc) = false -> l' = l /\ loc = Branch.
Proof. by destruct (pr_located _ _ _ _ _ Hp). Qed.

Lemma details_written (m : gmap Z BlockDetails) :
  (forall h, match B !! h with Some y => exists d, m !! h = Some d /\ details_for g B h y d | None => m !! h = None end) ->
  m !! b_parent_hash b = block_details c (b_parent_hash b) ->
  forall h, match B' !! h with
            | Some y => exists d, (eu_block_details u ∪ m) !! h = Some d /\ details_for g B' h y d
            | None => (eu_block_details u ∪ m) !! h = None
            end.
Proof.
  intros Hm Hpar h. destruct (pr_details _ _ _ _ _ Hp) as (d & Hd & ->).
  pose proof parent_not_new as Hne. rewrite lookup_union_or. destruct (decide (b_hash b = h)) as [<-|Hh].
  - rewrite !lookup_insert_eq. eexists. split; [done|]. apply details_new.
  - rewrite !(lookup_insert_ne _ (b_hash b)) by done. specialize (Hm h). destruct (decide (b_parent_hash b = h)) as [<-|Hh'].
    + rewrite lookup_singleton_eq. destruct (B !! b_parent_hash b) as [y|] eqn:Hy; [|congruence].
      destruct Hm as (d' & Hd' & Hdf). assert (d' = d) as -> by congruence. eexists. split; [done|]. by apply details_parent.
    + rewrite lookup_singleton_ne by done. destruct (B !! h) as [y|] eqn:Hy; [|done].
      destruct Hm as (d' & Hd' & Hdf). exists d'. split; [done|]. by apply details_kept.
Qed.

Lemma disk_kept : disk_ok g B' (<[b_hash b := receipts]> R) l' (written_disk c b w u).
Proof.
  pose proof (ok_disk _ _ _ _ _ Hok) as Hdisk. pose proof (fi_new _ _ _ _ _ Hfits) as Hnew. split.
  - apply details_written; [apply Hdisk|]. symmetry. apply cached_id, (ok_caches _ _ _ _ _ Hok).
  - intros h y. cbn [written_disk dk_tables t_headers t_bodies]. destruct (decide (b_hash b = h)) as [<-|Hne].
    + rewrite !lookup_insert_eq. intros [= <-]. done.
    + rewrite !lookup_insert_ne by done. apply Hdisk.
  - intros h [Hh Hne]%lookup_insert_None. cbn [written_disk dk_tables t_headers t_bodies].
    rewrite !lookup_insert_ne by done. by apply Hdisk.
  - cbn [written_disk dk_tables t_hashes]. rewrite number_keys_small by apply (pr_small _ _ _ _ _ Hp). apply Hp.
  - apply Hp.
  - apply Hp.
  - destruct (pr_sers _ _ _ _ _ Hp) as (t & Ht & Hrep). cbn [written_disk dk_tables t_sers]. rewrite Ht.
    intros h k [[Hk Hne]|[-> ->]]%branch_inv; rewrite lookup_union_or.
    + rewrite lookup_singleton_ne by done. by apply Hdisk.
    + rewrite lookup_singleton_eq. eauto.
  - destruct (pr_sers _ _ _ _ _ Hp) as (t & Ht & Hrep). cbn [written_disk dk_tables t_sers]. rewrite Ht.
    intros h [Hh Hne]%lookup_insert_None. rewrite lookup_union_or, lookup_singleton_ne by done. by apply Hdisk.
  - cbn [written_disk dk_tables t_roots]. rewrite (pr_roots _ _ _ _ _ Hp). intros h Hh. destruct (is_branch loc) eqn:Hloc.
    + destruct (branch_old ltac:(by rewrite Hloc)) as [-> _]. by apply Hdisk.
    + rewrite (not_branch_new ltac:(by rewrite Hloc)), last_snoc in *. injection Hh as <-.
      unfold anchored. fold (branch_root (lp ++ [b])). by rewrite lookup_insert_eq.
  - cbn [written_disk dk_tables t_receipts]. rewrite (pr_receipts _ _ _ _ _ Hp), (do_receipts _ _ _ _ _ Hdisk).
    by rewrite insert_union_singleton_l.
  - apply Hp.
  - cbn [written_disk dk_best]. rewrite (pr_info _ _ _ _ _ Hp). cbn [bi_location bi_hash].
    destruct (negb (is_branch loc)) eqn:Hloc.
    + rewrite (not_branch_new Hloc), last_snoc. done.
    + destruct (branch_old Hloc) as [-> _]. apply Hdisk.
  - apply (do_ordered _ _ _ _ _ Hdisk).
Qed.

Lemma caches_kept : caches_ok (committed_caches c u) (dk_tables (written_disk c b w u)).
Proof.
  destruct (ok_caches _ _ _ _ _ Hok) as [Hh Hb Hd Hn Hs Hser Hr Ht Hnl Hrt]. pose proof (fi_new _ _ _ _ _ Hfits) as Hnew.
  pose proof (ok_disk _ _ _ _ _ Hok) as Hdisk.
  destruct (coherent_numbers (eu_block_hashes u) _ _ (pr_small _ _ _ _ _ Hp) Hs Hn) as [Hn' Hs'].
  split; cbn [written_disk committed_caches dk_tables t_headers t_bodies t_details t_hashes t_sers t_receipts t_txs t_nullifiers t_roots];
    [| |by apply coherent_union|exact Hn'|exact Hs'|by apply coherent_union|by apply coherent_forget|by apply coherent_option..].
  - apply coherent_insert; [done|]. by apply (do_blocks_only _ _ _ _ _ Hdisk).
  - apply coherent_insert; [done|]. by apply (do_blocks_only _ _ _ _ _ Hdisk).
Qed.

Lemma chain_kept : chain_ok g B' (<[b_hash b := receipts]> R) l' (inserted c b w u).
Proof.
  rewrite inserted_eq by apply (ok_pending _ _ _ _ _ Hok). rewrite (pr_info _ _ _ _ _ Hp). cbn [bi_location bi_total_difficulty].
  destruct (pr_wallet _ _ _ _ _ Hp) as [Hfollows Hsame]. destruct (wl_same_spec _ _ Hsame) as [_ Hadm].
  assert (Hgood : forall h k, branch g B' h k -> good_branch (bc_reward_config c) w k).
  { intros h k [[Hk _]|[-> ->]]%branch_inv.
    - destruct (ok_good _ _ _ _ _ Hok _ _ Hk). split; try done. by apply Hadm.
    - destruct (fi_good _ _ _ _ _ Hfits). split; try done. by apply Hadm. }
  assert (Hbest : let best := if negb (is_branch loc) then mkBest (eu_block u) (total_difficulty (lp ++ [b])) else bc_best_block c in
    branch g B' (b_hash (be_block best)) l' /\ last l' = Some (be_block best) /\ be_total_difficulty best = total_difficulty l').
  { destruct (negb (is_branch loc)) eqn:Hloc.
    - rewrite (not_branch_new Hloc), last_snoc, (pr_block _ _ _ _ _ Hp). split_and!; [apply branch_new|done|done].
    - destruct (branch_old Hloc) as [-> _].
      split_and!; [apply branch_insert; [apply Hfits|apply (ok_canon _ _ _ _ _ Hok)]|apply Hok|apply Hok]. }
  destruct Hbest as (Hb1 & Hb2 & Hb3).
  split; cbn [bc_reward_config bc_best_block bc_disk bc_caches bc_rewards bc_wallet bc_wallet_addresses];
    [apply Hok|apply genesis_kept| |exact Hgood|exact Hb1|exact Hb2|exact Hb3|apply disk_kept|apply caches_kept|done| |done|by left].
  - intros h y [[<- _]|[Hne Hy]]%lookup_insert_Some; [eauto using branch_new|].
    destruct (ok_tree _ _ _ _ _ Hok _ _ Hy) as (k & Hk). exists k. apply branch_insert; [apply Hfits|done].
  - destruct (ok_rewards _ _ _ _ _ Hok) as (r0 & Hr0 & Hr & Hdr). exists r0. split; [done|].
    cbn [written_disk dk_rewards]. rewrite (pr_info _ _ _ _ _ Hp). cbn [bi_location].
    destruct (negb (is_branch loc)) eqn:Hloc.
    + split; [by apply (pr_rewards _ _ _ _ _ Hp)|]. by destruct (eu_rewards u).
    + destruct (branch_old Hloc) as [-> _]. done.
Qed.

End Kept.
(** The route that is returned leads from the old canonical chain to the new one. *)
Definition leads (from to : list Block) (route : ImportRoute) : Prop :=
  exists p k1 k2, from = p ++ k1 /\ to = p ++ k2 /\ parts k1 k2 /\
    ir_retracted route = b_hash <$> rev k1 /\ ir_enacted route = b_hash <$> k2.

Lemma located_leads loc l' td : located b l lp loc l' -> leads l l' (import_route_from (mkInfo (b_hash b) (b_number b) td loc)).
Proof.
  intros [|Heq|p x k1 k2 El Elp Hparts].
  - exists l, [], []. rewrite app_nil_r. by split_and!.
  - exists lp, [], [b]. rewrite app_nil_r. by split_and!.
  - exists (p ++ [x]), k1, (k2 ++ [b]). split_and!; [done|by rewrite Elp, app_assoc| |done|cbn; by rewrite fmap_app].
    intros y Hy. destruct k2 as [|z k2]; [|by apply Hparts]. intros [= ->]. destruct k1 as [|z k1]; [done|]. injection Hy as ->.
    pose proof (branch_known _ _ _ _ y (ok_canon _ _ _ _ _ Hok)) as Hk. rewrite El in Hk.
    rewrite (fi_new _ _ _ _ _ Hfits) in Hk. discriminate Hk. apply elem_of_app. right. left.
Qed.

Lemma insert_block_ok extras : let l' := chosen (ei_fork_choice extras) b l lp in
  exists route cb, insert_block b receipts extras (c, empty_batch) = Some (route, cb) /\ leads l l' route /\
    chain_ok g B' (<[b_hash b := receipts]> R) l' (write_and_commit cb) /\
    bc_reward_config (write_and_commit cb) = bc_reward_config c /\ wl_same (bc_wallet c) (bc_wallet (write_and_commit cb)).
Proof.
  intros l'. destruct (insert_prepared extras) as (loc & w & u & Hp & cb & Hi & Hc). exists (import_route_from (eu_info u)), cb.
  rewrite Hc. split_and!; [done| |by eapply chain_kept| |].
  - rewrite (pr_info _ _ _ _ _ Hp). by apply located_leads, Hp.
  - by rewrite inserted_eq by apply (ok_pending _ _ _ _ _ Hok).
  - rewrite inserted_eq by apply (ok_pending _ _ _ _ _ Hok). apply Hp.
Qed.

(** The new block is on the canonical chain only if the fork choice is for it. *)
Lemma located_choice loc choice : located b l lp loc (chosen choice b l lp) ->
  is_branch loc = match choice with ForkNew => false | ForkOld => true end.
Proof.
  assert (Hnot : l <> lp ++ [b]).
  { intros El. pose proof (fi_new _ _ _ _ _ Hfits) as Hnew. rewrite (branch_known _ _ _ _ b (ok_canon _ _ _ _ _ Hok)) in Hnew; [done|].
    rewrite El. apply elem_of_app. right. left. }
  destruct choice; cbn [chosen]; intros Hloc; by inversion Hloc.
Qed.

(** The tables of numbers and roots after the insertion. *)
Lemma insert_indexed extras route cb N A : insert_block b receipts extras (c, empty_batch) = Some (route, cb) -> indexed B l N A c ->
  let l' := chosen (ei_fork_choice extras) b l lp in
  indexed B' l' (l' ++ drop (length l') N)
    (match ei_fork_choice extras with ForkNew => anchored b l lp A | ForkOld => A end) (write_and_commit cb).
Proof.
  intros Hi [Hpre Hblocks Hnum Hroots] l'. destruct (insert_prepared extras) as (loc & w & u & Hp & cb' & Hi' & Hc).
  rewrite Hi in Hi'. injection Hi' as _ <-. rewrite Hc, inserted_eq by apply (ok_pending _ _ _ _ _ Hok).
  pose proof (chain_kept _ _ _ _ _ Hp) as Hok'. pose proof (ok_canon _ _ _ _ _ Hok') as Hl'. fold l' in Hp, Hok', Hl'.
  split; cbn [bc_disk written_disk dk_tables t_hashes t_roots].
  - by apply prefix_app_r.
  - intros n y [Hy|[Hn Hy]]%lookup_app_Some.
    + split; [apply (branch_lookup _ _ _ _ _ _ Hl' Hy)|].
      apply (branch_number _ _ _ _ _ _ (go_number _ _ (ok_genesis _ _ _ _ _ Hok)) Hl' Hy).
    + rewrite lookup_drop, Nat.add_comm, Nat.sub_add in Hy by done. destruct (Hblocks _ _ Hy) as [HB Hny]. split; [|done].
      rewrite lookup_insert_ne; [done|]. intros He. pose proof (fi_new _ _ _ _ _ Hfits). congruence.
  - rewrite number_keys_small by apply (pr_small _ _ _ _ _ Hp). by apply (pr_numbers _ _ _ _ _ Hp).
  - rewrite (pr_roots _ _ _ _ _ Hp), (located_choice loc (ei_fork_choice extras)) by apply (pr_located _ _ _ _ _ Hp).
    rewrite Hroots. by destruct (ei_fork_choice extras).
Qed.

(** The details after the insertion: those of the new block and the longer list of children
    of its parent. *)
Lemma insert_details extras route cb : insert_block b receipts extras (c, empty_batch) = Some (route, cb) ->
  block_details (write_and_commit cb) (b_hash b) =
    Some (mkDetails (b_number b) (total_difficulty (lp ++ [b])) (b_parent_hash b) [] (ei_is_finalized extras)) /\
  forall h, h <> b_hash b -> block_details (write_and_commit cb) h =
    (if b_parent_hash b =? h then push_child (b_hash b) <$> block_details c h else block_details c h).
Proof.
  intros Hi. destruct (insert_prepared extras) as (loc & w & u & Hp & cb' & Hi' & Hc). rewrite Hi in Hi'. injection Hi' as _ <-.
  pose proof (chain_kept _ _ _ _ _ Hp) as Hok'. rewrite <- Hc in Hok'.
  assert (forall h, block_details (write_and_commit cb) h = (eu_block_details u ∪ t_details tables) !! h) as Hnew.
  { intros h. unfold block_details. rewrite cached_id by apply (ok_caches _ _ _ _ _ Hok').
    rewrite Hc, inserted_eq by apply (ok_pending _ _ _ _ _ Hok). done. }
  destruct (pr_details _ _ _ _ _ Hp) as (d & Hd & Ed). pose proof parent_not_new as Hne. split.
  - by rewrite Hnew, Ed, lookup_union_or, lookup_insert_eq.
  - intros h Hh. rewrite Hnew, Ed, lookup_union_or, lookup_insert_ne by done.
    destruct (Z.eqb_spec (b_parent_hash b) h) as [<-|Hp'].
    + by rewrite lookup_singleton_eq, Hd.
    + rewrite lookup_singleton_ne by done. symmetry. apply cached_id, (ok_caches _ _ _ _ _ Hok).
Qed.

End New.
End Insert.
