(* ===== verification/ChainGenesis.v ===== *)
(** * Opening a new database

    [BlockChain::new] on an empty database gives the chain of the genesis block. *)

From stdpp Require Import base numbers option strings gmap list.
From S2P Require Import Prelude Serialize MerkleTree MerkleProofs Transaction Substate Blocks Rewards Sapling Wallet WalletProofs ChainStore BlockChain ChainTree ChainTables ChainInvariant.

Open Scope Z_scope.

#[local] Opaque merkle_root tree_root.

Section Genesis.
Context {MH : MerkleHash} {W : Type} {WO : WalletOps W} {WL : WalletLaws W}.
Context (config : RewardConfig) (g : Block) (w : W).

(** What the specification of the chain must have. *)
Record genesis_fits : Prop := {
  gf_config : config_ok config;
  gf_number : b_number g = 0;
  gf_transactions : b_transactions (b_body g) = [];
  gf_bloom : h_log_bloom (b_header g) = 0;
  gf_hash : b_hash g <> 0;
  gf_parent : b_parent_hash g <> b_hash g;
  gf_good : good_branch config w [g];
  gf_wallet : wl_follows w [g];
}.
Context (Hfits : genesis_fits).

Abbreviation B0 := ({[b_hash g := g]} : gmap Z Block).

Lemma genesis_branch h k : branch g B0 h k -> h = b_hash g /\ k = [g].
Proof.
  intros Hk. destruct Hk as [Hg|h b l Hp Hb Hh Hn Hne]; [done|]. rewrite lookup_singleton_ne in Hb by done. done.
Qed.

Lemma genesis_private : localized_private_txs g = [].
Proof.
  unfold localized_private_txs, localized_private_transactions, localized_transactions.
  by rewrite (gf_transactions Hfits).
Qed.

Lemma genesis_notes : chain_notes [g] = [].
Proof. unfold chain_notes, block_notes. cbn [fmap list_fmap]. by rewrite genesis_private. Qed.

Lemma genesis_nullifiers : chain_nullifiers [g] = [].
Proof. unfold chain_nullifiers, block_nullifiers. cbn [fmap list_fmap]. by rewrite genesis_private. Qed.

Lemma genesis_addresses : chain_addresses [g] = [].
Proof.
  unfold chain_addresses, block_addresses, transaction_hashes. cbn [fmap list_fmap]. by rewrite (gf_transactions Hfits).
Qed.

Definition genesis_details : BlockDetails :=
  mkDetails (b_number g) (h_difficulty (b_header g)) (b_parent_hash g) [] false.

Lemma genesis_details_for : details_for g B0 (b_hash g) g genesis_details.
Proof.
  split; [done|done| | |constructor].
  - intros k [_ ->]%genesis_branch. cbn. lia.
  - intros x. cbn. split; [by intros ?%not_elem_of_nil|]. intros (bx & [<- <-]%lookup_singleton_Some & _ & Hx). done.
Qed.

(** The disk that [BlockChain::new] writes, with the root of the empty commitment tree. *)
Context (root : Z).

Definition genesis_disk (r : Rewards) : Disk :=
  mkDisk (mkTables {[b_hash g := b_header g]} {[b_hash g := b_body g]} {[b_hash g := genesis_details]} {[0 := b_hash g]}
      {[b_hash g := ser_new tree_new]} ∅ ∅ ∅ {[root := b_hash g]})
    (Some (b_hash g)) None None (Some r) None None ∅.

Definition genesis_chain (r : Rewards) : BlockChain :=
  mkChain config (mkBest g (h_difficulty (b_header g))) None None [] w r (genesis_disk r)
    (mkTables ∅ ∅ ∅ ∅ {[b_hash g := ser_new tree_new]} ∅ ∅ ∅ {[root := b_hash g]})
    no_tables None None None None import_route_none.

Lemma genesis_disk_ok r : root = merkle_root 32 [] -> disk_ok g B0 ∅ [g] (genesis_disk r).
Proof.
  intros Hroot. split.
  - intros h. cbn [genesis_disk dk_tables t_details]. destruct (decide (b_hash g = h)) as [<-|Hne].
    + rewrite !lookup_singleton_eq. eexists. split; [done|]. apply genesis_details_for.
    + by rewrite !lookup_singleton_ne.
  - intros h b [<- <-]%lookup_singleton_Some. cbn [genesis_disk dk_tables t_headers t_bodies]. by rewrite !lookup_singleton_eq.
  - intros h Hh%lookup_singleton_None. cbn [genesis_disk dk_tables t_headers t_bodies]. by rewrite !lookup_singleton_ne.
  - intros n b [-> <-]%list_lookup_singleton_Some. done.
  - intros h a. rewrite genesis_addresses. cbn [genesis_disk dk_tables t_txs]. rewrite lookup_empty.
    split; [intros Ha; discriminate Ha|by intros ?%not_elem_of_nil].
  - intros h a. rewrite genesis_nullifiers. cbn [genesis_disk dk_tables t_nullifiers]. rewrite lookup_empty.
    split; [intros Ha; discriminate Ha|by intros ?%not_elem_of_nil].
  - intros h k [-> ->]%genesis_branch. rewrite genesis_notes. cbn [genesis_disk dk_tables t_sers]. rewrite lookup_singleton_eq.
    eauto using tree_new_rep.
  - intros h Hh%lookup_singleton_None. cbn [genesis_disk dk_tables t_sers]. by rewrite lookup_singleton_ne.
  - intros h [= <-]. rewrite genesis_notes, <- Hroot. cbn [genesis_disk dk_tables t_roots]. by rewrite lookup_singleton_eq.
  - done.
  - intros n b [-> <-]%list_lookup_singleton_Some. by rewrite (gf_bloom Hfits).
  - done.
  - done.
Qed.

Lemma genesis_chain_ok r : root = merkle_root 32 [] -> genesis_rewards config = Some r -> chain_ok g B0 ∅ [g] (genesis_chain r).
Proof.
  intros Hroot Hr. assert (Hg : B0 !! b_hash g = Some g) by apply lookup_singleton_eq. destruct Hfits. split; try done.
  - split; try done. by rewrite lookup_singleton_ne.
  - intros h b [<- <-]%lookup_singleton_Some. exists [g]. by constructor.
  - intros h k [-> ->]%genesis_branch. done.
  - by constructor.
  - cbn. lia.
  - by apply genesis_disk_ok.
  - split; try apply coherent_empty; try apply coherent_refl. cbn. intros n [v Hv]. by rewrite lookup_empty in Hv.
  - exists r. done.
  - by right.
Qed.

Lemma genesis_indexed r : indexed B0 [g] [g] {[root := b_hash g]} (genesis_chain r).
Proof.
  split; [done| | |done].
  - intros n b [-> <-]%list_lookup_singleton_Some. split; [apply lookup_singleton_eq|apply (gf_number Hfits)].
  - intros k. cbn [genesis_chain bc_disk genesis_disk dk_tables t_hashes]. destruct (decide (k = 0)) as [->|Hne]; [done|].
    rewrite lookup_singleton_ne by done. case_bool; [|done]. by rewrite lookup_ge_None_2 by (cbn; lia).
Qed.

Lemma genesis_written r : tree_root tree_new = Some root -> genesis_rewards config = Some r ->
  (b ← genesis_batch config g; Some (write_batch b empty_disk)) = Some (genesis_disk r).
Proof.
  intros Hroot Hr. unfold genesis_batch, genesis_disk. rewrite Hr, Hroot. clear Hroot. cbn [mbind option_bind].
  assert (Hone : forall k v : Z, overlay {[k := Some v]} ∅ = ({[k := v]} : gmap Z Z)).
  { intros k v. apply map_eq. intros k'. rewrite lookup_overlay. destruct (decide (k = k')) as [<-|Hne].
    - by rewrite !lookup_singleton_eq.
    - by rewrite !lookup_singleton_ne, lookup_empty. }
  unfold write_batch, genesis_disk, write_tables. cbn [ba_tables ba_best ba_ancient ba_rewards ba_wallet_txs ba_wallet_addresses
    dk_tables empty_disk no_tables t_headers t_bodies t_details t_hashes t_sers t_receipts t_txs t_nullifiers t_roots].
  unfold genesis_details. rewrite !(right_id_L ∅ (∪)), Hone. change (h_number (b_header g)) with (b_number g).
  by rewrite (gf_number Hfits).
Qed.

(** The database is opened at its genesis block. *)
Lemma opened_genesis r caches : genesis_rewards config = Some r ->
  let c := opened config (mkBest g (h_difficulty (b_header g))) w (genesis_disk r) caches in
  t_hashes caches = ∅ ->
  load_ancient c = Some (None, None) /\ load_first c None = Some (genesis_disk r, None) /\
  rewards_loadable config r (best_block_number c) = Some true.
Proof.
  intros Hr c Hc. pose proof (gf_number Hfits) as Hn.
  assert (Hbest : best_block_number c = 0) by done.
  assert (Hg : genesis_hash c = Some (b_hash g)).
  { unfold genesis_hash, block_hash, cached. cbn [c opened bc_caches bc_disk genesis_disk dk_tables t_hashes].
    rewrite Hc, lookup_empty. done. }
  unfold load_ancient, load_first, rewards_loadable. rewrite Hbest. split_and!.
  - done.
  - cbn [c opened bc_disk genesis_disk dk_first]. rewrite Hg. cbn. by rewrite Z.eqb_refl.
  - rewrite era_of by apply Hfits. cbn [mbind option_bind]. unfold genesis_rewards in Hr.
    destruct (calc_era_base_reward config 0) as [base|]; [|done]. cbn in Hr. injection Hr as <-. cbn.
    by rewrite Z.div_0_l by (pose proof (count_pos _ (gf_config Hfits)); lia).
Qed.

Definition genesis_store : Store := mkTables ∅ ∅ ∅ ∅ {[b_hash g := ser_new tree_new]} ∅ ∅ ∅ {[root := b_hash g]}.

Lemma created disk : dk_best disk = None ->
  load_or_create config g disk = b ← genesis_batch config g; caches ← genesis_caches g; Some (write_batch b disk, caches, b_hash g).
Proof. intros Hb. unfold load_or_create. by rewrite Hb. Qed.

Lemma genesis_cached : tree_root tree_new = Some root -> genesis_caches g = Some genesis_store.
Proof. intros Hroot. unfold genesis_caches. by rewrite Hroot. Qed.

Lemma genesis_created r : tree_root tree_new = Some root -> genesis_rewards config = Some r ->
  load_or_create config g empty_disk = Some (genesis_disk r, genesis_store, b_hash g).
Proof.
  intros Hroot Hr. pose proof (genesis_written r Hroot Hr) as Hw. rewrite (created empty_disk eq_refl), (genesis_cached Hroot).
  clear Hroot. destruct (genesis_batch config g) as [b|]; [|discriminate Hw]. cbn [mbind option_bind] in Hw |- *.
  apply (inj Some) in Hw. by rewrite Hw.
Qed.

Lemma genesis_opens r : genesis_rewards config = Some r ->
  open_chain config w (genesis_disk r) genesis_store (b_hash g) = Some (genesis_chain r).
Proof.
  intros Hr. unfold open_chain. cbn [genesis_disk dk_tables t_details t_headers t_bodies].
  rewrite !lookup_singleton_eq. cbn [mbind option_bind].
  assert (Heta : mkBlock (b_header g) (b_body g) = g) by (by destruct g). rewrite Heta. fold (genesis_disk r).
  change (bd_total_difficulty genesis_details) with (h_difficulty (b_header g)).
  destruct (opened_genesis r genesis_store Hr eq_refl) as (Ha & Hf & Hl).
  rewrite Ha. cbn [mbind option_bind]. rewrite Hf. cbn [mbind option_bind].
  change (dk_rewards (genesis_disk r)) with (Some r). cbn [mbind option_bind]. rewrite Hl. cbn [mbind option_bind].
  unfold reload_wallet_info, genesis_chain. reflexivity.
Qed.
End Genesis.

Lemma new_chain {MH : MerkleHash} {W : Type} {WO : WalletOps W} {WL : WalletLaws W} config g w : genesis_fits config g w ->
  exists c, blockchain_new config g w empty_disk = Some c /\ chain_ok g {[b_hash g := g]} ∅ [g] c /\
    indexed {[b_hash g := g]} [g] [g] {[branch_root [g] := b_hash g]} c /\ bc_reward_config c = config /\ bc_wallet c = w.
Proof.
  intros Hfits. assert (Hroot : tree_root tree_new = Some (merkle_root 32 [])).
  { apply tree_root_rep; [apply tree_new_rep|]. rewrite zlen_nil. lia. }
  destruct (gb_rewards _ _ _ (gf_good _ _ _ Hfits)) as (r & _ & Hr & _).
  exists (genesis_chain config g w (merkle_root 32 []) r). split;
    [|split_and!; [by apply genesis_chain_ok| |done..]; unfold branch_root; rewrite (genesis_notes _ _ _ Hfits); by apply genesis_indexed].
  unfold blockchain_new. rewrite (genesis_created _ _ _ Hfits _ r Hroot Hr). cbn [mbind option_bind]. by apply genesis_opens.
Qed.

(** The genesis block is not finalised. *)
Lemma new_unfinalized {MH : MerkleHash} {W : Type} {WO : WalletOps W} {WL : WalletLaws W} config g w c h d : genesis_fits config g w ->
  blockchain_new config g w empty_disk = Some c -> block_details c h = Some d -> bd_is_finalized d = false.
Proof.
  intros Hfits Hc. assert (Hroot : tree_root tree_new = Some (merkle_root 32 [])).
  { apply tree_root_rep; [apply tree_new_rep|]. rewrite zlen_nil. lia. }
  destruct (gb_rewards _ _ _ (gf_good _ _ _ Hfits)) as (r & _ & Hr & _). unfold blockchain_new in Hc.
  rewrite (genesis_created _ _ _ Hfits _ r Hroot Hr) in Hc. cbn [mbind option_bind] in Hc. rewrite (genesis_opens _ _ _ Hfits) in Hc by done.
  injection Hc as <-. unfold block_details. rewrite cached_id by apply (genesis_chain_ok _ _ _ Hfits _ r eq_refl Hr). cbn [genesis_chain bc_disk genesis_disk dk_tables t_details].
  intros [_ <-]%lookup_singleton_Some. done.
Qed.
