(* ===== verification/ChainRuns.v ===== *)
(** * Runs of the chain

    The abstract chain is a tree of blocks with receipts and a canonical branch. [answers]
    states what the queries of the chain give in terms of it; after any sequence of imports
    and finalisations the queries answer for the abstract chain. *)

From stdpp Require Import base numbers option strings gmap list.
From S2P Require Import Prelude Serialize MerkleTree MerkleProofs Transaction Substate Blocks Rewards Sapling Wallet WalletProofs ChainStore BlockChain ChainTree ChainTables ChainInvariant ChainUpdates ChainInsert ChainGenesis.

Open Scope Z_scope.

#[local] Opaque merkle_root tree_root.

(** ** The abstract chain *)

(** The known blocks and their receipts, the canonical branch, the block that each number
    leads to, and the block that each recorded root leads to. *)
Record Tree : Type := mkTree {
  tr_known : gmap Z Block;
  tr_receipts : gmap Z (list Receipt);
  tr_canon : list Block;
  tr_numbers : list Block;
  tr_anchors : gmap Z Z;
}.

Definition genesis_tree {MH : MerkleHash} (g : Block) : Tree :=
  mkTree {[b_hash g := g]} ∅ [g] [g] {[branch_root [g] := b_hash g]}.

(** A block is added below the block whose branch is [lp]. Numbers above the canonical branch
    are not forgotten, and roots are recorded by [anchored]. *)
Definition add_block {MH : MerkleHash} (b : Block) (receipts : list Receipt) (choice : ForkChoice) (lp : list Block) (t : Tree) : Tree :=
  let canon := chosen choice b (tr_canon t) lp in
  mkTree (<[b_hash b := b]> (tr_known t)) (<[b_hash b := receipts]> (tr_receipts t)) canon
    (canon ++ drop (length canon) (tr_numbers t))
    (match choice with ForkNew => anchored b (tr_canon t) lp (tr_anchors t) | ForkOld => tr_anchors t end).

Inductive Event : Type :=
| Import (b : Block) (receipts : list Receipt) (extras : ExtrasInsert)
| Finalize (hash : Z).

Section Runs.
Context {MH : MerkleHash} {W : Type} {WO : WalletOps W} {WL : WalletLaws W}.
Context (hash_u256 : forall d a b, is_u256 (merkle_hash d a b)).

(** A client performs an event in a batch of its own. *)
Definition perform (e : Event) (c : BlockChain (W := W)) : option BlockChain :=
  match e with
  | Import b receipts extras => '(_, cb) ← insert_block b receipts extras (c, empty_batch); Some (write_and_commit cb)
  | Finalize hash => cb ← mark_finalized hash (c, empty_batch); Some (write_and_commit cb)
  end.

Fixpoint perform_all (es : list Event) (c : BlockChain (W := W)) : option BlockChain :=
  match es with [] => Some c | e :: es => c ← perform e c; perform_all es c end.

(** The events that the clients of the chain let through: blocks below known ones, whose
    branch can be the canonical chain ([good_branch]: at most [2 ^ 32] blocks and notes, a
    total difficulty of 256 bits, no transaction and no nullifier twice, rewards that are
    computed without overflow and with mining going on, and notes that the wallet can hold). *)
Inductive runs (config : RewardConfig) (w : W) (g : Block) : Tree -> list Event -> Tree -> Prop :=
| runs_nil t : runs config w g t [] t
| runs_import t b receipts extras lp es t' :
    tr_known t !! b_hash b = None -> branch g (tr_known t) (b_parent_hash b) lp -> b_number b = zlen lp ->
    b_hash b <> b_parent_hash g -> good_branch config w (lp ++ [b]) ->
    runs config w g (add_block b receipts (ei_fork_choice extras) lp t) es t' ->
    runs config w g t (Import b receipts extras :: es) t'
| runs_finalize t hash es t' : is_Some (tr_known t !! hash) -> runs config w g t es t' ->
    runs config w g t (Finalize hash :: es) t'.

Lemma runs_app config w g t es t' es' t'' : runs config w g t es t' -> runs config w g t' es' t'' -> runs config w g t (es ++ es') t''.
Proof. induction 1; intros; cbn [app]; [done|by eapply runs_import; eauto|apply runs_finalize; eauto]. Qed.

Lemma perform_all_app es es' c : perform_all (es ++ es') c = c ← perform_all es c; perform_all es' c.
Proof. revert c. induction es as [|e es IH]; intros c; [done|]. cbn [app perform_all]. by destruct (perform e c) as [c1|]; [apply IH|]. Qed.

(** ** Finalising *)

Lemma details_finalized g B h b d : details_for g B h b d -> details_for g B h b (finalize_details d).
Proof. intros [Hn Hp Hd Hc Hu]. by split. Qed.

(** The chain with other details of one block. *)
Definition set_tables (t : Store) (d : Disk) : Disk :=
  mkDisk t (dk_best d) (dk_first d) (dk_ancient d) (dk_rewards d) (dk_wallet_txs d) (dk_wallet_addresses d) (dk_blooms d).

Definition with_details (hash : Z) (d : BlockDetails) (c : BlockChain (W := W)) : BlockChain :=
  set_caches (cache_details hash d (bc_caches c)) (set_disk (set_tables (cache_details hash d (dk_tables (bc_disk c))) (bc_disk c)) c).

Lemma update_details_eq hash d c : no_pending c ->
  write_and_commit (update_block_details hash d (c, empty_batch)) = with_details hash d c.
Proof.
  intros (Hp & Ha & Hb & Hw & Hr). assert (Hov : forall V (m : gmap Z V), overlay ∅ m = m).
  { intros V m. apply map_eq. intros k. by rewrite lookup_overlay, lookup_empty. }
  assert (Hco : forall V (m : gmap Z V), commit_option ∅ m = m).
  { intros V m. apply map_eq. intros k. by rewrite lookup_commit_option, lookup_empty. }
  assert (Hins : forall (A : Type) (k : Z) (v : A) (m : gmap Z A), <[k := v]> ∅ ∪ m = <[k := v]> m).
  { intros. by rewrite insert_empty, insert_union_singleton_l. }
  destruct c as [config best ancient first addresses w r [[] dbest dfirst dancient dr dw da dbl] [] p pa pb pw pr routes].
  cbn in Hp, Ha, Hb, Hw, Hr. subst. unfold write_and_commit, commit, db_write, write_batch, write_tables, commit_caches.
  cbn -[overlay commit_option]. by rewrite !(left_id_L ∅ (∪)), !Hins, !Hov, !Hco.
Qed.

Lemma details_kept_ok g B R l c hash y d : chain_ok g B R l c -> B !! hash = Some y -> details_for g B hash y d ->
  chain_ok g B R l (with_details hash d c).
Proof.
  intros Hok Hy Hd. destruct (ok_disk _ _ _ _ _ Hok), (ok_caches _ _ _ _ _ Hok). split; try apply Hok.
  - split; try done. intros h. specialize (do_details h). cbn [with_details set_caches set_disk bc_disk set_tables dk_tables cache_details t_details].
    destruct (decide (hash = h)) as [<-|Hne].
    + rewrite Hy, lookup_insert_eq. eauto.
    + by rewrite lookup_insert_ne.
  - split; try done. cbn [with_details set_caches set_disk bc_disk bc_caches set_tables dk_tables cache_details t_details].
    rewrite !insert_union_singleton_l. by apply coherent_union.
Qed.

Lemma chain_finalize_ok g B R l c hash : chain_ok g B R l c -> is_Some (B !! hash) ->
  exists cb, mark_finalized hash (c, empty_batch) = Some cb /\ chain_ok g B R l (write_and_commit cb) /\
    bc_reward_config (write_and_commit cb) = bc_reward_config c /\ bc_wallet (write_and_commit cb) = bc_wallet c /\
    forall N A, indexed B l N A c -> indexed B l N A (write_and_commit cb).
Proof.
  intros Hok [y Hy]. pose proof (chain_views _ _ _ _ _ Hok) as Hv. pose proof (vo_details _ _ _ Hv hash) as Hd. rewrite Hy in Hd.
  destruct Hd as (d & Hd & Hdf). unfold mark_finalized. cbn [fst]. rewrite Hd. cbn [mbind option_bind].
  eexists. split; [done|]. rewrite update_details_eq by apply Hok. split_and!; [|done|done|by intros N A []].
  eapply details_kept_ok; [done|done|]. by apply details_finalized.
Qed.

(** ** The abstract chain is followed *)

Record simulates (config : RewardConfig) (w : W) (g : Block) (t : Tree) (c : BlockChain (W := W)) : Prop := {
  si_ok : chain_ok g (tr_known t) (tr_receipts t) (tr_canon t) c;
  si_config : bc_reward_config c = config;
  si_keys : wl_same w (bc_wallet c);
  si_indexed : indexed (tr_known t) (tr_canon t) (tr_numbers t) (tr_anchors t) c;
}.

Lemma good_same config w w' l : wl_same w w' -> good_branch config w l -> good_branch config w' l.
Proof. intros Hs []. split; try done. by apply (wl_same_spec _ _ Hs). Qed.

Lemma runs_simulate config w g t es t' c : runs config w g t es t' -> simulates config w g t c ->
  exists c', perform_all es c = Some c' /\ simulates config w g t' c'.
Proof.
  intros Hr. revert c. induction Hr as [t|t b receipts extras lp es t' Hnew Hlp Hnum Hgen Hgood Hr IH|t hash es t' Hh Hr IH];
    intros c [Hok Hc Hk Hix]; cbn [perform_all].
  - by exists c.
  - assert (Hfits : fits g (tr_known t) c b lp) by (split; try done; rewrite Hc; by eapply good_same).
    destruct (insert_block_ok hash_u256 _ _ _ _ _ Hok _ _ receipts Hfits extras) as (route & cb & Hi & _ & Hok' & Hc' & Hk').
    cbn [perform]. rewrite Hi. cbn [mbind option_bind]. apply IH. split; [done|by rewrite Hc'|by eapply wl_same_trans|].
    by eapply insert_indexed.
  - destruct (chain_finalize_ok _ _ _ _ _ _ Hok Hh) as (cb & Hm & Hok' & Hc' & Hk' & Hix'). cbn [perform]. rewrite Hm. cbn [mbind option_bind].
    apply IH. split; [done|by rewrite Hc'|by rewrite Hk'|by apply Hix'].
Qed.

Lemma new_simulates config g w : genesis_fits config g w ->
  exists c, blockchain_new config g w empty_disk = Some c /\ simulates config w g (genesis_tree g) c.
Proof.
  intros Hf. destruct (new_chain _ _ _ Hf) as (c & Hc & Hok & Hix & Hconf & Hw). exists c. split; [done|]. split; [done|done| |done].
  rewrite Hw. apply wl_same_refl.
Qed.

(** ** What the queries answer *)

Record answers (g : Block) (t : Tree) (c : BlockChain (W := W)) : Prop := {
  an_best : last (tr_canon t) = Some (be_block (bc_best_block c)) /\ best_block_number c = zlen (tr_canon t) - 1 /\
    best_block_total_difficulty c = total_difficulty (tr_canon t);
  an_blocks : forall h, block_of c h = tr_known t !! h;
  an_known : forall h, is_known c h = true <-> is_Some (tr_known t !! h);
  an_children : forall h x, is_known_child c h x = true <-> exists b, tr_known t !! h <> None /\
    tr_known t !! x = Some b /\ b_parent_hash b = h /\ x <> b_hash g;
  an_receipts : forall h, block_receipts c h = tr_receipts t !! h;
  an_hashes : forall n b, tr_canon t !! n = Some b -> block_hash c (Z.of_nat n) = Some (b_hash b) /\ is_canon c (b_hash b) = true;
  an_transactions : forall h tx, (a ← transaction_address c h; transaction c a) = Some tx <->
    exists b, b ∈ tr_canon t /\ tx ∈ localized_transactions (b_hash b) (b_number b) (b_body b) /\ lt_hash tx = h;
  an_nullifiers : forall x h, nullifier_transaction c x = Some h <-> (x, h) ∈ chain_nullifiers (tr_canon t);
  an_trees : forall h k, branch g (tr_known t) h k ->
    exists tree, (ser ← block_commitment_ser c h; get_commitment_tree ser) = Some tree /\
      tree_root tree = Some (merkle_root 32 (chain_notes k));
  an_numbers : tr_canon t `prefix_of` tr_numbers t /\ (forall n, small n -> block_hash c n = b_hash <$> tr_numbers t !! Z.to_nat n) /\
    forall h, is_canon c h = true <-> exists b, b ∈ tr_numbers t /\ b_hash b = h;
  an_anchors : forall root, commitment_root_block c root = tr_anchors t !! root;
  an_anchor : commitment_root_block c (merkle_root 32 (chain_notes (tr_canon t))) = Some (best_block_hash c);
  an_routes : forall h1 h2 p x k1 k2, branch g (tr_known t) h1 ((p ++ [x]) ++ k1) -> branch g (tr_known t) h2 ((p ++ [x]) ++ k2) ->
    parts k1 k2 -> exists finalized, tree_route c h1 h2 =
      Some (Some (mkRoute ((b_hash <$> rev k1) ++ (b_hash <$> k2)) (b_hash x) (length k1) finalized));
  an_rewards : exists r0, genesis_rewards (bc_reward_config c) = Some r0 /\
    enact_rewards (bc_reward_config c) r0 (tail (tr_canon t)) = Some (bc_rewards c);
  an_wallet : wl_follows (bc_wallet c) (tr_canon t);
}.

Lemma addresses_at_elem hash i hs h a : (h, a) ∈ addresses_at hash i hs <->
  exists j, hs !! j = Some h /\ a = mkAddress hash (i + Z.of_nat j).
Proof.
  revert i. induction hs as [|x hs IH]; intros i; cbn [addresses_at].
  - split; [by intros ?%not_elem_of_nil|by intros (j & Hj & _)].
  - rewrite elem_of_cons, IH. split.
    + intros [[= -> ->]|(j & Hj & ->)]; [exists 0%nat; by rewrite Z.add_0_r|]. exists (S j). split; [done|]. f_equal. lia.
    + intros ([|j] & Hj & ->); [left; cbn in Hj; simplify_eq; by rewrite Z.add_0_r|].
      right. exists j. split; [done|]. f_equal. lia.
Qed.

Lemma localize_elem hash n i ts tx : tx ∈ localize hash n i ts <->
  exists j t, ts !! j = Some t /\ tx = mkLocalizedTransaction t n hash (i + Z.of_nat j).
Proof.
  revert i. induction ts as [|x ts IH]; intros i; cbn [localize].
  - split; [by intros ?%not_elem_of_nil|by intros (j & t & Hj & _)].
  - rewrite elem_of_cons, IH. split.
    + intros [->|(j & t & Hj & ->)]; [exists 0%nat, x; by rewrite Z.add_0_r|]. exists (S j), t. split; [done|]. f_equal. lia.
    + intros ([|j] & t & Hj & ->); [left; cbn in Hj; simplify_eq; by rewrite Z.add_0_r|].
      right. exists j, t. split; [done|]. f_equal. lia.
Qed.

Section Queries.
Context (g : Block) (t : Tree) (c : BlockChain (W := W)) (Hok : chain_ok g (tr_known t) (tr_receipts t) (tr_canon t) c).
Context (Hix : indexed (tr_known t) (tr_canon t) (tr_numbers t) (tr_anchors t) c).

Lemma unknown_header h : tr_known t !! h = None -> block_header_data c h = None.
Proof.
  intros Hb. destruct (do_blocks_only _ _ _ _ _ (ok_disk _ _ _ _ _ Hok) _ Hb) as [Hh _].
  unfold block_header_data. destruct (t_headers (bc_caches c) !! h) as [x|] eqn:Hx.
  - apply (co_headers _ _ (ok_caches _ _ _ _ _ Hok)) in Hx. change (id h) with h in Hx. congruence.
  - destruct (best_block_hash c =? h) eqn:He; [|done]. apply Z.eqb_eq in He.
    pose proof (ok_canon _ _ _ _ _ Hok) as (y & q & _ & _ & Hy)%branch_last. congruence.
Qed.

Lemma blocks_answer h : block_of c h = tr_known t !! h.
Proof.
  pose proof (chain_views _ _ _ _ _ Hok) as Hv. destruct (tr_known t !! h) as [b|] eqn:Hb; [by eapply view_block|].
  unfold block_of. by rewrite unknown_header.
Qed.

Lemma transaction_answer b i : b ∈ tr_canon t ->
  transaction c (mkAddress (b_hash b) i) = localized_transaction_at (b_hash b) (b_number b) i (b_body b).
Proof.
  intros Hb. pose proof (branch_known _ _ _ _ _ (ok_canon _ _ _ _ _ Hok) Hb) as Hk. pose proof (chain_views _ _ _ _ _ Hok) as Hv.
  unfold transaction. cbn [ta_block_hash ta_index]. destruct (vo_blocks _ _ _ Hv _ _ Hk) as [_ ->]. cbn [mbind option_bind].
  by rewrite (view_number _ _ _ Hv _ _ Hk).
Qed.

Lemma transactions_answer h tx : (a ← transaction_address c h; transaction c a) = Some tx <->
  exists b, b ∈ tr_canon t /\ tx ∈ localized_transactions (b_hash b) (b_number b) (b_body b) /\ lt_hash tx = h.
Proof.
  assert (Ha : forall a, transaction_address c h = Some a <-> (h, a) ∈ chain_addresses (tr_canon t)).
  { intros a. unfold transaction_address. rewrite cached_id by apply (ok_caches _ _ _ _ _ Hok). apply (ok_disk _ _ _ _ _ Hok). }
  assert (Hin : forall a, (h, a) ∈ chain_addresses (tr_canon t) <-> exists b j t', b ∈ tr_canon t /\
    b_transactions (b_body b) !! j = Some t' /\ ut_hash t' = h /\ a = mkAddress (b_hash b) (Z.of_nat j)).
  { intros a. unfold chain_addresses. rewrite list_elem_of_join. setoid_rewrite list_elem_of_fmap. split.
    - intros (k & Hk & b & -> & Hb). apply addresses_at_elem in Hk as (j & Hj & ->). unfold transaction_hashes in Hj.
      rewrite list_lookup_fmap in Hj. apply fmap_Some in Hj as (t' & Ht' & ->). by exists b, j, t'.
    - intros (b & j & t' & Hb & Hj & <- & ->). exists (block_addresses b). split; [|by exists b].
      apply addresses_at_elem. exists j. split; [|done]. unfold transaction_hashes. by rewrite list_lookup_fmap, Hj. }
  split.
  - intros Htx. apply bind_Some in Htx as (a & Hat & Htx). apply Ha, Hin in Hat as (b & j & t' & Hb & Hj & Hh & ->).
    rewrite transaction_answer in Htx by done. exists b. split; [done|].
    unfold localized_transaction_at, transaction_at, vec_get in Htx. rewrite (proj2 (Z.leb_le _ _)), Nat2Z.id, Hj in Htx by lia.
    cbn in Htx. injection Htx as <-. split; [|done]. apply localize_elem. by exists j, t'.
  - intros (b & Hb & (j & t' & Hj & ->)%localize_elem & Hh). rewrite Z.add_0_l.
    assert (Hat : transaction_address c h = Some (mkAddress (b_hash b) (Z.of_nat j))) by (apply Ha, Hin; by exists b, j, t').
    rewrite Hat. cbn [mbind option_bind]. rewrite transaction_answer by done.
    unfold localized_transaction_at, transaction_at, vec_get. by rewrite (proj2 (Z.leb_le _ _)), Nat2Z.id, Hj by lia.
Qed.

Lemma canon_answer n b : tr_canon t !! n = Some b -> block_hash c (Z.of_nat n) = Some (b_hash b) /\ is_canon c (b_hash b) = true.
Proof.
  intros Hb. pose proof (ok_canon _ _ _ _ _ Hok) as Hl. pose proof (go_number _ _ (ok_genesis _ _ _ _ _ Hok)) as Hg.
  assert (Hsmall : small (Z.of_nat n)).
  { pose proof (gb_small _ _ _ (ok_good _ _ _ _ _ Hok _ _ Hl)) as Hs. apply lookup_lt_Some in Hb. unfold small, zlen in *. lia. }
  assert (Hh : block_hash c (Z.of_nat n) = Some (b_hash b)).
  { unfold block_hash. rewrite coherent_cached by apply (ok_caches _ _ _ _ _ Hok). rewrite number_key_small by done.
    by apply (ok_disk _ _ _ _ _ Hok). }
  split; [done|]. unfold is_canon.
  rewrite (view_number _ _ _ (chain_views _ _ _ _ _ Hok) _ b) by apply (branch_lookup _ _ _ _ _ _ Hl Hb). cbn [mbind option_bind].
  rewrite (branch_number _ _ _ _ _ _ Hg Hl Hb), Hh. apply Z.eqb_refl.
Qed.

Lemma known_small h b : tr_known t !! h = Some b -> small (b_number b) /\ b_hash b = h.
Proof.
  intros Hb. destruct (ok_tree _ _ _ _ _ Hok _ _ Hb) as (k & Hk). pose proof (gb_small _ _ _ (ok_good _ _ _ _ _ Hok _ _ Hk)) as Hs.
  pose proof Hk as (y & q & Ek & Eh & Hy)%branch_last. assert (y = b) as -> by congruence. split; [|done].
  rewrite (branch_number _ _ _ _ (length q) b (go_number _ _ (ok_genesis _ _ _ _ _ Hok)) Hk).
  - rewrite Ek in Hs. unfold small, zlen in *. rewrite length_app in Hs. cbn in Hs. lia.
  - by rewrite Ek, list_lookup_middle.
Qed.

Lemma numbers_answer n : small n -> block_hash c n = b_hash <$> tr_numbers t !! Z.to_nat n.
Proof.
  intros Hs. unfold block_hash. rewrite coherent_cached by apply (ok_caches _ _ _ _ _ Hok). rewrite number_key_small by done.
  rewrite (ix_numbers _ _ _ _ _ Hix). unfold small in Hs. by rewrite (proj2 (Z.leb_le _ _)) by lia.
Qed.

Lemma is_canon_answer h : is_canon c h = true <-> exists b, b ∈ tr_numbers t /\ b_hash b = h.
Proof.
  pose proof (chain_views _ _ _ _ _ Hok) as Hv. unfold is_canon. split.
  - intros Hc. destruct (n ← block_number c h; block_hash c n) as [h'|] eqn:E; [|done]. apply Z.eqb_eq in Hc as <-.
    apply bind_Some in E as (n & Hn & Hh). destruct (tr_known t !! h) as [y|] eqn:Hy.
    + rewrite (view_number _ _ _ Hv _ _ Hy) in Hn. injection Hn as <-. rewrite numbers_answer in Hh by apply (known_small _ _ Hy).
      apply fmap_Some in Hh as (b & Hb & ->). exists b. split; [by eapply list_elem_of_lookup_2|done].
    + unfold block_number in Hn. by rewrite unknown_header in Hn.
  - intros (b & [n Hb]%list_elem_of_lookup & <-). destruct (ix_blocks _ _ _ _ _ Hix _ _ Hb) as [HB Hn].
    rewrite (view_number _ _ _ Hv _ _ HB). cbn [mbind option_bind]. rewrite numbers_answer by apply (known_small _ _ HB).
    rewrite Hn, Nat2Z.id, Hb. apply Z.eqb_refl.
Qed.

Lemma children_answer h x : is_known_child c h x = true <-> exists b, tr_known t !! h <> None /\
  tr_known t !! x = Some b /\ b_parent_hash b = h /\ x <> b_hash g.
Proof.
  unfold is_known_child. pose proof (vo_details _ _ _ (chain_views _ _ _ _ _ Hok) h) as Hd.
  destruct (tr_known t !! h) as [y|].
  - destruct Hd as (d & -> & Hd). rewrite bool_decide_eq_true, (df_children _ _ _ _ _ Hd). naive_solver.
  - rewrite Hd. naive_solver.
Qed.

Lemma chain_answers : answers g t c.
Proof.
  pose proof (chain_views _ _ _ _ _ Hok) as Hv. pose proof (go_number _ _ (ok_genesis _ _ _ _ _ Hok)) as Hg.
  pose proof (ok_canon _ _ _ _ _ Hok) as Hl. pose proof (ok_disk _ _ _ _ _ Hok) as Hd. pose proof (ok_caches _ _ _ _ _ Hok) as Hc.
  split.
  - split; [apply Hok|]. split; [|apply Hok]. pose proof (ok_best _ _ _ _ _ Hok) as Hb. rewrite last_lookup in Hb.
    unfold best_block_number. rewrite (branch_number _ _ _ _ _ _ Hg Hl Hb). apply lookup_lt_Some in Hb. unfold zlen. lia.
  - apply blocks_answer.
  - intros h. unfold is_known. rewrite exists_with_cache_spec. fold (block_details c h). pose proof (vo_details _ _ _ Hv h) as Hh.
    destruct (tr_known t !! h) as [b|]; [|by rewrite Hh]. destruct Hh as (d & -> & _). by split.
  - apply children_answer.
  - intros h. unfold block_receipts. rewrite cached_id by apply Hc. by rewrite (do_receipts _ _ _ _ _ Hd).
  - apply canon_answer.
  - apply transactions_answer.
  - intros x h. unfold nullifier_transaction. rewrite cached_id by apply Hc. apply Hd.
  - intros h k Hk. destruct (vo_good _ _ _ Hv _ _ Hk) as [Hz Hu]. destruct (vo_sers _ _ _ Hv _ _ Hk) as (tree & -> & Ht).
    cbn [mbind option_bind]. exists tree. split; [by eapply ser_roundtrip|by apply tree_root_rep].
  - split_and!; [apply Hix|apply numbers_answer|apply is_canon_answer].
  - intros root. unfold commitment_root_block. rewrite cached_id by apply Hc. by rewrite (ix_roots _ _ _ _ _ Hix).
  - unfold commitment_root_block. rewrite cached_id by apply Hc. apply (do_root _ _ _ _ _ Hd).
    by rewrite (ok_best _ _ _ _ _ Hok).
  - intros h1 h2 p x k1 k2 H1 H2 Hp. eexists. apply (tree_route_ok g (tr_known t) c Hg) with (p := p); try done.
    intros h b Hb. pose proof (vo_details _ _ _ Hv h) as Hh. rewrite Hb in Hh. destruct Hh as (d & Hd' & Hdf).
    exists d. split; [done|]. split; apply Hdf.
  - destruct (ok_rewards _ _ _ _ _ Hok) as (r0 & Hr0 & Hr & _). eauto.
  - apply Hok.
Qed.
End Queries.

Lemma simulates_answers config w g t c : simulates config w g t c -> answers g t c.
Proof. intros [Hok _ _ Hix]. by apply chain_answers. Qed.
End Runs.
