(* ===== verification/ChainReopen.v ===== *)
(** * Reopening the database

    [BlockChain::new] on the disk of a chain finds the same best block, difficulty and
    rewards as were committed, and leaves the disk as it is; what the wallet gets back is left
    to [reload_wallet_info]. *)

From stdpp Require Import base numbers option strings gmap list.
From S2P Require Import Prelude Serialize MerkleTree MerkleProofs Transaction Substate Blocks Rewards Sapling Wallet WalletProofs ChainStore BlockChain ChainTree ChainTables ChainInvariant ChainUpdates.

Open Scope Z_scope.

#[local] Opaque merkle_root tree_root.

Section Reopen.
Context {MH : MerkleHash} {W : Type} {WO : WalletOps W} {WL : WalletLaws W}.
Context (g : Block) (B : gmap Z Block) (R : gmap Z (list Receipt)) (l : list Block) (c : BlockChain (W := W)).
Context (Hok : chain_ok g B R l c) (w : W).

(** The chain before its wallet is reloaded. *)
Definition reopened : BlockChain (W := W) :=
  mkChain (bc_reward_config c) (bc_best_block c) None None [] w (bc_rewards c) (bc_disk c) no_tables no_tables None None None None
    import_route_none.

Abbreviation o := (opened (bc_reward_config c) (bc_best_block c) w (bc_disk c) no_tables).

Lemma opened_hash n b : l !! n = Some b -> block_hash o (Z.of_nat n) = Some (b_hash b).
Proof.
  intros Hb. assert (Hsmall : small (Z.of_nat n)).
  { pose proof (gb_small _ _ _ (ok_good _ _ _ _ _ Hok _ _ (ok_canon _ _ _ _ _ Hok))) as Hs. apply lookup_lt_Some in Hb.
    unfold small, zlen in *. lia. }
  unfold block_hash, cached. cbn [opened bc_caches bc_disk no_tables t_hashes]. rewrite lookup_empty, number_key_small by done.
  by apply (ok_disk _ _ _ _ _ Hok).
Qed.

Lemma canon_head : l !! 0%nat = Some g.
Proof. by destruct (branch_genesis_head _ _ _ _ (ok_canon _ _ _ _ _ Hok)) as (k & ->). Qed.

(** The binary search ends at the genesis block, since no number of the chain is missing. *)
Lemma search_genesis fuel n b : (n < fuel)%nat -> l !! n = Some b ->
  search_first fuel o 0 (Z.of_nat n) (b_hash b) = Some (b_hash g).
Proof.
  revert n b. induction fuel as [|fuel IH]; intros n b Hf Hb; [lia|]. cbn [search_first]. case_bool.
  - replace n with 0%nat in Hb by lia. rewrite canon_head in Hb. congruence.
  - rewrite Z.sub_0_r, Z.add_0_l, Z.shiftr_div_pow2 by lia. change (2 ^ 1) with 2.
    assert (Hm : exists m, Z.of_nat n / 2 = Z.of_nat m /\ (m < n)%nat).
    { exists (Z.to_nat (Z.of_nat n / 2)). pose proof (Z.div_pos (Z.of_nat n) 2). pose proof (Z.div_lt (Z.of_nat n) 2). lia. }
    destruct Hm as (m & -> & Hm). apply lookup_lt_Some in Hb.
    destruct (lookup_lt_is_Some_2 l m) as [b' Hb']; [lia|]. rewrite (opened_hash _ _ Hb'). apply IH; [lia|done].
Qed.

Lemma best_number : exists n, best_block_number o = Z.of_nat n /\ l !! n = Some (be_block (bc_best_block c)) /\ length l = S n.
Proof.
  pose proof (ok_best _ _ _ _ _ Hok) as Hb. rewrite last_lookup in Hb. exists (pred (length l)).
  pose proof (go_number _ _ (ok_genesis _ _ _ _ _ Hok)) as Hg. split_and!; [|done|].
  - exact (branch_number _ _ _ _ _ _ Hg (ok_canon _ _ _ _ _ Hok) Hb).
  - apply lookup_lt_Some in Hb. lia.
Qed.

Lemma loaded : load_ancient o = Some (None, None) /\ load_first o None = Some (bc_disk c, None).
Proof.
  destruct best_number as (n & Hn & Hb & Hlen). destruct (do_ordered _ _ _ _ _ (ok_disk _ _ _ _ _ Hok)) as [Ha Hf].
  unfold load_ancient, load_first. cbn [opened bc_disk]. rewrite Ha, Hf. split.
  - destruct (1 <? best_block_number o) eqn:H1; [|done]. rewrite Hn in H1. apply Z.ltb_lt in H1.
    destruct (lookup_lt_is_Some_2 l 1%nat) as [b' Hb']; [lia|]. by rewrite (opened_hash _ _ Hb' : block_hash o 1 = _).
  - rewrite Hn, Nat2Z.id. rewrite (search_genesis (S n) n _ ltac:(lia) Hb : search_first _ _ _ _ (best_block_hash o) = _).
    cbn [mbind option_bind]. unfold genesis_hash. rewrite (opened_hash _ _ canon_head : block_hash o 0 = _).
    cbn [mbind option_bind]. by rewrite Z.eqb_refl.
Qed.

(** The chain is reopened where it was, unless the rewards are not those of the era of the
    best block: then [BlockChain::new] panics. *)
Lemma reopen_ok : blockchain_new (bc_reward_config c) g w (bc_disk c) =
  loadable ← rewards_loadable (bc_reward_config c) (bc_rewards c) (best_block_number c);
  if loadable : bool then reload_wallet_info reopened else None.
Proof.
  pose proof (ok_disk _ _ _ _ _ Hok) as Hd. pose proof (ok_best _ _ _ _ _ Hok) as Hb.
  destruct (ok_rewards _ _ _ _ _ Hok) as (r0 & _ & _ & Hr).
  pose proof (ok_canon _ _ _ _ _ Hok) as Hl. pose proof Hl as (y & q & Hq & Hh & Hy)%branch_last.
  assert (Hbest : be_block (bc_best_block c) = y) by (rewrite Hq, last_snoc in Hb; congruence).
  pose proof (do_best _ _ _ _ _ Hd) as Hdb. rewrite Hb in Hdb. cbn in Hdb.
  unfold blockchain_new, load_or_create. rewrite Hdb. cbn [mbind option_bind]. unfold open_chain.
  pose proof (do_details _ _ _ _ _ Hd (best_block_hash c)) as Hdet. rewrite Hy in Hdet. destruct Hdet as (d & Hdet & Hdf).
  destruct (do_blocks _ _ _ _ _ Hd _ _ Hy) as [Hhead Hbody]. unfold best_block_hash in Hdet, Hhead, Hbody.
  rewrite Hdet, Hhead, Hbody. cbn [mbind option_bind].
  assert (He : mkBest (mkBlock (b_header y) (b_body y)) (bd_total_difficulty d) = bc_best_block c).
  { rewrite (df_difficulty _ _ _ _ _ Hdf _ Hl), <- (ok_difficulty _ _ _ _ _ Hok), <- Hbest.
    destruct (bc_best_block c) as [[? ?] ?]. done. }
  rewrite He. destruct loaded as [Ha Hf]. rewrite Ha. cbn [mbind option_bind]. rewrite Hf. cbn [mbind option_bind].
  rewrite Hr. done.
Qed.

(** The rewards after the last block of an era are not loaded. *)
Lemma era_end_best : 0 < best_block_number c -> is_era_last_block (bc_reward_config c) (best_block_number c) = Some true ->
  best_block_number c / rc_block_count_each_era (bc_reward_config c) + 1 < MAX_ERA ->
  rewards_loadable (bc_reward_config c) (bc_rewards c) (best_block_number c) <> Some true.
Proof.
  intros Hpos Hlast Hmax. destruct (ok_rewards _ _ _ _ _ Hok) as (r0 & Hr0 & Hr & _).
  pose proof (ok_canon _ _ _ _ _ Hok) as Hl. pose proof (gb_rewards _ _ _ (ok_good _ _ _ _ _ Hok _ _ Hl)) as (r0' & _ & Hr0' & _ & Hmine).
  rewrite Hr0 in Hr0'. injection Hr0' as <-. pose proof (ok_best _ _ _ _ _ Hok) as Hb.
  destruct best_number as (n & Hn & _ & Hlen). change (best_block_number o) with (best_block_number c) in Hn.
  apply last_Some in Hb as (k & Hk). rewrite Hk in Hr, Hmine, Hlen.
  destruct k as [|x k]; [cbn in Hlen; lia|]. cbn [app tail] in Hr, Hmine. rewrite enact_rewards_app in Hr.
  apply bind_Some in Hr as (r1 & Hr1 & Hr). pose proof (mining_goes_on_app _ _ _ _ _ Hmine Hr1) as Hm.
  cbn in Hr, Hm. destruct (prepare_block_rewards _ r1 _ false) as [[r2 u]|] eqn:Hp; [|done]. cbn in Hr. injection Hr as ->.
  apply (era_end_not_loadable _ (ok_config _ _ _ _ _ Hok) _ _ _ _ Hp Hlast (proj1 Hm) Hmax).
Qed.
End Reopen.
