(* ===== verification/ChainWallet.v ===== *)
(** * The wallet behind the chain

    The wallet meets what the chain asks of it, so the canonical chain determines its notes:
    each is held with the authentication path to the root of the commitment tree after the
    block that has it. *)

From stdpp Require Import base numbers option strings gmap list.
From S2P Require Import Prelude Serialize MerkleTree MerkleProofs Transaction Substate Blocks Rewards Sapling Wallet WalletProofs ChainStore BlockChain ChainTree ChainInvariant.

Open Scope Z_scope.

Section ChainWallet.
Context {MH : MerkleHash} {NC : NoteCryptography}.

#[export] Instance Wallet_ops : WalletOps Wallet := {
  wo_sync_new_block := sync_new_block;
  wo_reload_new_block := reload_new_block;
  wo_scan_new_block := scan_new_block;
  wo_remove_retracted_txs := remove_retracted_txs;
  wo_list_addresses := list_addresses;
  wo_wallet_hashes := wallet_hashes;
}.

Lemma wallet_same_spec (w w' : Wallet) : w_key_store w' = w_key_store w ->
  list_addresses w' = list_addresses w /\ forall l, admissible (wallet_keys w') l <-> admissible (wallet_keys w) l.
Proof. intros Hk. unfold list_addresses, wallet_keys. by rewrite Hk. Qed.

Lemma wallet_retract (w : Wallet) l k hs : follows w (l ++ k) -> (forall h, h ∈ hs <-> h ∈ private_hashes k) ->
  (forall h, h ∈ private_hashes l -> h ∉ private_hashes k) ->
  follows (remove_retracted_txs hs w) l /\ w_key_store (remove_retracted_txs hs w) = w_key_store w.
Proof. intros Hw Hh Hd. split; [by eapply follows_retract|]. unfold remove_retracted_txs. by case_match. Qed.

#[export] Instance Wallet_laws : WalletLaws Wallet := {
  wl_follows := follows;
  wl_admissible w := admissible (wallet_keys w);
  wl_same w w' := w_key_store w' = w_key_store w;
  wl_same_spec := wallet_same_spec;
  wl_same_trans w w' w'' H H' := eq_trans H' H;
  wl_same_refl w := eq_refl;
  wl_sync := follows_sync;
  wl_retract := wallet_retract;
}.

(** ** Where the notes of the wallet come from *)

(** The output that gave a received note, in a transaction of a block. *)
Definition received_output (keys : list (IncomingViewingKey * FullViewingKey)) (tx : LocalizedTransaction) (r : Received) : Prop :=
  exists output, vec_get (v_shielded_output (lt_unsigned tx)) (rc_index r) = Some output /\ rc_leaf r = od_cmu output /\
    decrypt_output keys output = Some (rc_ivk r, rc_fvk r, (rc_note r, rc_address r, rc_memo r)).

Lemma received_outputs_in keys height hash i before outputs after r :
  0 <= i -> r ∈ received_outputs keys height hash i before outputs after ->
  rc_height r = height /\ rc_tx r = hash /\ (rc_before r ++ [rc_leaf r]) ++ rc_after r = before ++ (od_cmu <$> outputs) ++ after /\
  i <= rc_index r /\ exists output, outputs !! Z.to_nat (rc_index r - i) = Some output /\ rc_leaf r = od_cmu output /\
    decrypt_output keys output = Some (rc_ivk r, rc_fvk r, (rc_note r, rc_address r, rc_memo r)).
Proof.
  revert i before. induction outputs as [|output outputs IH]; intros i before Hi; cbn [received_outputs]; [by intros ?%not_elem_of_nil|].
  assert (Hrest : r ∈ received_outputs keys height hash (i + 1) (before ++ [od_cmu output]) outputs after ->
    rc_height r = height /\ rc_tx r = hash /\
    (rc_before r ++ [rc_leaf r]) ++ rc_after r = before ++ (od_cmu <$> output :: outputs) ++ after /\
    i <= rc_index r /\ exists o, (output :: outputs) !! Z.to_nat (rc_index r - i) = Some o /\ rc_leaf r = od_cmu o /\
      decrypt_output keys o = Some (rc_ivk r, rc_fvk r, (rc_note r, rc_address r, rc_memo r))).
  { intros (Hh & Ht & Heq & Hle & o & Ho & Hrest)%IH; [|lia]. split_and!; [done|done| |lia|].
    - rewrite Heq. by rewrite <- !app_assoc.
    - exists o. split; [|done]. by replace (Z.to_nat (rc_index r - i)) with (S (Z.to_nat (rc_index r - (i + 1)))) by lia. }
  destruct (decrypt_output keys output) as [[[k fvk] [[note address] memo]]|] eqn:Hdec; [|exact Hrest].
  rewrite elem_of_cons. intros [->|Hr]; [|exact (Hrest Hr)]. cbn. split_and!; [done|done| |lia|].
  - by rewrite <- !app_assoc.
  - rewrite Z.sub_diag. by exists output.
Qed.

Lemma received_txs_in keys height before txs r : r ∈ received_txs keys height before txs ->
  rc_height r = height /\ (rc_before r ++ [rc_leaf r]) ++ rc_after r = before ++ mjoin (tx_notes <$> txs) /\
  exists tx, tx ∈ txs /\ rc_tx r = lt_hash tx /\ received_output keys tx r.
Proof.
  revert before. induction txs as [|tx txs IH]; intros before; cbn [received_txs]; [by intros ?%not_elem_of_nil|].
  change (mjoin (tx_notes <$> tx :: txs)) with (tx_notes tx ++ mjoin (tx_notes <$> txs)). intros [Hr|Hr]%elem_of_app.
  - apply received_outputs_in in Hr as (Hh & Ht & Heq & Hle & o & Ho & Hl & Hd); [|lia]. split_and!; [done|done|].
    exists tx. split_and!; [left|done|]. exists o. split_and!; [|done|done]. unfold vec_get. rewrite Z.sub_0_r in Ho.
    by rewrite (proj2 (Z.leb_le _ _)).
  - apply IH in Hr as (Hh & Heq & tx' & Htx & Hrest). rewrite <- (app_assoc before) in Heq. split_and!; [done|done|].
    exists tx'. split; [by right|done].
Qed.

(** A received note is an output of a block of the chain, and the notes before and after it
    are those of the chain up to this block. *)
Lemma received_in keys before l r : r ∈ received_from keys before l ->
  exists p b k, l = p ++ b :: k /\ rc_height r = b_number b /\
    (rc_before r ++ [rc_leaf r]) ++ rc_after r = before ++ chain_notes (p ++ [b]) /\
    exists tx, tx ∈ localized_private_txs b /\ rc_tx r = lt_hash tx /\ received_output keys tx r.
Proof.
  revert before. induction l as [|b l IH]; intros before; cbn [received_from]; [by intros ?%not_elem_of_nil|].
  intros [Hr|Hr]%elem_of_app.
  - apply received_txs_in in Hr as (Hh & Heq & Hout). exists [], b, l. split_and!; [done|done| |done].
    rewrite Heq. unfold chain_notes. cbn [app fmap list_fmap]. change (mjoin [block_notes b]) with (block_notes b ++ []).
    by rewrite app_nil_r, block_notes_txs.
  - apply IH in Hr as (p & b' & k & -> & Hh & Heq & Hout). exists (b :: p), b', k. split_and!; [done|done| |done].
    rewrite Heq, <- (app_assoc before). done.
Qed.

(** The witness of a note leads to the root after its block. *)
Lemma note_witness r n l : note_for r n -> (rc_before r ++ [rc_leaf r]) ++ rc_after r = chain_notes l ->
  exists w nodes, nd_witnesses n = [w] /\ witness_root w = Some (merkle_root 32 (chain_notes l)) /\
    length nodes = 32%nat /\
    witness_path w = Some (Some (mkPath (slice_bits nodes (zlen (rc_before r))) (zlen (rc_before r)))) /\
    path_root 0 (rc_leaf r) (slice_bits nodes (zlen (rc_before r))) = merkle_root 32 (chain_notes l).
Proof.
  intros (_ & _ & _ & _ & _ & _ & _ & _ & _ & w & Hw & Hrep) Heq. rewrite <- Heq.
  destruct (witness_path_ok w 32 _ _ _ Hrep ltac:(lia)) as (nodes & Hlen & Hp & Hr). exists w, nodes.
  split_and!; [done| |done|done|done]. apply (witness_root_ok w 32 _ _ Hrep). lia.
Qed.

(** A wallet without notes follows a chain in which it receives none. *)
Lemma follows_empty k l : received_chain (map_to_list (ks_full k)) l = [] -> follows (mkWallet ∅ ∅ ∅ k) l.
Proof.
  intros Hr. unfold follows, wallet_keys. cbn [w_key_store]. rewrite Hr. split; cbn.
  - constructor.
  - by intros r ?%not_elem_of_nil.
  - intros x [n Hn]. by rewrite lookup_empty in Hn.
  - intros h x. rewrite lookup_empty. cbn. split; [by intros ?%not_elem_of_nil|by intros (r & ?%not_elem_of_nil & _)].
  - intros h x. rewrite lookup_empty. cbn. split; [by intros ?%not_elem_of_nil|by intros (r & ?%not_elem_of_nil & _)].
Qed.

End ChainWallet.
