(* ===== verification/TestChain.v ===== *)
(** * A concrete chain

    A small hash function and decryption, and a chain with a fork, on which the theorems about
    the block chain are instantiated: the genesis block has the branches [a1 a2] and
    [b1 b2 b3], and importing [b3] makes the second one canonical. Blocks [a1], [b1] and [b2]
    have a shielded output for the key of the wallet. *)

From stdpp Require Import base numbers option strings gmap list.
From S2P Require Import Prelude Serialize MerkleTree MerkleProofs Transaction Substate Blocks Rewards Sapling Wallet WalletProofs ChainStore BlockChain ChainTree ChainInvariant ChainUpdates ChainGenesis ChainRuns ChainWallet.

Open Scope Z_scope.

Module TestChain.

#[export] Instance test_merkle : MerkleHash := fun d a b => (3 * a + 5 * b + Z.of_nat d + 1) mod U256_MOD.

Lemma test_u256 d a b : is_u256 (merkle_hash d a b).
Proof. apply Z.mod_pos_bound. done. Qed.

(** Keys are their own addresses; the key that decrypts an output is its ciphertext. *)
#[export] Instance test_crypto : NoteCryptography := {
  IncomingViewingKey := Z;
  FullViewingKey := Z;
  PaymentAddress := Z;
  Note := Z;
  Memo := unit;
  EphemeralKey := bytes;
  as_prime_order k := Some k;
  try_sapling_note_decryption k _ cmu ciphertext := if bool_decide (ciphertext = [k]) then Some (cmu, k, tt) else None;
  nf note key position := 1000 * note + position;
  ivk k := k;
  note_value note := note;
  encode_payment_address a := if a =? 7 then "seven"%string else "other"%string;
  decode_payment_address s := if bool_decide (s = "seven"%string) then Some 7 else None;
}.

Definition test_wallet : Wallet := mkWallet ∅ ∅ ∅ (add_full_viewing_key 7 7 (mkKeyStore ∅ ∅)).

Definition test_config (blocks : Z) : RewardConfig := mkRewardConfig (rc_total_reward default_reward_config) blocks 50 2.

(** A transaction that spends [nullifiers] and makes the notes [notes] for the key 7. *)
Definition shielded (hash : Z) (nullifiers : list Z) (notes : list Z) : UnverifiedTransaction :=
  mkUnverifiedTransaction
    (mkTransaction 0 1 21000 ActionPrivateToPrivate 0 []
      (Some (mkPrivateTransaction ((fun n => mkSpendDescription 0 (be_bytes 32 n)) <$> nullifiers)
        ((fun cmu => mkOutputDescription cmu [] [7]) <$> notes) 0 [])))
    1 0 0 hash.

Definition public (hash : Z) : UnverifiedTransaction :=
  mkUnverifiedTransaction (mkTransaction 0 1 21000 (ActionCall 9) 5 [] None) 27 1 1 hash.

Definition test_header (hash parent number bloom : Z) : Header :=
  mkHeader parent 0 number 77 0 0 [] 0 0 bloom 0 0 1 [] hash.

Definition g : Block := mkBlock (test_header 1 100 0 0) (mkBody [] []).
Definition a1 : Block := mkBlock (test_header 11 1 1 6) (mkBody [public 300; shielded 301 [] [50]] []).
Definition a2 : Block := mkBlock (test_header 12 11 2 0) (mkBody [] []).
Definition b1 : Block := mkBlock (test_header 21 1 1 5) (mkBody [shielded 302 [] [60; 61]] []).
Definition b2 : Block := mkBlock (test_header 22 21 2 0) (mkBody [shielded 303 [60000] [70]; public 300] []).
Definition b3 : Block := mkBlock (test_header 23 22 3 0) (mkBody [] []).

(** A block with more work than [a1] and [a2] together. *)
Definition heavy : Block := mkBlock (mkHeader 1 0 1 77 0 0 [] 0 0 0 0 0 3 [] 31) (mkBody [] []).

(** A block with notes for the key 8 and one for the key 7. *)
Definition foreign (hash : Z) (notes : list Z) : UnverifiedTransaction :=
  mkUnverifiedTransaction
    (mkTransaction 0 1 21000 ActionPrivateToPrivate 0 []
      (Some (mkPrivateTransaction [] ((fun cmu => mkOutputDescription cmu [] [8]) <$> notes) 0 [])))
    1 0 0 hash.
Definition mixed : Block := mkBlock (test_header 41 1 1 0) (mkBody [foreign 400 [80; 81]; shielded 401 [] [90]] []).

Definition best : ExtrasInsert := mkExtras ForkNew false.
Definition side : ExtrasInsert := mkExtras ForkOld false.

Definition fork_events : list Event :=
  [Import a1 [] best; Import a2 [] best; Import b1 [] side; Import b2 [] side; Finalize 11].

Definition test_events : list Event := fork_events ++ [Import b3 [] best].

Definition start (blocks : Z) : option BlockChain := blockchain_new (test_config blocks) g test_wallet empty_disk.

(** Whether the path of a note leads from its commitment to the root of its witness. *)
Definition authentic (n : SaplingNoteData) : option bool :=
  let cmu : Z := nd_note n in
  wit ← front n; path ← witness_path wit; path ← path; root ← witness_root wit;
  Some (path_root 0 cmu (auth_path path) =? root).

(** ** The branches can be canonical *)

Fixpoint goes_on (c : RewardConfig) (r : Rewards) (l : list Block) : bool :=
  match l with
  | [] => true
  | b :: l => match prepare_block_rewards c r b false with Some (r', _) => negb (mining_ends c r' b) && goes_on c r' l | None => false end
  end.

Lemma goes_on_ok c r l : goes_on c r l = true -> (exists r', enact_rewards c r l = Some r') /\ mining_goes_on c r l.
Proof.
  revert r. induction l as [|b l IH]; intros r Hg; [split; [by eexists|done]|]. cbn in Hg |- *.
  destruct (prepare_block_rewards c r b false) as [[r' u]|]; [|done]. cbn.
  apply andb_prop in Hg as [Hm Hg]. apply negb_true_iff in Hm. destruct (IH _ Hg) as [He Hr]. done.
Qed.

Definition good (config : RewardConfig) (l : list Block) : bool :=
  (zlen l <=? 2 ^ 32) && bool_decide (NoDup (chain_addresses l).*1) && bool_decide (NoDup (chain_nullifiers l).*1) &&
  (total_difficulty l <? U256_MOD) && (zlen (chain_notes l) <=? 2 ^ 32) &&
  forallb (fun x => (0 <=? x) && (x <? U256_MOD)) (chain_notes l) &&
  match genesis_rewards config with Some r => goes_on config r (tail l) | None => false end &&
  bool_decide (NoDup (rc_nullifier <$> received_chain (wallet_keys test_wallet) l)).

Lemma good_ok config l : good config l = true -> good_branch config test_wallet l.
Proof.
  unfold good. rewrite !andb_true_iff, !bool_decide_eq_true, !Z.leb_le, Z.ltb_lt. intros [[[[[[[H1 H2] H3] H4] H5] H6] H7] H8].
  split; try done.
  - split; [done|]. apply Forall_forall. intros x Hx. rewrite forallb_forall in H6. apply list_elem_of_In, H6 in Hx.
    apply andb_prop in Hx as [Hx1%Z.leb_le Hx2%Z.ltb_lt]. done.
  - destruct (genesis_rewards config) as [r|]; [|done]. destruct (goes_on_ok _ _ _ H7) as [(r' & Hr) Hm]. by exists r, r'.
Qed.

Lemma test_genesis : genesis_fits (test_config 10) g test_wallet.
Proof.
  split; [by split|done..| |].
  - by apply good_ok; vm_compute.
  - by apply follows_empty; vm_compute.
Qed.

Definition first_tree : Tree := add_block a1 [] ForkNew [g] (genesis_tree g).

(** The tree before [b3], and the one after it. *)
Definition fork_tree : Tree :=
  add_block b2 [] ForkOld [g; b1] (add_block b1 [] ForkOld [g] (add_block a2 [] ForkNew [g; a1] first_tree)).

Definition final_tree : Tree := add_block b3 [] ForkNew [g; b1; b2] fork_tree.

(** The branch of a block from that of its parent. *)
Ltac child b l := apply (branch_child g _ _ b l); [|reflexivity|reflexivity|reflexivity|discriminate].

(** One more block is imported, below the branch [l]. *)
Ltac import l := eapply (runs_import _ _ _ _ _ _ _ l);
  [reflexivity| |reflexivity|discriminate|by apply good_ok; vm_compute|].

Lemma fork_runs : runs (test_config 10) test_wallet g (genesis_tree g) fork_events fork_tree.
Proof.
  import [g]; [by apply branch_genesis|].
  import [g; a1]; [child a1 [g]; by apply branch_genesis|].
  import [g]; [by apply branch_genesis|].
  import [g; b1]; [child b1 [g]; by apply branch_genesis|].
  apply runs_finalize; [by eexists|]. apply runs_nil.
Qed.

Lemma last_run : runs (test_config 10) test_wallet g fork_tree [Import b3 [] best] final_tree.
Proof. import [g; b1; b2]; [child b2 [g; b1]; child b1 [g]; by apply branch_genesis|apply runs_nil]. Qed.

Lemma test_runs : runs (test_config 10) test_wallet g (genesis_tree g) test_events final_tree.
Proof. exact (runs_app _ _ _ _ _ _ _ _ fork_runs last_run). Qed.

(** The branch [a1 a2], and [heavy] in its place. *)
Definition two_tree : Tree := add_block a2 [] ForkNew [g; a1] first_tree.

Lemma two_runs : runs (test_config 10) test_wallet g (genesis_tree g) [Import a1 [] best; Import a2 [] best] two_tree.
Proof.
  import [g]; [by apply branch_genesis|].
  import [g; a1]; [child a1 [g]; by apply branch_genesis|]. apply runs_nil.
Qed.

Lemma heavy_run : runs (test_config 10) test_wallet g two_tree [Import heavy [] best] (add_block heavy [] ForkNew [g] two_tree).
Proof. import [g]; [by apply branch_genesis|apply runs_nil]. Qed.

(** The chain up to [a1], with eras of two or ten blocks. *)
Lemma test_genesis_two : genesis_fits (test_config 2) g test_wallet.
Proof.
  split; [by split|done..| |].
  - by apply good_ok; vm_compute.
  - by apply follows_empty; vm_compute.
Qed.

Lemma first_runs blocks : blocks = 2 \/ blocks = 10 ->
  runs (test_config blocks) test_wallet g (genesis_tree g) [Import a1 [] best] first_tree.
Proof. intros [->| ->]; (import [g]; [by apply branch_genesis|apply runs_nil]). Qed.

Definition era_rewards : Rewards := default rewards_new (genesis_rewards (test_config 2)).

Definition later_rewards : Rewards := default rewards_new (enact_rewards (test_config 2) era_rewards [a1]).

Definition last_rewards : Rewards := default rewards_new (enact_rewards (test_config 2) era_rewards [a1; a2]).
End TestChain.
