(* ===== verification/ChainTheorems.v ===== *)
(** * The theorems about the block chain

    The chain refines a tree of blocks with a canonical branch, its wallet holds what this
    branch pays to its keys, and rewards and the database survive reorganisations and
    restarts; and the situations in which they do not. *)

From stdpp Require Import base numbers option strings gmap list.
From S2P Require Import Prelude Serialize MerkleTree MerkleProofs Transaction Substate Blocks Rewards Sapling Wallet WalletProofs ChainStore BlockChain ChainTree ChainTables ChainInvariant ChainUpdates ChainInsert ChainGenesis ChainRuns ChainReopen ChainWallet TestChain.

Open Scope Z_scope.
Import TestChain.

#[local] Opaque merkle_root tree_root.

Section Chain.
Context {MH : MerkleHash} {W : Type} {WO : WalletOps W} {WL : WalletLaws W}.
Context (hash_u256 : forall d a b, is_u256 (merkle_hash d a b)).
Context (config : RewardConfig) (g : Block) (w : W).

(** A run from a new database. *)
Lemma run_simulates es t : genesis_fits config g w -> runs config w g (genesis_tree g) es t ->
  exists c0 c, blockchain_new config g w empty_disk = Some c0 /\ perform_all es c0 = Some c /\ simulates config w g t c.
Proof.
  intros Hf Hr. destruct (new_simulates _ _ _ Hf) as (c0 & Hc0 & Hs0).
  destruct (runs_simulate hash_u256 _ _ _ _ _ _ _ Hr Hs0) as (c & Hc & Hs). eauto 6.
Qed.

Lemma run_same es t c0 c : genesis_fits config g w -> runs config w g (genesis_tree g) es t ->
  blockchain_new config g w empty_disk = Some c0 -> perform_all es c0 = Some c -> simulates config w g t c.
Proof.
  intros Hf Hr Hc0 Hc. destruct (run_simulates es t Hf Hr) as (c0' & c' & H0 & H1 & Hs). congruence.
Qed.

(** C2: the block chain refines a tree of blocks with a canonical branch. From an empty
    database, any sequence of finalisations and of imports of blocks below known ones, with
    either outcome of the fork choice, is performed without a panic, as long as the branch of
    every block is one that the chain can follow ([good_branch]): at most [2 ^ 32] blocks and
    notes, a total difficulty below [2 ^ 256], no transaction or nullifier twice, and rewards
    that are computed without overflow and do not run out. Afterwards the queries answer for
    the tree: blocks, children and receipts; the transactions and nullifiers of the canonical
    branch and of no other; every number up to that of the best block, as the canonical branch
    has it, and above it the blocks that longer branches left there, which pass for canonical
    ([tr_numbers]); the recorded roots as [anchored] keeps them, always with that of the best
    block ([tr_anchors]); the commitment tree of every block; the routes between any two
    blocks; the rewards and the wallet of the canonical branch. *)
Theorem chain_refines_tree es t : genesis_fits config g w -> runs config w g (genesis_tree g) es t ->
  exists c0 c, blockchain_new config g w empty_disk = Some c0 /\ perform_all es c0 = Some c /\ answers g t c.
Proof.
  intros Hf Hr. destruct (run_simulates es t Hf Hr) as (c0 & c & H0 & H1 & Hs). exists c0, c. split_and!; [done|done|].
  by eapply simulates_answers.
Qed.

(** C6: an import reports the reorganisation it makes. After any run, importing a block that
    fits gives the route from the old canonical branch to the new one: the blocks it retracts
    from the newest down to where the branches part, and those it enacts from there to the
    new block; nothing, if the fork choice is for the old branch. *)
Theorem imports_report_route es t b receipts extras lp : genesis_fits config g w ->
  runs config w g (genesis_tree g) es t -> tr_known t !! b_hash b = None -> branch g (tr_known t) (b_parent_hash b) lp ->
  b_number b = zlen lp -> b_hash b <> b_parent_hash g -> good_branch config w (lp ++ [b]) ->
  exists c0 c route cb, blockchain_new config g w empty_disk = Some c0 /\ perform_all es c0 = Some c /\
    insert_block b receipts extras (c, empty_batch) = Some (route, cb) /\
    leads (tr_canon t) (chosen (ei_fork_choice extras) b (tr_canon t) lp) route.
Proof.
  intros Hf Hr Hnew Hlp Hnum Hgen Hgood. destruct (run_simulates es t Hf Hr) as (c0 & c & H0 & H1 & [Hok Hc Hk _]).
  assert (Hfits : fits g (tr_known t) c b lp) by (split; try done; rewrite Hc; by eapply good_same).
  destruct (insert_block_ok hash_u256 _ _ _ _ _ Hok _ _ receipts Hfits extras) as (route & cb & Hi & Hl & _).
  by exists c0, c, route, cb.
Qed.

(** C7: a committed chain is found again. Opening the database that a run left gives the
    best block, its total difficulty and the rewards that were committed, on the same disk
    and with nothing pending, if the rewards are those of the era of the best block; if they
    are not, it panics. *)
Theorem reopening_restores_chain es t c0 c w' : genesis_fits config g w -> runs config w g (genesis_tree g) es t ->
  blockchain_new config g w empty_disk = Some c0 -> perform_all es c0 = Some c ->
  blockchain_new config g w' (bc_disk c) =
  loadable ← rewards_loadable config (bc_rewards c) (best_block_number c);
  if loadable : bool then reload_wallet_info (reopened c w') else None.
Proof.
  intros Hf Hr H0 H1. destruct (run_same es t c0 c Hf Hr H0 H1) as [Hok <- _ _]. by eapply reopen_ok.
Qed.

(** C33: a node does not start again at the end of an era. If the best block is the last of
    its era, and there is an era left after it, opening the database panics. *)
Theorem era_end_restart_panics es t c0 c w' : genesis_fits config g w -> runs config w g (genesis_tree g) es t ->
  blockchain_new config g w empty_disk = Some c0 -> perform_all es c0 = Some c ->
  0 < best_block_number c -> is_era_last_block config (best_block_number c) = Some true ->
  best_block_number c / rc_block_count_each_era config + 1 < MAX_ERA ->
  blockchain_new config g w' (bc_disk c) = None.
Proof.
  intros Hf Hr H0 H1 Hpos Hlast Hmax. destruct (run_same es t c0 c Hf Hr H0 H1) as [Hok Hc _ _].
  pose proof (reopen_ok _ _ _ _ _ Hok w') as Ho. rewrite Hc in Ho. rewrite Ho. clear Ho.
  pose proof (era_end_best _ _ _ _ _ Hok w') as He. rewrite Hc in He. specialize (He Hpos Hlast Hmax).
  destruct (rewards_loadable config (bc_rewards c) (best_block_number c)) as [[]|]; done.
Qed.

(** Scanning changes the wallet only. *)
Lemma scan_wallet_only (c c1 : BlockChain (W := W)) : scan_for_new_imported_users_in_wallet c = Some c1 -> exists w1, c1 = set_wallet w1 c.
Proof.
  unfold scan_for_new_imported_users_in_wallet, scan_for_wallet_transactions.
  case_match; [intros [= <-]; exists (bc_wallet c); by destruct c|]. case_match; [|done].
  intros (w1 & _ & [= <-])%bind_Some. by exists w1.
Qed.

(** The details of the parent that are committed with a new block. *)
Lemma insert_parent_details (c : BlockChain (W := W)) batch b receipts route extras r cb : b_parent_hash b <> b_hash b ->
  is_known_child c (b_parent_hash b) (b_hash b) = false ->
  insert_block_with_route b receipts route extras (c, batch) = Some (r, cb) ->
  exists d, block_details c (b_parent_hash b) = Some d /\
    block_details (write_and_commit cb) (b_parent_hash b) = Some (push_child (b_hash b) d).
Proof.
  intros Hne Hchild. unfold insert_block_with_route. rewrite Hchild. case_match; [done|].
  intros (info & Hinfo & Hi)%bind_Some. unfold prepare_wallet_update in Hi.
  destruct (update_wallet _ _ _ _ _) as [w1|]; [|done]. cbn [mbind option_bind] in Hi.
  apply bind_Some in Hi as (details & Hdet & Hi). apply bind_Some in Hi as (rewards & _ & Hi). apply bind_Some in Hi as (u & Hu & Hi).
  unfold prepare_block_details_update in Hdet. apply bind_Some in Hdet as (d & Hd & Hdet). injection Hdet as Hdet.
  exists d. split; [exact Hd|].
  assert (Hud : eu_block_details u = details).
  { unfold extras_update in Hu. repeat (apply bind_Some in Hu as (? & _ & Hu)). by injection Hu as <-. }
  assert (Hbi : bi_hash info = b_hash b).
  { unfold block_info in Hinfo. repeat (apply bind_Some in Hinfo as (? & _ & Hinfo)). by injection Hinfo as <-. }
  destruct (prepare_update u true _) as [c2 b2] eqn:Hpu. injection Hi as <- <-.
  assert (Hpend : t_details (bc_pending c2) !! b_parent_hash b = Some (push_child (b_hash b) d)).
  { unfold prepare_update in Hpu. injection Hpu as <- _. cbn [set_pending bc_pending extend_pending t_details].
    rewrite lookup_union_or, Hud, <- Hdet, Hbi, lookup_insert_ne, lookup_singleton_eq by done. done. }
  unfold block_details, cached, write_and_commit, commit. cbn -[union]. by rewrite lookup_union_or, Hpend.
Qed.

(** A block that is marked as finalised in the batch that imports one of its children
    is not finalised after it. The import writes the details of the parent as they were
    before the batch. *)
Theorem finality_of_parent_lost (c : BlockChain (W := W)) d batch b receipts extras cb route cb' : b_parent_hash b <> b_hash b ->
  block_details c (b_parent_hash b) = Some d -> is_known_child c (b_parent_hash b) (b_hash b) = false ->
  mark_finalized (b_parent_hash b) (c, batch) = Some cb -> insert_block b receipts extras cb = Some (route, cb') ->
  block_details (write_and_commit cb') (b_parent_hash b) = Some (push_child (b_hash b) d).
Proof.
  intros Hne Hd Hchild Hm Hi. unfold mark_finalized in Hm. cbn [fst] in Hm. rewrite Hd in Hm. cbn [mbind option_bind] in Hm.
  injection Hm as <-. unfold insert_block in Hi. apply bind_Some in Hi as (c1 & (w1 & ->)%scan_wallet_only & Hi).
  apply bind_Some in Hi as (r1 & _ & Hi). apply bind_Some in Hi as (r2 & _ & Hi). destruct cb' as [c' b'].
  apply insert_parent_details in Hi as (d' & Hd' & Hres); [|exact Hne|exact Hchild].
  assert (d' = d) as -> by (change (block_details c (b_parent_hash b) = Some d') in Hd'; congruence). exact Hres.
Qed.

(** A run that ends with an import. *)
Lemma run_import es t b receipts extras t' : genesis_fits config g w -> runs config w g (genesis_tree g) es t ->
  runs config w g t [Import b receipts extras] t' ->
  exists c0 c c', blockchain_new config g w empty_disk = Some c0 /\ perform_all es c0 = Some c /\
    perform (Import b receipts extras) c = Some c' /\ simulates config w g t c /\ simulates config w g t' c'.
Proof.
  intros Hf Hr Hi. destruct (run_simulates es t Hf Hr) as (c0 & c & H0 & H1 & Hs).
  destruct (runs_simulate hash_u256 _ _ _ _ _ _ _ Hi Hs) as (c' & H2 & Hs'). exists c0, c, c'. split_and!; try done.
  cbn [perform_all] in H2. by destruct (perform _ c).
Qed.

Lemma import_branch t b receipts extras lp : ei_fork_choice extras = ForkNew ->
  runs config w g t [Import b receipts extras] (add_block b receipts ForkNew lp t) -> branch g (tr_known t) (b_parent_hash b) lp.
Proof.
  intros Hch Hi. inversion Hi as [|? ? ? ? lp' ? ? _ Hlp _ _ _ Hnil|]; subst.
  assert (Heq : forall a b, runs config w g a [] b -> a = b) by (by inversion 1).
  apply Heq, (f_equal tr_canon) in Hnil. rewrite Hch in Hnil. cbn in Hnil. apply app_inj_tail in Hnil as [-> _]. done.
Qed.

(** C34: a reorganisation loses anchors. After any run, let a block [b] on the branch [lp]
    become canonical; [p] is what [lp] shares with the canonical branch before. Apart from the
    roots of [lp] and of [lp ++ [b]], which lead to [b], the import records no root: those of
    the blocks it enacts below the parent of [b] stay unknown if they were, and so do the
    anchors of notes in them. The roots of retracted blocks are forgotten, also if they are
    roots of blocks that stay canonical. *)
Theorem reorganisation_loses_anchors es t b receipts extras lp p k1 k2 : genesis_fits config g w ->
  runs config w g (genesis_tree g) es t -> ei_fork_choice extras = ForkNew ->
  runs config w g t [Import b receipts extras] (add_block b receipts ForkNew lp t) ->
  tr_canon t = p ++ k1 -> lp = p ++ k2 -> parts k1 k2 ->
  exists c0 c c', blockchain_new config g w empty_disk = Some c0 /\ perform_all es c0 = Some c /\
    perform (Import b receipts extras) c = Some c' /\ best_block_hash c' = b_hash b /\
    (forall root, root <> branch_root lp -> root <> branch_root (lp ++ [b]) -> commitment_root_block c' root =
       if decide (root ∈ branch_root <$> branches_from (length p) (tr_canon t)) then None else commitment_root_block c root) /\
    (k2 <> [] -> branch_root lp <> branch_root (lp ++ [b]) -> commitment_root_block c' (branch_root lp) = Some (b_hash b)).
Proof.
  intros Hf Hr Hch Hi Hl Hlp Hp. destruct (run_import _ _ _ _ _ _ Hf Hr Hi) as (c0 & c & c' & H0 & H1 & H2 & Hs & Hs').
  exists c0, c, c'.
  assert (Hsh : shared (tr_canon t) lp = length p).
  { pose proof (import_branch _ _ _ _ _ Hch Hi) as Hbr. pose proof (ok_canon _ _ _ _ _ (si_ok _ _ _ _ _ Hs)) as Hcan.
    rewrite Hl in Hcan |- *. rewrite Hlp in Hbr |- *. by eapply shared_fork. }
  split_and!; [done..| | |];
    pose proof (simulates_answers hash_u256 _ _ _ _ _ Hs) as Ha; pose proof (simulates_answers hash_u256 _ _ _ _ _ Hs') as Ha'.
  - destruct (an_best _ _ _ Ha') as (Hb & _). cbn [tr_canon add_block chosen] in Hb. rewrite last_snoc in Hb. injection Hb as Hb.
    unfold best_block_hash. by rewrite <- Hb.
  - intros root H3 H4. rewrite (an_anchors _ _ _ Ha'), (an_anchors _ _ _ Ha). cbn [tr_anchors add_block]. unfold anchored.
    rewrite Hsh, lookup_insert_ne by done. case_match; rewrite ?lookup_insert_ne by done; apply lookup_foldr_delete.
  - intros Hk2 Hne. rewrite (an_anchors _ _ _ Ha'). cbn [tr_anchors add_block]. unfold anchored.
    rewrite Hsh, lookup_insert_ne, (proj2 (Nat.ltb_lt _ _)) by (done || (rewrite Hlp, length_app; destruct k2; [done|cbn; lia])).
    apply lookup_insert_eq.
Qed.

(** C35: numbers of a longer branch stay. After any run, if an import makes a branch
    canonical that is shorter than the one before, every number above its best block still
    leads to the block that the old branch had there; these blocks are not on the canonical
    branch any more, and pass for canonical. *)
Theorem retracted_block_stays_canonical es t b receipts extras t' : genesis_fits config g w ->
  runs config w g (genesis_tree g) es t -> runs config w g t [Import b receipts extras] t' ->
  exists c0 c, blockchain_new config g w empty_disk = Some c0 /\ perform_all (es ++ [Import b receipts extras]) c0 = Some c /\
    forall n y, tr_canon t !! n = Some y -> best_block_number c < Z.of_nat n ->
      (y ∉ tr_canon t') /\ block_hash c (Z.of_nat n) = Some (b_hash y) /\ is_canon c (b_hash y) = true.
Proof.
  intros Hf Hr Hi. destruct (run_import _ _ _ _ _ _ Hf Hr Hi) as (c0 & c & c' & H0 & H1 & H2 & Hs & Hs').
  exists c0, c'. split; [done|]. split; [rewrite perform_all_app, H1; cbn [mbind option_bind perform_all]; by rewrite H2|]. intros n y Hy Hn.
  pose proof (simulates_answers hash_u256 _ _ _ _ _ Hs') as Ha'. destruct (an_best _ _ _ Ha') as (_ & Hlen & _).
  destruct (an_numbers _ _ _ Ha') as (_ & Hnum & Hcanon). pose proof (ix_prefix _ _ _ _ _ (si_indexed _ _ _ _ _ Hs)) as [rest Hpre].
  pose proof (si_ok _ _ _ _ _ Hs) as Hok. pose proof (si_ok _ _ _ _ _ Hs') as Hok'.
  pose proof (go_number _ _ (ok_genesis _ _ _ _ _ Hok)) as Hg. pose proof (branch_number _ _ _ _ _ _ Hg (ok_canon _ _ _ _ _ Hok) Hy) as Hyn.
  assert (Hold : tr_numbers t' !! n = Some y).
  { inversion Hi as [|? ? ? ? lp ? ? _ _ _ _ _ Hnil|]; subst. inversion Hnil; subst. cbn [tr_numbers tr_canon add_block] in *.
    unfold zlen in Hlen. rewrite lookup_app_r, lookup_drop, Nat.add_comm, Nat.sub_add by lia. rewrite Hpre. by apply lookup_app_l_Some. }
  split_and!.
  - intros [i Hiy]%list_elem_of_lookup. pose proof (branch_number _ _ _ _ _ _ Hg (ok_canon _ _ _ _ _ Hok') Hiy) as Hin.
    apply lookup_lt_Some in Hiy. unfold zlen in Hlen. lia.
  - rewrite Hnum, Nat2Z.id, Hold; [done|]. pose proof (gb_small _ _ _ (ok_good _ _ _ _ _ Hok _ _ (ok_canon _ _ _ _ _ Hok))) as Hsm.
    apply lookup_lt_Some in Hy. unfold small, zlen in *. lia.
  - apply Hcanon. exists y. split; [by eapply list_elem_of_lookup_2|done].
Qed.

End Chain.

Lemma chain_refines_tree_witness : exists c0 c, blockchain_new (test_config 10) g test_wallet empty_disk = Some c0 /\
  perform_all test_events c0 = Some c /\ answers g final_tree c.
Proof. apply (chain_refines_tree test_u256 (test_config 10) g test_wallet test_events final_tree test_genesis test_runs). Defined.

Lemma imports_report_route_witness : exists c0 c route cb,
  blockchain_new (test_config 10) g test_wallet empty_disk = Some c0 /\ perform_all [Import a1 [] best] c0 = Some c /\
  insert_block b1 [] best (c, empty_batch) = Some (route, cb) /\ leads [g; a1] [g; b1] route.
Proof.
  apply (imports_report_route test_u256 (test_config 10) g test_wallet [Import a1 [] best] first_tree b1 [] best [g] test_genesis
    (first_runs 10 (or_intror eq_refl))).
  - reflexivity.
  - by apply branch_genesis.
  - reflexivity.
  - discriminate.
  - by apply good_ok; vm_compute.
Defined.

Lemma reopening_restores_chain_witness : exists c0 c, blockchain_new (test_config 10) g test_wallet empty_disk = Some c0 /\
  perform_all test_events c0 = Some c /\
  blockchain_new (test_config 10) g test_wallet (bc_disk c) =
  loadable ← rewards_loadable (test_config 10) (bc_rewards c) (best_block_number c);
  if loadable : bool then reload_wallet_info (reopened c test_wallet) else None.
Proof.
  destruct (run_simulates test_u256 (test_config 10) g test_wallet test_events final_tree test_genesis test_runs)
    as (c0 & c & H0 & H1 & _).
  exists c0, c. split; [exact H0|]. split; [exact H1|].
  apply (reopening_restores_chain test_u256 _ _ _ test_events final_tree c0 c test_wallet test_genesis test_runs H0 H1).
Defined.

Lemma era_end_restart_panics_witness : exists c0 c, blockchain_new (test_config 2) g test_wallet empty_disk = Some c0 /\
  perform_all [Import a1 [] best] c0 = Some c /\ blockchain_new (test_config 2) g test_wallet (bc_disk c) = None.
Proof.
  destruct (run_simulates test_u256 (test_config 2) g test_wallet _ _ test_genesis_two (first_runs 2 (or_introl eq_refl)))
    as (c0 & c & H0 & H1 & Hs).
  destruct (an_best _ _ _ (simulates_answers test_u256 _ _ _ _ _ Hs)) as (_ & Hn & _). change (zlen (tr_canon first_tree) - 1) with 1 in Hn.
  exists c0, c. split; [exact H0|]. split; [exact H1|].
  apply (era_end_restart_panics test_u256 _ _ _ _ _ c0 c test_wallet test_genesis_two (first_runs 2 (or_introl eq_refl)) H0 H1);
    rewrite Hn; reflexivity.
Defined.

Lemma finality_of_parent_lost_witness : exists c cb route cb', (c ← start 10; perform (Import a1 [] best) c) = Some c /\
  mark_finalized 11 (c, empty_batch) = Some cb /\ insert_block a2 [] best cb = Some (route, cb') /\
  block_details (write_and_commit cb') 11 = Some (mkDetails 1 2 1 [12] false).
Proof.
  assert (Hall : is_Some (c ← start 10; c ← perform (Import a1 [] best) c; cb ← mark_finalized 11 (c, empty_batch); insert_block a2 [] best cb)).
  { apply is_Some_alt. vm_compute. exact I. }
  assert (Hc0 : (c ← start 10; c ← perform (Import a1 [] best) c; Some (block_details c 11, is_known_child c 11 12)) =
    Some (Some (mkDetails 1 2 1 [] false), false)) by (vm_compute; reflexivity).
  destruct Hall as [[route cb'] (c0 & H0 & (c & H1 & (cb & H2 & H3)%bind_Some)%bind_Some)%bind_Some].
  rewrite H0 in Hc0. cbn [mbind option_bind] in Hc0. rewrite H1 in Hc0. cbn [mbind option_bind] in Hc0. injection Hc0 as Hd Hk.
  exists c, cb, route, cb'. split; [by rewrite H0|]. split; [exact H2|]. split; [exact H3|].
  apply (finality_of_parent_lost c _ empty_batch a2 [] best cb route cb' ltac:(discriminate) Hd Hk H2 H3).
Defined.

(** The wallet holds a note of [b1] after [b3] was imported; the root of the tree of [b1] is
    not recorded. *)
Lemma reorganisation_loses_anchors_witness : exists c0 c c', start 10 = Some c0 /\ perform_all fork_events c0 = Some c /\
  perform (Import b3 [] best) c = Some c' /\ best_block_hash c' = b_hash b3 /\ commitment_root_block c' (branch_root [g; b1]) = None.
Proof.
  assert (Hno : (c ← start 10; c ← perform_all fork_events c; Some (commitment_root_block c (branch_root [g; b1]))) = Some None)
    by (vm_compute; reflexivity).
  destruct (reorganisation_loses_anchors test_u256 (test_config 10) g test_wallet fork_events fork_tree b3 [] best [g; b1; b2] [g]
    [a1; a2] [b1; b2] test_genesis fork_runs eq_refl last_run eq_refl eq_refl) as (c0 & c & c' & H0 & H1 & H2 & Hb & Hroots & _).
  - intros y [= <-]. discriminate.
  - exists c0, c, c'. split_and!; [exact H0|exact H1|exact H2|exact Hb|].
    unfold start in Hno. rewrite H0 in Hno. cbn [mbind option_bind] in Hno. rewrite H1 in Hno. injection Hno as Hno.
    rewrite Hroots, Hno; [by destruct (decide _)| |]; vm_compute; discriminate.
Defined.

(** [heavy] replaces [a1] and [a2]; the number 2 leads to [a2]. *)
Lemma retracted_block_stays_canonical_witness : exists c0 c, start 10 = Some c0 /\
  perform_all [Import a1 [] best; Import a2 [] best; Import heavy [] best] c0 = Some c /\ best_block_number c = 1 /\
  block_hash c 2 = Some (b_hash a2) /\ is_canon c (b_hash a2) = true.
Proof.
  assert (Hone : (c ← start 10; c ← perform_all [Import a1 [] best; Import a2 [] best; Import heavy [] best] c; Some (best_block_number c)) = Some 1)
    by (vm_compute; reflexivity).
  destruct (retracted_block_stays_canonical test_u256 (test_config 10) g test_wallet _ two_tree heavy [] best _ test_genesis two_runs heavy_run)
    as (c0 & c & H0 & H1 & Hall).
  unfold start in Hone. rewrite H0 in Hone. cbn [mbind option_bind app] in Hone. cbn [app] in H1. rewrite H1 in Hone. injection Hone as Hone.
  destruct (Hall 2%nat a2 eq_refl) as (_ & Hh & Hc); [rewrite Hone; lia|]. exists c0, c. split_and!; [exact H0|exact H1|exact Hone|exact Hh|exact Hc].
Defined.

(** C5: the wallet holds what the canonical branch pays to its keys. After any run, its
    notes are those that its keys decrypt from the outputs of canonical blocks, also if blocks
    were retracted and others enacted; each is held with one witness, whose root is that of
    the commitment tree of the block of the note, and whose path leads from the note, at its
    position among all notes, to this root. *)
Theorem wallet_notes_authenticate {MH : MerkleHash} {NC : NoteCryptography} config g (w : Wallet) es t :
  (forall d a b, is_u256 (merkle_hash d a b)) -> genesis_fits config g w -> runs config w g (genesis_tree g) es t ->
  exists c0 c, blockchain_new config g w empty_disk = Some c0 /\ perform_all es c0 = Some c /\
    let notes := w_nullifier_notes (bc_wallet c) in
    let received := received_chain (wallet_keys w) (tr_canon t) in
    (forall x, is_Some (notes !! x) <-> x ∈ rc_nullifier <$> received) /\
    forall r, r ∈ received -> exists n p b k tx, notes !! rc_nullifier r = Some n /\
      nd_note n = rc_note r /\ nd_address n = rc_address r /\ nd_hash n = rc_tx r /\ nd_create_height n = b_number b /\
      tr_canon t = p ++ b :: k /\ tx ∈ localized_private_txs b /\ received_output (wallet_keys w) tx r /\
      exists tree wit nodes, (ser ← block_commitment_ser c (b_hash b); get_commitment_tree ser) = Some tree /\
        nd_witnesses n = [wit] /\ witness_root wit = tree_root tree /\ length nodes = 32%nat /\
        witness_path wit = Some (Some (mkPath (slice_bits nodes (zlen (rc_before r))) (zlen (rc_before r)))) /\
        tree_root tree = Some (path_root 0 (rc_leaf r) (slice_bits nodes (zlen (rc_before r)))).
Proof.
  intros hash_u256 Hf Hr. destruct (run_simulates hash_u256 _ _ _ es t Hf Hr) as (c0 & c & H0 & H1 & Hs).
  pose proof (simulates_answers hash_u256 _ _ _ _ _ Hs) as Ha. destruct Hs as [Hok _ Hk _]. pose proof (ok_canon _ _ _ _ _ Hok) as Hl.
  exists c0, c. split; [done|]. split; [done|]. intros notes received.
  assert (Hkeys : wallet_keys (bc_wallet c) = wallet_keys w) by (unfold wallet_keys; by rewrite Hk).
  pose proof (ok_wallet _ _ _ _ _ Hok : follows _ _) as [_ Hn Ho _ _]. rewrite Hkeys in Hn, Ho. fold received notes in Hn, Ho. split.
  - intros x. split; [apply Ho|]. intros (r & -> & Hin)%list_elem_of_fmap. destruct (Hn r Hin) as (n & -> & _). by eexists.
  - intros r Hin. destruct (Hn r Hin) as (n & Hnn & Hfor).
    destruct (received_in _ _ _ _ Hin) as (p & b & k & Heq & Hh & Hnotes & tx & Htx & Hrtx & Hout).
    rewrite Heq in Hl. pose proof (branch_prefix _ _ _ _ _ _ Hl) as Hb.
    destruct (an_trees _ _ _ Ha _ _ Hb) as (tree & Htree & Hroot).
    destruct (note_witness r n _ Hfor Hnotes) as (wit & nodes & Hw & Hwr & Hlen & Hpath & Hpr).
    exists n, p, b, k, tx. destruct Hfor as (Hf1 & Hf2 & _ & Hf4 & _ & _ & _ & Hf8 & _).
    split_and!; [done|done|done|done|congruence|done|done|done|]. exists tree, wit, nodes.
    split_and!; [done|done|by rewrite Hwr, Hroot|done|done|by rewrite Hpr, Hroot].
Qed.

Lemma wallet_notes_authenticate_witness : exists c0 c, blockchain_new (test_config 10) g test_wallet empty_disk = Some c0 /\
  perform_all test_events c0 = Some c /\ forall x, is_Some (w_nullifier_notes (bc_wallet c) !! x) <-> x ∈ [60000; 61001; 70002].
Proof.
  destruct (wallet_notes_authenticate (test_config 10) g test_wallet test_events final_tree test_u256 test_genesis test_runs)
    as (c0 & c & H0 & H1 & Hn & _).
  exists c0, c. split; [exact H0|]. split; [exact H1|]. exact Hn.
Defined.

(** C8: retracting blocks restores the rewards. Enacting consecutive blocks, none but the
    last of which ends mining, and then retracting them from the last on gives the rewards
    before them; if the last one ended mining, retracting it panics. *)
Theorem rewards_retract (c : RewardConfig) r l b n r1 r2 u : config_ok c -> rewards_fit c r n -> consecutive n (l ++ [b]) ->
  mining_goes_on c r l -> enact_rewards c r l = Some r1 -> prepare_block_rewards c r1 b false = Some (r2, u) ->
  if u && mining_ends c r2 b then do_rewards_of_blocks c r2 (rev (l ++ [b])) true false = None
  else exists v, do_rewards_of_blocks c r2 (rev (l ++ [b])) true false = Some (r, v).
Proof.
  intros Hc Hf [Hn [Hb _]]%consecutive_app Hm He Hp.
  assert (Hf1 : rewards_fit c r1 (b_number b)) by (rewrite Hb; by eapply enact_rewards_fit).
  rewrite rev_app_distr. cbn [rev app do_rewards_of_blocks]. rewrite (retract_block _ Hc _ _ _ _ Hf1 Hp).
  destruct (u && mining_ends c r2 b); [done|]. cbn [mbind option_bind]. by eapply retract_blocks.
Qed.

Lemma rewards_retract_witness : prepare_block_rewards (test_config 2) later_rewards a2 false = Some (last_rewards, true) /\
  exists v, do_rewards_of_blocks (test_config 2) last_rewards (rev ([a1] ++ [a2])) true false = Some (era_rewards, v).
Proof.
  assert (Hp : prepare_block_rewards (test_config 2) later_rewards a2 false = Some (last_rewards, true)) by (vm_compute; reflexivity).
  assert (Hm : mining_ends (test_config 2) last_rewards a2 = false) by (vm_compute; reflexivity).
  assert (He : enact_rewards (test_config 2) era_rewards [a1] = Some later_rewards) by (vm_compute; reflexivity).
  assert (Hg : genesis_rewards (test_config 2) = Some era_rewards) by (vm_compute; reflexivity).
  assert (Hon : goes_on (test_config 2) era_rewards [a1] = true) by (vm_compute; reflexivity).
  assert (Hn : consecutive 1 ([a1] ++ [a2])) by (repeat split).
  assert (Hc : config_ok (test_config 2)) by (by split). split; [exact Hp|].
  assert (Hr := rewards_retract (test_config 2) era_rewards [a1] a2 1 later_rewards last_rewards true Hc
    (genesis_rewards_fit _ Hc _ 1 Hg ltac:(lia)) Hn (proj2 (goes_on_ok _ _ _ Hon)) He Hp).
  rewrite Hm in Hr. exact Hr.
Defined.

(** ** Errors *)

(** C36: a restart misplaces notes. Let [tx] be a private transaction of a block whose first
    output decrypts with a key of the wallet, and let the parent's tree have the notes
    [notes]. The import of the block ([sync_new_block]) holds the note under the nullifier of
    its position: after [notes] and all outputs of the private transactions [pre] before it. When the
    wallet is loaded at the start of the node, blocks are processed with the hashes [hs] of the
    transactions that it has notes of ([reload_new_block]); if those of [pre] are not among
    them, only one output of each is counted, and the note is held under the nullifier of
    another position. *)
Theorem restart_misplaces_notes {MH : MerkleHash} {NC : NoteCryptography} (w w1 w2 : Wallet) tree notes b hs pre tx post output outs
    k fvk note address memo : tree_rep tree notes -> zlen (notes ++ block_notes b) <= 2 ^ 32 ->
  localized_private_txs b = pre ++ tx :: post -> Forall (fun t => lt_hash t ∉ hs) pre -> lt_hash tx ∈ hs ->
  v_shielded_output (lt_unsigned tx) = output :: outs -> decrypt_output (wallet_keys w) output = Some (k, fvk, (note, address, memo)) ->
  sync_new_block tree b w = Some w1 -> reload_new_block tree b (Some hs) w = Some w2 ->
  let held (w : Wallet) (position : Z) := exists n, w_nullifier_notes w !! nf note fvk position = Some n /\
    nd_note n = note /\ nd_hash n = lt_hash tx /\ nd_nullifier n = Some (nf note fvk position) in
  held w1 (zlen notes + zlen (mjoin (tx_notes <$> pre))) /\ held w2 (zlen notes + zlen (with_outputs pre)).
Proof.
  intros Ht Hle Htxs Hpre Hin Hout Hdec H1 H2 held. unfold held. split.
  - change (zlen (mjoin (tx_notes <$> pre))) with (Z.of_nat (length (mjoin (tx_notes <$> pre)))). rewrite <- consumed_unfiltered. by eapply first_note_position.
  - change (zlen (with_outputs pre)) with (Z.of_nat (length (with_outputs pre))). rewrite <- (consumed_left_out _ _ Hpre). eapply first_note_position; try done. unfold left_out. by rewrite bool_decide_false by tauto.
Qed.

(** The block [mixed] has a transaction with two notes for somebody else and then one with a
    note for the wallet, which is the third of the tree and held as the second after a restart. *)
Lemma restart_misplaces_notes_witness : exists w1 w2 tx n1 n2, localized_private_txs mixed !! 1%nat = Some tx /\
  sync_new_block tree_new mixed test_wallet = Some w1 /\ reload_new_block tree_new mixed (Some [401]) test_wallet = Some w2 /\
  w_nullifier_notes w1 !! nf 90 7 2 = Some n1 /\ w_nullifier_notes w2 !! nf 90 7 1 = Some n2 /\
  nd_hash n1 = lt_hash tx /\ nd_hash n2 = lt_hash tx.
Proof.
  assert (is_Some (sync_new_block tree_new mixed test_wallet)) as [w1 H1] by (apply is_Some_alt; vm_compute; exact I).
  assert (is_Some (reload_new_block tree_new mixed (Some [401]) test_wallet)) as [w2 H2] by (apply is_Some_alt; vm_compute; exact I).
  destruct (localized_private_txs mixed) as [|p [|tx [|]]] eqn:Htxs; try (vm_compute in Htxs; discriminate Htxs).
  assert (p = default p (localized_private_txs mixed !! 0%nat) /\ tx = default tx (localized_private_txs mixed !! 1%nat)) as [Ep Et]
    by (by rewrite Htxs).
  destruct (restart_misplaces_notes test_wallet w1 w2 tree_new [] mixed [401] [p] tx [] (mkOutputDescription 90 [] [7]) [] 7 7 90 7 tt)
    as ((n1 & Hn1 & _ & Hh1 & _) & (n2 & Hn2 & _ & Hh2 & _)).
  - apply tree_new_rep.
  - by vm_compute.
  - exact Htxs.
  - apply Forall_singleton. rewrite Ep. apply (bool_decide_unpack _). vm_compute. exact I.
  - rewrite Et. apply (bool_decide_unpack _). vm_compute. exact I.
  - rewrite Et. vm_compute. reflexivity.
  - vm_compute. reflexivity.
  - exact H1.
  - exact H2.
  - exists w1, w2, tx, n1, n2. rewrite Ep in Hn1, Hn2.
    split_and!; [reflexivity|exact H1|exact H2|exact Hn1|exact Hn2|exact Hh1|exact Hh2].
Defined.
