(* ===== verification/ChainUncles.v ===== *)
(** * Uncles for a new block

    The block chain as the provider of the verification, and the uncles that it suggests for a
    block on top of a known one ([find_uncle_headers]): they pass [verify_uncles]. *)

From Stdlib Require Import ZifyBool.
From stdpp Require Import base numbers option strings gmap list.
From S2P Require Import Prelude MerkleTree Transaction Substate Blocks Rewards Sapling ChainStore BlockChain ChainTree ChainTables ChainInvariant ChainUpdates Equihash Engine Ethash Verification VerificationProofs UncleProofs.

Open Scope Z_scope.

Section Chain.
Context {MH : MerkleHash} {W : Type} {WO : WalletOps W} {WL : WalletLaws W}.

#[export] Instance chain_provider : BlockProvider (BlockChain (W := W)) := {
  bp_parent c h := bd_parent <$> block_details c h;
  bp_uncle_hashes c h := (fun b => body_uncle_hashes (b_body b)) <$> block_of c h;
  bp_block_header_data := block_header_data;
}.

Section Views.
Context (g : Block) (B : gmap Z Block) (c : BlockChain (W := W)) (Hv : views_ok g B c).
Context (Hhash : forall h b, B !! h = Some b -> b_hash b = h) (Hzero : B !! 0 = None).

Lemma views_provide : provides c B.
Proof.
  split.
  - intros h b Hb. pose proof (vo_details _ _ _ Hv h) as Hd. rewrite Hb in Hd. destruct Hd as (d & Hd & Hdf).
    destruct (vo_blocks _ _ _ Hv h b Hb) as [Eh Eb]. split; [by apply Hhash|]. cbn [bp_parent bp_uncle_hashes bp_block_header_data chain_provider].
    unfold block_of. rewrite Hd, Eh, Eb. cbn. by rewrite (df_parent _ _ _ _ _ Hdf).
  - intros h Hb. pose proof (vo_details _ _ _ Hv h) as Hd. rewrite Hb in Hd. cbn. by rewrite Hd.
Qed.

Lemma ancestry_lineage n h : ancestry n c h = b_hash <$> lineage B n h.
Proof.
  revert h. induction n as [|n IH]; intros h; [done|]. cbn [ancestry lineage]. destruct (Z.eqb_spec h 0) as [->|Hn]; [by rewrite Hzero|].
  pose proof (vo_details _ _ _ Hv h) as Hd. destruct (B !! h) as [b|] eqn:Eb; [|by rewrite Hd].
  destruct Hd as (d & -> & Hdf). rewrite (df_parent _ _ _ _ _ Hdf), IH. cbn. f_equal. symmetry. by apply Hhash.
Qed.

(** The blocks of a line that are known. *)
Definition known (l : list Block) : Prop := Forall (fun b => B !! b_hash b = Some b) l.

Lemma lineage_known n h : known (lineage B n h).
Proof.
  revert h. induction n as [|n IH]; intros h; cbn; [by apply Forall_nil|]. destruct (B !! h) as [b|] eqn:Eb; [|by apply Forall_nil].
  apply Forall_cons. split; [|apply IH]. by rewrite (Hhash h b Eb).
Qed.

Lemma lineage_length n h : (length (lineage B n h) <= n)%nat.
Proof. revert h. induction n as [|n IH]; intros h; cbn; [lia|]. destruct (B !! h) as [b|]; cbn; [|lia]. specialize (IH (b_parent_hash b)). lia. Qed.

Lemma excluded_uncles_spec l ex : known l ->
  excluded_uncles c (b_hash <$> l) ex = ex ++ mjoin ((fun b => body_uncle_hashes (b_body b) ++ [b_hash b]) <$> l).
Proof.
  revert ex. induction l as [|b l IH]; intros ex Hl; [by rewrite app_nil_r|]. apply Forall_cons in Hl as [Hb Hl].
  cbn [fmap list_fmap excluded_uncles]. unfold uncle_hashes. destruct (vo_blocks _ _ _ Hv _ b Hb) as [_ ->]. cbn [fmap option_fmap option_map].
  change (list_fmap _ _ b_hash l) with (b_hash <$> l). rewrite IH by done. by rewrite <- app_assoc.
Qed.

Lemma possible_uncles_elem l ex acc x : known l -> x ∈ possible_uncles c (b_hash <$> l) ex acc -> x ∈ acc \/
  exists k b bx, l !! k = Some b /\ B !! x = Some bx /\ b_parent_hash bx = b_hash b /\ x <> b_hash g /\ x ∉ ex.
Proof.
  revert acc. induction l as [|b l IH]; intros acc Hl Hx; [by left|]. apply Forall_cons in Hl as [Hb Hl].
  cbn [fmap list_fmap possible_uncles] in Hx. pose proof (vo_details _ _ _ Hv (b_hash b)) as Hd. rewrite Hb in Hd. destruct Hd as (d & Ed & Hdf).
  rewrite Ed in Hx. apply IH in Hx as [Hx|(k & b' & bx & Hk & Hr)]; [|right; by exists (S k), b', bx|done].
  apply elem_of_app in Hx as [Hx|[Hn Hx]%list_elem_of_filter]; [by left|]. right.
  apply (df_children _ _ _ _ _ Hdf) in Hx as (bx & Hbx & Hp & Hg). by exists 0%nat, b, bx.
Qed.

(** Where a suggested uncle is in the tree. *)
Lemma find_uncles_elem parent n hs x : find_uncle_hashes c parent n = Some hs -> x ∈ hs -> exists k b bx,
  (1 <= k <= n)%nat /\ lineage B (S n) parent !! k = Some b /\ B !! x = Some bx /\ b_parent_hash bx = b_hash b /\ x <> b_hash g /\
  x ∉ mjoin ((fun b => body_uncle_hashes (b_body b) ++ [b_hash b]) <$> lineage B n parent).
Proof.
  unfold find_uncle_hashes. rewrite !ancestry_lineage. destruct (is_known c parent); [|done]. intros Hs%(inj Some). subst hs.
  rewrite excluded_uncles_spec, <- fmap_drop by apply lineage_known. intros Hx. apply possible_uncles_elem in Hx as [Hx|(k & b & bx & Hk & Hr)]; [set_solver| |].
  - exists (S k), b, bx. rewrite lookup_drop in Hk. split; [|done]. split; [lia|].
    apply lookup_lt_Some in Hk. pose proof (lineage_length (S n) parent). lia.
  - apply Forall_drop, lineage_known.
Qed.

(** ** Suggested uncles are accepted *)

Context {K : Keccak} {K5 : Keccak512} {RS : RlpStream} {BL : Blake2b} {SH : Sha256} {RI : RlpItem} {ST : SystemTime}.
Context (e : Ethash) (Hok : ethash_ok e).

(** Every block but the first was verified against its parent. *)
Record verified_tree : Prop := {
  vt_headers h b : B !! h = Some b -> header_ok (b_header b);
  vt_children h b : B !! h = Some b -> h <> b_hash g -> exists p, B !! b_parent_hash b = Some p /\ good_child e (b_header b) (b_header p);
  vt_genesis : B !! b_parent_hash g = None /\ B !! b_hash g = Some g;
}.

Context (Ht : verified_tree).

Lemma lineage_number n h k b b0 : B !! h = Some b0 -> lineage B n h !! k = Some b -> b_number b = b_number b0 - Z.of_nat k.
Proof.
  revert h k b0. induction n as [|n IH]; intros h k b0 Hh Hk; [done|]. cbn [lineage] in Hk. rewrite Hh in Hk.
  destruct k as [|k]; [injection Hk as <-; lia|]. cbn in Hk.
  destruct (B !! b_parent_hash b0) as [p|] eqn:Ep; [|destruct n; cbn in Hk; [done|by rewrite Ep in Hk]].
  rewrite (IH _ _ _ Ep Hk). destruct (vt_children Ht h b0 Hh) as (p' & Ep' & Hgc).
  - intros ->. destruct (vt_genesis Ht) as [Hn Hg]. congruence.
  - assert (p' = p) as -> by congruence. pose proof (gc_number _ _ _ Hgc) as Hnum. unfold b_number. lia.
Qed.

Lemma lineage_parent n h k b : lineage B n h !! k = Some b -> (S k < n)%nat -> lineage B n h !! S k = B !! b_parent_hash b.
Proof.
  revert h k. induction n as [|n IH]; intros h k Hk Hlt; [done|]. cbn [lineage] in *. destruct (B !! h) as [b0|]; [|done].
  destruct k as [|k]; [|apply IH; [done|lia]]. injection Hk as <-. cbn. destruct n; [lia|]. cbn. by destruct (B !! b_parent_hash b0).
Qed.

Lemma lineage_prefix n m h k b : lineage B n h !! k = Some b -> (k < m)%nat -> lineage B m h !! k = Some b.
Proof.
  revert m h k. induction n as [|n IH]; intros m h k Hk Hm; [done|]. destruct m; [lia|]. cbn [lineage] in *.
  destruct (B !! h) as [b0|]; [|done]. destruct k as [|k]; [done|]. cbn in *. apply IH; [done|lia].
Qed.

Lemma good_child_passes now header parent : header_ok header -> header_ok parent -> follows header parent -> good_child e header parent ->
  passes (verify_parent now header parent e) /\ passes (ethash_verify_block_family e header parent).
Proof.
  intros Hh Hp Hf Hg. apply (family_spec e Hok (P:=BlockChain (W := W)) now header parent None) in Hg as Hpass; try done.
  unfold verify_block_family in Hpass. rewrite !passes_seq in Hpass. tauto.
Qed.

Lemma excluded_elem n h j b x : lineage B n h !! j = Some b -> x ∈ body_uncle_hashes (b_body b) \/ x = b_hash b ->
  x ∈ mjoin ((fun b => body_uncle_hashes (b_body b) ++ [b_hash b]) <$> lineage B n h).
Proof.
  intros Hj Hx. apply list_elem_of_join. exists (body_uncle_hashes (b_body b) ++ [b_hash b]).
  split; [set_solver|]. apply list_elem_of_fmap. exists b. split; [done|]. by eapply list_elem_of_lookup_2.
Qed.

Lemma suggested_ok header p0 us u : B !! h_parent_hash header = Some p0 -> h_number header = b_number p0 + 1 -> B !! h_hash header = None ->
  find_uncle_headers c (h_parent_hash header) MAX_UNCLE_AGE = Some us -> u ∈ us -> uncle_ok e c B header u.
Proof.
  intros Hp0 Hn Hnew Hf Hu. unfold find_uncle_headers in Hf. apply bind_Some in Hf as (hs & Hhs & Hf). apply (inj Some) in Hf. subst us.
  apply list_elem_of_omap in Hu as (x & Hx & Eu).
  destruct (find_uncles_elem _ _ _ _ Hhs Hx) as (k & pk & bx & Hk & Hpk & Hbx & Hpar & Hg & Hex).
  assert (u = b_header bx) as -> by (destruct (vo_blocks _ _ _ Hv x bx Hbx); congruence).
  change MAX_UNCLE_AGE with 6%nat in *. pose proof (Hhash _ _ Hbx) as Ex. unfold b_hash in Ex.
  pose proof (lineage_number _ _ _ _ _ Hp0 Hpk) as Hnk. destruct (lineage_lookup c B views_provide _ _ _ _ Hpk) as [Ha Hpkb].
  destruct (vt_children Ht x bx Hbx Hg) as (pk' & Epk & Hgc). assert (pk' = pk) as -> by congruence.
  pose proof (gc_number _ _ _ Hgc) as Hnx. unfold b_number in *.
  assert (h_number header - h_number (b_header bx) = Z.of_nat k) as Ed by lia.
  split.
  - rewrite Ex. intros Hin. apply elem_of_app in Hin as [Hin|Hin].
    + apply elem_of_cons in Hin as [->|Hin]; [congruence|]. apply list_elem_of_singleton in Hin as ->. apply Hex.
      cbn [lineage]. rewrite Hp0. cbn [fmap list_fmap]. rewrite <- (Hhash _ _ Hp0). set_solver.
    + unfold taken in Hin. apply list_elem_of_join in Hin as (l & Hin & (b & -> & Hb)%list_elem_of_fmap).
      apply list_elem_of_lookup in Hb as (j & Hj). change MAX_UNCLE_AGE with 6%nat in Hj. pose proof (lookup_lt_Some _ _ _ Hj) as Hlt.
      pose proof (lineage_length 6 (h_parent_hash header)). apply elem_of_cons in Hin as [->|Hin]; [|by eapply Hex, excluded_elem; [exact Hj|left]].
      pose proof (lineage_parent 7 _ _ _ (lineage_prefix _ 7 _ _ _ Hj ltac:(lia)) ltac:(lia)) as Hnext. rewrite Hbx in Hnext.
      pose proof (lineage_number _ _ _ _ _ Hp0 Hnext) as Hnj. unfold b_number in Hnj.
      eapply Hex, excluded_elem; [apply (lineage_prefix _ 6 _ _ _ Hnext); lia|right]. by symmetry.
  - rewrite Ed. unfold MAX_UNCLE_AGE. lia.
  - exists (b_header pk). rewrite Ed, Nat2Z.id. cbn [bp_block_header_data chain_provider].
    change (h_parent_hash (b_header bx)) with (b_parent_hash bx). rewrite Hpar. split; [by apply (vo_blocks _ _ _ Hv)|]. split; [done|].
    apply good_child_passes; [by eapply vt_headers|by eapply vt_headers|right; by symmetry|done].
Qed.

(** ** Suggested uncles are distinct *)

Lemma lineage_distinct n h : NoDup (b_hash <$> lineage B n h).
Proof.
  destruct (B !! h) as [b0|] eqn:Eb; [|destruct n; cbn [lineage]; rewrite ?Eb; constructor].
  apply NoDup_alt. intros i j x Hi Hj. rewrite list_lookup_fmap in Hi, Hj.
  apply fmap_Some in Hi as (bi & Hi & Ei). apply fmap_Some in Hj as (bj & Hj & Ej).
  destruct (lineage_lookup c B views_provide _ _ _ _ Hi) as [_ Hbi]. destruct (lineage_lookup c B views_provide _ _ _ _ Hj) as [_ Hbj].
  assert (bi = bj) as -> by congruence. pose proof (lineage_number _ _ _ _ _ Eb Hi). pose proof (lineage_number _ _ _ _ _ Eb Hj). lia.
Qed.

Lemma possible_uncles_distinct l ex acc : known l -> NoDup (b_hash <$> l) -> NoDup acc ->
  (forall x, x ∈ acc -> exists bx, B !! x = Some bx /\ b_parent_hash bx ∉ b_hash <$> l) -> NoDup (possible_uncles c (b_hash <$> l) ex acc).
Proof.
  revert acc. induction l as [|b l IH]; intros acc Hl Hd Hacc Hpar; [done|]. apply Forall_cons in Hl as [Hb Hl].
  cbn [fmap list_fmap possible_uncles] in *. apply NoDup_cons in Hd as [Hbl Hd].
  pose proof (vo_details _ _ _ Hv (b_hash b)) as Hdet. rewrite Hb in Hdet. destruct Hdet as (d & Ed & Hdf). rewrite Ed.
  apply IH; [done|done| |].
  - apply NoDup_app. split_and!; [done| |apply NoDup_filter, Hdf]. intros x Hx [_ Hc]%list_elem_of_filter.
    apply (df_children _ _ _ _ _ Hdf) in Hc as (bx & Hbx & Hp & _). destruct (Hpar x Hx) as (bx' & Hbx' & Hn). apply Hn.
    assert (bx' = bx) as -> by congruence. rewrite Hp. left.
  - intros x [Hx|[_ Hc]%list_elem_of_filter]%elem_of_app.
    + destruct (Hpar x Hx) as (bx & Hbx & Hn). exists bx. split; [done|]. intros Hin. apply Hn. by right.
    + apply (df_children _ _ _ _ _ Hdf) in Hc as (bx & Hbx & Hp & _). exists bx. by rewrite Hp.
Qed.

Lemma find_uncles_distinct parent n hs : find_uncle_hashes c parent n = Some hs -> NoDup hs /\ Forall (fun x => exists bx, B !! x = Some bx) hs.
Proof.
  intros Hs. split.
  - revert Hs. unfold find_uncle_hashes. rewrite !ancestry_lineage. destruct (is_known c parent); [|done]. intros Hs%(inj Some). subst hs.
    rewrite <- fmap_drop. apply possible_uncles_distinct; [apply Forall_drop, lineage_known| |constructor|by intros x ?%not_elem_of_nil].
    rewrite fmap_drop. apply (NoDup_app (take 1 (b_hash <$> lineage B (S n) parent))). rewrite take_drop. apply lineage_distinct.
  - apply Forall_forall. intros x Hx. destruct (find_uncles_elem _ _ _ _ Hs Hx) as (_ & _ & bx & _ & _ & Hbx & _). by exists bx.
Qed.

Lemma headers_of_hashes hs : Forall (fun x => exists bx, B !! x = Some bx) hs -> h_hash <$> omap (M := list) (block_header_data c) hs = hs.
Proof.
  induction 1 as [|x hs (bx & Hbx) _ IH]; [done|]. cbn. destruct (vo_blocks _ _ _ Hv x bx Hbx) as [-> _]. cbn. f_equal; [|exact IH].
  exact (Hhash _ _ Hbx).
Qed.

Lemma suggested_distinct parent n us : find_uncle_headers c parent n = Some us -> NoDup (h_hash <$> us).
Proof.
  unfold find_uncle_headers. intros (hs & Hs & Hf)%bind_Some. apply (inj Some) in Hf. subst us.
  destruct (find_uncles_distinct _ _ _ Hs) as [Hd Hk]. by rewrite headers_of_hashes.
Qed.

End Views.
End Chain.
