(* ===== verification/Client.v ===== *)
(** * The client

    The parts of [ethcore/src/client/client.rs] that put blocks together on the best block
    of the chain, with [OpenBlock::push_uncle] of [block.rs], and that hand the rewards of the
    chain to the engine. A panic is [None]. *)

From Stdlib Require Import ZifyBool.
From stdpp Require Import base numbers option strings gmap list.
From S2P Require Import Prelude Serialize MerkleTree Transaction Substate Blocks Rewards Sapling ChainStore BlockChain Equihash Engine Ethash Verification.

Open Scope Z_scope.

(** ** Uncles of an open block *)

Definition push_uncle (e : Ethash) (uncles : list Header) (valid_uncle_header : Header) : list Header + BlockError :=
  let max_uncles := maximum_uncle_count e in
  if max_uncles <? zlen uncles + 1 then inr (TooManyUncles (mkOob None (Some max_uncles) (zlen uncles + 1)))
  else inl (uncles ++ [valid_uncle_header]).

(** [.expect(..)] on the result of [push_uncle]. *)
Definition push_uncle_expect (e : Ethash) (uncles : list Header) (uncle : Header) : option (list Header) :=
  match push_uncle e uncles uncle with inl uncles => Some uncles | inr _ => None end.

Fixpoint push_uncles (e : Ethash) (uncles new : list Header) : option (list Header) :=
  match new with
  | [] => Some uncles
  | uncle :: new => uncles ← push_uncle_expect e uncles uncle; push_uncles e uncles new
  end.

Section Client.
Context {MH : MerkleHash} {W : Type} {WO : WalletOps W} {K : Keccak} {RS : RlpStream}.

(** [prepare_open_block]: the header and the uncles of the new block. *)
Definition prepare_open_block (c : BlockChain (W := W)) (e : Ethash) (now author : Z) (gas_range_target : Z * Z) (extra_data : bytes)
    : option (Header * list Header) :=
  let best_header := b_header (be_block (bc_best_block c)) in
  let h := h_hash best_header in
  header ← open_header e now best_header author gas_range_target extra_data;
  let found := default [] (find_uncle_headers c h MAX_UNCLE_AGE) in
  uncles ← push_uncles e [] (take (Z.to_nat (maximum_uncle_count e)) found);
  Some (header, uncles).

(** The loop of [reopen_block]. *)
Fixpoint add_uncles (c : BlockChain (W := W)) (e : Ethash) (max_uncles : Z) (hashes : list Z) (uncles : list Header) : option (list Header) :=
  match hashes with
  | [] => Some uncles
  | h :: hashes =>
      if existsb (fun header => h_hash header =? h) uncles then add_uncles c e max_uncles hashes uncles
      else
        uncle ← block_header_data c h;
        uncles ← push_uncle_expect e uncles uncle;
        if max_uncles <=? zlen uncles then Some uncles else add_uncles c e max_uncles hashes uncles
  end.

(** [reopen_block]: the uncles of a closed block that is opened again. *)
Definition reopen_block (c : BlockChain (W := W)) (e : Ethash) (uncles : list Header) : option (list Header) :=
  let max_uncles := maximum_uncle_count e in
  if zlen uncles <? max_uncles then
    let h := best_block_hash c in
    add_uncles c e max_uncles (default [] (find_uncle_hashes c h MAX_UNCLE_AGE)) uncles
  else Some uncles.

(** ** The rewards of the engine *)

(** After the import of a block, with the rewards that the chain has then. *)
Definition update_engine_rewards (config : RewardConfig) (number : Z) (fork_choice : ForkChoice) (route : ImportRoute)
    (chain_rewards : Rewards) (e : Ethash) : option Ethash :=
  match fork_choice with
  | ForkNew =>
      if negb (zlen (ir_retracted route) =? 0) then Some (update_rewards chain_rewards e)
      else
        is_last ← is_era_last_block config number;
        Some (if is_last : bool then update_rewards chain_rewards e else e)
  | ForkOld => Some e
  end.

(** ** Committing a block *)

(** [total_difficulty_fork_choice]; sums that overflow panic. *)
Definition total_difficulty_fork_choice (new best : ExtendedHeader) : option ForkChoice :=
  new_score ← total_score new;
  best_score ← total_score best;
  Some (if best_score <? new_score then ForkNew else ForkOld).

(** The header of the best block with its difficulty and finality. *)
Definition best_extended_header (c : BlockChain (W := W)) : option ExtendedHeader :=
  header ← block_header_data c (best_block_hash c);
  details ← block_details c (best_block_hash c);
  parent_total_difficulty ← u256_sub (bd_total_difficulty details) (h_difficulty header);
  Some (mkExtendedHeader header (bd_is_finalized details) parent_total_difficulty).

(** The actions of the engine on ancestors, in the batch of the block; whether the block
    itself is finalised. *)
Fixpoint mark_ancestors (hash : Z) (actions : list Z) (is_finalized : bool) (cb : BlockChain (W := W) * Batch)
    : option (bool * (BlockChain (W := W) * Batch)) :=
  match actions with
  | [] => Some (is_finalized, cb)
  | a :: actions =>
      if negb (a =? hash) then cb ← mark_finalized a cb; mark_ancestors hash actions is_finalized cb
      else mark_ancestors hash actions true cb
  end.

(** [commit_block], with the actions that the engine asks for: the chain and the engine. *)
Definition commit_block (c : BlockChain (W := W)) (e : Ethash) (block : Block) (receipts : list Receipt) (ancestry_actions : list Z)
    : option (ImportRoute * BlockChain (W := W) * Ethash) :=
  let header := b_header block in
  let hash := h_hash header in
  let number := h_number header in
  let parent := h_parent_hash header in
  parent_details ← block_details c parent;
  let new := mkExtendedHeader header false (bd_total_difficulty parent_details) in
  best ← best_extended_header c;
  route ← tree_route c (best_block_hash c) parent;
  route ← route;
  fork_choice ← (if tr_is_from_route_finalized route then Some ForkOld else total_difficulty_fork_choice new best);
  '(is_finalized, cb) ← mark_ancestors hash ancestry_actions false (c, empty_batch);
  '(route, cb) ← insert_block block receipts (mkExtras fork_choice is_finalized) cb;
  let c := write_and_commit cb in
  e ← update_engine_rewards (bc_reward_config c) number fork_choice route (bc_rewards c) e;
  Some (route, c, e).

End Client.
