(* ===== verification/ClientProofs.v ===== *)
(** * Committing blocks

    What [commit_block] does to the chain and the engine: with the proof-of-work engine,
    which finalises nothing, the canonical branch is the heaviest one, and the engine has the
    base rewards of the chain. *)

From Stdlib Require Import ZifyBool.
From stdpp Require Import base numbers option strings gmap list.
From S2P Require Import Prelude Serialize MerkleTree MerkleProofs Transaction Substate Blocks Rewards Sapling ChainStore BlockChain ChainTree ChainTables ChainInvariant ChainUpdates ChainInsert ChainGenesis ChainRuns Equihash Engine Ethash Verification Client.

Open Scope Z_scope.

#[local] Opaque merkle_root tree_root.

(** The choice of the heavier branch, the old one if they weigh the same. *)
Definition heavier (b : Block) (l lp : list Block) : ForkChoice :=
  if total_difficulty l <? total_difficulty (lp ++ [b]) then ForkNew else ForkOld.

Section Commit.
Context {MH : MerkleHash} {W : Type} {WO : WalletOps W} {WL : WalletLaws W}.
Context (hash_u256 : forall d a b, is_u256 (merkle_hash d a b)).
Context (config : RewardConfig) (w : W) (g : Block).

(** The state of the client that follows the tree [t]. *)
Record client_ok (t : Tree) (c : BlockChain (W := W)) (e : Ethash) : Prop := {
  co_simulates : simulates config w g t c;
  co_unfinalized : forall h, finalized_at c h = false;
  co_positive : forall h b, tr_known t !! h = Some b -> 0 < h_difficulty (b_header b);
  co_heaviest : forall h k, branch g (tr_known t) h k -> total_difficulty k <= total_difficulty (tr_canon t);
  co_rewards : rw_eras (et_rewards e) = rw_eras (bc_rewards c);
}.

(** A block that the clients of the chain let through, below the branch [lp]. *)
Record importable (t : Tree) (b : Block) (lp : list Block) : Prop := {
  im_new : tr_known t !! b_hash b = None;
  im_parent : branch g (tr_known t) (b_parent_hash b) lp;
  im_number : b_number b = zlen lp;
  im_hash : b_hash b <> b_parent_hash g;
  im_good : good_branch config w (lp ++ [b]);
  im_difficulty : 0 < h_difficulty (b_header b);
}.

Section Step.
Context (t : Tree) (c : BlockChain (W := W)) (e : Ethash) (Hs : simulates config w g t c).
Context (Hpositive : forall h b, tr_known t !! h = Some b -> 0 < h_difficulty (b_header b)).
Context (b : Block) (receipts : list Receipt) (lp : list Block) (Him : importable t b lp).

Abbreviation l := (tr_canon t).
Abbreviation B := (tr_known t).
Abbreviation best := (be_block (bc_best_block c)).

Lemma client_views : views_ok g B c.
Proof. eapply chain_views, Hs. Qed.

Lemma known_details h k : branch g B h k -> exists d, block_details c h = Some d /\ bd_total_difficulty d = total_difficulty k.
Proof.
  intros Hk. pose proof Hk as (y & q & _ & _ & Hy)%branch_last. pose proof (vo_details _ _ _ client_views h) as Hd. rewrite Hy in Hd.
  destruct Hd as (d & Hd & Hdf). exists d. split; [done|by apply (df_difficulty _ _ _ _ _ Hdf)].
Qed.

Lemma canon_branch : branch g B (best_block_hash c) l.
Proof. apply (ok_canon _ _ _ _ _ (si_ok _ _ _ _ _ Hs)). Qed.

Lemma weight_nonneg k : Forall (fun b => B !! b_hash b = Some b) k -> 0 <= total_difficulty k /\ (total_difficulty k = 0 -> k = []).
Proof.
  induction 1 as [|y k Hy _ [IH1 IH2]]; [done|]. cbn. pose proof (Hpositive _ _ Hy). unfold total_difficulty in *. split; lia.
Qed.

Lemma branch_blocks h k : branch g B h k -> Forall (fun b => B !! b_hash b = Some b) k.
Proof. intros Hk. apply Forall_forall. intros y Hy. by eapply branch_known. Qed.

Lemma best_extended : best_extended_header c =
  Some (mkExtendedHeader (b_header best) (finalized_at c (best_block_hash c)) (total_difficulty l - h_difficulty (b_header best))).
Proof.
  pose proof canon_branch as Hl. destruct (known_details _ _ Hl) as (d & Hd & Ed).
  pose proof (branch_blocks _ _ Hl) as Hk. pose proof (ok_best _ _ _ _ _ (si_ok _ _ _ _ _ Hs)) as Hb.
  pose proof Hl as (y & q & El & Eh & HB)%branch_last. rewrite El, last_snoc in Hb. injection Hb as Hb.
  unfold best_extended_header, finalized_at. destruct (vo_blocks _ _ _ client_views _ _ HB) as [-> _]. cbn [mbind option_bind].
  rewrite Hd. cbn [mbind option_bind]. rewrite El in Hk. apply Forall_app in Hk as [Hq _]. destruct (weight_nonneg _ Hq) as [Hnn _].
  assert (total_difficulty l = total_difficulty q + h_difficulty (b_header y)) as Et by (rewrite El, total_difficulty_app; cbn; lia).
  unfold u256_sub. rewrite (proj2 (Z.leb_le _ _)) by lia. cbn [mbind option_bind]. by rewrite Ed, Hb.
Qed.

(** The fork choice: the old branch, if a parent of a block that would be retracted is
    finalised, and the heavier branch otherwise. *)
Definition fork_choice (x : Block) (k1 : list Block) : ForkChoice :=
  if existsb (finalized_at c) (b_hash <$> parents x k1) then ForkOld else heavier b l lp.

Lemma route_found p x k1 k2 : l = (p ++ [x]) ++ k1 -> lp = (p ++ [x]) ++ k2 -> parts k1 k2 -> exists route,
  tree_route c (best_block_hash c) (b_parent_hash b) = Some (Some route) /\
  tr_is_from_route_finalized route = existsb (finalized_at c) (b_hash <$> parents x k1).
Proof.
  intros El Elp Hp. pose proof canon_branch as Hl. pose proof (im_parent _ _ _ Him) as Hlp. rewrite El in Hl. rewrite Elp in Hlp.
  eexists. split; [|by instantiate (1 := mkRoute _ _ _ _)].
  eapply (tree_route_ok g B c (go_number _ _ (ok_genesis _ _ _ _ _ (si_ok _ _ _ _ _ Hs)))); [|exact Hl|exact Hlp|done].
  intros h' b' Hb'. pose proof (vo_details _ _ _ client_views h') as Hd. rewrite Hb' in Hd.
  destruct Hd as (d & Hd & Hf). exists d. split; [done|]. split; apply Hf.
Qed.

Lemma choice_made d finalized : bd_total_difficulty d = total_difficulty lp ->
  total_difficulty_fork_choice (mkExtendedHeader (b_header b) false (bd_total_difficulty d))
    (mkExtendedHeader (b_header best) finalized (total_difficulty l - h_difficulty (b_header best))) = Some (heavier b l lp).
Proof.
  intros Ed. unfold total_difficulty_fork_choice, total_score. cbn [eh_parent_total_difficulty eh_header]. rewrite Ed.
  assert (total_difficulty (lp ++ [b]) = total_difficulty lp + h_difficulty (b_header b)) as Et by (rewrite total_difficulty_app; cbn; lia).
  pose proof (gb_difficulty _ _ _ (im_good _ _ _ Him)) as Hlt. rewrite Et in Hlt.
  pose proof (gb_difficulty _ _ _ (ok_good _ _ _ _ _ (si_ok _ _ _ _ _ Hs) _ _ canon_branch)) as Hlt'.
  rewrite !u256_add_some by lia. cbn [mbind option_bind]. unfold heavier. rewrite Et, Z.sub_add. done.
Qed.

Lemma last_defined : exists is_last, is_era_last_block config (b_number b) = Some is_last.
Proof.
  pose proof (ok_config _ _ _ _ _ (si_ok _ _ _ _ _ Hs)) as Hc. rewrite (si_config _ _ _ _ _ Hs) in Hc.
  unfold is_era_last_block. case_bool; [|eauto]. pose proof (gb_small _ _ _ (im_good _ _ _ Him)) as Hsm.
  rewrite zlen_app in Hsm. change (zlen [b]) with 1 in Hsm. unfold usize_add. rewrite (im_number _ _ _ Him) in *.
  rewrite (proj2 (Z.ltb_lt _ _)) by range_lia. cbn [mbind option_bind]. pose proof (count_pos _ Hc).
  rewrite (proj2 (Z.eqb_neq _ _)) by lia. eauto.
Qed.

(** What a commit does, also if blocks are finalised. *)
Lemma commit_choice p x k1 k2 : l = (p ++ [x]) ++ k1 -> lp = (p ++ [x]) ++ k2 -> parts k1 k2 ->
  let choice := fork_choice x k1 in
  exists route c' e', commit_block c e b receipts [] = Some (route, c', e') /\ leads l (chosen choice b l lp) route /\
    simulates config w g (add_block b receipts choice lp t) c' /\ (forall h, finalized_at c' h = finalized_at c h) /\
    update_engine_rewards config (b_number b) choice route (bc_rewards c') e = Some e'.
Proof.
  intros El Elp Hp choice. destruct Hs as [Hok Hc Hk Hix].
  assert (Hfits : fits g B c b lp) by (destruct Him; split; try done; rewrite Hc; by eapply good_same).
  destruct (insert_block_ok hash_u256 _ _ _ _ _ Hok _ _ receipts Hfits (mkExtras choice false)) as (route & cb & Hi & Hl & Hok' & Hc' & Hk').
  destruct (insert_details hash_u256 _ _ _ _ _ Hok _ _ receipts Hfits _ _ _ Hi) as [Hd1 Hd2].
  pose proof (insert_indexed hash_u256 _ _ _ _ _ Hok _ _ receipts Hfits _ _ _ _ _ Hi Hix) as Hix'. cbn [ei_fork_choice ei_is_finalized] in *.
  assert (exists e', update_engine_rewards config (b_number b) choice route (bc_rewards (write_and_commit cb)) e = Some e') as (e' & Ee).
  { unfold update_engine_rewards. destruct choice; [|eauto]. case_bool; [eauto|]. destruct last_defined as (is_last & ->). eauto. }
  destruct (known_details _ _ (im_parent _ _ _ Him)) as (d & Hd & Ed). destruct (route_found p x k1 k2 El Elp Hp) as (tr & Htr & Hfin).
  exists route, (write_and_commit cb), e'. split_and!; [|done|by split; [|congruence|eapply wl_same_trans|]| |done].
  - unfold commit_block. change (h_parent_hash (b_header b)) with (b_parent_hash b). rewrite Hd. cbn [mbind option_bind].
    rewrite best_extended. cbn [mbind option_bind]. rewrite Htr. cbn [mbind option_bind]. rewrite Hfin, choice_made by done.
    assert ((if existsb (finalized_at c) (b_hash <$> parents x k1) then Some ForkOld else Some (heavier b l lp)) = Some choice) as ->
      by (unfold choice, fork_choice; by destruct (existsb _ _)).
    cbn [mbind option_bind mark_ancestors]. rewrite Hi. cbn [mbind option_bind]. rewrite Hc', Hc.
    change (h_number (b_header b)) with (b_number b). rewrite Ee. done.
  - intros h. unfold finalized_at. destruct (decide (h = b_hash b)) as [->|Hne].
    + rewrite Hd1. pose proof (vo_details _ _ _ client_views (b_hash b)) as Hno. rewrite (im_new _ _ _ Him) in Hno. by rewrite Hno.
    + rewrite Hd2 by done. case_bool; [|done]. by destruct (block_details c h).
Qed.

(** ** The rewards of the engine *)

Section Heaviest.
Context (Hco : client_ok t c e).

(** A block that is not the last of its era leaves the base rewards as they are. *)
Lemma eras_kept r b' r' : config_ok config -> enact_rewards config r [b'] = Some r' -> is_era_last_block config (b_number b') = Some false ->
  rw_eras r' = rw_eras r.
Proof.
  intros Hc He Hl. cbn in He. apply bind_Some in He as ([r1 u] & Hp & He). injection He as <-.
  pose proof (enact_inv config Hc r b' r1 u Hp) as Hi. cbn in Hi. destruct (get_era_base_reward _ r) as [base|]; [|by destruct Hi as [-> _]].
  destruct Hi as (reward & is_last & _ & _ & _ & El & Hr). rewrite Hl in El. injection El as <-. by rewrite Hr.
Qed.

(** If nothing is retracted, the new block is on top of the old best block. *)
Lemma extends route : heavier b l lp = ForkNew -> leads l (lp ++ [b]) route -> ir_retracted route = [] -> lp = l.
Proof.
  intros Hh (p & k1 & k2 & El & Elp & _ & Hr & _) Hnil. rewrite Hnil in Hr. symmetry in Hr. apply fmap_nil_inv in Hr.
  apply (f_equal (@rev Block)) in Hr. rewrite rev_involutive in Hr. cbn in Hr. subst k1. rewrite app_nil_r in El. subst p.
  pose proof (co_heaviest _ _ _ Hco _ _ (im_parent _ _ _ Him)) as Hle.
  destruct (exists_last (l := k2)) as (k & y & ->).
  { intros ->. rewrite app_nil_r in Elp. unfold heavier in Hh. rewrite Elp in Hh. case_bool_in Hh; [|done]. lia. }
  rewrite app_assoc in Elp. apply app_inj_tail in Elp as [Elp <-]. pose proof (branch_blocks _ _ (im_parent _ _ _ Him)) as Hk.
  rewrite Elp in Hk, Hle. apply Forall_app in Hk as [_ Hk]. rewrite total_difficulty_app in Hle.
  destruct (weight_nonneg _ Hk) as [Hnn Hz]. rewrite Hz in Elp by lia. by rewrite app_nil_r in Elp.
Qed.

(** The engine has the base rewards of the chain after the import. *)
Lemma rewards_updated route c' : let choice := heavier b l lp in
  leads l (chosen choice b l lp) route -> simulates config w g (add_block b receipts choice lp t) c' ->
  exists e', update_engine_rewards config (b_number b) choice route (bc_rewards c') e = Some e' /\ rw_eras (et_rewards e') = rw_eras (bc_rewards c').
Proof.
  intros choice Hl Hs'. destruct Hs as [Hok Hc _ _]. destruct Hs' as [Hok' Hc' _ _].
  destruct (ok_rewards _ _ _ _ _ Hok) as (r0 & E0 & E1 & _). destruct (ok_rewards _ _ _ _ _ Hok') as (r0' & E0' & E1' & _).
  rewrite Hc in E0, E1. rewrite Hc' in E0', E1'. rewrite E0 in E0'. injection E0' as <-. cbn [tr_canon add_block] in E1'.
  pose proof (ok_config _ _ _ _ _ Hok) as Hco'. rewrite Hc in Hco'. unfold update_engine_rewards.
  destruct choice eqn:Ech; cbn [chosen] in *.
  - case_bool; [by eexists|]. destruct last_defined as (is_last & El). rewrite El. cbn [mbind option_bind].
    destruct is_last; [by eexists|]. eexists. split; [done|]. assert (lp = l) as Elp.
    { apply (extends route); [done|done|]. apply nil_length_inv. unfold zlen in Hb. lia. }
    rewrite Elp in E1'. pose proof canon_branch as (y & q & Eq & _)%branch_last. rewrite Eq in E1, E1'.
    rewrite (co_rewards _ _ _ Hco). symmetry. apply (eras_kept _ b); [done| |done].
    destruct q as [|z q]; cbn [app tail] in E1, E1'.
    + cbn in E1. injection E1 as <-. exact E1'.
    + rewrite enact_rewards_app in E1'. change (q ++ [y]) with (q ++ [y]) in E1. rewrite E1 in E1'. exact E1'.
  - eexists. split; [done|]. rewrite (co_rewards _ _ _ Hco). congruence.
Qed.

(** ** One block *)

Lemma commit_step : let choice := heavier b l lp in let t' := add_block b receipts choice lp t in
  exists route c' e', commit_block c e b receipts [] = Some (route, c', e') /\ leads l (tr_canon t') route /\ client_ok t' c' e'.
Proof.
  intros choice t'. destruct (branch_fork _ _ _ _ _ _ canon_branch (im_parent _ _ _ Him)) as (p & x & k1 & k2 & El & Elp & Hp).
  assert (fork_choice x k1 = choice) as Hch.
  { unfold fork_choice. destruct (existsb _ _) eqn:Hf; [|done]. apply existsb_exists in Hf as (h & _ & Hh).
    by rewrite (co_unfinalized _ _ _ Hco) in Hh. }
  destruct (commit_choice p x k1 k2 El Elp Hp) as (route & c' & e' & E & Hl & Hs' & Hfin & Ee). rewrite Hch in *. fold t' in Hs'.
  destruct (rewards_updated route c' Hl Hs') as (e1 & Ee1 & Hr). assert (e1 = e') as -> by (unfold choice in Ee; congruence).
  exists route, c', e'. split_and!; [done|done|]. destruct Hs as [Hok Hc Hk _].
  assert (Hfits : fits g B c b lp) by (destruct Him; split; try done; rewrite Hc; by eapply good_same).
  split; [done| | | |done].
  - intros h. rewrite Hfin. apply (co_unfinalized _ _ _ Hco).
  - intros h y Hy. cbn [t' tr_known add_block] in Hy. apply lookup_insert_Some in Hy as [[<- <-]|[_ Hy]]; [apply (im_difficulty _ _ _ Him)|by eapply co_positive].
  - intros h k Hb. cbn [t' tr_known add_block] in Hb. apply (branch_inv _ _ _ _ _ Hok b lp Hfits) in Hb as [[Hb _]|[-> ->]].
    + pose proof (co_heaviest _ _ _ Hco _ _ Hb). unfold t', choice, heavier. cbn [tr_canon add_block]. case_bool; cbn [chosen]; lia.
    + unfold t', choice, heavier. cbn [tr_canon add_block]. case_bool; cbn [chosen]; lia.
Qed.

End Heaviest.
End Step.

(** ** Sequences of blocks *)

Fixpoint commit_all (bs : list (Block * list Receipt)) (c : BlockChain (W := W)) (e : Ethash) : option (BlockChain (W := W) * Ethash) :=
  match bs with
  | [] => Some (c, e)
  | (b, receipts) :: bs => '(_, c, e) ← commit_block c e b receipts []; commit_all bs c e
  end.

(** Blocks that are let through, one after the other. *)
Inductive imports : Tree -> list (Block * list Receipt) -> Tree -> Prop :=
| imports_nil t : imports t [] t
| imports_cons t b receipts lp bs t' : importable t b lp -> imports (add_block b receipts (heavier b (tr_canon t) lp) lp t) bs t' ->
    imports t ((b, receipts) :: bs) t'.

Lemma commit_all_ok t bs t' c e : imports t bs t' -> client_ok t c e -> exists c' e', commit_all bs c e = Some (c', e') /\ client_ok t' c' e'.
Proof.
  intros Hi. revert c e. induction Hi as [t|t b receipts lp bs t' Him _ IH]; intros c e Hco; [by exists c, e|].
  destruct (commit_step t c e (co_simulates _ _ _ Hco) (co_positive _ _ _ Hco) b receipts lp Him Hco) as (route & c1 & e1 & E & _ & Hco1). cbn [commit_all]. rewrite E. cbn [mbind option_bind].
  by apply IH.
Qed.

(** Commits change nothing of the engine but its rewards. *)
Definition same_engine (e e' : Ethash) : Prop := et_machine e' = et_machine e /\ et_params e' = et_params e.

Lemma commit_engine c e b receipts route c' e' : commit_block c e b receipts [] = Some (route, c', e') -> same_engine e e'.
Proof.
  unfold commit_block. intros E. apply bind_Some in E as (d & _ & E). apply bind_Some in E as (x & _ & E).
  apply bind_Some in E as (r & _ & E). apply bind_Some in E as (r1 & _ & E). apply bind_Some in E as (f & _ & E).
  apply bind_Some in E as ([fin cb] & _ & E). apply bind_Some in E as ([r2 cb2] & _ & E). apply bind_Some in E as (e1 & He & E).
  injection E as _ _ <-. unfold update_engine_rewards in He. destruct f; [|by injection He as <-].
  destruct (negb _); [by injection He as <-|]. apply bind_Some in He as (last & _ & [= <-]). by destruct last.
Qed.

Lemma commit_all_engine bs c e c' e' : commit_all bs c e = Some (c', e') -> same_engine e e'.
Proof.
  revert c e. induction bs as [|[b receipts] bs IH]; intros c e E; cbn [commit_all] in E; [by injection E as _ <-|].
  apply bind_Some in E as ([[route c1] e1] & E1 & E). apply commit_engine in E1 as [H1 H2]. apply IH in E as [H3 H4].
  split; congruence.
Qed.

Lemma client_start e : genesis_fits config g w -> 0 < h_difficulty (b_header g) -> exists c,
  blockchain_new config g w empty_disk = Some c /\ client_ok (genesis_tree g) c (update_rewards (bc_rewards c) e).
Proof.
  intros Hf Hd. destruct (new_simulates _ _ _ Hf) as (c & Hc & Hs). exists c. split; [done|].
  split; [done| | | |done].
  - intros h. unfold finalized_at. destruct (block_details c h) as [d|] eqn:Hh; [|done]. by apply (new_unfinalized config g w c h d Hf Hc).
  - intros h b Hb. cbn [genesis_tree tr_known] in Hb. apply lookup_singleton_Some in Hb as [<- <-]. done.
  - intros h k Hb. apply (genesis_branch g) in Hb as [_ ->]. done.
Qed.

End Commit.
