(* ===== verification/ClientTheorems.v ===== *)
(** * The theorems about the client

    A block that the client prepares on the best block of its chain passes the verification
    against its parent, with the uncles that were found for it; the blocks it commits make the
    heaviest branch canonical, and what finalised blocks change about this; and the engine
    pays the rewards of the branch that the node follows. *)

From Stdlib Require Import ZifyBool.
From stdpp Require Import base numbers option strings gmap list.
From S2P Require Import Prelude Serialize MerkleTree MerkleProofs Transaction Substate Blocks Rewards Sapling Wallet WalletProofs ChainStore BlockChain ChainTree ChainTables ChainInvariant ChainUpdates ChainInsert ChainGenesis ChainRuns ChainReopen ChainWallet TestChain ChainTheorems Equihash EquihashTheorems Engine Ethash Verification VerificationProofs UncleProofs BlockTheorems ChainUncles Client ClientProofs Closing.

Open Scope Z_scope.

#[local] Opaque merkle_root tree_root.

Section Mining.
Context {MH : MerkleHash} {W : Type} {WO : WalletOps W} {WL : WalletLaws W}.
Context {K : Keccak} {K5 : Keccak512} {RS : RlpStream} {BL : Blake2b} {SH : Sha256} {RI : RlpItem} {ST : SystemTime}.
Context (e : Ethash) (Hok : ethash_ok e).

Lemma push_uncles_all uncles new : zlen uncles + zlen new <= maximum_uncle_count e -> push_uncles e uncles new = Some (uncles ++ new).
Proof.
  revert uncles. induction new as [|u new IH]; intros uncles Hl; cbn [push_uncles]; [by rewrite app_nil_r|].
  rewrite zlen_cons in Hl. pose proof (zlen_nonneg new). unfold push_uncle_expect, push_uncle.
  rewrite (proj2 (Z.ltb_ge _ _)) by lia. cbn [mbind option_bind]. rewrite IH; [by rewrite <- app_assoc|].
  rewrite zlen_app. change (zlen [u]) with 1. lia.
Qed.

(** ** The chain as a provider *)

Section Chain.
Context (config : RewardConfig) (w : W) (g : Block) (t : Tree) (c : BlockChain (W := W)) (Hs : simulates config w g t c).
Context (Hzero : tr_known t !! 0 = None).

Abbreviation B := (tr_known t).
Abbreviation best := (be_block (bc_best_block c)).

Lemma known_hash h b : B !! h = Some b -> b_hash b = h.
Proof.
  intros Hb. destruct (ok_tree _ _ _ _ _ (si_ok _ _ _ _ _ Hs) h b Hb) as (k & Hk).
  destruct (branch_last _ _ _ _ Hk) as (b' & _ & _ & Eh & Hb'). congruence.
Qed.

Lemma best_known : B !! b_hash best = Some best.
Proof.
  destruct (si_ok _ _ _ _ _ Hs) as [_ _ _ _ Hc Hl _ _ _ _ _ _ _]. destruct (branch_last _ _ _ _ Hc) as (b & l' & El & Eh & Hb).
  rewrite El, last_snoc in Hl. injection Hl as <-. by rewrite Eh.
Qed.

(** Every known block was accepted, as a child of its parent. *)
Definition accepted : Prop := (forall h b, B !! h = Some b -> header_ok (b_header b)) /\
  forall h b, B !! h = Some b -> h <> b_hash g -> exists p, B !! b_parent_hash b = Some p /\ good_child e (b_header b) (b_header p).

Context (Hacc : accepted).

Lemma accepted_tree : verified_tree g B e.
Proof.
  destruct Hacc as [H1 H2]. pose proof (ok_genesis _ _ _ _ _ (si_ok _ _ _ _ _ Hs)) as Hg.
  split; [done|done|]. split; apply Hg.
Qed.

Lemma views : views_ok g B c.
Proof. eapply chain_views, Hs. Qed.

Lemma provides_known : provides c B.
Proof. apply (views_provide g); [apply views|apply known_hash]. Qed.

Definition found : list Header := default [] (find_uncle_headers c (b_hash best) MAX_UNCLE_AGE).

(** The uncles found for a block on the best block follow the rules, and are distinct. *)
Lemma found_ok header : h_parent_hash header = b_hash best -> h_number header = b_number best + 1 -> B !! h_hash header = None ->
  Forall (uncle_ok e c B header) found /\ NoDup (h_hash <$> found).
Proof.
  intros Hp Hn Hnew. unfold found. destruct (find_uncle_headers _ _ _) as [us|] eqn:Ef; [|split; constructor]. cbn [default].
  split.
  - apply Forall_forall. intros u Hu. eapply (suggested_ok g B c views known_hash Hzero e Hok accepted_tree header best us); try done.
    + rewrite Hp. apply best_known.
    + by rewrite Hp.
  - eapply (suggested_distinct g B c views known_hash Hzero e accepted_tree); exact Ef.
Qed.

(** The fields of a header that the checks against the parent read. *)
Definition same_family (h1 h2 : Header) : Prop := h_parent_hash h1 = h_parent_hash h2 /\ h_number h1 = h_number h2 /\
  h_timestamp h1 = h_timestamp h2 /\ h_gas_limit h1 = h_gas_limit h2 /\ h_difficulty h1 = h_difficulty h2.

Lemma same_good h1 h2 parent : same_family h1 h2 -> good_child e h2 parent -> good_child e h1 parent.
Proof.
  intros (E1 & E2 & E3 & E4 & E5) [G1 G2 G3 G4]. split; [by rewrite E3|by rewrite E2|by rewrite E4|].
  rewrite E5, <- G4. unfold calculate_difficulty. by rewrite E2, E3.
Qed.

Lemma full_passes now header parent allowed txs uncles bytes : header_ok header -> header_ok parent -> h_hash parent = h_parent_hash header ->
  good_child e header parent -> uncles_ok e c B header uncles -> Forall (allows allowed parent) txs ->
  passes (verify_block_family now header parent e allowed (Some (mkPreverified header txs uncles bytes, c))).
Proof.
  intros Hh Hp Hf Hg Hu Ht. destruct (good_child_passes (W := W) e Hok now header parent Hh Hp (or_intror Hf) Hg) as [H1 H2].
  unfold verify_block_family. rewrite !passes_seq. split_and!; [done|done| |].
  - by apply (verify_uncles_spec e Hok c B provides_known).
  - apply passes_check_all. eapply Forall_impl; [exact Ht|]. intros tx. by apply verify_transaction_spec.
Qed.

(** Opening a block again adds uncles that follow the rules. *)
Lemma add_uncles_ok header hs uncles : Forall (fun x => exists bx, B !! x = Some bx /\ uncle_ok e c B header (b_header bx)) hs ->
  Forall (uncle_ok e c B header) uncles -> NoDup (h_hash <$> uncles) -> zlen uncles < maximum_uncle_count e ->
  exists uncles', add_uncles c e (maximum_uncle_count e) hs uncles = Some uncles' /\ zlen uncles' <= maximum_uncle_count e /\
    Forall (uncle_ok e c B header) uncles' /\ NoDup (h_hash <$> uncles').
Proof.
  intros Hhs. revert uncles. induction Hhs as [|x hs (bx & Hbx & Hx) _ IH]; intros uncles Hu Hd Hl; [exists uncles; split_and!; done || lia|].
  cbn [add_uncles]. destruct (existsb _ uncles) eqn:Ein; [by apply IH|].
  destruct (vo_blocks _ _ _ views x bx Hbx) as [-> _]. cbn [mbind option_bind]. unfold push_uncle_expect, push_uncle.
  rewrite (proj2 (Z.ltb_ge _ _)) by lia. cbn [mbind option_bind].
  assert (Forall (uncle_ok e c B header) (uncles ++ [b_header bx])) as Hu' by (apply Forall_app; split; [done|by apply Forall_singleton]).
  assert (NoDup (h_hash <$> uncles ++ [b_header bx])) as Hd'.
  { rewrite fmap_app. apply NoDup_app. split_and!; [done| |apply NoDup_singleton]. intros y Hy Ey%list_elem_of_singleton. subst y.
    apply list_elem_of_fmap in Hy as (u & Eu & Hu0). apply not_true_iff_false in Ein. apply Ein, existsb_exists. exists u.
    split; [by apply list_elem_of_In|]. pose proof (known_hash _ _ Hbx) as Eh. unfold b_hash in Eh. lia. }
  assert (zlen (uncles ++ [b_header bx]) = zlen uncles + 1) as Ez by (rewrite zlen_app; done).
  case_bool; [exists (uncles ++ [b_header bx]); split_and!; done || lia|]. apply IH; done || lia.
Qed.

Lemma reopened_ok header uncles : h_parent_hash header = b_hash best -> h_number header = b_number best + 1 -> B !! h_hash header = None ->
  uncles_ok e c B header uncles -> 0 <= maximum_uncle_count e ->
  exists uncles', reopen_block c e uncles = Some uncles' /\ uncles_ok e c B header uncles'.
Proof.
  intros Hp Hn Hnew Hu Hmax. unfold reopen_block. case_bool; [|by exists uncles].
  assert (zlen uncles <= maximum_uncle_count e /\ Forall (uncle_ok e c B header) uncles /\ NoDup (h_hash <$> uncles)) as (Hl & Hf & Hd)
    by (destruct Hu as [->|Hu]; [split_and!; [lia|constructor|constructor]|done]).
  change (best_block_hash c) with (b_hash best). destruct (found_ok header Hp Hn Hnew) as [Hok' _]. unfold found, find_uncle_headers in Hok'.
  destruct (add_uncles_ok header (default [] (find_uncle_hashes c (b_hash best) MAX_UNCLE_AGE)) uncles) as (us & E & Hus); [|done|done|lia|].
  - destruct (find_uncle_hashes c (b_hash best) MAX_UNCLE_AGE) as [hs|] eqn:Ef; [|constructor]. cbn [default mbind option_bind] in *.
    destruct (find_uncles_distinct g B c views known_hash Hzero e accepted_tree _ _ _ Ef) as [_ Hk].
    apply Forall_forall. intros x Hx. eapply Forall_forall in Hk as (bx & Hbx); [|exact Hx]. exists bx. split; [done|].
    eapply Forall_forall in Hok'; [exact Hok'|]. apply list_elem_of_omap. exists x. split; [done|]. by apply (vo_blocks _ _ _ views).
  - exists us. split; [done|]. by right.
Qed.

Lemma prepared_ok now author range extra : 0 <= maximum_uncle_count e -> roomy e (b_header best) -> 0 <= now < 2 ^ 63 ->
  exists header, prepare_open_block c e now author range extra = Some (header, take (Z.to_nat (maximum_uncle_count e)) found) /\
    header_ok header /\ good_child e header (b_header best) /\ h_parent_hash header = b_hash best.
Proof.
  intros Hmax Hr Hnow. destruct (opened_ok e Hok now (b_header best) author range extra Hr Hnow) as (header & E & Hh & Hg & Ep & _).
  exists header. split; [|done]. unfold prepare_open_block. rewrite E. cbn [mbind option_bind]. fold (b_hash best). fold found.
  rewrite push_uncles_all; [done|]. unfold zlen. rewrite length_take. cbn [length]. lia.
Qed.

End Chain.

(** C4: Blocks that the client prepares pass the verification. After any run from a new
    database in which every block was accepted as a child of its parent, preparing a block on
    the best block does not panic; however its header is completed and sealed, the checks
    against the parent accept it with the uncles that were added, and also with those that
    are added when the block is opened again. *)
Theorem prepared_blocks_verify config (w : W) g es t c0 c now author range extra : (forall d a b, is_u256 (merkle_hash d a b)) ->
  genesis_fits config g w -> runs config w g (genesis_tree g) es t ->
  blockchain_new config g w empty_disk = Some c0 -> perform_all es c0 = Some c ->
  tr_known t !! 0 = None -> accepted g t -> 0 <= maximum_uncle_count e -> roomy e (b_header (be_block (bc_best_block c))) -> 0 <= now < 2 ^ 63 ->
  exists header uncles, prepare_open_block c e now author range extra = Some (header, uncles) /\
    forall sealed, same_family sealed header -> tr_known t !! h_hash sealed = None ->
    exists more, reopen_block c e uncles = Some more /\
      forall now' allowed txs bytes us, us = uncles \/ us = more -> Forall (allows allowed (b_header (be_block (bc_best_block c)))) txs ->
      passes (verify_block_family now' sealed (b_header (be_block (bc_best_block c))) e allowed (Some (mkPreverified sealed txs us bytes, c))).
Proof.
  intros HU Hf Hr H0 H1 Hzero Hacc Hmax Hroom Hnow. pose proof (run_same HU _ _ _ _ _ _ _ Hf Hr H0 H1) as Hs.
  destruct (prepared_ok c now author range extra Hmax Hroom Hnow) as (header & E & Hh & Hg & Ep). exists header, (take (Z.to_nat (maximum_uncle_count e)) (found c)).
  split; [done|]. intros sealed Hsf Hnew. pose proof (same_good sealed header _ Hsf Hg) as Hg'.
  destruct Hsf as (E1 & E2 & E3 & E4 & E5). rewrite Ep in E1. pose proof (gc_number _ _ _ Hg') as Hn.
  destruct (found_ok config w g t c Hs Hzero Hacc sealed E1 Hn Hnew) as [Hu Hd].
  assert (uncles_ok e c (tr_known t) sealed (take (Z.to_nat (maximum_uncle_count e)) (found c))) as Huo.
  { right. split_and!; [unfold zlen; rewrite length_take; lia|by apply Forall_take|].
    rewrite fmap_take. apply (NoDup_app _ (drop (Z.to_nat (maximum_uncle_count e)) (h_hash <$> found c))). by rewrite take_drop. }
  destruct (reopened_ok config w g t c Hs Hzero Hacc sealed _ E1 Hn Hnew Huo Hmax) as (more & Em & Hmore). exists more. split; [done|].
  intros now' allowed txs bytes us Hus Ht. apply (full_passes config w g t c Hs); [|apply Hroom|done|done|by destruct Hus as [->| ->]|done].
  destruct Hh. by split; rewrite ?E2, ?E3, ?E4, ?E5.
Qed.


(** C38: What a commit makes canonical. After any run, in which blocks may have been finalised,
    committing a block [b] that fits on the branch [lp] does not panic, and the chain answers
    for the tree with [b] added. The branch of [b] becomes canonical if and only if it is
    heavier than the canonical branch and no parent of a block that it would retract ([k1],
    after [x]) is finalised. So a finalised best block does not keep a heavier sibling from
    replacing it, while a finalised block [x], which both branches have, keeps its children
    from being replaced. *)
Theorem commits_follow_fork_choice config (w : W) g es t c0 c b receipts lp p x k1 k2 : (forall d a b, is_u256 (merkle_hash d a b)) ->
  genesis_fits config g w -> runs config w g (genesis_tree g) es t ->
  blockchain_new config g w empty_disk = Some c0 -> perform_all es c0 = Some c ->
  (forall h y, tr_known t !! h = Some y -> 0 < h_difficulty (b_header y)) -> importable config w g t b lp ->
  tr_canon t = (p ++ [x]) ++ k1 -> lp = (p ++ [x]) ++ k2 -> parts k1 k2 ->
  let choice := if existsb (finalized_at c) (b_hash <$> parents x k1) then ForkOld else heavier b (tr_canon t) lp in
  let t' := add_block b receipts choice lp t in
  exists route c' e', commit_block c e b receipts [] = Some (route, c', e') /\ answers g t' c' /\ leads (tr_canon t) (tr_canon t') route.
Proof.
  intros HU Hf Hr H0 H1 Hpos Him El Elp Hp choice t'. pose proof (run_same HU _ _ _ _ _ _ _ Hf Hr H0 H1) as Hs.
  destruct (commit_choice HU config w g t c e Hs Hpos b receipts lp Him p x k1 k2 El Elp Hp) as (route & c' & e' & E & Hl & Hs' & _).
  exists route, c', e'. split_and!; [done|by eapply simulates_answers|done].
Qed.

(** The engine pays by the branch that the node follows. After committing any blocks, the
    reward for a block without uncles is the base reward of its era as the canonical branch of
    the node has it, whatever the branch of the block is: nodes that know the same blocks but
    follow branches with different base rewards for an era pay different rewards for the same
    block. *)
Theorem rewards_of_followed_branch config (w : W) g bs t : (forall d a b, is_u256 (merkle_hash d a b)) ->
  genesis_fits config g w -> 0 < h_difficulty (b_header g) -> imports config w g (genesis_tree g) bs t ->
  m_reward_config (et_machine e) = config ->
  exists c0 c e' r0 r, blockchain_new config g w empty_disk = Some c0 /\
    commit_all bs c0 (update_rewards (bc_rewards c0) e) = Some (c, e') /\
    genesis_rewards config = Some r0 /\ enact_rewards config r0 (tail (tr_canon t)) = Some r /\
    forall author number, era_rewarded (update_rewards r e) number -> Ethash.era_rewards e' author number [] =
      Some [(author, Author, whole_gwei (default 0 (get_era_base_reward (number / rc_block_count_each_era config) r)))].
Proof.
  intros HU Hf Hd Hi Hm. destruct (client_start config w g e Hf Hd) as (c0 & H0 & Hco0).
  destruct (commit_all_ok HU config w g _ _ _ _ _ Hi Hco0) as (c & e' & H1 & Hco).
  pose proof (si_ok _ _ _ _ _ (co_simulates _ _ _ _ _ _ Hco)) as Hok'. destruct (ok_rewards _ _ _ _ _ Hok') as (r0 & Hr0 & Hr & _).
  rewrite (si_config _ _ _ _ _ (co_simulates _ _ _ _ _ _ Hco)) in Hr0, Hr. exists c0, c, e', r0, (bc_rewards c). split_and!; try done.
  destruct (commit_all_engine _ _ _ _ _ H1) as [Em Ep]. cbn [update_rewards et_machine et_params] in Em, Ep.
  intros author number [Hc Hplain Hn Hb Hn64]. cbn [update_rewards et_machine et_params et_rewards] in *.
  rewrite <- Em in Hc, Hm. rewrite <- Ep in Hplain, Hn. rewrite <- (co_rewards _ _ _ _ _ _ Hco) in Hb.
  destruct (base_spec e' Hc Hplain Hb number ltac:(lia)) as (base & Eb & Hbase & Edef). rewrite Hm in Edef.
  unfold Ethash.era_rewards. rewrite Eb. cbn [mbind option_bind]. rewrite ecip_first by lia. cbn [mbind option_bind].
  unfold calc_author_miner_reward, mul. change (zlen []) with 0. rewrite Z.mul_0_r. change (0 <? U256_MOD) with true. cbn [mbind option_bind].
  unfold u256_add. change (u256_shr 0 5) with 0. rewrite Z.add_0_r, (proj2 (Z.ltb_lt base _)) by range_lia. cbn [mbind option_bind uncle_rewards].
  do 4 f_equal. rewrite Edef. unfold get_era_base_reward. by rewrite (co_rewards _ _ _ _ _ _ Hco).
Qed.

End Mining.

(** ** A chain with an uncle *)

Section Witness.
Import TestChain TestEngine.
#[local] Existing Instance zero_digest.

Definition m0 : Block := block_at 1 100 0.
Definition m1 : Block := block_at 2 1 1.
Definition u1 : Block := block_at 3 1 1.
Definition m2 : Block := block_at 4 2 2.

Definition mining_events : list Event := [Import m1 [] best; Import u1 [] side; Import m2 [] best].
Definition mining_tree : Tree :=
  add_block m2 [] ForkNew [m0; m1] (add_block u1 [] ForkOld [m0] (add_block m1 [] ForkNew [m0] (genesis_tree m0))).
Definition mining_engine : Ethash := test_ethash (test_config 10) rewards_new.

Lemma mining_genesis : genesis_fits (test_config 10) m0 test_wallet.
Proof.
  split; [by split|done..| |].
  - by apply good_ok; vm_compute.
  - by apply follows_empty; vm_compute.
Qed.

Lemma mining_runs : runs (test_config 10) test_wallet m0 (genesis_tree m0) mining_events mining_tree.
Proof.
  import [m0]; [by apply branch_genesis|].
  import [m0]; [by apply branch_genesis|].
  import [m0; m1]; [apply (branch_child m0 _ _ m1 [m0]); [by apply branch_genesis|reflexivity|reflexivity|reflexivity|discriminate]|].
  apply runs_nil.
Qed.

Lemma mining_accepted : accepted mining_engine m0 mining_tree.
Proof.
  split.
  - intros h b. cbn [tr_known mining_tree add_block genesis_tree]. rewrite !lookup_insert_Some, lookup_singleton_Some.
    intros [[<- <-]|[_ [[<- <-]|[_ [[<- <-]|[_ [<- <-]]]]]]]; by apply header_at_ok.
  - intros h b. cbn [tr_known mining_tree add_block genesis_tree]. rewrite !lookup_insert_Some, lookup_singleton_Some.
    intros [[<- <-]|[_ [[<- <-]|[_ [[<- <-]|[_ [<- <-]]]]]]] Hne; [exists m1|exists m0|exists m0|done]; (split; [reflexivity|]);
      (split; [done|done|done|by vm_compute]).
Qed.

(** The block on top of [m2] has the uncle [u1], and a new hash. *)
Lemma mining_prepared :
  (c0 ← blockchain_new (test_config 10) m0 test_wallet empty_disk; c ← perform_all mining_events c0;
   '(h, us) ← prepare_open_block c mining_engine 30 77 (3000000, 5000000) [];
   Some (fmap (M := list) h_hash us, bool_decide (tr_known mining_tree !! h_hash (set_seal [] h) = None))) = Some ([3], true).
Proof. vm_compute. reflexivity. Qed.

Lemma prepared_blocks_verify_witness : exists c0 c header uncles,
  blockchain_new (test_config 10) m0 test_wallet empty_disk = Some c0 /\ perform_all mining_events c0 = Some c /\
  prepare_open_block c mining_engine 30 77 (3000000, 5000000) [] = Some (header, uncles) /\ h_hash <$> uncles = [3] /\
  passes (verify_block_family 0 (set_seal [] header) (b_header (be_block (bc_best_block c))) mining_engine None
    (Some (mkPreverified (set_seal [] header) [] uncles [], c))).
Proof.
  destruct (run_simulates test_u256 _ _ _ _ _ mining_genesis mining_runs) as (c0 & c & H0 & H1 & Hs).
  assert (be_block (bc_best_block c) = m2) as Ebest by (pose proof (ok_best _ _ _ _ _ (si_ok _ _ _ _ _ Hs)) as Hl; by injection Hl).
  destruct (prepared_blocks_verify mining_engine (test_ethash_ok _ _) (test_config 10) test_wallet m0 mining_events mining_tree c0 c
    30 77 (3000000, 5000000) [] test_u256 mining_genesis mining_runs H0 H1) as (header & uncles & E & Hall).
  - reflexivity.
  - exact mining_accepted.
  - by vm_compute.
  - rewrite Ebest. change (b_header m2) with (header_at 4 2 2 []). split; [apply header_at_ok; lia|cbn; range_lia..].
  - lia.
  - exists c0, c, header, uncles. split_and!; [exact H0|exact H1|exact E| |].
    + pose proof mining_prepared as Hc. rewrite H0 in Hc. cbn [mbind option_bind] in Hc. rewrite H1 in Hc. cbn [mbind option_bind] in Hc.
      rewrite E in Hc. apply (inj Some), (f_equal fst) in Hc. exact Hc.
    + destruct (Hall (set_seal [] header)) as (more & _ & Hp); [by split_and!| |apply Hp; [by left|constructor]].
      pose proof mining_prepared as Hc. rewrite H0 in Hc. cbn [mbind option_bind] in Hc. rewrite H1 in Hc. cbn [mbind option_bind] in Hc.
      rewrite E in Hc. apply (inj Some), (f_equal snd), bool_decide_eq_true in Hc. exact Hc.
Defined.


(** One more block is committed, below the branch [k]. *)
Ltac committed k := eapply (imports_cons _ _ _ _ _ _ k);
  [split; [reflexivity| |reflexivity|discriminate|by apply good_ok; vm_compute|reflexivity]|].



(** ** Rewards on other branches *)

(** Two blocks that end the first era of four blocks, one of them with an uncle. *)
Definition x3 : Block := block_at 5 4 3.
Definition y3 : Block := mkBlock (header_at 6 4 3 []) (mkBody [] [b_header u1]).

(** The tree of a node that has [x] before [y]. *)
Definition era_tree (x y : Block) : Tree := add_block y [] ForkOld [m0; m1; m2] (add_block x [] ForkNew [m0; m1; m2] mining_tree).

Lemma era_genesis : genesis_fits (test_config 4) m0 test_wallet.
Proof.
  split; [by split|done..| |].
  - by apply good_ok; vm_compute.
  - by apply follows_empty; vm_compute.
Qed.

Lemma era_imports x y : (x, y) ∈ [(x3, y3); (y3, x3)] ->
  imports (test_config 4) test_wallet m0 (genesis_tree m0) ((fun b => (b, [])) <$> [m1; u1; m2; x; y]) (era_tree x y).
Proof.
  intros [[= -> ->]|[[= -> ->]|[]%not_elem_of_nil]%elem_of_cons]%elem_of_cons;
    (committed [m0]; [by apply branch_genesis|]; committed [m0]; [by apply branch_genesis|];
     committed [m0; m1]; [apply (branch_child m0 _ _ m1 [m0]); [by apply branch_genesis|reflexivity|reflexivity|reflexivity|discriminate]|];
     do 2 (committed [m0; m1; m2]; [apply (branch_child m0 _ _ m2 [m0; m1]); [|reflexivity|reflexivity|reflexivity|discriminate];
       apply (branch_child m0 _ _ m1 [m0]); [by apply branch_genesis|reflexivity|reflexivity|reflexivity|discriminate]|]);
     apply imports_nil).
Qed.

Definition era_engine : Ethash := test_ethash (test_config 4) rewards_new.

(** Nodes that know the same blocks pay different rewards for the next one, without uncles. *)
Lemma rewards_of_followed_branch_witness : tr_known (era_tree x3 y3) = tr_known (era_tree y3 x3) /\
  exists c1 e1 c2 e2 a1 a2, a1 <> a2 /\
  (c0 ← blockchain_new (test_config 4) m0 test_wallet empty_disk;
   commit_all ((fun b => (b, [])) <$> [m1; u1; m2; x3; y3]) c0 (update_rewards (bc_rewards c0) era_engine)) = Some (c1, e1) /\
  (c0 ← blockchain_new (test_config 4) m0 test_wallet empty_disk;
   commit_all ((fun b => (b, [])) <$> [m1; u1; m2; y3; x3]) c0 (update_rewards (bc_rewards c0) era_engine)) = Some (c2, e2) /\
  Ethash.era_rewards e1 77 4 [] = Some [(77, Author, a1)] /\ Ethash.era_rewards e2 77 4 [] = Some [(77, Author, a2)].
Proof.
  split; [apply insert_insert_ne; discriminate|].
  destruct (rewards_of_followed_branch era_engine (test_config 4) test_wallet m0 _ (era_tree x3 y3) test_u256 era_genesis eq_refl
    (era_imports x3 y3 ltac:(left)) eq_refl) as (c0 & c1 & e1 & r0 & r1 & H0 & H1 & Hr0 & Hr1 & Ha1).
  destruct (rewards_of_followed_branch era_engine (test_config 4) test_wallet m0 _ (era_tree y3 x3) test_u256 era_genesis eq_refl
    (era_imports y3 x3 ltac:(right; left)) eq_refl) as (c0' & c2 & e2 & r0' & r2 & H0' & H2 & Hr0' & Hr2 & Ha2).
  vm_compute in Hr0. injection Hr0 as <-. vm_compute in Hr1. injection Hr1 as <-.
  vm_compute in Hr0'. injection Hr0' as <-. vm_compute in Hr2. injection Hr2 as <-.
  do 6 eexists. split_and!; [|rewrite H0; exact H1|rewrite H0'; exact H2|apply Ha1|apply Ha2].
  - vm_compute. discriminate.
  - split; [by split; vm_compute|reflexivity|split; [discriminate|reflexivity]|apply (bool_decide_unpack _); vm_compute; exact I|reflexivity].
  - split; [by split; vm_compute|reflexivity|split; [discriminate|reflexivity]|apply (bool_decide_unpack _); vm_compute; exact I|reflexivity].
Defined.

(** ** Finality *)

(** The best block [a1] is finalised, and replaced by a heavier sibling. *)
Lemma commits_follow_fork_choice_witness : exists c route c' e',
  (c0 ← start 10; perform_all [Import a1 [] TestChain.best; Finalize (b_hash a1)] c0) = Some c /\ finalized_at c (b_hash a1) = true /\
  commit_block c mining_engine heavy [] [] = Some (route, c', e') /\ best_block_hash c' = b_hash heavy.
Proof.
  assert (Hr : runs (test_config 10) test_wallet g (genesis_tree g) [Import a1 [] TestChain.best; Finalize (b_hash a1)] first_tree).
  { import [g]; [by apply branch_genesis|]. apply runs_finalize; [by eexists|apply runs_nil]. }
  assert (Hc : (c0 ← start 10; c ← perform_all [Import a1 [] TestChain.best; Finalize (b_hash a1)] c0;
    Some (finalized_at c (b_hash g), finalized_at c (b_hash a1))) = Some (false, true)) by (vm_compute; reflexivity).
  destruct (run_simulates test_u256 _ _ _ _ _ test_genesis Hr) as (c0 & c & H0 & H1 & _).
  unfold start in Hc |- *. rewrite H0 in Hc |- *. cbn [mbind option_bind] in Hc |- *. rewrite H1 in Hc |- *. cbn [mbind option_bind] in Hc |- *.
  injection Hc as Hg Ha.
  destruct (commits_follow_fork_choice mining_engine (test_config 10) test_wallet g _ first_tree c0 c heavy [] [g] [] g [a1] [] test_u256 test_genesis
    Hr H0 H1) as (route & c' & e' & E & Hans & _); [| |reflexivity|reflexivity|by intros ? ?|].
  - intros h y. cbn [tr_known first_tree add_block genesis_tree]. rewrite lookup_insert_Some, lookup_singleton_Some.
    by intros [[<- <-]|[_ [<- <-]]].
  - split; [reflexivity|by apply branch_genesis|reflexivity|discriminate|by apply good_ok; vm_compute|reflexivity].
  - exists c, route, c', e'. split_and!; [reflexivity|exact Ha|exact E|].
    destruct (an_best _ _ _ Hans) as (Hb & _). cbn [fmap list_fmap parents take length existsb] in Hb. rewrite Hg in Hb. cbn [orb] in Hb.
    apply (inj Some) in Hb. unfold best_block_hash. by rewrite <- Hb.
Defined.

End Witness.
